(* ===== verification/_CoqProject ===== *)
-Q . S2P
Prelude.v
JobStatus.v
DList.v
CLib.v
HashTable.v
JobId.v
Accounting.v
Xdr.v
LsbXdr.v
SbdXdr.v
DepCond.v
CalLex.v
JobIndex.v
JobArray.v
JobLists.v
JobGroup.v
JobTree.v
JobForest.v
JobClip.v
JobReady.v
JobState.v
JobChange.v
JobRequeue.v
JobNew.v
JobNewSpec.v
Words.v
Stdio.v
Requeue.v
TimeWindow.v
TimeWindowSpec.v
EventText.v
EventLog.v
EventLaws.v
EventRoundTrip.v
EventReplay.v
EventKept.v
EventFilter.v
SlotLimits.v
Dispatch.v
DispatchSpec.v
BitSet.v
Groups.v
UserSets.v
UserSetsSpec.v
