(* ===== verification/Prelude.v ===== *)
(** * A verification library for the openlava batch system

    openlava is a batch system for clusters of Unix hosts.  Users submit jobs to
    queues; mbatchd, the master daemon, keeps all jobs, queues, users and hosts
    in memory and decides which job runs where; an sbatchd on each host runs and
    supervises jobs; a LIM on each host reports load; commands and daemons talk
    through messages encoded with XDR.  The library models the part of the C
    sources on which mbatchd's own state rests, and the messages around it.

    ** The files

    - [Prelude] (this file): machine integers, bit masks, C strings, the
      automation and the lemmas on integers, bits and lists that all files share.
    - [JobStatus]: the status word of a job.  lsbatch.h and daemons.h ([IS_PEND],
      [MASK_STATUS], [SET_STATE], ...), mbd.job.c ([matchJobStatus],
      [skipJobListByReq]), mbd.jgrp.c ([getIndexOfJStatus]).
    - [DList]: the circular doubly linked lists threaded through all data.
      lsf/lib/lib.table.c ([insList_], [remList_]), lsf/intlib/list.c ([LIST_T]
      with its observers and iterators) and list2.c.  The memory is modelled: a
      heap from addresses to links.
    - [CLib]: what the sources use of ctype.h, stdio.h and stdlib.h on numbers.
    - [HashTable]: the string-keyed hash table of lsf/lib/lib.table.c.
    - [JobId]: the 64-bit job identifiers of lsbatch.h and
      lsbatch/lib/lsb.misc.c, the tables keyed by numbers, and the allocation of
      job numbers in mbd.job.c.
    - [Accounting]: the job counters and slot limits of mbd.misc.c.
    - [CalLex], [JobIndex], [JobArray]: job arrays.  callex.c (the lexer of index
      lists), jidx.c (the parser made by yacc, with its tables), mbd.jarray.c and
      the ranges of elements in client requests.
    - [Xdr]: the XDR streams of lsf/lib/lib.xdr.c and lib.xdrmisc.c: header,
      credentials, messages.
    - [LsbXdr]: the messages of the batch system, lsbatch/lib/lsb.xdr.c; [SbdXdr]: those
      between mbatchd and sbatchd, daemons.xdr.c and sbd.xdr.c, with the buffer that
      [start_job] (mbd.comm.c) makes for a job.
    - [DepCond]: the dependency conditions of jobs, mbd.dep.c.
    - [JobLists]: the order of the pending and started jobs and the requests that
      change it, mbd.job.c ([inPendJobList], [inStartJobList], [jobInQueueEnd],
      [moveAJob], [insertAndShift]).
    - [JobGroup]: the tree of job groups and arrays with its counters, mbd.jgrp.c;
      [JobTree]: the operations that walk through it and change its links
      ([treeLexNext], [treeInsertChild], [treeClip], [treeFree], [putOntoTree]);
      [JobForest] and [JobClip] hold the theorems on them.
    - [JobReady]: the check of all dependency conditions on a walk through the tree,
      mbd.jgrp.c ([checkJgrpDep]).
    - [JobState]: the changes of state of a job, mbd.job.c ([jStatusChange],
      [handleFinishJob], [handleRequeueJob], [changeJobParams] and what they
      call); [JobChange] and [JobRequeue] hold the theorems on them.
    - [JobNew]: creation of jobs and arrays and their removal, mbd.job.c
      ([handleNewJob], [removeJob]) and mbd.jarray.c ([handleNewJobArray]);
      [JobNewSpec] holds the theorems.
    - [Requeue]: the exit values with which jobs are queued again, mbd.requeue.c.
    - [TimeWindow]: time windows, window.c, and those who look at them: queues
      ([checkQWindow]), hosts ([checkHWindow]), conditions (mbd.window.c), jobs
      ([window_ok] of sbd.misc.c) and the host of a LIM ([checkHostWd]);
      [TimeWindowSpec] holds the theorems.
    - [SlotLimits]: the slots that the limits of queues, users and hosts leave to a job;
      [Dispatch]: the distribution of a job over its candidate hosts and its dispatch,
      mbd.policy.c; [DispatchSpec] holds the theorems.
    - [BitSet]: sets of small numbers, lsf/intlib/bitset.c.
    - [Groups]: the queries about groups of users and hosts, mbd.grp.c, and their answer
      ([do_groupInfoReq], mbd.serv.c); [UserSets]: the records of users and groups with
      their sets of parents, ancestors, children and descendants (mbd.grp.c,
      [addUserData] of mbd.misc.c); [UserSetsSpec] holds the theorems.
    - [Words]: words, quoted strings and lines of text files, lib.words.c.
    - [Stdio]: what the sources use of printf and scanf on ints, floats and
      doubles, on the floating-point numbers of the Standard Library.
    - [EventText], [EventLog]: the records of the event log lsb.events and of the
      accounting file, lsbatch/lib/lsb.log.c: each structure of lsbatch.h with
      its writer and its reader, [lsb_puteventrec], [lsb_geteventrec], the loop
      of [init_log] (mbd.log.c) and the walk for given jobs
      ([lsbGetNextJobRecFromFile]).  [EventLaws] and [EventRoundTrip] hold the
      laws of the readers and a law for each record; [EventReplay], [EventKept]
      and [EventFilter] the theorems.

    ** How they fit together

    [DList] justifies the representation of lists as sequences in the other
    files: its theorems say that each operation on the links has the effect of
    the operation on sequences.  [HashTable] represents each bucket in that way
    and implements the type class [StrTable], a finite map from strings with
    insertion, deletion and lookup; [JobId] is written against [StrTable] only,
    so that its theorems hold for any implementation, and [hash_StrTable] is the
    one that the program has.  [Accounting], [DepCond] and the selection
    predicates rest on the status words of [JobStatus].  [Xdr] and [LsbXdr] are
    written against the class [XdrPrims] of the routines of the XDR library
    (which is not part of the sources), whose laws are what RFC 4506 documents;
    [rfc4506] is an instance, so that messages can be evaluated.

    [JobState] puts the parts of mbatchd together: its state [mbs] has the store
    of jobs and lists of [JobLists], the counters of [Accounting] and the tree of
    [JobGroup], which the C code keeps in separate global variables and which
    [jStatusChange] must change together.  [acct_job] is the view that the
    counters have of a job, [linked] the jobs on the four lists; [lists_ok],
    [counted_ok] and [groups_ok] are the invariants of the three parts.  An
    operation on one job is described by relations of increasing strength:
    [near] (the other jobs stay), [apart] (the job does not move), [relinked]
    (it is taken to a given list), [still] (nothing that counts changes); the
    tactic [still] proves the last of these for straight-line code.

    [JobNew] adds to this state the table of jobs and the arrays, and shows that
    a new job or array is linked, counted and in the table.  [SlotLimits] reads the counters of
    [Accounting]; [DispatchSpec] joins it with [Dispatch]: what is dispatched
    stays within what the counters leave.

    The sets of [UserSets] are bit sets in a store, because some are shared: [store_ok] is
    the invariant that gives each its contents, [sound] says that a set holds only names that
    belong there, and [steps] is the relation of states that the parts of the walk through a
    group are composed with.  It keeps both and never takes a name out of a set ([holds]).

    The times in the lists of [TimeWindow] are 32-bit floats.  [TimeWindowSpec] reads
    them as minutes: [ft] maps the minutes of a day to floats and keeps their order
    ([ft_compare], by evaluation on all 1560 of them), so that a list is a set of
    intervals of integers.

    The tree of job groups is a heap of nodes with four pointers each.  Its
    abstract value is a [forest]; [shape] relates the two, a [place] is a forest
    with a hole, and [reshape] is the frame rule: when the node that points to the hole
    is the only one that changes, the forest around the hole stays.  [tree_ok] adds that the counters
    equal a recount over the jobs of the forest ([items]).  [JobReady] joins
    this tree with [DepCond]: conditions see jobs only up to an equivalence that ignores
    flags ([jData_equiv], with its [Proper] instances), so that marking jobs
    while conditions are evaluated does not change what they mean.

    The event log is text.  A reader of [EventText] is a function of the pointer
    into the line, whose outcomes are a value, an error code of lsbatch.h, or
    [Wild] when the code would read or write outside of a buffer.  A record is a
    list of fields separated by blanks; [event_law] relates the text that a
    writer makes, the fields, and what the reader makes of them, and is proved
    for each record field by field with the hint database [event].

    ** State, operations, errors

    A structure of the sources is a record with the fields that the modelled
    code uses; a pointer to a structure is an address ([DList]), a key
    ([Accounting], [HashTable]) or a number ([DepCond]).  A function that changes
    memory takes the state and returns it.  A function that can fail returns an
    option, a sum, or the type [res] of [DepCond].  An int or long is a Z; where
    the code converts to a narrower type, the conversion is written.  A C string
    is the list of its characters before the NUL.

    ** What the theorems show

    - Accounting: after every change of a job's state, of its reservation, or of
      its queue, the incremental counters of queues, users, groups and hosts are
      what a recount over all jobs gives ([updCounters_recount],
      [updResCounters_recount], [updSwitchJob_recount]); the limit reasons and
      flags derived from them are right (lemmas [queue_limit_reason],
      [host_full_flag]).
    - Tables and lists: the hash table is a map and stays well formed as it grows ([table_refines_map]);
      [insert_ops_refine], [remove_ops_refine]; lemmas [table_ops_wf], [table_iteration_complete],
      [listinsertsort_sorted], [list_entry_ops], [list_traversals].
    - Job arrays: the index list of a job name is parsed as it is meant
      ([array_index_parsed]; its indices are not compared with MAX_JOB_ARRAY_SIZE,
      [index_above_maximum]), the ranges that are accepted fit a job identifier
      ([accepted_ranges_fit]), and a list of jobs and elements names each job once
      ([job_id_list]).
    - Creation of jobs: [handleNewJobArray_consistent].
    - Requeue values: [requeue_values_parsed].
    - Time windows: a week made by [addWindow] is well formed
      ([configured_week_ok]) and a queue is open when its windows say so
      ([queue_follows_windows]); lemmas say the same of hosts, jobs, conditions
      and LIM.  Examples show what goes wrong with the time at which a run window closes
      ([always_open_loops], [closed_in_the_past], [closes_a_day_late],
      [edge_in_floats]).
    - Dispatch: the slots that a job is given on each host are within the limits
      ([dispatch_within_limits]); examples show what borrowed slots, negative
      counters and file requests do to this ([backfill_over_limit],
      [negative_slots_overflow], [no_file_bits]).
    - Identifiers: [job_id_round_trip], [getNextJobId_spec] (the largest number is not assigned,
      [highest_not_assigned]); lemma [member_ops_spec].
    - Status: lemmas [set_state_spec], [selected_job_is_visited].
    - Order: [pending_order], lemma [started_order]; moves by users: [job_move].
    - The tree of job groups: a loop over it ends and visits each node once
      ([tree_walk]); a node that is replaced or removed leaves a tree with exact counters
      and no dangling pointer ([rename_keeps_tree], [clip_free_safe]).
    - Readiness: after enough calls of [checkJgrpDep] every pending job is ready
      exactly when its condition holds ([conditions_are_checked]); examples show
      two ways in which the flags mislead the scheduler ([new_job_is_ready],
      [invalid_flag_stays]).
    - Changes of state: under the conditions that the theorems state [jStatusChange] does not fail, and keeps the lists
      ([jStatusChange_lists]), the counters of queues, users and hosts
      ([jStatusChange_counters]) and of groups ([jStatusChange_groups]) exact;
      so does [handleRequeueJob] ([handleRequeueJob_consistent]).  The exception
      is a submission modified for one run ([modify_once_counters]).
    - Sets and groups: a bit set answers as a finite set does ([set_refines_gset]); every query
      about groups gets the code and the groups that [group_reply] says
      ([group_query_answered]); the sets of each user and group are the closure of
      membership, as [gMember] computes it ([groups_closed]).  Examples show what the
      operations do beyond that ([difference_adds], [union_into_empty],
      [remove_other]) and what becomes of groups that stand for everybody
      ([everyone_not_before], [empty_subgroup]).
    - Messages: every structure survives the wire (the lemmas [message_round_trip],
      [header_round_trip], [auth_round_trip], [library_round_trips], and the theorem and
      lemmas of [LsbXdr], of which [Groups] uses that on the reply to a query); two defects (lemmas [getXdrStrlen_error],
      [eauth_unbounded]).  The description of a job reaches sbatchd as it was sent, when the
      buffer has room for it ([job_request_intact]), which many short variables in the
      environment prevent ([large_environment]); lemma [sbatchd_messages_round_trip].
    - Event log: a log of written records, with comments and damaged lines in
      it, is read to its end and every record comes back ([event_log_replay]), unless a damaged line
      looks like a lack of memory, with which mbatchd dies ([fatal_start]);
      reading ends for every file ([read_log_total]); a submission is read back
      unchanged ([job_new_kept]); the walk for given jobs selects their records and all
      submissions ([job_log_selection], [other_submission]).  Examples show where records are lost
      ([status_record_hides], [truncated_record], [fresh_log],
      [message_belongs_to_user]).
    - Dependency conditions: the parser ends ([parse_terminates]) but for certain time windows,
      with which it runs forever ([window_never_ends]); it reads the
      conditions of a class as they are meant ([parse_correct]), the evaluation
      computes their three-valued meaning ([evalDepCond_spec],
      [job_array_condition]); outside of the class precedences are mistaken
      ([parse_precedence]), and a malformed text is accepted ([parse_malformed]).

    ** Bounds and fuel

    - Loops over linked lists and hash buckets run on the sequence of nodes or
      with the number of entries as fuel; the theorems on them show that it
      suffices.
    - [getNextJobId] scans at most [maxJobId] numbers.
    - Decimal conversion has one step per binary digit as fuel.
    - [parse_loop], [measure_windows] and [parse_windows] have the length of the text as fuel;
      [parse_terminates] shows that it suffices where the code ends.
    - [moveAJob] calls itself at most once; its fuel is 2.  [shift_loop] has two
      steps more than the list has entries.
    - The loops over lines and records of a file have its length as fuel
      ([line_fuel]): each line takes a character, which [read_log_total] uses.
    - The walks to the root of the group tree, along siblings and through all
      nodes have the size of the tree as fuel; [path_length] and [nodes_size]
      show that it suffices.
    - The parsers of [JobIndex] run a machine of tables; their fuel is a multiple of the
      length of the text.
    - [insert_loop] inserts entries again when they have grown; each round has one
      entry less, so that the length of the list is enough ([insert_loop_spec]).
      [close_time_loop] may not end in the code, and has no bound.
    - [walk_down] goes through a stack of [MAX_GROUPS] entries; [each_record] has the number of
      known names as fuel ([groups_closed]).
    - Each round of [dispatch_loop] drops a candidate host; its fuel is more than
      their number.
    - An array in a message has at most 1000 elements and a string in it at most
      2^18 characters ([count_ok], [var_ok]) in the hypotheses of [LsbXdr], which
      keeps the offset of each array element below 2^31.

    ** What is not modelled

    - Memory: malloc does not fail and freed memory is not reused ([XDR_FREE] and
      the FREEUP calls have no counterpart); the static buffers that decoded
      structures point to are not modelled, nor is the last byte a string of
      maximal length overwrites.
    - Log messages, network and file I/O: a file is its text.
    - In [EventLog]: [calloc] fails only for negative numbers; the memory that a
      failed reader leaves; [lsb_openelog] and the switch to other files,
      index files of the log; [nextline_] of lib.words.c.
    - In [SbdXdr]: [xdr_chunkStatusReq], which goes on when an entry fails.
    - In [Accounting]: [getQUsable] (the eligibility of hosts) is a parameter, with
      the hypothesis that it leaves the counters alone; jobs without a user
      record; proxy lists of the scheduler.
    - In [DepCond]: [matchJobs] (the search for jobs by name) and [addWindow]
      are parameters; the buffer for the text of the windows.
    - In [JobLists] and [JobState]: jobs with no list (zombies), the array and the accounting record at the end of a job, the observers of
      the lists, candidate hosts, amounts of preemptable resources, the strings
      of the execution environment; [chkAskedHosts] and the parser of conditions
      are parameters of [changeJobParams]; of the event log they know only that a
      record is written.
    - In [JobTree]: the selection of jobs for queries, path names, permission checks,
      printing, reference counts of arrays.
    - In [JobReady]: the status and the links of jobs do not change between the calls
      that the theorem speaks of.
    - In [TimeWindow]: [ctime] and [mktime] are parameters, since they depend on the
      time zone.
    - In [UserSets]: the removal of users and groups when the configuration is read again; a null
      pointer to a set takes no element, and its use as an operand is an error.
    - In [Dispatch]: the choice of candidates from load and resource
      requirements, alternatives (XOR) in them, the order of the session,
      reservations in the future; the lists of jobs that lend slots to backfill
      another are given.
    - In [JobNew]: the checks of a submission, job files, the copies of elements
      that are modified on their own ([localizeJobElement]).
    - The session of the scheduler (mbd.policy.c), the handlers that replay the records
      of the event log (mbd.log.c), configuration, sbatchd, LIM, RES, PIM and the
      commands.

    ** Plan

    Next are the messages to LIM (lib.xdrlim.c); then the handlers of mbd.log.c
    that replay records on the state of [JobState], and the requests that reach
    [jStatusChange]: signals, switches, the status reports of sbatchd. *)

From stdpp Require Export base list gmap strings sorting.
From Stdlib Require Export ZArith Lia Bool Ascii.
From Stdlib Require Import Btauto String.

#[global] Open Scope Z_scope.

(** ** Machine integers

    A C integer is a [Z]; a conversion to a narrower type is written out where
    the source performs one. *)

Definition uint_of (w : Z) (z : Z) : Z := z mod 2 ^ w.
Definition sint_of (w : Z) (z : Z) : Z := (z + 2 ^ (w - 1)) mod 2 ^ w - 2 ^ (w - 1).

Abbreviation uint16 := (uint_of 16).
Abbreviation uint32 := (uint_of 32).
Abbreviation uint64 := (uint_of 64).
Abbreviation int32 := (sint_of 32).
Abbreviation int64 := (sint_of 64).

Definition in_uint (w z : Z) : Prop := 0 <= z < 2 ^ w.
Definition in_sint (w z : Z) : Prop := - 2 ^ (w - 1) <= z < 2 ^ (w - 1).

(** lsf.h: [#define INFINIT_INT 0x7fffffff] *)
Definition INFINIT_INT : Z := 2147483647.

(** ** Bit masks: [s & b] as a condition, [s & ~b] *)

Definition has (s b : Z) : bool := negb (Z.land s b =? 0).
Definition clr (s b : Z) : Z := Z.land s (Z.lnot b).

(** ** C strings: the characters before the terminating NUL *)

Abbreviation cstr := (list ascii).
Definition lit (s : string) : cstr := String.list_ascii_of_string s.
Definition NUL : ascii := Ascii.zero.

(** A value of type [cstr] is a C string only when it holds no NUL. *)
Definition no_nul (s : cstr) : Prop := NUL ∉ s.

Definition ch_eqb (a b : ascii) : bool := bool_decide (a = b).

(** ** Automation *)

Create HintDb lava.
Create HintDb lava_bits.

(** Turns every boolean comparison of the context into the proposition it
    decides. *)
Ltac breflect :=
  repeat match goal with
  | H : (_ && _)%bool = true |- _ => apply andb_true_iff in H; destruct H
  | H : (_ || _)%bool = false |- _ => apply orb_false_iff in H; destruct H
  | H : negb _ = true |- _ => apply negb_true_iff in H
  | H : negb _ = false |- _ => apply negb_false_iff in H
  | H : (_ =? _) = true |- _ => apply Z.eqb_eq in H
  | H : (_ =? _) = false |- _ => apply Z.eqb_neq in H
  | H : (_ <=? _) = true |- _ => apply Z.leb_le in H
  | H : (_ <=? _) = false |- _ => apply Z.leb_gt in H
  | H : (_ <? _) = true |- _ => apply Z.ltb_lt in H
  | H : (_ <? _) = false |- _ => apply Z.ltb_ge in H
  | H : bool_decide _ = true |- _ => apply bool_decide_eq_true in H
  | H : bool_decide _ = false |- _ => apply bool_decide_eq_false in H
  end.

(** Case analysis on the innermost condition of a goal. *)
Ltac case_if :=
  match goal with
  | |- context [if ?b then _ else _] =>
      lazymatch b with
      | context [if _ then _ else _] => fail
      | _ => destruct b eqn:?
      end
  end.

Ltac case_ifs := repeat case_if.

(** Two integers are equal when all their bits are. *)
Ltac bits :=
  apply Z.bits_inj'; intros ?i ?Hi;
  repeat (rewrite ?Z.land_spec, ?Z.lor_spec, ?Z.lxor_spec, ?Z.ldiff_spec;
          rewrite ?Z.lnot_spec, ?Z.bits_0 by lia);
  try btauto.

(** ** Lemmas on machine integers *)

Lemma uint_of_range w z : 0 <= w -> in_uint w (uint_of w z).
Proof. intros Hw. unfold in_uint, uint_of. apply Z.mod_pos_bound. lia. Qed.

Lemma uint_of_id w z : in_uint w z -> uint_of w z = z.
Proof. intros H. apply Z.mod_small. exact H. Qed.

Lemma sint_of_range w z : 0 < w -> in_sint w (sint_of w z).
Proof.
  intros Hw. unfold in_sint, sint_of.
  pose proof (Z.mod_pos_bound (z + 2 ^ (w - 1)) (2 ^ w)) as H.
  replace (2 ^ w) with (2 * 2 ^ (w - 1)) in *
    by (rewrite <- Z.pow_succ_r by lia; f_equal; lia).
  assert (0 < 2 ^ (w - 1)) by lia. lia.
Qed.

Lemma sint_of_id w z : 0 < w -> in_sint w z -> sint_of w z = z.
Proof.
  intros Hw H. unfold sint_of, in_sint in *.
  rewrite Z.mod_small; [lia|].
  replace (2 ^ w) with (2 * 2 ^ (w - 1))
    by (rewrite <- Z.pow_succ_r by lia; f_equal; lia). lia.
Qed.

Lemma sint_uint_of w z : 0 < w -> in_sint w z -> sint_of w (uint_of w z) = z.
Proof.
  intros Hw H. unfold sint_of, uint_of.
  rewrite Z.add_mod_idemp_l by lia. fold (sint_of w z). by apply sint_of_id.
Qed.

#[export] Hint Resolve uint_of_range sint_of_range : lava.

(** ** Lemmas on masks *)

Lemma has_spec s b : has s b = true <-> Z.land s b <> 0.
Proof. unfold has. rewrite negb_true_iff, Z.eqb_neq. done. Qed.

Lemma has_false s b : has s b = false <-> Z.land s b = 0.
Proof. unfold has. rewrite negb_false_iff, Z.eqb_eq. done. Qed.

Lemma clr_has s b : has (clr s b) b = false.
Proof. apply has_false. unfold clr. bits. Qed.

Lemma land_clr_disjoint s b m : Z.land b m = 0 -> Z.land (clr s b) m = Z.land s m.
Proof.
  intros H. unfold clr. apply Z.bits_inj'. intros i Hi.
  apply (f_equal (fun z => Z.testbit z i)) in H.
  rewrite Z.land_spec, Z.bits_0 in H.
  rewrite !Z.land_spec, Z.lnot_spec by lia.
  destruct (Z.testbit s i), (Z.testbit b i), (Z.testbit m i); simpl in *; congruence.
Qed.

Lemma land_lor_disjoint s b m : Z.land b m = 0 -> Z.land (Z.lor s b) m = Z.land s m.
Proof. intros H. by rewrite Z.land_lor_distr_l, H, Z.lor_0_r. Qed.

Lemma has_clr_disjoint s b m : Z.land b m = 0 -> has (clr s b) m = has s m.
Proof. intros H. unfold has. by rewrite land_clr_disjoint. Qed.

Lemma has_lor s t m : has (Z.lor s t) m = has s m || has t m.
Proof.
  unfold has. rewrite Z.land_lor_distr_l.
  destruct (Z.land s m =? 0) eqn:E1, (Z.land t m =? 0) eqn:E2; breflect;
    rewrite ?E1, ?E2; simpl; try done.
  - rewrite Z.lor_0_l. apply negb_true_iff, Z.eqb_neq. done.
  - rewrite Z.lor_0_r. apply negb_true_iff, Z.eqb_neq. done.
  - apply negb_true_iff, Z.eqb_neq. intros H. apply Z.lor_eq_0_iff in H. lia.
Qed.

Lemma has_bit s k : 0 <= k -> has s (2 ^ k) = Z.testbit s k.
Proof.
  intros Hk. destruct (Z.testbit s k) eqn:E.
  - apply has_spec. intros H. apply (f_equal (fun z => Z.testbit z k)) in H.
    by rewrite Z.land_spec, E, Z.pow2_bits_true, Z.bits_0 in H.
  - apply has_false, Z.bits_inj'. intros i Hi. rewrite Z.land_spec, Z.bits_0, Z.pow2_bits_eqb by done.
    destruct (Z.eqb_spec k i) as [->|]; [by rewrite E|by rewrite andb_false_r].
Qed.

Lemma has_sym s m : has s m = has m s.
Proof. unfold has. by rewrite Z.land_comm. Qed.

Lemma has_lor_r s m n : has s (Z.lor m n) = has s m || has s n.
Proof. by rewrite has_sym, has_lor, !(has_sym _ s). Qed.

(** ** Lemmas on characters *)

Lemma ch_eqb_eq a b : ch_eqb a b = true <-> a = b.
Proof. apply bool_decide_eq_true. Qed.

Lemma ch_eqb_refl a : ch_eqb a a = true.
Proof. by apply ch_eqb_eq. Qed.

Lemma ch_eqb_neq a b : ch_eqb a b = false <-> a <> b.
Proof. apply bool_decide_eq_false. Qed.

#[export] Hint Resolve ch_eqb_refl : lava.

(** ** Lemmas on lists *)

Lemma StronglySorted_insert {A} (R : relation A) l1 e l2 :
  StronglySorted R (l1 ++ l2) -> (forall x, x ∈ l1 -> R x e) -> (forall y, y ∈ l2 -> R e y) ->
  StronglySorted R (l1 ++ e :: l2).
Proof.
  induction l1 as [|x l1 IH]; simpl; intros Hs H1 H2.
  - constructor; [done|]. by apply Forall_forall.
  - inversion Hs as [|? ? Hs' Hf]; subst. constructor.
    + apply IH; [done| |done]. intros y Hy. apply H1. by right.
    + rewrite Forall_app in *. destruct Hf as [Hf1 Hf2]. split; [done|].
      constructor; [|done]. apply H1. by left.
Qed.

Lemma StronglySorted_app_r {A} (R : relation A) l1 l2 :
  StronglySorted R (l1 ++ l2) -> StronglySorted R l2.
Proof. induction l1; simpl; [done|]. inversion 1; subst. auto. Qed.
