(* ===== verification/JobStatus.v ===== *)
(** * Job status words

    The status of a job ([jData->jStatus]) is one 32-bit word: the low twenty
    bits hold the externally visible state ([JOB_STAT_PEND] ... [JOB_STAT_DONE],
    lsbatch.h), the high bits hold flags private to the daemons
    ([JOB_STAT_RESERVE], [JOB_STAT_MIG], ..., daemons.h).  The macros that test
    and set the two halves are translated one by one, with the selection
    predicates of mbd.job.c and the counter index of mbd.jgrp.c. *)

From S2P Require Import Prelude.

(** ** The bits *)

Definition JOB_STAT_NULL : Z := 0x00.
Definition JOB_STAT_PEND : Z := 0x01.
Definition JOB_STAT_PSUSP : Z := 0x02.
Definition JOB_STAT_RUN : Z := 0x04.
Definition JOB_STAT_SSUSP : Z := 0x08.
Definition JOB_STAT_USUSP : Z := 0x10.
Definition JOB_STAT_EXIT : Z := 0x20.
Definition JOB_STAT_DONE : Z := 0x40.
Definition JOB_STAT_PDONE : Z := 0x80.
Definition JOB_STAT_PERR : Z := 0x100.
Definition JOB_STAT_WAIT : Z := 0x200.
Definition JOB_STAT_UNKWN : Z := 0x10000.

Definition MASK_INT_JOB_STAT : Z := 0x000FFFFF.
Definition JOB_STAT_CHKPNTED_ONCE : Z := 0x10000000.
Definition JOB_STAT_RESERVE : Z := 0x20000000.
Definition JOB_STAT_MIG : Z := 0x40000000.
Definition JOB_STAT_MODIFY_ONCE : Z := 0x01000000.
Definition JOB_STAT_ZOMBIE : Z := 0x02000000.
Definition JOB_STAT_PRE_EXEC : Z := 0x04000000.
Definition JOB_STAT_SIGNAL : Z := 0x08000000.
Definition JOB_STAT_KILL : Z := 0x00800000.
Definition JOB_STAT_RSRC_PREEMPT_WAIT : Z := 0x00400000.
Definition JOB_STAT_VOID : Z := 0x00100000.

(** ** The macros *)

Definition MASK_STATUS (s : Z) : Z := Z.land s MASK_INT_JOB_STAT.
Definition SET_STATE (s n : Z) : Z := Z.lor (Z.land s (Z.lnot MASK_INT_JOB_STAT)) n.
Definition IS_PEND (s : Z) : bool := has s JOB_STAT_PEND || has s JOB_STAT_PSUSP.
Definition IS_START (s : Z) : bool :=
  has s JOB_STAT_RUN || has s JOB_STAT_SSUSP || has s JOB_STAT_USUSP.
Definition IS_FINISH (s : Z) : bool := has s JOB_STAT_DONE || has s JOB_STAT_EXIT.
Definition IS_SUSP (s : Z) : bool :=
  has s JOB_STAT_PSUSP || has s JOB_STAT_SSUSP || has s JOB_STAT_USUSP.
Definition IS_POST_DONE (s : Z) : bool := Z.land s JOB_STAT_PDONE =? JOB_STAT_PDONE.
Definition IS_POST_ERR (s : Z) : bool := Z.land s JOB_STAT_PERR =? JOB_STAT_PERR.
Definition IS_POST_FINISH (s : Z) : bool := IS_POST_DONE s || IS_POST_ERR s.
Definition IS_RUN_JOB_CMD (s : Z) : bool := has s JOB_STAT_RUN && negb (has s JOB_STAT_PRE_EXEC).

(** ** Indices of the job group counters *)

Definition JGRP_COUNT_NJOBS : nat := 0.
Definition JGRP_COUNT_PEND : nat := 1.
Definition JGRP_COUNT_NPSUSP : nat := 2.
Definition JGRP_COUNT_NRUN : nat := 3.
Definition JGRP_COUNT_NSSUSP : nat := 4.
Definition JGRP_COUNT_NUSUSP : nat := 5.
Definition JGRP_COUNT_NEXIT : nat := 6.
Definition JGRP_COUNT_NDONE : nat := 7.
Definition NUM_JGRP_COUNTERS : nat := 8.

(** mbd.jgrp.c, [getIndexOfJStatus]: a status that is none of the cases is
    counted in the spare slot 8. *)
Definition getIndexOfJStatus (status : Z) : nat :=
  let m := MASK_STATUS (Z.land (Z.land (Z.land status (Z.lnot JOB_STAT_UNKWN))
                                  (Z.lnot JOB_STAT_PDONE)) (Z.lnot JOB_STAT_PERR)) in
  if (m =? JOB_STAT_PEND) || (m =? Z.lor JOB_STAT_RUN JOB_STAT_WAIT) then JGRP_COUNT_PEND
  else if m =? JOB_STAT_PSUSP then JGRP_COUNT_NPSUSP
  else if m =? JOB_STAT_RUN then JGRP_COUNT_NRUN
  else if m =? JOB_STAT_SSUSP then JGRP_COUNT_NSSUSP
  else if m =? JOB_STAT_USUSP then JGRP_COUNT_NUSUSP
  else if (m =? JOB_STAT_EXIT) || (m =? Z.lor JOB_STAT_EXIT JOB_STAT_WAIT) then JGRP_COUNT_NEXIT
  else if (m =? JOB_STAT_DONE) || (m =? Z.lor JOB_STAT_DONE JOB_STAT_WAIT) then JGRP_COUNT_NDONE
  else 8%nat.

(** ** Selection of jobs by a query *)

Inductive jlistno := SJL | MJL | PJL | FJL.

#[export] Instance jlistno_eq_dec : EqDecision jlistno.
Proof. solve_decision. Defined.

Definition ALL_JOB : Z := 0x0001.
Definition DONE_JOB : Z := 0x0002.
Definition PEND_JOB : Z := 0x0004.
Definition SUSP_JOB : Z := 0x0008.
Definition CUR_JOB : Z := 0x0010.
Definition LAST_JOB : Z := 0x0020.
Definition RUN_JOB : Z := 0x0040.
Definition ZOMBIE_JOB : Z := 0x04000.
Definition JOBID_ONLY_ALL : Z := 0x02000.

Definition list_is (l : jlistno) (ls : list jlistno) : bool := bool_decide (l ∈ ls).

(** mbd.job.c, [skipJobListByReq] *)
Definition skipJobListByReq (options : Z) (joblist : jlistno) : bool :=
  if has options (Z.lor ALL_JOB JOBID_ONLY_ALL) then false
  else if has options (Z.lor CUR_JOB LAST_JOB) && list_is joblist [SJL; PJL; MJL] then false
  else if has options PEND_JOB && list_is joblist [PJL; MJL] then false
  else if has options (Z.lor SUSP_JOB RUN_JOB) && list_is joblist [SJL] then false
  else if has options DONE_JOB && list_is joblist [FJL] then false
  else if has options ZOMBIE_JOB && list_is joblist [FJL] then false
  else true.

(** mbd.job.c, [matchJobStatus] *)
Definition matchJobStatus (options jStatus : Z) : bool :=
  if has options (Z.lor ALL_JOB JOBID_ONLY_ALL) then true
  else if (has options CUR_JOB || has options LAST_JOB) && negb (IS_FINISH jStatus) then true
  else if has options DONE_JOB && IS_FINISH jStatus then true
  else if has options PEND_JOB && IS_PEND jStatus then true
  else if has options SUSP_JOB && IS_SUSP jStatus && negb (has jStatus JOB_STAT_UNKWN) then true
  else if has options RUN_JOB && has jStatus JOB_STAT_RUN then true
  else if has options ZOMBIE_JOB && has jStatus JOB_STAT_ZOMBIE then true
  else false.

(** The list [jDataList[]] on which a job of a given status is linked: a job
    that never started is on the pending list, or on the migration list when it
    waits to be migrated ([PJLorMJL] decides), a started job on [SJL] and a
    finished one on [FJL]. *)
Definition lists_of_status (jStatus : Z) : list jlistno :=
  if IS_FINISH jStatus then [FJL]
  else if IS_START jStatus then [SJL]
  else [PJL; MJL].

(** ** Well-formed status words *)

(** The externally visible states; [JOB_STAT_UNKWN] may be added to any. *)
Definition basic_states : list Z :=
  [JOB_STAT_PEND; JOB_STAT_PSUSP; JOB_STAT_RUN; JOB_STAT_SSUSP; JOB_STAT_USUSP;
   JOB_STAT_EXIT; JOB_STAT_DONE].

Definition status_of (s : Z) : Z := MASK_STATUS (clr s JOB_STAT_UNKWN).
Definition wf_status (s : Z) : Prop := status_of s ∈ basic_states.

#[export] Instance wf_status_dec s : Decision (wf_status s).
Proof. unfold wf_status. apply _. Defined.

(** ** Lemmas *)

(** A bit below the mask can be read off the masked word. *)
Lemma has_mask s b :
  Z.land b MASK_INT_JOB_STAT = b -> has s b = has (MASK_STATUS s) b.
Proof.
  intros H. unfold has, MASK_STATUS. do 2 f_equal.
  rewrite <- Z.land_assoc. f_equal. rewrite Z.land_comm. symmetry. exact H.
Qed.

(** A state bit can be read off [status_of]: none of them is the UNKWN bit. *)
Lemma has_status_of s b :
  Z.land b MASK_INT_JOB_STAT = b -> Z.land JOB_STAT_UNKWN b = 0 ->
  has s b = has (status_of s) b.
Proof.
  intros H1 H2. unfold status_of.
  rewrite <- has_mask by exact H1. symmetry. by apply has_clr_disjoint.
Qed.

Lemma wf_status_cases s :
  wf_status s ->
  status_of s = JOB_STAT_PEND \/ status_of s = JOB_STAT_PSUSP \/ status_of s = JOB_STAT_RUN \/
  status_of s = JOB_STAT_SSUSP \/ status_of s = JOB_STAT_USUSP \/ status_of s = JOB_STAT_EXIT \/
  status_of s = JOB_STAT_DONE.
Proof.
  unfold wf_status, basic_states. rewrite !elem_of_cons, elem_of_nil. tauto.
Qed.

(** Rewrites every state-bit test of the goal into a test of [status_of], whose
    value is known in each of the seven cases. *)
Ltac status_cases s :=
  let H := fresh "Hst" in
  destruct (wf_status_cases s) as [H|[H|[H|[H|[H|[H|H]]]]]]; [assumption|..];
  unfold IS_PEND, IS_START, IS_FINISH, IS_SUSP in *;
  repeat match goal with
  | |- context [has s ?b] =>
      lazymatch b with
      | JOB_STAT_UNKWN => fail
      | JOB_STAT_ZOMBIE => fail
      | JOB_STAT_RESERVE => fail
      | _ => rewrite (has_status_of s b) by reflexivity
      end
  | H' : context [has s ?b] |- _ =>
      lazymatch b with
      | JOB_STAT_UNKWN => fail
      | JOB_STAT_ZOMBIE => fail
      | JOB_STAT_RESERVE => fail
      | _ => rewrite (has_status_of s b) in H' by reflexivity
      end
  end;
  rewrite ?H in *; clear H.

(** Evaluates the tests of constants. *)
Ltac eval_has :=
  repeat match goal with
  | |- context [has ?a ?b] =>
      is_const a; let v := eval vm_compute in (has a b) in
      lazymatch v with true => idtac | false => idtac end; change (has a b) with v
  | H : context [has ?a ?b] |- _ =>
      is_const a; let v := eval vm_compute in (has a b) in
      lazymatch v with true => idtac | false => idtac end; change (has a b) with v in H
  end.

(** Exactly one of [IS_PEND], [IS_START], [IS_FINISH] holds of a well-formed
    status word. *)
Lemma status_partition s :
  wf_status s ->
  (IS_PEND s = true /\ IS_START s = false /\ IS_FINISH s = false) \/
  (IS_PEND s = false /\ IS_START s = true /\ IS_FINISH s = false) \/
  (IS_PEND s = false /\ IS_START s = false /\ IS_FINISH s = true).
Proof. intros Hw. status_cases s; eval_has; tauto. Qed.

(** ** Properties *)

(** [SET_STATE(s, n)] with a visible state [n] replaces
    the twenty visible bits by [n] and keeps every private flag of [s], so that
    the status read back through [MASK_STATUS] is [n]. *)
Theorem set_state_spec s n :
  MASK_STATUS n = n ->
  MASK_STATUS (SET_STATE s n) = n /\
  (forall i, 20 <= i -> Z.testbit (SET_STATE s n) i = Z.testbit s i).
Proof.
  unfold MASK_STATUS, SET_STATE. intros Hn. split.
  - rewrite Z.land_lor_distr_l, <- Z.land_assoc.
    rewrite (Z.land_comm (Z.lnot _)), Z.land_lnot_diag, Z.land_0_r. exact Hn.
  - intros i Hi. rewrite Z.lor_spec, Z.land_spec, Z.lnot_spec by lia.
    assert (Hm : Z.testbit MASK_INT_JOB_STAT i = false).
    { change MASK_INT_JOB_STAT with (Z.ones 20). by rewrite Z.ones_spec_high by lia. }
    rewrite <- Hn, Z.land_spec, Hm, andb_false_r, orb_false_r. apply andb_true_r.
Qed.

Lemma set_state_spec_witness :
  MASK_STATUS (SET_STATE 0x20000001 JOB_STAT_RUN) = JOB_STAT_RUN /\
  Z.testbit (SET_STATE 0x20000001 JOB_STAT_RUN) 29 = true.
Proof.
  destruct (set_state_spec 0x20000001 JOB_STAT_RUN eq_refl) as [H1 H2].
  split; [exact H1|]. rewrite H2; [reflexivity | lia].
Defined.

(** The list filter of [selectJobs] is sound for
    its job filter: a job whose status matches a query is linked on a list the
    query visits, unless the query asks only for suspended jobs (or for
    zombies) and the job is suspended before it started (or has not finished). *)
Theorem selected_job_is_visited options s l :
  wf_status s -> l ∈ lists_of_status s -> matchJobStatus options s = true ->
  skipJobListByReq options l = false \/
  (has options SUSP_JOB = true /\ has s JOB_STAT_PSUSP = true) \/
  (has options ZOMBIE_JOB = true /\ has s JOB_STAT_ZOMBIE = true /\ IS_FINISH s = false).
Proof.
  intros Hw Hl Hm. unfold skipJobListByReq, matchJobStatus in *.
  destruct (has options (Z.lor ALL_JOB JOBID_ONLY_ALL)); [by left|].
  rewrite !has_lor_r in *. revert Hl. unfold lists_of_status.
  status_cases s; eval_has; simpl in *; rewrite ?andb_false_r, ?andb_true_r in Hm;
    rewrite ?elem_of_cons, ?elem_of_nil;
    intros Hl; destruct_or?; subst; try done; unfold list_is; simpl;
    repeat match type of Hm with
    | context [has options ?b] => destruct (has options b); simpl in *; try tauto
    | context [has s ?b] => destruct (has s b); simpl in *; try tauto
    end; try discriminate; repeat (case_if; try tauto); try discriminate;
    rewrite ?orb_true_r in *; discriminate.
Qed.

Lemma selected_job_is_visited_witness :
  skipJobListByReq PEND_JOB MJL = false \/
  (has PEND_JOB SUSP_JOB = true /\ has JOB_STAT_PEND JOB_STAT_PSUSP = true) \/
  (has PEND_JOB ZOMBIE_JOB = true /\ has JOB_STAT_PEND JOB_STAT_ZOMBIE = true /\
   IS_FINISH JOB_STAT_PEND = false).
Proof.
  apply (selected_job_is_visited PEND_JOB JOB_STAT_PEND MJL).
  - by apply (bool_decide_unpack _).
  - by apply (bool_decide_unpack _).
  - reflexivity.
Defined.
