(* ===== verification/DList.v ===== *)
(** * Intrusive circular doubly linked lists

    Every list of the daemons (hash buckets, job lists, host lists, observer
    lists) is a circular doubly linked list threaded through the elements, with
    the list header as the extra node.  The source has three copies of the
    primitive operations: lsf/lib/lib.table.c ([insList_], [remList_],
    [initList_] on [struct hLinks]), lsf/intlib/list.c ([inList], [offList],
    [listInsertEntryBefore], [listRemoveEntry], the iterators) and
    lsf/intlib/list2.c ([listinsert], [listrm], [listinsertsort], ...).

    The model keeps the memory: a heap maps the address of a node to its two
    links, an operation reads and writes links in the order of the source and
    fails when it follows an address outside the heap.  [dl h head xs] says that
    [head] is the header of a well-formed list whose nodes, in [forw] order, are
    [xs]; the theorems say that each operation is the corresponding operation on
    the sequence [xs] and touches no other node. *)

From S2P Require Import Prelude.

(** ** The heap *)

Abbreviation addr := positive.

(** [struct hLinks] has the fields fwPtr/bwPtr, the other structures forw/back. *)
Record node := Node { forw : addr; back : addr }.

Abbreviation heap := (gmap addr node).

Definition rd_forw (h : heap) (a : addr) : option addr := forw <$> h !! a.
Definition rd_back (h : heap) (a : addr) : option addr := back <$> h !! a.
Definition wr_forw (h : heap) (a v : addr) : option heap :=
  n ← h !! a; Some (<[a := Node v (back n)]> h).
Definition wr_back (h : heap) (a v : addr) : option heap :=
  n ← h !! a; Some (<[a := Node (forw n) v]> h).

(** ** lib.table.c *)

Definition initList_ (h : heap) (headPtr : addr) : option heap :=
  h ← wr_back h headPtr headPtr; wr_forw h headPtr headPtr.

Definition insList_ (h : heap) (elemPtr destPtr : addr) : option heap :=
  b ← rd_back h destPtr;
  h ← wr_back h elemPtr b;
  h ← wr_forw h elemPtr destPtr;
  b ← rd_back h destPtr;
  h ← wr_forw h b elemPtr;
  wr_back h destPtr elemPtr.

(** The argument may be NULL. *)
Definition remList_ (h : heap) (elemPtr : option addr) : option heap :=
  match elemPtr with
  | None => Some h
  | Some e =>
      b ← rd_back h e;
      if bool_decide (e = b) then Some h
      else
        f ← rd_forw h e;
        b ← rd_back h e;
        h ← wr_back h f b;
        b ← rd_back h e;
        f ← rd_forw h e;
        wr_forw h b f
  end.

(** ** list.c: the untyped list *)

Definition inList (h : heap) (pred entry : addr) : option heap :=
  h ← wr_forw h entry pred;
  b ← rd_back h pred;
  h ← wr_back h entry b;
  b ← rd_back h pred;
  h ← wr_forw h b entry;
  wr_back h pred entry.

Definition offList (h : heap) (entry : addr) : option heap :=
  b ← rd_back h entry;
  f ← rd_forw h entry;
  h ← wr_forw h b f;
  f ← rd_forw h entry;
  b ← rd_back h entry;
  wr_back h f b.

(** calloc returned the node [q]. *)
Definition mkListHeader (h : heap) (q : addr) : option heap :=
  h ← wr_back h q q; wr_forw h q q.

(** ** list2.c: a list with an element count *)

Definition listinsert (h : heap) (num : Z) (e e2 : addr) : option (heap * Z) :=
  b ← rd_back h e;
  h ← wr_forw h b e2;
  b ← rd_back h e;
  h ← wr_back h e2 b;
  h ← wr_back h e e2;
  h ← wr_forw h e2 e;
  Some (h, num + 1).

Definition listpush (h : heap) (num : Z) (hd e : addr) : option (heap * Z) :=
  listinsert h num hd e.

Definition listenque (h : heap) (num : Z) (hd e : addr) : option (heap * Z) :=
  f ← rd_forw h hd; listinsert h num f e.

(** The result is the removed node, or NULL when the list is empty. *)
Definition listrm (h : heap) (num : Z) (e : addr) : option (heap * Z * option addr) :=
  if num =? 0 then Some (h, num, None)
  else
    b ← rd_back h e;
    f ← rd_forw h e;
    h ← wr_forw h b f;
    f ← rd_forw h e;
    b ← rd_back h e;
    h ← wr_back h f b;
    Some (h, num - 1, Some e).

Definition listpop (h : heap) (num : Z) (hd : addr) : option (heap * Z * option addr) :=
  f ← rd_forw h hd;
  if bool_decide (f = hd) then Some (h, num, None)
  else b ← rd_back h hd; listrm h num b.

Definition listdeque (h : heap) (num : Z) (hd : addr) : option (heap * Z * option addr) :=
  f ← rd_forw h hd;
  if bool_decide (f = hd) then Some (h, num, None)
  else listrm h num f.

(** The loop of [listinsertsort]: [l] runs over the list along [back] until it
    is the header. *)
Fixpoint listinsertsort_loop (cmp : addr -> addr -> Z) (fuel : nat) (h : heap) (num : Z)
    (L e l : addr) : option (heap * Z) :=
  match fuel with
  | O => None
  | S fuel =>
      if bool_decide (l = L) then listenque h num L e
      else if cmp e l <=? 0 then
        f ← rd_forw h l; listinsert h num f e
      else
        b ← rd_back h l; listinsertsort_loop cmp fuel h num L e b
  end.

Definition listinsertsort (cmp : addr -> addr -> Z) (fuel : nat) (h : heap) (num : Z)
    (L e : addr) : option (heap * Z) :=
  if num =? 0 then listpush h num L e
  else l ← rd_back h L; listinsertsort_loop cmp fuel h num L e l.

(** ** list.c: lists with a header, a count and observers

    The callbacks of an observer are client code: they are functions on an
    arbitrary state [W] of the rest of the program. *)

(** The null pointer; no node lives there. *)
Definition NULL : addr := 1%positive.

Inductive event_type := LIST_EVENT_ENTER | LIST_EVENT_LEAVE | LIST_EVENT_NULL.

Record event := Event { ev_type : event_type; ev_entry : addr }.

Section WithWorld.
Context {W : Type}.

Record observer := Observer {
  select : option (event -> bool);
  enter : option (event -> W -> W);
  leave_ : option (event -> W -> W) }.

(** The header node itself is at [l_head]; the observers, which are a list of
    the same kind, are given in [forw] order. *)
Record LIST_T := List_t {
  l_head : addr;
  numEnts : Z;
  allowObservers : bool;
  observers : list observer }.

Record lstate := LState { l_heap : heap; l_list : LIST_T; l_world : W }.

Definition run_callback (cb : option (event -> W -> W)) (ev : event) (w : W) : W :=
  match cb with Some f => f ev w | None => w end.

(** The return code is 0, or -1 as soon as an observer sees an unknown event. *)
Fixpoint listNotifyObservers (obs : list observer) (ev : event) (w : W) : W * Z :=
  match obs with
  | [] => (w, 0)
  | o :: obs =>
      let selected := match select o with Some f => f ev | None => true end in
      if negb selected then listNotifyObservers obs ev w
      else
        match ev_type ev with
        | LIST_EVENT_ENTER => listNotifyObservers obs ev (run_callback (enter o) ev w)
        | LIST_EVENT_LEAVE => listNotifyObservers obs ev (run_callback (leave_ o) ev w)
        | LIST_EVENT_NULL => (w, -1)
        end
  end.

Definition notify (L : LIST_T) (ev : event) (w : W) : W :=
  if allowObservers L && negb (bool_decide (length (observers L) = 0%nat))
  then fst (listNotifyObservers (observers L) ev w) else w.

Definition set_numEnts (L : LIST_T) (n : Z) : LIST_T :=
  List_t (l_head L) n (allowObservers L) (observers L).

(** calloc returned the header node [q]. *)
Definition listCreate (h : heap) (q : addr) (w : W) : option lstate :=
  h ← wr_back h q q;
  h ← wr_forw h q q;
  Some (LState h (List_t q 0 false []) w).

Definition listInsertEntryBefore (st : lstate) (succ entry : addr) : option lstate :=
  let h := l_heap st in let L := l_list st in
  h ← wr_forw h entry succ;
  b ← rd_back h succ;
  h ← wr_back h entry b;
  b ← rd_back h succ;
  h ← wr_forw h b entry;
  h ← wr_back h succ entry;
  let w := notify L (Event LIST_EVENT_ENTER entry) (l_world st) in
  Some (LState h (set_numEnts L (numEnts L + 1)) w).

Definition listInsertEntryAfter (st : lstate) (pred entry : addr) : option lstate :=
  f ← rd_forw (l_heap st) pred; listInsertEntryBefore st f entry.

Definition listInsertEntryAtFront (st : lstate) (entry : addr) : option lstate :=
  f ← rd_forw (l_heap st) (l_head (l_list st)); listInsertEntryBefore st f entry.

Definition listInsertEntryAtBack (st : lstate) (entry : addr) : option lstate :=
  listInsertEntryBefore st (l_head (l_list st)) entry.

Definition listRemoveEntry (st : lstate) (entry : addr) : option lstate :=
  let h := l_heap st in let L := l_list st in
  b ← rd_back h entry;
  f ← rd_forw h entry;
  if bool_decide (b = NULL) || bool_decide (f = NULL) then Some st
  else
    h ← wr_forw h b f;
    f ← rd_forw h entry;
    b ← rd_back h entry;
    h ← wr_back h f b;
    let w := notify L (Event LIST_EVENT_LEAVE entry) (l_world st) in
    Some (LState h (set_numEnts L (numEnts L - 1)) w).

(** NULL when the list is empty. *)
Definition listGetFrontEntry (st : lstate) : option addr :=
  f ← rd_forw (l_heap st) (l_head (l_list st));
  if bool_decide (f = l_head (l_list st)) then Some NULL else Some f.

Definition listGetBackEntry (st : lstate) : option addr :=
  f ← rd_forw (l_heap st) (l_head (l_list st));
  if bool_decide (f = l_head (l_list st)) then Some NULL
  else rd_back (l_heap st) (l_head (l_list st)).

(** *** Iterators: the state of an iterator is its current node *)

Definition listIteratorAttach (st : lstate) : option addr :=
  rd_forw (l_heap st) (l_head (l_list st)).

Definition listIteratorGetCurEntry (st : lstate) (curEnt : addr) : addr :=
  if bool_decide (curEnt = l_head (l_list st)) then NULL else curEnt.

(** The new state of the iterator; the entry it returns is
    [listIteratorGetCurEntry] of it. *)
Definition listIteratorNext (st : lstate) (curEnt : addr) : option addr :=
  rd_forw (l_heap st) curEnt.

Definition listIteratorPrev (st : lstate) (curEnt : addr) : option addr :=
  rd_back (l_heap st) curEnt.

Definition listIteratorIsEndOfList (st : lstate) (curEnt : addr) : bool :=
  bool_decide (curEnt = l_head (l_list st)).

Fixpoint listSearchEntry_loop (fuel : nat) (st : lstate) (equal : addr -> bool) (curEnt : addr)
    : option addr :=
  match fuel with
  | O => None
  | S fuel =>
      let ent := listIteratorGetCurEntry st curEnt in
      if bool_decide (ent = NULL) then Some NULL
      else if equal ent then Some ent
      else cur ← listIteratorNext st curEnt; listSearchEntry_loop fuel st equal cur
  end.

(** [equal] is the caller's comparison, applied to its subject and hint. *)
Definition listSearchEntry (fuel : nat) (st : lstate) (equal : addr -> bool) : option addr :=
  cur ← listIteratorAttach st; listSearchEntry_loop fuel st equal cur.

Definition LIST_TRAVERSE_FORWARD : Z := 1.
Definition LIST_TRAVERSE_BACKWARD : Z := 2.

Fixpoint list2Vector_loop (fuel : nat) (st : lstate) (direction : Z) (curEnt : addr)
    : option (list addr) :=
  match fuel with
  | O => None
  | S fuel =>
      let entry := listIteratorGetCurEntry st curEnt in
      if bool_decide (entry = NULL) then Some []
      else
        cur ← (if has direction LIST_TRAVERSE_FORWARD
               then listIteratorNext st curEnt else listIteratorPrev st curEnt);
        v ← list2Vector_loop fuel st direction cur;
        Some (entry :: v)
  end.

(** The entries in the order in which they are put into the vector. *)
Definition list2Vector (fuel : nat) (st : lstate) (direction : Z) : option (list addr) :=
  let direction := if direction =? 0 then LIST_TRAVERSE_FORWARD else direction in
  cur ← listIteratorAttach st;
  cur ← (if has direction LIST_TRAVERSE_BACKWARD then listGetBackEntry st else Some cur);
  list2Vector_loop fuel st direction cur.

(** The entries are removed from the front, [destroy] is called on each. *)
Fixpoint listDestroy_loop (fuel : nat) (st : lstate) (destroyed : list addr)
    : option (lstate * list addr) :=
  match fuel with
  | O => None
  | S fuel =>
      f ← rd_forw (l_heap st) (l_head (l_list st));
      if bool_decide (f = l_head (l_list st)) then Some (st, destroyed)
      else st ← listRemoveEntry st f; listDestroy_loop fuel st (destroyed ++ [f])
  end.
End WithWorld.

Arguments observer : clear implicits.
Arguments LIST_T : clear implicits.
Arguments lstate : clear implicits.

(** ** Well-formed lists *)

Definition linked (h : heap) (a b : addr) : Prop :=
  rd_forw h a = Some b /\ rd_back h b = Some a.

(** The nodes [xs] lie, in [forw] order, between [a] and [b]. *)
Fixpoint seg (h : heap) (a : addr) (xs : list addr) (b : addr) : Prop :=
  match xs with
  | [] => linked h a b
  | x :: xs => linked h a x /\ seg h x xs b
  end.

Definition dl (h : heap) (head : addr) (xs : list addr) : Prop :=
  NoDup (head :: xs) /\ seg h head xs head.

(** The node before and the node after a gap of the cycle. *)
Fixpoint pred_of (head : addr) (xs : list addr) : addr :=
  match xs with [] => head | x :: xs => pred_of x xs end.
Definition succ_of (head : addr) (xs : list addr) : addr := List.hd head xs.

(** [h'] differs from [h] at most on the links of [ds]. *)
Definition only_on (h h' : heap) (ds : list addr) : Prop :=
  forall a, a ∉ ds -> h' !! a = h !! a.

(** ** The two surgeries, on the link functions *)

(** [e] has been put between the adjacent nodes [p] and [s]. *)
Record spliced (h h' : heap) (p e s : addr) : Prop := {
  spl_forw c : rd_forw h' c =
    if decide (c = p) then Some e else if decide (c = e) then Some s else rd_forw h c;
  spl_back c : rd_back h' c =
    if decide (c = s) then Some e else if decide (c = e) then Some p else rd_back h c;
  spl_only : only_on h h' [p; e; s] }.

(** The node between [p] and [s] has been taken out. *)
Record unspliced (h h' : heap) (p s : addr) : Prop := {
  uns_forw c : rd_forw h' c = if decide (c = p) then Some s else rd_forw h c;
  uns_back c : rd_back h' c = if decide (c = s) then Some p else rd_back h c;
  uns_only : only_on h h' [p; s] }.

Lemma wr_forw_spec h a v :
  is_Some (h !! a) ->
  exists h', wr_forw h a v = Some h' /\
    (forall c, rd_forw h' c = if decide (c = a) then Some v else rd_forw h c) /\
    (forall c, rd_back h' c = rd_back h c) /\ only_on h h' [a] /\
    (forall c, is_Some (h !! c) -> is_Some (h' !! c)).
Proof.
  intros [n Hn]. eexists. unfold wr_forw, rd_forw, rd_back. rewrite Hn. split; [done|].
  repeat split; intros c; try intros Hc; destruct (decide (c = a)) as [->|Hne];
    rewrite ?lookup_insert_eq, ?lookup_insert_ne by done; try done.
  - by rewrite Hn.
  - set_solver.
Qed.

Lemma wr_back_spec h a v :
  is_Some (h !! a) ->
  exists h', wr_back h a v = Some h' /\
    (forall c, rd_back h' c = if decide (c = a) then Some v else rd_back h c) /\
    (forall c, rd_forw h' c = rd_forw h c) /\ only_on h h' [a] /\
    (forall c, is_Some (h !! c) -> is_Some (h' !! c)).
Proof.
  intros [n Hn]. eexists. unfold wr_back, rd_forw, rd_back. rewrite Hn. split; [done|].
  repeat split; intros c; try intros Hc; destruct (decide (c = a)) as [->|Hne];
    rewrite ?lookup_insert_eq, ?lookup_insert_ne by done; try done.
  - by rewrite Hn.
  - set_solver.
Qed.

Lemma rd_forw_some h a b : rd_forw h a = Some b -> is_Some (h !! a).
Proof. unfold rd_forw. destruct (h !! a); naive_solver. Qed.
Lemma rd_back_some h a b : rd_back h a = Some b -> is_Some (h !! a).
Proof. unfold rd_back. destruct (h !! a); naive_solver. Qed.

#[local] Hint Resolve rd_forw_some rd_back_some : lava.

(** Runs the writes of an operation one after the other. *)
Ltac link_step :=
  match goal with
  | |- context [wr_forw ?h ?a ?v] =>
      destruct (wr_forw_spec h a v) as (? & -> & ? & ? & ? & ?); [by eauto with lava|]; simpl
  | |- context [wr_back ?h ?a ?v] =>
      destruct (wr_back_spec h a v) as (? & -> & ? & ? & ? & ?); [by eauto with lava|]; simpl
  end.

(** Computes a read after the writes done so far. *)
Ltac link_read :=
  repeat (match goal with
  | H : forall c, rd_forw ?h c = _ |- context [rd_forw ?h _] => rewrite H
  | H : forall c, rd_back ?h c = _ |- context [rd_back ?h _] => rewrite H
  | H : rd_forw ?h ?a = Some _ |- context [rd_forw ?h ?a] => rewrite H
  | H : rd_back ?h ?a = Some _ |- context [rd_back ?h ?a] => rewrite H
  | |- context [decide (?a = ?a)] => rewrite (decide_True (P := a = a)) by done
  | |- context [decide (?a = ?b)] => rewrite (decide_False (P := a = b)) by congruence
  end; simpl).

Ltac links := repeat (link_read; try link_step).

Ltac only_tac :=
  intros c Hc; repeat match goal with H : only_on _ _ _ |- _ => rewrite (H c) by set_solver end;
  done.

Ltac links_done :=
  eexists; split; [done|]; split; [..|only_tac]; intros c;
  repeat match goal with
  | H : forall c, rd_forw _ c = _ |- _ => rewrite H
  | H : forall c, rd_back _ c = _ |- _ => rewrite H
  end; repeat destruct (decide _); congruence.

Lemma insList_spliced h p e s :
  linked h p s -> e <> p -> e <> s -> is_Some (h !! e) ->
  exists h', insList_ h e s = Some h' /\ spliced h h' p e s.
Proof.
  intros [Hf Hb] Hp Hs He. unfold insList_. links.
  links_done.
Qed.

Lemma inList_spliced h p e s :
  linked h p s -> e <> p -> e <> s -> is_Some (h !! e) ->
  exists h', inList h s e = Some h' /\ spliced h h' p e s.
Proof.
  intros [Hf Hb] Hp Hs He. unfold inList. links.
  links_done.
Qed.

Lemma listinsert_spliced h num p e s :
  linked h p s -> e <> p -> e <> s -> is_Some (h !! e) ->
  exists h', listinsert h num s e = Some (h', num + 1) /\ spliced h h' p e s.
Proof.
  intros [Hf Hb] Hp Hs He. unfold listinsert. links.
  links_done.
Qed.

Lemma remList_unspliced h p e s :
  linked h p e -> linked h e s -> p <> e ->
  exists h', remList_ h (Some e) = Some h' /\ unspliced h h' p s.
Proof.
  intros [Hf Hb] [Hf' Hb'] Hp. unfold remList_. links.
  rewrite bool_decide_eq_false_2 by congruence. links.
  destruct (decide (e = s)) as [->|]; [congruence|]. links. links_done.
Qed.

Lemma offList_unspliced h p e s :
  linked h p e -> linked h e s -> p <> e ->
  exists h', offList h e = Some h' /\ unspliced h h' p s.
Proof.
  intros [Hf Hb] [Hf' Hb'] Hp. unfold offList. links.
  destruct (decide (e = p)) as [->|]; [congruence|]. links. links_done.
Qed.

Lemma listrm_unspliced h num p e s :
  linked h p e -> linked h e s -> p <> e -> num <> 0 ->
  exists h', listrm h num e = Some (h', num - 1, Some e) /\ unspliced h h' p s.
Proof.
  intros [Hf Hb] [Hf' Hb'] Hp Hn. unfold listrm. rewrite (proj2 (Z.eqb_neq _ _) Hn). links.
  destruct (decide (e = p)) as [->|]; [congruence|]. links. links_done.
Qed.

(** ** From links to sequences *)

Lemma seg_ext h h' a xs b :
  (forall c, c ∈ a :: xs -> rd_forw h' c = rd_forw h c) ->
  (forall c, c ∈ xs ++ [b] -> rd_back h' c = rd_back h c) ->
  seg h a xs b -> seg h' a xs b.
Proof.
  revert a. induction xs as [|x xs IH]; simpl; intros a Hf Hb.
  - intros [H1 H2]. split; [rewrite Hf by set_solver | rewrite Hb by set_solver]; done.
  - intros [[H1 H2] H]. split.
    + split; [rewrite Hf by set_solver | rewrite Hb by set_solver]; done.
    + apply IH; [set_solver.. | done].
Qed.

Lemma seg_app h a xs x ys b : seg h a (xs ++ x :: ys) b <-> seg h a xs x /\ seg h x ys b.
Proof. revert a. induction xs as [|y xs IH]; simpl; intros a; [tauto|]. rewrite IH. tauto. Qed.

(** The nodes on both sides of a gap are linked to each other. *)
Lemma seg_gap h a xs ys b :
  seg h a (xs ++ ys) b -> linked h (pred_of a xs) (succ_of b ys).
Proof.
  revert a. induction xs as [|x xs IH]; simpl; intros a.
  - destruct ys; simpl; tauto.
  - intros [_ H]. by apply IH in H.
Qed.

Lemma pred_of_elem a xs : pred_of a xs ∈ a :: xs.
Proof. revert a. induction xs as [|x xs IH]; simpl; intros a; [|specialize (IH x)]; set_solver. Qed.

Lemma pred_of_snoc a xs e : pred_of a (xs ++ [e]) = e.
Proof. revert a. by induction xs; simpl. Qed.

Lemma succ_of_elem b ys : succ_of b ys ∈ ys ++ [b].
Proof. destruct ys; simpl; set_solver. Qed.

Lemma splice_seg h h' a xs ys b e :
  spliced h h' (pred_of a xs) e (succ_of b ys) ->
  NoDup (a :: xs ++ ys) -> b ∉ xs ++ ys -> e ∉ a :: b :: xs ++ ys ->
  seg h a (xs ++ ys) b -> seg h' a (xs ++ e :: ys) b.
Proof.
  revert a. induction xs as [|x xs IH]; simpl; intros a Hs Hnd Hb He Hseg.
  - destruct Hs as [Hf Hbk _]. destruct ys as [|y ys]; simpl in *.
    + split; split; rewrite ?Hf, ?Hbk; repeat destruct (decide _); set_solver.
    + destruct Hseg as [_ Hseg]. apply NoDup_cons in Hnd as [Ha Hnd].
      apply NoDup_cons in Hnd as [Hy Hnd]. split; [|split].
      * split; rewrite ?Hf, ?Hbk; repeat destruct (decide _); set_solver.
      * split; rewrite ?Hf, ?Hbk; repeat destruct (decide _); set_solver.
      * revert Hseg. apply seg_ext; intros c Hc; rewrite ?Hf, ?Hbk;
          repeat destruct (decide _); subst; set_solver.
  - destruct Hseg as [[Hl1 Hl2] Hseg]. apply NoDup_cons in Hnd as [Ha Hnd].
    pose proof (pred_of_elem x xs) as Hp. pose proof (succ_of_elem b ys) as Hsc.
    assert (x ∉ xs ++ ys) by (by apply NoDup_cons in Hnd as [? _]).
    split; [|apply IH; [done|done|set_solver|set_solver|done]].
    destruct Hs as [Hf Hbk _].
    split; rewrite ?Hf, ?Hbk; repeat destruct (decide _); subst; set_solver.
Qed.

Lemma unsplice_seg h h' a xs ys b e :
  unspliced h h' (pred_of a xs) (succ_of b ys) ->
  NoDup (a :: xs ++ e :: ys) -> b ∉ xs ++ e :: ys ->
  seg h a (xs ++ e :: ys) b -> seg h' a (xs ++ ys) b.
Proof.
  revert a. induction xs as [|x xs IH]; simpl; intros a Hs Hnd Hb Hseg.
  - destruct Hs as [Hf Hbk _]. destruct Hseg as [[Hl1 Hl2] Hseg].
    apply NoDup_cons in Hnd as [Ha Hnd]. apply NoDup_cons in Hnd as [He Hnd].
    destruct ys as [|y ys]; simpl in *.
    + split; rewrite ?Hf, ?Hbk; repeat destruct (decide _); set_solver.
    + destruct Hseg as [_ Hseg]. apply NoDup_cons in Hnd as [Hy Hnd]. split.
      * split; rewrite ?Hf, ?Hbk; repeat destruct (decide _); set_solver.
      * revert Hseg. apply seg_ext; intros c Hc; rewrite ?Hf, ?Hbk;
          repeat destruct (decide _); subst; set_solver.
  - destruct Hseg as [[Hl1 Hl2] Hseg]. apply NoDup_cons in Hnd as [Ha Hnd].
    pose proof (pred_of_elem x xs) as Hp. pose proof (succ_of_elem b ys) as Hsc.
    assert (x ∉ xs ++ e :: ys) by (by apply NoDup_cons in Hnd as [? _]).
    split; [|apply IH; [done|done|set_solver|done]].
    destruct Hs as [Hf Hbk _].
    split; rewrite ?Hf, ?Hbk; repeat destruct (decide _); subst; set_solver.
Qed.

(** ** The operations on well-formed lists *)

Section Ops.
Context (h : heap) (head : addr).

(** The facts about a gap that every insertion needs. *)
Lemma dl_gap xs ys e :
  dl h head (xs ++ ys) -> e ∉ head :: xs ++ ys ->
  linked h (pred_of head xs) (succ_of head ys) /\
  e <> pred_of head xs /\ e <> succ_of head ys.
Proof.
  intros [Hnd Hs] He. pose proof (pred_of_elem head xs). pose proof (succ_of_elem head ys).
  split; [by apply seg_gap|]. split; intros ->; set_solver.
Qed.

Lemma dl_splice h' xs ys e :
  spliced h h' (pred_of head xs) e (succ_of head ys) ->
  dl h head (xs ++ ys) -> e ∉ head :: xs ++ ys -> dl h' head (xs ++ e :: ys).
Proof.
  intros Hsp [Hnd Hs] He. split.
  - rewrite app_comm_cons, <- Permutation_middle. apply NoDup_cons. split; [set_solver|].
    by rewrite <- app_comm_cons.
  - apply NoDup_cons in Hnd as Hnd'. destruct Hnd' as [Hh _].
    eapply splice_seg; [done|done|done| |done]. set_solver.
Qed.

Lemma dl_around xs ys e :
  dl h head (xs ++ e :: ys) ->
  linked h (pred_of head xs) e /\ linked h e (succ_of head ys) /\ pred_of head xs <> e.
Proof.
  intros [Hnd Hs]. pose proof (pred_of_elem head xs).
  split; [exact (seg_gap h head xs (e :: ys) head Hs)|]. split.
  - replace (xs ++ e :: ys) with ((xs ++ [e]) ++ ys) in Hs by (by rewrite <- app_assoc).
    apply seg_gap in Hs. by rewrite pred_of_snoc in Hs.
  - intros Heq. rewrite app_comm_cons in Hnd. apply NoDup_app in Hnd as (_ & Hd & _).
    apply (Hd e); set_solver.
Qed.

Lemma dl_unsplice h' xs ys e :
  unspliced h h' (pred_of head xs) (succ_of head ys) ->
  dl h head (xs ++ e :: ys) -> dl h' head (xs ++ ys).
Proof.
  intros Hu [Hnd Hs]. apply NoDup_cons in Hnd as Hnd'. destruct Hnd' as [Hh _]. split.
  - rewrite app_comm_cons, <- Permutation_middle in Hnd. by apply NoDup_cons in Hnd as [_ Hnd].
  - by eapply unsplice_seg.
Qed.

Lemma insert_dl num xs ys e :
  dl h head (xs ++ ys) -> e ∉ head :: xs ++ ys -> is_Some (h !! e) ->
  exists h', listinsert h num (succ_of head ys) e = Some (h', num + 1) /\
    dl h' head (xs ++ e :: ys).
Proof.
  intros Hd He Hal. destruct (dl_gap xs ys e Hd He) as (Hl & Hp & Hs).
  destruct (listinsert_spliced h num _ e _ Hl Hp Hs Hal) as (h' & Hop & Hsp).
  exists h'. split; [done|]. by eapply dl_splice.
Qed.
End Ops.

(** ** Properties of the primitive operations *)

(** C31: The three insertion primitives ([insList_] of the
    hash buckets, [inList] of the daemons' lists and [listinsert] of the counted
    lists) given a node [e] that is not on the list put it in front of the node
    that follows the gap between [xs] and [ys] (the header when [ys] is empty),
    never follow a bad pointer, and write no node but [e] and its two
    neighbours. *)
Theorem insert_ops_refine h head xs ys e num :
  dl h head (xs ++ ys) -> e ∉ head :: xs ++ ys -> is_Some (h !! e) ->
  (exists h', insList_ h e (succ_of head ys) = Some h' /\ dl h' head (xs ++ e :: ys) /\
     only_on h h' [pred_of head xs; e; succ_of head ys]) /\
  (exists h', inList h (succ_of head ys) e = Some h' /\ dl h' head (xs ++ e :: ys) /\
     only_on h h' [pred_of head xs; e; succ_of head ys]) /\
  (exists h', listinsert h num (succ_of head ys) e = Some (h', num + 1) /\
     dl h' head (xs ++ e :: ys) /\ only_on h h' [pred_of head xs; e; succ_of head ys]).
Proof.
  intros Hd He Hal. destruct (dl_gap h head xs ys e Hd He) as (Hl & Hp & Hs).
  split_and!;
    [ destruct (insList_spliced h _ e _ Hl Hp Hs Hal) as (h' & Hop & Hsp)
    | destruct (inList_spliced h _ e _ Hl Hp Hs Hal) as (h' & Hop & Hsp)
    | destruct (listinsert_spliced h num _ e _ Hl Hp Hs Hal) as (h' & Hop & Hsp) ];
    (exists h'; split; [exact Hop|]; split; [by eapply dl_splice | by apply spl_only]).
Qed.

(** C32: The removal primitives [remList_], [offList] and
    [listrm] take the node [e] out of the sequence, keep the order of the
    others, and write no node but the two neighbours of [e]. *)
Theorem remove_ops_refine h head xs ys e num :
  dl h head (xs ++ e :: ys) -> num <> 0 ->
  (exists h', remList_ h (Some e) = Some h' /\ dl h' head (xs ++ ys) /\
     only_on h h' [pred_of head xs; succ_of head ys]) /\
  (exists h', offList h e = Some h' /\ dl h' head (xs ++ ys) /\
     only_on h h' [pred_of head xs; succ_of head ys]) /\
  (exists h', listrm h num e = Some (h', num - 1, Some e) /\ dl h' head (xs ++ ys) /\
     only_on h h' [pred_of head xs; succ_of head ys]).
Proof.
  intros Hd Hn. destruct (dl_around h head xs ys e Hd) as (Hp & Hs & Hne).
  split_and!;
    [ destruct (remList_unspliced h _ e _ Hp Hs Hne) as (h' & Hop & Hu)
    | destruct (offList_unspliced h _ e _ Hp Hs Hne) as (h' & Hop & Hu)
    | destruct (listrm_unspliced h num _ e _ Hp Hs Hne Hn) as (h' & Hop & Hu) ];
    (exists h'; split; [exact Hop|]; split; [by eapply dl_unsplice | by apply uns_only]).
Qed.

(** ** Ordered insertion *)

Section InsertSort.
Context (cmp : addr -> addr -> Z).

(** What [qsort] asks of a comparison function. *)
Definition cmp_le (a b : addr) : Prop := cmp a b <= 0.

Context (cmp_trans : forall a b c, cmp_le a b -> cmp_le b c -> cmp_le a c)
        (cmp_total : forall a b, cmp a b > 0 -> cmp_le b a).

(** [us] is still to be visited, [vs] has been passed. *)
Lemma listinsertsort_loop_spec h num L e vs us fuel :
  dl h L (us ++ vs) -> e ∉ L :: us ++ vs -> is_Some (h !! e) ->
  StronglySorted cmp_le (reverse (us ++ vs)) -> (forall v, v ∈ vs -> cmp e v > 0) ->
  (length us < fuel)%nat ->
  exists h' xs1 xs2,
    listinsertsort_loop cmp fuel h num L e (pred_of L us) = Some (h', num + 1) /\
    us ++ vs = xs1 ++ xs2 /\ dl h' L (xs1 ++ e :: xs2) /\
    StronglySorted cmp_le (reverse (xs1 ++ e :: xs2)).
Proof.
  revert us vs. induction fuel as [|fuel IH]; intros us vs Hd He Hal Hs Hvs Hlen; [lia|].
  assert (Hle : forall x, x ∈ reverse vs -> cmp_le x e).
  { intros x Hx. apply cmp_total, Hvs. by apply elem_of_reverse. }
  destruct us as [|l us _] using rev_ind; simpl.
  - rewrite bool_decide_eq_true_2 by done. unfold listenque.
    destruct Hd as [Hnd Hseg]. destruct (seg_gap h L [] vs L Hseg) as [Hf _]. simpl in Hf.
    rewrite Hf. simpl.
    destruct (insert_dl h L num [] vs e) as (h' & -> & Hd'); [done|done|done|].
    exists h', [], vs. split_and!; [done|done|done|]. simpl in *. rewrite reverse_cons.
    apply StronglySorted_insert; [by rewrite app_nil_r|done|set_solver].
  - rewrite pred_of_snoc. rewrite bool_decide_eq_false_2; last first.
    { intros ->. destruct Hd as [Hnd _]. apply NoDup_cons in Hnd as [Hn _]. apply Hn.
      rewrite !elem_of_app. left. right. by left. }
    rewrite <- app_assoc in *. simpl in *.
    destruct (dl_around h L us vs l Hd) as ([Hf Hb] & [Hf' Hb'] & Hne).
    destruct (cmp e l <=? 0) eqn:Hc; breflect.
    + rewrite Hf'. simpl.
      destruct (insert_dl h L num (us ++ [l]) vs e) as (h' & -> & Hd');
        [by rewrite <- app_assoc | by rewrite <- app_assoc | done |].
      exists h', (us ++ [l]), vs. split_and!; [done|by rewrite <- app_assoc|done|].
      revert Hs. rewrite !reverse_app, !reverse_cons, <- !app_assoc, reverse_nil. simpl.
      intros Hs.
      apply StronglySorted_insert; [done..|].
      intros y Hy. apply StronglySorted_app_r in Hs.
      inversion Hs as [|? ? _ Hall]; subst. rewrite Forall_forall in Hall.
      apply elem_of_cons in Hy as [->|Hy]; [done|]. by eapply cmp_trans, Hall.
    + rewrite Hb. simpl. rewrite length_app in Hlen. simpl in Hlen.
      destruct (IH us (l :: vs)) as (h' & xs1 & xs2 & H); [done..| |lia|].
      * intros v Hv. apply elem_of_cons in Hv as [->|Hv]; [lia|auto].
      * exists h', xs1, xs2. done.
Qed.

(** On a list that is sorted along [back] (the
    order in which [listpop] takes elements), [listinsertsort] inserts the new
    node, keeps the list sorted for every comparison function that is transitive
    and total, keeps all the old nodes, and terminates after at most one step
    per node. *)
Theorem listinsertsort_sorted h L xs e :
  dl h L xs -> e ∉ L :: xs -> is_Some (h !! e) ->
  StronglySorted cmp_le (reverse xs) ->
  exists h' xs',
    listinsertsort cmp (S (length xs)) h (Z.of_nat (length xs)) L e
      = Some (h', Z.of_nat (length xs) + 1) /\
    dl h' L xs' /\ xs' ≡ₚ e :: xs /\ StronglySorted cmp_le (reverse xs').
Proof.
  intros Hd He Hal Hs. unfold listinsertsort. destruct (Z.of_nat (length xs) =? 0) eqn:Hn.
  - destruct xs as [|]; simpl in Hn; [|done]. unfold listpush.
    destruct (insert_dl h L (Z.of_nat 0) [] [] e) as (h' & Hop & Hd'); [done..|].
    exists h', [e]. split_and!; [done|done|done|]. repeat constructor.
  - pose proof (proj2 Hd) as Hseg. rewrite <- (app_nil_r xs) in Hseg.
    destruct (seg_gap h L xs [] L Hseg) as [_ Hb]. simpl in Hb. rewrite Hb. simpl.
    destruct (listinsertsort_loop_spec h (Z.of_nat (length xs)) L e [] xs (S (length xs)))
      as (h' & xs1 & xs2 & Hop & Heq & Hd' & Hs'); rewrite ?app_nil_r; [done..|set_solver|lia|].
    rewrite app_nil_r in Heq. subst xs.
    exists h', (xs1 ++ e :: xs2). split_and!; [done|done| |done]. by rewrite Permutation_middle.
Qed.
End InsertSort.

(** ** Counted lists with observers *)

Section LIST_T_facts.
Context {W : Type}.

(** The list of [st] holds the nodes [xs] and its count is their number. *)
Definition lwf (st : lstate W) (xs : list addr) : Prop :=
  dl (l_heap st) (l_head (l_list st)) xs /\ numEnts (l_list st) = Z.of_nat (length xs) /\
  NULL ∉ l_head (l_list st) :: xs.

Abbreviation hd st := (l_head (l_list st)).

(** The pointer surgery of [listInsertEntryBefore] is that of [inList]. *)
Lemma listInsertEntryBefore_inList (st : lstate W) succ e h' :
  inList (l_heap st) succ e = Some h' ->
  listInsertEntryBefore st succ e =
    Some (LState h' (set_numEnts (l_list st) (numEnts (l_list st) + 1))
            (notify (l_list st) (Event LIST_EVENT_ENTER e) (l_world st))).
Proof.
  unfold inList, listInsertEntryBefore. intros H.
  repeat (match goal with
          | H : option_bind _ _ = Some _ |- _ => apply bind_Some in H as (? & ? & H)
          | H : mbind _ _ = Some _ |- _ => apply bind_Some in H as (? & ? & H)
          | H : ?x = Some _ |- context [?x] => rewrite H; clear H; simpl
          end).
  done.
Qed.

Lemma listRemoveEntry_offList (st : lstate W) e b f h' :
  rd_back (l_heap st) e = Some b -> rd_forw (l_heap st) e = Some f ->
  b <> NULL -> f <> NULL -> offList (l_heap st) e = Some h' ->
  listRemoveEntry st e =
    Some (LState h' (set_numEnts (l_list st) (numEnts (l_list st) - 1))
            (notify (l_list st) (Event LIST_EVENT_LEAVE e) (l_world st))).
Proof.
  unfold offList, listRemoveEntry. intros Hb Hf Hb0 Hf0. rewrite Hb, Hf. simpl.
  rewrite !bool_decide_eq_false_2 by done. simpl. intros H.
  repeat (match goal with
          | H : mbind _ _ = Some _ |- _ => apply bind_Some in H as (? & ? & H)
          | H : ?x = Some _ |- context [?x] => rewrite H; clear H; simpl
          end).
  done.
Qed.

Lemma lwf_insert (st : lstate W) xs ys e :
  lwf st (xs ++ ys) -> e ∉ hd st :: xs ++ ys -> e <> NULL -> is_Some (l_heap st !! e) ->
  exists st', listInsertEntryBefore st (succ_of (hd st) ys) e = Some st' /\
    lwf st' (xs ++ e :: ys) /\ hd st' = hd st /\
    l_world st' = notify (l_list st) (Event LIST_EVENT_ENTER e) (l_world st).
Proof.
  intros (Hd & Hn & Hnull) He He0 Hal.
  destruct (dl_gap _ _ xs ys e Hd He) as (Hl & Hp & Hs).
  destruct (inList_spliced _ _ e _ Hl Hp Hs Hal) as (h' & Hop & Hsp).
  apply listInsertEntryBefore_inList in Hop. eexists. split; [exact Hop|].
  split_and!; [|done|done]. split_and!; simpl.
  - by eapply dl_splice.
  - rewrite Hn, !length_app. simpl. lia.
  - set_solver.
Qed.

Lemma lwf_remove (st : lstate W) xs ys e :
  lwf st (xs ++ e :: ys) ->
  exists st', listRemoveEntry st e = Some st' /\ lwf st' (xs ++ ys) /\ hd st' = hd st /\
    l_world st' = notify (l_list st) (Event LIST_EVENT_LEAVE e) (l_world st).
Proof.
  intros (Hd & Hn & Hnull). destruct (dl_around _ _ xs ys e Hd) as (Hp & Hs & Hne).
  destruct (offList_unspliced _ _ e _ Hp Hs Hne) as (h' & Hop & Hu).
  assert (pred_of (hd st) xs <> NULL).
  { intros Heq. pose proof (pred_of_elem (hd st) xs) as Hin. rewrite Heq in Hin. set_solver. }
  assert (succ_of (hd st) ys <> NULL).
  { intros Heq. pose proof (succ_of_elem (hd st) ys) as Hin. rewrite Heq in Hin. set_solver. }
  eapply listRemoveEntry_offList in Hop; [|apply Hp|apply Hs|done..].
  eexists. split; [exact Hop|]. split_and!; [|done|done]. split_and!; simpl.
  - by eapply dl_unsplice.
  - rewrite Hn, !length_app. simpl. lia.
  - set_solver.
Qed.

(** Where a traversal stops: the header, or NULL on an empty list. *)
Lemma getCur_end (st : lstate W) : listIteratorGetCurEntry st (hd st) = NULL.
Proof. unfold listIteratorGetCurEntry. by rewrite bool_decide_eq_true_2. Qed.

Lemma getCur_elem (st : lstate W) x :
  x <> hd st -> x <> NULL -> listIteratorGetCurEntry st x = x.
Proof. intros H1 H2. unfold listIteratorGetCurEntry. by rewrite bool_decide_eq_false_2. Qed.

(** A loop that follows [forw] sees the rest of the list. *)
Lemma list2Vector_forward (st : lstate W) direction xs ys fuel :
  lwf st (xs ++ ys) -> has direction LIST_TRAVERSE_FORWARD = true ->
  (length ys < fuel)%nat ->
  list2Vector_loop fuel st direction (succ_of (hd st) ys) = Some ys.
Proof.
  intros Hw Hdir. revert xs fuel Hw. induction ys as [|y ys IH]; intros xs fuel Hw Hfuel;
    (destruct fuel as [|fuel]; [lia|]); simpl.
  - rewrite getCur_end. done.
  - destruct Hw as (Hd & Hn & Hnull).
    pose proof Hd as [Hnd Hseg]. apply NoDup_cons in Hnd as [Hh _].
    rewrite getCur_elem by set_solver. rewrite bool_decide_eq_false_2 by set_solver.
    rewrite Hdir. unfold listIteratorNext.
    destruct (dl_around _ _ xs ys y Hd) as (_ & [Hf _] & _). rewrite Hf. simpl.
    rewrite (IH (xs ++ [y])); [done| |simpl in *; lia].
    rewrite <- app_assoc. simpl. done.
Qed.

Lemma list2Vector_backward (st : lstate W) direction xs ys fuel :
  lwf st (xs ++ ys) -> has direction LIST_TRAVERSE_FORWARD = false ->
  (length xs < fuel)%nat ->
  list2Vector_loop fuel st direction (pred_of (hd st) xs) = Some (reverse xs).
Proof.
  intros Hw Hdir. revert ys fuel Hw. induction xs as [|x xs IH] using rev_ind;
    intros ys fuel Hw Hfuel; (destruct fuel as [|fuel]; [lia|]); simpl.
  - rewrite getCur_end. done.
  - rewrite pred_of_snoc. rewrite <- app_assoc in Hw. simpl in Hw.
    destruct Hw as (Hd & Hn & Hnull). rewrite length_app in Hfuel. simpl in Hfuel.
    pose proof Hd as [Hnd Hseg]. apply NoDup_cons in Hnd as [Hh _].
    rewrite getCur_elem by set_solver. rewrite bool_decide_eq_false_2 by set_solver.
    rewrite Hdir. unfold listIteratorPrev.
    destruct (dl_around _ _ xs ys x Hd) as ([_ Hb] & _ & _). rewrite Hb. simpl.
    rewrite (IH (x :: ys)); [|done|lia]. by rewrite reverse_app.
Qed.

Lemma listSearch_spec (st : lstate W) equal xs ys fuel :
  lwf st (xs ++ ys) -> (length ys < fuel)%nat ->
  listSearchEntry_loop fuel st equal (succ_of (hd st) ys) = Some (default NULL (List.find equal ys)).
Proof.
  revert xs fuel. induction ys as [|y ys IH]; intros xs fuel Hw Hfuel;
    (destruct fuel as [|fuel]; [lia|]); simpl.
  - rewrite getCur_end. done.
  - pose proof Hw as (Hd & Hn & Hnull).
    pose proof Hd as [Hnd Hseg]. apply NoDup_cons in Hnd as [Hh _].
    rewrite getCur_elem by set_solver. rewrite bool_decide_eq_false_2 by set_solver.
    destruct (equal y); [done|]. unfold listIteratorNext.
    destruct (dl_around _ _ xs ys y Hd) as (_ & [Hf _] & _). rewrite Hf. simpl.
    apply (IH (xs ++ [y])); [by rewrite <- app_assoc | simpl in *; lia].
Qed.

(** On a list that holds [xs ++ ys] with a correct count,
    [listInsertEntryBefore] puts a fresh entry into the gap, [listRemoveEntry]
    then takes it out again and gives back the same sequence; both keep
    [numEnts] equal to the number of entries and tell the observers. *)
Theorem list_entry_ops (st : lstate W) xs ys e :
  lwf st (xs ++ ys) -> e ∉ hd st :: xs ++ ys -> e <> NULL -> is_Some (l_heap st !! e) ->
  exists st1 st2,
    listInsertEntryBefore st (succ_of (hd st) ys) e = Some st1 /\ lwf st1 (xs ++ e :: ys) /\
    listRemoveEntry st1 e = Some st2 /\ lwf st2 (xs ++ ys) /\
    l_world st2 = notify (l_list st1) (Event LIST_EVENT_LEAVE e)
                    (notify (l_list st) (Event LIST_EVENT_ENTER e) (l_world st)).
Proof.
  intros Hw He He0 Hal.
  destruct (lwf_insert st xs ys e Hw He He0 Hal) as (st1 & Hop1 & Hw1 & Hh1 & Hwd1).
  destruct (lwf_remove st1 xs ys e Hw1) as (st2 & Hop2 & Hw2 & Hh2 & Hwd2).
  exists st1, st2. split_and!; [done..|]. by rewrite Hwd2, Hwd1.
Qed.

(** The traversals of a well-formed list visit each entry
    exactly once and end at the header: [list2Vector] gives the entries in
    order, or in reverse order with LIST_TRAVERSE_BACKWARD, and
    [listSearchEntry] gives the first entry the comparison accepts. *)
Theorem list_traversals (st : lstate W) xs equal :
  lwf st xs ->
  list2Vector (S (length xs)) st LIST_TRAVERSE_FORWARD = Some xs /\
  list2Vector (S (length xs)) st LIST_TRAVERSE_BACKWARD = Some (reverse xs) /\
  listSearchEntry (S (length xs)) st equal = Some (default NULL (List.find equal xs)).
Proof.
  intros Hw. pose proof Hw as ((Hnd & Hseg) & _ & Hnull).
  destruct (seg_gap _ _ [] xs _ Hseg) as [Hf _]. simpl in Hf.
  assert (Hb : rd_back (l_heap st) (hd st) = Some (pred_of (hd st) xs)).
  { rewrite <- (app_nil_r xs) in Hseg. by destruct (seg_gap _ _ xs [] _ Hseg) as [_ Hb]. }
  unfold list2Vector, listSearchEntry, listIteratorAttach, listGetBackEntry. rewrite Hf.
  assert (Hfuel : (length xs < S (length xs))%nat) by lia.
  revert Hfuel. generalize (S (length xs)). intros fuel Hfuel. simpl. split_and!.
  - by apply (list2Vector_forward st _ [] xs).
  - destruct xs as [|x xs]; simpl.
    + rewrite bool_decide_eq_true_2 by done. destruct fuel as [|fuel]; simpl in *; [lia|].
      unfold listIteratorGetCurEntry.
      rewrite (bool_decide_eq_false_2 (NULL = hd st)); [by rewrite bool_decide_eq_true_2|].
      intros Heq. apply Hnull. rewrite Heq. by left.
    + apply NoDup_cons in Hnd as [Hh _].
      rewrite bool_decide_eq_false_2 by set_solver. rewrite Hb.
      apply (list2Vector_backward st _ (x :: xs) []); [by rewrite app_nil_r|done|done].
  - by apply (listSearch_spec st equal [] xs).
Qed.
End LIST_T_facts.

(** ** Witnesses *)

(** A header at 2 with the nodes 3 and 4, and the free nodes 5 and 6. *)
Definition demo_heap : heap :=
  list_to_map [(2%positive, Node 3 4); (3%positive, Node 4 2); (4%positive, Node 2 3);
               (5%positive, Node 1 1); (6%positive, Node 1 1)].

Lemma demo_dl : dl demo_heap 2 [3%positive; 4%positive].
Proof. split; [by apply (bool_decide_unpack _) | repeat split]. Qed.

Lemma demo_lwf : lwf (LState demo_heap (List_t 2 2 false []) tt) [3%positive; 4%positive].
Proof. split_and!; [exact demo_dl | done | by apply (bool_decide_unpack _)]. Qed.

Lemma insert_ops_refine_witness :
  exists h', inList demo_heap 4 5 = Some h' /\ dl h' 2 [3; 5; 4]%positive /\
    only_on demo_heap h' [3; 5; 4]%positive.
Proof.
  refine (proj1 (proj2 (insert_ops_refine demo_heap 2 [3%positive] [4%positive] 5 2 _ _ _))).
  - exact demo_dl.
  - by apply (bool_decide_unpack _).
  - by eexists.
Defined.

Lemma remove_ops_refine_witness :
  exists h', remList_ demo_heap (Some 3%positive) = Some h' /\ dl h' 2 [4]%positive /\
    only_on demo_heap h' [2; 4]%positive.
Proof.
  refine (proj1 (remove_ops_refine demo_heap 2 [] [4%positive] 3 2 _ _)).
  - exact demo_dl.
  - done.
Defined.

Lemma listinsertsort_sorted_witness :
  let cmp a b := Z.pos b - Z.pos a in
  exists h' xs',
    listinsertsort cmp 3 demo_heap 2 2 6 = Some (h', 3) /\
    dl h' 2 xs' /\ xs' ≡ₚ [6; 3; 4]%positive /\ StronglySorted (cmp_le cmp) (reverse xs').
Proof.
  intros cmp. apply (listinsertsort_sorted cmp) with (xs := [3; 4]%positive).
  - unfold cmp_le, cmp. lia.
  - unfold cmp_le, cmp. lia.
  - exact demo_dl.
  - by apply (bool_decide_unpack _).
  - by eexists.
  - vm_compute. repeat (constructor; [|repeat constructor; vm_compute; discriminate]). constructor.
Defined.

Lemma list_entry_ops_witness :
  let st := LState demo_heap (List_t 2 2 false []) tt in
  exists st1 st2,
    listInsertEntryBefore st 3 5 = Some st1 /\ lwf st1 [5; 3; 4]%positive /\
    listRemoveEntry st1 5 = Some st2 /\ lwf st2 [3; 4]%positive /\
    l_world st2 = notify (l_list st1) (Event LIST_EVENT_LEAVE 5)
                    (notify (l_list st) (Event LIST_EVENT_ENTER 5) tt).
Proof.
  intros st. apply (list_entry_ops st [] [3; 4]%positive 5).
  - exact demo_lwf.
  - by apply (bool_decide_unpack _).
  - done.
  - by eexists.
Defined.

Lemma list_traversals_witness :
  let st := LState demo_heap (List_t 2 2 false []) tt in
  list2Vector 3 st LIST_TRAVERSE_FORWARD = Some [3; 4]%positive /\
  list2Vector 3 st LIST_TRAVERSE_BACKWARD = Some [4; 3]%positive /\
  listSearchEntry 3 st (fun a => bool_decide (a = 4%positive)) = Some 4%positive.
Proof.
  intros st.
  exact (list_traversals st [3; 4]%positive (fun a => bool_decide (a = 4%positive)) demo_lwf).
Defined.
