(* ===== verification/CLib.v ===== *)
(** * The C library calls that the sources make on characters and numbers

    [isspace], [isdigit], [strchr], decimal [printf] conversions and
    [strtol]/[atoi], over C strings. *)

From S2P Require Import Prelude.

Definition code (c : ascii) : Z := Z.of_N (N_of_ascii c).
Definition chr (z : Z) : ascii := ascii_of_N (Z.to_N z).

(** ctype.h in the C locale. *)
Definition isspace (c : ascii) : bool := (code c =? 32) || ((9 <=? code c) && (code c <=? 13)).
Definition isdigit (c : ascii) : bool := (48 <=? code c) && (code c <=? 57).
Definition isalpha (c : ascii) : bool :=
  ((65 <=? code c) && (code c <=? 90)) || ((97 <=? code c) && (code c <=? 122)).
Definition isalnum (c : ascii) : bool := isalpha c || isdigit c.

(** [strlen], and [strchr] as the suffix it points to. *)
Definition strlen (s : cstr) : Z := Z.of_nat (length s).

Fixpoint strchr (s : cstr) (c : ascii) : option cstr :=
  match s with
  | [] => None
  | a :: r => if ch_eqb a c then Some s else strchr r c
  end.

(** The longest prefix that satisfies [p], and the rest. *)
Fixpoint span (p : ascii -> bool) (s : cstr) : cstr * cstr :=
  match s with
  | [] => ([], [])
  | c :: r => if p c then let '(a, b) := span p r in (c :: a, b) else ([], s)
  end.

(** ** Decimal conversion: [%d] and [%lld] *)

Definition digit (n : Z) : ascii := chr (48 + n).

Fixpoint dec_digits (fuel : nat) (n : Z) : cstr :=
  match fuel with
  | O => []
  | S fuel => if n <? 10 then [digit n] else dec_digits fuel (n / 10) ++ [digit (n mod 10)]
  end.

(** One more than the number of binary digits is enough fuel. *)
Definition print_nat (n : Z) : cstr := dec_digits (S (Z.to_nat (Z.log2 n))) n.
Definition print_Z (n : Z) : cstr := if n <? 0 then "-"%char :: print_nat (- n) else print_nat n.

(** ** [strtol(s, &end, 10)] and [atoi] *)

Definition digits_val (s : cstr) : Z := fold_left (fun a c => 10 * a + (code c - 48)) s 0.

Definition LONG_MAX : Z := 2 ^ 63 - 1.
Definition LONG_MIN : Z := - 2 ^ 63.
Definition saturate (z : Z) : Z := Z.max LONG_MIN (Z.min LONG_MAX z).

Definition scan_sign (r : cstr) : bool * cstr :=
  match r with
  | "-"%char :: r' => (true, r')
  | "+"%char :: r' => (false, r')
  | _ => (false, r)
  end.

(** The value and the suffix [end] points to; without digits the value is 0 and
    [end] is the string itself. *)
Definition strtol (s : cstr) : Z * cstr :=
  let '(_, r) := span isspace s in
  let '(neg, r) := scan_sign r in
  let '(ds, e) := span isdigit r in
  match ds with
  | [] => (0, s)
  | _ => (saturate (if neg then - digits_val ds else digits_val ds), e)
  end.

Definition atoi (s : cstr) : Z := int32 (fst (strtol s)).

(** ** Lemmas *)

Lemma code_chr n : 0 <= n < 256 -> code (chr n) = n.
Proof.
  intros H. unfold code, chr. rewrite N_ascii_embedding by lia. lia.
Qed.

Lemma code_range c : 0 <= code c < 256.
Proof. unfold code. pose proof (N_ascii_bounded c). lia. Qed.

Lemma code_inj a b : code a = code b -> a = b.
Proof.
  unfold code. intros H. assert (N_of_ascii a = N_of_ascii b) as Hn by lia.
  rewrite <- (ascii_N_embedding a), <- (ascii_N_embedding b). by rewrite Hn.
Qed.

Lemma code_digit n : 0 <= n < 10 -> code (digit n) = 48 + n.
Proof. intros H. apply code_chr. lia. Qed.

Lemma isdigit_digit n : 0 <= n < 10 -> isdigit (digit n) = true.
Proof.
  intros H. unfold isdigit. rewrite code_digit by done.
  apply andb_true_iff. split; apply Z.leb_le; lia.
Qed.

Lemma isdigit_not_space c : isdigit c = true -> isspace c = false.
Proof.
  unfold isdigit, isspace. intros. breflect.
  apply orb_false_iff. split; [apply Z.eqb_neq; lia|].
  apply andb_false_iff. right. apply Z.leb_gt. lia.
Qed.

Lemma span_app p s t : Forall (fun c => p c = true) s ->
  match t with [] => True | c :: _ => p c = false end -> span p (s ++ t) = (s, t).
Proof.
  intros Hs Ht. induction Hs as [|c s Hc Hs IH]; simpl.
  - destruct t; simpl; [done|]. by rewrite Ht.
  - by rewrite Hc, IH.
Qed.

Lemma span_all p s : Forall (fun c => p c = true) s -> span p s = (s, []).
Proof. intros. rewrite <- (app_nil_r s) at 1. by apply span_app. Qed.

Lemma span_concat p s : fst (span p s) ++ snd (span p s) = s.
Proof.
  induction s as [|c s IH]; simpl; [done|]. destruct (p c); [|done].
  destruct (span p s); simpl in *. by rewrite IH.
Qed.

Lemma span_fst p s : Forall (fun c => p c = true) (fst (span p s)).
Proof.
  induction s as [|c s IH]; simpl; [constructor|]. destruct (p c) eqn:?; [|constructor].
  destruct (span p s); simpl in *. by constructor.
Qed.

Lemma span_snd p s : match snd (span p s) with [] => True | c :: _ => p c = false end.
Proof.
  induction s as [|c s IH]; simpl; [done|]. destruct (p c) eqn:?; [|done].
  by destruct (span p s).
Qed.

Lemma span_length p s : (length (snd (span p s)) <= length s)%nat.
Proof. rewrite <- (span_concat p s) at 2. rewrite length_app. lia. Qed.

Lemma span_none p c s : p c = false -> span p (c :: s) = ([], c :: s).
Proof. intros H. simpl. by rewrite H. Qed.

(** *** Printed numbers *)

Lemma dec_digits_spec fuel n : 0 <= n < 2 ^ Z.of_nat fuel -> (0 < fuel)%nat ->
  Forall (fun c => isdigit c = true) (dec_digits fuel n) /\
  digits_val (dec_digits fuel n) = n /\ dec_digits fuel n <> [].
Proof.
  revert n. induction fuel as [|fuel IH]; intros n Hn Hf; [lia|]. simpl.
  destruct (n <? 10) eqn:Hlt; breflect.
  - split_and!; [repeat constructor; apply isdigit_digit; lia| |done].
    unfold digits_val. simpl. rewrite code_digit by lia. lia.
  - assert (0 <= n mod 10 < 10) as Hm by (apply Z.mod_pos_bound; lia).
    replace (Z.of_nat (S fuel)) with (1 + Z.of_nat fuel) in Hn by lia.
    rewrite Z.pow_add_r in Hn by lia.
    assert (0 <= n / 10 < 2 ^ Z.of_nat fuel) as Hq.
    { split; [apply Z.div_pos; lia|]. apply Z.div_lt_upper_bound; lia. }
    destruct fuel as [|fuel]; [simpl in *; lia|].
    destruct (IH (n / 10) Hq) as (Hd & Hv & Hne); [lia|]. split_and!.
    + apply Forall_app. split; [done|]. repeat constructor. by apply isdigit_digit.
    + unfold digits_val in *. rewrite fold_left_app, Hv. simpl.
      rewrite code_digit by done. pose proof (Z.div_mod n 10). lia.
    + by destruct (dec_digits (S fuel) (n / 10)).
Qed.

Lemma print_nat_spec n : 0 <= n ->
  Forall (fun c => isdigit c = true) (print_nat n) /\
  digits_val (print_nat n) = n /\ print_nat n <> [].
Proof.
  intros Hn. apply dec_digits_spec; [|lia]. split; [done|].
  replace (Z.of_nat (S (Z.to_nat (Z.log2 n)))) with (Z.succ (Z.log2 n))
    by (pose proof (Z.log2_nonneg n); lia).
  destruct (Z.eq_dec n 0) as [->|]; [simpl; lia|]. apply Z.log2_spec. lia.
Qed.

Lemma dec_digits_length fuel n k : 0 <= n < 10 ^ Z.of_nat k -> (0 < k)%nat ->
  (length (dec_digits fuel n) <= k)%nat.
Proof.
  revert n k. induction fuel as [|fuel IH]; intros n k Hn Hk; simpl; [lia|].
  destruct (n <? 10) eqn:Hlt; breflect; simpl; [lia|].
  destruct k as [|[|k]]; [lia|simpl in Hn; lia|].
  rewrite length_app. simpl. specialize (IH (n / 10) (S k)).
  replace (Z.of_nat (S (S k))) with (1 + Z.of_nat (S k)) in Hn by lia.
  rewrite Z.pow_add_r in Hn by lia.
  assert (0 <= n / 10 < 10 ^ Z.of_nat (S k)); [|specialize (IH ltac:(done) ltac:(lia)); lia].
  split; [apply Z.div_pos; lia|]. apply Z.div_lt_upper_bound; lia.
Qed.

Lemma print_nat_head n : 0 <= n -> exists c s, print_nat n = c :: s /\ isdigit c = true.
Proof.
  intros Hn. destruct (print_nat_spec n Hn) as (Hd & _ & Hne).
  destruct (print_nat n) as [|c s]; [done|]. inversion Hd; subst. eauto.
Qed.

Lemma print_Z_inj m n : print_Z m = print_Z n -> m = n.
Proof.
  assert (forall a b, 0 <= a -> 0 <= b -> "-"%char :: print_nat a <> print_nat b) as Hsign.
  { intros a b Ha Hb H. destruct (print_nat_head b Hb) as (c & s & Hs & Hc).
    rewrite Hs in H. by simplify_eq. }
  assert (forall a b, 0 <= a -> 0 <= b -> print_nat a = print_nat b -> a = b) as Hnat.
  { intros a b Ha Hb H. apply print_nat_spec in Ha as (_ & Ha & _), Hb as (_ & Hb & _).
    congruence. }
  unfold print_Z. intros H.
  destruct (m <? 0) eqn:Hm, (n <? 0) eqn:Hn; breflect.
  - injection H as H. apply Hnat in H; lia.
  - exfalso. eapply Hsign; [| |exact H]; lia.
  - exfalso. eapply Hsign; [| |symmetry; exact H]; lia.
  - by apply Hnat.
Qed.

Lemma saturate_id z : LONG_MIN <= z <= LONG_MAX -> saturate z = z.
Proof. unfold saturate. lia. Qed.

(** A printed number followed by a character that is not a digit is read back. *)
Lemma strtol_print_nat n t : 0 <= n <= LONG_MAX ->
  match t with [] => True | c :: _ => isdigit c = false end ->
  strtol (print_nat n ++ t) = (n, t).
Proof.
  intros Hn Ht. destruct (print_nat_spec n) as (Hd & Hv & _); [lia|].
  destruct (print_nat_head n) as (c & s & Hs & Hc); [lia|]. unfold strtol.
  rewrite Hs at 1. rewrite <- app_comm_cons, span_none by by apply isdigit_not_space.
  rewrite app_comm_cons, <- Hs.
  assert (scan_sign (print_nat n ++ t) = (false, print_nat n ++ t)) as ->.
  { rewrite Hs. clear -Hc. by destruct c as [[] [] [] [] [] [] [] []]. }
  rewrite span_app by done. rewrite Hs at 1. rewrite Hv, saturate_id; [done|].
  unfold LONG_MIN. lia.
Qed.
