(* ===== verification/HashTable.v ===== *)
(** * The string-keyed hash table (lsf/lib/lib.table.c)

    The table of entries that every daemon uses for its users, queues, hosts and
    jobs: an array of [size] buckets, [size] taken from a fixed list of primes,
    grown when it holds more than one and a half entries per bucket.

    A bucket is one of the circular lists of [DList]; here it is the sequence of
    its entries along [bwPtr], the direction in which [h_findEnt] and
    [h_nextEnt_] walk, so that [insList_(ent, bucket)] puts the entry first.  An
    [hEnt *] that points into a table is represented by the key of the entry,
    unique in a well-formed table.  A table whose [slotPtr] is NULL (freed, or
    never initialised) has [slotPtr = None]. *)

From S2P Require Import Prelude.

Section HashTable.
Context {V : Type}.

Record hEnt := HEnt { hData : option V; keyname : cstr }.

Record hTab := HTab { slotPtr : option (list (list hEnt)); numEnts : Z; size : Z }.

Definition primes : list Z :=
  [101; 1009; 5009; 10007; 20011; 50021; 100003; 200003; 500009; 1030637].

(** ** Operations *)

(** The first prime above [x], else the last one. *)
Fixpoint closest_prime (ps : list Z) (x : Z) : Z :=
  match ps with
  | [] => List.last primes 0
  | p :: ps => if x <? p then p else closest_prime ps x
  end.
Definition getClosestPrime (x : Z) : Z := closest_prime primes x.

(** A [char] is signed: the value of the byte in [-128, 128). *)
Definition schar (c : ascii) : Z := sint_of 8 (Z.of_N (N_of_ascii c)).

(** [ha] is an unsigned int, and so is the sum: [*key++] is converted. *)
Definition getAddr (tabsize : Z) (key : cstr) : Z :=
  fold_left (fun ha c => uint32 (ha * 128 + schar c) mod tabsize) key 0.

Definition h_initTab_ (numSlots : Z) : hTab :=
  let sz := getClosestPrime numSlots in
  HTab (Some (replicate (Z.to_nat sz) [])) 0 sz.

Definition h_TabEmpty_ (tab : hTab) : bool := numEnts tab =? 0.

Definition h_findEnt (key : cstr) (bucket : list hEnt) : option hEnt :=
  List.find (fun e => bool_decide (keyname e = key)) bucket.

(** [None]: NULL, the entry is not in the table; the outer option is [None] when
    a NULL or out of range slot is dereferenced. *)
Definition h_getEnt_ (tab : hTab) (key : cstr) : option (option hEnt) :=
  if numEnts tab =? 0 then Some None
  else
    sl ← slotPtr tab;
    b ← sl !! Z.to_nat (getAddr (size tab) key);
    Some (h_findEnt key b).

(** [insList_] of an entry into the bucket of its key. *)
Definition ins_ent (tab : hTab) (e : hEnt) : option hTab :=
  sl ← slotPtr tab;
  let i := Z.to_nat (getAddr (size tab) (keyname e)) in
  b ← sl !! i;
  Some (HTab (Some (<[i := e :: b]> sl)) (numEnts tab + 1) (size tab)).

Definition RESETFACTOR : Z := 2.

(** Every entry of every old bucket, each bucket along [bwPtr], is moved to the
    new table. *)
Definition resetTab (tab : hTab) : option hTab :=
  lastSlots ← slotPtr tab;
  foldl (fun t e => t ← t; ins_ent t e)
    (Some (h_initTab_ (size tab * RESETFACTOR))) (concat lastSlots).

(** RESETLIMIT is 1.5: [numEnts >= 1.5 * size]. *)
Definition over_limit (tab : hTab) : bool := 3 * size tab <=? 2 * numEnts tab.

(** The boolean is [*newPtr]. *)
Definition h_addEnt_ (tab : hTab) (key : cstr) : option (hTab * bool) :=
  sl ← slotPtr tab;
  b ← sl !! Z.to_nat (getAddr (size tab) key);
  match h_findEnt key b with
  | Some _ => Some (tab, false)
  | None =>
      tab ← (if over_limit tab then resetTab tab else Some tab);
      tab ← ins_ent tab (HEnt None key);
      Some (tab, true)
  end.

(** [ent->hData = v] on the entry of a key. *)
Definition set_hData (tab : hTab) (key : cstr) (v : option V) : hTab :=
  HTab (map (map (fun e => if bool_decide (keyname e = key) then HEnt v key else e)) <$> slotPtr tab)
    (numEnts tab) (size tab).

Definition other_key (key : cstr) (e : hEnt) : bool := negb (bool_decide (keyname e = key)).

(** [remList_]: the entry is unlinked from the bucket it is in. *)
Definition unlink_ent (tab : hTab) (key : cstr) : hTab :=
  HTab (map (List.filter (other_key key)) <$> slotPtr tab)
    (numEnts tab - 1) (size tab).

(** An entry is removed; NULL is ignored.  [h_delEnt_] also frees the data. *)
Definition h_delEnt_ (tab : hTab) (ent : option hEnt) : hTab * option V :=
  match ent with
  | None => (tab, None)
  | Some e => (unlink_ent tab (keyname e), hData e)
  end.

Definition h_rmEnt_ (tab : hTab) (ent : option hEnt) : hTab :=
  match ent with None => tab | Some e => unlink_ent tab (keyname e) end.

Definition h_delRef_ (tab : hTab) (ent : option hEnt) : hTab :=
  match ent with None => tab | Some e => unlink_ent tab (keyname e) end.

(** The data handed to the destructor, bucket by bucket; the table is left
    without slots. *)
Definition h_freeTab_ (tab : hTab) : option (hTab * list V) :=
  sl ← slotPtr tab;
  Some (HTab None 0 (size tab), omap hData (concat sl)).

(** ** Iteration

    The position of an iterator: the next bucket, and the entries of the current
    bucket that are still to be returned, or [None] before the first step. *)
Record sTab := STab { nIndex : nat; hRest : option (list hEnt) }.

Fixpoint next_slot (fuel : nat) (tab : hTab) (sl : list (list hEnt)) (i : nat)
    : option (hEnt * sTab) :=
  match fuel with
  | O => None
  | S fuel =>
      if size tab <=? Z.of_nat i then None
      else match sl !! i with
           | Some (e :: b) => Some (e, STab (S i) (Some b))
           | _ => next_slot fuel tab sl (S i)
           end
  end.

Definition h_nextEnt_ (tab : hTab) (s : sTab) : option (hEnt * sTab) :=
  sl ← slotPtr tab;
  match hRest s with
  | Some (e :: b) => Some (e, STab (nIndex s) (Some b))
  | _ => next_slot (S (Z.to_nat (size tab))) tab sl (nIndex s)
  end.

Definition h_firstEnt_ (tab : hTab) : option (hEnt * sTab) :=
  match slotPtr tab with
  | None => None
  | Some _ => h_nextEnt_ tab (STab 0 None)
  end.

(** The loop [for (e = h_firstEnt_(tab, &s); e; e = h_nextEnt_(&s))]. *)
Fixpoint iterate (fuel : nat) (tab : hTab) (cur : option (hEnt * sTab)) : option (list hEnt) :=
  match cur with
  | None => Some []
  | Some (e, s) =>
      match fuel with
      | O => None
      | S fuel => l ← iterate fuel tab (h_nextEnt_ tab s); Some (e :: l)
      end
  end.

Definition for_each (fuel : nat) (tab : hTab) : option (list hEnt) :=
  iterate fuel tab (h_firstEnt_ tab).

(** ** Well-formed tables and the map they stand for *)

Definition entries (sl : list (list hEnt)) : list hEnt := concat sl.

Definition bucket_ok (sz : Z) (i : nat) (b : list hEnt) : Prop :=
  Forall (fun e => Z.to_nat (getAddr sz (keyname e)) = i) b.

Record twf (tab : hTab) (sl : list (list hEnt)) : Prop := {
  twf_slots : slotPtr tab = Some sl;
  twf_size : size tab ∈ primes;
  twf_len : length sl = Z.to_nat (size tab);
  twf_num : numEnts tab = Z.of_nat (length (entries sl));
  twf_keys : NoDup (keyname <$> entries sl);
  twf_addr : forall i b, sl !! i = Some b -> bucket_ok (size tab) i b }.

Definition ent_map (es : list hEnt) : gmap cstr (option V) :=
  list_to_map ((fun e => (keyname e, hData e)) <$> es).

Definition tab_map (tab : hTab) : gmap cstr (option V) :=
  match slotPtr tab with Some sl => ent_map (entries sl) | None => ∅ end.
End HashTable.

Arguments hEnt : clear implicits.
Arguments hTab : clear implicits.
Arguments sTab : clear implicits.

Section Facts.
Context {V : Type}.
Implicit Types (tab : hTab V) (sl : list (list (hEnt V))) (e : hEnt V) (key : cstr).

(** ** Sizes and addresses *)

Lemma primes_pos p : p ∈ primes -> 0 < p < 2 ^ 20 + 2 ^ 20.
Proof.
  intros Hp. assert (Forall (fun p => 0 < p < 2 ^ 20 + 2 ^ 20) primes) as Hf
    by (unfold primes; repeat constructor).
  by apply (proj1 (Forall_forall _ _) Hf p Hp).
Qed.

Lemma getClosestPrime_elem x : getClosestPrime x ∈ primes.
Proof.
  unfold getClosestPrime, primes, closest_prime.
  repeat case_if; simpl; rewrite !elem_of_cons; tauto.
Qed.

Lemma getAddr_range sz key : 0 < sz -> 0 <= getAddr sz key < sz.
Proof.
  intros Hsz. unfold getAddr.
  enough (Hg : forall ha, 0 <= ha < sz ->
    0 <= fold_left (fun ha c => uint32 (ha * 128 + schar c) mod sz) key ha < sz) by (apply Hg; lia).
  induction key as [|c key IH]; intros ha Hha; simpl; [done|].
  apply IH. apply Z.mod_pos_bound. lia.
Qed.

Lemma slot_exists tab sl key :
  twf tab sl -> exists b, sl !! Z.to_nat (getAddr (size tab) key) = Some b.
Proof.
  intros Hw. pose proof (primes_pos _ (twf_size _ _ Hw)) as Hp.
  pose proof (getAddr_range (size tab) key). apply lookup_lt_is_Some_2.
  rewrite (twf_len _ _ Hw). lia.
Qed.

(** ** Buckets and the whole table *)

Lemma entries_insert sl i b e :
  sl !! i = Some b -> entries (<[i := e :: b]> sl) ≡ₚ e :: entries sl.
Proof.
  unfold entries. revert i. induction sl as [|b' sl IH]; intros [|i] Hi; simpl in *; try done.
  - by simplify_eq.
  - rewrite (IH i Hi). by rewrite Permutation_middle.
Qed.

Lemma elem_of_entries sl e : e ∈ entries sl <-> exists i b, sl !! i = Some b /\ e ∈ b.
Proof.
  unfold entries. rewrite list_elem_of_In, in_concat. split.
  - intros (b & Hb & He). apply list_elem_of_In, list_elem_of_lookup in Hb as [i Hi].
    exists i, b. split; [done|]. by apply list_elem_of_In.
  - intros (i & b & Hi & He). exists b. split; apply list_elem_of_In; [|done].
    apply list_elem_of_lookup. eauto.
Qed.

Lemma find_key_Some key (es : list (hEnt V)) e :
  h_findEnt key es = Some e -> e ∈ es /\ keyname e = key.
Proof.
  unfold h_findEnt. intros H. apply List.find_some in H as [H1 H2].
  by apply list_elem_of_In in H1; breflect.
Qed.

Lemma find_key_None key (es : list (hEnt V)) :
  h_findEnt key es = None <-> key ∉ (keyname <$> es).
Proof.
  unfold h_findEnt. induction es as [|e es IH]; simpl; [set_solver|].
  rewrite elem_of_cons. destruct (decide (keyname e = key)) as [Hk|Hk].
  - rewrite bool_decide_eq_true_2 by done. split; [done|]. intros []. by left.
  - rewrite bool_decide_eq_false_2, IH by done. split; intros H; [|tauto].
    intros [->|]; tauto.
Qed.

(** An entry is looked for only in the bucket of its key. *)
Lemma find_in_bucket tab sl key b :
  twf tab sl -> sl !! Z.to_nat (getAddr (size tab) key) = Some b ->
  key ∈ (keyname <$> entries sl) <-> key ∈ (keyname <$> b).
Proof.
  intros Hw Hb. rewrite !list_elem_of_fmap. split.
  - intros (e & -> & He). apply elem_of_entries in He as (i & b' & Hi & He).
    pose proof (twf_addr _ _ Hw i b' Hi) as Hok.
    pose proof (proj1 (Forall_forall _ _) Hok e He) as Ha. simpl in Ha.
    exists e. split; [done|]. rewrite Ha in Hb. by simplify_eq.
  - intros (e & -> & He). exists e. split; [done|]. apply elem_of_entries. eauto.
Qed.

Lemma ent_map_lookup_None (es : list (hEnt V)) key :
  key ∉ (keyname <$> es) -> ent_map es !! key = None.
Proof.
  intros H. apply not_elem_of_list_to_map_1.
  rewrite <- list_fmap_compose. exact H.
Qed.

Lemma ent_map_lookup_Some (es : list (hEnt V)) e :
  NoDup (keyname <$> es) -> e ∈ es -> ent_map es !! keyname e = Some (hData e).
Proof.
  intros Hnd He. apply elem_of_list_to_map_1.
  - by rewrite <- list_fmap_compose.
  - apply list_elem_of_fmap. eauto.
Qed.

Lemma ent_map_perm (es es' : list (hEnt V)) :
  NoDup (keyname <$> es) -> es ≡ₚ es' -> ent_map es = ent_map es'.
Proof.
  intros Hnd Hp. apply list_to_map_proper.
  - by rewrite <- list_fmap_compose.
  - by apply fmap_Permutation.
Qed.

Lemma find_map tab sl key b :
  twf tab sl -> sl !! Z.to_nat (getAddr (size tab) key) = Some b ->
  tab_map tab !! key = hData <$> h_findEnt key b.
Proof.
  intros Hw Hb. unfold tab_map. rewrite (twf_slots _ _ Hw).
  destruct (h_findEnt key b) as [e|] eqn:Hf; simpl.
  - apply find_key_Some in Hf as [He <-]. apply ent_map_lookup_Some; [by eapply twf_keys|].
    apply elem_of_entries. eauto.
  - apply find_key_None in Hf. apply ent_map_lookup_None. by rewrite find_in_bucket.
Qed.

(** ** Insertion *)

Lemma ins_ent_spec tab sl e :
  twf tab sl -> keyname e ∉ (keyname <$> entries sl) ->
  exists tab' sl', ins_ent tab e = Some tab' /\ twf tab' sl' /\
    entries sl' ≡ₚ e :: entries sl /\ size tab' = size tab.
Proof.
  intros Hw Hnew. destruct (slot_exists tab sl (keyname e) Hw) as [b Hb].
  unfold ins_ent. rewrite (twf_slots _ _ Hw). simpl. rewrite Hb. simpl.
  pose proof (entries_insert sl _ b e Hb) as Hp.
  eexists _, _. split; [done|]. split_and!; [|done|done].
  split; simpl.
  - done.
  - by eapply twf_size.
  - rewrite length_insert. by eapply twf_len.
  - rewrite (twf_num _ _ Hw), Hp. simpl. lia.
  - rewrite Hp. simpl. apply NoDup_cons. split; [done|]. by eapply twf_keys.
  - intros i b' Hi. destruct (decide (i = Z.to_nat (getAddr (size tab) (keyname e)))) as [->|Hne].
    + rewrite list_lookup_insert_eq in Hi by (by eapply lookup_lt_Some). simplify_eq.
      constructor; [done|]. by eapply twf_addr.
    + rewrite list_lookup_insert_ne in Hi by done. by eapply twf_addr.
Qed.

Lemma init_twf n : exists sl, twf (V := V) (h_initTab_ n) sl /\ entries sl = [].
Proof.
  unfold h_initTab_. pose proof (getClosestPrime_elem n) as Hp.
  generalize dependent (getClosestPrime n). intros sz Hp.
  assert (He : entries (replicate (Z.to_nat sz) []) = ([] : list (hEnt V))).
  { unfold entries. generalize (Z.to_nat sz). intros k. by induction k. }
  eexists. split; [|exact He]. split; simpl; [done|done|by rewrite length_replicate| | |].
  - by rewrite He.
  - rewrite He. constructor.
  - intros i b Hi. apply lookup_replicate in Hi as [-> _]. constructor.
Qed.

Lemma reset_loop es tab sl :
  twf tab sl -> NoDup (keyname <$> (es ++ entries sl)) ->
  exists tab' sl', foldl (fun t e => t ← t; ins_ent t e) (Some tab) es = Some tab' /\
    twf tab' sl' /\ entries sl' ≡ₚ es ++ entries sl /\ size tab' = size tab.
Proof.
  revert tab sl. induction es as [|e es IH]; intros tab sl Hw Hnd; simpl.
  - by exists tab, sl.
  - simpl in Hnd. apply NoDup_cons in Hnd as [Hn Hnd].
    rewrite fmap_app in Hn. destruct (ins_ent_spec tab sl e Hw) as (t1 & sl1 & Hop & Hw1 & Hp1 & Hs1).
    { set_solver. }
    rewrite Hop.
    destruct (IH t1 sl1 Hw1) as (t2 & sl2 & Hop2 & Hw2 & Hp2 & Hs2).
    { rewrite Hp1, <- Permutation_middle. simpl. apply NoDup_cons.
      split; [by rewrite fmap_app | done]. }
    exists t2, sl2. split_and!; [done|done| |congruence].
    rewrite Hp2, Hp1. by rewrite Permutation_middle.
Qed.

Lemma resetTab_spec tab sl :
  twf tab sl ->
  exists tab' sl', resetTab tab = Some tab' /\ twf tab' sl' /\ entries sl' ≡ₚ entries sl /\
    size tab' = getClosestPrime (size tab * RESETFACTOR).
Proof.
  intros Hw. unfold resetTab. rewrite (twf_slots _ _ Hw). simpl.
  destruct (init_twf (size tab * RESETFACTOR)) as (sl0 & Hw0 & He0).
  destruct (reset_loop (entries sl) _ sl0 Hw0) as (t & sl' & Hop & Hw' & Hp & Hs).
  { rewrite He0, app_nil_r. by eapply twf_keys. }
  exists t, sl'. split_and!; [done|done| |done]. by rewrite Hp, He0, app_nil_r.
Qed.

Lemma addEnt_new tab sl key b :
  twf tab sl -> sl !! Z.to_nat (getAddr (size tab) key) = Some b -> h_findEnt key b = None ->
  exists tab' sl', h_addEnt_ tab key = Some (tab', true) /\ twf tab' sl' /\
    entries sl' ≡ₚ HEnt None key :: entries sl.
Proof.
  intros Hw Hb Hf. unfold h_addEnt_. rewrite (twf_slots _ _ Hw). simpl. rewrite Hb. simpl.
  rewrite Hf. apply find_key_None in Hf. rewrite <- find_in_bucket in Hf by done.
  assert (exists t1 sl1, (if over_limit tab then resetTab tab else Some tab) = Some t1 /\
            twf t1 sl1 /\ entries sl1 ≡ₚ entries sl) as (t1 & sl1 & -> & Hw1 & Hp1).
  { destruct (over_limit tab); [|by eauto].
    destruct (resetTab_spec tab sl Hw) as (t & s & ? & ? & ? & _). eauto. }
  simpl. destruct (ins_ent_spec t1 sl1 (HEnt None key) Hw1) as (t2 & sl2 & -> & Hw2 & Hp2 & _).
  { simpl. by rewrite Hp1. }
  exists t2, sl2. split_and!; [done|done|]. by rewrite Hp2, Hp1.
Qed.

Lemma ins_ent_size tab e t : ins_ent tab e = Some t -> size t = size tab.
Proof.
  unfold ins_ent. destruct (slotPtr tab) as [sl|]; simpl; [|done].
  destruct (sl !! _); simpl; [|done]. by intros [= <-].
Qed.

(** The table grows when it is over the limit. *)
Lemma addEnt_size tab sl key tab' :
  twf tab sl -> h_addEnt_ tab key = Some (tab', true) ->
  size tab' = if over_limit tab then getClosestPrime (size tab * RESETFACTOR) else size tab.
Proof.
  intros Hw. destruct (slot_exists tab sl key Hw) as [b Hb]. unfold h_addEnt_.
  rewrite (twf_slots _ _ Hw). simpl. rewrite Hb. simpl. destruct (h_findEnt key b); [done|].
  destruct (over_limit tab).
  - destruct (resetTab_spec tab sl Hw) as (t & s & -> & _ & _ & Hs). simpl.
    destruct (ins_ent t _) as [t2|] eqn:E; simpl; [|done]. intros [= <-]. by rewrite (ins_ent_size _ _ _ E).
  - simpl. destruct (ins_ent tab _) as [t2|] eqn:E; simpl; [|done]. intros [= <-]. by apply ins_ent_size in E.
Qed.

(** ** Removal *)

Lemma filter_entries key sl :
  entries (map (List.filter (other_key key)) sl)
  = List.filter (other_key key) (entries sl).
Proof.
  unfold entries. induction sl as [|b sl IH]; simpl; [done|]. by rewrite IH, List.filter_app.
Qed.

Lemma filter_keys key (es : list (hEnt V)) :
  keyname <$> List.filter (other_key key) es
  = filter (fun k => k <> key) (keyname <$> es).
Proof.
  induction es as [|e es IH]; simpl; [done|]. rewrite filter_cons. unfold other_key at 1.
  destruct (decide (keyname e = key)) as [Hk|Hk].
  - rewrite bool_decide_eq_true_2 by done. simpl. rewrite decide_False by (intros H; by apply H).
    exact IH.
  - rewrite bool_decide_eq_false_2 by done. simpl. rewrite decide_True by done. by f_equal.
Qed.

Lemma unlink_spec tab sl e :
  twf tab sl -> e ∈ entries sl ->
  exists sl', twf (unlink_ent tab (keyname e)) sl' /\ e :: entries sl' ≡ₚ entries sl.
Proof.
  intros Hw He. unfold unlink_ent. rewrite (twf_slots _ _ Hw). simpl.
  assert (Hp : e :: List.filter (other_key (keyname e)) (entries sl) ≡ₚ entries sl).
  { pose proof (twf_keys _ _ Hw) as Hnd. revert Hnd He. generalize (entries sl). clear.
    intros es. induction es as [|x es IH]; intros Hnd He; [set_solver|].
    simpl in Hnd. apply NoDup_cons in Hnd as [Hx Hnd]. simpl. unfold other_key at 1.
    destruct (decide (keyname x = keyname e)) as [Hk|Hk].
    - rewrite bool_decide_eq_true_2 by done. simpl.
      assert (x = e) as ->.
      { apply elem_of_cons in He as [->|He]; [done|]. exfalso. apply Hx. rewrite Hk.
        apply list_elem_of_fmap. eauto. }
      constructor.
      assert (List.filter (other_key (keyname e)) es = es) as ->; [|done].
      clear -Hx. induction es as [|y es IH]; simpl; [done|]. unfold other_key at 1.
      rewrite bool_decide_eq_false_2 by set_solver. simpl. f_equal. apply IH. set_solver.
    - rewrite bool_decide_eq_false_2 by done. simpl. rewrite Permutation_swap. f_equiv.
      apply IH; [done|]. apply elem_of_cons in He as [->|He]; [done|done]. }
  eexists. split.
  - split; simpl.
    + done.
    + by eapply twf_size.
    + rewrite length_map. by eapply twf_len.
    + rewrite filter_entries, (twf_num _ _ Hw).
      apply Permutation_length in Hp. simpl in Hp. lia.
    + rewrite filter_entries, filter_keys. apply NoDup_filter. by eapply twf_keys.
    + intros i b Hi. apply list_lookup_fmap_Some in Hi as (b0 & -> & Hb0).
      pose proof (twf_addr _ _ Hw i b0 Hb0) as Hok. unfold bucket_ok in *.
      rewrite Forall_forall in *. intros x Hx. apply Hok.
      apply list_elem_of_In, List.filter_In in Hx as [Hx _]. by apply list_elem_of_In.
  - rewrite filter_entries. exact Hp.
Qed.

(** ** The operations on a found or missing key *)

Lemma getEnt_found tab sl key b :
  twf tab sl -> sl !! Z.to_nat (getAddr (size tab) key) = Some b ->
  h_getEnt_ tab key = Some (h_findEnt key b).
Proof.
  intros Hw Hb. unfold h_getEnt_. destruct (numEnts tab =? 0) eqn:Hz; breflect.
  - rewrite (twf_num _ _ Hw) in Hz. f_equal. symmetry. apply find_key_None.
    rewrite <- find_in_bucket by done. destruct (entries sl); [set_solver|simpl in Hz; lia].
  - rewrite (twf_slots _ _ Hw). simpl. by rewrite Hb.
Qed.

Lemma addEnt_old tab sl key b e :
  twf tab sl -> sl !! Z.to_nat (getAddr (size tab) key) = Some b ->
  h_findEnt key b = Some e -> h_addEnt_ tab key = Some (tab, false).
Proof.
  intros Hw Hb Hf. unfold h_addEnt_. rewrite (twf_slots _ _ Hw). simpl. rewrite Hb. simpl.
  by rewrite Hf.
Qed.

Lemma delEnt_map tab sl key b e :
  twf tab sl -> sl !! Z.to_nat (getAddr (size tab) key) = Some b ->
  h_findEnt key b = Some e -> tab_map (unlink_ent tab (keyname e)) = delete key (tab_map tab).
Proof.
  intros Hw Hb Hf. apply find_key_Some in Hf as [He <-].
  assert (He' : e ∈ entries sl) by (apply elem_of_entries; eauto).
  destruct (unlink_spec tab sl e Hw He') as (sl' & Hw' & Hp).
  unfold tab_map. rewrite (twf_slots _ _ Hw), (twf_slots _ _ Hw').
  pose proof (twf_keys _ _ Hw) as Hnd. rewrite <- Hp in Hnd. simpl in Hnd.
  rewrite <- (ent_map_perm (e :: entries sl') (entries sl)) by done.
  unfold ent_map at 2. simpl. rewrite delete_insert_id; [done|].
  apply NoDup_cons in Hnd as [Hn _]. by apply ent_map_lookup_None.
Qed.

(** ** Iteration *)

(** What is left to return at a position: the rest of the current bucket and the
    buckets that follow. *)
Definition remaining sl (s : sTab V) : list (hEnt V) :=
  default [] (hRest s) ++ concat (drop (nIndex s) sl).

Lemma next_slot_spec tab sl fuel i :
  twf tab sl -> (i <= length sl)%nat -> (length sl - i < fuel)%nat ->
  match next_slot fuel tab sl i with
  | None => concat (drop i sl) = []
  | Some (e, s) => concat (drop i sl) = e :: remaining sl s /\ (nIndex s <= length sl)%nat
  end.
Proof.
  intros Hw. pose proof (primes_pos _ (twf_size _ _ Hw)) as Hp.
  pose proof (twf_len _ _ Hw) as Hlen.
  revert i. induction fuel as [|fuel IH]; intros i Hi Hf; [lia|]. simpl.
  destruct (size tab <=? Z.of_nat i) eqn:Hs; breflect.
  - rewrite drop_ge by lia. done.
  - destruct (lookup_lt_is_Some_2 sl i) as [b Hb]; [lia|]. rewrite Hb.
    rewrite (drop_S sl b i) by done. simpl. destruct b as [|e b].
    + apply IH; lia.
    + unfold remaining. simpl. split; [done|]. apply lookup_lt_Some in Hb. lia.
Qed.

Lemma h_nextEnt_spec tab sl s :
  twf tab sl -> (nIndex s <= length sl)%nat ->
  match h_nextEnt_ tab s with
  | None => remaining sl s = []
  | Some (e, s') => remaining sl s = e :: remaining sl s' /\ (nIndex s' <= length sl)%nat
  end.
Proof.
  intros Hw Hi. unfold h_nextEnt_. rewrite (twf_slots _ _ Hw).
  assert (Hf : (length sl - nIndex s < S (Z.to_nat (size tab)))%nat)
    by (rewrite (twf_len _ _ Hw); lia).
  revert Hf. generalize (S (Z.to_nat (size tab))). intros fuel Hf.
  pose proof (next_slot_spec tab sl fuel (nIndex s) Hw Hi Hf) as Hns.
  destruct s as [i [[|e b]|]]; simpl in *; [exact Hns|done|exact Hns].
Qed.

Lemma iterate_spec tab sl s fuel :
  twf tab sl -> (nIndex s <= length sl)%nat -> (length (remaining sl s) <= fuel)%nat ->
  iterate fuel tab (h_nextEnt_ tab s) = Some (remaining sl s).
Proof.
  intros Hw. revert s. induction fuel as [|fuel IH]; intros s Hi Hf;
    pose proof (h_nextEnt_spec tab sl s Hw Hi) as Hn;
    destruct (h_nextEnt_ tab s) as [[e s']|]; simpl; rewrite ?Hn; try done;
    destruct Hn as [Hn Hi']; rewrite Hn in Hf; simpl in Hf; [lia|].
  rewrite IH by (done || lia). simpl. by rewrite Hn.
Qed.

(** ** Properties *)

(** The invariant of a table (a prime size, as many buckets
    as the size says, [numEnts] the number of entries, all keys different, each
    entry in the bucket of its key) holds after [h_initTab_], and every
    [h_addEnt_] (with or without growing the table) and every removal of an
    entry keeps it; no operation dereferences a missing slot. *)
Theorem table_ops_wf tab sl key e :
  twf tab sl -> e ∈ entries sl ->
  (forall n, exists sl0, twf (V := V) (h_initTab_ n) sl0 /\ entries sl0 = []) /\
  (exists tab' sl' new, h_addEnt_ tab key = Some (tab', new) /\ twf tab' sl') /\
  (exists tab' sl', resetTab tab = Some tab' /\ twf tab' sl' /\ entries sl' ≡ₚ entries sl) /\
  (exists sl', twf (fst (h_delEnt_ tab (Some e))) sl' /\ e :: entries sl' ≡ₚ entries sl).
Proof.
  intros Hw He. split_and!.
  - apply init_twf.
  - destruct (slot_exists tab sl key Hw) as [b Hb].
    destruct (h_findEnt key b) as [x|] eqn:Hf.
    + exists tab, sl, false. split; [by eapply addEnt_old|done].
    + destruct (addEnt_new tab sl key b Hw Hb Hf) as (t & s & Hop & Hw' & _). eauto.
  - destruct (resetTab_spec tab sl Hw) as (t & s & ? & ? & ? & _). eauto.
  - by apply unlink_spec.
Qed.


(** The loop over [h_firstEnt_]/[h_nextEnt_]
    terminates after one step per entry and returns every entry of the table
    exactly once. *)
Theorem table_iteration_complete tab sl :
  twf tab sl ->
  for_each (length (entries sl)) tab = Some (entries sl).
Proof.
  intros Hw. unfold for_each, h_firstEnt_. rewrite (twf_slots _ _ Hw).
  rewrite (iterate_spec tab sl (STab 0 None)); [|done|simpl; lia|done].
  unfold remaining. simpl. by rewrite drop_0.
Qed.
End Facts.

(** ** The interface of a table

    What the clients of lib.table.c rely on.  A client is proved against this
    class; [hash_StrTable] discharges it. *)
Class StrTable (T V : Type) := {
  st_wf : T -> Prop;
  st_abs : T -> gmap cstr (option V);
  st_init : Z -> T;
  st_add : T -> cstr -> option (T * bool);
  st_get : T -> cstr -> option (option (option V));
  st_set : T -> cstr -> option V -> T;
  st_del : T -> cstr -> T;
  st_init_ok n : st_wf (st_init n) /\ st_abs (st_init n) = ∅;
  st_get_ok t k : st_wf t -> st_get t k = Some (st_abs t !! k);
  st_add_ok t k : st_wf t ->
    exists t' new, st_add t k = Some (t', new) /\ st_wf t' /\
      new = bool_decide (st_abs t !! k = None) /\
      st_abs t' = (if new then <[k := None]> (st_abs t) else st_abs t);
  st_set_ok t k v : st_wf t -> is_Some (st_abs t !! k) ->
    st_wf (st_set t k v) /\ st_abs (st_set t k v) = <[k := v]> (st_abs t);
  st_del_ok t k : st_wf t -> is_Some (st_abs t !! k) ->
    st_wf (st_del t k) /\ st_abs (st_del t k) = delete k (st_abs t) }.

Section Instance_of_interface.
Context {V : Type}.
Implicit Types (tab : hTab V) (sl : list (list (hEnt V))).

Lemma set_entries key (v : option V) sl :
  entries (map (map (fun e => if bool_decide (keyname e = key) then HEnt v key else e)) sl)
  = (fun e => if bool_decide (keyname e = key) then HEnt v key else e) <$> entries sl.
Proof. unfold entries. by rewrite List.concat_map. Qed.

Lemma set_keys key (v : option V) (es : list (hEnt V)) :
  keyname <$> ((fun e => if bool_decide (keyname e = key) then HEnt v key else e) <$> es)
  = keyname <$> es.
Proof.
  rewrite <- list_fmap_compose. apply list_fmap_ext. intros i e _. simpl.
  case_bool_decide; done.
Qed.

Lemma set_hData_wf tab sl key v :
  twf tab sl -> key ∈ keyname <$> entries sl ->
  exists sl', twf (set_hData tab key v) sl' /\ ent_map (entries sl') = <[key := v]> (ent_map (entries sl)).
Proof.
  intros Hw Hk. unfold set_hData. rewrite (twf_slots _ _ Hw). eexists. split.
  - split; simpl.
    + done.
    + by eapply twf_size.
    + rewrite length_map. by eapply twf_len.
    + rewrite set_entries, length_fmap. by eapply twf_num.
    + rewrite set_entries, set_keys. by eapply twf_keys.
    + intros i b Hi. apply list_lookup_fmap_Some in Hi as (b0 & -> & Hb0).
      pose proof (twf_addr _ _ Hw i b0 Hb0) as Hok. unfold bucket_ok in *.
      rewrite Forall_forall in *. intros x Hx. apply list_elem_of_fmap in Hx as (y & -> & Hy).
      specialize (Hok y Hy). case_bool_decide; [|done]. subst. done.
  - rewrite set_entries. pose proof (twf_keys _ _ Hw) as Hnd. revert Hnd Hk.
    generalize (entries sl). clear. intros es. induction es as [|e es IH]; intros Hnd Hk; [set_solver|].
    simpl in Hnd. apply NoDup_cons in Hnd as [Hn Hnd]. unfold ent_map in *. simpl.
    case_bool_decide as Hc; simpl.
    + subst key. rewrite insert_insert_eq. f_equal. f_equal.
      rewrite <- list_fmap_compose. apply list_fmap_ext. intros i x Hx. simpl.
      rewrite bool_decide_eq_false_2; [done|]. intros Heq. apply Hn. rewrite <- Heq.
      apply list_elem_of_fmap. exists x. split; [done|]. apply list_elem_of_lookup. eauto.
    + specialize (IH Hnd ltac:(set_solver)).
      etransitivity; [apply (f_equal _ IH)|]. by rewrite insert_insert_ne.
Qed.

#[export] Instance hash_StrTable : StrTable (hTab V) V.
Proof.
  refine {|
    st_wf t := exists sl, twf t sl;
    st_abs := tab_map;
    st_init := h_initTab_;
    st_add := h_addEnt_;
    st_get t k := r ← h_getEnt_ t k; Some (option_map hData r);
    st_set := set_hData;
    st_del t k := match h_getEnt_ t k with Some r => fst (h_delEnt_ t r) | None => t end |}.
  - intros n. destruct (init_twf (V := V) n) as (sl & Hw & He). split; [by exists sl|].
    unfold tab_map. rewrite (twf_slots _ _ Hw), He. done.
  - intros t k [sl Hw]. destruct (slot_exists t sl k Hw) as [b Hb].
    rewrite (getEnt_found t sl k b Hw Hb). simpl. by rewrite (find_map t sl k b Hw Hb).
  - intros t k [sl Hw]. destruct (slot_exists t sl k Hw) as [b Hb].
    rewrite (find_map t sl k b Hw Hb). destruct (h_findEnt k b) as [e|] eqn:Hf; simpl.
    + exists t, false. split_and!; [by eapply addEnt_old|by exists sl|done|done].
    + destruct (addEnt_new t sl k b Hw Hb Hf) as (t' & sl' & Hop & Hw' & Hp).
      exists t', true. split_and!; [done|by exists sl'|done|].
      unfold tab_map. rewrite (twf_slots _ _ Hw), (twf_slots _ _ Hw').
      by rewrite (ent_map_perm _ _ (twf_keys _ _ Hw') Hp).
  - intros t k v [sl Hw] Hk. destruct (set_hData_wf t sl k v Hw) as (sl' & Hw' & Hm).
    + destruct (decide (k ∈ keyname <$> entries sl)) as [|Hn]; [done|].
      unfold tab_map in Hk. rewrite (twf_slots _ _ Hw), ent_map_lookup_None in Hk by done.
      by destruct Hk.
    + split; [by exists sl'|]. unfold tab_map. by rewrite (twf_slots _ _ Hw'), (twf_slots _ _ Hw).
  - intros t k [sl Hw] Hk. destruct (slot_exists t sl k Hw) as [b Hb].
    rewrite (getEnt_found t sl k b Hw Hb). rewrite (find_map t sl k b Hw Hb) in Hk.
    destruct (h_findEnt k b) as [e|] eqn:Hf; simpl in *; [|by destruct Hk].
    pose proof Hf as Hf'. apply find_key_Some in Hf' as [He <-].
    destruct (unlink_spec t sl e Hw) as (sl' & Hw' & _); [apply elem_of_entries; eauto|].
    split; [by exists sl'|]. by eapply delEnt_map.
Defined.
End Instance_of_interface.

(** ** Witnesses *)

(** A table of 101 buckets with one entry. *)
Lemma demo_table :
  exists (tab : hTab nat) sl, h_addEnt_ (h_initTab_ 11) (lit "lsfadmin") = Some (tab, true) /\
    twf tab sl /\ entries sl = [HEnt None (lit "lsfadmin")].
Proof.
  destruct (init_twf (V := nat) 11) as (sl0 & Hw0 & He0).
  destruct (slot_exists _ sl0 (lit "lsfadmin") Hw0) as [b Hb].
  assert (Hf : h_findEnt (lit "lsfadmin") b = None).
  { apply find_key_None. rewrite <- find_in_bucket by done. rewrite He0. set_solver. }
  destruct (addEnt_new _ sl0 _ b Hw0 Hb Hf) as (t & sl & Hop & Hw & Hp).
  exists t, sl. split_and!; [done..|]. rewrite He0 in Hp. by apply Permutation_singleton_r in Hp.
Qed.

Lemma table_ops_wf_witness :
  exists (tab tab' : hTab nat) sl new,
    h_addEnt_ (h_initTab_ 11) (lit "lsfadmin") = Some (tab, true) /\
    h_addEnt_ tab (lit "root") = Some (tab', new) /\ twf tab' sl.
Proof.
  destruct demo_table as (tab & sl & Hop & Hw & He).
  destruct (table_ops_wf tab sl (lit "root") (HEnt None (lit "lsfadmin")) Hw)
    as (_ & (tab' & sl' & new & H1 & H2) & _).
  - rewrite He. by left.
  - by exists tab, tab', sl', new.
Defined.


Lemma table_iteration_complete_witness :
  exists tab : hTab nat,
    h_addEnt_ (h_initTab_ 11) (lit "lsfadmin") = Some (tab, true) /\
    for_each 1 tab = Some [HEnt None (lit "lsfadmin")].
Proof.
  destruct demo_table as (tab & sl & Hop & Hw & He). exists tab. split; [done|].
  pose proof (table_iteration_complete tab sl Hw) as H. by rewrite He in H.
Defined.
