(* ===== verification/JobId.v ===== *)
(** * Job identifiers and the job table (lsbatch.h, lsb.misc.c, mbd.job.c)

    A job identifier is a 64-bit integer: the array index in the upper word, the
    number of the job or of its array in the lower one.  The job table [jobIdHT]
    maps the printed identifier to the job; mbatchd allocates numbers by
    scanning it.  Everything here uses the table through its interface
    [StrTable]. *)

From S2P Require Import Prelude CLib HashTable.

(** ** Packing *)

Definition LSB_MAX_ARRAY_JOBID : Z := 0xFFFFFFFF.
Definition LSB_MAX_ARRAY_IDX : Z := 0xFFFF.

(** The index is converted to unsigned and shifted; the [int] job number is
    converted to unsigned by the [|]; the result is stored in a signed
    [LS_LONG_INT]. *)
Definition LSB_JOBID (array_jobId array_idx : Z) : Z :=
  int64 (Z.lor (uint64 (Z.shiftl (uint64 array_idx) 32)) (uint64 array_jobId)).

Definition LSB_ARRAY_IDX (jobId : Z) : Z :=
  if jobId =? -1 then 0 else int32 (Z.land (Z.shiftr (uint64 jobId) 32) LSB_MAX_ARRAY_IDX).

Definition LSB_ARRAY_JOBID (jobId : Z) : Z :=
  if jobId =? -1 then -1 else int32 (Z.land jobId LSB_MAX_ARRAY_JOBID).

(** The pair is what is stored at [jobId] and at [jobArrElemId]. *)
Definition jobId64To32 (interJobId : Z) : Z * Z :=
  (LSB_ARRAY_JOBID interJobId, LSB_ARRAY_IDX interJobId).

Definition jobId32To64 (jobId jobArrElemId : Z) : Z := LSB_JOBID jobId jobArrElemId.

(** The numbers and indices that the system hands out. *)
Definition valid_job (jobId idx : Z) : Prop := 0 <= jobId < 2 ^ 31 /\ 0 <= idx <= LSB_MAX_ARRAY_IDX.

(** ** Members of a table, by 64-bit number *)

Definition MEMBERSTRLEN : Z := 20.
Definition LS_LONG_FORMAT (member : Z) : cstr := print_Z member.

Section Members.
Context {T V : Type} `{!StrTable T V}.

Definition initTab (tabPtr : option T) : option T :=
  match tabPtr with Some _ => Some (st_init 50) | None => None end.

(** The entry returned is given by its key. *)
Definition addMembStr (tab : T) (memberStr : cstr) : option (T * option cstr) :=
  '(tab', new) ← st_add tab memberStr;
  Some (tab', if (new : bool) then Some memberStr else None).

Definition remvMembStr (tab : T) (memberStr : cstr) : option (T * bool) :=
  ent ← st_get tab memberStr;
  match ent with
  | None => Some (tab, false)
  | Some _ => Some (st_del (st_set tab memberStr None) memberStr, true)
  end.

Definition chekMembStr (tab : T) (memberStr : cstr) : option (option (option V)) :=
  st_get tab memberStr.

Definition addMemb (tab : T) (member : Z) : option (T * option cstr) :=
  addMembStr tab (LS_LONG_FORMAT member).

Definition remvMemb (tab : T) (member : Z) : option (T * bool) :=
  remvMembStr tab (LS_LONG_FORMAT member).

Definition chekMemb (tab : T) (member : Z) : option (option (option V)) :=
  chekMembStr tab (LS_LONG_FORMAT member).

(** ** The job table *)

Definition initJobIdHT : T := st_init 50.

Definition getJobData (jobIdHT : T) (jobId : Z) : option (option V) :=
  if jobId <=? 0 then Some None
  else ent ← chekMemb jobIdHT jobId;
       match ent with None => Some None | Some hData => Some hData end.

(** ** Allocation of job numbers

    [next_loop] is the [while] of [getNextJobId]: it returns the final values of
    [nextJobId] and [i]. *)
Fixpoint next_loop (fuel : nat) (jobIdHT : T) (maxJobId nextJobId i : Z) : option (Z * Z) :=
  match fuel with
  | O => None
  | S fuel =>
      job ← getJobData jobIdHT nextJobId;
      match job with
      | Some _ =>
          if i <=? maxJobId
          then next_loop fuel jobIdHT maxJobId
                 (if maxJobId <=? nextJobId + 1 then 1 else nextJobId + 1) (i + 1)
          else Some (nextJobId, i)
      | None => Some (nextJobId, i)
      end
  end.

(** The new [nextJobId] and the number returned. *)
Definition getNextJobId (fuel : nat) (jobIdHT : T) (maxJobId nextJobId : Z) : option (Z * Z) :=
  let nextJobId := if nextJobId <? maxJobId then nextJobId else 1 in
  '(nextJobId, i) ← next_loop fuel jobIdHT maxJobId nextJobId 0;
  if maxJobId <=? i then Some (nextJobId, -1)
  else Some (if maxJobId <=? nextJobId + 1 then 1 else nextJobId + 1, nextJobId).
End Members.

(** ** Packing: lemmas and theorem *)

Lemma land_ones_mod z n : 0 <= n -> Z.land z (2 ^ n - 1) = z mod 2 ^ n.
Proof. intros. rewrite <- Z.land_ones by done. by rewrite Z.ones_equiv, <- Z.sub_1_r. Qed.

Lemma pack_value jobId idx : valid_job jobId idx -> LSB_JOBID jobId idx = idx * 2 ^ 32 + jobId.
Proof.
  intros [Hj Hi]. unfold LSB_MAX_ARRAY_IDX in Hi. unfold LSB_JOBID.
  rewrite !(uint_of_id 64) by
    (unfold in_uint; rewrite ?Z.shiftl_mul_pow2, ?uint_of_id by (unfold in_uint; lia); lia).
  assert (Z.lor (Z.shiftl idx 32) jobId = idx * 2 ^ 32 + jobId) as ->.
  { rewrite <- Z.shiftl_mul_pow2 by lia. symmetry.
    rewrite Z.add_nocarry_lxor, Z.lxor_lor; [done| |].
    all: apply Z.bits_inj'; intros i Hi0; rewrite Z.land_spec, Z.bits_0, Z.shiftl_spec by lia;
      destruct (Z.ltb_spec i 32);
      [rewrite Z.testbit_neg_r by lia; done|rewrite (Z.bits_above_log2 jobId); [apply andb_false_r|lia|]];
      destruct (Z.eq_dec jobId 0) as [->|]; [simpl; lia|apply Z.log2_lt_pow2; try lia];
      apply Z.lt_le_trans with (2 ^ 31); [lia|apply Z.pow_le_mono_r; lia]. }
  apply sint_of_id; [lia|]. unfold in_sint. lia.
Qed.

Lemma unpack_value id : 0 <= id < 2 ^ 63 ->
  jobId64To32 id = (int32 (id mod 2 ^ 32), id / 2 ^ 32 mod 2 ^ 16).
Proof.
  intros H. unfold jobId64To32, LSB_ARRAY_JOBID, LSB_ARRAY_IDX.
  destruct (Z.eqb_spec id (-1)) as [->|_]; [lia|].
  rewrite uint_of_id by (unfold in_uint; lia). rewrite Z.shiftr_div_pow2 by lia.
  change LSB_MAX_ARRAY_JOBID with (2 ^ 32 - 1). change LSB_MAX_ARRAY_IDX with (2 ^ 16 - 1).
  rewrite !land_ones_mod by lia. f_equal. apply sint_of_id; [lia|].
  pose proof (Z.mod_pos_bound (id / 2 ^ 32) (2 ^ 16)). unfold in_sint. lia.
Qed.

(** C36: Packing a job number and an array index into a 64-bit
    identifier and splitting it again is the identity for every number below
    2^31 and index up to 0xFFFF, the identifier is non-negative, so distinct
    from the -1 that stands for no job, and splitting -1 gives (-1, 0). *)
Theorem job_id_round_trip jobId idx :
  valid_job jobId idx ->
  jobId64To32 (jobId32To64 jobId idx) = (jobId, idx) /\
  0 <= jobId32To64 jobId idx < 2 ^ 48 /\
  jobId64To32 (-1) = (-1, 0).
Proof.
  intros H. unfold jobId32To64. rewrite pack_value by done.
  destruct H as [Hj Hi]. unfold LSB_MAX_ARRAY_IDX in Hi. split_and!; [|lia|lia|done].
  rewrite unpack_value by lia.
  rewrite Z.add_comm, Z.mod_add, Z.div_add, Z.mod_small, Z.div_small, Z.add_0_l by lia.
  rewrite Z.mod_small by lia. f_equal. apply sint_of_id; [lia|]. unfold in_sint. lia.
Qed.

Lemma job_id_round_trip_witness :
  valid_job 4711 12 /\ jobId64To32 (jobId32To64 4711 12) = (4711, 12).
Proof.
  assert (valid_job 4711 12) as H by (split; unfold LSB_MAX_ARRAY_IDX; lia).
  split; [done|]. apply (job_id_round_trip 4711 12 H).
Defined.

(** ** Members: theorems *)

Section Facts.
Context {T V : Type} `{!StrTable T V}.
Implicit Types (tab : T).

(** What the table says of a number. *)
Definition member (tab : T) (n : Z) : option (option V) := st_abs tab !! LS_LONG_FORMAT n.

Lemma key_ne m n : m <> n -> LS_LONG_FORMAT m <> LS_LONG_FORMAT n.
Proof. intros H E. by apply H, print_Z_inj. Qed.

Lemma chekMemb_spec tab n : st_wf tab -> chekMemb tab n = Some (member tab n).
Proof. intros H. by apply st_get_ok. Qed.

(** Membership by number is a finite map on the integers: a
    look-up returns what the table says of the number; [addMemb] makes a new
    number a member without data and refuses, without a change, a number that is
    one; [remvMemb] makes the number a non-member and says whether it was one;
    neither changes what the table says of any other number, because distinct
    numbers print differently; and the printed form of a non-negative 64-bit
    number fits, with its terminating NUL, in the MEMBERSTRLEN-byte buffer. *)
Theorem member_ops_spec tab m :
  st_wf tab ->
  chekMemb tab m = Some (member tab m) /\
  (exists tab', addMemb tab m =
       Some (tab', if decide (member tab m = None) then Some (LS_LONG_FORMAT m) else None) /\
     st_wf tab' /\
     (member tab' m = match member tab m with None => Some None | Some d => Some d end) /\
     forall n, n <> m -> member tab' n = member tab n) /\
  (exists tab', remvMemb tab m = Some (tab', bool_decide (is_Some (member tab m))) /\
     st_wf tab' /\ member tab' m = None /\ forall n, n <> m -> member tab' n = member tab n) /\
  (0 <= m < 2 ^ 63 -> strlen (LS_LONG_FORMAT m) + 1 <= MEMBERSTRLEN).
Proof.
  intros Hw. split_and!.
  - by apply chekMemb_spec.
  - destruct (st_add_ok tab (LS_LONG_FORMAT m) Hw) as (tab' & new & Hop & Hw' & Hnew & Habs).
    exists tab'. unfold addMemb, addMembStr, member. rewrite Hop. simpl. rewrite Hnew, Habs.
    destruct (st_abs tab !! LS_LONG_FORMAT m) eqn:Hm; simpl in *; subst new.
    + split_and!; done.
    + split_and!; [done|done|by rewrite lookup_insert_eq|].
      intros n Hn. rewrite lookup_insert_ne; [done|]. by apply key_ne.
  - unfold remvMemb, remvMembStr, member. rewrite st_get_ok by done. simpl.
    destruct (st_abs tab !! LS_LONG_FORMAT m) as [d|] eqn:Hm; simpl.
    + destruct (st_set_ok tab (LS_LONG_FORMAT m) None Hw) as [Hw1 Ha1]; [by rewrite Hm|].
      destruct (st_del_ok _ (LS_LONG_FORMAT m) Hw1) as [Hw2 Ha2];
        [by rewrite Ha1, lookup_insert_eq|].
      eexists. split_and!; [done|done|by rewrite Ha2, lookup_delete_eq|].
      intros n Hn. apply key_ne in Hn.
      by rewrite Ha2, lookup_delete_ne, Ha1, lookup_insert_ne by done.
    + exists tab. by split_and!.
  - intros Hm. unfold LS_LONG_FORMAT, print_Z, strlen, MEMBERSTRLEN.
    destruct (Z.ltb_spec m 0); [lia|].
    assert (length (print_nat m) <= 19)%nat; [|lia]. apply dec_digits_length; lia.
Qed.

(** ** Allocation *)

Definition in_use (tab : T) (n : Z) : bool :=
  match member tab n with Some (Some _) => 0 <? n | _ => false end.

Lemma getJobData_spec tab n : st_wf tab ->
  exists r, getJobData tab n = Some r /\ (in_use tab n = match r with Some _ => true | None => false end).
Proof.
  intros Hw. unfold getJobData, in_use. destruct (Z.leb_spec n 0) as [Hn|Hn].
  - exists None. split; [done|]. destruct (member tab n) as [[]|]; try done.
    apply Z.ltb_ge. done.
  - rewrite chekMemb_spec by done. simpl. destruct (member tab n) as [[v|]|]; eexists; split; try done.
    by apply Z.ltb_lt.
Qed.

(** The [k]-th number after [n] in the cycle 1 .. max-1. *)
Definition cyc (maxJobId n k : Z) : Z := 1 + (n - 1 + k) mod (maxJobId - 1).

Lemma cyc_range M n k : 2 <= M -> 1 <= cyc M n k < M.
Proof. intros. unfold cyc. pose proof (Z.mod_pos_bound (n - 1 + k) (M - 1)). lia. Qed.

Lemma cyc_0 M n : 1 <= n < M -> cyc M n 0 = n.
Proof. intros. unfold cyc. rewrite Z.mod_small; lia. Qed.

Lemma cyc_succ M n k : 2 <= M -> 0 <= k ->
  cyc M n (k + 1) = (if M <=? cyc M n k + 1 then 1 else cyc M n k + 1).
Proof.
  intros HM Hk. unfold cyc. set (x := n - 1 + k). replace (n - 1 + (k + 1)) with (x + 1) by lia.
  pose proof (Z.mod_pos_bound x (M - 1) ltac:(lia)). pose proof (Z.div_mod x (M - 1) ltac:(lia)) as E.
  destruct (Z.leb_spec M (1 + x mod (M - 1) + 1)).
  - replace (x + 1) with (0 + (x / (M - 1) + 1) * (M - 1)) by nia.
    rewrite Z.mod_add, Z.mod_0_l; lia.
  - replace (x + 1) with ((x mod (M - 1) + 1) + x / (M - 1) * (M - 1)) by nia.
    rewrite Z.mod_add, Z.mod_small by lia. lia.
Qed.

Lemma cyc_onto M n x : 1 <= n < M -> 1 <= x < M -> exists k, 0 <= k < M - 1 /\ cyc M n k = x.
Proof.
  intros Hn Hx. destruct (Z.leb_spec n x).
  - exists (x - n). split; [lia|]. unfold cyc. rewrite Z.mod_small; lia.
  - exists (x - n + (M - 1)). split; [lia|]. unfold cyc.
    replace (n - 1 + (x - n + (M - 1))) with (x - 1 + 1 * (M - 1)) by lia.
    rewrite Z.mod_add, Z.mod_small; lia.
Qed.

Definition all_used (tab : T) (M n : Z) (i j : Z) : Prop :=
  forall k, i <= k < j -> in_use tab (cyc M n k) = true.

(** The loop stops at the first free number of the cycle, or after
    [max + 1] used ones. *)
Lemma next_loop_spec tab M n fuel i : st_wf tab -> 2 <= M -> 0 <= i <= M + 1 ->
  M + 1 - i < Z.of_nat fuel ->
  exists j, next_loop fuel tab M (cyc M n i) i = Some (cyc M n j, j) /\ i <= j <= M + 1 /\
    all_used tab M n i j /\ (in_use tab (cyc M n j) = false \/ j = M + 1).
Proof.
  intros Hw HM. revert i. induction fuel as [|fuel IH]; intros i Hi Hf; [lia|]. simpl.
  destruct (getJobData_spec tab (cyc M n i) Hw) as (r & -> & Hu). simpl.
  destruct r as [v|].
  - destruct (Z.leb_spec i M).
    + destruct (IH (i + 1)) as (j & Hj & Hr & Ha & Hd); [lia|lia|].
      exists j. rewrite <- cyc_succ by lia. split_and!; [done|lia|lia| |done].
      intros k Hk. destruct (Z.eq_dec k i) as [->|]; [done|]. apply Ha. lia.
    + exists i. split_and!; [done|lia|lia|intros k Hk; lia|lia].
  - exists i. split_and!; [done|lia|lia|intros k Hk; lia|by left].
Qed.

(** C33: [getNextJobId] terminates (within MAX+2 iterations of its
    loop) and is complete: when some number in [1, MAX) has no job it returns such
    a free number in that range, and otherwise -1; it leaves [nextJobId] in
    [1, MAX).  For MAX at least 2 and [nextJobId] at least 1.  MAX is MAX_JOBID, which
    lsb.params(5) calls the highest number that is assigned and the maximum number of
    jobs: the code assigns the numbers below it only ([highest_not_assigned]). *)
Theorem getNextJobId_spec tab M nextJobId fuel :
  st_wf tab -> 2 <= M -> 1 <= nextJobId -> M + 1 < Z.of_nat fuel ->
  exists next id, getNextJobId fuel tab M nextJobId = Some (next, id) /\ 1 <= next < M /\
    (id = -1 \/ (1 <= id < M /\ in_use tab id = false)) /\
    (id = -1 <-> forall n, 1 <= n < M -> in_use tab n = true).
Proof.
  intros Hw HM Hn Hf. unfold getNextJobId.
  set (n := if nextJobId <? M then nextJobId else 1).
  assert (1 <= n < M) as Hr by (subst n; destruct (Z.ltb_spec nextJobId M); lia).
  destruct (next_loop_spec tab M n fuel 0 Hw HM) as (j & Hj & Hij & Ha & Hd); [lia|lia|].
  rewrite cyc_0 in Hj by done. rewrite Hj. simpl.
  pose proof (cyc_range M n j HM) as Hc.
  destruct (Z.leb_spec M j) as [Hm|Hm]; eexists _, _; split; [done| |done|].
  - split_and!; [lia|lia|by left|]. split; [intros _|done]. intros x Hx.
    destruct (cyc_onto M n x Hr Hx) as (k & Hk & <-). apply Ha. lia.
  - assert (in_use tab (cyc M n j) = false) as Hfree by (destruct Hd; [done|lia]).
    split_and!; [destruct (Z.leb_spec M (cyc M n j + 1)); lia..|by right|].
    split; [lia|]. intros Hall. specialize (Hall _ Hc). congruence.
Qed.
End Facts.

(** ** Witnesses: an empty hash table of jobs *)

Definition no_jobs : hTab nat := initJobIdHT.

Lemma no_jobs_wf : st_wf no_jobs.
Proof. apply (st_init_ok 50). Qed.

Lemma member_ops_spec_witness :
  exists tab', addMemb no_jobs 7 = Some (tab', Some (lit "7")) /\ st_wf tab' /\ member tab' 7 = Some None.
Proof.
  destruct (member_ops_spec no_jobs 7 no_jobs_wf) as (_ & (tab' & Hop & Hw & Hm & _) & _).
  assert (member no_jobs 7 = None) as Hn.
  { unfold member. destruct (st_init_ok (T := hTab nat) 50) as [_ H]. unfold no_jobs, initJobIdHT.
    by rewrite H, lookup_empty. }
  rewrite Hn in *. rewrite decide_True in Hop by done. by exists tab'.
Defined.

(** With MAX_JOBID 4 the number behind 3 is 1, and with MAX_JOBID 2 a second job gets no number. *)
Example highest_not_assigned :
  getNextJobId 12 no_jobs 4 3 = Some (1, 3) /\
  (r ← addMemb no_jobs 1; getNextJobId 12 (st_set r.1 (lit "1") (Some 1%nat)) 2 1) = Some (1, -1).
Proof. vm_compute. split; reflexivity. Qed.

Lemma getNextJobId_spec_witness :
  exists next id, getNextJobId 12 no_jobs 10 3 = Some (next, id) /\ 1 <= next < 10.
Proof.
  destruct (getNextJobId_spec no_jobs 10 3 12 no_jobs_wf) as (next & id & H & Hr & _); [lia..|].
  by exists next, id.
Defined.
