(* ===== verification/Accounting.v ===== *)
(** * The job counters of mbatchd (mbd.misc.c)

    Every queue, user, user group and host keeps counters of the job slots it
    holds, by state; they are updated incrementally at each change of a job's
    state, and the pending reasons that enforce the job slot limits are derived
    from them.  The functions of mbd.misc.c are translated one by one; pointers
    to queues, users and hosts are the names under which the records are stored
    in [mbd].

    The theorems compare the incremental counters with a recount: the sum over
    all jobs of what a job in its state contributes. *)

From S2P Require Import Prelude JobStatus.
From Stdlib Require Import SpecFloat.

(** ** Data *)

Record counts := Counts {
  numJobs : Z; numPEND : Z; numRUN : Z; numSSUSP : Z; numUSUSP : Z; numRESERVE : Z }.

(** [struct userAcct], without the fields of the scheduling session. *)
Record userAcct := UserAcct {
  ua_userId : Z; ua_numRUN : Z; ua_numSSUSP : Z; ua_numUSUSP : Z; ua_numRESERVE : Z;
  ua_numPEND : Z; ua_numNonPrmptRsv : Z; ua_reason : Z }.

Record hostAcct := HostAcct {
  ha_numRUN : Z; ha_numSSUSP : Z; ha_numUSUSP : Z; ha_numRESERVE : Z; ha_numNonPrmptRsv : Z }.

(** A C [float]. *)
Abbreviation float32 := spec_float.

(** [reasonTb[1]], an array indexed by host number. *)
Abbreviation reasons := (gmap Z Z).

Record qData := QData {
  q_cnt : counts; q_maxJobs : Z; q_uJobLimit : Z; q_pJobLimit : float32; q_hJobLimit : Z;
  q_flags : Z; q_reason : reasons; q_uAcct : gmap cstr userAcct; q_hAcct : gmap cstr hostAcct;
  q_numUsable : Z }.

Record uData := UData {
  u_cnt : counts; u_maxJobs : Z; u_pJobLimit : float32; u_flags : Z; u_reason : reasons;
  u_gPtr : list cstr; u_ancestors : list cstr; u_numSlots : Z; u_hAcct : gmap cstr hostAcct }.

Record hData := HData {
  h_cnt : counts; h_hostId : Z; h_hStatus : Z; h_limStatus0 : Z; h_numCPUs : Z; h_maxJobs : Z;
  h_uJobLimit : Z; h_uAcct : gmap cstr userAcct }.

(** [struct gData]: name, members, subgroups. *)
Inductive gData := GData (group : cstr) (memberTab : list cstr) (gPtr : list gData).

Definition group (g : gData) : cstr := let '(GData n _ _) := g in n.

(** The fields of [struct jData] that the counters depend on.  [hPtr] has one
    element per slot, so a host may occur several times, and [numHostPtr] is its
    length; [uPtr] is set when the job enters the system and is not NULL. *)
Record jData := JData {
  jobId : Z; jStatus : Z; qPtr : cstr; uPtr : cstr; userId : Z; hPtr : option (list cstr);
  maxNumProcessors : Z }.

Record mbd := Mbd {
  queues : gmap cstr qData; users : gmap cstr uData; hosts : gmap cstr hData;
  hReasonTb : reasons; usergroups : list gData; mSchedStage : Z }.

Definition hlist (j : jData) : list cstr := default [] (hPtr j).
Definition numHostPtr (j : jData) : Z := Z.of_nat (length (hlist j)).
Definition rget (tb : reasons) (i : Z) : Z := default 0 (tb !! i).

(** ** Constants *)

Definition PEND_QUE_JOB_LIMIT : Z := 303.
Definition PEND_QUE_USR_JLIMIT : Z := 304.
Definition PEND_USER_JOB_LIMIT : Z := 601.
Definition PEND_UGRP_JOB_LIMIT : Z := 602.
Definition PEND_HOST_JOB_LIMIT : Z := 1305.
Definition PEND_QUE_PROC_JLIMIT : Z := 1306.
Definition PEND_QUE_HOST_JLIMIT : Z := 1307.
Definition PEND_USER_PROC_JLIMIT : Z := 1308.
Definition PEND_HOST_USR_JLIMIT : Z := 1309.
Definition PEND_UGRP_PROC_JLIMIT : Z := 1324.

Definition HOST_STAT_FULL : Z := 0x10.
Definition HOST_STAT_UNREACH : Z := 0x20.
Definition HOST_STAT_UNAVAIL : Z := 0x40.
Definition HOST_STAT_EXCLUSIVE : Z := 0x100.
Definition HOST_STAT_REMOTE : Z := 0x80000000.
Definition LIM_UNAVAIL : Z := 0x00010000.

Definition QUEUE_UPDATE_USABLE : Z := 0x08.
Definition USER_GROUP : Z := 0x001.
Definition USER_INIT : Z := 0x004.

Definition M_STAGE_QUE_CAND : Z := 0x0004.
Definition M_STAGE_REPLAY : Z := 0x0008.

(** [(float) 0x7fffffff], which rounds to 2^31. *)
Definition INFINIT_FLOAT : float32 := S754_finite false 8388608 8.

(** ** Field updates *)

Definition q_set_cnt (f : counts -> counts) (q : qData) : qData :=
  QData (f (q_cnt q)) (q_maxJobs q) (q_uJobLimit q) (q_pJobLimit q) (q_hJobLimit q) (q_flags q)
    (q_reason q) (q_uAcct q) (q_hAcct q) (q_numUsable q).
Definition q_set_flags (f : Z -> Z) (q : qData) : qData :=
  QData (q_cnt q) (q_maxJobs q) (q_uJobLimit q) (q_pJobLimit q) (q_hJobLimit q) (f (q_flags q))
    (q_reason q) (q_uAcct q) (q_hAcct q) (q_numUsable q).
Definition q_set_reason (i v : Z) (q : qData) : qData :=
  QData (q_cnt q) (q_maxJobs q) (q_uJobLimit q) (q_pJobLimit q) (q_hJobLimit q) (q_flags q)
    (<[i := v]> (q_reason q)) (q_uAcct q) (q_hAcct q) (q_numUsable q).
Definition q_set_uAcct (f : gmap cstr userAcct -> gmap cstr userAcct) (q : qData) : qData :=
  QData (q_cnt q) (q_maxJobs q) (q_uJobLimit q) (q_pJobLimit q) (q_hJobLimit q) (q_flags q)
    (q_reason q) (f (q_uAcct q)) (q_hAcct q) (q_numUsable q).
Definition q_set_hAcct (t : gmap cstr hostAcct) (q : qData) : qData :=
  QData (q_cnt q) (q_maxJobs q) (q_uJobLimit q) (q_pJobLimit q) (q_hJobLimit q) (q_flags q)
    (q_reason q) (q_uAcct q) t (q_numUsable q).

Definition u_set_cnt (f : counts -> counts) (u : uData) : uData :=
  UData (f (u_cnt u)) (u_maxJobs u) (u_pJobLimit u) (u_flags u) (u_reason u) (u_gPtr u)
    (u_ancestors u) (u_numSlots u) (u_hAcct u).
Definition u_set_flags (f : Z -> Z) (u : uData) : uData :=
  UData (u_cnt u) (u_maxJobs u) (u_pJobLimit u) (f (u_flags u)) (u_reason u) (u_gPtr u)
    (u_ancestors u) (u_numSlots u) (u_hAcct u).
Definition u_set_reason (i v : Z) (u : uData) : uData :=
  UData (u_cnt u) (u_maxJobs u) (u_pJobLimit u) (u_flags u) (<[i := v]> (u_reason u)) (u_gPtr u)
    (u_ancestors u) (u_numSlots u) (u_hAcct u).
Definition u_set_gPtr (g : list cstr) (u : uData) : uData :=
  UData (u_cnt u) (u_maxJobs u) (u_pJobLimit u) (u_flags u) (u_reason u) g
    (u_ancestors u) (u_numSlots u) (u_hAcct u).
Definition u_set_numSlots (n : Z) (u : uData) : uData :=
  UData (u_cnt u) (u_maxJobs u) (u_pJobLimit u) (u_flags u) (u_reason u) (u_gPtr u)
    (u_ancestors u) n (u_hAcct u).
Definition u_set_hAcct (t : gmap cstr hostAcct) (u : uData) : uData :=
  UData (u_cnt u) (u_maxJobs u) (u_pJobLimit u) (u_flags u) (u_reason u) (u_gPtr u)
    (u_ancestors u) (u_numSlots u) t.

Definition h_set_cnt (f : counts -> counts) (h : hData) : hData :=
  HData (f (h_cnt h)) (h_hostId h) (h_hStatus h) (h_limStatus0 h) (h_numCPUs h) (h_maxJobs h)
    (h_uJobLimit h) (h_uAcct h).
Definition h_set_hStatus (f : Z -> Z) (h : hData) : hData :=
  HData (h_cnt h) (h_hostId h) (f (h_hStatus h)) (h_limStatus0 h) (h_numCPUs h) (h_maxJobs h)
    (h_uJobLimit h) (h_uAcct h).
Definition h_set_uAcct (t : gmap cstr userAcct) (h : hData) : hData :=
  HData (h_cnt h) (h_hostId h) (h_hStatus h) (h_limStatus0 h) (h_numCPUs h) (h_maxJobs h)
    (h_uJobLimit h) t.

Definition set_queues (f : gmap cstr qData -> gmap cstr qData) (m : mbd) : mbd :=
  Mbd (f (queues m)) (users m) (hosts m) (hReasonTb m) (usergroups m) (mSchedStage m).
Definition set_users (f : gmap cstr uData -> gmap cstr uData) (m : mbd) : mbd :=
  Mbd (queues m) (f (users m)) (hosts m) (hReasonTb m) (usergroups m) (mSchedStage m).
Definition set_hosts (f : gmap cstr hData -> gmap cstr hData) (m : mbd) : mbd :=
  Mbd (queues m) (users m) (f (hosts m)) (hReasonTb m) (usergroups m) (mSchedStage m).
Definition set_hReasonTb (i v : Z) (m : mbd) : mbd :=
  Mbd (queues m) (users m) (hosts m) (<[i := v]> (hReasonTb m)) (usergroups m) (mSchedStage m).

Definition j_set_status (s : Z) (j : jData) : jData :=
  JData (jobId j) s (qPtr j) (uPtr j) (userId j) (hPtr j) (maxNumProcessors j).
Definition j_set_qPtr (q : cstr) (j : jData) : jData :=
  JData (jobId j) (jStatus j) q (uPtr j) (userId j) (hPtr j) (maxNumProcessors j).

(** ** Counters and reasons *)

(** A counter that would become negative is reset to 0. *)
Definition addValue (currentValue num : Z) : Z :=
  let v := currentValue + num in if 0 <=? v then v else 0.

Definition addOneAbs (num addedNum : Z) : Z :=
  if 0 <? addedNum then num + 1 else if addedNum <? 0 then num - 1 else num.

Definition CLEAR_REASON (v reason : Z) : Z := if v =? reason then 0 else v.
Definition SET_REASON (condition : bool) (v reason : Z) : Z :=
  if condition then reason else CLEAR_REASON v reason.

(** The six [addValue] calls of [updQaccount] and [updUserData1]. *)
Definition add_counts (c d : counts) : counts :=
  Counts (addValue (numJobs c) (numJobs d)) (addValue (numPEND c) (numPEND d))
    (addValue (numRUN c) (numRUN d)) (addValue (numSSUSP c) (numSSUSP d))
    (addValue (numUSUSP c) (numUSUSP d)) (addValue (numRESERVE c) (numRESERVE d)).

(** ** Limits per processor and per host (mbd.policy.c) *)

Definition float_of_int (n : Z) : float32 := binary_normalize 24 128 n 0 false.

(** [(int) ceil((double) x)] *)
Definition sf_ceil (x : float32) : Z :=
  match x with
  | S754_finite s m e =>
      let v := if s then Z.neg m else Z.pos m in
      if 0 <=? e then v * 2 ^ e else - ((- v) / 2 ^ (- e))
  | _ => 0
  end.

Definition acct_slots (a : hostAcct) : Z :=
  ha_numRUN a + ha_numSSUSP a + ha_numUSUSP a + ha_numRESERVE a.

Definition pJobLimitOk (hp : hData) (hAcct : option hostAcct) (pJobLimit : float32) : Z :=
  if SFleb pJobLimit (S754_zero false) then 0
  else if SFleb INFINIT_FLOAT pJobLimit then INFINIT_INT
  else
    let numCPUs := if h_numCPUs hp =? 0 then 1 else h_numCPUs hp in
    let numSlots := sf_ceil (SFmul 24 128 pJobLimit (float_of_int numCPUs)) in
    let numSlots := match hAcct with Some a => numSlots - acct_slots a | None => numSlots end in
    if numSlots <=? 0 then 0 else numSlots.

Definition hJobLimitOk (hAcct : option hostAcct) (hJobLimit : Z) : Z :=
  if hJobLimit <=? 0 then 0
  else if hJobLimit =? INFINIT_INT then INFINIT_INT
  else
    let numSlots := match hAcct with Some a => hJobLimit - acct_slots a | None => hJobLimit end in
    if numSlots <=? 0 then 0 else numSlots.

(** ** Accounts per user *)

Definition getUAcct (uAcct : gmap cstr userAcct) (up : cstr) : option userAcct := uAcct !! up.

Definition addUAcct (d : counts) : userAcct :=
  UserAcct 0 (numRUN d) (numSSUSP d) (numUSUSP d) (numRESERVE d) (numPEND d) 0 0.

(** The account of user [up] after the counts are added, or [None] where the
    function returns early. *)
Definition upd_found (jp : jData) (d : counts) (found : option userAcct) : option userAcct :=
  match found with
  | Some a =>
      Some (UserAcct (ua_userId a)
        (addValue (ua_numRUN a) (numRUN d)) (addValue (ua_numSSUSP a) (numSSUSP d))
        (addValue (ua_numUSUSP a) (numUSUSP d)) (addValue (ua_numRESERVE a) (numRESERVE d))
        (addValue (ua_numPEND a) (numPEND d))
        (if negb (numRESERVE d =? 0) && negb (has (jStatus jp) JOB_STAT_PEND)
         then addValue (ua_numNonPrmptRsv a) (numRESERVE d) else ua_numNonPrmptRsv a)
        (ua_reason a))
  | None =>
      if negb (numRUN d =? 0) || negb (numSSUSP d =? 0) || negb (numUSUSP d =? 0)
         || negb (numRESERVE d =? 0) || negb (numPEND d =? 0)
      then let a := addUAcct d in
           Some (UserAcct (userId jp) (ua_numRUN a) (ua_numSSUSP a) (ua_numUSUSP a)
             (ua_numRESERVE a) (ua_numPEND a) (ua_numNonPrmptRsv a) (ua_reason a))
      else None
  end.

Definition ua_slots (a : userAcct) : Z :=
  ua_numRUN a + ua_numSSUSP a + ua_numUSUSP a + ua_numRESERVE a.

Definition ua_set_reason (v : Z) (a : userAcct) : userAcct :=
  UserAcct (ua_userId a) (ua_numRUN a) (ua_numSSUSP a) (ua_numUSUSP a) (ua_numRESERVE a)
    (ua_numPEND a) (ua_numNonPrmptRsv a) v.

(** [updUAcct] for a queue ([hp == NULL]): the reason of the account follows
    the queue's user limit. *)
Definition updUAcct_q (jp : jData) (uJobLimit : Z) (d : counts) (up : cstr)
    (uAcct : gmap cstr userAcct) : gmap cstr userAcct :=
  match upd_found jp d (getUAcct uAcct up) with
  | Some a =>
      let numSlots := uJobLimit - ua_slots a in
      <[up := ua_set_reason (SET_REASON (numSlots <=? 0) (ua_reason a) PEND_QUE_USR_JLIMIT) a]> uAcct
  | None => uAcct
  end.

(** [updUAcct] for a host: the reason is the user's, at the host's index. *)
Definition updUAcct_h (jp : jData) (hp : hData) (d : counts) (up : cstr) (u : uData)
    (uAcct : gmap cstr userAcct) : gmap cstr userAcct * uData :=
  match upd_found jp d (getUAcct uAcct up) with
  | Some a =>
      let numSlots := h_uJobLimit hp - ua_slots a in
      (<[up := a]> uAcct,
       u_set_reason (h_hostId hp)
         (SET_REASON (numSlots <=? 0) (rget (u_reason u) (h_hostId hp)) PEND_HOST_USR_JLIMIT) u)
  | None => (uAcct, u)
  end.

(** ** Accounts per host *)

Definition getHAcct (hAcct : gmap cstr hostAcct) (hp : cstr) : option hostAcct := hAcct !! hp.

Definition addHAcct (d : counts) : hostAcct :=
  HostAcct (addOneAbs 0 (numRUN d)) (addOneAbs 0 (numSSUSP d)) (addOneAbs 0 (numUSUSP d))
    (addOneAbs 0 (numRESERVE d)) 0.

(** The account of one host: [foundH] and the table. *)
Definition upd_hacct (jp : jData) (d : counts) (hp : cstr) (hAcct : gmap cstr hostAcct)
    : gmap cstr hostAcct * option hostAcct :=
  match getHAcct hAcct hp with
  | Some a =>
      let a := HostAcct (addOneAbs (ha_numRUN a) (numRUN d)) (addOneAbs (ha_numSSUSP a) (numSSUSP d))
                 (addOneAbs (ha_numUSUSP a) (numUSUSP d)) (addOneAbs (ha_numRESERVE a) (numRESERVE d))
                 (if negb (numRESERVE d =? 0) && negb (has (jStatus jp) JOB_STAT_PEND)
                  then addOneAbs (ha_numNonPrmptRsv a) (numRESERVE d) else ha_numNonPrmptRsv a) in
      (<[hp := a]> hAcct, Some a)
  | None =>
      if (0 <? numRUN d) || (0 <? numSSUSP d) || (0 <? numUSUSP d) || (0 <? numRESERVE d)
      then let a := addHAcct d in (<[hp := a]> hAcct, Some a)
      else (hAcct, None)
  end.

Definition CHECKQUSABLE (stage oldReason newReason : Z) (q : qData) : qData :=
  if (newReason =? 0) && negb (oldReason =? 0) && has stage M_STAGE_QUE_CAND
  then q_set_flags (fun f => Z.lor f QUEUE_UPDATE_USABLE) q else q.

(** The host answers: neither unreachable nor unavailable. *)
Definition host_up (h : hData) : bool :=
  negb (has (h_hStatus h) HOST_STAT_UNREACH) && negb (has (h_hStatus h) HOST_STAT_UNAVAIL)
  && negb (has (h_limStatus0 h) LIM_UNAVAIL).

(** ** Groups of users (mbd.grp.c) *)

(** An empty group stands for all users. *)
Definition gDirectMember (word : cstr) (gp : gData) : bool :=
  let '(GData _ memberTab gs) := gp in
  if (length gs =? 0)%nat && (length memberTab =? 0)%nat then true
  else bool_decide (word ∈ memberTab).

Fixpoint gMember (word : cstr) (gp : gData) : bool :=
  gDirectMember word gp ||
  (let '(GData _ _ gs) := gp in
   (fix any (gs : list gData) : bool :=
      match gs with [] => false | g :: gs => gMember word g || any gs end) gs).

(** ** The functions of mbd.misc.c *)

Section Updates.

(** [getQUsable] (mbd.policy.c), the choice of the hosts a queue may use, which
    a change of the queue's limits triggers. *)
Variable getQUsable : mbd -> qData -> qData.

(** The value that the local [numSlots] of [updUserData] has before it is
    assigned. *)
Variable uninit : Z.

(** The body of the loop of [updHAcct] over the hosts of the job, for a queue. *)
Definition upd_q_host (m : mbd) (jp : jData) (d : counts) (q : qData) (hn : cstr) : qData :=
  match hosts m !! hn with
  | None => q
  | Some hp =>
      if has (h_hStatus hp) HOST_STAT_REMOTE then q
      else
        let '(tab, foundH) := upd_hacct jp d hn (q_hAcct q) in
        let q := q_set_hAcct tab q in
        let id := h_hostId hp in
        let svReason := rget (q_reason q) id in
        let q := q_set_flags (fun f => clr f QUEUE_UPDATE_USABLE) q in
        let numSlots := pJobLimitOk hp foundH (q_pJobLimit q) in
        let '(q, numSlots) :=
          if (numSlots <=? 0) && host_up hp then
            let r := SET_REASON (numSlots <=? 0) (rget (q_reason q) id) PEND_QUE_PROC_JLIMIT in
            (CHECKQUSABLE (mSchedStage m) svReason r (q_set_reason id r q), numSlots)
          else
            let numSlots := hJobLimitOk foundH (q_hJobLimit q) in
            let r := SET_REASON (numSlots <=? 0) (rget (q_reason q) id) PEND_QUE_HOST_JLIMIT in
            (CHECKQUSABLE (mSchedStage m) svReason r (q_set_reason id r q), numSlots) in
        if (0 <? numSlots) && ((svReason =? PEND_QUE_PROC_JLIMIT) || (svReason =? PEND_QUE_HOST_JLIMIT))
        then let r := CLEAR_REASON (rget (q_reason q) id) svReason in
             CHECKQUSABLE (mSchedStage m) svReason r (q_set_reason id r q)
        else q
  end.

Definition updHAcct_q (m : mbd) (jp : jData) (d : counts) (q : qData) : qData :=
  match hPtr jp with
  | None => q
  | Some hs =>
      let q := q_set_flags (fun f => clr f QUEUE_UPDATE_USABLE) q in
      let q := fold_left (upd_q_host m jp d) hs q in
      if has (q_flags q) QUEUE_UPDATE_USABLE
      then q_set_flags (fun f => clr f QUEUE_UPDATE_USABLE) (getQUsable m q)
      else q
  end.

(** The same loop for a user or a user group. *)
Definition upd_u_host (m : mbd) (jp : jData) (d : counts) (u : uData) (hn : cstr) : uData :=
  match hosts m !! hn with
  | None => u
  | Some hp =>
      if has (h_hStatus hp) HOST_STAT_REMOTE then u
      else
        let '(tab, foundH) := upd_hacct jp d hn (u_hAcct u) in
        let u := u_set_hAcct tab u in
        let id := h_hostId hp in
        let numSlots := pJobLimitOk hp foundH (u_pJobLimit u) in
        let reason := if has (u_flags u) USER_GROUP then PEND_UGRP_PROC_JLIMIT
                      else PEND_USER_PROC_JLIMIT in
        if (numSlots <=? 0) && host_up hp
        then u_set_reason id (SET_REASON (numSlots <=? 0) (rget (u_reason u) id) reason) u
        else if 0 <? numSlots
        then u_set_reason id (CLEAR_REASON (rget (u_reason u) id) reason) u
        else u
  end.

Definition updHAcct_u (m : mbd) (jp : jData) (d : counts) (u : uData) : uData :=
  match hPtr jp with
  | None => u
  | Some hs => fold_left (upd_u_host m jp d) hs u
  end.

(** No slot changes hands. *)
Definition no_slots (d : counts) : bool :=
  (numRUN d =? 0) && (numSSUSP d =? 0) && (numUSUSP d =? 0) && (numRESERVE d =? 0).

Definition ancestors_of (m : mbd) (up : cstr) : list cstr :=
  match users m !! up with Some u => u_ancestors u | None => [] end.

Definition updQaccount_q (m : mbd) (jp : jData) (d : counts) (q : qData) : qData :=
  let q := q_set_cnt (fun c => add_counts c d) q in
  let numSlots := if q_maxJobs q =? INFINIT_INT then INFINIT_INT
                  else q_maxJobs q - (numJobs (q_cnt q) - numPEND (q_cnt q)) in
  let r := if rget (q_reason q) 0 =? INFINIT_INT then 0 else rget (q_reason q) 0 in
  let q := q_set_reason 0 (SET_REASON (numSlots <=? 0) r PEND_QUE_JOB_LIMIT) q in
  let newJob := no_slots d && (numPEND d =? 0) in
  let q := q_set_uAcct (updUAcct_q jp (q_uJobLimit q) d (uPtr jp)) q in
  let q := fold_left (fun q grp => q_set_uAcct (updUAcct_q jp (q_uJobLimit q) d grp) q)
             (ancestors_of m (uPtr jp)) q in
  if newJob then q else updHAcct_q m jp d q.

Definition updQaccount (m : mbd) (jp : jData) (d : counts) : mbd :=
  set_queues (alter (updQaccount_q m jp d) (qPtr jp)) m.

Definition updUserData1 (m : mbd) (jp : jData) (d : counts) (u : uData) : uData :=
  let u := u_set_cnt (fun c => add_counts c d) u in
  if negb (no_slots d) && SFltb (u_pJobLimit u) INFINIT_FLOAT then updHAcct_u m jp d u else u.

Definition slots_left (u : uData) : Z :=
  if u_maxJobs u =? INFINIT_INT then INFINIT_INT
  else u_maxJobs u - numRUN (u_cnt u) - numSSUSP (u_cnt u) - numUSUSP (u_cnt u)
       - numRESERVE (u_cnt u).

(** The limit of a user ([reason] PEND_USER_JOB_LIMIT) or group
    (PEND_UGRP_JOB_LIMIT) is checked. *)
Definition check_limit (reason : Z) (u : uData) : uData :=
  let r := if rget (u_reason u) 0 =? INFINIT_INT then 0 else rget (u_reason u) 0 in
  u_set_reason 0 (SET_REASON (slots_left u <=? 0) r reason) u.

(** [addUserData] through [getUserData]: an unknown user gets the limits of the
    user "default", or none. *)
Definition new_user (m : mbd) : uData :=
  let '(maxjobs, pJobLimit) :=
    match users m !! lit "default" with
    | Some def => (u_maxJobs def, u_pJobLimit def)
    | None => (INFINIT_INT, INFINIT_FLOAT)
    end in
  UData (Counts 0 0 0 0 0 0) maxjobs pJobLimit 0 ∅ [] [] INFINIT_INT ∅.

Definition getUserData (user : cstr) (m : mbd) : mbd :=
  match users m !! user with
  | Some _ => m
  | None => set_users (<[user := new_user m]>) m
  end.

(** The groups of a user: [up->gPtr], computed at the first use. *)
Definition member_groups (m : mbd) (user : cstr) : list cstr :=
  group <$> filter (fun g => gMember user g = true) (usergroups m).

Definition init_groups (up : cstr) (m : mbd) : mbd :=
  match users m !! up with
  | Some u =>
      if has (u_flags u) USER_INIT then m
      else
        let gs := member_groups m up in
        let m := fold_left (fun m g => getUserData g m) gs m in
        set_users (alter (fun u => u_set_flags (fun f => Z.lor f USER_INIT) (u_set_gPtr gs u)) up) m
  | None => m
  end.

(** One group of the user, with the slots left so far. *)
Definition upd_group (jp : jData) (d : counts) (s : mbd * Z) (ugp : cstr) : mbd * Z :=
  let '(m, numSlots) := s in
  match users m !! ugp with
  | None => (m, numSlots)
  | Some u =>
      let u := updUserData1 m jp d (u_set_flags (fun f => Z.lor f USER_GROUP) u) in
      if no_slots d then (set_users (<[ugp := u]>) m, numSlots)
      else (set_users (<[ugp := check_limit PEND_UGRP_JOB_LIMIT u]>) m, Z.min (slots_left u) numSlots)
  end.

Definition updUserData (m : mbd) (jp : jData) (d : counts) : mbd :=
  let up := uPtr jp in
  match users m !! up with
  | None => m
  | Some u =>
      let u := updUserData1 m jp d (u_set_flags (fun f => clr f USER_GROUP) u) in
      let '(u, numSlots) := if no_slots d then (u, uninit)
                            else (check_limit PEND_USER_JOB_LIMIT u, slots_left u) in
      let m := set_users (<[up := u]>) m in
      if (length (usergroups m) =? 0)%nat
      then set_users (alter (u_set_numSlots numSlots) up) m
      else
        let m := init_groups up m in
        let gs := match users m !! up with Some u => u_gPtr u | None => [] end in
        let '(m, numSlots) := fold_left (upd_group jp d) gs (m, numSlots) in
        set_users (alter (u_set_numSlots numSlots) up) m
  end.

(** One slot of the job, on host [hn]. *)
Definition upd_host (jp : jData) (d : counts) (m : mbd) (hn : cstr) (hp : hData) : mbd :=
  let '(hp, m) :=
    if (h_uJobLimit hp <? INFINIT_INT) && negb (no_slots d) then
      match users m !! uPtr jp with
      | Some u =>
          let '(tab, u) := updUAcct_h jp hp (Counts 0 0 (numRUN d) (numSSUSP d) (numUSUSP d)
                                               (numRESERVE d)) (uPtr jp) u (h_uAcct hp) in
          (h_set_uAcct tab hp, set_users (<[uPtr jp := u]>) m)
      | None => (hp, m)
      end
    else (hp, m) in
  let hp := h_set_cnt (fun c => add_counts c (Counts (numJobs d) 0 (numRUN d) (numSSUSP d)
                                                (numUSUSP d) (numRESERVE d))) hp in
  let id := h_hostId hp in
  let '(hp, m) :=
    if h_maxJobs hp <=? numJobs (h_cnt hp) then
      (h_set_hStatus (fun s => Z.lor s HOST_STAT_FULL) hp, set_hReasonTb id PEND_HOST_JOB_LIMIT m)
    else
      (h_set_hStatus (fun s => clr s HOST_STAT_FULL) hp,
       set_queues (fmap (fun q => q_set_reason id
                                    (CLEAR_REASON (rget (q_reason q) id) PEND_HOST_JOB_LIMIT) q))
         (set_hReasonTb id (CLEAR_REASON (rget (hReasonTb m) id) PEND_HOST_JOB_LIMIT) m)) in
  let hp := if numJobs (h_cnt hp) <=? 0 then h_set_hStatus (fun s => clr s HOST_STAT_EXCLUSIVE) hp
            else hp in
  set_hosts (<[hn := hp]>) m.

(** The loop of [updHostData]; it ends at a NULL host. *)
Fixpoint upd_hosts (jp : jData) (d : counts) (m : mbd) (hs : list cstr) : mbd :=
  match hs with
  | [] => m
  | hn :: hs =>
      match hosts m !! hn with
      | None => m
      | Some hp =>
          if has (h_hStatus hp) HOST_STAT_REMOTE then upd_hosts jp d m hs
          else upd_hosts jp d (upd_host jp d m hn hp) hs
      end
  end.

Definition updHostData (m : mbd) (jp : jData) (nJobs nRUN nSSUSP nUSUSP nRESERVE : Z) : mbd :=
  upd_hosts jp (Counts nJobs 0 nRUN nSSUSP nUSUSP nRESERVE) m (hlist jp).

(** ** Changes of state *)

Definition updCounters (m : mbd) (jp : jData) (oldStatus : Z) : mbd :=
  let s := jStatus jp in
  let num := numHostPtr jp in
  let numReq := maxNumProcessors jp in
  (* updQaccount, then updUserData *)
  let QU d := updUserData (updQaccount m jp d) jp d in
  (* updQaccount, then updHostData *)
  let QH d h := let '(nj, nr, ns, nu) := h in updHostData (updQaccount m jp d) jp nj nr ns nu 0 in
  let QUH d h := let '(nj, nr, ns, nu) := h in updHostData (QU d) jp nj nr ns nu 0 in
  let QHU d h := updUserData (QH d h) jp d in
  if IS_FINISH oldStatus then m
  else if MASK_STATUS (clr s JOB_STAT_UNKWN) =? MASK_STATUS (clr oldStatus JOB_STAT_UNKWN) then m
  else if IS_PEND s && IS_PEND oldStatus then m
  else
    let new := MASK_STATUS (clr s JOB_STAT_UNKWN) in
    if new =? JOB_STAT_RUN then
      if has oldStatus JOB_STAT_PEND || has oldStatus JOB_STAT_PSUSP then
        QUH (Counts (- numReq + num) (- numReq) num 0 0 0) (1, 1, 0, 0)
      else if has oldStatus JOB_STAT_SSUSP then
        QUH (Counts 0 0 num (- num) 0 0) (0, 1, -1, 0)
      else if has oldStatus JOB_STAT_USUSP then
        QUH (Counts 0 0 num 0 (- num) 0) (0, 1, 0, -1)
      else m
    else if new =? JOB_STAT_SSUSP then
      if has oldStatus JOB_STAT_RUN then
        QUH (Counts 0 0 (- num) num 0 0) (0, -1, 1, 0)
      else if has oldStatus JOB_STAT_USUSP then
        QUH (Counts 0 0 0 num (- num) 0) (0, 0, 1, -1)
      else if has oldStatus JOB_STAT_PEND then
        QUH (Counts (- numReq + num) (- numReq) 0 num 0 0) (1, 0, 1, 0)
      else m
    else if new =? JOB_STAT_USUSP then
      if has oldStatus JOB_STAT_RUN then
        QUH (Counts 0 0 (- num) 0 num 0) (0, -1, 0, 1)
      else if has oldStatus JOB_STAT_SSUSP then
        QUH (Counts 0 0 0 (- num) num 0) (0, 0, -1, 1)
      else if has oldStatus JOB_STAT_PEND then
        QUH (Counts (- numReq + num) (- numReq) 0 0 num 0) (1, 0, 0, 1)
      else m
    else if (new =? JOB_STAT_EXIT) || (new =? JOB_STAT_DONE) then
      if has oldStatus JOB_STAT_WAIT then
        QHU (Counts (- num) 0 (- num) 0 0 0) (-1, -1, 0, 0)
      else if has oldStatus JOB_STAT_RUN then
        QHU (Counts (- num) 0 (- num) 0 0 0) (-1, -1, 0, 0)
      else if has oldStatus JOB_STAT_USUSP then
        QHU (Counts (- num) 0 0 0 (- num) 0) (-1, 0, 0, -1)
      else if has oldStatus JOB_STAT_SSUSP then
        QHU (Counts (- num) 0 0 (- num) 0 0) (-1, 0, -1, 0)
      else if IS_PEND oldStatus then
        QU (Counts (- numReq) (- numReq) 0 0 0 0)
      else m
    else if new =? JOB_STAT_PEND then
      if has oldStatus JOB_STAT_RUN then
        QHU (Counts (numReq - num) numReq (- num) 0 0 0) (-1, -1, 0, 0)
      else if has oldStatus JOB_STAT_USUSP then
        QHU (Counts (- num + numReq) numReq 0 0 (- num) 0) (-1, 0, 0, -1)
      else if has oldStatus JOB_STAT_SSUSP then
        QHU (Counts (- num + numReq) numReq 0 (- num) 0 0) (-1, 0, -1, 0)
      else m
    else m.

(** The reservation of a job is made or given up: [newStatus] differs from the
    job's status by [JOB_STAT_RESERVE].  The lists of reserving jobs kept per
    queue and host (proxy lists) are not part of the state. *)
Definition updResCounters (m : mbd) (jp : jData) (newStatus : Z) : mbd :=
  let s := jStatus jp in
  let num := numHostPtr jp in
  let numReq := maxNumProcessors jp in
  let QUH d nj ns nu nr := updHostData (updUserData (updQaccount m jp d) jp d) jp nj 0 ns nu nr in
  let QHU d nj ns nu nr := updUserData (updHostData (updQaccount m jp d) jp nj 0 ns nu nr) jp d in
  if negb (IS_PEND s) && negb (IS_START s) then m
  else
    let cur := MASK_STATUS (clr s JOB_STAT_UNKWN) in
    let rsv := has s JOB_STAT_RESERVE in
    let newRsv := has newStatus JOB_STAT_RESERVE in
    if cur =? JOB_STAT_SSUSP then
      if negb rsv && newRsv && IS_START newStatus then
        QUH (Counts 0 0 0 (- num) 0 num) 0 (-1) 0 1
      else if rsv && negb newRsv && (IS_START newStatus || has newStatus JOB_STAT_PEND) then
        QUH (Counts 0 0 0 num 0 (- num)) 0 1 0 (-1)
      else if rsv && IS_FINISH newStatus then
        QUH (Counts (- num) 0 0 0 0 (- num)) (-1) 0 0 (-1)
      else m
    else if cur =? JOB_STAT_USUSP then
      if negb rsv && newRsv && IS_START newStatus then
        QUH (Counts 0 0 0 0 (- num) num) 0 0 (-1) 1
      else if rsv && negb newRsv && IS_START newStatus then
        QUH (Counts 0 0 0 0 num (- num)) 0 0 1 (-1)
      else if rsv && IS_FINISH newStatus then
        QUH (Counts (- num) 0 0 0 0 (- num)) (-1) 0 0 (-1)
      else m
    else if (cur =? JOB_STAT_PEND) || (cur =? JOB_STAT_PSUSP) then
      if rsv && negb newRsv && IS_PEND newStatus then
        QHU (Counts 0 num 0 0 0 (- num)) (-1) 0 0 (-1)
      else if negb rsv && newRsv && IS_PEND newStatus then
        QHU (Counts 0 (- num) 0 0 0 num) 1 0 0 1
      else if IS_PEND s && rsv && IS_FINISH newStatus then
        QHU (Counts (- numReq) (- numReq + num) 0 0 0 (- num)) (-1) 0 0 (-1)
      else m
    else m.

(** The [switch] of [updSwitchJob]: the job leaves queue [qfp] with the counts of
    its state and [oldNumReq] processors and enters [qtp]; nothing is counted
    while the event log is replayed. *)
Definition switch_account (m : mbd) (jp : jData) (qfp qtp : cstr) (oldNumReq : Z) : mbd * jData :=
  let num := numHostPtr jp in
  let numReq := maxNumProcessors jp in
  let live := negb (mSchedStage m =? M_STAGE_REPLAY) in
  (* updQaccount, updHostData, updUserData *)
  let QHU m jp d nj nr ns nu := updUserData (updHostData (updQaccount m jp d) jp nj nr ns nu 0) jp d in
  let QU m jp d := updUserData (updQaccount m jp d) jp d in
  let both (from to : mbd -> jData -> mbd) :=
    let jf := j_set_qPtr qfp jp in
    let jt := j_set_qPtr qtp jp in
    if live then (to (from m jf) jt, jt) else (m, jt) in
  let cur := MASK_STATUS (jStatus jp) in
  let at_ s := (cur =? s) || (cur =? Z.lor s JOB_STAT_UNKWN) in
  if (cur =? JOB_STAT_PEND) || (cur =? JOB_STAT_PSUSP) then
    both (fun m j => QU m j (Counts (- oldNumReq) (- oldNumReq) 0 0 0 0))
         (fun m j => QU m j (Counts numReq numReq 0 0 0 0))
  else if at_ JOB_STAT_RUN then
    both (fun m j => QHU m j (Counts (- num) 0 (- num) 0 0 0) (-1) (-1) 0 0)
         (fun m j => QHU m j (Counts num 0 num 0 0 0) 1 1 0 0)
  else if at_ JOB_STAT_SSUSP then
    both (fun m j => QHU m j (Counts (- num) 0 0 (- num) 0 0) (-1) 0 (-1) 0)
         (fun m j => QHU m j (Counts num 0 0 num 0 0) 1 0 1 0)
  else if at_ JOB_STAT_USUSP then
    both (fun m j => QHU m j (Counts (- num) 0 0 0 (- num) 0) (-1) 0 0 (-1))
         (fun m j => QHU m j (Counts num 0 0 0 num 0) 1 0 0 1)
  else (m, jp).

(** A job is moved from queue [qfp] to queue [qtp], or its number of processors
    changes from [oldNumReq]; a reservation is given up before and made again
    after the move. *)
Definition updSwitchJob (m : mbd) (jp : jData) (qfp qtp : cstr) (oldNumReq : Z) : mbd * jData :=
  if has (jStatus jp) JOB_STAT_RESERVE then
    let m := updResCounters m (j_set_qPtr qfp jp) (clr (jStatus jp) JOB_STAT_RESERVE) in
    let jp := j_set_status (clr (jStatus jp) JOB_STAT_RESERVE) (j_set_qPtr qtp jp) in
    let '(m, jp) := switch_account m jp qfp qtp oldNumReq in
    (updResCounters m jp (Z.lor (jStatus jp) JOB_STAT_RESERVE),
     j_set_status (Z.lor (jStatus jp) JOB_STAT_RESERVE) jp)
  else switch_account m jp qfp qtp oldNumReq.
End Updates.

(** ** The recount

    What a job contributes to the counters of its queue, of its user and of the
    user's groups ([slot_weight]), and to each host for each of its slots there
    ([host_weight]). *)

Definition czero : counts := Counts 0 0 0 0 0 0.
Definition cadd (a b : counts) : counts :=
  Counts (numJobs a + numJobs b) (numPEND a + numPEND b) (numRUN a + numRUN b)
    (numSSUSP a + numSSUSP b) (numUSUSP a + numUSUSP b) (numRESERVE a + numRESERVE b).
Definition cnonneg (a : counts) : Prop :=
  0 <= numJobs a /\ 0 <= numPEND a /\ 0 <= numRUN a /\ 0 <= numSSUSP a /\ 0 <= numUSUSP a /\
  0 <= numRESERVE a.
Definition ctimes (n : nat) (a : counts) : counts := Nat.iter n (cadd a) czero.

Definition slot_weight (s num numReq : Z) : counts :=
  let r := has s JOB_STAT_RESERVE in
  let st := status_of s in
  if (st =? JOB_STAT_PEND) || (st =? JOB_STAT_PSUSP) then
    if r then Counts numReq (numReq - num) 0 0 0 num else Counts numReq numReq 0 0 0 0
  else if st =? JOB_STAT_RUN then Counts num 0 num 0 0 0
  else if st =? JOB_STAT_SSUSP then
    if r then Counts num 0 0 0 0 num else Counts num 0 0 num 0 0
  else if st =? JOB_STAT_USUSP then
    if r then Counts num 0 0 0 0 num else Counts num 0 0 0 num 0
  else czero.

Definition host_weight (s : Z) : counts :=
  let r := has s JOB_STAT_RESERVE in
  let st := status_of s in
  if (st =? JOB_STAT_PEND) || (st =? JOB_STAT_PSUSP) then
    if r then Counts 1 0 0 0 0 1 else czero
  else if st =? JOB_STAT_RUN then Counts 1 0 1 0 0 0
  else if st =? JOB_STAT_SSUSP then
    if r then Counts 1 0 0 0 0 1 else Counts 1 0 0 1 0 0
  else if st =? JOB_STAT_USUSP then
    if r then Counts 1 0 0 0 0 1 else Counts 1 0 0 0 1 0
  else czero.

Definition job_weight (j : jData) : counts :=
  slot_weight (jStatus j) (numHostPtr j) (maxNumProcessors j).

(** A counted item: the records it is counted in, with repetitions, and its
    weight. *)
Abbreviation item := (list cstr * counts)%type.

Fixpoint occ (n : cstr) (l : list cstr) : nat :=
  match l with [] => O | x :: l => if decide (x = n) then S (occ n l) else occ n l end.

Fixpoint total (n : cstr) (L : list item) : counts :=
  match L with
  | [] => czero
  | (ts, w) :: L => cadd (ctimes (occ n ts) w) (total n L)
  end.

Definition recount (M : gmap cstr counts) (L : list item) : Prop :=
  forall n c, M !! n = Some c -> c = total n L.

(** The groups in which a user is counted. *)
Definition ugroups (m : mbd) (up : cstr) : list cstr :=
  match usergroups m, users m !! up with
  | [], _ | _, None => []
  | _, Some u => if has (u_flags u) USER_INIT then u_gPtr u else member_groups m up
  end.

(** The counters of a state; remote hosts are not counted. *)
Definition q_view (m : mbd) : gmap cstr counts := q_cnt <$> queues m.
Definition u_view (m : mbd) : gmap cstr counts := u_cnt <$> users m.
Definition h_view (m : mbd) : gmap cstr counts :=
  omap (fun h => if has (h_hStatus h) HOST_STAT_REMOTE then None else Some (h_cnt h)) (hosts m).

Definition q_item (j : jData) : item := ([qPtr j], job_weight j).
Definition u_item (m : mbd) (j : jData) : item := (uPtr j :: ugroups m (uPtr j), job_weight j).
Definition h_item (j : jData) : item := (hlist j, host_weight (jStatus j)).

(** The invariant: every counter is the recount over the jobs [J]. *)
Record accounted (m : mbd) (J : list jData) : Prop := {
  acc_q : recount (q_view m) (q_item <$> J);
  acc_u : recount (u_view m) (u_item m <$> J);
  acc_h : recount (h_view m) (h_item <$> J) }.

(** A job has at most the processors it asked for, and the records it points to
    exist. *)
Record wf_job (m : mbd) (j : jData) : Prop := {
  wfj_num : numHostPtr j <= maxNumProcessors j;
  wfj_user : is_Some (users m !! uPtr j);
  wfj_hosts : Forall (fun h => is_Some (hosts m !! h)) (hlist j) }.

(** Every configured group has its user record. *)
Definition groups_known (m : mbd) : Prop :=
  Forall (fun g => is_Some (users m !! group g)) (usergroups m).

(** ** The algebra of counts *)

Lemma counts_eq a b :
  numJobs a = numJobs b -> numPEND a = numPEND b -> numRUN a = numRUN b ->
  numSSUSP a = numSSUSP b -> numUSUSP a = numUSUSP b -> numRESERVE a = numRESERVE b -> a = b.
Proof. destruct a, b. simpl. intros. by subst. Qed.

Ltac counts := apply counts_eq; simpl; lia.

Lemma cadd_comm a b : cadd a b = cadd b a.
Proof. counts. Qed.

Lemma cadd_assoc a b c : cadd a (cadd b c) = cadd (cadd a b) c.
Proof. counts. Qed.

Lemma cadd_0_l a : cadd czero a = a.
Proof. counts. Qed.

Lemma cadd_nonneg a b : cnonneg a -> cnonneg b -> cnonneg (cadd a b).
Proof. unfold cnonneg. simpl. lia. Qed.

Lemma ctimes_nonneg n a : cnonneg a -> cnonneg (ctimes n a).
Proof.
  intros H. induction n; simpl; [unfold cnonneg; simpl; lia|]. by apply cadd_nonneg.
Qed.

Lemma ctimes_zero n : ctimes n czero = czero.
Proof. induction n; simpl; [done|]. unfold ctimes in *. by rewrite IHn. Qed.

Lemma addValue_nonneg a b : 0 <= a + b -> addValue a b = a + b.
Proof. intros. unfold addValue. by rewrite (proj2 (Z.leb_le _ _)). Qed.

Lemma add_counts_cadd a d : cnonneg (cadd a d) -> add_counts a d = cadd a d.
Proof.
  unfold cnonneg, add_counts, cadd. simpl. intros (?&?&?&?&?&?). by rewrite !addValue_nonneg.
Qed.

Definition all_nonneg (L : list item) : Prop := Forall (fun i => cnonneg (snd i)) L.

Lemma total_nonneg n L : all_nonneg L -> cnonneg (total n L).
Proof.
  induction 1 as [|[ts w] L Hw _ IH]; simpl in *; [unfold cnonneg; simpl; lia|].
  apply cadd_nonneg; [by apply ctimes_nonneg|done].
Qed.

Lemma total_middle n l1 i l2 :
  total n (l1 ++ i :: l2) = cadd (ctimes (occ n (fst i)) (snd i)) (total n (l1 ++ l2)).
Proof.
  induction l1 as [|[ts w] l1 IH]; simpl; [by destruct i|]. rewrite IH. counts.
Qed.

(** Adding [d] once per occurrence moves [k] contributions from [w] to [w + d];
    no counter is reset on the way. *)
Lemma iter_add k w d r : cnonneg w -> cnonneg (cadd w d) -> cnonneg r ->
  Nat.iter k (fun c => add_counts c d) (cadd (ctimes k w) r) = cadd (ctimes k (cadd w d)) r.
Proof.
  intros Hw Hwd. revert r. induction k as [|k IH]; intros r Hr; [done|].
  rewrite Nat.iter_succ_r. simpl ctimes. unfold ctimes in *. simpl Nat.iter.
  rewrite add_counts_cadd.
  - replace (cadd (cadd (cadd w (Nat.iter k (cadd w) czero)) r) d)
      with (cadd (Nat.iter k (cadd w) czero) (cadd (cadd w d) r)) by counts.
    rewrite IH by by apply cadd_nonneg. counts.
  - pose proof (ctimes_nonneg k w Hw) as Hk. unfold ctimes, cnonneg in *. simpl in *. lia.
Qed.

(** ** One step of the recount *)

(** [add_all]: the counts [d] are added to each of the records [ts], once per
    occurrence. *)
Definition add_all (ts : list cstr) (d : counts) (M : gmap cstr counts) : gmap cstr counts :=
  fold_left (fun M t => alter (fun c => add_counts c d) t M) ts M.

Lemma add_all_lookup ts d M n :
  add_all ts d M !! n = Nat.iter (occ n ts) (fun c => add_counts c d) <$> M !! n.
Proof.
  unfold add_all. revert M. induction ts as [|t ts IH]; intros M; simpl.
  - by destruct (M !! n).
  - rewrite IH. destruct (decide (t = n)) as [->|Hne].
    + rewrite lookup_alter_eq. destruct (M !! n); [|done]. cbn [fmap option_fmap option_map].
      by rewrite Nat.iter_succ_r.
    + by rewrite lookup_alter_ne.
Qed.

Lemma recount_step M l1 ts w l2 d :
  recount M (l1 ++ (ts, w) :: l2) -> all_nonneg (l1 ++ l2) -> cnonneg w -> cnonneg (cadd w d) ->
  recount (add_all ts d M) (l1 ++ (ts, cadd w d) :: l2).
Proof.
  intros HR Hnn Hw Hwd n c. rewrite add_all_lookup.
  destruct (M !! n) as [c0|] eqn:Hn; [|done]. intros [= <-]. apply HR in Hn. subst c0.
  rewrite !total_middle. simpl. rewrite iter_add; try done. by apply total_nonneg.
Qed.

(** An item of weight zero may be counted anywhere. *)
Lemma recount_zero M l1 ts ts' l2 :
  recount M (l1 ++ (ts, czero) :: l2) -> recount M (l1 ++ (ts', czero) :: l2).
Proof.
  intros HR n c Hn. rewrite (HR n c Hn). rewrite !total_middle. simpl. by rewrite !ctimes_zero.
Qed.

(** ** What each update does to the counters *)

Section Facts.
Variable getQUsable : mbd -> qData -> qData.
Variable uninit : Z.

(** [getQUsable] sets the reasons of a queue and the number of its usable
    processors; it keeps the counters. *)
Hypothesis getQUsable_cnt : forall m q, q_cnt (getQUsable m q) = q_cnt q.

Implicit Types (m : mbd) (jp : jData) (d : counts).

(** *** Queues *)

Lemma upd_q_host_cnt m jp d q hn : q_cnt (upd_q_host m jp d q hn) = q_cnt q.
Proof.
  unfold upd_q_host, CHECKQUSABLE. destruct (hosts m !! hn) as [hp|]; [|done].
  destruct (has _ HOST_STAT_REMOTE); [done|]. destruct (upd_hacct _ _ _ _) as [tab f].
  case_ifs; simpl; try done; case_ifs; done.
Qed.

Lemma updHAcct_q_cnt m jp d q : q_cnt (updHAcct_q getQUsable m jp d q) = q_cnt q.
Proof.
  unfold updHAcct_q. destruct (hPtr jp) as [hs|]; [|done].
  assert (forall q0, q_cnt (fold_left (upd_q_host m jp d) hs q0) = q_cnt q0) as Hf.
  { induction hs as [|h hs IH]; intros q0; simpl; [done|]. by rewrite IH, upd_q_host_cnt. }
  case_if; simpl; [by rewrite getQUsable_cnt, Hf|by rewrite Hf].
Qed.

Lemma updQaccount_q_cnt m jp d q :
  q_cnt (updQaccount_q getQUsable m jp d q) = add_counts (q_cnt q) d.
Proof.
  unfold updQaccount_q.
  assert (forall l q0, q_cnt (fold_left (fun q grp =>
            q_set_uAcct (updUAcct_q jp (q_uJobLimit q) d grp) q) l q0) = q_cnt q0) as Hf.
  { induction l as [|g l IH]; intros q0; simpl; [done|]. by rewrite IH. }
  case_if; rewrite ?updHAcct_q_cnt, Hf; done.
Qed.

Lemma updQaccount_q_view m jp d :
  q_view (updQaccount getQUsable m jp d) = add_all [qPtr jp] d (q_view m).
Proof.
  unfold q_view, updQaccount, add_all. simpl. apply map_eq. intros n.
  rewrite lookup_fmap. destruct (decide (qPtr jp = n)) as [<-|Hne].
  - rewrite !lookup_alter_eq, lookup_fmap. destruct (queues m !! qPtr jp); [|done].
    simpl. by rewrite updQaccount_q_cnt.
  - by rewrite !lookup_alter_ne, lookup_fmap.
Qed.

(** *** Users *)

(** A record of the same groups. *)
Definition same_groups (u u' : uData) : Prop :=
  has (u_flags u') USER_INIT = has (u_flags u) USER_INIT /\ u_gPtr u' = u_gPtr u.

Lemma same_groups_trans u1 u2 u3 : same_groups u1 u2 -> same_groups u2 u3 -> same_groups u1 u3.
Proof. unfold same_groups. intros [] []. split; congruence. Qed.

Lemma upd_u_host_keeps m jp d u hn :
  u_cnt (upd_u_host m jp d u hn) = u_cnt u /\ same_groups u (upd_u_host m jp d u hn).
Proof.
  unfold upd_u_host. destruct (hosts m !! hn) as [hp|]; [|done].
  destruct (has _ HOST_STAT_REMOTE); [done|]. destruct (upd_hacct _ _ _ _) as [tab f].
  case_ifs; done.
Qed.

Lemma updHAcct_u_keeps m jp d u :
  u_cnt (updHAcct_u m jp d u) = u_cnt u /\ same_groups u (updHAcct_u m jp d u).
Proof.
  unfold updHAcct_u. destruct (hPtr jp) as [hs|]; [|done].
  revert u. induction hs as [|h hs IH]; intros u; simpl; [done|].
  destruct (upd_u_host_keeps m jp d u h) as [Hc Hg]. destruct (IH (upd_u_host m jp d u h)) as [Hc' Hg'].
  split; [congruence|by eapply same_groups_trans].
Qed.

Lemma updUserData1_spec m jp d u :
  u_cnt (updUserData1 m jp d u) = add_counts (u_cnt u) d /\ same_groups u (updUserData1 m jp d u).
Proof.
  unfold updUserData1. case_if; [|done].
  destruct (updHAcct_u_keeps m jp d (u_set_cnt (fun c => add_counts c d) u)) as [Hc Hg].
  split; [by rewrite Hc|done].
Qed.

Lemma check_limit_keeps r u : u_cnt (check_limit r u) = u_cnt u /\ same_groups u (check_limit r u).
Proof. done. Qed.

(** The flag USER_GROUP has nothing to do with USER_INIT. *)
Lemma group_flag_keeps u :
  same_groups u (u_set_flags (fun f => Z.lor f USER_GROUP) u) /\
  same_groups u (u_set_flags (fun f => clr f USER_GROUP) u).
Proof.
  split; (split; [|done]); simpl.
  - rewrite has_lor. by rewrite orb_false_r.
  - by apply has_clr_disjoint.
Qed.

(** Two states whose users have the same counters except for additions, and the
    same groups. *)
Record user_step (m m' : mbd) (ts : list cstr) (d : counts) : Prop := {
  us_view : u_view m' = add_all ts d (u_view m);
  us_groups : forall n, ugroups m' n = ugroups m n;
  us_dom : dom (users m') = dom (users m);
  us_queues : queues m' = queues m;
  us_hosts : hosts m' = hosts m;
  us_ugroups : usergroups m' = usergroups m;
  us_stage : mSchedStage m' = mSchedStage m }.

Lemma user_step_refl m d : user_step m m [] d.
Proof. by split. Qed.

Lemma user_step_trans m1 m2 m3 ts1 ts2 d :
  user_step m1 m2 ts1 d -> user_step m2 m3 ts2 d -> user_step m1 m3 (ts1 ++ ts2) d.
Proof.
  intros [] []. split; try congruence.
  - unfold add_all in *. rewrite fold_left_app. congruence.
Qed.

Lemma ugroups_set m n u u' : users m !! n = Some u -> same_groups u u' ->
  forall k, ugroups (set_users (<[n := u']>) m) k = ugroups m k.
Proof.
  intros Hn [Hf Hg] k. unfold ugroups, member_groups. simpl. destruct (usergroups m) eqn:Hu; [done|].
  destruct (decide (n = k)) as [<-|Hne].
  - by rewrite lookup_insert_eq, Hn, Hf, Hg.
  - by rewrite lookup_insert_ne.
Qed.

Lemma set_user_step m n u u' d : users m !! n = Some u -> same_groups u u' ->
  u_cnt u' = add_counts (u_cnt u) d -> user_step m (set_users (<[n := u']>) m) [n] d.
Proof.
  intros Hn Hg Hc. split; try done.
  - unfold u_view, add_all. simpl. apply map_eq. intros k. destruct (decide (n = k)) as [<-|Hne].
    + by rewrite lookup_fmap, lookup_insert_eq, lookup_alter_eq, lookup_fmap, Hn; simpl; rewrite Hc.
    + by rewrite lookup_fmap, lookup_insert_ne, lookup_alter_ne, lookup_fmap.
  - by eapply ugroups_set.
  - simpl. rewrite dom_insert_L. apply elem_of_dom_2 in Hn. set_solver.
Qed.

Lemma set_user_step0 m n u u' d : users m !! n = Some u -> same_groups u u' ->
  u_cnt u' = u_cnt u -> user_step m (set_users (<[n := u']>) m) [] d.
Proof.
  intros Hn Hg Hc. split; try done.
  - unfold u_view, add_all. simpl. apply map_eq. intros k. destruct (decide (n = k)) as [<-|Hne].
    + by rewrite !lookup_fmap, lookup_insert_eq, Hn; simpl; rewrite Hc.
    + by rewrite !lookup_fmap, lookup_insert_ne.
  - by eapply ugroups_set.
  - simpl. rewrite dom_insert_L. apply elem_of_dom_2 in Hn. set_solver.
Qed.

Lemma alter_user_step0 m n (f : uData -> uData) d :
  (forall u, same_groups u (f u) /\ u_cnt (f u) = u_cnt u) ->
  user_step m (set_users (alter f n) m) [] d.
Proof.
  intros Hf. destruct (users m !! n) as [u|] eqn:Hn.
  - assert (set_users (alter f n) m = set_users (<[n := f u]>) m) as ->.
    { unfold set_users. f_equal. apply map_eq. intros k. destruct (decide (n = k)) as [<-|].
      - by rewrite lookup_alter_eq, lookup_insert_eq, Hn.
      - by rewrite lookup_alter_ne, lookup_insert_ne. }
    destruct (Hf u). by eapply set_user_step0.
  - assert (set_users (alter f n) m = m) as ->.
    { destruct m as [q u h r g s]. unfold set_users. simpl in *. f_equal. apply map_eq. intros k.
      destruct (decide (n = k)) as [<-|]; [by rewrite lookup_alter_eq, Hn|by rewrite lookup_alter_ne]. }
    apply user_step_refl.
Qed.

Lemma user_step_missing m n d : users m !! n = None -> user_step m m [n] d.
Proof.
  intros Hn. split; try done. unfold add_all. simpl. symmetry. apply map_eq. intros k.
  destruct (decide (n = k)) as [<-|Hne]; [|by rewrite lookup_alter_ne].
  unfold u_view. by rewrite lookup_alter_eq, lookup_fmap, Hn.
Qed.

Lemma upd_group_step jp d m s ugp :
  user_step m (fst (upd_group jp d (m, s) ugp)) [ugp] d.
Proof.
  unfold upd_group. destruct (users m !! ugp) as [u|] eqn:Hu; [|by apply user_step_missing].
  destruct (group_flag_keeps u) as [Hg _].
  destruct (updUserData1_spec m jp d (u_set_flags (fun f => Z.lor f USER_GROUP) u)) as [Hc Hg'].
  case_if; simpl; (eapply set_user_step; [done|by eapply same_groups_trans|done]).
Qed.

Lemma upd_groups_step jp d gs m s :
  user_step m (fst (fold_left (upd_group jp d) gs (m, s))) gs d.
Proof.
  revert m s. induction gs as [|g gs IH]; intros m s; [apply user_step_refl|].
  cbn [fold_left]. pose proof (upd_group_step jp d m s g) as H.
  destruct (upd_group jp d (m, s) g) as [m1 s1]. apply (user_step_trans _ _ _ [g] gs d H (IH m1 s1)).
Qed.

Lemma known_groups_kept m gs : Forall (fun g => is_Some (users m !! g)) gs ->
  fold_left (fun m g => getUserData g m) gs m = m.
Proof.
  induction 1 as [|g gs [u Hu] _ IH]; simpl; [done|]. unfold getUserData at 2. by rewrite Hu.
Qed.

Lemma member_groups_known m up : groups_known m ->
  Forall (fun g => is_Some (users m !! g)) (member_groups m up).
Proof.
  intros H. unfold member_groups. apply Forall_fmap. apply Forall_forall. intros g Hg.
  apply list_elem_of_filter in Hg as [_ Hg]. unfold groups_known in H. rewrite Forall_forall in H.
  by apply (H g).
Qed.

Lemma init_groups_step up m u d :
  users m !! up = Some u -> usergroups m <> [] -> groups_known m ->
  user_step m (init_groups up m) [] d /\
  exists u', users (init_groups up m) !! up = Some u' /\ u_gPtr u' = ugroups m up.
Proof.
  intros Hu Hne Hk. unfold init_groups. rewrite Hu.
  assert (ugroups m up = if has (u_flags u) USER_INIT then u_gPtr u else member_groups m up) as Hg.
  { unfold ugroups. rewrite Hu. by destruct (usergroups m). }
  destruct (has (u_flags u) USER_INIT) eqn:Hi.
  { split; [apply user_step_refl|]. eauto. }
  rewrite known_groups_kept by by apply member_groups_known.
  split; [|simpl; rewrite lookup_alter_eq, Hu; simpl; eauto].
  split; try done; simpl.
  - unfold u_view. simpl. apply map_eq. intros k. destruct (decide (up = k)) as [<-|];
      rewrite !lookup_fmap; [by rewrite lookup_alter_eq, Hu|by rewrite lookup_alter_ne].
  - intros k. destruct (decide (up = k)) as [<-|Hk'].
    + rewrite Hg. unfold ugroups. simpl. rewrite lookup_alter_eq, Hu. simpl.
      rewrite has_lor. destruct (usergroups m); [done|]. by rewrite orb_true_r.
    + unfold ugroups, member_groups. simpl. by rewrite lookup_alter_ne.
  - apply dom_alter_L.
Qed.

Lemma groups_known_step m m' ts d : user_step m m' ts d -> groups_known m -> groups_known m'.
Proof.
  intros H Hk. unfold groups_known. rewrite (us_ugroups _ _ _ _ H).
  eapply Forall_impl; [exact Hk|]. intros g. simpl. rewrite <- !elem_of_dom.
  by rewrite (us_dom _ _ _ _ H).
Qed.

Lemma updUserData_step m jp d :
  is_Some (users m !! uPtr jp) -> groups_known m ->
  user_step m (updUserData uninit m jp d) (uPtr jp :: ugroups m (uPtr jp)) d.
Proof.
  intros [u Hu] Hk. unfold updUserData. rewrite Hu. set (up := uPtr jp) in *.
  destruct (group_flag_keeps u) as [_ Hg].
  destruct (updUserData1_spec m jp d (u_set_flags (fun f => clr f USER_GROUP) u)) as [Hc Hg'].
  set (u1 := updUserData1 m jp d (u_set_flags (fun f => clr f USER_GROUP) u)) in *.
  assert (exists u2 s2, (if no_slots d then (u1, uninit) else (check_limit PEND_USER_JOB_LIMIT u1, slots_left u1))
     = (u2, s2) /\ same_groups u u2 /\ u_cnt u2 = add_counts (u_cnt u) d) as (u2 & s2 & -> & Hg2 & Hc2).
  { case_if; eexists _, _; (split; [done|]); (split; [by eapply same_groups_trans|done]). }
  pose proof (set_user_step m up u u2 d Hu Hg2 Hc2) as H1.
  set (m1 := set_users (<[up := u2]>) m) in *.
  assert (users m1 !! up = Some u2) as Hu1 by (simpl; by rewrite lookup_insert_eq).
  change (usergroups m1) with (usergroups m).
  destruct (usergroups m) as [|g0 gs0] eqn:Hgs; simpl length; cbn [Nat.eqb].
  - assert (ugroups m up = []) as -> by (unfold ugroups; by rewrite Hgs).
    rewrite <- (app_nil_r [up]). eapply user_step_trans; [exact H1|]. by apply alter_user_step0.
  - destruct (init_groups_step up m1 u2 d Hu1) as (H2 & u3 & Hu3 & Hgp);
      [change (usergroups m1) with (usergroups m); by rewrite Hgs|by eapply groups_known_step|].
    rewrite Hu3, Hgp, (us_groups _ _ _ _ H1).
    pose proof (upd_groups_step jp d (ugroups m up) (init_groups up m1) s2) as H3.
    destruct (fold_left _ _ _) as [m3 s3]. simpl in H3.
    replace (up :: ugroups m up) with ((([up] ++ []) ++ ugroups m up) ++ []) by by rewrite app_nil_r.
    eapply user_step_trans; [eapply user_step_trans; [eapply user_step_trans; [exact H1|exact H2]|exact H3]|].
    by apply alter_user_step0.
Qed.

(** *** Hosts *)

(** The counters of the hosts change by additions; those of the queues and users
    do not. *)
Record host_step (m m' : mbd) (ts : list cstr) (d : counts) : Prop := {
  hs_view : h_view m' = add_all ts d (h_view m);
  hs_dom : dom (hosts m') = dom (hosts m);
  hs_q : q_view m' = q_view m;
  hs_u : u_view m' = u_view m;
  hs_udom : dom (users m') = dom (users m);
  hs_groups : forall n, ugroups m' n = ugroups m n;
  hs_ugroups : usergroups m' = usergroups m;
  hs_stage : mSchedStage m' = mSchedStage m }.

Lemma host_step_trans m1 m2 m3 ts1 ts2 d :
  host_step m1 m2 ts1 d -> host_step m2 m3 ts2 d -> host_step m1 m3 (ts1 ++ ts2) d.
Proof.
  intros [] []. split; try congruence. unfold add_all in *. rewrite fold_left_app. congruence.
Qed.

(** The accounts and reasons that [upd_host] sets before it counts. *)
Lemma user_step_host m m' hn h d : user_step m m' [] d -> hosts m !! hn = Some h ->
  host_step m m' [] d.
Proof.
  intros [Hv Hg Hd Hq Hh Hu Hs] Hn. split; try done.
  - unfold h_view. by rewrite Hh.
  - by rewrite Hh.
  - unfold q_view. by rewrite Hq.
Qed.

Lemma set_host_step m hn h h' d :
  hosts m !! hn = Some h -> has (h_hStatus h) HOST_STAT_REMOTE = false ->
  has (h_hStatus h') HOST_STAT_REMOTE = false -> h_cnt h' = add_counts (h_cnt h) d ->
  host_step m (set_hosts (<[hn := h']>) m) [hn] d.
Proof.
  intros Hn Hr Hr' Hc. split; try done.
  - unfold h_view, add_all. simpl. apply map_eq. intros k. destruct (decide (hn = k)) as [<-|Hne].
    + rewrite lookup_omap, lookup_insert_eq, lookup_alter_eq, lookup_omap, Hn. simpl.
      by rewrite Hr, Hr', Hc.
    + by rewrite lookup_omap, lookup_insert_ne, lookup_alter_ne, lookup_omap.
  - simpl. rewrite dom_insert_L. apply elem_of_dom_2 in Hn. set_solver.
Qed.

Lemma queue_reason_step m f i v : (forall q, q_cnt (f q) = q_cnt q) ->
  q_view (set_queues (fmap f) (set_hReasonTb i v m)) = q_view m.
Proof.
  intros Hf. unfold q_view. simpl. apply map_eq. intros k. rewrite !lookup_fmap.
  destruct (queues m !! k); simpl; [by rewrite Hf|done].
Qed.

(** The counts that a slot adds to its host: those of [d] without numPEND. *)
Definition host_delta (d : counts) : counts :=
  Counts (numJobs d) 0 (numRUN d) (numSSUSP d) (numUSUSP d) (numRESERVE d).

Lemma host_acct_step jp d m hn hp :
  hosts m !! hn = Some hp ->
  exists hp1 m1,
    (if (h_uJobLimit hp <? INFINIT_INT) && negb (no_slots d) then
       match users m !! uPtr jp with
       | Some u =>
           let '(tab, u) := updUAcct_h jp hp (Counts 0 0 (numRUN d) (numSSUSP d) (numUSUSP d)
                                                (numRESERVE d)) (uPtr jp) u (h_uAcct hp) in
           (h_set_uAcct tab hp, set_users (<[uPtr jp := u]>) m)
       | None => (hp, m)
       end
     else (hp, m)) = (hp1, m1) /\
    host_step m m1 [] (host_delta d) /\ hosts m1 = hosts m /\
    h_cnt hp1 = h_cnt hp /\ h_hStatus hp1 = h_hStatus hp.
Proof.
  intros Hn. assert (host_step m m [] (host_delta d)) as Hrefl by by split.
  case_if; [|by exists hp, m]. destruct (users m !! uPtr jp) as [u|] eqn:Hu; [|by exists hp, m].
  unfold updUAcct_h. destruct (upd_found _ _ _) as [a|].
  - eexists _, _. split; [done|]. split_and!; [|done..].
    eapply user_step_host; [|done]. by eapply set_user_step0.
  - eexists _, _. split; [done|]. split_and!; [|done..].
    eapply user_step_host; [|done]. by eapply set_user_step0.
Qed.

Lemma full_keeps_remote s :
  has (Z.lor s HOST_STAT_FULL) HOST_STAT_REMOTE = has s HOST_STAT_REMOTE /\
  has (clr s HOST_STAT_FULL) HOST_STAT_REMOTE = has s HOST_STAT_REMOTE /\
  has (clr s HOST_STAT_EXCLUSIVE) HOST_STAT_REMOTE = has s HOST_STAT_REMOTE.
Proof.
  split_and!; [rewrite has_lor; apply orb_false_r|by apply has_clr_disjoint..].
Qed.

Lemma upd_host_step jp d m hn hp :
  hosts m !! hn = Some hp -> has (h_hStatus hp) HOST_STAT_REMOTE = false ->
  host_step m (upd_host jp d m hn hp) [hn] (host_delta d).
Proof.
  intros Hn Hr. unfold upd_host.
  destruct (host_acct_step jp d m hn hp Hn) as (hp1 & m1 & -> & H1 & Hh1 & Hc1 & Hs1).
  rewrite <- (app_nil_l [hn]). eapply host_step_trans; [exact H1|]. rewrite <- Hh1 in Hn.
  rewrite <- Hs1 in Hr. fold (host_delta d).
  destruct (full_keeps_remote (h_hStatus hp1)) as (E1 & E2 & _).
  destruct (h_maxJobs _ <=? _).
  - set (m2 := set_hReasonTb _ _ m1).
    rewrite <- (app_nil_l [hn]). apply (host_step_trans _ m2); [by split|].
    eapply (set_host_step _ hn hp); [done|by rewrite <- Hs1| |].
    + case_if; simpl; [rewrite (proj2 (proj2 (full_keeps_remote _)))|]; congruence.
    + case_if; simpl; by rewrite Hc1.
  - set (m2 := set_queues _ _).
    rewrite <- (app_nil_l [hn]). apply (host_step_trans _ m2).
    { split; try done. by apply queue_reason_step. }
    eapply (set_host_step _ hn hp); [done|by rewrite <- Hs1| |].
    + case_if; simpl; [rewrite (proj2 (proj2 (full_keeps_remote _)))|]; congruence.
    + case_if; simpl; by rewrite Hc1.
Qed.

Lemma skip_remote_step m hn hp d : hosts m !! hn = Some hp ->
  has (h_hStatus hp) HOST_STAT_REMOTE = true -> host_step m m [hn] d.
Proof.
  intros Hn Hr. split; try done. unfold add_all. simpl. symmetry. apply map_eq. intros k.
  destruct (decide (hn = k)) as [<-|]; [|by rewrite lookup_alter_ne].
  unfold h_view. by rewrite lookup_alter_eq, lookup_omap, Hn; simpl; rewrite Hr.
Qed.

Lemma upd_hosts_step jp d hs m :
  Forall (fun h => is_Some (hosts m !! h)) hs ->
  host_step m (upd_hosts jp d m hs) hs (host_delta d).
Proof.
  revert m. induction hs as [|hn hs IH]; intros m Hf; [by split|].
  inversion Hf as [|? ? [hp Hn] Hf']; subst. simpl. rewrite Hn.
  destruct (has (h_hStatus hp) HOST_STAT_REMOTE) eqn:Hr.
  - eapply (host_step_trans _ m _ [hn] hs); [by eapply skip_remote_step|by apply IH].
  - pose proof (upd_host_step jp d m hn hp Hn Hr) as H1.
    eapply (host_step_trans _ _ _ [hn] hs); [exact H1|]. apply IH.
    eapply Forall_impl; [exact Hf'|]. intros h. simpl. rewrite <- !elem_of_dom.
    by rewrite (hs_dom _ _ _ _ H1).
Qed.

(** ** The three updates together *)

(** The environment of a job is not affected. *)
Definition same_env (m m' : mbd) : Prop :=
  dom (users m') = dom (users m) /\ dom (hosts m') = dom (hosts m) /\
  usergroups m' = usergroups m /\ mSchedStage m' = mSchedStage m /\
  forall n, ugroups m' n = ugroups m n.

Lemma same_env_refl m : same_env m m.
Proof. by split_and!. Qed.

Lemma same_env_trans m1 m2 m3 : same_env m1 m2 -> same_env m2 m3 -> same_env m1 m3.
Proof. unfold same_env. intros (?&?&?&?&?) (?&?&?&?&?). split_and!; congruence. Qed.

Lemma same_env_groups m m' : same_env m m' -> groups_known m -> groups_known m'.
Proof.
  intros (Hd & _ & Hu & _) Hk. unfold groups_known. rewrite Hu.
  eapply Forall_impl; [exact Hk|]. intros g. simpl. rewrite <- !elem_of_dom. by rewrite Hd.
Qed.

Lemma same_env_user m m' n : same_env m m' -> is_Some (users m !! n) -> is_Some (users m' !! n).
Proof. intros (Hd & _). rewrite <- !elem_of_dom. by rewrite Hd. Qed.

Lemma same_env_hosts m m' l : same_env m m' ->
  Forall (fun h => is_Some (hosts m !! h)) l -> Forall (fun h => is_Some (hosts m' !! h)) l.
Proof.
  intros (_ & Hd & _) Hf. eapply Forall_impl; [exact Hf|]. intros h. simpl.
  rewrite <- !elem_of_dom. by rewrite Hd.
Qed.

Lemma same_env_job m m' j : same_env m m' -> wf_job m j -> wf_job m' j.
Proof.
  intros He [Hn Hu Hh]. split; [done|by eapply same_env_user|by eapply same_env_hosts].
Qed.

(** One update of all counters: the queue, the users and the hosts of [jp] get
    the differences [d] and [dh]; the hosts may be left alone when [dh] is
    zero. *)
Record job_step (m m' : mbd) (jp : jData) (d dh : counts) : Prop := {
  js_env : same_env m m';
  js_q : q_view m' = add_all [qPtr jp] d (q_view m);
  js_u : u_view m' = add_all (uPtr jp :: ugroups m (uPtr jp)) d (u_view m);
  js_h : h_view m' = add_all (hlist jp) dh (h_view m) \/ (dh = czero /\ h_view m' = h_view m) }.

Lemma queue_env m jp d : same_env m (updQaccount getQUsable m jp d).
Proof. by split_and!. Qed.

Lemma user_env m m' ts d : user_step m m' ts d -> same_env m m'.
Proof. intros []. split_and!; try done. congruence. Qed.

Lemma host_env m m' ts d : host_step m m' ts d -> same_env m m'.
Proof. intros []. by split_and!. Qed.

Lemma QU_views m jp d : wf_job m jp -> groups_known m ->
  let m' := updUserData uninit (updQaccount getQUsable m jp d) jp d in
  same_env m m' /\ q_view m' = add_all [qPtr jp] d (q_view m) /\
  u_view m' = add_all (uPtr jp :: ugroups m (uPtr jp)) d (u_view m) /\ h_view m' = h_view m.
Proof.
  intros [_ Hu _] Hk. simpl. set (m1 := updQaccount getQUsable m jp d).
  pose proof (updUserData_step m1 jp d Hu Hk) as H2. split_and!.
  - eapply same_env_trans; [apply queue_env|by eapply user_env].
  - unfold q_view. rewrite (us_queues _ _ _ _ H2). apply updQaccount_q_view.
  - apply (us_view _ _ _ _ H2).
  - unfold h_view. by rewrite (us_hosts _ _ _ _ H2).
Qed.

Lemma QU_step m jp d : wf_job m jp -> groups_known m ->
  job_step m (updUserData uninit (updQaccount getQUsable m jp d) jp d) jp d czero.
Proof. intros Hj Hk. destruct (QU_views m jp d Hj Hk) as (?&?&?&?). split; try done. by right. Qed.

Lemma QUH_step m jp d nj nr ns nu nv : wf_job m jp -> groups_known m ->
  job_step m (updHostData (updUserData uninit (updQaccount getQUsable m jp d) jp d) jp nj nr ns nu nv)
    jp d (Counts nj 0 nr ns nu nv).
Proof.
  intros Hj Hk. destruct (QU_views m jp d Hj Hk) as (He & Hq & Hu & Hh).
  set (m2 := updUserData uninit (updQaccount getQUsable m jp d) jp d) in *.
  destruct Hj as [_ _ Hhosts].
  pose proof (upd_hosts_step jp (Counts nj 0 nr ns nu nv) (hlist jp) m2
                (same_env_hosts _ _ _ He Hhosts)) as H3.
  change (host_delta (Counts nj 0 nr ns nu nv)) with (Counts nj 0 nr ns nu nv) in H3. split.
  - eapply same_env_trans; [exact He|by eapply host_env].
  - unfold updHostData. by rewrite (hs_q _ _ _ _ H3).
  - unfold updHostData. by rewrite (hs_u _ _ _ _ H3).
  - left. unfold updHostData. by rewrite (hs_view _ _ _ _ H3), Hh.
Qed.

Lemma QHU_step m jp d nj nr ns nu nv : wf_job m jp -> groups_known m ->
  job_step m (updUserData uninit (updHostData (updQaccount getQUsable m jp d) jp nj nr ns nu nv) jp d)
    jp d (Counts nj 0 nr ns nu nv).
Proof.
  intros [_ Hu Hhosts] Hk. set (m1 := updQaccount getQUsable m jp d).
  pose proof (upd_hosts_step jp (Counts nj 0 nr ns nu nv) (hlist jp) m1 Hhosts) as H2.
  change (host_delta (Counts nj 0 nr ns nu nv)) with (Counts nj 0 nr ns nu nv) in H2.
  fold (updHostData m1 jp nj nr ns nu nv) in H2. set (m2 := updHostData m1 jp nj nr ns nu nv) in *.
  assert (same_env m1 m2) as He2 by by eapply host_env.
  pose proof (updUserData_step m2 jp d (same_env_user _ _ _ He2 Hu) (same_env_groups _ _ He2 Hk)) as H3.
  split.
  - eapply same_env_trans; [apply queue_env|]. eapply same_env_trans; [exact He2|by eapply user_env].
  - unfold q_view at 1. rewrite (us_queues _ _ _ _ H3). fold (q_view m2).
    rewrite (hs_q _ _ _ _ H2). apply updQaccount_q_view.
  - rewrite (us_view _ _ _ _ H3), (hs_u _ _ _ _ H2), (hs_groups _ _ _ _ H2). done.
  - left. unfold h_view at 1. rewrite (us_hosts _ _ _ _ H3). apply (hs_view _ _ _ _ H2).
Qed.

(** ** The invariant is preserved *)

Lemma job_weight_nonneg m j : wf_job m j -> cnonneg (job_weight j).
Proof.
  intros [Hn _ _]. unfold job_weight, slot_weight, numHostPtr in *.
  case_ifs; unfold cnonneg; simpl; lia.
Qed.

Lemma host_weight_nonneg s : cnonneg (host_weight s).
Proof. unfold host_weight. case_ifs; unfold cnonneg; simpl; lia. Qed.

Lemma items_nonneg m (f : jData -> item) J :
  (forall j, wf_job m j -> cnonneg (snd (f j))) -> Forall (wf_job m) J -> all_nonneg (f <$> J).
Proof. intros Hf HJ. apply Forall_fmap. eapply Forall_impl; [exact HJ|]. intros j. apply Hf. Qed.

Lemma u_item_env m m' j : same_env m m' -> u_item m' j = u_item m j.
Proof. intros (_ & _ & _ & _ & Hg). unfold u_item. by rewrite Hg. Qed.

Lemma u_items_env m m' (J : list jData) : same_env m m' -> u_item m' <$> J = u_item m <$> J.
Proof. intros He. apply list_fmap_ext. intros i j _. by apply u_item_env. Qed.

(** The invariant with one item given by its queue, user, hosts and weights. *)
Record accounted_with (m : mbd) (l1 l2 : list jData) (q u : cstr) (hs : list cstr)
    (w hw : counts) : Prop := {
  aw_q : recount (q_view m) ((q_item <$> l1) ++ ([q], w) :: (q_item <$> l2));
  aw_u : recount (u_view m) ((u_item m <$> l1) ++ (u :: ugroups m u, w) :: (u_item m <$> l2));
  aw_h : recount (h_view m) ((h_item <$> l1) ++ (hs, hw) :: (h_item <$> l2)) }.

Lemma accounted_with_job m l1 j l2 :
  accounted m (l1 ++ j :: l2) <->
  accounted_with m l1 l2 (qPtr j) (uPtr j) (hlist j) (job_weight j) (host_weight (jStatus j)).
Proof. split; intros []; split; rewrite ?fmap_app in *; assumption. Qed.

(** An item of weight zero may change its queue. *)
Lemma accounted_with_queue m l1 l2 q q' u hs hw :
  accounted_with m l1 l2 q u hs czero hw -> accounted_with m l1 l2 q' u hs czero hw.
Proof. intros []. split; [by eapply recount_zero|done..]. Qed.

(** The weights of the item change by what was added. *)
Lemma accounted_with_step m m' l1 l2 j w hw d dh :
  accounted_with m l1 l2 (qPtr j) (uPtr j) (hlist j) w hw -> Forall (wf_job m) (l1 ++ l2) ->
  job_step m m' j d dh -> cnonneg w -> cnonneg (cadd w d) -> cnonneg hw -> cnonneg (cadd hw dh) ->
  accounted_with m' l1 l2 (qPtr j) (uPtr j) (hlist j) (cadd w d) (cadd hw dh).
Proof.
  intros [Hq Hu Hh] HJ [He Sq Su Sh] Hw Hwd Hhw Hhwd.
  pose proof (items_nonneg m q_item _ (job_weight_nonneg m) HJ) as Nq.
  pose proof (items_nonneg m (u_item m) _ (job_weight_nonneg m) HJ) as Nu.
  pose proof (items_nonneg m h_item _ (fun j _ => host_weight_nonneg (jStatus j)) HJ) as Nh.
  rewrite fmap_app in Nq, Nu, Nh. split.
  - rewrite Sq. by apply recount_step.
  - rewrite !(u_items_env m m') by done. destruct He as (_ & _ & _ & _ & Hg). rewrite Su, Hg.
    by apply recount_step.
  - destruct Sh as [-> | [-> ->]]; [by apply recount_step|]. by rewrite cadd_comm, cadd_0_l.
Qed.

(** ** Changes of state *)

(** The changes of state that [updCounters] counts: it ignores those of a
    finished job, a started job does not become PSUSP, and a job in PSUSP is not
    suspended without being started or released first. *)
Definition counted (oldStatus newStatus : Z) : bool :=
  if IS_FINISH oldStatus then IS_FINISH newStatus
  else if has newStatus JOB_STAT_PSUSP then negb (IS_START oldStatus)
  else if has newStatus JOB_STAT_SSUSP || has newStatus JOB_STAT_USUSP
       then negb (has oldStatus JOB_STAT_PSUSP)
  else true.

(** A step with the differences of the weights, or no step between equal
    weights. *)
Definition weight_step (m m' : mbd) (j : jData) (s0 s1 : Z) : Prop :=
  exists d dh,
    (job_step m m' j d dh \/ (m' = m /\ d = czero /\ dh = czero)) /\
    slot_weight s1 (numHostPtr j) (maxNumProcessors j)
      = cadd (slot_weight s0 (numHostPtr j) (maxNumProcessors j)) d /\
    host_weight s1 = cadd (host_weight s0) dh.

Ltac weights := split; apply counts_eq; simpl; lia.

Ltac weight_case :=
  first
    [ eexists _, _; split; [left; apply QUH_step; assumption|weights]
    | eexists _, _; split; [left; apply QHU_step; assumption|weights]
    | eexists _, _; split; [left; apply QU_step; assumption|weights]
    | eexists czero, czero; split; [right; split_and!; reflexivity|weights] ].

(** The conditions on constants that are left when both states are known. *)
Ltac eval_conds :=
  eval_has;
  repeat match goal with
  | |- context [?a =? ?b] =>
      is_const a; is_const b; let v := eval vm_compute in (a =? b) in change (a =? b) with v
  end; cbn [orb andb negb].

Lemma updCounters_weights m j s0 : wf_job m j -> groups_known m ->
  wf_status s0 -> wf_status (jStatus j) ->
  has s0 JOB_STAT_RESERVE = false -> has (jStatus j) JOB_STAT_RESERVE = false ->
  counted s0 (jStatus j) = true ->
  weight_step m (updCounters getQUsable uninit m j s0) j s0 (jStatus j).
Proof.
  intros Hj Hk Hw0 Hw1 Hr0 Hr1 Hc. unfold weight_step, updCounters, counted in *.
  unfold slot_weight, host_weight. rewrite Hr0, Hr1. fold (status_of (jStatus j)) (status_of s0).
  status_cases s0; status_cases (jStatus j); eval_has; try discriminate Hc; eval_conds; weight_case.
Qed.

(** The same for every number of requested processors. *)
Definition res_step (m m' : mbd) (j : jData) (s0 s1 : Z) : Prop :=
  exists d dh,
    (job_step m m' j d dh \/ (m' = m /\ d = czero /\ dh = czero)) /\
    (forall req, slot_weight s1 (numHostPtr j) req = cadd (slot_weight s0 (numHostPtr j) req) d) /\
    host_weight s1 = cadd (host_weight s0) dh.

Ltac res_case :=
  first
    [ eexists _, _; split; [left; apply QUH_step; assumption|]
    | eexists _, _; split; [left; apply QHU_step; assumption|]
    | eexists czero, czero; split; [right; split_and!; reflexivity|] ];
  split; [intros req|]; apply counts_eq; simpl; lia.

Lemma updResCounters_weights m j s1 newStatus : wf_job m j -> groups_known m ->
  wf_status (jStatus j) -> status_of s1 = status_of (jStatus j) ->
  has s1 JOB_STAT_RESERVE = negb (has (jStatus j) JOB_STAT_RESERVE) ->
  has newStatus JOB_STAT_RESERVE = has s1 JOB_STAT_RESERVE ->
  (IS_PEND (jStatus j) = true -> IS_PEND newStatus = true) ->
  (IS_START (jStatus j) = true -> IS_START newStatus = true) ->
  res_step m (updResCounters getQUsable uninit m j newStatus) j (jStatus j) s1.
Proof.
  intros Hj Hk Hw0 Hst Hr Hn Hp Hs. unfold res_step, updResCounters, slot_weight, host_weight.
  rewrite Hn, Hst, Hr. fold (status_of (jStatus j)).
  destruct (has (jStatus j) JOB_STAT_RESERVE) eqn:Hr0; cbn [negb];
    revert Hp Hs; generalize (IS_PEND newStatus) as np, (IS_START newStatus) as ns; intros np ns;
    status_cases (jStatus j); eval_has; cbn [orb]; intros Hp Hs;
    rewrite ?Hp, ?Hs by reflexivity; eval_conds; res_case.
Qed.

Lemma res_step_weight m m' j s0 s1 : res_step m m' j s0 s1 -> weight_step m m' j s0 s1.
Proof. intros (d & dh & Hs & Hw & Hh). by exists d, dh. Qed.

(** The invariant after a [weight_step] of one job. *)
Lemma weight_step_accounted m m' l1 j s1 l2 :
  accounted m (l1 ++ j :: l2) -> Forall (wf_job m) (l1 ++ j :: l2) ->
  weight_step m m' (j_set_status s1 j) (jStatus j) s1 ->
  accounted m' (l1 ++ j_set_status s1 j :: l2).
Proof.
  intros Ha Hf (d & dh & Hs & Hw & Hh).
  apply Forall_app in Hf as [Hf1 Hf2]. inversion Hf2 as [|? ? Hj Hf2']; subst.
  assert (wf_job m (j_set_status s1 j)) as Hj' by by destruct Hj.
  assert (Forall (wf_job m) (l1 ++ l2)) as HJ by by apply Forall_app.
  rewrite accounted_with_job in Ha |- *.
  change (job_weight (j_set_status s1 j)) with
    (slot_weight s1 (numHostPtr j) (maxNumProcessors j)) in *.
  change (host_weight (jStatus (j_set_status s1 j))) with (host_weight s1).
  pose proof (job_weight_nonneg m j Hj) as Nw. pose proof (job_weight_nonneg m _ Hj') as Nw'.
  change (slot_weight s1 (numHostPtr j) (maxNumProcessors j) =
          cadd (job_weight j) d) in Hw. unfold job_weight in Nw' at 1. simpl in Nw'.
  change (cnonneg (slot_weight s1 (numHostPtr j) (maxNumProcessors j))) in Nw'.
  rewrite Hw in *. pose proof (host_weight_nonneg s1) as Nh. rewrite Hh in *.
  destruct Hs as [Hs|(-> & -> & ->)]; [|by rewrite !(cadd_comm _ czero), !cadd_0_l].
  apply (accounted_with_step m m' l1 l2 (j_set_status s1 j)); try done. apply host_weight_nonneg.
Qed.

(** The counters do not depend on the status of the job that triggers the
    update, except for the accounts of reserved slots. *)
Lemma job_step_status m m' j s d dh : job_step m m' j d dh -> job_step m m' (j_set_status s j) d dh.
Proof. intros []. by split. Qed.

Lemma weight_step_status m m' j s s0 s1 :
  weight_step m m' j s0 s1 -> weight_step m m' (j_set_status s j) s0 s1.
Proof.
  intros (d & dh & [Hs|Hs] & Hw & Hh); exists d, dh; (split; [|done]).
  - left. by apply job_step_status.
  - by right.
Qed.

(** C14: Incremental accounting is exact: if every counter of every
    queue, user, user group and (local) host equals the recount over the jobs,
    then after a job changes from any state to any other state that
    [updCounters] counts, the counters it has updated equal the recount over the
    jobs with the new state; in particular no counter ever had to be reset from
    a negative value.  A job counts its requested processors while it is
    pending and the slots it holds once it is started. *)
Theorem updCounters_recount m l1 j l2 newStatus :
  accounted m (l1 ++ j :: l2) -> Forall (wf_job m) (l1 ++ j :: l2) -> groups_known m ->
  wf_status (jStatus j) -> wf_status newStatus ->
  has (jStatus j) JOB_STAT_RESERVE = false -> has newStatus JOB_STAT_RESERVE = false ->
  counted (jStatus j) newStatus = true ->
  let j' := j_set_status newStatus j in
  accounted (updCounters getQUsable uninit m j' (jStatus j)) (l1 ++ j' :: l2).
Proof.
  intros Ha Hf Hk Hw0 Hw1 Hr0 Hr1 Hc j'. apply weight_step_accounted with (m := m); [done..|].
  assert (wf_job m j') as Hj'.
  { apply Forall_app in Hf as [_ Hf]. inversion Hf as [|? ? []]; subst. by split. }
  exact (updCounters_weights m j' (jStatus j) Hj' Hk Hw0 Hw1 Hr0 Hr1 Hc).
Qed.

(** C29: Slot reservation is counted exactly: when a job, pending
    or suspended, reserves its slots or gives them up (the status [s1] has the
    RESERVE flag flipped and is otherwise the same), [updResCounters] moves the
    slots between the pending, suspended and reserved counters so that all
    counters again equal the recount, for the new status passed by any caller:
    it must agree on the flag and stay in the same class of states. *)
Theorem updResCounters_recount m l1 j l2 s1 newStatus :
  accounted m (l1 ++ j :: l2) -> Forall (wf_job m) (l1 ++ j :: l2) -> groups_known m ->
  wf_status (jStatus j) -> status_of s1 = status_of (jStatus j) ->
  has s1 JOB_STAT_RESERVE = negb (has (jStatus j) JOB_STAT_RESERVE) ->
  has newStatus JOB_STAT_RESERVE = has s1 JOB_STAT_RESERVE ->
  (IS_PEND (jStatus j) = true -> IS_PEND newStatus = true) ->
  (IS_START (jStatus j) = true -> IS_START newStatus = true) ->
  accounted (updResCounters getQUsable uninit m j newStatus) (l1 ++ j_set_status s1 j :: l2).
Proof.
  intros Ha Hf Hk Hw0 Hst Hr Hn Hp Hs. apply weight_step_accounted with (m := m); [done..|].
  apply weight_step_status, res_step_weight. apply updResCounters_weights; try done.
  apply Forall_app in Hf as [_ Hf]. by inversion Hf.
Qed.

(** ** Moving a job to another queue *)

Lemma mask_unkwn s :
  MASK_STATUS s = if has s JOB_STAT_UNKWN then Z.lor (status_of s) JOB_STAT_UNKWN else status_of s.
Proof.
  unfold status_of, MASK_STATUS. destruct (has s JOB_STAT_UNKWN) eqn:H.
  - apply has_spec in H. apply Z.bits_inj'. intros i Hi.
    rewrite Z.lor_spec, !Z.land_spec. unfold clr. rewrite Z.land_spec, Z.lnot_spec by done.
    destruct (Z.eq_dec i 16) as [->|Hne].
    + change (Z.testbit JOB_STAT_UNKWN 16) with true. change (Z.testbit MASK_INT_JOB_STAT 16) with true.
      destruct (Z.testbit s 16) eqn:Hb; [reflexivity|]. exfalso. apply H. apply Z.bits_inj'. intros k Hk.
      rewrite Z.land_spec, Z.bits_0. change JOB_STAT_UNKWN with (2 ^ 16).
      rewrite Z.pow2_bits_eqb by lia. destruct (Z.eqb_spec 16 k) as [<-|]; [by rewrite Hb|apply andb_false_r].
    + change JOB_STAT_UNKWN with (2 ^ 16). rewrite Z.pow2_bits_false by lia.
      by rewrite andb_true_r, orb_false_r.
  - apply has_false in H. f_equal. unfold clr. apply Z.bits_inj'. intros i Hi.
    apply (f_equal (fun z => Z.testbit z i)) in H. rewrite Z.land_spec, Z.bits_0 in H.
    rewrite Z.land_spec, Z.lnot_spec by done. destruct (Z.testbit s i), (Z.testbit JOB_STAT_UNKWN i); simpl in *; congruence.
Qed.

Lemma wf_job_queue m q j : wf_job m j -> wf_job m (j_set_qPtr q j).
Proof. intros []. by split. Qed.

(** The job's contribution is taken out of the old queue, then put into the new
    one. *)
Lemma move_step m m1 m2 l1 l2 jp qfp qtp w w' hw d dh :
  accounted_with m l1 l2 qfp (uPtr jp) (hlist jp) w hw ->
  Forall (wf_job m) (l1 ++ l2) ->
  job_step m m1 (j_set_qPtr qfp jp) d dh -> job_step m1 m2 (j_set_qPtr qtp jp) w' hw ->
  cadd w d = czero -> cadd hw dh = czero -> cnonneg w -> cnonneg w' -> cnonneg hw ->
  accounted_with m2 l1 l2 qtp (uPtr jp) (hlist jp) w' hw /\ same_env m m2.
Proof.
  intros Ha HJ S1 S2 Ew Eh Nw Nw' Nh.
  assert (cnonneg czero) as N0 by (unfold cnonneg; simpl; lia).
  pose proof (js_env _ _ _ _ _ S1) as E1. pose proof (js_env _ _ _ _ _ S2) as E2.
  pose proof (accounted_with_step m m1 l1 l2 (j_set_qPtr qfp jp) w hw d dh Ha HJ S1 Nw) as H1.
  rewrite Ew, Eh in H1. specialize (H1 N0 Nh N0). simpl in H1.
  apply (accounted_with_queue _ _ _ _ qtp) in H1.
  assert (Forall (wf_job m1) (l1 ++ l2)) as HJ1.
  { eapply Forall_impl; [exact HJ|]. intros j. by apply same_env_job. }
  pose proof (accounted_with_step m1 m2 l1 l2 (j_set_qPtr qtp jp) czero czero w' hw H1 HJ1 S2 N0) as H2.
  rewrite !cadd_0_l in H2. split; [by apply H2|by eapply same_env_trans].
Qed.

(** The moves of [switch_account]. *)
Lemma move_QU m l1 l2 jp qfp qtp w w' d : 
  accounted_with m l1 l2 qfp (uPtr jp) (hlist jp) w czero -> Forall (wf_job m) (l1 ++ l2) ->
  groups_known m -> wf_job m jp -> cadd w d = czero -> cnonneg w -> cnonneg w' ->
  let jf := j_set_qPtr qfp jp in
  let jt := j_set_qPtr qtp jp in
  let m1 := updUserData uninit (updQaccount getQUsable m jf d) jf d in
  let m2 := updUserData uninit (updQaccount getQUsable m1 jt w') jt w' in
  accounted_with m2 l1 l2 qtp (uPtr jp) (hlist jp) w' czero /\ same_env m m2.
Proof.
  intros Ha HJ Hk Hj Ew Nw Nw' jf jt m1 m2.
  assert (job_step m m1 jf d czero) as S1 by (apply QU_step; [by apply wf_job_queue|done]).
  pose proof (js_env _ _ _ _ _ S1) as E.
  assert (job_step m1 m2 jt w' czero) as S2.
  { apply QU_step; [by apply wf_job_queue; eapply same_env_job|by eapply same_env_groups]. }
  eapply move_step; try done.
Qed.

Lemma move_QHU m l1 l2 jp qfp qtp w w' d nr ns nu :
  0 <= nr -> 0 <= ns -> 0 <= nu ->
  accounted_with m l1 l2 qfp (uPtr jp) (hlist jp) w (Counts 1 0 nr ns nu 0) ->
  Forall (wf_job m) (l1 ++ l2) ->
  groups_known m -> wf_job m jp -> cadd w d = czero -> cnonneg w -> cnonneg w' ->
  let jf := j_set_qPtr qfp jp in
  let jt := j_set_qPtr qtp jp in
  let m1 := updUserData uninit (updHostData (updQaccount getQUsable m jf d) jf (-1) (- nr) (- ns) (- nu) 0) jf d in
  let m2 := updUserData uninit (updHostData (updQaccount getQUsable m1 jt w') jt 1 nr ns nu 0) jt w' in
  accounted_with m2 l1 l2 qtp (uPtr jp) (hlist jp) w' (Counts 1 0 nr ns nu 0) /\ same_env m m2.
Proof.
  intros ??? Ha HJ Hk Hj Ew Nw Nw' jf jt m1 m2.
  assert (job_step m m1 jf d (Counts (-1) 0 (- nr) (- ns) (- nu) 0)) as S1
    by (apply QHU_step; [by apply wf_job_queue|done]).
  pose proof (js_env _ _ _ _ _ S1) as E.
  assert (job_step m1 m2 jt w' (Counts 1 0 nr ns nu 0)) as S2.
  { apply QHU_step; [by apply wf_job_queue; eapply same_env_job|by eapply same_env_groups]. }
  eapply move_step; try done; first [counts|unfold cnonneg; simpl; lia].
Qed.

Lemma switch_account_spec m l1 l2 jp qfp qtp oldNumReq m' jp' :
  accounted_with m l1 l2 qfp (uPtr jp) (hlist jp)
    (slot_weight (jStatus jp) (numHostPtr jp) oldNumReq) (host_weight (jStatus jp)) ->
  Forall (wf_job m) (l1 ++ l2) -> groups_known m -> wf_job m jp -> 0 <= oldNumReq ->
  mSchedStage m <> M_STAGE_REPLAY ->
  wf_status (jStatus jp) -> has (jStatus jp) JOB_STAT_RESERVE = false ->
  (IS_PEND (jStatus jp) = true -> has (jStatus jp) JOB_STAT_UNKWN = false) ->
  switch_account getQUsable uninit m jp qfp qtp oldNumReq = (m', jp') ->
  accounted_with m' l1 l2 (qPtr jp') (uPtr jp) (hlist jp) (job_weight jp) (host_weight (jStatus jp))
  /\ same_env m m' /\ jp' = j_set_qPtr (qPtr jp') jp /\
  (IS_FINISH (jStatus jp) = false -> qPtr jp' = qtp).
Proof.
  intros Ha HJ Hk Hj Hold Hlive Hw Hr Hun. unfold switch_account, job_weight.
  rewrite mask_unkwn, (proj2 (Z.eqb_neq _ _) Hlive). cbn [negb].
  pose proof (job_weight_nonneg m jp Hj) as Nw. unfold job_weight in Nw.
  revert Ha Hun Nw. unfold slot_weight, host_weight. rewrite Hr.
  pose proof (wfj_num m jp Hj) as Hnum. assert (0 <= numHostPtr jp) as Hnn by (unfold numHostPtr; lia).
  destruct (has (jStatus jp) JOB_STAT_UNKWN) eqn:Hu; status_cases (jStatus jp);
    eval_conds; intros Ha Hun Nw;
    repeat match goal with
    | |- context [Z.lor ?a ?b =? ?c] =>
        let v := eval vm_compute in (Z.lor a b =? c) in change (Z.lor a b =? c) with v
    | |- context [?a =? Z.lor ?b ?c] =>
        let v := eval vm_compute in (a =? Z.lor b c) in change (a =? Z.lor b c) with v
    end; cbn [orb]; try (specialize (Hun eq_refl); discriminate Hun); intros [= <- <-].
  all: simpl qPtr; match goal with |- ?A /\ ?B /\ ?C => cut ((A /\ B) /\ C); [tauto|] end;
    (split; [|split; [done || by destruct jp|done]]).
  all: try (split; [by eapply accounted_with_queue|apply same_env_refl]).
  all: first
    [ apply (move_QU m l1 l2 jp qfp qtp _ _ _ Ha)
    | apply (move_QHU m l1 l2 jp qfp qtp _ _ _ 1 0 0 ltac:(lia) ltac:(lia) ltac:(lia) Ha)
    | apply (move_QHU m l1 l2 jp qfp qtp _ _ _ 0 1 0 ltac:(lia) ltac:(lia) ltac:(lia) Ha)
    | apply (move_QHU m l1 l2 jp qfp qtp _ _ _ 0 0 1 ltac:(lia) ltac:(lia) ltac:(lia) Ha) ];
    first [assumption | counts | unfold cnonneg; simpl; lia].
Qed.

(** The reservation flag is one bit. *)
Lemma reserve_flag s :
  status_of (clr s JOB_STAT_RESERVE) = status_of s /\
  has (clr s JOB_STAT_RESERVE) JOB_STAT_UNKWN = has s JOB_STAT_UNKWN /\
  status_of (Z.lor s JOB_STAT_RESERVE) = status_of s /\
  has (Z.lor s JOB_STAT_RESERVE) JOB_STAT_RESERVE = true /\
  (has s JOB_STAT_RESERVE = true -> Z.lor (clr s JOB_STAT_RESERVE) JOB_STAT_RESERVE = s).
Proof.
  split_and!.
  - unfold status_of, MASK_STATUS, clr. rewrite <- !Z.land_assoc. f_equal.
  - by apply has_clr_disjoint.
  - unfold status_of, MASK_STATUS, clr. rewrite <- !Z.land_assoc. by apply land_lor_disjoint.
  - by rewrite has_lor, orb_true_r.
  - intros H. apply has_spec in H. unfold clr. apply Z.bits_inj'. intros i Hi.
    rewrite Z.lor_spec, Z.land_spec, Z.lnot_spec by done. change JOB_STAT_RESERVE with (2 ^ 29) in *.
    rewrite Z.pow2_bits_eqb by lia. destruct (Z.eqb_spec 29 i) as [<-|]; [|by rewrite andb_true_r, orb_false_r].
    destruct (Z.testbit s 29) eqn:Hb; [done|]. exfalso. apply H. apply Z.bits_inj'. intros k Hk.
    rewrite Z.land_spec, Z.bits_0, Z.pow2_bits_eqb by lia.
    destruct (Z.eqb_spec 29 k) as [<-|]; [by rewrite Hb|apply andb_false_r].
Qed.

Lemma class_of_status s s' : status_of s = status_of s' ->
  IS_PEND s = IS_PEND s' /\ IS_START s = IS_START s' /\ IS_FINISH s = IS_FINISH s'.
Proof.
  intros H. unfold IS_PEND, IS_START, IS_FINISH.
  rewrite !(has_status_of s), !(has_status_of s') by reflexivity. by rewrite H.
Qed.

Lemma res_step_accounted m m' l1 l2 j s0 s1 req :
  accounted_with m l1 l2 (qPtr j) (uPtr j) (hlist j)
    (slot_weight s0 (numHostPtr j) req) (host_weight s0) ->
  Forall (wf_job m) (l1 ++ l2) -> numHostPtr j <= req -> res_step m m' j s0 s1 ->
  accounted_with m' l1 l2 (qPtr j) (uPtr j) (hlist j)
    (slot_weight s1 (numHostPtr j) req) (host_weight s1) /\ same_env m m'.
Proof.
  intros Ha HJ Hreq (d & dh & Hs & Hw & Hh).
  assert (forall s, cnonneg (slot_weight s (numHostPtr j) req)) as N.
  { intros s. unfold slot_weight, numHostPtr in *. case_ifs; unfold cnonneg; simpl; lia. }
  pose proof (N s1) as N1. pose proof (host_weight_nonneg s1) as Nh1. rewrite Hw in *. rewrite Hh in *.
  destruct Hs as [Hs|(-> & -> & ->)].
  - split; [|by eapply js_env]. apply accounted_with_step with (m := m); try done.
    apply host_weight_nonneg.
  - rewrite !(cadd_comm _ czero), !cadd_0_l. split; [done|apply same_env_refl].
Qed.

(** The job as it was in the old queue. *)
Definition old_job (jp : jData) (qfp : cstr) (oldNumReq : Z) : jData :=
  JData (jobId jp) (jStatus jp) qfp (uPtr jp) (userId jp) (hPtr jp) oldNumReq.

(** The move of a job that holds a reservation, in three parts: the reservation
    is given up in the old queue, the job moves, the reservation is made again. *)
Lemma switch_reserved m l1 jp l2 qfp qtp oldNumReq m' jp' :
  accounted m (l1 ++ old_job jp qfp oldNumReq :: l2) -> Forall (wf_job m) (l1 ++ l2) ->
  groups_known m -> wf_job m jp -> numHostPtr jp <= oldNumReq ->
  mSchedStage m <> M_STAGE_REPLAY ->
  wf_status (jStatus jp) -> IS_FINISH (jStatus jp) = false ->
  (IS_PEND (jStatus jp) = true -> has (jStatus jp) JOB_STAT_UNKWN = false) ->
  has (jStatus jp) JOB_STAT_RESERVE = true ->
  updSwitchJob getQUsable uninit m jp qfp qtp oldNumReq = (m', jp') ->
  accounted m' (l1 ++ jp' :: l2) /\ qPtr jp' = qtp /\ jStatus jp' = jStatus jp.
Proof.
  intros Ha HJ Hk Hj Hold Hlive Hw Hfin Hun Hr. apply accounted_with_job in Ha.
  assert (0 <= numHostPtr jp) as Hnn by (unfold numHostPtr; lia).
  unfold updSwitchJob. rewrite Hr. set (sc := clr (jStatus jp) JOB_STAT_RESERVE).
  destruct (reserve_flag (jStatus jp)) as (Hsc & Hun' & _ & _ & Hback). fold sc in Hsc, Hun', Hback.
  destruct (class_of_status sc (jStatus jp) Hsc) as (Cp & Cs & Cf).
  destruct (res_step_accounted m _ l1 l2 (j_set_qPtr qfp jp) (jStatus jp) sc oldNumReq Ha HJ Hold
              (updResCounters_weights m (j_set_qPtr qfp jp) sc sc (wf_job_queue _ _ _ Hj) Hk Hw Hsc
                 ltac:(simpl; rewrite Hr; apply clr_has) eq_refl
                 ltac:(simpl; congruence) ltac:(simpl; congruence))) as [A1 E1].
  set (m1 := updResCounters _ _ m (j_set_qPtr qfp jp) sc) in *.
  set (jp1 := j_set_status sc (j_set_qPtr qtp jp)).
  destruct (switch_account _ _ m1 jp1 qfp qtp oldNumReq) as [m2 jp2] eqn:Esw.
  assert (Forall (wf_job m1) (l1 ++ l2)) as HJ1.
  { eapply Forall_impl; [exact HJ|]. intros j. by apply same_env_job. }
  assert (wf_job m1 jp1) as Hj1.
  { destruct (same_env_job _ _ _ E1 Hj) as [? ? ?]. by split. }
  destruct (switch_account_spec m1 l1 l2 jp1 qfp qtp oldNumReq m2 jp2 A1 HJ1
              (same_env_groups _ _ E1 Hk) Hj1 ltac:(lia)) as (A2 & E2 & Ejp & Eq);
    [by destruct E1 as (_&_&_&->&_)|by unfold wf_status; simpl; rewrite Hsc|apply clr_has
    |by simpl; rewrite Cp, Hun'|exact Esw|].
  intros [= <- <-]. simpl jStatus in Eq. rewrite Cf in Eq. specialize (Eq Hfin).
  assert (jStatus jp2 = sc) as Hs2 by by rewrite Ejp.
  assert (Forall (wf_job m2) (l1 ++ l2)) as HJ2.
  { eapply Forall_impl; [exact HJ1|]. intros j. by apply same_env_job. }
  assert (wf_job m2 jp2) as Hj2.
  { rewrite Ejp. apply wf_job_queue. by eapply same_env_job. }
  destruct (reserve_flag sc) as (_ & _ & Hl1 & Hl2 & _).
  destruct (class_of_status _ _ Hl1) as (Dp & Ds & _).
  rewrite !Hs2, Hback in * by done.
  destruct (res_step_accounted m2 _ l1 l2 jp2 sc (jStatus jp) (maxNumProcessors jp2)
              ltac:(rewrite Ejp; exact A2) HJ2 (wfj_num _ _ Hj2)
              ltac:(rewrite <- Hs2; apply (updResCounters_weights m2 jp2 (jStatus jp) (jStatus jp) Hj2);
                    [by eapply same_env_groups; [|eapply same_env_groups]
                    |rewrite Hs2; unfold wf_status; by rewrite Hsc|by rewrite Hs2
                    |rewrite Hs2, Hr; subst sc; by rewrite clr_has|done
                    |rewrite Hs2; congruence|rewrite Hs2; congruence])) as [A3 _].
  split; [|done]. apply accounted_with_job. simpl. exact A3.
Qed.

(** C15: Moving a job between queues is counted exactly: when an
    unfinished job is switched from one queue to another, possibly the same one,
    possibly with another number of requested processors, and whether or not it
    holds reserved slots, [updSwitchJob] leaves every counter equal to the
    recount in which the job is in the new queue with the new number of
    processors; the job ends up in the new queue with its status unchanged. *)
Theorem updSwitchJob_recount m l1 jp l2 qfp qtp oldNumReq m' jp' :
  accounted m (l1 ++ old_job jp qfp oldNumReq :: l2) -> Forall (wf_job m) (l1 ++ l2) ->
  groups_known m -> wf_job m jp -> numHostPtr jp <= oldNumReq ->
  mSchedStage m <> M_STAGE_REPLAY ->
  wf_status (jStatus jp) -> IS_FINISH (jStatus jp) = false ->
  (IS_PEND (jStatus jp) = true -> has (jStatus jp) JOB_STAT_UNKWN = false) ->
  updSwitchJob getQUsable uninit m jp qfp qtp oldNumReq = (m', jp') ->
  accounted m' (l1 ++ jp' :: l2) /\ qPtr jp' = qtp /\ jStatus jp' = jStatus jp.
Proof.
  intros Ha HJ Hk Hj Hold Hlive Hw Hfin Hun Esw.
  destruct (has (jStatus jp) JOB_STAT_RESERVE) eqn:Hr; [by eapply switch_reserved|].
  unfold updSwitchJob in Esw. rewrite Hr in Esw. apply accounted_with_job in Ha.
  assert (0 <= numHostPtr jp) as Hnn by (unfold numHostPtr; lia).
  destruct (switch_account_spec m l1 l2 jp qfp qtp oldNumReq m' jp' Ha HJ Hk Hj ltac:(lia) Hlive Hw Hr Hun Esw)
    as (A & _ & Ejp & Eq). specialize (Eq Hfin). split; [|by rewrite Ejp].
  apply accounted_with_job. rewrite Ejp. exact A.
Qed.

(** ** Limits *)

(** [getQUsable] sets the reasons of hosts, whose indices start at 1, and no
    limit. *)
Hypothesis getQUsable_reason0 : forall m q, rget (q_reason (getQUsable m q)) 0 = rget (q_reason q) 0.

Lemma rget_set_ne q i v k : i <> k -> rget (q_reason (q_set_reason i v q)) k = rget (q_reason q) k.
Proof. intros H. unfold rget. simpl. by rewrite lookup_insert_ne. Qed.

Lemma CHECKQUSABLE_reason st o n q : q_reason (CHECKQUSABLE st o n q) = q_reason q.
Proof. unfold CHECKQUSABLE. by case_if. Qed.

Definition host_ids_ok (m : mbd) : Prop := forall n h, hosts m !! n = Some h -> 1 <= h_hostId h.

Lemma upd_q_host_reason0 m jp d q hn : host_ids_ok m ->
  rget (q_reason (upd_q_host m jp d q hn)) 0 = rget (q_reason q) 0.
Proof.
  intros Hid. unfold upd_q_host. destruct (hosts m !! hn) as [hp|] eqn:Hn; [|done].
  apply Hid in Hn. destruct (has _ HOST_STAT_REMOTE); [done|].
  destruct (upd_hacct _ _ _ _) as [tab f].
  destruct (_ && host_up hp);
    (destruct (_ && (_ || _)); rewrite !CHECKQUSABLE_reason, !rget_set_ne by lia;
     rewrite ?CHECKQUSABLE_reason, ?rget_set_ne by lia; done).
Qed.

Lemma updHAcct_q_reason0 m jp d q : host_ids_ok m ->
  rget (q_reason (updHAcct_q getQUsable m jp d q)) 0 = rget (q_reason q) 0.
Proof.
  intros Hid. unfold updHAcct_q. destruct (hPtr jp) as [hs|]; [|done].
  assert (forall q0, rget (q_reason (fold_left (upd_q_host m jp d) hs q0)) 0 = rget (q_reason q0) 0) as Hf.
  { induction hs as [|h hs IH]; intros q0; simpl; [done|]. by rewrite IH, upd_q_host_reason0. }
  case_if; simpl; [by rewrite getQUsable_reason0, Hf|by rewrite Hf].
Qed.

(** A queue with a limit on its slots is at the limit. *)
Definition queue_full (maxJobs : Z) (c : counts) : bool :=
  negb (maxJobs =? INFINIT_INT) && (maxJobs <=? numJobs c - numPEND c).

Lemma SET_REASON_iff b v r : r <> 0 -> (SET_REASON b v r = r <-> b = true).
Proof.
  intros Hr. unfold SET_REASON, CLEAR_REASON. destruct b; [done|].
  destruct (Z.eqb_spec v r); split; intros; try done; lia.
Qed.

(** The job slot limit of a queue is enforced through its pending
    reason: after any [updQaccount] the queue's reason is PEND_QUE_JOB_LIMIT if
    and only if the queue has a limit and the slots its jobs hold, by the
    updated counters, have reached it; a reason left by an earlier update is
    cleared as soon as a slot becomes free. *)
Theorem queue_limit_reason m jp d q :
  queues m !! qPtr jp = Some q -> host_ids_ok m -> q_maxJobs q <= INFINIT_INT ->
  exists q', queues (updQaccount getQUsable m jp d) !! qPtr jp = Some q' /\
    q_cnt q' = add_counts (q_cnt q) d /\
    (rget (q_reason q') 0 = PEND_QUE_JOB_LIMIT <-> queue_full (q_maxJobs q) (q_cnt q') = true).
Proof.
  intros Hq Hid Hmax. unfold updQaccount. simpl. rewrite lookup_alter_eq, Hq. simpl. eexists.
  split; [done|]. split; [apply updQaccount_q_cnt|]. rewrite updQaccount_q_cnt.
  unfold updQaccount_q. set (q1 := q_set_cnt _ q). set (q2 := q_set_reason 0 _ q1).
  assert (forall l q0, q_reason (fold_left (fun q grp =>
            q_set_uAcct (updUAcct_q jp (q_uJobLimit q) d grp) q) l q0) = q_reason q0) as Hf.
  { induction l as [|g l IH]; intros q0; simpl; [done|]. by rewrite IH. }
  assert (forall b q0, rget (q_reason (if b : bool then q0 else updHAcct_q getQUsable m jp d q0)) 0
            = rget (q_reason q0) 0) as Hh.
  { intros [] q0; [done|by apply updHAcct_q_reason0]. }
  rewrite Hh, Hf. unfold q2, rget at 1. simpl. rewrite lookup_insert_eq. simpl.
  rewrite SET_REASON_iff by done. unfold queue_full. fold (add_counts (q_cnt q) d).
  destruct (Z.eqb_spec (q_maxJobs q) INFINIT_INT) as [->|]; [done|]. simpl.
  rewrite !Z.leb_le. lia.
Qed.

(** *** Full hosts *)

Definition full_ok (h : hData) : Prop :=
  has (h_hStatus h) HOST_STAT_FULL = (h_maxJobs h <=? numJobs (h_cnt h)).

Lemma upd_host_at jp d m hn hp :
  exists hp', hosts (upd_host jp d m hn hp) = <[hn := hp']> (hosts m) /\ full_ok hp'.
Proof.
  assert (forall s, has (clr s HOST_STAT_EXCLUSIVE) HOST_STAT_FULL = has s HOST_STAT_FULL) as Hx
    by (intros s; by apply has_clr_disjoint).
  assert (forall s, has (Z.lor s HOST_STAT_FULL) HOST_STAT_FULL = true) as Hf
    by (intros s; by rewrite has_lor, orb_true_r).
  assert (exists hp1 m1, forall X : hData -> mbd -> mbd, (let '(hp, m) :=
    if (h_uJobLimit hp <? INFINIT_INT) && negb (no_slots d) then
      match users m !! uPtr jp with
      | Some u =>
          let '(tab, u) := updUAcct_h jp hp (Counts 0 0 (numRUN d) (numSSUSP d) (numUSUSP d)
                                               (numRESERVE d)) (uPtr jp) u (h_uAcct hp) in
          (h_set_uAcct tab hp, set_users (<[uPtr jp := u]>) m)
      | None => (hp, m)
      end
    else (hp, m) in X hp m) = X hp1 m1 /\ hosts m1 = hosts m)
    as (hp1 & m1 & E).
  { case_if; [|by exists hp, m]. destruct (users m !! uPtr jp); [|by exists hp, m].
    destruct (updUAcct_h _ _ _ _ _ _) as [tab u']. by eexists _, _. }
  unfold upd_host. destruct (E (fun _ m => m)) as (_ & Hh). rewrite (proj1 (E _)). clear E.
  unfold full_ok.
  destruct (h_maxJobs _ <=? numJobs _) eqn:Hm; simpl in Hm |- *; rewrite Hh;
    case_if; eexists; (split; [done|]); simpl in *;
    by rewrite Hm, ?Hx, ?Hf, ?clr_has.
Qed.

(** The loop establishes [full_ok] on the hosts it visits and keeps it on those
    that had it. *)
Lemma upd_hosts_full jp d hs m (P : cstr -> Prop) :
  Forall (fun h => is_Some (hosts m !! h)) hs ->
  (forall hn h, P hn -> hosts m !! hn = Some h -> has (h_hStatus h) HOST_STAT_REMOTE = false -> full_ok h) ->
  forall hn h, P hn \/ hn ∈ hs -> hosts (upd_hosts jp d m hs) !! hn = Some h ->
    has (h_hStatus h) HOST_STAT_REMOTE = false -> full_ok h.
Proof using Type.
  clear getQUsable_cnt getQUsable_reason0 getQUsable uninit. revert m P.
  induction hs as [|k hs IH]; intros m P Hf HP hn h Hin; simpl.
  { destruct Hin as [Hin|Hin]; [by apply HP|by apply not_elem_of_nil in Hin]. }
  inversion Hf as [|? ? [hp Hk] Hf']; subst. rewrite Hk. rewrite elem_of_cons in Hin.
  destruct (has (h_hStatus hp) HOST_STAT_REMOTE) eqn:Hr.
  - apply (IH m (fun x => P x \/ x = k)); [done| |tauto].
    intros x y [Hx| ->] Hy Hy'; [by eapply HP|]. rewrite Hk in Hy. injection Hy as <-. congruence.
  - destruct (upd_host_at jp d m k hp) as (hp' & Hh & Hok).
    apply (IH _ (fun x => P x \/ x = k)); [| |tauto].
    + rewrite Hh. eapply Forall_impl; [exact Hf'|]. intros x. simpl. rewrite lookup_insert_is_Some.
      destruct (decide (k = x)); [by left|by right].
    + intros x y Hx Hy Hy'. rewrite Hh in Hy. destruct (decide (k = x)) as [->|Hne].
      * rewrite lookup_insert_eq in Hy. by injection Hy as <-.
      * rewrite lookup_insert_ne in Hy by done. destruct Hx as [Hx| ->]; [by eapply HP|done].
Qed.

(** A host's FULL flag follows its counter: after the slots of a job
    have been counted on its hosts, every one of them that is local has
    HOST_STAT_FULL set exactly when its number of jobs has reached its maximum,
    however often it occurs in the list and whatever the flag was before. *)
Theorem host_full_flag m jp nj nr ns nu nv :
  Forall (fun h => is_Some (hosts m !! h)) (hlist jp) ->
  forall hn h, hn ∈ hlist jp ->
    hosts (updHostData m jp nj nr ns nu nv) !! hn = Some h ->
    has (h_hStatus h) HOST_STAT_REMOTE = false -> full_ok h.
Proof using Type.
  intros Hf hn h Hin. unfold updHostData.
  apply (upd_hosts_full jp _ (hlist jp) m (fun _ => False) Hf); [done|by right].
Qed.
End Facts.

(** ** Witnesses: one queue, one user in one group, one host, one job *)

Definition demo_usable (_ : mbd) (q : qData) : qData := q.
Definition alice : cstr := lit "alice".
Definition staff : cstr := lit "staff".
Definition normal : cstr := lit "normal".
Definition night : cstr := lit "night".
Definition hostA : cstr := lit "hostA".

Definition demo_queue (c : counts) : qData :=
  QData c 4 INFINIT_INT INFINIT_FLOAT INFINIT_INT 0 ∅ ∅ ∅ 0.
Definition demo_user (c : counts) : uData := UData c INFINIT_INT INFINIT_FLOAT 0 ∅ [] [] 0 ∅.

Definition demo_mbd (w hw : counts) : mbd :=
  Mbd (<[night := demo_queue czero]> {[normal := demo_queue w]})
      (<[staff := demo_user w]> {[alice := demo_user w]})
      {[hostA := HData hw 1 0 0 4 2 INFINIT_INT ∅]} ∅ [GData staff [alice] []] 0.

Definition demo_job (s : Z) : jData := JData 7 s normal alice 500 (Some [hostA; hostA]) 2.

(** Weights of the single job of the example. *)
Lemma demo_total n ts w k : occ n ts = k -> total n [(ts, w)] = ctimes k w.
Proof. intros <-. cbn [total]. by rewrite cadd_comm, cadd_0_l. Qed.

Lemma ctimes_1 w : ctimes 1 w = w.
Proof. counts. Qed.

Lemma demo_accounted s w hw : job_weight (demo_job s) = w -> ctimes 2 (host_weight s) = hw ->
  accounted (demo_mbd w hw) [demo_job s].
Proof.
  intros Hw Hhw. split; cbn [fmap list_fmap];
    unfold q_item, u_item, h_item; rewrite ?Hw; change (jStatus (demo_job s)) with s.
  - intros n c. unfold q_view, demo_mbd. cbn [queues users hosts]. rewrite lookup_fmap.
    destruct (decide (n = night)) as [->|]; [by rewrite lookup_insert_eq; intros [= <-]|].
    rewrite lookup_insert_ne by done. destruct (decide (n = normal)) as [->|].
    + rewrite lookup_singleton_eq. intros [= <-]. by rewrite (demo_total _ _ _ 1), ctimes_1.
    + by rewrite lookup_singleton_ne.
  - intros n c. unfold u_view, demo_mbd. cbn [queues users hosts]. rewrite lookup_fmap.
    destruct (decide (n = staff)) as [->|].
    { rewrite lookup_insert_eq. intros [= <-]. by rewrite (demo_total _ _ _ 1), ctimes_1. }
    rewrite lookup_insert_ne by done. destruct (decide (n = alice)) as [->|].
    + rewrite lookup_singleton_eq. intros [= <-]. by rewrite (demo_total _ _ _ 1), ctimes_1.
    + by rewrite lookup_singleton_ne.
  - intros n c. unfold h_view, demo_mbd. cbn [queues users hosts]. rewrite lookup_omap.
    destruct (decide (n = hostA)) as [->|]; [|by rewrite lookup_singleton_ne].
    rewrite lookup_singleton_eq. intros [= <-]. by rewrite (demo_total _ _ _ 2).
Qed.

Lemma demo_wf s w hw : wf_job (demo_mbd w hw) (demo_job s).
Proof.
  split; [done| |].
  - by exists (demo_user w).
  - repeat constructor; by exists (HData hw 1 0 0 4 2 INFINIT_INT ∅).
Qed.

Lemma demo_groups w hw : groups_known (demo_mbd w hw).
Proof. repeat constructor. by exists (demo_user w). Qed.

(** The pending job asks for two processors; it is started on two slots of
    hostA. *)
Definition w_pend : counts := Counts 2 2 0 0 0 0.
Definition w_run : counts := Counts 2 0 2 0 0 0.

Lemma updCounters_recount_witness :
  accounted (updCounters demo_usable 0 (demo_mbd w_pend czero) (demo_job JOB_STAT_RUN) JOB_STAT_PEND)
    [demo_job JOB_STAT_RUN] /\
  q_view (updCounters demo_usable 0 (demo_mbd w_pend czero) (demo_job JOB_STAT_RUN) JOB_STAT_PEND)
    !! normal = Some w_run.
Proof.
  split; [|vm_compute; reflexivity].
  apply (updCounters_recount demo_usable 0 (fun _ _ => eq_refl) (demo_mbd w_pend czero) []
           (demo_job JOB_STAT_PEND) [] JOB_STAT_RUN).
  - apply demo_accounted; reflexivity.
  - constructor; [apply demo_wf|constructor].
  - apply demo_groups.
  - by apply (bool_decide_unpack _).
  - by apply (bool_decide_unpack _).
  - reflexivity.
  - reflexivity.
  - reflexivity.
Defined.

Lemma updResCounters_recount_witness :
  accounted (updResCounters demo_usable 0 (demo_mbd w_pend czero) (demo_job JOB_STAT_PEND)
               (Z.lor JOB_STAT_PEND JOB_STAT_RESERVE))
    [demo_job (Z.lor JOB_STAT_PEND JOB_STAT_RESERVE)].
Proof.
  apply (updResCounters_recount demo_usable 0 (fun _ _ => eq_refl) (demo_mbd w_pend czero) []
           (demo_job JOB_STAT_PEND) []).
  - apply demo_accounted; reflexivity.
  - constructor; [apply demo_wf|constructor].
  - apply demo_groups.
  - by apply (bool_decide_unpack _).
  - reflexivity.
  - reflexivity.
  - reflexivity.
  - reflexivity.
  - intros H. exact H.
Defined.

Lemma updSwitchJob_recount_witness :
  let r := updSwitchJob demo_usable 0 (demo_mbd w_run (Counts 2 0 2 0 0 0)) (demo_job JOB_STAT_RUN)
             normal night 2 in
  accounted (fst r) [snd r] /\ q_view (fst r) !! night = Some w_run.
Proof.
  intros r. split; [|vm_compute; reflexivity].
  refine (proj1 (updSwitchJob_recount demo_usable 0 (fun _ _ => eq_refl)
            (demo_mbd w_run (Counts 2 0 2 0 0 0)) [] (demo_job JOB_STAT_RUN) [] normal night 2
            (fst r) (snd r) _ _ _ _ _ _ _ _ _ _)).
  - apply demo_accounted; reflexivity.
  - constructor.
  - apply demo_groups.
  - apply demo_wf.
  - vm_compute. congruence.
  - discriminate.
  - by apply (bool_decide_unpack _).
  - reflexivity.
  - reflexivity.
  - unfold r. destruct (updSwitchJob _ _ _ _ _ _ _). reflexivity.
Defined.

Lemma demo_host_ids w hw : host_ids_ok (demo_mbd w hw).
Proof. intros n h Hn. simpl in Hn. apply lookup_singleton_Some in Hn as [_ <-]. done. Qed.

Lemma queue_limit_reason_witness :
  exists q', queues (updQaccount demo_usable (demo_mbd w_run czero) (demo_job JOB_STAT_RUN) w_run)
               !! normal = Some q' /\ rget (q_reason q') 0 = PEND_QUE_JOB_LIMIT.
Proof.
  destruct (queue_limit_reason demo_usable (fun _ _ => eq_refl) (fun _ _ => eq_refl)
              (demo_mbd w_run czero) (demo_job JOB_STAT_RUN) w_run (demo_queue w_run)
              eq_refl (demo_host_ids _ _) ltac:(vm_compute; congruence)) as (q' & Hq & Hc & Hr).
  exists q'. split; [exact Hq|]. apply Hr. rewrite Hc. reflexivity.
Defined.

Lemma host_full_flag_witness :
  exists h, hosts (updHostData (demo_mbd w_run czero) (demo_job JOB_STAT_RUN) 1 1 0 0 0) !! hostA = Some h
    /\ full_ok h /\ has (h_hStatus h) HOST_STAT_FULL = true.
Proof.
  eexists. split; [vm_compute; reflexivity|]. split; [|reflexivity].
  apply (host_full_flag (demo_mbd w_run czero) (demo_job JOB_STAT_RUN) 1 1 0 0 0
           (wfj_hosts _ _ (demo_wf JOB_STAT_RUN w_run czero)) hostA).
  - left.
  - vm_compute. reflexivity.
  - reflexivity.
Defined.
