(* ===== verification/Xdr.v ===== *)
(** * The XDR streams of the protocol (lib.xdr.c, lib.xdrmisc.c)

    Each XDR routine of the sources is one C function that encodes or decodes
    depending on [xdrs->x_op]; here it is one [codec], a term with an encoding
    and a decoding reading, written with a monad in the order of the C code.

    The routines of the XDR library itself are the interface [XdrPrims], with
    what RFC 4506 and xdr(3) document of them as laws; [rfc4506] is an instance.
    Release of memory ([XDR_FREE]) and failures of malloc are not modelled.

    The property of interest is [carries c x a]: given room in the buffer, [c]
    encodes [x], and what was encoded decodes to [a], wherever it is in a
    stream, with the position left right behind it. *)

From S2P Require Import Prelude CLib.

(** ** Codecs *)

(** A stream is a buffer of bytes.  [enc room x]: the bytes written, if there is
    room, and the value that was sent.  [dec buf pos]: the value read at [pos]
    and the position behind it. *)
Record codec (X A : Type) := Codec {
  enc : Z -> X -> option (list Z * A);
  dec : list Z -> Z -> option (A * Z) }.
Arguments Codec {X A}.
Arguments enc {X A}.
Arguments dec {X A}.

Definition len {A} (l : list A) : Z := Z.of_nat (length l).

#[export] Instance codec_ret X : MRet (codec X) := fun A a =>
  Codec (fun room _ => if room <? 0 then None else Some ([], a)) (fun _ pos => Some (a, pos)).

#[export] Instance codec_bind X : MBind (codec X) := fun A B k c =>
  Codec
    (fun room x => '(b1, a) ← enc c room x; '(b2, b) ← enc (k a) (room - len b1) x; Some (b1 ++ b2, b))
    (fun buf pos => '(a, p) ← dec c buf pos; dec (k a) buf p).

(** The routine [c] applied to the field [f] of the structure. *)
Definition via {X Y A} (f : X -> Y) (c : codec Y A) : codec X A :=
  Codec (fun room x => enc c room (f x)) (dec c).

(** The loop over [n] elements of an array: [for (i = 0; i < n; i++) c(&f[i])]. *)
Fixpoint xdr_loop {X Y A} (n : nat) (i : nat) (f : X -> list Y) (c : codec Y A) : codec X (list A) :=
  match n with
  | O => mret []
  | S n =>
      a ← Codec (fun room x => y ← f x !! i; enc c room y) (dec c);
      l ← xdr_loop n (S i) f c;
      mret (a :: l)
  end.

(** An array of which the length was sent before; a negative length stands for
    an empty loop. *)
Definition xdr_elems {X Y A} (n : Z) (f : X -> list Y) (c : codec Y A) : codec X (list A) :=
  xdr_loop (Z.to_nat n) 0 f c.

(** ** What it means to carry a value *)

Record carries_n {X A} (n : Z) (c : codec X A) (x : X) (a : A) (bs : list Z) : Prop := {
  car_len : len bs = n;
  car_enc : forall room, n <= room -> enc c room x = Some (bs, a);
  car_dec : forall pre post, dec c (pre ++ bs ++ post) (len pre) = Some (a, len pre + n) }.

(** The same with a bound on the size. *)
Definition carries {X A} (N : Z) (c : codec X A) (x : X) (a : A) : Prop :=
  exists n bs, n <= N /\ carries_n n c x a bs.

(** A structure survives the transfer. *)
Definition round_trips {X} (c : codec X X) (x : X) : Prop := exists n bs, carries_n n c x x bs.

(** ** The XDR library *)

Definition int_ok (z : Z) : Prop := in_sint 32 z.
Definition u_int_ok (z : Z) : Prop := in_uint 32 z.
Definition str_ok (max : Z) (s : cstr) : Prop := no_nul s /\ strlen s <= max.

(** [RNDUP]: the next multiple of 4. *)
Definition rndup (n : Z) : Z := (n + 3) / 4 * 4.

(** A float or a double is given by its bits; bytes are numbers below 256. *)
Class XdrPrims := {
  xdr_u_int : codec Z Z;
  xdr_int : codec Z Z;
  xdr_u_long : codec Z Z;
  xdr_u_short : codec Z Z;
  xdr_short : codec Z Z;
  xdr_bool : codec Z Z;
  xdr_enum : codec Z Z;
  xdr_float : codec Z Z;
  xdr_double : codec Z Z;
  xdr_string : Z -> codec cstr cstr;
  xdr_bytes : Z -> codec (list Z) (list Z);
  u_int_law z : u_int_ok z -> exists bs, carries_n 4 xdr_u_int z z bs;
  int_law z : int_ok z -> exists bs, carries_n 4 xdr_int z z bs;
  u_long_law z : u_int_ok z -> exists bs, carries_n 4 xdr_u_long z z bs;
  u_short_law z : in_uint 16 z -> exists bs, carries_n 4 xdr_u_short z z bs;
  short_law z : in_sint 16 z -> exists bs, carries_n 4 xdr_short z z bs;
  bool_law z : z = 0 \/ z = 1 -> exists bs, carries_n 4 xdr_bool z z bs;
  enum_law z : int_ok z -> exists bs, carries_n 4 xdr_enum z z bs;
  float_law z : u_int_ok z -> exists bs, carries_n 4 xdr_float z z bs;
  double_law z : in_uint 64 z -> exists bs, carries_n 8 xdr_double z z bs;
  string_law max s : str_ok max s -> strlen s < 2 ^ 31 -> exists bs,
    carries_n (4 + rndup (strlen s)) (xdr_string max) s s bs /\
    (* it starts with its length *)
    forall pre post, dec xdr_int (pre ++ bs ++ post) (len pre) = Some (strlen s, len pre + 4);
  bytes_law max b : Forall (in_uint 8) b -> len b <= max -> len b < 2 ^ 31 ->
    exists bs, carries_n (4 + rndup (len b)) (xdr_bytes max) b b bs }.

(** ** lib.xdr.c and lib.xdrmisc.c *)

Section Routines.
Context `{XdrPrims}.

(** [struct LSFHeader] *)
Record LSFHeader := Header {
  refCode : Z; opCode : Z; length_ : Z; version : Z; reserved : Z; reserved0 : Z }.

Definition NET_INTSIZE_ : Z := 4.
Definition LSF_HEADER_LEN : Z := 16.
Definition OPENLAVA_VERSION : Z := 20.

(** The four words of the header. *)
Definition encodeHdr (header : LSFHeader) : Z * Z * Z * Z :=
  (Z.lor (uint32 (Z.shiftl (refCode header) 16)) (Z.land (opCode header) 0xFFFF),
   length_ header,
   Z.lor (uint32 (Z.shiftl (version header) 16)) (Z.land (reserved header) 0xFFFF),
   reserved0 header).

Definition xdr_LSFHeader : codec LSFHeader LSFHeader :=
  word1 ← via (fun h => let '(w, _, _, _) := encodeHdr h in w) xdr_u_int;
  word2 ← via (fun h => let '(_, w, _, _) := encodeHdr h in w) xdr_u_int;
  word3 ← via (fun h => let '(_, _, w, _) := encodeHdr h in w) xdr_u_int;
  word4 ← via (fun h => let '(_, _, _, w) := encodeHdr h in w) xdr_u_int;
  mret (Header (Z.shiftr word1 16) (Z.land word1 0xFFFF) word2
          (Z.shiftr word3 16) (Z.land word3 0xFFFF) word4).

Definition xdr_packLSFHeader (header : LSFHeader) : option (list Z) :=
  '(bs, _) ← enc xdr_LSFHeader LSF_HEADER_LEN header; Some bs.

(** The element is preceded by the offset of the next one; the position is set
    from it when it lies in the buffer. *)
Definition xdr_arrayElement {X A} (xdr_func : codec X A) : codec X A :=
  Codec
    (fun room x =>
       if room <? NET_INTSIZE_ then None
       else '(bs, a) ← enc xdr_func (room - NET_INTSIZE_) x;
            '(hd, _) ← enc xdr_int room (NET_INTSIZE_ + len bs);
            Some (hd ++ bs, a))
    (fun buf pos =>
       '(nextElementOffset, p) ← dec xdr_int buf pos;
       '(a, p') ← dec xdr_func buf p;
       let next := pos + nextElementOffset in
       Some (a, if (0 <=? next) && (next <=? len buf) then next else p')).

Definition xdr_array_string (maxlen arraysize : Z) : codec (list cstr) (list cstr) :=
  xdr_elems arraysize (fun l => l) (xdr_string maxlen).

Definition xdr_time_t : codec Z Z := xdr_u_long.

(** The length is looked at first, to allocate the string. *)
Definition xdr_var_string : codec cstr cstr :=
  Codec
    (fun room s => enc (xdr_string (strlen s + 1)) room s)
    (fun buf pos =>
       '(l, _) ← dec xdr_int buf pos;
       if l <? -1 then None else dec (xdr_string (uint32 (l + 1))) buf pos).

(** [struct stringLen] *)
Definition xdr_stringLen (maxlen : Z) : codec cstr cstr := xdr_string maxlen.

Record lsfLimit := LsfLimit { rlim_curl : Z; rlim_curh : Z; rlim_maxl : Z; rlim_maxh : Z }.

Definition xdr_lsfLimit : codec lsfLimit lsfLimit :=
  curl ← via rlim_curl xdr_u_int;
  curh ← via rlim_curh xdr_u_int;
  maxl ← via rlim_maxl xdr_u_int;
  maxh ← via rlim_maxh xdr_u_int;
  mret (LsfLimit curl curh maxl maxh).

(** A port number travels as its two bytes in memory. *)
Definition xdr_portno : codec (list Z) (list Z) := xdr_bytes 2.
Definition xdr_address : codec (list Z) (list Z) := xdr_bytes NET_INTSIZE_.

Definition MAXHOSTNAMELEN : Z := 64.
Definition MAXPATHLEN : Z := 4096.
Definition MAXLSFNAMELEN : Z := 40.

Record debugReq := DebugReq {
  dr_opCode : Z; dr_level : Z; dr_logClass : Z; dr_options : Z; dr_hostName : cstr;
  dr_logFileName : cstr }.

Definition xdr_debugReq : codec debugReq debugReq :=
  opCode ← via dr_opCode xdr_int;
  level ← via dr_level xdr_int;
  logClass ← via dr_logClass xdr_int;
  options ← via dr_options xdr_int;
  hostName ← via dr_hostName (xdr_string MAXHOSTNAMELEN);
  logFileName ← via dr_logFileName (xdr_string MAXPATHLEN);
  mret (DebugReq opCode level logClass options hostName logFileName).

(** [(s & 0xfffffffc) + 4] *)
Definition ALIGNWORD_ (s : Z) : Z := Z.land s 0xfffffffc + 4.

Definition getXdrStrlen (s : option cstr) : Z :=
  match s with None => 4 | Some s => ALIGNWORD_ (strlen s + 1) end.

(** A long is sent as two ints; [LONG_BIT] is 64. *)
Definition xdr_LSFlong : codec Z Z :=
  high ← via (fun l => int32 (Z.shiftr l 32)) xdr_int;
  low ← via (fun l => int32 (Z.land l 0xFFFFFFFF)) xdr_int;
  mret (Z.lor (int64 (Z.shiftl high 32)) (Z.land low 0xFFFFFFFF)).

(** [struct stat], the fields that are sent. *)
Record stat := Stat {
  st_dev : Z; st_ino : Z; st_mode : Z; st_nlink : Z; st_uid : Z; st_gid : Z; st_rdev : Z;
  st_size : Z; st_atime : Z; st_mtime : Z; st_ctime : Z }.

(** Each field passes through an int. *)
Definition xdr_stat : codec stat stat :=
  dev ← via (fun s => int32 (st_dev s)) xdr_int;
  ino ← via (fun s => int32 (st_ino s)) xdr_int;
  mode ← via (fun s => int32 (st_mode s)) xdr_int;
  nlink ← via (fun s => int32 (st_nlink s)) xdr_int;
  uid ← via (fun s => int32 (st_uid s)) xdr_int;
  gid ← via (fun s => int32 (st_gid s)) xdr_int;
  rdev ← via (fun s => int32 (st_rdev s)) xdr_int;
  size ← via (fun s => int32 (st_size s)) xdr_int;
  atime ← via (fun s => int32 (st_atime s)) xdr_int;
  mtime ← via (fun s => int32 (st_mtime s)) xdr_int;
  ctime ← via (fun s => int32 (st_ctime s)) xdr_int;
  mret (Stat dev ino mode nlink uid gid rdev size atime mtime ctime).

(** The nineteen doubles of [struct lsfRusage], in the order they are sent. *)
Definition xdr_lsfRusage : codec (list Z) (list Z) := xdr_elems 19 (fun l => l) xdr_double.

(** [struct lenData]: no bytes are sent for an empty one. *)
Definition xdr_lenData : codec (list Z) (list Z) :=
  l ← via len xdr_int;
  if l =? 0 then mret [] else xdr_bytes (uint32 l).

(** The kinds of [struct lsfAuth] and what they hold. *)
Definition CLIENT_DCE : Z := 2.
Definition CLIENT_EAUTH : Z := 3.
Definition AUTH_HOST_UX : Z := 0x02.

Record lsfAuth := LsfAuth {
  au_uid : Z; au_gid : Z; au_lsfUserName : cstr; au_kind : Z; au_data : list Z; au_filler : Z;
  au_options : Z }.

(** The options that are sent are always [AUTH_HOST_UX]. *)
Definition xdr_lsfAuth : codec lsfAuth lsfAuth :=
  uid ← via au_uid xdr_int;
  gid ← via au_gid xdr_int;
  name ← via au_lsfUserName (xdr_string MAXLSFNAMELEN);
  kind ← via au_kind xdr_enum;
  k ← (if (kind =? CLIENT_DCE) || (kind =? CLIENT_EAUTH)
       then l ← via (fun a => len (au_data a)) xdr_int;
            b ← via au_data (xdr_bytes (uint32 l));
            mret (b, 0)
       else f ← via au_filler (xdr_arrayElement xdr_int); mret ([], f));
  options ← via (fun _ => AUTH_HOST_UX) xdr_int;
  mret (LsfAuth uid gid name kind (fst k) (snd k) options).

Definition xdr_lsfAuthSize (auth : option lsfAuth) : Z :=
  match auth with
  | None => 0
  | Some a =>
      ALIGNWORD_ 4 + ALIGNWORD_ 4 + ALIGNWORD_ (strlen (au_lsfUserName a)) + ALIGNWORD_ 4
      + (if (au_kind a =? CLIENT_DCE) || (au_kind a =? CLIENT_EAUTH)
         then ALIGNWORD_ 4 + ALIGNWORD_ (len (au_data a)) else ALIGNWORD_ 4)
      + ALIGNWORD_ 4
  end.

Record pidInfo := PidInfo { pi_pid : Z; pi_ppid : Z; pi_pgid : Z; pi_jobid : Z }.

Definition xdr_pidInfo : codec pidInfo pidInfo :=
  pid ← via pi_pid xdr_int;
  ppid ← via pi_ppid xdr_int;
  pgid ← via pi_pgid xdr_int;
  jobid ← via pi_jobid xdr_int;
  mret (PidInfo pid ppid pgid jobid).

Record jRusage := JRusage {
  ju_mem : Z; ju_swap : Z; ju_utime : Z; ju_stime : Z; ju_npids : Z; ju_pidInfo : list pidInfo;
  ju_npgids : Z; ju_pgid : list Z }.

Definition xdr_jRusage : codec jRusage jRusage :=
  mem ← via ju_mem xdr_int;
  swap ← via ju_swap xdr_int;
  utime ← via ju_utime xdr_int;
  stime ← via ju_stime xdr_int;
  npids ← via ju_npids xdr_int;
  pids ← xdr_elems npids ju_pidInfo (xdr_arrayElement xdr_pidInfo);
  npgids ← via ju_npgids xdr_int;
  pgids ← xdr_elems npgids ju_pgid (xdr_arrayElement xdr_int);
  mret (JRusage mem swap utime stime npids pids npgids pgids).

(** ** Messages: a header, the credentials, a body *)

Definition set_header (l ver : Z) (h : LSFHeader) : LSFHeader :=
  Header (refCode h) (opCode h) l ver (reserved h) (reserved0 h).

(** The body and the credentials are encoded behind the room for the header,
    which is written last, when the length is known. *)
Definition xdr_encodeMsg {X A} (room : Z) (data : option X) (hdr : LSFHeader) (xdr_func : codec X A)
    (auth : option lsfAuth) : option (list Z * LSFHeader) :=
  if room <? LSF_HEADER_LEN then None
  else
    let room' := room - LSF_HEADER_LEN in
    b1 ← (match auth with
          | Some a => '(b, _) ← enc xdr_lsfAuth room' a; Some b
          | None => Some []
          end);
    b2 ← (match data with
          | Some x => '(b, _) ← enc xdr_func (room' - len b1) x; Some b
          | None => Some []
          end);
    let hdr' := set_header (len b1 + len b2) OPENLAVA_VERSION hdr in
    '(b0, _) ← enc xdr_LSFHeader LSF_HEADER_LEN hdr';
    Some (b0 ++ b1 ++ b2, hdr').

(** What a connection delivers: [readFunc] returns the bytes asked for, or fewer
    when there are no more.  The result is the value that the C function returns,
    what was decoded, and the bytes left on the connection. *)
Definition readDecodeHdr_ (conn : list Z) : Z * option LSFHeader * list Z :=
  if len conn <? LSF_HEADER_LEN then (-2, None, [])
  else
    let buf := take (Z.to_nat LSF_HEADER_LEN) conn in
    let rest := drop (Z.to_nat LSF_HEADER_LEN) conn in
    match dec xdr_LSFHeader buf 0 with
    | Some (h, _) => (0, Some h, rest)
    | None => (-1, None, rest)
    end.

(** [with_auth]: whether the caller passes an [auth]. *)
Definition readDecodeMsg_ {X A} (conn : list Z) (hdr : LSFHeader) (xdrFunc : codec X A)
    (with_auth : bool) : Z * option (option lsfAuth * A) * list Z :=
  if len conn <? length_ hdr then (-2, None, [])
  else
    let buf := take (Z.to_nat (length_ hdr)) conn in
    let rest := drop (Z.to_nat (length_ hdr)) conn in
    match (if with_auth then '(a, p) ← dec xdr_lsfAuth buf 0; Some (Some a, p) else Some (None, 0)) with
    | None => (-1, None, rest)
    | Some (a, p) =>
        match dec xdrFunc buf p with
        | None => (-1, None, rest)
        | Some (x, _) => (0, Some (a, x), rest)
        end
    end.

(** [room] is the size of the caller's buffer; the bytes are what [writeFunc]
    is given. *)
Definition writeEncodeMsg_ {X A} (room : Z) (hdr : LSFHeader) (data : option X)
    (xdrFunc : codec X A) : option (list Z * LSFHeader) :=
  xdr_encodeMsg room data hdr xdrFunc None.

Definition writeEncodeHdr_ (hdr : LSFHeader) : option (list Z) :=
  xdr_packLSFHeader (set_header 0 (version hdr) hdr).
End Routines.

(** ** The calculus of [carries] *)

Section Calculus.
Context {X : Type}.

Lemma len_app {A} (l k : list A) : len (l ++ k) = len l + len k.
Proof. unfold len. rewrite length_app. lia. Qed.

Lemma len_nonneg {A} (l : list A) : 0 <= len l.
Proof. unfold len. lia. Qed.

Lemma carn_ret {A} (x : X) (a : A) : carries_n 0 (mret a) x a [].
Proof.
  split; [done| |].
  - intros room Hr. simpl. rewrite (proj2 (Z.ltb_ge room 0)); [done|lia].
  - intros pre post. simpl. by rewrite Z.add_0_r.
Qed.

Lemma carn_bind {A B} (c : codec X A) (k : A -> codec X B) x a b n1 n2 b1 b2 :
  carries_n n1 c x a b1 -> carries_n n2 (k a) x b b2 ->
  carries_n (n1 + n2) (c ≫= k) x b (b1 ++ b2).
Proof.
  intros [L1 E1 D1] [L2 E2 D2]. pose proof (len_nonneg b1). pose proof (len_nonneg b2). split.
  - rewrite len_app. lia.
  - intros room Hr. simpl. rewrite E1 by lia. simpl. rewrite E2 by lia. done.
  - intros pre post. simpl. rewrite <- app_assoc, D1. simpl.
    replace (pre ++ b1 ++ b2 ++ post) with ((pre ++ b1) ++ b2 ++ post) by by rewrite <- app_assoc.
    replace (len pre + n1) with (len (pre ++ b1)) by by rewrite len_app, L1.
    rewrite D2. do 2 f_equal. rewrite len_app. lia.
Qed.

Lemma carn_via {Y A} (f : X -> Y) (c : codec Y A) x a n bs :
  carries_n n c (f x) a bs -> carries_n n (via f c) x a bs.
Proof. intros [L E D]. by split. Qed.

Lemma carries_ret {A} (x : X) (a : A) : carries 0 (mret a) x a.
Proof. exists 0, []. split; [lia|apply carn_ret]. Qed.

Lemma carries_bind {A B} (c : codec X A) (k : A -> codec X B) x a b N1 N2 :
  carries N1 c x a -> carries N2 (k a) x b -> carries (N1 + N2) (c ≫= k) x b.
Proof.
  intros (n1 & b1 & L1 & H1) (n2 & b2 & L2 & H2). eexists _, _.
  split; [|by apply (carn_bind _ _ _ a)]. lia.
Qed.

Lemma carries_via {Y A} (f : X -> Y) (c : codec Y A) x a N : carries N c (f x) a -> carries N (via f c) x a.
Proof. intros (n & bs & L & H). eexists _, _. split; [exact L|]. by apply carn_via. Qed.

Lemma carries_weaken {A} (c : codec X A) x a N M : carries N c x a -> N <= M -> carries M c x a.
Proof. intros (n & bs & L & H) HM. exists n, bs. split; [lia|done]. Qed.

Lemma carries_loop {Y A} (f : X -> list Y) (c : codec Y A) x n i l N :
  (forall k, (k < n)%nat -> exists y a, f x !! (i + k)%nat = Some y /\ carries N c y a /\ l !! k = Some a) ->
  length l = n -> carries (Z.of_nat n * N) (xdr_loop n i f c) x l.
Proof.
  revert i l. induction n as [|n IH]; intros i l Hl Hn; simpl xdr_loop.
  - destruct l; [|done]. apply carries_ret.
  - destruct l as [|a l]; [done|]. destruct (Hl 0%nat) as (y & a' & Hy & Hc & [= <-]); [lia|].
    rewrite Nat.add_0_r in Hy.
    apply carries_weaken with (N + (Z.of_nat n * N + 0)); [|lia]. apply carries_bind with a.
    + destruct Hc as (m & bs & Hm & [L E D]). exists m, bs. split; [done|]. split; simpl; [done| |done].
      intros room Hr. rewrite Hy. simpl. by apply E.
    + apply carries_bind with l; [|apply carries_ret]. apply IH; [|by injection Hn].
      intros k Hk. destruct (Hl (S k)) as (y' & a' & Hy' & Hc' & Ha'); [lia|].
      exists y', a'. rewrite Nat.add_succ_r in Hy'. done.
Qed.

(** An array all of whose elements are carried is carried. *)
Lemma carries_elems {Y} (f : X -> list Y) (c : codec Y Y) x n N :
  len (f x) = n -> Forall (fun y => carries N c y y) (f x) ->
  carries (n * N) (xdr_elems n f c) x (f x).
Proof.
  intros Hn Hf. unfold xdr_elems. replace n with (Z.of_nat (Z.to_nat n)) at 1 by (unfold len in Hn; lia).
  apply carries_loop; [|unfold len in Hn; lia].
  intros k Hk. destruct (lookup_lt_is_Some_2 (f x) k) as [y Hy]; [unfold len in Hn; lia|].
  exists y, y. split_and!; [done| |done]. rewrite Forall_forall in Hf. apply Hf.
  apply list_elem_of_lookup. eauto.
Qed.

Lemma carries_trip (c : codec X X) x N : carries N c x x -> round_trips c x.
Proof. intros (n & bs & _ & H). by exists n, bs. Qed.
End Calculus.

(** ** The routines carry their structures *)

Section Round_trips.
Context `{XdrPrims}.

Lemma law_carries {A} (c : codec A A) x n : (exists bs, carries_n n c x x bs) -> carries n c x x.
Proof. intros [bs H1]. exists n, bs. split; [lia|done]. Qed.

Lemma int_carries z : int_ok z -> carries 4 xdr_int z z.
Proof. intros Hz. by apply law_carries, int_law. Qed.
Lemma u_int_carries z : u_int_ok z -> carries 4 xdr_u_int z z.
Proof. intros Hz. by apply law_carries, u_int_law. Qed.
Lemma enum_carries z : int_ok z -> carries 4 xdr_enum z z.
Proof. intros Hz. by apply law_carries, enum_law. Qed.
Lemma u_short_carries z : in_uint 16 z -> carries 4 xdr_u_short z z.
Proof. intros Hz. by apply law_carries, u_short_law. Qed.
Lemma short_carries z : in_sint 16 z -> carries 4 xdr_short z z.
Proof. intros Hz. by apply law_carries, short_law. Qed.
Lemma bool_carries z : z = 0 \/ z = 1 -> carries 4 xdr_bool z z.
Proof. intros Hz. by apply law_carries, bool_law. Qed.
Lemma float_carries z : u_int_ok z -> carries 4 xdr_float z z.
Proof. intros Hz. by apply law_carries, float_law. Qed.
Lemma double_carries z : in_uint 64 z -> carries 8 xdr_double z z.
Proof. intros Hz. by apply law_carries, double_law. Qed.
Lemma time_carries z : u_int_ok z -> carries 4 xdr_time_t z z.
Proof. intros Hz. by apply law_carries, u_long_law. Qed.

Lemma rndup_le a b : a <= b -> rndup a <= rndup b.
Proof. intros Hab. unfold rndup. pose proof (Z.div_le_mono (a + 3) (b + 3) 4). lia. Qed.

Lemma string_carries max s : str_ok max s -> max < 2 ^ 31 ->
  carries (4 + rndup max) (xdr_string max) s s.
Proof.
  intros Hs Hm. destruct (string_law max s Hs) as (bs & Hc & _); [destruct Hs; lia|].
  eexists _, _. split; [|exact Hc]. destruct Hs as [_ Hs]. apply rndup_le in Hs. lia.
Qed.

Lemma bytes_carries max b : Forall (in_uint 8) b -> len b <= max -> len b < 2 ^ 31 ->
  carries (4 + rndup (len b)) (xdr_bytes max) b b.
Proof. intros H1 H2 H3. by apply law_carries, bytes_law. Qed.

(** A string of reasonable length: the offsets of the elements that hold such
    strings are ints. *)
Definition VAR_MAX : Z := 2 ^ 18.
Definition var_ok (s : cstr) : Prop := str_ok VAR_MAX s.

Lemma var_string_size s : var_ok s -> carries (4 + rndup (strlen s)) xdr_var_string s s.
Proof.
  intros [Hn Hl]. unfold VAR_MAX in Hl. assert (0 <= strlen s) by (unfold strlen; lia).
  destruct (string_law (strlen s + 1) s) as (bs & Hc & Hlen); [split; [done|lia]|lia|].
  exists (4 + rndup (strlen s)), bs. split; [lia|]. destruct Hc as [L E D]. split; [done|intros room Hr; by apply E|].
  intros pre post. simpl. rewrite Hlen. simpl. rewrite (proj2 (Z.ltb_ge _ _)) by lia.
  rewrite uint_of_id by (unfold in_uint; lia). apply D.
Qed.

Lemma var_string_carries s : var_ok s -> carries (4 + VAR_MAX) xdr_var_string s s.
Proof.
  intros Hs. eapply carries_weaken; [by apply var_string_size|]. destruct Hs as [_ Hl]. apply rndup_le in Hl.
  change (rndup VAR_MAX) with VAR_MAX in Hl. lia.
Qed.

(** An element whose offset an int can hold. *)
Lemma arrayElement_carries_n {X A} (c : codec X A) x a n bs :
  carries_n n c x a bs -> n + 4 < 2 ^ 31 -> exists bs', carries_n (4 + n) (xdr_arrayElement c) x a bs'.
Proof.
  intros [L E D] Hn. pose proof (len_nonneg bs) as Hlen.
  destruct (int_law (4 + n)) as (hd & [L0 E0 D0]); [unfold int_ok, in_sint; lia|].
  exists (hd ++ bs). split.
  - rewrite len_app. lia.
  - intros room Hr. simpl. unfold NET_INTSIZE_. rewrite (proj2 (Z.ltb_ge _ _)) by lia.
    rewrite E by lia. simpl. rewrite L, E0 by lia. done.
  - intros pre post. simpl. rewrite <- app_assoc, D0. simpl.
    replace (pre ++ hd ++ bs ++ post) with ((pre ++ hd) ++ bs ++ post) by by rewrite <- app_assoc.
    replace (len pre + 4) with (len (pre ++ hd)) by (rewrite len_app; lia). rewrite D. simpl.
    assert (((0 <=? len pre + (4 + n)) && (len pre + (4 + n) <=? len ((pre ++ hd) ++ bs ++ post))) = true)
      as ->; [|done].
    pose proof (len_nonneg pre). pose proof (len_nonneg post).
    apply andb_true_iff. split; apply Z.leb_le; rewrite ?len_app; lia.
Qed.

Lemma arrayElement_carries {X A} (c : codec X A) x a N :
  carries N c x a -> N + 4 < 2 ^ 31 -> carries (4 + N) (xdr_arrayElement c) x a.
Proof.
  intros (n & bs & Hn & Hc) HN. destruct (arrayElement_carries_n c x a n bs Hc) as [bs' Hb]; [lia|].
  exists (4 + n), bs'. split; [lia|done].
Qed.
(** An array takes the sum of the sizes of its elements. *)
Lemma carries_sizes {X Y} (f : X -> list Y) (c : codec Y Y) (size : Y -> Z) x n i l :
  drop i (f x) = l -> length l = n -> Forall (fun y => carries (size y) c y y) l ->
  carries (foldr (fun y s => size y + s) 0 l) (xdr_loop n i f c) x l.
Proof.
  revert n i. induction l as [|y l IH]; intros n i Hd Hn Hf; cbn in Hn; subst n; [apply carries_ret|].
  apply Forall_cons in Hf as [Hy Hf]. cbn [xdr_loop foldr length]. apply carries_bind with y.
  - destruct Hy as (m & bs & Hm & [L E D]). exists m, bs. split; [done|]. split; [done| |done].
    intros room Hr. cbn [enc]. rewrite <- (Nat.add_0_r i), <- lookup_drop, Hd. cbn. by apply E.
  - rewrite <- (Z.add_0_r (foldr _ _ _)). apply carries_bind with l; [|apply carries_ret]. apply IH; [|done..].
    replace (S i) with (i + 1)%nat by lia. by rewrite <- drop_drop, Hd.
Qed.

End Round_trips.

(** ** Automation

    [carry] follows a routine field by field; what is left are the sizes and the
    side conditions that are not among the hypotheses. *)

Create HintDb xdr.
#[export] Hint Resolve int_carries u_int_carries enum_carries u_short_carries short_carries
  bool_carries float_carries double_carries time_carries var_string_carries : xdr.
#[export] Hint Extern 1 (carries _ (xdr_string _) _ _) =>
  apply string_carries; [assumption|reflexivity] : xdr.

(** The structure is rebuilt from its fields. *)
Ltac carry_ret :=
  lazymatch goal with
  | |- carries _ (mret _) ?x ?y =>
      first [apply carries_ret | destruct x; apply carries_ret]
  end.

Ltac carry :=
  repeat lazymatch goal with
  | |- carries _ (_ ≫= _) _ _ => eapply carries_bind; cbn beta
  | |- carries _ (via _ _) _ _ => apply carries_via; cbn beta
  | |- carries _ (mret _) _ _ => carry_ret
  | |- carries _ (xdr_arrayElement _) _ _ => apply arrayElement_carries
  | |- carries _ (xdr_elems _ _ _) _ _ => apply carries_elems; [try assumption|]
  | |- carries _ _ _ _ => solve [eauto with xdr]
  end.

(** An upper bound for the accumulated size. *)
Ltac size_bound := unfold rndup, VAR_MAX; lia.

(** ** Headers, credentials, resource usage *)

Section Library.
Context `{XdrPrims}.

Definition ok_header (h : LSFHeader) : Prop :=
  in_uint 16 (refCode h) /\ in_uint 16 (opCode h) /\ u_int_ok (length_ h) /\
  in_uint 16 (version h) /\ in_uint 16 (reserved h) /\ u_int_ok (reserved0 h).

(** Two shorts in a word. *)
Lemma halves a b : in_uint 16 a -> in_uint 16 b ->
  let w := Z.lor (uint32 (Z.shiftl a 16)) (Z.land b 0xFFFF) in
  u_int_ok w /\ Z.shiftr w 16 = a /\ Z.land w 0xFFFF = b.
Proof.
  unfold in_uint. intros Ha Hb. change 0xFFFF with (Z.ones 16).
  rewrite (uint_of_id 32) by (unfold in_uint; rewrite Z.shiftl_mul_pow2; lia).
  rewrite (Z.land_ones b 16), (Z.mod_small b) by lia.
  assert (Z.lor (Z.shiftl a 16) b = a * 2 ^ 16 + b) as ->.
  { rewrite Z.lor_comm, <- Z.shiftl_mul_pow2, (Z.add_comm _ b) by lia. symmetry.
    rewrite Z.add_nocarry_lxor, Z.lxor_lor; [done| |]; apply Z.bits_inj'; intros i Hi;
      rewrite Z.land_spec, Z.bits_0, Z.shiftl_spec by lia;
      (destruct (Z.ltb_spec i 16);
       [rewrite (Z.testbit_neg_r a) by lia; apply andb_false_r
       |rewrite <- (Z.mod_small b (2 ^ 16)) by lia; rewrite Z.mod_pow2_bits_high by lia; done]). }
  split; [unfold u_int_ok, in_uint; lia|]. split.
  - rewrite Z.shiftr_div_pow2, Z.div_add_l, Z.div_small by lia. lia.
  - rewrite Z.land_ones, Z.add_comm, Z.mod_add, Z.mod_small by lia. done.
Qed.

Lemma header_carries h : ok_header h -> exists bs, carries_n 16 xdr_LSFHeader h h bs.
Proof.
  intros (H1 & H2 & H3 & H4 & H5 & H6).
  destruct (halves _ _ H1 H2) as (W1 & R1 & O1). destruct (halves _ _ H4 H5) as (W3 & R3 & O3).
  destruct (u_int_law _ W1) as [b1 C1]. destruct (u_int_law _ H3) as [b2 C2].
  destruct (u_int_law _ W3) as [b3 C3]. destruct (u_int_law _ H6) as [b4 C4].
  exists (b1 ++ b2 ++ b3 ++ b4 ++ []). change 16 with (4 + (4 + (4 + (4 + 0)))).
  eapply carn_bind; [apply carn_via; exact C1|]. eapply carn_bind; [apply carn_via; exact C2|].
  eapply carn_bind; [apply carn_via; exact C3|]. eapply carn_bind; [apply carn_via; exact C4|].
  rewrite R1, O1, R3, O3. destruct h. apply carn_ret.
Qed.

(** The protocol header survives the wire: packing the four
    16-bit fields and two 32-bit fields of any header into four words writes
    exactly LSF_HEADER_LEN bytes, and decoding them, wherever they are in a
    buffer, gives back the same header and the position behind it. *)
Theorem header_round_trip h :
  ok_header h ->
  exists bs, xdr_packLSFHeader h = Some bs /\ len bs = LSF_HEADER_LEN /\
    forall pre post, dec xdr_LSFHeader (pre ++ bs ++ post) (len pre) = Some (h, len pre + LSF_HEADER_LEN).
Proof.
  intros Hh. destruct (header_carries h Hh) as [bs [L E D]]. exists bs.
  unfold xdr_packLSFHeader, LSF_HEADER_LEN. rewrite E by lia. done.
Qed.

(** The union of the credentials holds one of its members. *)
Definition has_token (a : lsfAuth) : bool := (au_kind a =? CLIENT_DCE) || (au_kind a =? CLIENT_EAUTH).

Definition ok_auth (a : lsfAuth) : Prop :=
  int_ok (au_uid a) /\ int_ok (au_gid a) /\ str_ok MAXLSFNAMELEN (au_lsfUserName a) /\
  int_ok (au_kind a) /\ au_options a = AUTH_HOST_UX /\
  (if has_token a then Forall (in_uint 8) (au_data a) /\ len (au_data a) < 2 ^ 31 /\ au_filler a = 0
   else au_data a = [] /\ int_ok (au_filler a)).

Definition auth_size (a : lsfAuth) : Z :=
  4 + 4 + (4 + rndup (strlen (au_lsfUserName a))) + 4
  + (if has_token a then 4 + (4 + rndup (len (au_data a))) else 8) + 4.

Lemma auth_carries a : ok_auth a -> exists bs, carries_n (auth_size a) xdr_lsfAuth a a bs.
Proof.
  intros (H1 & H2 & H3 & H4 & H5 & H6). unfold xdr_lsfAuth, auth_size.
  destruct (int_law _ H1) as [b1 C1]. destruct (int_law _ H2) as [b2 C2].
  destruct (string_law _ _ H3) as (b3 & C3 & _); [unfold MAXLSFNAMELEN in H3; destruct H3; lia|].
  destruct (enum_law _ H4) as [b4 C4].
  destruct (int_law AUTH_HOST_UX) as [b6 C6]; [unfold int_ok, in_sint, AUTH_HOST_UX; lia|].
  unfold has_token in *. set (tok := (au_kind a =? CLIENT_DCE) || (au_kind a =? CLIENT_EAUTH)) in *.
  assert (exists b5, carries_n (if tok then 4 + (4 + rndup (len (au_data a))) else 8)
    (if tok then l ← via (fun a => len (au_data a)) xdr_int;
                 b ← via au_data (xdr_bytes (uint32 l)); mret (b, 0)
     else f ← via au_filler (xdr_arrayElement xdr_int); mret ([], f)) a (au_data a, au_filler a) b5)
    as [b5 C5].
  { destruct tok.
    - destruct H6 as (F1 & F2 & F3). pose proof (len_nonneg (au_data a)).
      destruct (int_law (len (au_data a))) as [c1 D1]; [unfold int_ok, in_sint; lia|].
      destruct (bytes_law (len (au_data a)) (au_data a) F1) as [c2 D2]; [lia|lia|].
      exists (c1 ++ c2 ++ []). rewrite <- (Z.add_0_r (4 + rndup _)), F3.
      eapply carn_bind; [apply carn_via; exact D1|]. eapply carn_bind; [|apply carn_ret].
      apply carn_via. rewrite uint_of_id by (unfold in_uint; lia). exact D2.
    - destruct H6 as (F1 & F2). destruct (int_law _ F2) as [c1 D1].
      destruct (arrayElement_carries_n _ _ _ _ _ D1) as [c2 D2]; [lia|].
      exists (c2 ++ []). change 8 with (4 + 4 + 0). rewrite F1.
      eapply carn_bind; [apply carn_via; exact D2|apply carn_ret]. }
  exists (b1 ++ b2 ++ b3 ++ b4 ++ b5 ++ b6 ++ []).
  replace (4 + 4 + _ + 4 + _ + 4) with (4 + (4 + (4 + rndup (strlen (au_lsfUserName a))
     + (4 + ((if tok then 4 + (4 + rndup (len (au_data a))) else 8) + (4 + 0)))))) by lia.
  eapply carn_bind; [apply carn_via; exact C1|]. eapply carn_bind; [apply carn_via; exact C2|].
  eapply carn_bind; [apply carn_via; exact C3|]. eapply carn_bind; [apply carn_via; exact C4|].
  eapply carn_bind; [exact C5|]. eapply carn_bind; [apply carn_via; exact C6|].
  rewrite <- H5. destruct a. apply carn_ret.
Qed.

Lemma alignword_spec n : 0 <= n < 2 ^ 32 -> ALIGNWORD_ n = n - n mod 4 + 4.
Proof.
  intros Hn. unfold ALIGNWORD_. f_equal. change 0xfffffffc with (Z.shiftl (Z.ones 30) 2).
  assert (Z.land n (Z.shiftl (Z.ones 30) 2) = Z.shiftl (Z.land (Z.shiftr n 2) (Z.ones 30)) 2) as ->.
  { apply Z.bits_inj'. intros i Hi. rewrite Z.land_spec, !Z.shiftl_spec by lia.
    destruct (Z.ltb_spec i 2).
    - rewrite !(Z.testbit_neg_r _ (i - 2)) by lia. apply andb_false_r.
    - rewrite Z.land_spec, Z.shiftr_spec by lia. by replace (i - 2 + 2) with i by lia. }
  rewrite Z.land_ones, Z.shiftr_div_pow2, Z.shiftl_mul_pow2 by lia.
  change (2 ^ 2) with 4. pose proof (Z.div_mod n 4).
  rewrite Z.mod_small; [lia|]. split; [apply Z.div_pos; lia|]. apply Z.div_lt_upper_bound; lia.
Qed.

Lemma rndup_align n : 0 <= n < 2 ^ 32 -> rndup n <= ALIGNWORD_ n.
Proof. intros Hn. rewrite alignword_spec by done. unfold rndup. Z.to_euclidean_division_equations. lia. Qed.

(** The credentials of a message survive the wire in every variant of
    their union, and the size that [xdr_lsfAuthSize] reports for the buffer is
    always sufficient: with that much room the encoding succeeds, and it decodes
    to the same credentials. *)
Theorem auth_round_trip a :
  ok_auth a ->
  exists bs, enc xdr_lsfAuth (xdr_lsfAuthSize (Some a)) a = Some (bs, a) /\
    forall pre post, dec xdr_lsfAuth (pre ++ bs ++ post) (len pre) = Some (a, len pre + len bs).
Proof.
  intros Ha. destruct (auth_carries a Ha) as [bs [L E D]]. exists bs. split.
  - apply E. destruct Ha as (_ & _ & [_ Hn] & _ & _ & Hu). unfold auth_size, xdr_lsfAuthSize.
    fold (has_token a). unfold MAXLSFNAMELEN in Hn. change (ALIGNWORD_ 4) with 8.
    assert (0 <= strlen (au_lsfUserName a)) by (unfold strlen; lia).
    pose proof (len_nonneg (au_data a)).
    pose proof (rndup_align (strlen (au_lsfUserName a)) ltac:(lia)).
    destruct (has_token a); [|lia]. destruct Hu as (_ & Hd & _).
    pose proof (rndup_align (len (au_data a)) ltac:(lia)). lia.
  - intros pre post. rewrite D, L. done.
Qed.

Lemma len_take_drop {A} (b1 b2 : list A) n : len b1 = n ->
  take (Z.to_nat n) (b1 ++ b2) = b1 /\ drop (Z.to_nat n) (b1 ++ b2) = b2.
Proof.
  intros <-. unfold len. rewrite Nat2Z.id. split; [apply take_app_length|apply drop_app_length].
Qed.

(** A whole message survives the connection: a body that its
    routine carries, with or without credentials, is encoded with a header whose
    length field is the number of bytes behind it; reading the header and then
    the message from a connection that delivers these bytes, followed by anything,
    returns success, the same header, credentials and body, and leaves exactly
    the bytes that follow. *)
Theorem message_round_trip {X} (c : codec X X) (x : X) n bs hdr auth room more :
  carries_n n c x x bs -> ok_header hdr ->
  match auth with Some a => ok_auth a | None => True end ->
  let alen := match auth with Some a => auth_size a | None => 0 end in
  alen + n < 2 ^ 32 -> 16 + alen + n <= room ->
  exists bytes hdr' rest,
    xdr_encodeMsg room (Some x) hdr c auth = Some (bytes, hdr') /\
    hdr' = set_header (len bytes - LSF_HEADER_LEN) OPENLAVA_VERSION hdr /\
    readDecodeHdr_ (bytes ++ more) = (0, Some hdr', rest) /\
    readDecodeMsg_ rest hdr' c (bool_decide (is_Some auth)) = (0, Some (auth, x), more).
Proof.
  intros [L E D] Hh Ha alen Hsz Hroom. pose proof (len_nonneg bs) as Hbs.
  assert (exists b1, len b1 = alen /\
    (match auth with Some a => '(b, _) ← enc xdr_lsfAuth (room - LSF_HEADER_LEN) a; Some b
                   | None => Some [] end) = Some b1 /\
    (forall post, (if bool_decide (is_Some auth)
       then '(a, p) ← dec xdr_lsfAuth (b1 ++ post) 0; Some (Some a, p) else Some (None, 0))
       = Some (auth, alen))) as (b1 & L1 & E1 & D1).
  { destruct auth as [a|]; [|by exists []].
    destruct (auth_carries a Ha) as [b1 [L1 E1 D1]]. exists b1. split_and!; [done| |].
    - unfold LSF_HEADER_LEN. by rewrite E1 by (subst alen; simpl in *; lia).
    - intros post. pose proof (D1 [] post) as Hd. rewrite app_nil_l in Hd.
      change (len (@nil Z)) with 0 in Hd. by rewrite Hd. }
  pose proof (len_nonneg b1) as Hb1.
  set (hdr' := set_header (alen + n) OPENLAVA_VERSION hdr).
  destruct (header_carries hdr') as [b0 [L0 E0 D0]].
  { destruct Hh as (?&?&?&?&?&?). split_and!; try done; unfold u_int_ok, in_uint; simpl; lia. }
  exists (b0 ++ b1 ++ bs), hdr', ((b1 ++ bs) ++ more). split_and!.
  - unfold xdr_encodeMsg, LSF_HEADER_LEN in *. rewrite (proj2 (Z.ltb_ge _ _)) by lia.
    rewrite E1. cbn [mbind option_bind]. rewrite E by lia. cbn [mbind option_bind].
    rewrite L1, L. fold hdr'. by rewrite E0.
  - unfold LSF_HEADER_LEN. rewrite !len_app, L0, L1, L. unfold hdr'. f_equal. lia.
  - unfold readDecodeHdr_, LSF_HEADER_LEN. rewrite <- app_assoc.
    rewrite (proj2 (Z.ltb_ge _ _)) by (rewrite len_app; pose proof (len_nonneg ((b1 ++ bs) ++ more)); lia).
    destruct (len_take_drop b0 ((b1 ++ bs) ++ more) 16 L0) as [-> ->].
    pose proof (D0 [] []) as Hd. rewrite app_nil_l, app_nil_r in Hd.
    change (len (@nil Z)) with 0 in Hd. by rewrite Hd.
  - unfold readDecodeMsg_. change (length_ hdr') with (alen + n).
    assert (len (b1 ++ bs) = alen + n) as Lb by (rewrite len_app; lia).
    rewrite (proj2 (Z.ltb_ge _ _)) by (rewrite len_app; pose proof (len_nonneg more); lia).
    destruct (len_take_drop (b1 ++ bs) more _ Lb) as [-> ->]. rewrite D1.
    pose proof (D b1 []) as Hd. rewrite app_nil_r, L1 in Hd. by rewrite Hd.
Qed.

Definition ok_limit (l : lsfLimit) : Prop :=
  u_int_ok (rlim_curl l) /\ u_int_ok (rlim_curh l) /\ u_int_ok (rlim_maxl l) /\ u_int_ok (rlim_maxh l).

Lemma limit_carries l : ok_limit l -> carries 16 xdr_lsfLimit l l.
Proof. intros (?&?&?&?). change 16 with (4 + (4 + (4 + (4 + 0)))). unfold xdr_lsfLimit. carry. Qed.

Definition ok_debug (d : debugReq) : Prop :=
  int_ok (dr_opCode d) /\ int_ok (dr_level d) /\ int_ok (dr_logClass d) /\ int_ok (dr_options d) /\
  str_ok MAXHOSTNAMELEN (dr_hostName d) /\ str_ok MAXPATHLEN (dr_logFileName d).

Lemma debug_carries d : ok_debug d -> round_trips xdr_debugReq d.
Proof. intros (?&?&?&?&?&?). eapply carries_trip. unfold xdr_debugReq. carry. Qed.

Lemma LSFlong_carries l : in_sint 64 l -> round_trips xdr_LSFlong l.
Proof.
  intros Hl. unfold in_sint in Hl. eapply carries_trip. unfold xdr_LSFlong.
  assert (Z.land l 0xFFFFFFFF = l mod 2 ^ 32) as Hlow by (change 0xFFFFFFFF with (Z.ones 32); by rewrite Z.land_ones).
  assert (Z.shiftr l 32 = l / 2 ^ 32) as Hhigh by by rewrite Z.shiftr_div_pow2.
  assert (in_sint 32 (l / 2 ^ 32)) as Hr
    by (unfold in_sint; Z.to_euclidean_division_equations; lia).
  carry; try (apply int_carries, sint_of_range; lia).
  rewrite Hhigh, Hlow, (sint_of_id 32 (l / 2 ^ 32)) by first [done|lia].
  assert (Z.land (int32 (l mod 2 ^ 32)) 0xFFFFFFFF = l mod 2 ^ 32) as ->.
  { change 0xFFFFFFFF with (Z.ones 32). rewrite Z.land_ones by lia. unfold sint_of.
    rewrite Zminus_mod, Z.mod_mod, <- Zminus_mod by lia.
    replace (l mod 2 ^ 32 + 2 ^ (32 - 1) - 2 ^ (32 - 1)) with (l mod 2 ^ 32) by lia.
    by rewrite Z.mod_mod. }
  rewrite Z.shiftl_mul_pow2, sint_of_id by (try lia; unfold in_sint in *; lia).
  replace (Z.lor (l / 2 ^ 32 * 2 ^ 32) (l mod 2 ^ 32)) with l; [apply carries_ret|].
  rewrite <- Z.shiftl_mul_pow2, <- Z.shiftr_div_pow2, <- Z.land_ones by lia.
  apply Z.bits_inj'. intros i Hi. rewrite Z.lor_spec, Z.shiftl_spec, Z.land_spec by lia.
  destruct (Z.ltb_spec i 32).
  - rewrite (Z.testbit_neg_r _ (i - 32)), Z.ones_spec_low by lia. by rewrite andb_true_r.
  - rewrite Z.shiftr_spec, Z.ones_spec_high, andb_false_r, orb_false_r by lia. f_equal. lia.
Qed.

Definition ok_pid (p : pidInfo) : Prop :=
  int_ok (pi_pid p) /\ int_ok (pi_ppid p) /\ int_ok (pi_pgid p) /\ int_ok (pi_jobid p).

Lemma pid_carries p : ok_pid p -> carries 16 xdr_pidInfo p p.
Proof. intros (?&?&?&?). change 16 with (4 + (4 + (4 + (4 + 0)))). unfold xdr_pidInfo. carry. Qed.

Definition ok_rusage (r : jRusage) : Prop :=
  int_ok (ju_mem r) /\ int_ok (ju_swap r) /\ int_ok (ju_utime r) /\ int_ok (ju_stime r) /\
  int_ok (ju_npids r) /\ len (ju_pidInfo r) = ju_npids r /\ Forall ok_pid (ju_pidInfo r) /\
  int_ok (ju_npgids r) /\ len (ju_pgid r) = ju_npgids r /\ Forall int_ok (ju_pgid r).

Lemma rusage_carries r : ok_rusage r -> exists N, carries N xdr_jRusage r r.
Proof.
  intros (?&?&?&?&?&?&Hp&?&?&Hg). eexists. unfold xdr_jRusage. carry.
  - eapply Forall_impl; [exact Hp|]. intros p Hp'. apply arrayElement_carries; [by apply pid_carries|lia].
  - eapply Forall_impl; [exact Hg|]. intros p Hp'. apply arrayElement_carries; [by apply int_carries|lia].
Qed.

(** The structures of the base library survive the wire: 64-bit
    longs sent as two ints, resource limits, debugging requests, and the resource
    usage of a job with its arrays of processes and process groups, each decode
    to the structure that was encoded, for all values of their C types (strings
    within their limits, arrays as long as their count says). *)
Theorem library_round_trips l lim d r :
  in_sint 64 l -> ok_limit lim -> ok_debug d -> ok_rusage r ->
  round_trips xdr_LSFlong l /\ round_trips xdr_lsfLimit lim /\ round_trips xdr_debugReq d /\
  round_trips xdr_jRusage r.
Proof.
  intros Hl Hlim Hd Hr. split_and!.
  - by apply LSFlong_carries.
  - eapply carries_trip. by apply limit_carries.
  - by apply debug_carries.
  - destruct (rusage_carries r Hr) as [N HN]. by eapply carries_trip.
Qed.
End Library.

(** ** The size of a string *)

(** The estimate [getXdrStrlen] of the space a string takes on the
    wire is not an upper bound: the encoding of a string takes exactly four bytes
    more than estimated when its length is 1 or 2 modulo 4, and otherwise no
    more than estimated. *)
Theorem getXdrStrlen_error `{XdrPrims} max s :
  str_ok max s -> max < 2 ^ 31 - 1 ->
  exists n bs, carries_n n (xdr_string max) s s bs /\
    (if (strlen s mod 4 =? 1) || (strlen s mod 4 =? 2)
     then n = getXdrStrlen (Some s) + 4 else n <= getXdrStrlen (Some s)).
Proof.
  intros Hs Hm. destruct (string_law max s Hs) as (bs & Hc & _); [destruct Hs; lia|].
  exists (4 + rndup (strlen s)), bs. split; [exact Hc|]. unfold getXdrStrlen.
  assert (0 <= strlen s) by (unfold strlen; lia). destruct Hs as [_ Hs].
  rewrite alignword_spec by lia. unfold rndup.
  destruct (Z.eqb_spec (strlen s mod 4) 1), (Z.eqb_spec (strlen s mod 4) 2); simpl;
    Z.to_euclidean_division_equations; lia.
Qed.

(** ** An instance of the XDR library: RFC 4506 *)

Definition be32 (z : Z) : list Z :=
  [z / 2 ^ 24 mod 256; z / 2 ^ 16 mod 256; z / 2 ^ 8 mod 256; z mod 256].

Arguments be32 : simpl never.

Definition get_bytes (buf : list Z) (pos n : Z) : option (list Z) :=
  if pos <? 0 then None
  else let b := take (Z.to_nat n) (drop (Z.to_nat pos) buf) in
       if len b =? n then Some b else None.

Definition get32 (buf : list Z) (pos : Z) : option Z :=
  match get_bytes buf pos 4 with
  | Some [a; b; c; d] => Some (((a * 256 + b) * 256 + c) * 256 + d)
  | _ => None
  end.

(** A unit of four bytes: [wr] gives the word to be written, [rd] interprets the
    word that was read. *)
Definition unit32 (wr rd : Z -> Z) : codec Z Z :=
  Codec
    (fun room z => if room <? 4 then None
                   else let w := uint32 (wr z) in Some (be32 w, rd w))
    (fun buf pos => w ← get32 buf pos; Some (rd w, pos + 4)).

(** A long that does not fit in four bytes is not sent. *)
Definition rfc_u_long : codec Z Z :=
  Codec
    (fun room z => if (room <? 4) || negb (z =? uint32 z) then None else Some (be32 z, z))
    (fun buf pos => w ← get32 buf pos; Some (w, pos + 4)).

Definition rfc_double : codec Z Z :=
  hi ← via (fun z => z / 2 ^ 32) (unit32 id id);
  lo ← via (fun z => z) (unit32 id id);
  mret (hi * 2 ^ 32 + lo).

Definition pad (b : list Z) : list Z := b ++ replicate (Z.to_nat (rndup (len b) - len b)) 0.

(** Variable-length opaque data, at most [max] bytes. *)
Definition rfc_bytes (max : Z) : codec (list Z) (list Z) :=
  Codec
    (fun room b => if (room <? 4 + rndup (len b)) || (max <? len b) then None
                   else Some (be32 (len b) ++ pad b, b))
    (fun buf pos =>
       n ← get32 buf pos;
       if max <? n then None
       else b ← get_bytes buf (pos + 4) (rndup n);
            Some (take (Z.to_nat n) b, pos + 4 + rndup n)).

(** What a C program sees of the characters received. *)
Fixpoint upto_nul (s : cstr) : cstr :=
  match s with [] => [] | c :: s => if ch_eqb c NUL then [] else c :: upto_nul s end.

Definition rfc_string (max : Z) : codec cstr cstr :=
  Codec
    (fun room s => '(b, _) ← enc (rfc_bytes max) room (map code s); Some (b, s))
    (fun buf pos => '(b, p) ← dec (rfc_bytes max) buf pos; Some (upto_nul (map chr b), p)).

Lemma get_bytes_app pre b post : get_bytes (pre ++ b ++ post) (len pre) (len b) = Some b.
Proof.
  unfold get_bytes. rewrite (proj2 (Z.ltb_ge _ _)) by apply len_nonneg.
  destruct (len_take_drop pre (b ++ post) _ eq_refl) as [_ ->].
  destruct (len_take_drop b post _ eq_refl) as [-> _]. by rewrite Z.eqb_refl.
Qed.

Lemma get32_app pre z post : u_int_ok z -> get32 (pre ++ be32 z ++ post) (len pre) = Some z.
Proof.
  intros Hz. unfold get32. rewrite (get_bytes_app pre (be32 z) post : get_bytes _ _ 4 = _).
  unfold be32. f_equal. unfold u_int_ok, in_uint in Hz. Z.to_euclidean_division_equations. lia.
Qed.

Lemma unit32_law wr rd z : rd (uint32 (wr z)) = z -> exists bs, carries_n 4 (unit32 wr rd) z z bs.
Proof.
  intros Hz. exists (be32 (uint32 (wr z))). split; [done| |].
  - intros room Hr. simpl. rewrite (proj2 (Z.ltb_ge _ _)) by lia. by rewrite Hz.
  - intros pre post. cbn [dec unit32]. rewrite get32_app by by apply uint_of_range. simpl. by rewrite Hz.
Qed.

Lemma rfc_u_long_law z : u_int_ok z -> exists bs, carries_n 4 rfc_u_long z z bs.
Proof.
  intros Hz. exists (be32 z). split; [done| |].
  - intros room Hr. simpl. rewrite (proj2 (Z.ltb_ge _ _)) by lia.
    by rewrite uint_of_id, Z.eqb_refl by exact Hz.
  - intros pre post. cbn [dec rfc_u_long]. by rewrite get32_app.
Qed.

Lemma rfc_double_law z : in_uint 64 z -> exists bs, carries_n 8 rfc_double z z bs.
Proof.
  intros Hz. unfold in_uint in Hz.
  destruct (unit32_law id id (z / 2 ^ 32)) as [b1 C1].
  { apply uint_of_id. unfold in_uint, id. Z.to_euclidean_division_equations. lia. }
  assert (exists b2, carries_n 4 (unit32 id id) z (z mod 2 ^ 32) b2) as [b2 C2].
  { exists (be32 (uint32 z)). split; [done| |].
    - intros room Hr. simpl. by rewrite (proj2 (Z.ltb_ge _ _)) by lia.
    - intros pre post. cbn [dec unit32]. by rewrite get32_app by by apply uint_of_range. }
  exists (b1 ++ b2 ++ []). change 8 with (4 + (4 + 0)).
  eapply carn_bind; [apply carn_via; exact C1|]. eapply carn_bind; [apply carn_via; exact C2|].
  replace (z / 2 ^ 32 * 2 ^ 32 + z mod 2 ^ 32) with z by (pose proof (Z.div_mod z (2 ^ 32)); lia).
  apply carn_ret.
Qed.

Lemma rndup_ge n : n <= rndup n.
Proof. unfold rndup. Z.to_euclidean_division_equations. lia. Qed.

Lemma len_pad b : len (pad b) = rndup (len b).
Proof.
  unfold pad. rewrite len_app. unfold len at 2. rewrite length_replicate.
  pose proof (rndup_ge (len b)). lia.
Qed.

Lemma rfc_bytes_law max b : len b <= max -> len b < 2 ^ 31 ->
  carries_n (4 + rndup (len b)) (rfc_bytes max) b b (be32 (len b) ++ pad b).
Proof.
  intros Hm Hl. pose proof (len_nonneg b). assert (u_int_ok (len b)) as Hu by (unfold u_int_ok, in_uint; lia).
  split.
  - rewrite len_app, len_pad. done.
  - intros room Hr. simpl. rewrite !(proj2 (Z.ltb_ge _ _)) by lia. done.
  - intros pre post. cbn [dec rfc_bytes]. rewrite <- app_assoc, get32_app by done. cbn [mbind option_bind].
    rewrite (proj2 (Z.ltb_ge _ _)) by lia.
    replace (pre ++ be32 (len b) ++ pad b ++ post) with ((pre ++ be32 (len b)) ++ pad b ++ post)
      by by rewrite <- app_assoc.
    replace (len pre + 4) with (len (pre ++ be32 (len b))) by by rewrite len_app.
    rewrite <- len_pad, get_bytes_app. simpl. unfold pad at 1. rewrite len_pad.
    destruct (len_take_drop b (replicate (Z.to_nat (rndup (len b) - len b)) 0) _ eq_refl) as [-> _].
    do 2 f_equal. rewrite len_app. change (len (be32 (len b))) with 4. lia.
Qed.

Lemma upto_nul_id s : no_nul s -> upto_nul s = s.
Proof.
  unfold no_nul. induction s as [|c s IH]; simpl; [done|]. intros Hn.
  destruct (ch_eqb c NUL) eqn:Hc.
  - apply ch_eqb_eq in Hc. subst. exfalso. apply Hn. by left.
  - rewrite IH; [done|]. intros Hi. apply Hn. by right.
Qed.

Lemma map_chr_code s : map chr (map code s) = s.
Proof.
  induction s as [|c s IH]; simpl; [done|]. rewrite IH. f_equal. unfold chr, code.
  rewrite N2Z.id. apply ascii_N_embedding.
Qed.

Lemma len_map_code s : len (map code s) = strlen s.
Proof. unfold len, strlen. by rewrite length_map. Qed.

Lemma rfc_string_law max s : str_ok max s -> strlen s < 2 ^ 31 ->
  exists bs, carries_n (4 + rndup (strlen s)) (rfc_string max) s s bs /\
    forall pre post, dec (unit32 id int32) (pre ++ bs ++ post) (len pre) = Some (strlen s, len pre + 4).
Proof.
  intros [Hn Hm] Hl. assert (0 <= strlen s) by (unfold strlen; lia).
  rewrite <- len_map_code in Hm, Hl. pose proof (rfc_bytes_law max (map code s) Hm Hl) as [L E D].
  rewrite len_map_code in *. eexists. split; [split; [exact L| |]|].
  - intros room Hr. cbn [enc rfc_string]. rewrite E by done. done.
  - intros pre post. cbn [dec rfc_string]. rewrite D. simpl. by rewrite map_chr_code, upto_nul_id.
  - intros pre post. cbn [dec unit32]. rewrite <- app_assoc, get32_app by (unfold u_int_ok, in_uint; lia). simpl.
    rewrite sint_of_id; [done|lia|unfold in_sint; lia].
Qed.

#[export] Instance rfc4506 : XdrPrims.
Proof.
  refine {|
    xdr_u_int := unit32 id id; xdr_int := unit32 id int32; xdr_u_long := rfc_u_long;
    xdr_u_short := unit32 id uint16; xdr_short := unit32 id (sint_of 16);
    xdr_bool := unit32 (fun z => if z =? 0 then 0 else 1) (fun w => if w =? 0 then 0 else 1);
    xdr_enum := unit32 id int32; xdr_float := unit32 id id; xdr_double := rfc_double;
    xdr_string := rfc_string; xdr_bytes := rfc_bytes |}.
  - intros z Hz. apply unit32_law. by apply uint_of_id.
  - intros z Hz. apply unit32_law. by apply sint_uint_of.
  - apply rfc_u_long_law.
  - intros z Hz. apply unit32_law. unfold in_uint in Hz.
    rewrite !uint_of_id by (unfold in_uint, id in *; rewrite ?uint_of_id; unfold in_uint; lia). done.
  - intros z Hz. apply unit32_law. unfold in_sint in Hz. unfold uint_of, sint_of, id.
    Z.to_euclidean_division_equations. lia.
  - intros z Hz. apply unit32_law. by destruct Hz as [-> | ->].
  - intros z Hz. apply unit32_law. by apply sint_uint_of.
  - intros z Hz. apply unit32_law. by apply uint_of_id.
  - apply rfc_double_law.
  - apply rfc_string_law.
  - intros max b _ Hm Hl. eexists. by apply rfc_bytes_law.
Defined.

(** ** Received credentials *)

(** [char data[EAUTH_SIZE]] in [struct eauth]. *)
Definition EAUTH_SIZE : Z := 4096.

(** The length of received credentials is not checked: for every
    length below 2^31, in particular above the EAUTH_SIZE bytes of the array they
    are stored in, there is a message on which [xdr_lsfAuth] succeeds and stores
    that many bytes. *)
Theorem eauth_unbounded `{XdrPrims} n :
  0 <= n < 2 ^ 31 ->
  exists buf a p, dec xdr_lsfAuth buf 0 = Some (a, p) /\ au_kind a = CLIENT_EAUTH /\ len (au_data a) = n.
Proof.
  intros Hn. set (a := LsfAuth 0 0 [] CLIENT_EAUTH (replicate (Z.to_nat n) 0) 0 AUTH_HOST_UX).
  assert (len (au_data a) = n) as Hl by (unfold len; simpl; rewrite length_replicate; lia).
  destruct (auth_carries a) as [bs [L E D]].
  { assert (forall z, -4 <= z <= 4 -> int_ok z) as Hi by (unfold int_ok, in_sint; lia).
    split_and!; [by apply Hi|by apply Hi|by split; [apply not_elem_of_nil|]|by apply Hi|done|].
    split_and!; [|lia|done]. apply Forall_replicate. unfold in_uint. lia. }
  exists bs, a, (auth_size a). pose proof (D [] []) as Hd. rewrite app_nil_l, app_nil_r in Hd.
  change (len (@nil Z)) with 0 in Hd. by rewrite Hd.
Qed.

(** ** Witnesses *)

Definition demo_header : LSFHeader := Header 1 20 0 OPENLAVA_VERSION 0 0.

Lemma demo_header_ok : ok_header demo_header.
Proof. repeat split; vm_compute; congruence. Qed.

Definition demo_auth : lsfAuth := LsfAuth 500 100 (lit "lsfadmin") CLIENT_EAUTH [1; 2; 3] 0 AUTH_HOST_UX.

#[export] Instance no_nul_dec s : Decision (no_nul s).
Proof. unfold no_nul. apply _. Defined.

Lemma demo_auth_ok : ok_auth demo_auth.
Proof.
  split_and!; try (unfold int_ok, in_sint; simpl; unfold CLIENT_EAUTH; lia); try done.
  - split; [by apply (bool_decide_unpack _)|vm_compute; congruence].
  - split_and!; [|vm_compute; congruence|done]. repeat constructor; vm_compute; congruence.
Qed.

Lemma header_round_trip_witness :
  exists bs, xdr_packLSFHeader demo_header = Some bs /\ len bs = 16.
Proof.
  destruct (header_round_trip demo_header demo_header_ok) as (bs & H1 & H2 & _). by exists bs.
Defined.

Lemma auth_round_trip_witness :
  exists bs, enc xdr_lsfAuth (xdr_lsfAuthSize (Some demo_auth)) demo_auth = Some (bs, demo_auth).
Proof. destruct (auth_round_trip demo_auth demo_auth_ok) as (bs & H1 & _). by exists bs. Defined.

Lemma message_round_trip_witness :
  exists bytes hdr' rest,
    xdr_encodeMsg 1024 (Some 42) demo_header xdr_int (Some demo_auth) = Some (bytes, hdr') /\
    readDecodeMsg_ rest hdr' xdr_int true = (0, Some (Some demo_auth, 42), [7]).
Proof.
  destruct (int_law 42 ltac:(unfold int_ok, in_sint; lia)) as [bs Hc].
  destruct (message_round_trip xdr_int 42 4 bs demo_header (Some demo_auth) 1024 [7] Hc
              demo_header_ok demo_auth_ok ltac:(vm_compute; reflexivity) ltac:(vm_compute; congruence))
    as (bytes & hdr' & rest & H1 & _ & _ & H4).
  by exists bytes, hdr', rest.
Defined.

Lemma library_round_trips_witness :
  round_trips xdr_LSFlong (-5) /\ round_trips xdr_jRusage (JRusage 1 2 3 4 1 [PidInfo 9 8 7 6] 1 [9]).
Proof.
  destruct (library_round_trips (-5) (LsfLimit 1 2 3 4) (DebugReq 1 2 3 4 (lit "hostA") (lit "/tmp"))
              (JRusage 1 2 3 4 1 [PidInfo 9 8 7 6] 1 [9])) as (H1 & _ & _ & H4).
  - unfold in_sint. lia.
  - repeat split; vm_compute; congruence.
  - split_and!; try (unfold int_ok, in_sint; simpl; lia);
      (split; [by apply (bool_decide_unpack _)|vm_compute; congruence]).
  - split_and!; try (unfold int_ok, in_sint; simpl; lia); try done;
      repeat constructor; vm_compute; congruence.
  - split; [exact H1|exact H4].
Defined.

Lemma getXdrStrlen_error_witness :
  getXdrStrlen (Some (lit "a")) = 4 /\
  exists n bs, carries_n n (xdr_string 64) (lit "a") (lit "a") bs /\ n = 8.
Proof.
  split; [reflexivity|].
  destruct (getXdrStrlen_error 64 (lit "a")) as (n & bs & Hc & Hn);
    [split; [by apply (bool_decide_unpack _)|vm_compute; congruence]|lia|].
  exists n, bs. split; [exact Hc|exact Hn].
Defined.

Lemma eauth_unbounded_witness :
  exists buf a p, dec xdr_lsfAuth buf 0 = Some (a, p) /\ EAUTH_SIZE < len (au_data a).
Proof.
  destruct (eauth_unbounded 5000) as (buf & a & p & H1 & _ & H3); [lia|].
  exists buf, a, p. split; [exact H1|]. rewrite H3. reflexivity.
Defined.
