(* ===== verification/LsbXdr.v ===== *)
(** * The messages of the batch system (lsb.xdr.c)

    The requests that the commands send to mbatchd and its replies, as codecs
    in the order of the C code.  A structure holds the fields that are sent; an
    array and its count are separate fields, as in C.  Job identifiers are sent
    as two ints, the array index at the end of the message. *)

From S2P Require Import Prelude CLib HashTable JobId Xdr.

Definition MAXFILENAMELEN : Z := 256.
Definition MAX_LSB_NAME_LEN : Z := 60.
Definition MAX_CMD_DESC_LEN : Z := 256.
Definition MAXLINELEN : Z := 512.
Definition LSB_MAX_SD_LENGTH : Z := 128.
Definition LSF_RLIM_NLIMITS : Z := 11.
Definition LSB_SIG_NUM : Z := 23.
Definition NUM_JGRP_COUNTERS_ : Z := 8.
Definition JGRP_NODE_GROUP : Z := 2.
Definition CHECK_HOST : Z := 0x80.
Definition CHECK_USER : Z := 0x100.
Definition SIG_CHKPNT : Z := -1.
Definition SIG_DELETE_JOB : Z := -3.
Definition SIG_ARRAY_REQUEUE : Z := -23.

(** ** Data *)

Record xFile := XFile { xf_subFn : cstr; xf_execFn : cstr; xf_options : Z }.

Record submitReq := SubmitReq {
  sb_options : Z; sb_queue : cstr; sb_resReq : cstr; sb_numProcessors : Z; sb_fromHost : cstr;
  sb_dependCond : cstr; sb_jobName : cstr; sb_command : cstr; sb_jobFile : cstr; sb_inFile : cstr;
  sb_outFile : cstr; sb_errFile : cstr; sb_preExecCmd : cstr; sb_hostSpec : cstr;
  sb_numAskedHosts : Z; sb_askedHosts : list cstr; sb_rLimits : list Z; sb_submitTime : Z;
  sb_beginTime : Z; sb_termTime : Z; sb_umask : Z; sb_sigValue : Z; sb_restartPid : Z;
  sb_chkpntPeriod : Z; sb_chkpntDir : cstr; sb_subHomeDir : cstr; sb_cwd : cstr; sb_nxf : Z;
  sb_xf : list xFile; sb_mailUser : cstr; sb_projectName : cstr; sb_niosPort : Z;
  sb_maxNumProcessors : Z; sb_loginShell : cstr; sb_schedHostType : cstr; sb_options2 : Z;
  sb_inFileSpool : cstr; sb_commandSpool : cstr; sb_userPriority : Z }.

Record modifyReq := ModifyReq {
  md_jobId : Z; md_jobIdStr : cstr; md_delOptions : Z; md_delOptions2 : Z; md_submitReq : submitReq }.

Record jobInfoReq := JobInfoReq {
  ji_options : Z; ji_userName : cstr; ji_jobId : Z; ji_jobName : cstr; ji_queue : cstr; ji_host : cstr }.

Record signalReq := SignalReq { sg_sigValue : Z; sg_jobId : Z; sg_chk : option (Z * Z) }.

Record lsbMsg := LsbMsg {
  lm_msgId : Z; lm_usrId : Z; lm_jobId : Z; lm_type : Z; lm_src : cstr; lm_dest : cstr; lm_msg : cstr }.

Record submitMbdReply := SubmitMbdReply {
  sr_jobId : Z; sr_badReqIndx : Z; sr_queue : cstr; sr_badJobName : cstr }.

Record parameterInfo := ParameterInfo {
  pa_defaultQueues : cstr; pa_defaultHostSpec : cstr; pa_mbatchdInterval : Z; pa_sbatchdInterval : Z;
  pa_jobAcceptInterval : Z; pa_maxDispRetries : Z; pa_maxSbdRetries : Z; pa_cleanPeriod : Z;
  pa_maxNumJobs : Z; pa_pgSuspendIt : Z; pa_defaultProject : cstr; pa_maxJobArraySize : Z;
  pa_jobTerminateInterval : Z; pa_disableUAcctMap : Z; pa_pjobSpoolDir : cstr;
  pa_maxUserPriority : Z; pa_jobPriorityValue : Z; pa_jobPriorityTime : Z; pa_maxJobId : Z;
  pa_maxAcctArchiveNum : Z; pa_acctArchiveInDays : Z; pa_acctArchiveInSize : Z;
  pa_jobDepLastSub : Z; pa_sharedResourceUpdFactor : Z }.

Record jobInfoHead := JobInfoHead {
  jh_numJobs : Z; jh_numHosts : Z; jh_jobIds : list Z; jh_hostNames : list cstr }.

(** The part of [struct jobInfoReply] that is sent for a job group ... *)
Record jgrpPart := JgrpPart {
  jg_jobId : Z; jg_status : Z; jg_reasons : Z; jg_subreasons : Z; jg_startTime : Z;
  jg_predictedStartTime : Z; jg_endTime : Z; jg_cpuTime : Z; jg_numToHosts : Z; jg_userId : Z;
  jg_userName : cstr; jg_dependCond : cstr; jg_submitTime : Z; jg_jobName : cstr }.

(** ... and for a job. *)
Record jobPart := JobPart {
  jr_jobId : Z; jr_status : Z; jr_reasons : Z; jr_subreasons : Z; jr_startTime : Z; jr_endTime : Z;
  jr_cpuTime : Z; jr_numToHosts : Z; jr_nIdx : Z; jr_numReasons : Z; jr_userId : Z;
  jr_userName : cstr; jr_loadSched : list Z; jr_loadStop : list Z; jr_reasonTb : list Z;
  jr_toHosts : list cstr; jr_jobBill : submitReq; jr_exitStatus : Z; jr_execUid : Z;
  jr_execHome : cstr; jr_execCwd : cstr; jr_execUsername : cstr; jr_reserveTime : Z;
  jr_jobPid : Z; jr_jRusageUpdateTime : Z; jr_runRusage : jRusage; jr_predictedStartTime : Z;
  jr_port : Z; jr_jobPriority : Z }.

Record jobInfoReply := JobInfoReply {
  jy_jType : Z; jy_parentGroup : cstr; jy_jName : cstr; jy_counter : list Z;
  jy_body : jgrpPart + jobPart }.

Record infoReq := InfoReq { in_options : Z; in_numNames : Z; in_names : list cstr; in_resReq : cstr }.

Record userInfoEnt := UserInfoEnt {
  ui_user : cstr; ui_procJobLimit : Z; ui_maxJobs : Z; ui_numStartJobs : Z; ui_numJobs : Z;
  ui_numPEND : Z; ui_numRUN : Z; ui_numSSUSP : Z; ui_numUSUSP : Z; ui_numRESERVE : Z }.

Record userInfoReply := UserInfoReply { uy_numUsers : Z; uy_badUser : Z; uy_users : list userInfoEnt }.

Record jobPeekReply := JobPeekReply { pk_outFile : cstr; pk_pSpoolDir : cstr }.

Record groupInfoEnt := GroupInfoEnt { gi_group : cstr; gi_memberList : cstr }.

Record groupInfoReply := GroupInfoReply { gy_numGroups : Z; gy_groups : list groupInfoEnt }.

Record controlReq := ControlReq { ct_opCode : Z; ct_name : cstr }.

Record jobSwitchReq := JobSwitchReq { sw_jobId : Z; sw_queue : cstr }.

Record jobMoveReq := JobMoveReq { mv_opCode : Z; mv_jobId : Z; mv_position : Z }.

Record migReq := MigReq {
  mg_jobId : Z; mg_options : Z; mg_numAskedHosts : Z; mg_askedHosts : list cstr }.

Record resInstance := ResInstance {
  ri_totalValue : cstr; ri_rsvValue : cstr; ri_nHosts : Z; ri_hostList : list cstr }.

Record resInfo := ResInfo { rs_resourceName : cstr; rs_nInstances : Z; rs_instances : list resInstance }.

Record resInfoReply := ResInfoReply { ry_numResources : Z; ry_badResource : Z; ry_resources : list resInfo }.

Record runJobRequest := RunJobRequest {
  rj_jobId : Z; rj_numHosts : Z; rj_hostname : list cstr; rj_options : Z }.

Record jobAttrInfoEnt := JobAttrInfoEnt { ja_jobId : Z; ja_port : Z; ja_hostname : cstr }.

(** [struct queueInfoEnt] and [struct hostInfoEnt]: the number of load indices is
    sent once for all entries. *)
Record queueInfoEnt := QueueInfoEnt {
  qi_queue : cstr; qi_description : cstr; qi_userList : cstr; qi_hostList : cstr; qi_windows : cstr;
  qi_hostSpec : cstr; qi_rLimits : list Z; qi_nIdx : Z; qi_loadSched : list Z; qi_loadStop : list Z;
  qi_priority : Z; qi_nice : Z; qi_userJobLimit : Z; qi_procJobLimit : Z; qi_qAttrib : Z;
  qi_qStatus : Z; qi_maxJobs : Z; qi_numJobs : Z; qi_numPEND : Z; qi_numRUN : Z; qi_numSSUSP : Z;
  qi_numUSUSP : Z; qi_mig : Z; qi_acceptIntvl : Z; qi_schedDelay : Z; qi_windowsD : cstr;
  qi_defaultHostSpec : cstr; qi_procLimit : Z; qi_admins : cstr; qi_preCmd : cstr; qi_postCmd : cstr;
  qi_prepostUsername : cstr; qi_requeueEValues : cstr; qi_hostJobLimit : Z; qi_resReq : cstr;
  qi_numRESERVE : Z; qi_slotHoldTime : Z; qi_resumeCond : cstr; qi_stopCond : cstr;
  qi_jobStarter : cstr; qi_suspendActCmd : cstr; qi_resumeActCmd : cstr; qi_terminateActCmd : cstr;
  qi_sigMap : list Z; qi_chkpntDir : cstr; qi_chkpntPeriod : Z; qi_defLimits : list Z;
  qi_minProcLimit : Z; qi_defProcLimit : Z }.

Record queueInfoReply := QueueInfoReply {
  qy_numQueues : Z; qy_badQueue : Z; qy_nIdx : Z; qy_queues : list queueInfoEnt }.

Record hostInfoEnt := HostInfoEnt {
  hi_host : cstr; hi_cpuFactor : Z; hi_windows : cstr; hi_userJobLimit : Z; hi_maxJobs : Z;
  hi_numJobs : Z; hi_numRUN : Z; hi_numSSUSP : Z; hi_numUSUSP : Z; hi_hStatus : Z; hi_attr : Z;
  hi_mig : Z; hi_nIdx : Z; hi_busySched : list Z; hi_busyStop : list Z; hi_loadSched : list Z;
  hi_loadStop : list Z; hi_realLoad : list Z; hi_load : list Z; hi_numRESERVE : Z }.

Record hostDataReply := HostDataReply {
  hy_numHosts : Z; hy_badHost : Z; hy_nIdx : Z; hy_hosts : list hostInfoEnt; hy_flag : Z }.

Definition GET_INTNUM (i : Z) : Z := Z.quot i 32 + 1.

(** ** Routines *)

Section Routines.
Context `{XdrPrims}.

(** [jobId64To32] before an int is sent. *)
Definition arr_id {X} (f : X -> Z) (x : X) : Z := fst (jobId64To32 (f x)).
Definition arr_elem {X} (f : X -> Z) (x : X) : Z := snd (jobId64To32 (f x)).

(** An int that is sent as an unsigned one. *)
Definition xdr_int_as_u_int {X} (f : X -> Z) : codec X Z :=
  w ← via (fun x => uint32 (f x)) xdr_u_int; mret (int32 w).

Definition xdr_xFile : codec xFile xFile :=
  subFn ← via xf_subFn (xdr_string MAXFILENAMELEN);
  execFn ← via xf_execFn (xdr_string MAXFILENAMELEN);
  options ← via xf_options xdr_int;
  mret (XFile subFn execFn options).

(** Of the resource limits, those beyond the known ones are skipped. *)
Definition xdr_submitReq : codec submitReq submitReq :=
  options ← xdr_int_as_u_int sb_options;
  queue ← via sb_queue xdr_var_string;
  resReq ← via sb_resReq xdr_var_string;
  numProcessors ← via sb_numProcessors xdr_int;
  fromHost ← via sb_fromHost (xdr_string MAXHOSTNAMELEN);
  dependCond ← via sb_dependCond xdr_var_string;
  jobName ← via sb_jobName xdr_var_string;
  command ← via sb_command xdr_var_string;
  jobFile ← via sb_jobFile (xdr_string MAXFILENAMELEN);
  inFile ← via sb_inFile (xdr_string MAXFILENAMELEN);
  outFile ← via sb_outFile (xdr_string MAXFILENAMELEN);
  errFile ← via sb_errFile (xdr_string MAXFILENAMELEN);
  preExecCmd ← via sb_preExecCmd xdr_var_string;
  hostSpec ← via sb_hostSpec (xdr_string MAXHOSTNAMELEN);
  numAskedHosts ← via sb_numAskedHosts xdr_int;
  askedHosts ← xdr_elems numAskedHosts sb_askedHosts xdr_var_string;
  nLimits ← via (fun _ => LSF_RLIM_NLIMITS) xdr_int;
  rLimits ← xdr_elems nLimits sb_rLimits xdr_int;
  submitTime ← via sb_submitTime xdr_time_t;
  beginTime ← via sb_beginTime xdr_time_t;
  termTime ← via sb_termTime xdr_time_t;
  umask ← via sb_umask xdr_int;
  sigValue ← via sb_sigValue xdr_int;
  restartPid ← via sb_restartPid xdr_int;
  chkpntPeriod ← via sb_chkpntPeriod xdr_time_t;
  chkpntDir ← via sb_chkpntDir (xdr_string MAXFILENAMELEN);
  subHomeDir ← via sb_subHomeDir (xdr_string MAXFILENAMELEN);
  cwd ← via sb_cwd (xdr_string MAXFILENAMELEN);
  nxf ← via sb_nxf xdr_int;
  xf ← xdr_elems nxf sb_xf (xdr_arrayElement xdr_xFile);
  mailUser ← via sb_mailUser xdr_var_string;
  projectName ← via sb_projectName xdr_var_string;
  niosPort ← via sb_niosPort xdr_int;
  maxNumProcessors ← via sb_maxNumProcessors xdr_int;
  loginShell ← via sb_loginShell xdr_var_string;
  schedHostType ← via sb_schedHostType xdr_var_string;
  options2 ← via sb_options2 xdr_int;
  inFileSpool ← via sb_inFileSpool (xdr_string MAXFILENAMELEN);
  commandSpool ← via sb_commandSpool (xdr_string MAXFILENAMELEN);
  userPriority ← via sb_userPriority xdr_int;
  mret (SubmitReq options queue resReq numProcessors fromHost dependCond jobName command jobFile
          inFile outFile errFile preExecCmd hostSpec numAskedHosts askedHosts
          (take (Z.to_nat LSF_RLIM_NLIMITS) rLimits) submitTime beginTime termTime umask sigValue
          restartPid chkpntPeriod chkpntDir subHomeDir cwd nxf xf mailUser projectName niosPort
          maxNumProcessors loginShell schedHostType options2 inFileSpool commandSpool userPriority).

Definition xdr_modifyReq : codec modifyReq modifyReq :=
  jobArrId ← via (arr_id md_jobId) xdr_int;
  delOptions ← via md_delOptions xdr_int;
  submit ← via md_submitReq (xdr_arrayElement xdr_submitReq);
  jobIdStr ← via md_jobIdStr xdr_var_string;
  delOptions2 ← via md_delOptions2 xdr_int;
  jobArrElemId ← via (arr_elem md_jobId) xdr_int;
  mret (ModifyReq (jobId32To64 jobArrId jobArrElemId) jobIdStr delOptions delOptions2 submit).

Definition xdr_jobInfoReq : codec jobInfoReq jobInfoReq :=
  userName ← via ji_userName xdr_var_string;
  jobArrId ← via (arr_id ji_jobId) xdr_int;
  options ← via ji_options xdr_int;
  queue ← via ji_queue xdr_var_string;
  host ← via ji_host xdr_var_string;
  jobName ← via ji_jobName xdr_var_string;
  jobArrElemId ← via (arr_elem ji_jobId) xdr_int;
  mret (JobInfoReq options userName (jobId32To64 jobArrId jobArrElemId) jobName queue host).

Definition with_period (sigValue : Z) : bool :=
  (sigValue =? SIG_CHKPNT) || (sigValue =? SIG_DELETE_JOB) || (sigValue =? SIG_ARRAY_REQUEUE).

(** The period and the flags are sent with some signals only. *)
Definition xdr_signalReq : codec signalReq signalReq :=
  sigValue ← via sg_sigValue xdr_int;
  jobArrId ← via (arr_id sg_jobId) xdr_int;
  chk ← (if with_period sigValue
         then chkPeriod ← via (fun r => fst (default (0, 0) (sg_chk r))) xdr_time_t;
              actFlags ← via (fun r => snd (default (0, 0) (sg_chk r))) xdr_int;
              mret (Some (chkPeriod, actFlags))
         else mret None);
  jobArrElemId ← via (arr_elem sg_jobId) xdr_int;
  mret (SignalReq sigValue (jobId32To64 jobArrId jobArrElemId) chk).

Definition xdr_lsbMsg : codec lsbMsg lsbMsg :=
  msgId ← via lm_msgId xdr_int;
  usrId ← via lm_usrId xdr_int;
  jobArrId ← via (arr_id lm_jobId) xdr_int;
  type ← via lm_type xdr_int;
  src ← via lm_src (xdr_string LSB_MAX_SD_LENGTH);
  dest ← via lm_dest (xdr_string LSB_MAX_SD_LENGTH);
  msg ← via lm_msg xdr_var_string;
  jobArrElemId ← via (arr_elem lm_jobId) xdr_int;
  mret (LsbMsg msgId usrId (jobId32To64 jobArrId jobArrElemId) type src dest msg).

Definition xdr_submitMbdReply : codec submitMbdReply submitMbdReply :=
  jobArrId ← via (arr_id sr_jobId) xdr_int;
  badReqIndx ← via sr_badReqIndx xdr_int;
  queue ← via sr_queue (xdr_string MAX_LSB_NAME_LEN);
  badJobName ← via sr_badJobName (xdr_string MAX_CMD_DESC_LEN);
  jobArrElemId ← via (arr_elem sr_jobId) xdr_int;
  mret (SubmitMbdReply (jobId32To64 jobArrId jobArrElemId) badReqIndx queue badJobName).

(** [maxJobArraySize] is sent twice; the second value is kept. *)
Definition xdr_parameterInfo : codec parameterInfo parameterInfo :=
  defaultQueues ← via pa_defaultQueues xdr_var_string;
  defaultHostSpec ← via pa_defaultHostSpec xdr_var_string;
  mbatchdInterval ← via pa_mbatchdInterval xdr_int;
  sbatchdInterval ← via pa_sbatchdInterval xdr_int;
  jobAcceptInterval ← via pa_jobAcceptInterval xdr_int;
  maxDispRetries ← via pa_maxDispRetries xdr_int;
  maxSbdRetries ← via pa_maxSbdRetries xdr_int;
  cleanPeriod ← via pa_cleanPeriod xdr_int;
  maxNumJobs ← via pa_maxNumJobs xdr_int;
  pgSuspendIt ← via pa_pgSuspendIt xdr_int;
  defaultProject ← via pa_defaultProject xdr_var_string;
  _ ← via pa_maxJobArraySize xdr_int;
  jobTerminateInterval ← via pa_jobTerminateInterval xdr_int;
  disableUAcctMap ← via pa_disableUAcctMap xdr_bool;
  maxJobArraySize ← via pa_maxJobArraySize xdr_int;
  pjobSpoolDir ← via pa_pjobSpoolDir xdr_var_string;
  maxUserPriority ← via pa_maxUserPriority xdr_int;
  jobPriorityValue ← via pa_jobPriorityValue xdr_int;
  jobPriorityTime ← via pa_jobPriorityTime xdr_int;
  maxJobId ← via pa_maxJobId xdr_int;
  maxAcctArchiveNum ← via pa_maxAcctArchiveNum xdr_int;
  acctArchiveInDays ← via pa_acctArchiveInDays xdr_int;
  acctArchiveInSize ← via pa_acctArchiveInSize xdr_int;
  jobDepLastSub ← via pa_jobDepLastSub xdr_int;
  sharedResourceUpdFactor ← via pa_sharedResourceUpdFactor xdr_int;
  mret (ParameterInfo defaultQueues defaultHostSpec mbatchdInterval sbatchdInterval
          jobAcceptInterval maxDispRetries maxSbdRetries cleanPeriod maxNumJobs pgSuspendIt
          defaultProject maxJobArraySize jobTerminateInterval disableUAcctMap pjobSpoolDir
          maxUserPriority jobPriorityValue jobPriorityTime maxJobId maxAcctArchiveNum
          acctArchiveInDays acctArchiveInSize jobDepLastSub sharedResourceUpdFactor).

Definition xdr_jobInfoHead : codec jobInfoHead jobInfoHead :=
  numJobs ← via jh_numJobs xdr_int;
  numHosts ← via jh_numHosts xdr_int;
  jobArrIds ← xdr_elems numJobs (fun h => map (arr_id id) (jh_jobIds h)) xdr_int;
  hostNames ← xdr_elems numHosts jh_hostNames (xdr_string MAXHOSTNAMELEN);
  jobArrElemIds ← xdr_elems numJobs (fun h => map (arr_elem id) (jh_jobIds h)) xdr_int;
  mret (JobInfoHead numJobs numHosts (zip_with jobId32To64 jobArrIds jobArrElemIds) hostNames).

Definition xdr_jgrpInfoReply : codec jgrpPart jgrpPart :=
  jobArrId ← via (arr_id jg_jobId) xdr_int;
  status ← via jg_status xdr_int;
  reasons ← via jg_reasons xdr_int;
  subreasons ← via jg_subreasons xdr_int;
  startTime ← via jg_startTime xdr_time_t;
  predictedStartTime ← via jg_predictedStartTime xdr_time_t;
  endTime ← via jg_endTime xdr_time_t;
  cpuTime ← via jg_cpuTime xdr_float;
  numToHosts ← via jg_numToHosts xdr_int;
  userId ← via jg_userId xdr_int;
  userName ← via jg_userName (xdr_string MAXLSFNAMELEN);
  dependCond ← via jg_dependCond xdr_var_string;
  submitTime ← via jg_submitTime xdr_time_t;
  jobName ← via jg_jobName xdr_var_string;
  jobArrElemId ← via (arr_elem jg_jobId) xdr_int;
  mret (JgrpPart (jobId32To64 jobArrId jobArrElemId) status reasons subreasons startTime
          predictedStartTime endTime cpuTime numToHosts userId userName dependCond submitTime jobName).

(** Two arrays, of which the elements are sent alternately. *)
Definition xdr_pair (c : codec Z Z) : codec (Z * Z) (Z * Z) :=
  a ← via fst c; b ← via snd c; mret (a, b).

Definition xdr_two {X} (n : Z) (f g : X -> list Z) (c : codec Z Z) : codec X (list Z * list Z) :=
  l ← xdr_elems n (fun x => zip (f x) (g x)) (xdr_pair c); mret (l.*1, l.*2).

(** The part of [xdr_jobInfoReply] behind the test for a group. *)
Definition xdr_jobPart : codec jobPart jobPart :=
  jobArrId ← via (arr_id jr_jobId) xdr_int;
  status ← via jr_status xdr_int;
  reasons ← via jr_reasons xdr_int;
  subreasons ← via jr_subreasons xdr_int;
  startTime ← via jr_startTime xdr_time_t;
  endTime ← via jr_endTime xdr_time_t;
  cpuTime ← via jr_cpuTime xdr_float;
  numToHosts ← via jr_numToHosts xdr_int;
  nIdx ← via jr_nIdx xdr_int;
  numReasons ← via jr_numReasons xdr_int;
  userId ← via jr_userId xdr_int;
  userName ← via jr_userName (xdr_string MAXLSFNAMELEN);
  loads ← xdr_two nIdx jr_loadSched jr_loadStop xdr_float;
  reasonTb ← xdr_elems numReasons jr_reasonTb xdr_int;
  toHosts ← xdr_elems numToHosts jr_toHosts (xdr_string MAXHOSTNAMELEN);
  jobBill ← via jr_jobBill (xdr_arrayElement xdr_submitReq);
  exitStatus ← via jr_exitStatus xdr_int;
  execUid ← via jr_execUid xdr_int;
  execHome ← via jr_execHome xdr_var_string;
  execCwd ← via jr_execCwd xdr_var_string;
  execUsername ← via jr_execUsername xdr_var_string;
  reserveTime ← via jr_reserveTime xdr_time_t;
  jobPid ← via jr_jobPid xdr_int;
  jRusageUpdateTime ← via jr_jRusageUpdateTime xdr_time_t;
  runRusage ← via jr_runRusage xdr_jRusage;
  predictedStartTime ← via jr_predictedStartTime xdr_time_t;
  port ← via jr_port xdr_u_short;
  jobPriority ← via jr_jobPriority xdr_int;
  jobArrElemId ← via (arr_elem jr_jobId) xdr_int;
  mret (JobPart (jobId32To64 jobArrId jobArrElemId) status reasons subreasons startTime endTime
          cpuTime numToHosts nIdx numReasons userId userName (fst loads) (snd loads) reasonTb toHosts
          jobBill exitStatus execUid execHome execCwd execUsername reserveTime jobPid
          jRusageUpdateTime runRusage predictedStartTime port jobPriority).

(** A member of a union. *)
Definition on_inl {X Y A} (c : codec X A) : codec (X + Y) A :=
  Codec (fun room s => match s with inl x => enc c room x | inr _ => None end) (dec c).
Definition on_inr {X Y A} (c : codec Y A) : codec (X + Y) A :=
  Codec (fun room s => match s with inr y => enc c room y | inl _ => None end) (dec c).

Definition xdr_jobInfoReply : codec jobInfoReply jobInfoReply :=
  jType ← via jy_jType xdr_int;
  parentGroup ← via jy_parentGroup xdr_var_string;
  jName ← via jy_jName xdr_var_string;
  counter ← xdr_elems NUM_JGRP_COUNTERS_ jy_counter xdr_int;
  body ← (if jType =? JGRP_NODE_GROUP
          then g ← via jy_body (on_inl xdr_jgrpInfoReply); mret (inl g)
          else j ← via jy_body (on_inr xdr_jobPart); mret (inr j));
  mret (JobInfoReply jType parentGroup jName counter body).

(** The names of a host and of a user follow the other names. *)
Definition xdr_infoReq : codec infoReq infoReq :=
  options ← via in_options xdr_int;
  numNames ← via in_numNames xdr_int;
  names ← xdr_elems numNames in_names xdr_var_string;
  let i := Z.to_nat numNames in
  let hosts := if Z.land options CHECK_HOST =? 0 then 0%nat else 1%nat in
  host ← xdr_loop hosts i in_names xdr_var_string;
  user ← xdr_loop (if Z.land options CHECK_USER =? 0 then 0%nat else 1%nat) (i + hosts) in_names
           xdr_var_string;
  resReq ← via in_resReq xdr_var_string;
  mret (InfoReq options numNames (names ++ host ++ user) resReq).

Definition xdr_userInfoEnt : codec userInfoEnt userInfoEnt :=
  user ← via ui_user (xdr_string MAX_LSB_NAME_LEN);
  procJobLimit ← via ui_procJobLimit xdr_float;
  maxJobs ← via ui_maxJobs xdr_int;
  numStartJobs ← via ui_numStartJobs xdr_int;
  numJobs ← via ui_numJobs xdr_int;
  numPEND ← via ui_numPEND xdr_int;
  numRUN ← via ui_numRUN xdr_int;
  numSSUSP ← via ui_numSSUSP xdr_int;
  numUSUSP ← via ui_numUSUSP xdr_int;
  numRESERVE ← via ui_numRESERVE xdr_int;
  mret (UserInfoEnt user procJobLimit maxJobs numStartJobs numJobs numPEND numRUN numSSUSP numUSUSP
          numRESERVE).

Definition xdr_userInfoReply : codec userInfoReply userInfoReply :=
  numUsers ← via uy_numUsers xdr_int;
  badUser ← via uy_badUser xdr_int;
  users ← xdr_elems numUsers uy_users (xdr_arrayElement xdr_userInfoEnt);
  mret (UserInfoReply numUsers badUser users).

(** [struct jobPeekReq] holds a job identifier only. *)
Definition xdr_jobPeekReq : codec Z Z :=
  jobArrId ← via (arr_id id) xdr_int;
  jobArrElemId ← via (arr_elem id) xdr_int;
  mret (jobId32To64 jobArrId jobArrElemId).

Definition xdr_jobPeekReply : codec jobPeekReply jobPeekReply :=
  outFile ← via pk_outFile (xdr_string MAXFILENAMELEN);
  pSpoolDir ← via pk_pSpoolDir xdr_var_string;
  mret (JobPeekReply outFile pSpoolDir).

Definition xdr_groupInfoEnt : codec groupInfoEnt groupInfoEnt :=
  group ← via gi_group xdr_var_string;
  memberList ← via gi_memberList xdr_var_string;
  mret (GroupInfoEnt group memberList).

Definition xdr_groupInfoReply : codec groupInfoReply groupInfoReply :=
  numGroups ← via gy_numGroups xdr_int;
  groups ← xdr_elems numGroups gy_groups (xdr_arrayElement xdr_groupInfoEnt);
  mret (GroupInfoReply numGroups groups).

Definition xdr_controlReq : codec controlReq controlReq :=
  opCode ← via ct_opCode xdr_int;
  name ← via ct_name (xdr_string MAXHOSTNAMELEN);
  mret (ControlReq opCode name).

Definition xdr_jobSwitchReq : codec jobSwitchReq jobSwitchReq :=
  jobArrId ← via (arr_id sw_jobId) xdr_int;
  queue ← via sw_queue (xdr_string MAX_LSB_NAME_LEN);
  jobArrElemId ← via (arr_elem sw_jobId) xdr_int;
  mret (JobSwitchReq (jobId32To64 jobArrId jobArrElemId) queue).

Definition xdr_jobMoveReq : codec jobMoveReq jobMoveReq :=
  opCode ← via mv_opCode xdr_int;
  jobArrId ← via (arr_id mv_jobId) xdr_int;
  position ← via mv_position xdr_int;
  jobArrElemId ← via (arr_elem mv_jobId) xdr_int;
  mret (JobMoveReq opCode (jobId32To64 jobArrId jobArrElemId) position).

Definition xdr_migReq : codec migReq migReq :=
  jobArrId ← via (arr_id mg_jobId) xdr_int;
  options ← via mg_options xdr_int;
  numAskedHosts ← via mg_numAskedHosts xdr_int;
  askedHosts ← xdr_elems numAskedHosts mg_askedHosts (xdr_string MAXHOSTNAMELEN);
  jobArrElemId ← via (arr_elem mg_jobId) xdr_int;
  mret (MigReq (jobId32To64 jobArrId jobArrElemId) options numAskedHosts askedHosts).

Definition xdr_lsbShareResourceInstance : codec resInstance resInstance :=
  totalValue ← via ri_totalValue xdr_var_string;
  rsvValue ← via ri_rsvValue xdr_var_string;
  nHosts ← via ri_nHosts xdr_int;
  hostList ← via ri_hostList (xdr_array_string MAXHOSTNAMELEN nHosts);
  mret (ResInstance totalValue rsvValue nHosts hostList).

Definition xdr_lsbSharedResourceInfo : codec resInfo resInfo :=
  resourceName ← via rs_resourceName xdr_var_string;
  nInstances ← via rs_nInstances xdr_int;
  instances ← xdr_elems nInstances rs_instances (xdr_arrayElement xdr_lsbShareResourceInstance);
  mret (ResInfo resourceName nInstances instances).

Definition xdr_lsbShareResourceInfoReply : codec resInfoReply resInfoReply :=
  numResources ← via ry_numResources xdr_int;
  badResource ← via ry_badResource xdr_int;
  resources ← xdr_elems numResources ry_resources (xdr_arrayElement xdr_lsbSharedResourceInfo);
  mret (ResInfoReply numResources badResource resources).

Definition xdr_runJobReq : codec runJobRequest runJobRequest :=
  numHosts ← via rj_numHosts xdr_int;
  jobArrId ← via (arr_id rj_jobId) xdr_int;
  options ← via rj_options xdr_int;
  hostname ← xdr_elems numHosts rj_hostname xdr_var_string;
  jobArrElemId ← via (arr_elem rj_jobId) xdr_int;
  mret (RunJobRequest (jobId32To64 jobArrId jobArrElemId) numHosts hostname options).

Definition xdr_jobAttrReq : codec jobAttrInfoEnt jobAttrInfoEnt :=
  jobArrId ← via (arr_id ja_jobId) xdr_int;
  port ← via ja_port xdr_u_short;
  hostname ← via ja_hostname (xdr_string MAXHOSTNAMELEN);
  jobArrElemId ← via (arr_elem ja_jobId) xdr_int;
  mret (JobAttrInfoEnt (jobId32To64 jobArrId jobArrElemId) port hostname).

Definition xdr_queueInfoEnt (nIdx : Z) : codec queueInfoEnt queueInfoEnt :=
  queue ← via qi_queue (xdr_string MAX_LSB_NAME_LEN);
  description ← via qi_description xdr_var_string;
  userList ← via qi_userList xdr_var_string;
  hostList ← via qi_hostList xdr_var_string;
  windows ← via qi_windows xdr_var_string;
  hostSpec ← via qi_hostSpec (xdr_string MAX_LSB_NAME_LEN);
  rLimits ← xdr_elems LSF_RLIM_NLIMITS qi_rLimits xdr_int;
  loads ← xdr_two nIdx qi_loadSched qi_loadStop xdr_float;
  priority ← via qi_priority xdr_int;
  nice ← via qi_nice xdr_short;
  userJobLimit ← via qi_userJobLimit xdr_int;
  procJobLimit ← via qi_procJobLimit xdr_float;
  qAttrib ← via qi_qAttrib xdr_int;
  qStatus ← via qi_qStatus xdr_int;
  maxJobs ← via qi_maxJobs xdr_int;
  numJobs ← via qi_numJobs xdr_int;
  numPEND ← via qi_numPEND xdr_int;
  numRUN ← via qi_numRUN xdr_int;
  numSSUSP ← via qi_numSSUSP xdr_int;
  numUSUSP ← via qi_numUSUSP xdr_int;
  mig ← via qi_mig xdr_int;
  acceptIntvl ← via qi_acceptIntvl xdr_int;
  schedDelay ← via qi_schedDelay xdr_int;
  windowsD ← via qi_windowsD xdr_var_string;
  defaultHostSpec ← via qi_defaultHostSpec xdr_var_string;
  procLimit ← via qi_procLimit xdr_int;
  admins ← via qi_admins xdr_var_string;
  preCmd ← via qi_preCmd xdr_var_string;
  postCmd ← via qi_postCmd xdr_var_string;
  prepostUsername ← via qi_prepostUsername xdr_var_string;
  requeueEValues ← via qi_requeueEValues xdr_var_string;
  hostJobLimit ← via qi_hostJobLimit xdr_int;
  resReq ← via qi_resReq xdr_var_string;
  numRESERVE ← via qi_numRESERVE xdr_int;
  slotHoldTime ← via qi_slotHoldTime xdr_int;
  resumeCond ← via qi_resumeCond xdr_var_string;
  stopCond ← via qi_stopCond xdr_var_string;
  jobStarter ← via qi_jobStarter xdr_var_string;
  suspendActCmd ← via qi_suspendActCmd xdr_var_string;
  resumeActCmd ← via qi_resumeActCmd xdr_var_string;
  terminateActCmd ← via qi_terminateActCmd xdr_var_string;
  sigMap ← xdr_elems LSB_SIG_NUM qi_sigMap xdr_int;
  chkpntDir ← via qi_chkpntDir xdr_var_string;
  chkpntPeriod ← via qi_chkpntPeriod xdr_int;
  defLimits ← xdr_elems LSF_RLIM_NLIMITS qi_defLimits xdr_int;
  minProcLimit ← via qi_minProcLimit xdr_int;
  defProcLimit ← via qi_defProcLimit xdr_int;
  mret (QueueInfoEnt queue description userList hostList windows hostSpec rLimits nIdx (fst loads)
          (snd loads) priority nice userJobLimit procJobLimit qAttrib qStatus maxJobs numJobs numPEND
          numRUN numSSUSP numUSUSP mig acceptIntvl schedDelay windowsD defaultHostSpec procLimit
          admins preCmd postCmd prepostUsername requeueEValues hostJobLimit resReq numRESERVE
          slotHoldTime resumeCond stopCond jobStarter suspendActCmd resumeActCmd terminateActCmd
          sigMap chkpntDir chkpntPeriod defLimits minProcLimit defProcLimit).

Definition xdr_queueInfoReply : codec queueInfoReply queueInfoReply :=
  numQueues ← via qy_numQueues xdr_int;
  badQueue ← via qy_badQueue xdr_int;
  nIdx ← via qy_nIdx xdr_int;
  queues ← xdr_elems numQueues qy_queues (xdr_arrayElement (xdr_queueInfoEnt nIdx));
  mret (QueueInfoReply numQueues badQueue nIdx queues).

Definition xdr_hostInfoEnt (nIdx : Z) : codec hostInfoEnt hostInfoEnt :=
  host ← via hi_host (xdr_string MAXHOSTNAMELEN);
  cpuFactor ← via hi_cpuFactor xdr_float;
  windows ← via hi_windows (xdr_string MAXLINELEN);
  userJobLimit ← via hi_userJobLimit xdr_int;
  maxJobs ← via hi_maxJobs xdr_int;
  numJobs ← via hi_numJobs xdr_int;
  numRUN ← via hi_numRUN xdr_int;
  numSSUSP ← via hi_numSSUSP xdr_int;
  numUSUSP ← via hi_numUSUSP xdr_int;
  hStatus ← via hi_hStatus xdr_int;
  attr ← via hi_attr xdr_int;
  mig ← via hi_mig xdr_int;
  busy ← xdr_two (GET_INTNUM nIdx) hi_busySched hi_busyStop xdr_int;
  thresholds ← xdr_two nIdx hi_loadSched hi_loadStop xdr_float;
  loads ← xdr_two nIdx hi_realLoad hi_load xdr_float;
  numRESERVE ← via hi_numRESERVE xdr_int;
  mret (HostInfoEnt host cpuFactor windows userJobLimit maxJobs numJobs numRUN numSSUSP numUSUSP
          hStatus attr mig nIdx (fst busy) (snd busy) (fst thresholds) (snd thresholds) (fst loads)
          (snd loads) numRESERVE).

(** The library's variable [lsbSharedResConfigured_], which is set from the flag,
    is not part of the structure. *)
Definition xdr_hostDataReply : codec hostDataReply hostDataReply :=
  numHosts ← via hy_numHosts xdr_int;
  badHost ← via hy_badHost xdr_int;
  nIdx ← via hy_nIdx xdr_int;
  hosts ← xdr_elems numHosts hy_hosts (xdr_arrayElement (xdr_hostInfoEnt nIdx));
  flag ← via hy_flag xdr_int;
  mret (HostDataReply numHosts badHost nIdx hosts flag).
End Routines.

(** ** Values that can be sent *)

(** An identifier of a job, or -1 (all jobs). *)
Definition job_ok (id : Z) : Prop :=
  id = -1 \/ exists jobId idx, valid_job jobId idx /\ id = jobId32To64 jobId idx.

Lemma job_parts id : job_ok id ->
  int_ok (fst (jobId64To32 id)) /\ int_ok (snd (jobId64To32 id)) /\
  jobId32To64 (fst (jobId64To32 id)) (snd (jobId64To32 id)) = id.
Proof.
  unfold int_ok, in_sint. intros [-> | (j & i & Hv & ->)]; [by vm_compute|].
  unfold jobId32To64. rewrite pack_value by done. destruct Hv as [Hj Hi] eqn:E. clear E.
  pose proof Hi as Hi'. unfold LSB_MAX_ARRAY_IDX in Hi'.
  rewrite unpack_value by lia. cbn [fst snd].
  assert ((i * 2 ^ 32 + j) mod 2 ^ 32 = j) as -> by (Z.to_euclidean_division_equations; lia).
  assert ((i * 2 ^ 32 + j) / 2 ^ 32 mod 2 ^ 16 = i) as -> by (Z.to_euclidean_division_equations; lia).
  rewrite sint_of_id by (try lia; unfold in_sint; lia). rewrite pack_value by done. lia.
Qed.

(** The bounds on counts keep the offset of an array element an int. *)
Definition count_ok {A} (n : Z) (l : list A) : Prop := len l = n /\ n <= 1000.

Definition ok_xFile (f : xFile) : Prop :=
  str_ok MAXFILENAMELEN (xf_subFn f) /\ str_ok MAXFILENAMELEN (xf_execFn f) /\ int_ok (xf_options f).

Definition ok_submitReq (r : submitReq) : Prop :=
  int_ok (sb_options r) /\ var_ok (sb_queue r) /\ var_ok (sb_resReq r) /\ int_ok (sb_numProcessors r) /\
  str_ok MAXHOSTNAMELEN (sb_fromHost r) /\ var_ok (sb_dependCond r) /\ var_ok (sb_jobName r) /\
  var_ok (sb_command r) /\ str_ok MAXFILENAMELEN (sb_jobFile r) /\
  str_ok MAXFILENAMELEN (sb_inFile r) /\ str_ok MAXFILENAMELEN (sb_outFile r) /\
  str_ok MAXFILENAMELEN (sb_errFile r) /\ var_ok (sb_preExecCmd r) /\
  str_ok MAXHOSTNAMELEN (sb_hostSpec r) /\ count_ok (sb_numAskedHosts r) (sb_askedHosts r) /\
  Forall var_ok (sb_askedHosts r) /\ count_ok LSF_RLIM_NLIMITS (sb_rLimits r) /\
  Forall int_ok (sb_rLimits r) /\ u_int_ok (sb_submitTime r) /\ u_int_ok (sb_beginTime r) /\
  u_int_ok (sb_termTime r) /\ int_ok (sb_umask r) /\ int_ok (sb_sigValue r) /\
  int_ok (sb_restartPid r) /\ u_int_ok (sb_chkpntPeriod r) /\ str_ok MAXFILENAMELEN (sb_chkpntDir r) /\
  str_ok MAXFILENAMELEN (sb_subHomeDir r) /\ str_ok MAXFILENAMELEN (sb_cwd r) /\
  count_ok (sb_nxf r) (sb_xf r) /\ Forall ok_xFile (sb_xf r) /\ var_ok (sb_mailUser r) /\
  var_ok (sb_projectName r) /\ int_ok (sb_niosPort r) /\ int_ok (sb_maxNumProcessors r) /\
  var_ok (sb_loginShell r) /\ var_ok (sb_schedHostType r) /\ int_ok (sb_options2 r) /\
  str_ok MAXFILENAMELEN (sb_inFileSpool r) /\ str_ok MAXFILENAMELEN (sb_commandSpool r) /\
  int_ok (sb_userPriority r).

Section Requests.
Context `{XdrPrims}.

Lemma arr_id_carries {X} (f : X -> Z) x :
  job_ok (f x) -> carries 4 (via (arr_id f) xdr_int) x (fst (jobId64To32 (f x))).
Proof. intros Hj. apply carries_via, int_carries. by apply job_parts. Qed.

Lemma arr_elem_carries {X} (f : X -> Z) x :
  job_ok (f x) -> carries 4 (via (arr_elem f) xdr_int) x (snd (jobId64To32 (f x))).
Proof. intros Hj. apply carries_via, int_carries. by apply job_parts. Qed.

Lemma int_as_u_int_carries {X} (f : X -> Z) x :
  int_ok (f x) -> carries 4 (xdr_int_as_u_int f) x (f x).
Proof.
  intros Hz. change 4 with (4 + 0). eapply carries_bind.
  - apply carries_via, u_int_carries, uint_of_range. lia.
  - rewrite sint_uint_of by first [done|lia]. apply carries_ret.
Qed.

Lemma count_int {A} n (l : list A) : count_ok n l -> int_ok n.
Proof. intros [H1 H2]. pose proof (len_nonneg l). unfold int_ok, in_sint. lia. Qed.

Lemma elems_carries {X Y} (f : X -> list Y) (c : codec Y Y) (P : Y -> Prop) x n N :
  count_ok n (f x) -> Forall P (f x) -> (forall y, P y -> carries N c y y) -> 0 <= N ->
  carries (1000 * N) (xdr_elems n f c) x (f x).
Proof.
  intros [Hn Hb] Hf Hc HN. apply carries_weaken with (n * N); [|nia].
  apply carries_elems; [done|]. by eapply Forall_impl.
Qed.
End Requests.

#[export] Hint Resolve int_as_u_int_carries count_int : xdr.

Section Arrays.
Context `{XdrPrims} {X : Type}.

Lemma two_carries (f g : X -> list Z) (c : codec Z Z) (P : Z -> Prop) x n N :
  count_ok n (f x) -> count_ok n (g x) -> Forall P (f x) -> Forall P (g x) ->
  (forall y, P y -> carries N c y y) -> 0 <= N ->
  carries (2000 * N) (xdr_two n f g c) x (f x, g x).
Proof.
  intros [Lf Hb] [Lg _] Hf Hg Hc HN. assert (length (f x) = length (g x)) by (unfold len in *; lia).
  replace (f x, g x) with ((zip (f x) (g x)).*1, (zip (f x) (g x)).*2)
    by (rewrite fst_zip, snd_zip by lia; done).
  apply carries_weaken with (1000 * (N + (N + 0)) + 0); [|lia].
  eapply carries_bind; [|apply carries_ret].
  apply (elems_carries (fun x => zip (f x) (g x)) _ (fun y => P y.1 /\ P y.2)); [| | |lia].
  - split; [|done]. unfold len in *. rewrite length_zip_with. lia.
  - apply Forall_forall. intros [a b] Hab. rewrite Forall_forall in Hf, Hg.
    apply list_elem_of_lookup_1 in Hab as [i Hi].
    apply lookup_zip_with_Some in Hi as (? & ? & [= <- <-] & ? & ?). split.
    + apply Hf. by eapply list_elem_of_lookup_2.
    + apply Hg. by eapply list_elem_of_lookup_2.
  - intros [a b] [Ha Hb']. unfold xdr_pair. eapply carries_bind; [apply carries_via; by apply Hc|].
    eapply carries_bind; [apply carries_via; by apply Hc|]. apply carries_ret.
Qed.

(** Some elements of an array. *)
Lemma slice_carries {Y} (f : X -> list Y) (c : codec Y Y) (P : Y -> Prop) x n i N :
  (i + n <= length (f x))%nat -> Forall P (f x) -> (forall y, P y -> carries N c y y) ->
  carries (Z.of_nat n * N) (xdr_loop n i f c) x (take n (drop i (f x))).
Proof.
  intros Hl Hf Hc. apply carries_loop; [|rewrite length_take, length_drop; lia].
  intros k Hk. destruct (lookup_lt_is_Some_2 (f x) (i + k)) as [y Hy]; [lia|].
  exists y, y. split_and!; [done| |by rewrite lookup_take_lt, lookup_drop by lia].
  apply Hc. rewrite Forall_forall in Hf. apply Hf. by eapply list_elem_of_lookup_2.
Qed.

Lemma slices {Y} (l : list Y) n h u : length l = (n + h + u)%nat ->
  take n (drop 0 l) ++ take h (drop n l) ++ take u (drop (n + h) l) = l.
Proof.
  intros Hl. rewrite <- (drop_drop l h n), (take_ge (drop h (drop n l))).
  - by rewrite take_drop, drop_0, take_drop.
  - rewrite !length_drop. lia.
Qed.
End Arrays.

Lemma take_counted {A} n (l : list A) : count_ok n l -> take (Z.to_nat n) l = l.
Proof. intros [Hl _]. apply take_ge. unfold len in Hl. lia. Qed.

(** [msg] follows a message field by field, as [carry] does, and knows about job
    identifiers and counted arrays. *)
Ltac msg_size := unfold rndup, VAR_MAX, MAXFILENAMELEN, MAXHOSTNAMELEN, MAX_LSB_NAME_LEN,
  MAX_CMD_DESC_LEN, MAXLINELEN, LSB_MAX_SD_LENGTH, MAXLSFNAMELEN; vm_compute; congruence.

Ltac msg_ret :=
  lazymatch goal with
  | |- carries _ (mret _) ?x _ =>
      repeat match goal with Hj : job_ok _ |- _ => rewrite (proj2 (proj2 (job_parts _ Hj))); clear Hj end;
      rewrite ?take_counted by assumption; destruct x; apply carries_ret
  end.

Ltac msg :=
  repeat lazymatch goal with
  | |- carries _ (_ ≫= _) _ _ => eapply carries_bind; cbn beta
  | |- carries _ (via (arr_id _) _) _ _ => apply arr_id_carries; assumption
  | |- carries _ (via (arr_elem _) _) _ _ => apply arr_elem_carries; assumption
  | |- carries _ (via _ _) _ _ => apply carries_via; cbn beta
  | |- carries _ (mret _) _ _ => msg_ret
  | |- carries _ (xdr_arrayElement _) _ _ => apply arrayElement_carries
  | |- carries _ (xdr_elems _ _ _) _ _ => eapply elems_carries; [eassumption|eassumption| |]
  | |- carries _ (xdr_two _ _ _ _) _ _ =>
      eapply two_carries; [eassumption|eassumption|eassumption|eassumption| |]
  | |- forall y, _ -> carries _ _ y y => intros ? ?
  | |- carries _ _ _ _ => solve [eauto with xdr]
  | |- _ <= _ => msg_size
  | |- _ < _ => msg_size
  end.

(** A message of bounded size. *)
Tactic Notation "message" reference(r) := eapply carries_weaken; [unfold r; msg|]; msg_size.

Definition ok_modifyReq (m : modifyReq) : Prop :=
  job_ok (md_jobId m) /\ var_ok (md_jobIdStr m) /\ int_ok (md_delOptions m) /\
  int_ok (md_delOptions2 m) /\ ok_submitReq (md_submitReq m).

Definition ok_submitMbdReply (r : submitMbdReply) : Prop :=
  job_ok (sr_jobId r) /\ int_ok (sr_badReqIndx r) /\ str_ok MAX_LSB_NAME_LEN (sr_queue r) /\
  str_ok MAX_CMD_DESC_LEN (sr_badJobName r).

Section Submission.
Context `{XdrPrims}.

Lemma xFile_carries f : ok_xFile f -> carries 1000 xdr_xFile f f.
Proof. intros (?&?&?). message xdr_xFile. Qed.
#[local] Hint Resolve xFile_carries : xdr.

Lemma submitReq_carries r : ok_submitReq r -> carries (2 ^ 30) xdr_submitReq r r.
Proof.
  intros Hr. unfold ok_submitReq in Hr. destruct_and! Hr.
  message xdr_submitReq.
Qed.
#[local] Hint Resolve submitReq_carries : xdr.

(** C34: The messages of a job submission survive the wire: a
    request with all its strings, asked hosts, resource limits and files to be
    copied, a modification request that contains one behind the identifier of
    the job, and the reply with the identifier given to the job decode to the
    structures that were encoded, whatever the prefix and suffix in the buffer. *)
Theorem submission_round_trip r m a :
  ok_submitReq r -> ok_modifyReq m -> ok_submitMbdReply a ->
  round_trips xdr_submitReq r /\ round_trips xdr_modifyReq m /\ round_trips xdr_submitMbdReply a.
Proof.
  intros Hr (?&?&?&?&?) (?&?&?&?). split_and!; eapply carries_trip.
  - by apply submitReq_carries.
  - unfold xdr_modifyReq. msg.
  - unfold xdr_submitMbdReply. msg.
Qed.
End Submission.
#[export] Hint Resolve xFile_carries submitReq_carries : xdr.

(** ** Information about jobs *)

Definition ok_jgrpPart (g : jgrpPart) : Prop :=
  job_ok (jg_jobId g) /\ int_ok (jg_status g) /\ int_ok (jg_reasons g) /\ int_ok (jg_subreasons g) /\
  u_int_ok (jg_startTime g) /\ u_int_ok (jg_predictedStartTime g) /\ u_int_ok (jg_endTime g) /\
  u_int_ok (jg_cpuTime g) /\ int_ok (jg_numToHosts g) /\ int_ok (jg_userId g) /\
  str_ok MAXLSFNAMELEN (jg_userName g) /\ var_ok (jg_dependCond g) /\ u_int_ok (jg_submitTime g) /\
  var_ok (jg_jobName g).

Definition ok_jobPart (j : jobPart) : Prop :=
  job_ok (jr_jobId j) /\ int_ok (jr_status j) /\ int_ok (jr_reasons j) /\ int_ok (jr_subreasons j) /\
  u_int_ok (jr_startTime j) /\ u_int_ok (jr_endTime j) /\ u_int_ok (jr_cpuTime j) /\
  count_ok (jr_numToHosts j) (jr_toHosts j) /\ Forall (str_ok MAXHOSTNAMELEN) (jr_toHosts j) /\
  count_ok (jr_nIdx j) (jr_loadSched j) /\ count_ok (jr_nIdx j) (jr_loadStop j) /\
  Forall u_int_ok (jr_loadSched j) /\ Forall u_int_ok (jr_loadStop j) /\
  count_ok (jr_numReasons j) (jr_reasonTb j) /\ Forall int_ok (jr_reasonTb j) /\
  int_ok (jr_userId j) /\ str_ok MAXLSFNAMELEN (jr_userName j) /\ ok_submitReq (jr_jobBill j) /\
  int_ok (jr_exitStatus j) /\ int_ok (jr_execUid j) /\ var_ok (jr_execHome j) /\
  var_ok (jr_execCwd j) /\ var_ok (jr_execUsername j) /\ u_int_ok (jr_reserveTime j) /\
  int_ok (jr_jobPid j) /\ u_int_ok (jr_jRusageUpdateTime j) /\ ok_rusage (jr_runRusage j) /\
  u_int_ok (jr_predictedStartTime j) /\ in_uint 16 (jr_port j) /\ int_ok (jr_jobPriority j).

(** The type selects the part of the structure that is in use. *)
Definition ok_jobInfoReply (y : jobInfoReply) : Prop :=
  int_ok (jy_jType y) /\ var_ok (jy_parentGroup y) /\ var_ok (jy_jName y) /\
  count_ok NUM_JGRP_COUNTERS_ (jy_counter y) /\ Forall int_ok (jy_counter y) /\
  match jy_body y with
  | inl g => jy_jType y = JGRP_NODE_GROUP /\ ok_jgrpPart g
  | inr j => jy_jType y <> JGRP_NODE_GROUP /\ ok_jobPart j
  end.

Definition ok_jobInfoHead (h : jobInfoHead) : Prop :=
  count_ok (jh_numJobs h) (jh_jobIds h) /\ Forall job_ok (jh_jobIds h) /\
  count_ok (jh_numHosts h) (jh_hostNames h) /\ Forall (str_ok MAXHOSTNAMELEN) (jh_hostNames h).

Section Job_information.
Context `{XdrPrims}.

Lemma on_inl_carries {X Y A} (c : codec X A) x a N :
  carries N c x a -> carries N (on_inl (Y := Y) c) (inl x) a.
Proof. intros (n & bs & Hn & [L E D]). exists n, bs. split; [done|]. by split. Qed.

Lemma on_inr_carries {X Y A} (c : codec Y A) y a N :
  carries N c y a -> carries N (on_inr (X := X) c) (inr y) a.
Proof. intros (n & bs & Hn & [L E D]). exists n, bs. split; [done|]. by split. Qed.

Lemma jgrpPart_carries g : ok_jgrpPart g -> exists N, carries N xdr_jgrpInfoReply g g.
Proof.
  intros Hg. unfold ok_jgrpPart in Hg. destruct_and! Hg. eexists. unfold xdr_jgrpInfoReply. msg.
Qed.

Lemma jobPart_carries j : ok_jobPart j -> exists N, carries N xdr_jobPart j j.
Proof.
  intros Hj. unfold ok_jobPart in Hj. destruct_and! Hj.
  destruct (rusage_carries (jr_runRusage j)) as [N HN]; [done|].
  eexists. unfold xdr_jobPart. msg.
Qed.

Lemma jobInfoReply_carries y : ok_jobInfoReply y -> round_trips xdr_jobInfoReply y.
Proof.
  intros (? & ? & ? & ? & ? & Hb). assert (exists N, carries N (if jy_jType y =? JGRP_NODE_GROUP
          then g ← via jy_body (on_inl xdr_jgrpInfoReply); mret (inl g)
          else j ← via jy_body (on_inr xdr_jobPart); mret (inr j)) y (jy_body y)) as [N HN].
  { destruct (jy_body y) as [g|j] eqn:Eb; destruct Hb as [Ht Hb].
    - rewrite (proj2 (Z.eqb_eq _ _) Ht). destruct (jgrpPart_carries g Hb) as [N HN].
      eexists. eapply carries_bind; [|apply carries_ret]. apply carries_via. rewrite Eb.
      apply on_inl_carries, HN.
    - rewrite (proj2 (Z.eqb_neq _ _) Ht). destruct (jobPart_carries j Hb) as [N HN].
      eexists. eapply carries_bind; [|apply carries_ret]. apply carries_via. rewrite Eb.
      apply on_inr_carries, HN. }
  eapply carries_trip. unfold xdr_jobInfoReply. msg.
Qed.

Lemma ids_join ids : Forall job_ok ids ->
  zip_with jobId32To64 (map (arr_id id) ids) (map (arr_elem id) ids) = ids.
Proof.
  induction 1 as [|i ids Hi _ IH]; simpl; [done|]. rewrite IH. f_equal. by apply job_parts.
Qed.

Lemma ids_int (f : Z -> Z) n ids : count_ok n ids -> Forall job_ok ids ->
  (forall i, job_ok i -> int_ok (f i)) -> count_ok n (map f ids) /\ Forall int_ok (map f ids).
Proof.
  intros [Hc Hb] Hids Hf. split; [split; [|done]; unfold len in *; by rewrite length_map|].
  apply Forall_map. by eapply Forall_impl.
Qed.

Lemma jobInfoHead_carries h : ok_jobInfoHead h -> round_trips xdr_jobInfoHead h.
Proof.
  intros (Hc & Hids & ? & ?).
  destruct (ids_int (arr_id id) _ _ Hc Hids) as [C1 F1]; [intros i Hi; by apply job_parts|].
  destruct (ids_int (arr_elem id) _ _ Hc Hids) as [C2 F2]; [intros i Hi; by apply job_parts|].
  eapply carries_trip. unfold xdr_jobInfoHead. do 2 (eapply carries_bind; [msg|cbn beta]).
  eapply carries_bind.
  { apply (elems_carries (fun h => map (arr_id id) (jh_jobIds h)) xdr_int int_ok _ _ 4); eauto with xdr.
    lia. }
  eapply carries_bind; [msg|cbn beta]. eapply carries_bind.
  { apply (elems_carries (fun h => map (arr_elem id) (jh_jobIds h)) xdr_int int_ok _ _ 4); eauto with xdr.
    lia. }
  rewrite ids_join by done. destruct h. apply carries_ret.
Qed.

(** What a query about jobs returns survives the wire:
    the head of the answer, with its array of job identifiers whose two halves
    are sent apart, and each entry, which is decoded to the variant (job group
    or job with its submission and resource usage) that its type selects. *)
Theorem job_information_round_trip h y :
  ok_jobInfoHead h -> ok_jobInfoReply y ->
  round_trips xdr_jobInfoHead h /\ round_trips xdr_jobInfoReply y.
Proof. intros Hh Hy. split; [by apply jobInfoHead_carries|by apply jobInfoReply_carries]. Qed.
End Job_information.

(** ** Requests *)

Definition ok_jobInfoReq (r : jobInfoReq) : Prop :=
  int_ok (ji_options r) /\ var_ok (ji_userName r) /\ job_ok (ji_jobId r) /\ var_ok (ji_jobName r) /\
  var_ok (ji_queue r) /\ var_ok (ji_host r).

(** The period and the flags are there with the signals that have them. *)
Definition ok_signalReq (r : signalReq) : Prop :=
  int_ok (sg_sigValue r) /\ job_ok (sg_jobId r) /\
  match sg_chk r with
  | Some (p, f) => with_period (sg_sigValue r) = true /\ u_int_ok p /\ int_ok f
  | None => with_period (sg_sigValue r) = false
  end.

Definition ok_lsbMsg (m : lsbMsg) : Prop :=
  int_ok (lm_msgId m) /\ int_ok (lm_usrId m) /\ job_ok (lm_jobId m) /\ int_ok (lm_type m) /\
  str_ok LSB_MAX_SD_LENGTH (lm_src m) /\ str_ok LSB_MAX_SD_LENGTH (lm_dest m) /\ var_ok (lm_msg m).

Definition extra (options flag : Z) : nat := if Z.land options flag =? 0 then 0 else 1.

Definition ok_infoReq (r : infoReq) : Prop :=
  int_ok (in_options r) /\ 0 <= in_numNames r <= 1000 /\
  length (in_names r) =
    (Z.to_nat (in_numNames r) + extra (in_options r) CHECK_HOST + extra (in_options r) CHECK_USER)%nat /\
  Forall var_ok (in_names r) /\ var_ok (in_resReq r).

Definition ok_controlReq (r : controlReq) : Prop :=
  int_ok (ct_opCode r) /\ str_ok MAXHOSTNAMELEN (ct_name r).

Definition ok_jobSwitchReq (r : jobSwitchReq) : Prop :=
  job_ok (sw_jobId r) /\ str_ok MAX_LSB_NAME_LEN (sw_queue r).

Definition ok_jobMoveReq (r : jobMoveReq) : Prop :=
  int_ok (mv_opCode r) /\ job_ok (mv_jobId r) /\ int_ok (mv_position r).

Definition ok_migReq (r : migReq) : Prop :=
  job_ok (mg_jobId r) /\ int_ok (mg_options r) /\ count_ok (mg_numAskedHosts r) (mg_askedHosts r) /\
  Forall (str_ok MAXHOSTNAMELEN) (mg_askedHosts r).

Definition ok_runJobRequest (r : runJobRequest) : Prop :=
  job_ok (rj_jobId r) /\ count_ok (rj_numHosts r) (rj_hostname r) /\ Forall var_ok (rj_hostname r) /\
  int_ok (rj_options r).

Definition ok_jobAttrInfoEnt (r : jobAttrInfoEnt) : Prop :=
  job_ok (ja_jobId r) /\ in_uint 16 (ja_port r) /\ str_ok MAXHOSTNAMELEN (ja_hostname r).

Section Requests_trip.
Context `{XdrPrims}.

Lemma signalReq_carries r : ok_signalReq r -> round_trips xdr_signalReq r.
Proof.
  intros (? & ? & Hc). eapply carries_trip. unfold xdr_signalReq.
  do 2 (eapply carries_bind; [msg|cbn beta]). eapply carries_bind with (a := sg_chk r) (N1 := 8).
  - destruct (sg_chk r) as [[p f]|] eqn:E.
    + destruct Hc as (-> & ? & ?). change 8 with (4 + (4 + 0)).
      eapply carries_bind; [apply carries_via; rewrite E; by apply time_carries|cbn beta].
      eapply carries_bind; [apply carries_via; rewrite E; by apply int_carries|apply carries_ret].
    + rewrite Hc. eapply carries_weaken; [apply carries_ret|lia].
  - msg.
Qed.

Lemma infoReq_carries r : ok_infoReq r -> round_trips xdr_infoReq r.
Proof.
  intros (? & Hn & Hl & Hf & ?). eapply carries_trip. unfold xdr_infoReq.
  assert (int_ok (in_numNames r)) by (unfold int_ok, in_sint; lia).
  do 2 (eapply carries_bind; [msg|cbn beta]). unfold xdr_elems.
  do 3 (eapply carries_bind; [apply slice_carries with var_ok; [unfold extra in Hl; lia|done|msg]|cbn beta zeta]).
  eapply carries_bind; [msg|cbn beta]. rewrite slices by exact Hl. destruct r. apply carries_ret.
Qed.

Lemma jobPeekReq_carries i : job_ok i -> round_trips xdr_jobPeekReq i.
Proof.
  intros Hi. eapply carries_trip. unfold xdr_jobPeekReq.
  eapply carries_bind; [by apply arr_id_carries|]. eapply carries_bind; [by apply arr_elem_carries|].
  unfold id. rewrite (proj2 (proj2 (job_parts _ Hi))). apply carries_ret.
Qed.

(** The requests that act on jobs, queues and hosts survive
    the wire: signals (with a period and flags exactly for those signals that
    have them), switching to another queue, moving within it, migration and
    forced dispatch with their arrays of hosts, host and queue control. *)
Theorem control_requests_round_trip sg sw mv mg rj ct :
  ok_signalReq sg -> ok_jobSwitchReq sw -> ok_jobMoveReq mv -> ok_migReq mg -> ok_runJobRequest rj ->
  ok_controlReq ct ->
  round_trips xdr_signalReq sg /\ round_trips xdr_jobSwitchReq sw /\ round_trips xdr_jobMoveReq mv /\
  round_trips xdr_migReq mg /\ round_trips xdr_runJobReq rj /\ round_trips xdr_controlReq ct.
Proof.
  intros ? (?&?) (?&?&?) (?&?&?&?) (?&?&?&?) (?&?).
  split_and!; [by apply signalReq_carries|eapply carries_trip..].
  - unfold xdr_jobSwitchReq. msg.
  - unfold xdr_jobMoveReq. msg.
  - unfold xdr_migReq. msg.
  - unfold xdr_runJobReq. msg.
  - unfold xdr_controlReq. msg.
Qed.

(** The requests for information survive the wire: queries about
    jobs, a request for queue, host or user information whose list of names is
    followed by one more name for each of the options CHECK_HOST and CHECK_USER,
    peeking at output, job attributes, and the messages between jobs. *)
Theorem query_requests_round_trip ji inf pk ja lm :
  ok_jobInfoReq ji -> ok_infoReq inf -> job_ok pk -> ok_jobAttrInfoEnt ja -> ok_lsbMsg lm ->
  round_trips xdr_jobInfoReq ji /\ round_trips xdr_infoReq inf /\ round_trips xdr_jobPeekReq pk /\
  round_trips xdr_jobAttrReq ja /\ round_trips xdr_lsbMsg lm.
Proof.
  intros (?&?&?&?&?&?) ? ? (?&?&?) (?&?&?&?&?&?&?).
  split_and!; [eapply carries_trip|by apply infoReq_carries|by apply jobPeekReq_carries|eapply carries_trip..].
  - unfold xdr_jobInfoReq. msg.
  - unfold xdr_jobAttrReq. msg.
  - unfold xdr_lsbMsg. msg.
Qed.
End Requests_trip.

(** ** Replies *)

Definition ok_userInfoEnt (u : userInfoEnt) : Prop :=
  str_ok MAX_LSB_NAME_LEN (ui_user u) /\ u_int_ok (ui_procJobLimit u) /\ int_ok (ui_maxJobs u) /\
  int_ok (ui_numStartJobs u) /\ int_ok (ui_numJobs u) /\ int_ok (ui_numPEND u) /\ int_ok (ui_numRUN u) /\
  int_ok (ui_numSSUSP u) /\ int_ok (ui_numUSUSP u) /\ int_ok (ui_numRESERVE u).

Definition ok_userInfoReply (r : userInfoReply) : Prop :=
  count_ok (uy_numUsers r) (uy_users r) /\ int_ok (uy_badUser r) /\ Forall ok_userInfoEnt (uy_users r).

Definition ok_groupInfoEnt (g : groupInfoEnt) : Prop := var_ok (gi_group g) /\ var_ok (gi_memberList g).

Definition ok_groupInfoReply (r : groupInfoReply) : Prop :=
  count_ok (gy_numGroups r) (gy_groups r) /\ Forall ok_groupInfoEnt (gy_groups r).

Definition ok_jobPeekReply (r : jobPeekReply) : Prop :=
  str_ok MAXFILENAMELEN (pk_outFile r) /\ var_ok (pk_pSpoolDir r).

Definition ok_resInstance (i : resInstance) : Prop :=
  var_ok (ri_totalValue i) /\ var_ok (ri_rsvValue i) /\ count_ok (ri_nHosts i) (ri_hostList i) /\
  Forall (str_ok MAXHOSTNAMELEN) (ri_hostList i).

Definition ok_resInfo (r : resInfo) : Prop :=
  var_ok (rs_resourceName r) /\ count_ok (rs_nInstances r) (rs_instances r) /\
  Forall ok_resInstance (rs_instances r).

Definition ok_resInfoReply (r : resInfoReply) : Prop :=
  count_ok (ry_numResources r) (ry_resources r) /\ int_ok (ry_badResource r) /\
  Forall ok_resInfo (ry_resources r).

Definition ok_parameterInfo (p : parameterInfo) : Prop :=
  var_ok (pa_defaultQueues p) /\ var_ok (pa_defaultHostSpec p) /\ int_ok (pa_mbatchdInterval p) /\
  int_ok (pa_sbatchdInterval p) /\ int_ok (pa_jobAcceptInterval p) /\ int_ok (pa_maxDispRetries p) /\
  int_ok (pa_maxSbdRetries p) /\ int_ok (pa_cleanPeriod p) /\ int_ok (pa_maxNumJobs p) /\
  int_ok (pa_pgSuspendIt p) /\ var_ok (pa_defaultProject p) /\ int_ok (pa_maxJobArraySize p) /\
  int_ok (pa_jobTerminateInterval p) /\ (pa_disableUAcctMap p = 0 \/ pa_disableUAcctMap p = 1) /\
  var_ok (pa_pjobSpoolDir p) /\ int_ok (pa_maxUserPriority p) /\ int_ok (pa_jobPriorityValue p) /\
  int_ok (pa_jobPriorityTime p) /\ int_ok (pa_maxJobId p) /\ int_ok (pa_maxAcctArchiveNum p) /\
  int_ok (pa_acctArchiveInDays p) /\ int_ok (pa_acctArchiveInSize p) /\ int_ok (pa_jobDepLastSub p) /\
  int_ok (pa_sharedResourceUpdFactor p).

Definition ok_queueInfoEnt (nIdx : Z) (q : queueInfoEnt) : Prop :=
  qi_nIdx q = nIdx /\ str_ok MAX_LSB_NAME_LEN (qi_queue q) /\ var_ok (qi_description q) /\
  var_ok (qi_userList q) /\ var_ok (qi_hostList q) /\ var_ok (qi_windows q) /\
  str_ok MAX_LSB_NAME_LEN (qi_hostSpec q) /\ count_ok LSF_RLIM_NLIMITS (qi_rLimits q) /\
  Forall int_ok (qi_rLimits q) /\ count_ok (qi_nIdx q) (qi_loadSched q) /\
  count_ok (qi_nIdx q) (qi_loadStop q) /\ Forall u_int_ok (qi_loadSched q) /\
  Forall u_int_ok (qi_loadStop q) /\ int_ok (qi_priority q) /\ in_sint 16 (qi_nice q) /\
  int_ok (qi_userJobLimit q) /\ u_int_ok (qi_procJobLimit q) /\ int_ok (qi_qAttrib q) /\
  int_ok (qi_qStatus q) /\ int_ok (qi_maxJobs q) /\ int_ok (qi_numJobs q) /\ int_ok (qi_numPEND q) /\
  int_ok (qi_numRUN q) /\ int_ok (qi_numSSUSP q) /\ int_ok (qi_numUSUSP q) /\ int_ok (qi_mig q) /\
  int_ok (qi_acceptIntvl q) /\ int_ok (qi_schedDelay q) /\ var_ok (qi_windowsD q) /\
  var_ok (qi_defaultHostSpec q) /\ int_ok (qi_procLimit q) /\ var_ok (qi_admins q) /\
  var_ok (qi_preCmd q) /\ var_ok (qi_postCmd q) /\ var_ok (qi_prepostUsername q) /\
  var_ok (qi_requeueEValues q) /\ int_ok (qi_hostJobLimit q) /\ var_ok (qi_resReq q) /\
  int_ok (qi_numRESERVE q) /\ int_ok (qi_slotHoldTime q) /\ var_ok (qi_resumeCond q) /\
  var_ok (qi_stopCond q) /\ var_ok (qi_jobStarter q) /\ var_ok (qi_suspendActCmd q) /\
  var_ok (qi_resumeActCmd q) /\ var_ok (qi_terminateActCmd q) /\ count_ok LSB_SIG_NUM (qi_sigMap q) /\
  Forall int_ok (qi_sigMap q) /\ var_ok (qi_chkpntDir q) /\ int_ok (qi_chkpntPeriod q) /\
  count_ok LSF_RLIM_NLIMITS (qi_defLimits q) /\ Forall int_ok (qi_defLimits q) /\
  int_ok (qi_minProcLimit q) /\ int_ok (qi_defProcLimit q).

Definition ok_queueInfoReply (r : queueInfoReply) : Prop :=
  count_ok (qy_numQueues r) (qy_queues r) /\ int_ok (qy_badQueue r) /\ int_ok (qy_nIdx r) /\
  Forall (ok_queueInfoEnt (qy_nIdx r)) (qy_queues r).

Definition ok_hostInfoEnt (nIdx : Z) (h : hostInfoEnt) : Prop :=
  hi_nIdx h = nIdx /\ str_ok MAXHOSTNAMELEN (hi_host h) /\ u_int_ok (hi_cpuFactor h) /\
  str_ok MAXLINELEN (hi_windows h) /\ int_ok (hi_userJobLimit h) /\ int_ok (hi_maxJobs h) /\
  int_ok (hi_numJobs h) /\ int_ok (hi_numRUN h) /\ int_ok (hi_numSSUSP h) /\ int_ok (hi_numUSUSP h) /\
  int_ok (hi_hStatus h) /\ int_ok (hi_attr h) /\ int_ok (hi_mig h) /\
  count_ok (GET_INTNUM (hi_nIdx h)) (hi_busySched h) /\ count_ok (GET_INTNUM (hi_nIdx h)) (hi_busyStop h) /\
  Forall int_ok (hi_busySched h) /\ Forall int_ok (hi_busyStop h) /\
  count_ok (hi_nIdx h) (hi_loadSched h) /\ count_ok (hi_nIdx h) (hi_loadStop h) /\
  Forall u_int_ok (hi_loadSched h) /\ Forall u_int_ok (hi_loadStop h) /\
  count_ok (hi_nIdx h) (hi_realLoad h) /\ count_ok (hi_nIdx h) (hi_load h) /\
  Forall u_int_ok (hi_realLoad h) /\ Forall u_int_ok (hi_load h) /\ int_ok (hi_numRESERVE h).

Definition ok_hostDataReply (r : hostDataReply) : Prop :=
  count_ok (hy_numHosts r) (hy_hosts r) /\ int_ok (hy_badHost r) /\ int_ok (hy_nIdx r) /\
  Forall (ok_hostInfoEnt (hy_nIdx r)) (hy_hosts r) /\ int_ok (hy_flag r).

Section Replies.
Context `{XdrPrims}.

Lemma userInfoEnt_carries u : ok_userInfoEnt u -> carries (2 ^ 20) xdr_userInfoEnt u u.
Proof. intros Hu. unfold ok_userInfoEnt in Hu. destruct_and! Hu. message xdr_userInfoEnt. Qed.

Lemma groupInfoEnt_carries g : ok_groupInfoEnt g -> carries (2 ^ 20) xdr_groupInfoEnt g g.
Proof. intros (?&?). message xdr_groupInfoEnt. Qed.

Lemma array_string_carries {X} (f : X -> list cstr) x n :
  count_ok n (f x) -> Forall (str_ok MAXHOSTNAMELEN) (f x) ->
  carries (1000 * 68) (via f (xdr_array_string MAXHOSTNAMELEN n)) x (f x).
Proof.
  intros Hc Hf. apply carries_via. unfold xdr_array_string.
  apply (elems_carries (fun l => l) _ (str_ok MAXHOSTNAMELEN)); [done|done| |lia].
  intros s Hs. exact (string_carries MAXHOSTNAMELEN s Hs eq_refl).
Qed.

Lemma resInstance_carries i : ok_resInstance i -> carries (2 ^ 20) xdr_lsbShareResourceInstance i i.
Proof.
  intros (?&?&?&?). eapply carries_weaken; [unfold xdr_lsbShareResourceInstance|].
  - do 3 (eapply carries_bind; [msg|cbn beta]).
    eapply carries_bind; [by apply array_string_carries|cbn beta]. msg.
  - msg_size.
Qed.

#[local] Hint Resolve userInfoEnt_carries groupInfoEnt_carries resInstance_carries : xdr.

Lemma resInfo_carries r : ok_resInfo r -> carries (2 ^ 20 * 1001) xdr_lsbSharedResourceInfo r r.
Proof. intros (?&?&?). message xdr_lsbSharedResourceInfo. Qed.

Lemma queueInfoEnt_carries nIdx q : ok_queueInfoEnt nIdx q -> carries (2 ^ 23) (xdr_queueInfoEnt nIdx) q q.
Proof. intros Hq. unfold ok_queueInfoEnt in Hq. destruct_and! Hq. subst nIdx. message xdr_queueInfoEnt. Qed.

Lemma hostInfoEnt_carries nIdx h : ok_hostInfoEnt nIdx h -> carries (2 ^ 20) (xdr_hostInfoEnt nIdx) h h.
Proof. intros Hh. unfold ok_hostInfoEnt in Hh. destruct_and! Hh. subst nIdx. message xdr_hostInfoEnt. Qed.

#[local] Hint Resolve resInfo_carries queueInfoEnt_carries hostInfoEnt_carries : xdr.

(** The replies to queries about users, groups, output files, shared
    resources (an array of resources of arrays of instances of arrays of host
    names) and parameters survive the wire: they are decoded to what was
    encoded, for all values of their C types. *)
Theorem replies_round_trip u g k s p :
  ok_userInfoReply u -> ok_groupInfoReply g -> ok_jobPeekReply k -> ok_resInfoReply s ->
  ok_parameterInfo p ->
  round_trips xdr_userInfoReply u /\ round_trips xdr_groupInfoReply g /\ round_trips xdr_jobPeekReply k /\
  round_trips xdr_lsbShareResourceInfoReply s /\ round_trips xdr_parameterInfo p.
Proof.
  intros (?&?&?) (?&?) (?&?) (?&?&?) Hp. unfold ok_parameterInfo in Hp. destruct_and! Hp.
  split_and!; eapply carries_trip.
  - unfold xdr_userInfoReply. msg.
  - unfold xdr_groupInfoReply. msg.
  - unfold xdr_jobPeekReply. msg.
  - unfold xdr_lsbShareResourceInfoReply. msg.
  - unfold xdr_parameterInfo. msg.
Qed.

(** The replies to queries about queues and hosts survive the
    wire: the number of load indices is sent once, and it makes the decoding of
    every entry read its thresholds and loads, whose elements are interleaved in
    pairs, into the arrays they came from. *)
Theorem queue_host_round_trip q h :
  ok_queueInfoReply q -> ok_hostDataReply h ->
  round_trips xdr_queueInfoReply q /\ round_trips xdr_hostDataReply h.
Proof.
  intros (?&?&?&?) (?&?&?&?&?). split; eapply carries_trip.
  - unfold xdr_queueInfoReply. msg.
  - unfold xdr_hostDataReply. msg.
Qed.
End Replies.

(** ** Witnesses *)

Ltac demo_ok :=
  repeat lazymatch goal with
  | |- _ /\ _ => split
  | |- str_ok _ _ => split; [by apply (bool_decide_unpack _)|vm_compute; congruence]
  | |- var_ok _ => split; [by apply (bool_decide_unpack _)|vm_compute; congruence]
  | |- Forall _ _ => first [apply Forall_nil_2 | apply Forall_cons_2]
  | |- job_ok _ => right; exists 4711, 12
  | |- count_ok _ _ => split
  | |- int_ok _ => split
  | |- u_int_ok _ => split
  | |- in_uint _ _ => split
  | |- in_sint _ _ => split
  | |- _ <= _ => vm_compute; congruence
  | |- _ < _ => vm_compute; reflexivity
  | |- _ = _ => vm_compute; reflexivity
  | |- _ <> _ => vm_compute; congruence
  | |- _ \/ _ => first [left; vm_compute; reflexivity | right; vm_compute; reflexivity]
  | |- _ => progress hnf
  end.

Definition demo_job : Z := jobId32To64 4711 12.

Definition demo_submit : submitReq :=
  SubmitReq (-5) (lit "normal") [] 1 (lit "hostA") (lit "done(1)") (lit "a[1-3]") (lit "sleep 10")
    (lit "1.22") (lit "in") (lit "out") (lit "err") [] [] 2 [lit "hostA"; lit "hostB"]
    (replicate 11 (-1)) 1000 0 0 18 0 0 0 [] (lit "/home/u") (lit "/tmp") 1
    [XFile (lit "f") (lit "g") 1] (lit "u") (lit "default") 0 1 (lit "/bin/sh") [] 0 [] [] 5.

Lemma demo_submit_ok : ok_submitReq demo_submit.
Proof. demo_ok. Qed.

Lemma submission_round_trip_witness :
  round_trips xdr_submitReq demo_submit /\
  round_trips xdr_modifyReq (ModifyReq demo_job (lit "4711[12]") 0 0 demo_submit).
Proof.
  destruct (submission_round_trip demo_submit (ModifyReq demo_job (lit "4711[12]") 0 0 demo_submit)
              (SubmitMbdReply demo_job 0 (lit "normal") [])) as (H1 & H2 & _).
  - apply demo_submit_ok.
  - demo_ok.
  - demo_ok.
  - by split.
Defined.

Definition demo_jobPart : jobPart :=
  JobPart demo_job 4 0 0 2000 0 0 2 1 1 500 (lit "u") [1] [2] [7] [lit "hostA"; lit "hostA"] demo_submit
    0 500 (lit "/home/u") (lit "/tmp") (lit "u") 0 99 2001 (JRusage 1 2 3 4 1 [PidInfo 9 8 7 6] 1 [9])
    0 6881 5.

Lemma job_information_round_trip_witness :
  round_trips xdr_jobInfoHead (JobInfoHead 2 1 [demo_job; demo_job] [lit "hostA"]) /\
  round_trips xdr_jobInfoReply (JobInfoReply 1 (lit "/") (lit "a") (replicate 8 0) (inr demo_jobPart)).
Proof. apply job_information_round_trip; demo_ok. Defined.

Lemma control_requests_round_trip_witness :
  round_trips xdr_signalReq (SignalReq SIG_CHKPNT demo_job (Some (60, 1))) /\
  round_trips xdr_migReq (MigReq demo_job 0 1 [lit "hostB"]).
Proof.
  destruct (control_requests_round_trip (SignalReq SIG_CHKPNT demo_job (Some (60, 1)))
    (JobSwitchReq demo_job (lit "night")) (JobMoveReq 1 demo_job 1) (MigReq demo_job 0 1 [lit "hostB"])
    (RunJobRequest demo_job 1 [lit "hostA"] 0) (ControlReq 2 (lit "hostA")))
    as (H1 & _ & _ & H4 & _ & _); [demo_ok..|].
  by split.
Defined.

Lemma query_requests_round_trip_witness :
  round_trips xdr_infoReq (InfoReq (CHECK_HOST + CHECK_USER) 1 [lit "normal"; lit "hostA"; lit "u"] []) /\
  round_trips xdr_jobPeekReq demo_job.
Proof.
  destruct (query_requests_round_trip (JobInfoReq 1 (lit "all") demo_job [] [] [])
    (InfoReq (CHECK_HOST + CHECK_USER) 1 [lit "normal"; lit "hostA"; lit "u"] []) demo_job
    (JobAttrInfoEnt demo_job 6881 (lit "hostA"))
    (LsbMsg 1 500 demo_job 0 (lit "a") (lit "b") (lit "hello"))) as (_ & H2 & H3 & _ & _); [demo_ok..|].
  by split.
Defined.

Lemma replies_round_trip_witness :
  round_trips xdr_userInfoReply (UserInfoReply 1 0 [UserInfoEnt (lit "u") 0 10 1 3 1 1 1 0 0]) /\
  round_trips xdr_lsbShareResourceInfoReply
    (ResInfoReply 1 0 [ResInfo (lit "lic") 1 [ResInstance (lit "5") (lit "2") 1 [lit "hostA"]]]).
Proof.
  destruct (replies_round_trip (UserInfoReply 1 0 [UserInfoEnt (lit "u") 0 10 1 3 1 1 1 0 0])
    (GroupInfoReply 1 [GroupInfoEnt (lit "g") (lit "u v")]) (JobPeekReply (lit "out") [])
    (ResInfoReply 1 0 [ResInfo (lit "lic") 1 [ResInstance (lit "5") (lit "2") 1 [lit "hostA"]]])
    (ParameterInfo (lit "normal") [] 60 30 1 5 3 3600 1000 180 (lit "default") 1000 10 1 [] 0 0 0 999999
       0 0 0 0 0)) as (H1 & _ & _ & H4 & _); [demo_ok..|].
  by split.
Defined.

Definition demo_queue : queueInfoEnt :=
  QueueInfoEnt (lit "normal") [] [] [] [] [] (replicate 11 (-1)) 1 [1] [2] 30 20 0 0 0 0 0 3 1 1 1 0 0 0 0
    [] [] 0 [] [] [] [] [] 0 [] 0 0 [] [] [] [] [] [] (replicate 23 0) [] 0 (replicate 11 (-1)) 0 0.

Definition demo_host : hostInfoEnt :=
  HostInfoEnt (lit "hostA") 1 [] 0 4 1 1 0 0 0 0 0 1 [0] [0] [1] [2] [3] [4] 0.

Lemma queue_host_round_trip_witness :
  round_trips xdr_queueInfoReply (QueueInfoReply 1 0 1 [demo_queue]) /\
  round_trips xdr_hostDataReply (HostDataReply 1 0 1 [demo_host] 1).
Proof. apply queue_host_round_trip; demo_ok. Defined.

(** The decoding of an encoded request, evaluated. *)
Example demo_switch :
  (r ← enc xdr_jobSwitchReq 100 (JobSwitchReq demo_job (lit "night")); dec xdr_jobSwitchReq r.1 0)
  = Some (JobSwitchReq demo_job (lit "night"), 20).
Proof. vm_compute. reflexivity. Qed.
