(* ===== verification/SbdXdr.v ===== *)
(** * The messages between mbatchd and sbatchd (daemons.xdr.c, sbd.xdr.c)

    What mbatchd sends to the sbatchd of a host to start, signal or describe jobs, and what sbatchd
    reports, as codecs in the style of [LsbXdr]; the fields of a structure are in the order in
    which they are sent. [job_buflen] is the size of the buffer that [start_job] (mbd.comm.c)
    makes for a job: whether a job can be started depends on it.

    [xdr_chunkStatusReq] goes on when the encoding of an entry fails, and is not modelled. *)

From S2P Require Import Prelude CLib HashTable JobId Xdr LsbXdr.

(** ** Data *)

(** The thresholds of a job: for each of several conditions the load at which it is suspended and resumed. *)
Record thresholds := Thresholds {
  th_nIdx : Z; th_nThresholds : Z; th_loadStop : list (list Z); th_loadSched : list (list Z) }.

Record jobSpecs := JobSpecs {
  js_jobId : Z; js_userId : Z; js_options : Z; js_nice : Z; js_priority : Z; js_chkSig : Z; js_actPid : Z;
  js_chkPeriod : Z; js_migThresh : Z; js_lastSSuspTime : Z; js_lastCpuTime : Z;
  js_lsfLimits : list lsfLimit; js_jStatus : Z; js_reasons : Z; js_subreasons : Z; js_termTime : Z;
  js_startTime : Z; js_runTime : Z; js_submitTime : Z; js_jobPid : Z; js_jobPGid : Z; js_restartPid : Z;
  js_sigValue : Z; js_umask : Z; js_jAttrib : Z; js_jobFile : cstr; js_inFile : cstr; js_outFile : cstr;
  js_errFile : cstr; js_chkpntDir : cstr; js_cwd : cstr; js_subHomeDir : cstr; js_command : cstr;
  js_jobName : cstr; js_preExecCmd : cstr; js_fromHost : cstr; js_resReq : cstr; js_queue : cstr;
  js_windows : cstr; js_userName : cstr; js_numToHosts : Z; js_toHosts : list cstr;
  js_thresholds : thresholds; js_nxf : Z; js_xf : list xFile; js_mailUser : cstr; js_clusterName : cstr;
  js_projectName : cstr; js_preCmd : cstr; js_postCmd : cstr; js_execCwd : cstr; js_execHome : cstr;
  js_requeueEValues : cstr; js_execUid : Z; js_maxNumProcessors : Z; js_numEnv : Z; js_env : list cstr;
  js_eexec : list Z; js_niosPort : Z; js_resumeCond : cstr; js_stopCond : cstr; js_suspendActCmd : cstr;
  js_resumeActCmd : cstr; js_terminateActCmd : cstr; js_sigMap : list Z; js_actValue : Z;
  js_loginShell : cstr; js_schedHostType : cstr; js_execHosts : cstr; js_options2 : Z;
  js_jobSpoolDir : cstr; js_inFileSpool : cstr; js_commandSpool : cstr; js_userPriority : Z;
  js_execUsername : cstr; js_prepostUsername : cstr }.

Record jobSig := JobSig {
  jx_jobId : Z; jx_sigValue : Z; jx_chkPeriod : Z; jx_actFlags : Z; jx_reasons : Z; jx_subReasons : Z;
  jx_actCmd : cstr; jx_newJobId : Z }.

Record jobReply := JobReply {
  rp_jobId : Z; rp_jobPid : Z; rp_jobPGid : Z; rp_actPid : Z; rp_jStatus : Z; rp_reasons : Z;
  rp_actValue : Z; rp_actStatus : Z }.

Record statusReq := StatusReq {
  sq_jobId : Z; sq_jobPid : Z; sq_jobPGid : Z; sq_actPid : Z; sq_seq : Z; sq_newStatus : Z; sq_reason : Z;
  sq_subreasons : Z; sq_sbdReply : Z; sq_lsfRusage : list Z; sq_execUid : Z; sq_numExecHosts : Z;
  sq_execHosts : list cstr; sq_exitStatus : Z; sq_execHome : cstr; sq_execUsername : cstr;
  sq_execCwd : cstr; sq_queuePreCmd : cstr; sq_queuePostCmd : cstr; sq_msgId : Z; sq_runRusage : jRusage;
  sq_sigValue : Z; sq_actStatus : Z }.

(** [struct sbdPackage]: what a restarted sbatchd is told. *)
Record sbdPackage := SbdPackage {
  sp_mbdPid : Z; sp_retryIntvl : Z; sp_preemPeriod : Z; sp_pgSuspIdleT : Z; sp_maxJobs : Z;
  sp_sbdSleepTime : Z; sp_managerId : Z; sp_numJobs : Z; sp_lsbManager : cstr; sp_jobs : list jobSpecs;
  sp_uJobLimit : Z; sp_rusageUpdateRate : Z; sp_rusageUpdatePercent : Z; sp_jobTerminateInterval : Z;
  sp_nAdmins : Z; sp_admins : list cstr }.

(** [struct jobSetup], [struct jobSyslog] and [struct jobCard] (sbd.h); of [maxRusage] five fields are sent. *)
Record jobSetup := JobSetup {
  su_jobId : Z; su_jStatus : Z; su_cpuTime : Z; su_w_status : Z; su_reason : Z; su_jobPid : Z;
  su_jobPGid : Z; su_execGid : Z; su_execUid : Z; su_execJobFlag : Z; su_lsfRusage : list Z;
  su_execUsername : cstr; su_execHome : cstr; su_execCwd : cstr }.

Record jobSyslog := JobSyslog {
  sl_logLevel : Z; sl_msg : cstr }.

Record jobCard := JobCard {
  jc_execGid : Z; jc_notReported : Z; jc_windEdge : Z; jc_active : Z; jc_timeExpire : Z; jc_missing : Z;
  jc_mbdRestarted : Z; jc_windWarnTime : Z; jc_runTime : Z; jc_w_status : Z; jc_cpuTime : Z;
  jc_lastChkpntTime : Z; jc_migCnt : Z; jc_cleanupPid : Z; jc_execJobFlag : Z; jc_lastStatusMbdTime : Z;
  jc_execUsername : cstr; jc_actReasons : Z; jc_actSubReasons : Z; jc_actCmd : cstr; jc_exitFile : cstr;
  jc_clusterName : cstr; jc_jobSpecs : jobSpecs; jc_servSocket : Z; jc_maxRusage_mem : Z;
  jc_maxRusage_swap : Z; jc_maxRusage_utime : Z; jc_maxRusage_stime : Z; jc_maxRusage_npids : Z;
  jc_actFlags : Z }.

(** [xdr_char], with what RFC 4506 says of it: a char is sent as an int. *)
Class XdrChar `{XdrPrims} := {
  xdr_char : codec Z Z;
  char_law z : in_sint 8 z -> exists bs, carries_n 4 xdr_char z z bs }.

(** ** Routines *)

Section Routines.
Context `{XdrPrims}.

(** A row: the elements of two arrays alternately. *)
Definition threshold_row (nIdx : Z) : codec (list Z * list Z) (list Z * list Z) := xdr_two nIdx fst snd xdr_float.

Definition xdr_thresholds : codec thresholds thresholds :=
  nIdx ← via th_nIdx xdr_int;
  nThresholds ← via th_nThresholds xdr_int;
  rows ← xdr_elems nThresholds (fun t => zip (th_loadStop t) (th_loadSched t)) (threshold_row nIdx);
  mret (Thresholds nIdx nThresholds rows.*1 rows.*2).

(** A failure of [xdr_thresholds] is only logged; but then the stream has no room for the int that
    follows, and [xdr_int] fails, too. Limits beyond the known ones are skipped. *)
Definition xdr_jobSpecs : codec jobSpecs jobSpecs :=
  jobIdArrId ← via (arr_id js_jobId) xdr_int;
  userId ← via js_userId xdr_int;
  options ← via js_options xdr_int;
  nice ← via js_nice xdr_short;
  priority ← via js_priority xdr_int;
  chkSig ← via js_chkSig xdr_int;
  actPid ← via js_actPid xdr_int;
  chkPeriod ← via js_chkPeriod xdr_time_t;
  migThresh ← via js_migThresh xdr_time_t;
  lastSSuspTime ← via js_lastSSuspTime xdr_time_t;
  lastCpuTime ← via js_lastCpuTime xdr_float;
  nLimits ← via (fun _ => LSF_RLIM_NLIMITS) xdr_int;
  lsfLimits ← xdr_elems nLimits js_lsfLimits xdr_lsfLimit;
  jStatus ← via js_jStatus xdr_int;
  reasons ← via js_reasons xdr_int;
  subreasons ← via js_subreasons xdr_int;
  termTime ← via js_termTime xdr_time_t;
  startTime ← via js_startTime xdr_time_t;
  runTime ← via js_runTime xdr_int;
  submitTime ← via js_submitTime xdr_time_t;
  jobPid ← via js_jobPid xdr_int;
  jobPGid ← via js_jobPGid xdr_int;
  restartPid ← via js_restartPid xdr_int;
  sigValue ← via js_sigValue xdr_int;
  umask ← via js_umask xdr_int;
  jAttrib ← via js_jAttrib xdr_int;
  jobFile ← via js_jobFile (xdr_string MAXFILENAMELEN);
  inFile ← via js_inFile (xdr_string MAXFILENAMELEN);
  outFile ← via js_outFile (xdr_string MAXFILENAMELEN);
  errFile ← via js_errFile (xdr_string MAXFILENAMELEN);
  chkpntDir ← via js_chkpntDir (xdr_string MAXFILENAMELEN);
  cwd ← via js_cwd (xdr_string MAXFILENAMELEN);
  subHomeDir ← via js_subHomeDir (xdr_string MAXFILENAMELEN);
  command ← via js_command (xdr_string MAXLINELEN);
  jobName ← via js_jobName (xdr_string MAXLINELEN);
  preExecCmd ← via js_preExecCmd (xdr_string MAXLINELEN);
  fromHost ← via js_fromHost (xdr_string MAXHOSTNAMELEN);
  resReq ← via js_resReq (xdr_string MAXLINELEN);
  queue ← via js_queue (xdr_string MAXFILENAMELEN);
  windows ← via js_windows (xdr_string MAXLINELEN);
  userName ← via js_userName (xdr_string MAX_LSB_NAME_LEN);
  numToHosts ← via js_numToHosts xdr_int;
  toHosts ← xdr_elems numToHosts js_toHosts xdr_var_string;
  thresholds ← via js_thresholds xdr_thresholds;
  nxf ← via js_nxf xdr_int;
  xf ← xdr_elems nxf js_xf (xdr_arrayElement xdr_xFile);
  mailUser ← via js_mailUser (xdr_string MAXLINELEN);
  clusterName ← via js_clusterName (xdr_string MAX_LSB_NAME_LEN);
  projectName ← via js_projectName (xdr_string MAX_LSB_NAME_LEN);
  preCmd ← via js_preCmd (xdr_string MAXLINELEN);
  postCmd ← via js_postCmd (xdr_string MAXLINELEN);
  execCwd ← via js_execCwd (xdr_string MAXFILENAMELEN);
  execHome ← via js_execHome (xdr_string MAXFILENAMELEN);
  requeueEValues ← via js_requeueEValues (xdr_string MAXLINELEN);
  execUid ← via js_execUid xdr_int;
  maxNumProcessors ← via js_maxNumProcessors xdr_int;
  numEnv ← via js_numEnv xdr_int;
  env ← xdr_elems numEnv js_env xdr_var_string;
  eexec ← via js_eexec xdr_lenData;
  niosPort ← via js_niosPort xdr_int;
  resumeCond ← via js_resumeCond (xdr_string MAXLINELEN);
  stopCond ← via js_stopCond (xdr_string MAXLINELEN);
  suspendActCmd ← via js_suspendActCmd (xdr_string MAXLINELEN);
  resumeActCmd ← via js_resumeActCmd (xdr_string MAXLINELEN);
  terminateActCmd ← via js_terminateActCmd (xdr_string MAXLINELEN);
  sigMap ← xdr_elems LSB_SIG_NUM js_sigMap xdr_int;
  actValue ← via js_actValue xdr_int;
  loginShell ← via js_loginShell xdr_var_string;
  schedHostType ← via js_schedHostType xdr_var_string;
  execHosts ← via js_execHosts xdr_var_string;
  options2 ← via js_options2 xdr_int;
  jobSpoolDir ← via js_jobSpoolDir (xdr_string MAXPATHLEN);
  jobIdArrElemId ← via (arr_elem js_jobId) xdr_int;
  inFileSpool ← via js_inFileSpool (xdr_string MAXFILENAMELEN);
  commandSpool ← via js_commandSpool (xdr_string MAXFILENAMELEN);
  userPriority ← via js_userPriority xdr_int;
  execUsername ← via js_execUsername (xdr_string MAX_LSB_NAME_LEN);
  prepostUsername ← via js_prepostUsername (xdr_string MAX_LSB_NAME_LEN);
  mret (JobSpecs (jobId32To64 jobIdArrId jobIdArrElemId) userId options nice priority chkSig actPid
          chkPeriod migThresh lastSSuspTime lastCpuTime (take (Z.to_nat LSF_RLIM_NLIMITS) lsfLimits)
          jStatus reasons subreasons termTime startTime runTime submitTime jobPid jobPGid restartPid
          sigValue umask jAttrib jobFile inFile outFile errFile chkpntDir cwd subHomeDir command jobName
          preExecCmd fromHost resReq queue windows userName numToHosts toHosts thresholds nxf xf mailUser
          clusterName projectName preCmd postCmd execCwd execHome requeueEValues execUid maxNumProcessors
          numEnv env eexec niosPort resumeCond stopCond suspendActCmd resumeActCmd terminateActCmd sigMap
          actValue loginShell schedHostType execHosts options2 jobSpoolDir inFileSpool commandSpool
          userPriority execUsername prepostUsername).

Definition xdr_jobSig : codec jobSig jobSig :=
  jobIdArrId ← via (arr_id jx_jobId) xdr_int;
  sigValue ← via jx_sigValue xdr_int;
  chkPeriod ← via jx_chkPeriod xdr_time_t;
  actFlags ← via jx_actFlags xdr_int;
  reasons ← via jx_reasons xdr_int;
  subReasons ← via jx_subReasons xdr_int;
  actCmd ← via jx_actCmd xdr_var_string;
  jobIdArrElemId ← via (arr_elem jx_jobId) xdr_int;
  newJobIdArrId ← via (arr_id jx_newJobId) xdr_int;
  newJobIdArrElemId ← via (arr_elem jx_newJobId) xdr_int;
  mret (JobSig (jobId32To64 jobIdArrId jobIdArrElemId) sigValue chkPeriod actFlags reasons subReasons
          actCmd (jobId32To64 newJobIdArrId newJobIdArrElemId)).

Definition xdr_jobReply : codec jobReply jobReply :=
  jobIdArrId ← via (arr_id rp_jobId) xdr_int;
  jobPid ← via rp_jobPid xdr_int;
  jobPGid ← via rp_jobPGid xdr_int;
  actPid ← via rp_actPid xdr_int;
  jStatus ← via rp_jStatus xdr_int;
  reasons ← via rp_reasons xdr_int;
  actValue ← via rp_actValue xdr_int;
  actStatus ← via rp_actStatus xdr_int;
  jobIdArrElemId ← via (arr_elem rp_jobId) xdr_int;
  mret (JobReply (jobId32To64 jobIdArrId jobIdArrElemId) jobPid jobPGid actPid jStatus reasons actValue
          actStatus).

Definition xdr_statusReq : codec statusReq statusReq :=
  jobIdArrId ← via (arr_id sq_jobId) xdr_int;
  jobPid ← via sq_jobPid xdr_int;
  jobPGid ← via sq_jobPGid xdr_int;
  actPid ← via sq_actPid xdr_int;
  seq ← via sq_seq xdr_int;
  newStatus ← via sq_newStatus xdr_int;
  reason ← via sq_reason xdr_int;
  subreasons ← via sq_subreasons xdr_int;
  sbdReply ← via sq_sbdReply xdr_int;
  lsfRusage ← via sq_lsfRusage (xdr_arrayElement xdr_lsfRusage);
  execUid ← via sq_execUid xdr_int;
  numExecHosts ← via sq_numExecHosts xdr_int;
  execHosts ← xdr_elems numExecHosts sq_execHosts (xdr_string MAXHOSTNAMELEN);
  exitStatus ← via sq_exitStatus xdr_int;
  execHome ← via sq_execHome xdr_var_string;
  execUsername ← via sq_execUsername xdr_var_string;
  execCwd ← via sq_execCwd xdr_var_string;
  queuePreCmd ← via sq_queuePreCmd xdr_var_string;
  queuePostCmd ← via sq_queuePostCmd xdr_var_string;
  msgId ← via sq_msgId xdr_int;
  runRusage ← via sq_runRusage xdr_jRusage;
  sigValue ← via sq_sigValue xdr_int;
  actStatus ← via sq_actStatus xdr_int;
  jobIdArrElemId ← via (arr_elem sq_jobId) xdr_int;
  mret (StatusReq (jobId32To64 jobIdArrId jobIdArrElemId) jobPid jobPGid actPid seq newStatus reason
          subreasons sbdReply lsfRusage execUid numExecHosts execHosts exitStatus execHome execUsername
          execCwd queuePreCmd queuePostCmd msgId runRusage sigValue actStatus).

(** The second part of a package. *)
Definition xdr_sbdPackage1 : codec sbdPackage (Z * Z * Z * Z * Z * list cstr) :=
  uJobLimit ← via sp_uJobLimit xdr_int;
  rusageUpdateRate ← via sp_rusageUpdateRate xdr_int;
  rusageUpdatePercent ← via sp_rusageUpdatePercent xdr_int;
  jobTerminateInterval ← via sp_jobTerminateInterval xdr_int;
  nAdmins ← via sp_nAdmins xdr_int;
  admins ← xdr_elems nAdmins sp_admins xdr_var_string;
  mret (uJobLimit, rusageUpdateRate, rusageUpdatePercent, jobTerminateInterval, nAdmins, admins).

(** Encoding is done by [xdr_sbdPackage]; sbatchd decodes the head with it, then the jobs one by
    one, and the rest with [xdr_sbdPackage1] (sbd.comm.c). *)
Definition xdr_sbdPackage : codec sbdPackage sbdPackage :=
  mbdPid ← via sp_mbdPid xdr_int;
  retryIntvl ← via sp_retryIntvl xdr_int;
  preemPeriod ← via sp_preemPeriod xdr_int;
  pgSuspIdleT ← via sp_pgSuspIdleT xdr_int;
  maxJobs ← via sp_maxJobs xdr_int;
  sbdSleepTime ← via sp_sbdSleepTime xdr_int;
  managerId ← via sp_managerId xdr_int;
  numJobs ← via sp_numJobs xdr_int;
  lsbManager ← via sp_lsbManager (xdr_string MAX_LSB_NAME_LEN);
  jobs ← xdr_elems numJobs sp_jobs (xdr_arrayElement xdr_jobSpecs);
  '(uJobLimit, rusageUpdateRate, rusageUpdatePercent, jobTerminateInterval, nAdmins, admins) ← xdr_sbdPackage1;
  mret (SbdPackage mbdPid retryIntvl preemPeriod pgSuspIdleT maxJobs sbdSleepTime managerId numJobs
          lsbManager jobs uJobLimit rusageUpdateRate rusageUpdatePercent jobTerminateInterval nAdmins admins).

Definition xdr_jobSetup : codec jobSetup jobSetup :=
  jobIdArrId ← via (arr_id su_jobId) xdr_int;
  jStatus ← via su_jStatus xdr_int;
  cpuTime ← via su_cpuTime xdr_float;
  w_status ← via su_w_status xdr_int;
  reason ← via su_reason xdr_int;
  jobPid ← via su_jobPid xdr_int;
  jobPGid ← via su_jobPGid xdr_int;
  execGid ← via su_execGid xdr_int;
  execUid ← via su_execUid xdr_int;
  execJobFlag ← via su_execJobFlag xdr_int;
  lsfRusage ← via su_lsfRusage (xdr_arrayElement xdr_lsfRusage);
  execUsername ← via su_execUsername (xdr_string MAX_LSB_NAME_LEN);
  execHome ← via su_execHome (xdr_string MAXFILENAMELEN);
  execCwd ← via su_execCwd (xdr_string MAXFILENAMELEN);
  jobIdArrElemId ← via (arr_elem su_jobId) xdr_int;
  mret (JobSetup (jobId32To64 jobIdArrId jobIdArrElemId) jStatus cpuTime w_status reason jobPid jobPGid
          execGid execUid execJobFlag lsfRusage execUsername execHome execCwd).

Definition xdr_jobSyslog : codec jobSyslog jobSyslog :=
  logLevel ← via sl_logLevel xdr_int;
  msg ← via sl_msg (xdr_string MAXLINELEN);
  mret (JobSyslog logLevel msg).

Context `{!XdrChar}.

Definition xdr_jobCard : codec jobCard jobCard :=
  execGid ← via jc_execGid xdr_int;
  notReported ← via jc_notReported xdr_int;
  windEdge ← via jc_windEdge xdr_time_t;
  active ← via jc_active xdr_char;
  timeExpire ← via jc_timeExpire xdr_char;
  missing ← via jc_missing xdr_char;
  mbdRestarted ← via jc_mbdRestarted xdr_char;
  windWarnTime ← via jc_windWarnTime xdr_time_t;
  runTime ← via jc_runTime xdr_int;
  w_status ← via jc_w_status xdr_int;
  cpuTime ← via jc_cpuTime xdr_float;
  lastChkpntTime ← via jc_lastChkpntTime xdr_time_t;
  migCnt ← via jc_migCnt xdr_int;
  cleanupPid ← via jc_cleanupPid xdr_int;
  execJobFlag ← via jc_execJobFlag xdr_int;
  lastStatusMbdTime ← via jc_lastStatusMbdTime xdr_time_t;
  execUsername ← via jc_execUsername (xdr_string MAX_LSB_NAME_LEN);
  actReasons ← via jc_actReasons xdr_int;
  actSubReasons ← via jc_actSubReasons xdr_int;
  actCmd ← via jc_actCmd xdr_var_string;
  exitFile ← via jc_exitFile xdr_var_string;
  clusterName ← via jc_clusterName xdr_var_string;
  jobSpecs ← via jc_jobSpecs (xdr_arrayElement xdr_jobSpecs);
  servSocket ← via jc_servSocket xdr_int;
  maxRusage_mem ← via jc_maxRusage_mem xdr_int;
  maxRusage_swap ← via jc_maxRusage_swap xdr_int;
  maxRusage_utime ← via jc_maxRusage_utime xdr_int;
  maxRusage_stime ← via jc_maxRusage_stime xdr_int;
  maxRusage_npids ← via jc_maxRusage_npids xdr_int;
  actFlags ← via jc_actFlags xdr_int;
  mret (JobCard execGid notReported windEdge active timeExpire missing mbdRestarted windWarnTime runTime
          w_status cpuTime lastChkpntTime migCnt cleanupPid execJobFlag lastStatusMbdTime execUsername
          actReasons actSubReasons actCmd exitFile clusterName jobSpecs servSocket maxRusage_mem
          maxRusage_swap maxRusage_utime maxRusage_stime maxRusage_npids actFlags).
End Routines.

(** ** Buffers *)

(** The sizes of the structures (64-bit pointers, longs and times). *)
Definition sizeof_jobSpecs : Z := 15040.
Definition sizeof_sbdPackage : Z := 136.
Definition sizeof_xFile : Z := 516.
Definition sizeof_jRusage : Z := 48.

Definition sum_of {A} (f : A -> Z) (l : list A) : Z := foldr (fun a s => f a + s) 0 l.

(** [start_job] (mbd.comm.c). *)
Definition job_buflen (j : jobSpecs) : Z :=
  sizeof_jobSpecs + sizeof_sbdPackage + 100 + js_numToHosts j * MAXHOSTNAMELEN
  + th_nThresholds (js_thresholds j) * th_nIdx (js_thresholds j) * 2 * 4
  + js_nxf j * sizeof_xFile + len (js_eexec j) + sum_of strlen (js_env j).

(** The lengths of the texts that are null in C count as 0. *)
Definition sizeofJobCard (jc : jobCard) : Z :=
  job_buflen (jc_jobSpecs jc) + strlen (jc_actCmd jc) + strlen (jc_exitFile jc) + sizeof_jRusage.

(** ** What can be sent *)

Definition ok_thresholds (t : thresholds) : Prop :=
  0 <= th_nIdx t /\ count_ok (th_nThresholds t) (th_loadStop t) /\ count_ok (th_nThresholds t) (th_loadSched t) /\
  th_nIdx t <= 1000 /\ Forall (fun r => len r = th_nIdx t /\ Forall u_int_ok r) (th_loadStop t) /\
  Forall (fun r => len r = th_nIdx t /\ Forall u_int_ok r) (th_loadSched t).

Definition ok_lenData (b : list Z) : Prop := Forall (in_uint 8) b /\ len b <= 2 ^ 20.

Definition ok_jobSpecs (j : jobSpecs) : Prop :=
  job_ok (js_jobId j) /\ int_ok (js_userId j) /\ int_ok (js_options j) /\ in_sint 16 (js_nice j) /\
  int_ok (js_priority j) /\ int_ok (js_chkSig j) /\ int_ok (js_actPid j) /\ u_int_ok (js_chkPeriod j) /\
  u_int_ok (js_migThresh j) /\ u_int_ok (js_lastSSuspTime j) /\ u_int_ok (js_lastCpuTime j) /\
  count_ok LSF_RLIM_NLIMITS (js_lsfLimits j) /\ Forall ok_limit (js_lsfLimits j) /\
  int_ok (js_jStatus j) /\ int_ok (js_reasons j) /\ int_ok (js_subreasons j) /\ u_int_ok (js_termTime j) /\
  u_int_ok (js_startTime j) /\ int_ok (js_runTime j) /\ u_int_ok (js_submitTime j) /\
  int_ok (js_jobPid j) /\ int_ok (js_jobPGid j) /\ int_ok (js_restartPid j) /\ int_ok (js_sigValue j) /\
  int_ok (js_umask j) /\ int_ok (js_jAttrib j) /\ str_ok MAXFILENAMELEN (js_jobFile j) /\
  str_ok MAXFILENAMELEN (js_inFile j) /\ str_ok MAXFILENAMELEN (js_outFile j) /\
  str_ok MAXFILENAMELEN (js_errFile j) /\ str_ok MAXFILENAMELEN (js_chkpntDir j) /\
  str_ok MAXFILENAMELEN (js_cwd j) /\ str_ok MAXFILENAMELEN (js_subHomeDir j) /\
  str_ok MAXLINELEN (js_command j) /\ str_ok MAXLINELEN (js_jobName j) /\
  str_ok MAXLINELEN (js_preExecCmd j) /\ str_ok MAXHOSTNAMELEN (js_fromHost j) /\
  str_ok MAXLINELEN (js_resReq j) /\ str_ok MAXFILENAMELEN (js_queue j) /\
  str_ok MAXLINELEN (js_windows j) /\ str_ok MAX_LSB_NAME_LEN (js_userName j) /\
  count_ok (js_numToHosts j) (js_toHosts j) /\ Forall var_ok (js_toHosts j) /\
  ok_thresholds (js_thresholds j) /\ count_ok (js_nxf j) (js_xf j) /\ Forall ok_xFile (js_xf j) /\
  str_ok MAXLINELEN (js_mailUser j) /\ str_ok MAX_LSB_NAME_LEN (js_clusterName j) /\
  str_ok MAX_LSB_NAME_LEN (js_projectName j) /\ str_ok MAXLINELEN (js_preCmd j) /\
  str_ok MAXLINELEN (js_postCmd j) /\ str_ok MAXFILENAMELEN (js_execCwd j) /\
  str_ok MAXFILENAMELEN (js_execHome j) /\ str_ok MAXLINELEN (js_requeueEValues j) /\
  int_ok (js_execUid j) /\ int_ok (js_maxNumProcessors j) /\ count_ok (js_numEnv j) (js_env j) /\
  Forall var_ok (js_env j) /\ ok_lenData (js_eexec j) /\ int_ok (js_niosPort j) /\
  str_ok MAXLINELEN (js_resumeCond j) /\ str_ok MAXLINELEN (js_stopCond j) /\
  str_ok MAXLINELEN (js_suspendActCmd j) /\ str_ok MAXLINELEN (js_resumeActCmd j) /\
  str_ok MAXLINELEN (js_terminateActCmd j) /\ count_ok LSB_SIG_NUM (js_sigMap j) /\
  Forall int_ok (js_sigMap j) /\ int_ok (js_actValue j) /\ var_ok (js_loginShell j) /\
  var_ok (js_schedHostType j) /\ var_ok (js_execHosts j) /\ int_ok (js_options2 j) /\
  str_ok MAXPATHLEN (js_jobSpoolDir j) /\ str_ok MAXFILENAMELEN (js_inFileSpool j) /\
  str_ok MAXFILENAMELEN (js_commandSpool j) /\ int_ok (js_userPriority j) /\
  str_ok MAX_LSB_NAME_LEN (js_execUsername j) /\ str_ok MAX_LSB_NAME_LEN (js_prepostUsername j).

Definition ok_jobSig (s : jobSig) : Prop :=
  job_ok (jx_jobId s) /\ int_ok (jx_sigValue s) /\ u_int_ok (jx_chkPeriod s) /\ int_ok (jx_actFlags s) /\
  int_ok (jx_reasons s) /\ int_ok (jx_subReasons s) /\ var_ok (jx_actCmd s) /\ job_ok (jx_newJobId s).

Definition ok_jobReply (r : jobReply) : Prop :=
  job_ok (rp_jobId r) /\ int_ok (rp_jobPid r) /\ int_ok (rp_jobPGid r) /\ int_ok (rp_actPid r) /\
  int_ok (rp_jStatus r) /\ int_ok (rp_reasons r) /\ int_ok (rp_actValue r) /\ int_ok (rp_actStatus r).

Definition ok_statusReq (s : statusReq) : Prop :=
  job_ok (sq_jobId s) /\ int_ok (sq_jobPid s) /\ int_ok (sq_jobPGid s) /\ int_ok (sq_actPid s) /\
  int_ok (sq_seq s) /\ int_ok (sq_newStatus s) /\ int_ok (sq_reason s) /\ int_ok (sq_subreasons s) /\
  int_ok (sq_sbdReply s) /\ len (sq_lsfRusage s) = 19 /\ Forall (in_uint 64) (sq_lsfRusage s) /\
  int_ok (sq_execUid s) /\ count_ok (sq_numExecHosts s) (sq_execHosts s) /\
  Forall (str_ok MAXHOSTNAMELEN) (sq_execHosts s) /\ int_ok (sq_exitStatus s) /\ var_ok (sq_execHome s) /\
  var_ok (sq_execUsername s) /\ var_ok (sq_execCwd s) /\ var_ok (sq_queuePreCmd s) /\
  var_ok (sq_queuePostCmd s) /\ int_ok (sq_msgId s) /\ ok_rusage (sq_runRusage s) /\
  int_ok (sq_sigValue s) /\ int_ok (sq_actStatus s).

Definition ok_sbdPackage (p : sbdPackage) : Prop :=
  int_ok (sp_mbdPid p) /\ int_ok (sp_retryIntvl p) /\ int_ok (sp_preemPeriod p) /\
  int_ok (sp_pgSuspIdleT p) /\ int_ok (sp_maxJobs p) /\ int_ok (sp_sbdSleepTime p) /\
  int_ok (sp_managerId p) /\ str_ok MAX_LSB_NAME_LEN (sp_lsbManager p) /\
  count_ok (sp_numJobs p) (sp_jobs p) /\ Forall ok_jobSpecs (sp_jobs p) /\ int_ok (sp_uJobLimit p) /\
  int_ok (sp_rusageUpdateRate p) /\ int_ok (sp_rusageUpdatePercent p) /\
  int_ok (sp_jobTerminateInterval p) /\ count_ok (sp_nAdmins p) (sp_admins p) /\
  Forall var_ok (sp_admins p).

Definition ok_jobSetup (s : jobSetup) : Prop :=
  job_ok (su_jobId s) /\ int_ok (su_jStatus s) /\ u_int_ok (su_cpuTime s) /\ int_ok (su_w_status s) /\
  int_ok (su_reason s) /\ int_ok (su_jobPid s) /\ int_ok (su_jobPGid s) /\ int_ok (su_execGid s) /\
  int_ok (su_execUid s) /\ int_ok (su_execJobFlag s) /\ len (su_lsfRusage s) = 19 /\
  Forall (in_uint 64) (su_lsfRusage s) /\ str_ok MAX_LSB_NAME_LEN (su_execUsername s) /\
  str_ok MAXFILENAMELEN (su_execHome s) /\ str_ok MAXFILENAMELEN (su_execCwd s).

Definition ok_jobSyslog (l : jobSyslog) : Prop :=
  int_ok (sl_logLevel l) /\ str_ok MAXLINELEN (sl_msg l).

Definition ok_jobCard (c : jobCard) : Prop :=
  int_ok (jc_execGid c) /\ int_ok (jc_notReported c) /\ u_int_ok (jc_windEdge c) /\
  in_sint 8 (jc_active c) /\ in_sint 8 (jc_timeExpire c) /\ in_sint 8 (jc_missing c) /\
  in_sint 8 (jc_mbdRestarted c) /\ u_int_ok (jc_windWarnTime c) /\ int_ok (jc_runTime c) /\
  int_ok (jc_w_status c) /\ u_int_ok (jc_cpuTime c) /\ u_int_ok (jc_lastChkpntTime c) /\
  int_ok (jc_migCnt c) /\ int_ok (jc_cleanupPid c) /\ int_ok (jc_execJobFlag c) /\
  u_int_ok (jc_lastStatusMbdTime c) /\ str_ok MAX_LSB_NAME_LEN (jc_execUsername c) /\
  int_ok (jc_actReasons c) /\ int_ok (jc_actSubReasons c) /\ var_ok (jc_actCmd c) /\
  var_ok (jc_exitFile c) /\ var_ok (jc_clusterName c) /\ ok_jobSpecs (jc_jobSpecs c) /\
  int_ok (jc_servSocket c) /\ int_ok (jc_maxRusage_mem c) /\ int_ok (jc_maxRusage_swap c) /\
  int_ok (jc_maxRusage_utime c) /\ int_ok (jc_maxRusage_stime c) /\ int_ok (jc_maxRusage_npids c) /\
  int_ok (jc_actFlags c).

(** ** Sizes on the wire *)

Definition string_size (s : cstr) : Z := 4 + rndup (strlen s).

Definition xFile_size (f : xFile) : Z := 4 + (string_size (xf_subFn f) + (string_size (xf_execFn f) + 4)).

Definition wire_size (j : jobSpecs) : Z :=
  140 + 16 * LSF_RLIM_NLIMITS + string_size (js_jobFile j) + string_size (js_inFile j) +
  string_size (js_outFile j) + string_size (js_errFile j) + string_size (js_chkpntDir j) +
  string_size (js_cwd j) + string_size (js_subHomeDir j) + string_size (js_command j) +
  string_size (js_jobName j) + string_size (js_preExecCmd j) + string_size (js_fromHost j) +
  string_size (js_resReq j) + string_size (js_queue j) + string_size (js_windows j) +
  string_size (js_userName j) + sum_of string_size (js_toHosts j) +
  (8 + 8 * (th_nThresholds (js_thresholds j) * th_nIdx (js_thresholds j))) + sum_of xFile_size (js_xf j) +
  string_size (js_mailUser j) + string_size (js_clusterName j) + string_size (js_projectName j) +
  string_size (js_preCmd j) + string_size (js_postCmd j) + string_size (js_execCwd j) +
  string_size (js_execHome j) + string_size (js_requeueEValues j) + sum_of string_size (js_env j) +
  (8 + rndup (len (js_eexec j))) + string_size (js_resumeCond j) + string_size (js_stopCond j) +
  string_size (js_suspendActCmd j) + string_size (js_resumeActCmd j) + string_size (js_terminateActCmd j) +
  4 * LSB_SIG_NUM + string_size (js_loginShell j) + string_size (js_schedHostType j) +
  string_size (js_execHosts j) + string_size (js_jobSpoolDir j) + string_size (js_inFileSpool j) +
  string_size (js_commandSpool j) + string_size (js_execUsername j) + string_size (js_prepostUsername j).

Section Sizes.
Context `{XdrPrims}.

Lemma sized_string max s : str_ok max s -> max < 2 ^ 31 -> carries (string_size s) (xdr_string max) s s.
Proof.
  intros Hs Hm. destruct (string_law max s Hs) as (bs & Hc & _); [destruct Hs; lia|]. apply law_carries. by exists bs.
Qed.

Lemma sized_var s : var_ok s -> carries (string_size s) xdr_var_string s s.
Proof. apply var_string_size. Qed.

Lemma sized_elems {X Y} (f : X -> list Y) (c : codec Y Y) (P : Y -> Prop) (size : Y -> Z) x n :
  count_ok n (f x) -> Forall P (f x) -> (forall y, P y -> carries (size y) c y y) ->
  carries (sum_of size (f x)) (xdr_elems n f c) x (f x).
Proof. intros [Hn _] Hf Hc. apply carries_sizes; [done|unfold len in Hn; lia|]. by eapply Forall_impl. Qed.

Lemma sized_ints {X} (f : X -> list Z) x n : count_ok n (f x) -> Forall int_ok (f x) -> carries (4 * n) (xdr_elems n f xdr_int) x (f x).
Proof.
  intros [Hn _] Hf. rewrite Z.mul_comm. apply carries_elems; [done|]. eapply Forall_impl; [exact Hf|]. apply int_carries.
Qed.

Lemma sized_limits {X} (f : X -> list lsfLimit) x n : count_ok n (f x) -> Forall ok_limit (f x) ->
  carries (16 * n) (xdr_elems n f xdr_lsfLimit) x (f x).
Proof.
  intros [Hn _] Hf. rewrite Z.mul_comm. apply carries_elems; [done|]. eapply Forall_impl; [exact Hf|]. apply limit_carries.
Qed.

Lemma sized_xFile f : ok_xFile f -> carries (xFile_size f) (xdr_arrayElement xdr_xFile) f f.
Proof.
  intros (Hs & He & Ho). apply arrayElement_carries.
  - eapply carries_weaken; [unfold xdr_xFile|].
    + eapply carries_bind; [apply carries_via, sized_string; [exact Hs|done]|cbn beta].
      eapply carries_bind; [apply carries_via, sized_string; [exact He|done]|cbn beta].
      eapply carries_bind; [by apply carries_via, int_carries|cbn beta]. destruct f. apply carries_ret.
    + lia.
  - destruct Hs as [_ Hs], He as [_ He]. apply rndup_le in Hs, He. unfold string_size. change (rndup MAXFILENAMELEN) with 256 in *. lia.
Qed.

Lemma sized_lenData b : ok_lenData b -> carries (8 + rndup (len b)) xdr_lenData b b.
Proof.
  intros [Hb Hl]. pose proof (len_nonneg b). unfold xdr_lenData. replace (8 + rndup (len b)) with (4 + (4 + rndup (len b))) by lia.
  apply carries_bind with (len b); [apply carries_via, int_carries; unfold int_ok, in_sint; lia|]. destruct (Z.eqb_spec (len b) 0) as [E|E].
  - assert (b = []) as -> by (destruct b; [done|unfold len in E; cbn in E; lia]). apply carries_weaken with 0; [apply carries_ret|by vm_compute].
  - rewrite uint_of_id by (unfold in_uint; lia). apply bytes_carries; (done || lia).
Qed.

Lemma row_carries n (r : list Z * list Z) : len r.1 = n -> len r.2 = n -> Forall u_int_ok r.1 -> Forall u_int_ok r.2 ->
  carries (8 * n) (threshold_row n) r r.
Proof.
  destruct r as [a b]. cbn [fst snd]. intros La Lb Ha Hb. assert (length a = length b) by (unfold len in *; lia).
  unfold threshold_row, xdr_two. rewrite <- (Z.add_0_r (8 * n)). apply carries_bind with (zip a b).
  - rewrite Z.mul_comm. apply (carries_elems (fun x => zip x.1 x.2)).
    + unfold len in *. cbn. rewrite length_zip_with. lia.
    + apply Forall_forall. intros [u v] Hin. cbn in Hin. rewrite Forall_forall in Ha, Hb.
      apply list_elem_of_lookup_1 in Hin as [i Hi]. apply lookup_zip_with_Some in Hi as (? & ? & [= <- <-] & Hu & Hv).
      unfold xdr_pair. apply carries_weaken with (4 + (4 + 0)); [|lia].
      eapply carries_bind; [apply carries_via, float_carries, Ha; by eapply list_elem_of_lookup_2|].
      eapply carries_bind; [apply carries_via, float_carries, Hb; by eapply list_elem_of_lookup_2|]. apply carries_ret.
  - rewrite fst_zip, snd_zip by lia. apply carries_ret.
Qed.

Lemma thresholds_carries t : ok_thresholds t -> carries (8 + 8 * (th_nThresholds t * th_nIdx t)) xdr_thresholds t t.
Proof.
  intros (Hn & [Hst Hb] & [Hsc _] & Hm & Hstop & Hsched). pose proof (len_nonneg (th_loadStop t)).
  assert (length (th_loadStop t) = length (th_loadSched t)) as Hll by (unfold len in *; lia).
  replace (8 + 8 * (th_nThresholds t * th_nIdx t)) with (4 + (4 + (th_nThresholds t * (8 * th_nIdx t) + 0))) by lia. unfold xdr_thresholds.
  eapply carries_bind; [apply carries_via, int_carries; unfold int_ok, in_sint; lia|].
  eapply carries_bind; [apply carries_via, int_carries; unfold int_ok, in_sint; lia|].
  eapply carries_bind.
  - apply (carries_elems (fun t => zip (th_loadStop t) (th_loadSched t))).
    + unfold len in *. rewrite length_zip_with. lia.
    + apply Forall_forall. intros r Hr. apply list_elem_of_lookup_1 in Hr as [i Hi].
      apply lookup_zip_with_Some in Hi as (a & b & -> & Ha & Hb'). rewrite Forall_lookup in Hstop, Hsched.
      destruct (Hstop i a Ha), (Hsched i b Hb'). by apply row_carries.
  - rewrite fst_zip, snd_zip by lia. destruct t. apply carries_ret.
Qed.

(** [sized] follows a message like [msg], with the sizes that the values have. *)
Ltac sized :=
  repeat lazymatch goal with
  | |- carries _ (_ ≫= _) _ _ => eapply carries_bind; cbn beta
  | |- carries _ (via (arr_id _) _) _ _ => apply arr_id_carries; assumption
  | |- carries _ (via (arr_elem _) _) _ _ => apply arr_elem_carries; assumption
  | |- carries _ (via _ _) _ _ => apply carries_via; cbn beta
  | |- carries _ (mret _) _ _ => msg_ret
  | |- carries _ (xdr_string _) _ _ => apply sized_string; [eassumption|reflexivity]
  | |- carries _ xdr_var_string _ _ => apply sized_var; assumption
  | |- carries _ (xdr_elems _ _ xdr_int) _ _ => apply sized_ints; eassumption
  | |- carries _ (xdr_elems _ _ xdr_lsfLimit) _ _ => apply sized_limits; eassumption
  | |- carries _ (xdr_elems _ _ xdr_var_string) _ _ => eapply sized_elems; [eassumption|eassumption|exact sized_var]
  | |- carries _ (xdr_elems _ _ (xdr_arrayElement xdr_xFile)) _ _ => eapply sized_elems; [eassumption|eassumption|exact sized_xFile]
  | |- carries _ xdr_lenData _ _ => apply sized_lenData; assumption
  | |- carries _ xdr_thresholds _ _ => apply thresholds_carries; assumption
  | |- carries _ xdr_short _ _ => apply short_carries; assumption
  | |- carries _ _ _ _ => solve [eauto with xdr]
  end.

Lemma jobSpecs_carries j : ok_jobSpecs j -> carries (wire_size j) xdr_jobSpecs j j.
Proof.
  intros Hj. unfold ok_jobSpecs in Hj. destruct_and! Hj. eapply carries_weaken; [unfold xdr_jobSpecs; sized|unfold wire_size; lia].
Qed.
End Sizes.

(** ** The buffer of [start_job] *)

Lemma sum_bound {A} (f g : A -> Z) k (l : list A) : Forall (fun a => f a <= g a + k) l -> sum_of f l <= sum_of g l + k * len l.
Proof. unfold len, sum_of. induction 1; cbn [foldr length]; lia. Qed.

Lemma sum_zero {A} (l : list A) : sum_of (fun _ => 0) l = 0.
Proof. unfold sum_of. by induction l. Qed.

Lemma string_size_bounds s : strlen s + 4 <= string_size s <= strlen s + 7.
Proof. unfold string_size, rndup. Z.to_euclidean_division_equations. lia. Qed.

Lemma string_size_max max s : str_ok max s -> rndup max = max -> string_size s <= 4 + max.
Proof. intros [_ Hs] Hm. apply rndup_le in Hs. unfold string_size. lia. Qed.

(** What the messages of the arrays and of the texts behind pointers take beyond what the code counts for them. *)
Definition overhead (j : jobSpecs) : Z :=
  7 * js_numEnv j + 4 * js_numToHosts j + 12 * js_nxf j
  + string_size (js_loginShell j) + string_size (js_schedHostType j) + string_size (js_execHosts j).

Lemma small_job_fits j : ok_jobSpecs j -> str_ok MAX_LSB_NAME_LEN (js_queue j) -> Forall (str_ok MAXHOSTNAMELEN) (js_toHosts j) ->
  overhead j <= 197 -> LSF_HEADER_LEN + wire_size j <= job_buflen j.
Proof.
  intros Hj Hq Hh Ho. unfold ok_jobSpecs in Hj. destruct_and! Hj.
  assert (sum_of string_size (js_env j) <= sum_of strlen (js_env j) + 7 * js_numEnv j) as He.
  { match goal with Hc : count_ok (js_numEnv j) _ |- _ => destruct Hc as [<- _] end. apply sum_bound.
    apply Forall_forall. intros s _. pose proof (string_size_bounds s). lia. }
  assert (sum_of string_size (js_toHosts j) <= 68 * js_numToHosts j) as Ht.
  { match goal with Hc : count_ok (js_numToHosts j) _ |- _ => destruct Hc as [<- _] end. rewrite <- (Z.add_0_l (68 * _)), <- (sum_zero (js_toHosts j)).
    apply sum_bound. eapply Forall_impl; [exact Hh|]. intros s Hs. by apply (string_size_max MAXHOSTNAMELEN). }
  assert (sum_of xFile_size (js_xf j) <= 528 * js_nxf j) as Hx.
  { match goal with Hc : count_ok (js_nxf j) _, Hf : Forall ok_xFile _ |- _ => destruct Hc as [<- _]; rename Hf into Hxf end.
    rewrite <- (Z.add_0_l (528 * _)), <- (sum_zero (js_xf j)). apply sum_bound. eapply Forall_impl; [exact Hxf|]. intros f (Hs & Hx' & _).
    pose proof (string_size_max _ _ Hs eq_refl). pose proof (string_size_max _ _ Hx' eq_refl). unfold xFile_size, MAXFILENAMELEN in *. lia. }
  assert (rndup (len (js_eexec j)) <= len (js_eexec j) + 3) as Hl by (unfold rndup; Z.to_euclidean_division_equations; lia).
  repeat match goal with Hs : str_ok ?m ?s |- _ => apply string_size_max in Hs; [|reflexivity] end.
  unfold overhead, wire_size, job_buflen, sizeof_jobSpecs, sizeof_sbdPackage, sizeof_xFile, LSF_HEADER_LEN,
    MAXFILENAMELEN, MAXLINELEN, MAX_LSB_NAME_LEN, MAXHOSTNAMELEN, MAXPATHLEN, LSF_RLIM_NLIMITS, LSB_SIG_NUM in *. lia.
Qed.

Lemma wire_size_bound j : ok_jobSpecs j -> wire_size j < 2 ^ 30.
Proof.
  intros Hj. unfold ok_jobSpecs in Hj. destruct_and! Hj.
  assert (forall n l, count_ok n l -> Forall var_ok l -> sum_of string_size l <= 1000 * (4 + VAR_MAX)) as Hs.
  { intros n l [Hn Hb] Hl. assert (sum_of string_size l <= sum_of (fun _ => 0) l + (4 + VAR_MAX) * len l); [|rewrite sum_zero in *; unfold VAR_MAX in *; lia].
    apply sum_bound. eapply Forall_impl; [exact Hl|]. intros s Hvs. pose proof (string_size_max VAR_MAX s Hvs eq_refl). lia. }
  assert (sum_of xFile_size (js_xf j) <= 528 * js_nxf j /\ js_nxf j <= 1000) as [Hx Hx2].
  { match goal with Hc : count_ok (js_nxf j) _, Hf : Forall ok_xFile _ |- _ => destruct Hc as [<- ?]; rename Hf into Hxf end. split; [|done].
    rewrite <- (Z.add_0_l (528 * _)), <- (sum_zero (js_xf j)). apply sum_bound. eapply Forall_impl; [exact Hxf|]. intros f (Hf & Hx' & _).
    pose proof (string_size_max _ _ Hf eq_refl). pose proof (string_size_max _ _ Hx' eq_refl). unfold xFile_size, MAXFILENAMELEN in *. lia. }
  pose proof (Hs (js_numEnv j) (js_env j) ltac:(assumption) ltac:(assumption)) as He.
  pose proof (Hs (js_numToHosts j) (js_toHosts j) ltac:(assumption) ltac:(assumption)) as Ht.
  assert (th_nThresholds (js_thresholds j) * th_nIdx (js_thresholds j) <= 1000000) as Hth.
  { match goal with Hv : ok_thresholds _ |- _ => destruct Hv as (? & [Hc ?] & _ & ? & _) end. pose proof (len_nonneg (th_loadStop (js_thresholds j))). nia. }
  assert (rndup (len (js_eexec j)) <= 2 ^ 20) as Hl.
  { match goal with Hv : ok_lenData _ |- _ => destruct Hv as [_ Hv]; apply rndup_le in Hv; exact Hv end. }
  repeat match goal with
  | Hv : str_ok ?m ?s |- _ => apply string_size_max in Hv; [|reflexivity]
  | Hv : var_ok ?s |- _ => apply (string_size_max VAR_MAX) in Hv; [|reflexivity]
  end.
  unfold wire_size, VAR_MAX, MAXFILENAMELEN, MAXLINELEN, MAX_LSB_NAME_LEN, MAXHOSTNAMELEN, MAXPATHLEN, LSF_RLIM_NLIMITS, LSB_SIG_NUM in *. lia.
Qed.

Section Messages.
Context `{XdrPrims}.

Lemma jobSpecs_element j : ok_jobSpecs j -> carries (2 ^ 30) xdr_jobSpecs j j.
Proof. intros Hj. eapply carries_weaken; [by apply jobSpecs_carries|]. pose proof (wire_size_bound j Hj). lia. Qed.
#[local] Hint Resolve jobSpecs_element : xdr.

Lemma lsfRusage_carries (l : list Z) : len l = 19 -> Forall (in_uint 64) l -> carries 1000 xdr_lsfRusage l l.
Proof.
  intros Hl Hf. apply carries_weaken with (19 * 8); [|lia]. apply (carries_elems (fun l => l)); [done|].
  eapply Forall_impl; [exact Hf|]. apply double_carries.
Qed.
#[local] Hint Resolve lsfRusage_carries : xdr.

Lemma jobSig_carries s : ok_jobSig s -> round_trips xdr_jobSig s.
Proof. intros Hs. unfold ok_jobSig in Hs. destruct_and! Hs. eapply carries_trip. unfold xdr_jobSig. msg. Qed.

Lemma jobReply_carries r : ok_jobReply r -> round_trips xdr_jobReply r.
Proof. intros Hr. unfold ok_jobReply in Hr. destruct_and! Hr. eapply carries_trip. unfold xdr_jobReply. msg. Qed.

Lemma statusReq_carries s : ok_statusReq s -> round_trips xdr_statusReq s.
Proof.
  intros Hs. unfold ok_statusReq in Hs. destruct_and! Hs.
  match goal with Hr : ok_rusage _ |- _ => destruct (rusage_carries _ Hr) as [N HN] end.
  eapply carries_trip. unfold xdr_statusReq. msg.
Qed.

Lemma jobSetup_carries s : ok_jobSetup s -> round_trips xdr_jobSetup s.
Proof. intros Hs. unfold ok_jobSetup in Hs. destruct_and! Hs. eapply carries_trip. unfold xdr_jobSetup. msg. Qed.

Lemma jobSyslog_carries l : ok_jobSyslog l -> round_trips xdr_jobSyslog l.
Proof. intros [? ?]. eapply carries_trip. unfold xdr_jobSyslog. msg. Qed.

Lemma sbdPackage_carries p : ok_sbdPackage p -> round_trips xdr_sbdPackage p.
Proof.
  intros Hp. unfold ok_sbdPackage in Hp. destruct_and! Hp. eapply carries_trip. unfold xdr_sbdPackage.
  do 10 (eapply carries_bind; [msg|cbn beta]). eapply carries_bind; [unfold xdr_sbdPackage1; msg|cbn beta iota]. msg.
Qed.

Context `{!XdrChar}.

Lemma jobCard_carries c : ok_jobCard c -> round_trips xdr_jobCard c.
Proof.
  intros Hc. unfold ok_jobCard in Hc. destruct_and! Hc. assert (forall z, in_sint 8 z -> carries 4 xdr_char z z) as Hch
    by (intros z Hz; by apply law_carries, char_law).
  eapply carries_trip. unfold xdr_jobCard. msg.
Qed.
End Messages.

Section Requests.
Context `{XdrPrims}.

(** The other messages between mbatchd and sbatchd survive the wire: signals and the answers
    to them, status reports with the usage of a job, the description of all jobs for a restarted sbatchd,
    and the reports of the processes that run a job. *)
Theorem sbatchd_messages_round_trip s r q p u l :
  ok_jobSig s -> ok_jobReply r -> ok_statusReq q -> ok_sbdPackage p -> ok_jobSetup u -> ok_jobSyslog l ->
  round_trips xdr_jobSig s /\ round_trips xdr_jobReply r /\ round_trips xdr_statusReq q /\ round_trips xdr_sbdPackage p /\
  round_trips xdr_jobSetup u /\ round_trips xdr_jobSyslog l.
Proof.
  intros. split_and!; [by apply jobSig_carries|by apply jobReply_carries|by apply statusReq_carries|by apply sbdPackage_carries|
    by apply jobSetup_carries|by apply jobSyslog_carries].
Qed.

(** C27: when the buffer that [start_job] makes for the description of a job is as large as the
    header and the fields together, the request is encoded, and the sbatchd that reads it from the connection,
    whatever follows, gets exactly this description. The buffer is large enough for every job whose environment has few
    variables: what they and the texts behind pointers take beyond what is counted for them is at most 197 bytes. *)
Theorem job_request_intact j hdr more : ok_jobSpecs j -> ok_header hdr ->
  LSF_HEADER_LEN + wire_size j <= job_buflen j \/
    (overhead j <= 197 /\ str_ok MAX_LSB_NAME_LEN (js_queue j) /\ Forall (str_ok MAXHOSTNAMELEN) (js_toHosts j)) ->
  exists bytes hdr' rest,
    xdr_encodeMsg (job_buflen j) (Some j) hdr xdr_jobSpecs None = Some (bytes, hdr') /\
    readDecodeHdr_ (bytes ++ more) = (0, Some hdr', rest) /\ opCode hdr' = opCode hdr /\
    readDecodeMsg_ rest hdr' xdr_jobSpecs false = (0, Some (None, j), more).
Proof.
  intros Hj Hh Hfit. assert (LSF_HEADER_LEN + wire_size j <= job_buflen j) as Hroom.
  { destruct Hfit as [?|(? & ? & ?)]; [done|by apply small_job_fits]. }
  destruct (jobSpecs_carries j Hj) as (n & bs & Hn & Hc). pose proof (wire_size_bound j Hj). unfold LSF_HEADER_LEN in Hroom.
  destruct (message_round_trip xdr_jobSpecs j n bs hdr None (job_buflen j) more Hc Hh I) as (bytes & hdr' & rest & H1 & -> & H3 & H4);
    [cbn; lia|cbn; lia|]. by exists bytes, (set_header (len bytes - LSF_HEADER_LEN) OPENLAVA_VERSION hdr), rest.
Qed.
End Requests.

(** A char is sent as an int. *)
#[export] Instance rfc_char : XdrChar.
Proof.
  refine {| xdr_char := unit32 (fun z => z) (fun w => sint_of 8 (int32 w)) |}. intros z Hz. apply unit32_law.
  rewrite sint_uint_of by (unfold in_sint in *; lia). apply sint_of_id; [lia|done].
Defined.

(** ** Examples *)

Definition demo_specs (env : list cstr) : jobSpecs :=
  JobSpecs demo_job 0 0 0 0 0 0 0 0 0 0 (replicate 11 (LsfLimit 100 0 200 0)) 0 0 0 0 0 0 0 0 0 0 0 0 0 [] [] []
    [] [] [] [] (lit "sleep 10") (lit "sleep") [] (lit "hostA") [] (lit "normal") [] (lit "ann") 1
    [lit "hostA"] (Thresholds 2 1 [[5; 6]] [[7; 8]]) 1 [XFile (lit "f") (lit "g") 1] [] [] [] [] [] [] []
    [] 0 0 (len env) env [1; 2; 3] 0 [] [] [] [] [] (replicate 23 0) 0 (lit "/bin/sh") [] [] 0 [] [] [] 0
    [] [].

Lemma demo_specs_ok : ok_jobSpecs (demo_specs [lit "HOME=/"]).
Proof. demo_ok. Qed.

Lemma job_request_intact_witness :
  exists bytes hdr' rest,
    xdr_encodeMsg (job_buflen (demo_specs [lit "HOME=/"])) (Some (demo_specs [lit "HOME=/"])) demo_header xdr_jobSpecs None = Some (bytes, hdr') /\
    readDecodeMsg_ rest hdr' xdr_jobSpecs false = (0, Some (None, demo_specs [lit "HOME=/"]), [7]).
Proof.
  destruct (job_request_intact (demo_specs [lit "HOME=/"]) demo_header [7] demo_specs_ok demo_header_ok) as (bytes & hdr' & rest & H1 & _ & _ & H2).
  - right. split_and!; [by vm_compute|demo_ok|demo_ok].
  - by exists bytes, hdr', rest.
Defined.

(** 3000 short variables: the code counts two bytes for each, and eight are sent; the job cannot be started. *)
Definition request_made (room : Z) (j : jobSpecs) : bool :=
  match xdr_encodeMsg room (Some j) demo_header xdr_jobSpecs None with Some _ => true | None => false end.

Example large_environment :
  let j := demo_specs (replicate 3000 (lit "A=")) in
  (request_made (job_buflen j) j, request_made (LSF_HEADER_LEN + wire_size j) j) = (false, true).
Proof. vm_compute. reflexivity. Qed.
