(* ===== verification/DepCond.v ===== *)
(** * Dependency conditions of jobs (mbd.dep.c)

    The condition [bsub -w "done(12) && (exit(13) || ended(14))"] is split into
    tokens ([getToken]), parsed with a stack of operators and a stack of operands
    ([parseDepCond], [mergeNode]) into a tree of [struct dptNode], and evaluated
    whenever mbatchd looks for jobs to dispatch ([evalDepCond]).

    A pointer to a job or to a job array is a number; what it points to is given
    by the functions of the section [Jobs].  [matchJobs], which looks for jobs by
    number or name in the tree of job groups, and [addWindow] and
    [updateTimeWindow] of the time windows are parameters.  [node->updFlag],
    reference counts and the name reported with an error are not modelled. *)

From S2P Require Import Prelude CLib JobStatus JobId.

(** ** Data *)

(** The enumeration [dptType]. *)
Inductive dptType :=
  | DPT_AND | DPT_OR | DPT_NOT | DPT_LEFT_ | DPT_RIGHT_ | DPT_DONE | DPT_EXIT | DPT_STARTED
  | DPT_NAME | DPT_ENDED | DPT_NUMPEND | DPT_NUMHOLD | DPT_NUMRUN | DPT_NUMEXIT | DPT_NUMDONE
  | DPT_NUMSTART | DPT_NUMENDED | DPT_COMMA | DPT_GT | DPT_GE | DPT_LT | DPT_LE | DPT_EQ | DPT_NE
  | DPT_POST_DONE | DPT_POST_ERR | DPT_TRUE | DPT_WINDOW.

#[export] Instance dptType_dec : EqDecision dptType.
Proof. solve_decision. Defined.

Definition DP_FALSE : Z := 0.
Definition DP_TRUE : Z := 1.
Definition DP_INVALID : Z := -1.
Definition DP_REJECT : Z := -2.

Definition ARRAY_DEP_ONE_TO_ONE : Z := 1.
Definition JFLAG_LASTRUN_SUCC : Z := 0x002.
Definition JGRP_NODE_ARRAY : Z := 3.
Definition JGRP_VOID : Z := -1.

(** The error codes of [replyCode]. *)
Definition LSBE_DEPEND_SYNTAX : Z := 6.
Definition LSBE_ARRAY_NULL : Z := 99.

Record idxList := IdxList { il_start : Z; il_end : Z; il_step : Z }.

Record jobIdx := JobIdx { ji_idxList : list idxList; ji_depJobList : list Z }.

(** The fields of [struct jData] and [struct jgArrayBase] that conditions look at. *)
Record jData := JData {
  dj_jobId : Z; dj_nodeType : Z; dj_jStatus : Z; dj_jFlags : Z; dj_startTime : Z; dj_endTime : Z;
  dj_exitStatus : Z }.

Record jgArrayBase := JgArrayBase { ja_status : Z; ja_counts : list Z }.

(** [struct dptNode] with the member of the union that the type selects.  A node
    with two operands is an AND or an OR; the parser can also make one from a
    left parenthesis. *)
Inductive dptNode :=
  | OprNode (type : dptType) (value : Z) (dptLeft dptRight : dptNode)
  | NotNode (value : Z) (dptLeft : dptNode)
  | JobNode (type : dptType) (value : Z) (opType : dptType) (exitCode opFlag : Z)
      (jobRec : option Z) (idx : option jobIdx)
  | JgrpNode (type : dptType) (value : Z) (opType : dptType) (num : Z) (dptJgrp : option Z)
  | WindowNode (value : Z) (windows : list cstr).

Definition node_value (node : dptNode) : Z :=
  match node with
  | OprNode _ v _ _ | NotNode v _ | JobNode _ v _ _ _ _ _ | JgrpNode _ v _ _ _ | WindowNode v _ => v
  end.

(** ** Tokens *)

Definition IS_QUOTE (x : ascii) : bool := ch_eqb x "034"%char || ch_eqb x "'"%char.
Definition IS_VALIDCHAR (x : ascii) : bool := isalnum x || bool_decide (x ∈ lit "*_.:%,@/[]-").
Definition IS_DELIM (x : ascii) : bool := ch_eqb x ","%char || ch_eqb x " "%char.

(** Name, type and [checkCha]. *)
Definition tokenTable : list (cstr * dptType * bool) :=
  [(lit "(", DPT_LEFT_, false); (lit ")", DPT_RIGHT_, false); (lit "&&", DPT_AND, false);
   (lit "||", DPT_OR, false); (lit "exit", DPT_EXIT, true); (lit "started", DPT_STARTED, true);
   (lit "ended", DPT_ENDED, true); (lit "time", DPT_WINDOW, true); (lit "done", DPT_DONE, true);
   (lit "post_done", DPT_POST_DONE, true); (lit "post_err", DPT_POST_ERR, true);
   (lit "numpend", DPT_NUMPEND, true); (lit "numhold", DPT_NUMHOLD, true);
   (lit "numrun", DPT_NUMRUN, true); (lit "numexit", DPT_NUMEXIT, true);
   (lit "numdone", DPT_NUMDONE, true); (lit "numstart", DPT_NUMSTART, true);
   (lit "numended", DPT_NUMENDED, true); (lit ",", DPT_COMMA, false); (lit ">=", DPT_GE, false);
   (lit "<=", DPT_LE, false); (lit "==", DPT_EQ, false); (lit "!=", DPT_NE, false);
   (lit "<", DPT_LT, false); (lit ">", DPT_GT, false); (lit "!", DPT_NOT, false)].

(** [strncmp(s, name, strlen(name)) == 0], and the rest of [s]. *)
Fixpoint after_prefix (name s : cstr) : option cstr :=
  match name, s with
  | [], _ => Some s
  | c :: name, d :: s => if ch_eqb c d then after_prefix name s else None
  | _ :: _, [] => None
  end.

(** The search in the table: a token of the table, or the beginning of a name
    that starts like one. *)
Fixpoint find_token (table : list (cstr * dptType * bool)) (s : cstr) :
    (cstr * dptType * cstr) + (cstr * cstr) :=
  match table with
  | [] => inr ([], s)
  | (name, type, checkCha) :: table =>
      match after_prefix name s with
      | Some rest =>
          if match rest with c :: _ => isalnum c || ch_eqb c "*"%char | [] => false end && checkCha
          then inr (name, rest) else inl (name, type, rest)
      | None => find_token table s
      end
  end.

(** [j < 4*MAXLINELEN-1] *)
Definition TOKEN_MAX : nat := 2047.

Fixpoint scan_quoted (room : nat) (quote : ascii) (s : cstr) : cstr * cstr :=
  match room, s with
  | S room, c :: s =>
      if ch_eqb c quote then ([c], s) else let '(a, b) := scan_quoted room quote s in (c :: a, b)
  | _, _ => ([], s)
  end.

Fixpoint scan_name (room : nat) (s : cstr) : cstr * cstr :=
  match room, s with
  | S room, c :: s' =>
      if IS_VALIDCHAR c && negb (IS_DELIM c)
      then let '(a, b) := scan_name room s' in (c :: a, b) else ([], s)
  | _, _ => ([], s)
  end.

(** The token, its type, and what [*sp] points to behind it. *)
Definition getToken (s : cstr) : option (cstr * dptType * cstr) :=
  let '(_, s) := span isspace s in
  match s with
  | [] => None
  | _ =>
      match find_token tokenTable s with
      | inl t => Some t
      | inr (pre, s) =>
          let room := (TOKEN_MAX - length pre)%nat in
          match s with
          | q :: s' =>
              if IS_QUOTE q
              then let '(a, b) := scan_quoted (room - 1) q s' in Some (pre ++ q :: a, DPT_NAME, b)
              else let '(a, b) := scan_name room s in Some (pre ++ a, DPT_NAME, b)
          | [] => Some (pre, DPT_NAME, [])
          end
      end
  end.

(** lib.misc.c: the whole word is a number in the range of int, judged after its
    conversion to int. *)
Definition strtol_erange (s : cstr) : bool :=
  let '(neg, r) := scan_sign (snd (span isspace s)) in
  let v := digits_val (fst (span isdigit r)) in
  let v := if neg : bool then - v else v in
  negb (v =? saturate v).

Definition isint_ (word : cstr) : bool :=
  match word with
  | [] => false
  | _ =>
      let '(v, e) := strtol word in
      match e with
      | [] => negb (strtol_erange word) && (int32 v <=? INFINIT_INT) && (- INFINIT_INT <? int32 v)
      | _ => false
      end
  end.

(** ** Stacks *)

(** The stacks, the top first.  Of an operator only the type matters. *)
Abbreviation operators := (list dptType).
Abbreviation operands := (list dptNode).

(** An operator takes its operands from the stack: the one on the top, which was
    read last, is the left one. *)
Definition apply_op (op : dptType) (ns : operands) : option operands :=
  match ns with
  | [] => None
  | operand1 :: ns =>
      if decide (op = DPT_NOT) then Some (NotNode DP_FALSE operand1 :: ns)
      else match ns with
           | [] => None
           | operand2 :: ns => Some (OprNode op DP_FALSE operand1 operand2 :: ns)
           end
  end.

(** [mergeNode(MERGE_TOP)]; the stacks are as before when it fails. *)
Definition merge_top (ops : operators) (ns : operands) : option (operators * operands) :=
  match ops with
  | [] => None
  | op :: ops => ns ← apply_op op ns; Some (ops, ns)
  end.

(** [mergeNode(MERGE_LEFT)]: down to the left parenthesis. *)
Fixpoint merge_left (ops : operators) (ns : operands) : option (operators * operands) :=
  match ops with
  | [] => None
  | op :: ops =>
      if decide (op = DPT_LEFT_) then Some (ops, ns)
      else ns ← apply_op op ns; merge_left ops ns
  end.

(** [mergeNode(MERGE_ALL)]: as long as it goes. *)
Fixpoint merge_all (ops : operators) (ns : operands) : operators * operands :=
  match ops with
  | [] => ([], ns)
  | op :: ops' =>
      match apply_op op ns with Some ns => merge_all ops' ns | None => (ops, ns) end
  end.

(** ** The parser *)

(** What a step of the parser returns: [Stop] is the jump to [Error] with the
    reply code. *)
Inductive res (A : Type) := Go (a : A) | Stop (replyCode : Z).
Arguments Go {A}.
Arguments Stop {A}.

#[export] Instance res_ret : MRet res := fun _ a => Go a.
#[export] Instance res_bind : MBind res := fun _ _ f r =>
  match r with Go a => f a | Stop c => Stop c end.

Definition of_option {A} (code : Z) (o : option A) : res A :=
  match o with Some a => Go a | None => Stop code end.

Definition require (code : Z) (b : bool) : res unit := if b then Go () else Stop code.

(** [tempToken = getToken(&dependCond, &tempType); if (!tempToken) goto Error;] *)
Definition next (code : Z) (s : cstr) : res (cstr * dptType * cstr) := of_option code (getToken s).

(** ... [if (tempType != type) goto Error;] *)
Definition expect (code : Z) (type : dptType) (s : cstr) : res cstr :=
  '(_, t, s) ← next code s; _ ← require code (bool_decide (t = type)); mret s.

(** [tempType >= DPT_GT && tempType <= DPT_NE] *)
Definition is_relation (t : dptType) : bool :=
  bool_decide (t ∈ [DPT_GT; DPT_GE; DPT_LT; DPT_LE; DPT_EQ; DPT_NE]).

(** Behind the job of [exit(...)]: a right parenthesis, or a comma, a relation
    and a code. *)
Definition parse_exit (code : Z) (s : cstr) : res (dptType * Z * cstr) :=
  '(_, t, s) ← next code s;
  if decide (t = DPT_RIGHT_) then mret (DPT_TRUE, 0, s)
  else
    _ ← require code (bool_decide (t = DPT_COMMA));
    '(tok, t, s) ← next code s;
    '(op, tok, s) ← (if is_relation t
                     then '(tok, t', s) ← next code s;
                          _ ← require code (bool_decide (t' = DPT_NAME)); mret (t, tok, s)
                     else _ ← require code (bool_decide (t = DPT_NAME)); mret (DPT_EQ, tok, s));
    _ ← require code (isint_ tok);
    s ← expect code DPT_RIGHT_ s;
    mret (op, atoi tok, s).

(** Behind the array of [numdone(...)] and the like; a star stands for all. *)
Definition parse_num (code : Z) (s : cstr) : res (dptType * Z * cstr) :=
  '(_, t, s) ← next code s;
  if decide (t = DPT_RIGHT_) then mret (DPT_NE, 0, s)
  else
    _ ← require code (bool_decide (t = DPT_COMMA));
    '(tok, t, s) ← next code s;
    '(op, tok, s) ← (if is_relation t
                     then '(tok, t', s) ← next code s;
                          _ ← require code (bool_decide (t' = DPT_NAME)); mret (t, tok, s)
                     else _ ← require code (bool_decide (t = DPT_NAME) || bool_decide (tok = lit "*"));
                          mret (DPT_EQ, tok, s));
    num ← (if isint_ tok then mret (atoi tok)
           else _ ← require code (bool_decide (tok = lit "*")); mret INFINIT_INT);
    s ← expect code DPT_RIGHT_ s;
    mret (op, num, s).

(** [createMoreNodes]: the conditions on several jobs are joined with AND, each
    new one to the left of the earlier ones. *)
Definition createMoreNodes (node : dptNode) (more : list dptNode) : dptNode :=
  fold_left (fun acc n => OprNode DPT_AND DP_FALSE n acc) more node.

(** The operand for the jobs that a name stands for. *)
Definition job_operand (type op : dptType) (exitCode opFlag : Z) (jobs : list Z) (idx : option jobIdx) :
    dptNode :=
  let node flag j := JobNode type DP_FALSE op exitCode flag (Some j) idx in
  match jobs with
  | [] => JobNode type DP_FALSE op exitCode 0 None None
  | [j] => node (if opFlag =? ARRAY_DEP_ONE_TO_ONE then opFlag else 0) j
  | j :: more => createMoreNodes (node 0 j) (map (node 0) more)
  end.

Record parser := Parser {
  ps_ops : operators; ps_operands : operands; ps_code : Z; ps_opFlag : Z; ps_rest : cstr }.

Definition push_operand (n : dptNode) (p : parser) : parser :=
  Parser (ps_ops p) (n :: ps_operands p) (ps_code p) (ps_opFlag p) (ps_rest p).
Definition set_ops (ops : operators) (ns : operands) (p : parser) : parser :=
  Parser ops ns (ps_code p) (ps_opFlag p) (ps_rest p).
Definition set_rest (s : cstr) (p : parser) : parser :=
  Parser (ps_ops p) (ps_operands p) (ps_code p) (ps_opFlag p) s.
Definition set_code (c : Z) (p : parser) : parser :=
  Parser (ps_ops p) (ps_operands p) c (ps_opFlag p) (ps_rest p).
Definition set_opFlag (f : Z) (p : parser) : parser :=
  Parser (ps_ops p) (ps_operands p) (ps_code p) f (ps_rest p).

Definition LSBE_NO_ERROR : Z := 0.

Section Parser.
(** [preceTable[3]], behind the end of the table, is read for a left parenthesis. *)
Variable beyond : Z.
(** The jobs that a token stands for, or the reply code; the second component is
    the flag for a dependency between the elements of two arrays. *)
Variable matchJobs : cstr -> option Z -> (list Z * option jobIdx + Z) * Z.
Variable getJobData : Z -> option Z.
(** The type of the node of a job in the tree of job groups, and its data. *)
Variable jgrpNode_type : Z -> Z.
Variable jgrpNode_data : Z -> Z.
Variable addWindow : cstr -> bool.
(** [flags & WINDOW_CONF], and [mSchedStage == M_STAGE_REPLAY]. *)
Variable window_conf replay : bool.

Definition preceTable (op : dptType) : Z :=
  match op with DPT_AND => 2 | DPT_OR => 1 | DPT_NOT => 3 | _ => beyond end.

(** A binary operator or a negation: at most one operator that binds more tightly
    is applied before it is pushed. *)
Definition push_operator (type : dptType) (p : parser) : res parser :=
  match ps_ops p with
  | prev :: _ =>
      if preceTable type <? preceTable prev then
        '(ops, ns) ← of_option (ps_code p) (merge_top (ps_ops p) (ps_operands p));
        mret (set_ops (type :: ops) ns p)
      else mret (set_ops (type :: ps_ops p) (ps_operands p) p)
  | [] => mret (set_ops [type] (ps_operands p) p)
  end.

(** The windows of [time(...)], up to the right parenthesis: a first loop adds their lengths up. It
    has no end where [getToken] does not advance, so that no fuel is enough. *)
Fixpoint measure_windows (fuel : nat) (code : Z) (s : cstr) : option (res unit) :=
  match fuel with
  | O => None
  | S fuel =>
      match next code s with
      | Stop c => Some (Stop c)
      | Go (tok, t, s) =>
          if decide (t = DPT_RIGHT_) then Some (Go ())
          else if bool_decide (t = DPT_NAME) then measure_windows fuel code s
          else Some (Stop code)
      end
  end.

(** The second loop reads them. *)
Fixpoint parse_windows (fuel : nat) (code : Z) (s : cstr) : option (res (list cstr * cstr)) :=
  match fuel with
  | O => None
  | S fuel =>
      match next code s with
      | Stop c => Some (Stop c)
      | Go (tok, t, s) =>
          if decide (t = DPT_RIGHT_) then Some (Go ([], s))
          else if bool_decide (t = DPT_NAME) && addWindow tok
          then r ← parse_windows fuel code s;
               Some ('(l, s) ← r; Go (tok :: l, s))
          else Some (Stop code)
      end
  end.

(** When no job is found, only a replay goes on. *)
Definition found (p : parser) (r : list Z * option jobIdx + Z) :
    res (list Z * option jobIdx * parser) :=
  match r with
  | inl (jobs, idx) => Go (jobs, idx, p)
  | inr c => if replay then Go ([], None, set_code c p) else Stop c
  end.

(** [done(name)] and the like. *)
Definition parse_job (type : dptType) (p : parser) : res parser :=
  let code := ps_code p in
  _ ← require code (negb window_conf);
  s ← expect code DPT_LEFT_ (ps_rest p);
  '(tok, _, s) ← next code s;
  let '(r, flag) := matchJobs tok (Some (ps_opFlag p)) in
  '(jobs, idx, p) ← found p r;
  let code := ps_code p in
  let used := match jobs with [_] => 0 | _ => flag end in
  '(op, exitCode, s) ← (if decide (type = DPT_EXIT) then parse_exit code s
                        else s ← expect code DPT_RIGHT_ s; mret (DPT_AND, 0, s));
  mret (set_opFlag used (set_rest s (push_operand (job_operand type op exitCode flag jobs idx) p))).

(** A name alone. *)
Definition parse_name (tok : cstr) (p : parser) : res parser :=
  _ ← require (ps_code p) (negb window_conf);
  '(jobs, idx, p) ← found p (fst (matchJobs tok None));
  mret (push_operand (job_operand DPT_DONE DPT_AND 0 0 jobs idx) p).

(** [numdone(...)] and the like. *)
Definition parse_jgrp (type : dptType) (p : parser) : res parser :=
  let code := ps_code p in
  s ← expect code DPT_LEFT_ (ps_rest p);
  '(tok, _, s) ← next code s;
  let j := if isint_ tok then getJobData (atoi tok) else None in
  let is_array := match j with Some j => jgrpNode_type j =? JGRP_NODE_ARRAY | None => false end in
  p ← (if is_array then mret p else if replay then mret (set_code LSBE_ARRAY_NULL p)
       else Stop LSBE_ARRAY_NULL);
  '(op, num, s) ← parse_num (ps_code p) s;
  mret (set_rest s (push_operand (JgrpNode type DP_FALSE op num (jgrpNode_data <$> j)) p)).

(** One round of the loop; [None] stands for a lack of fuel. *)
Definition parse_token (fuel : nat) (tok : cstr) (type : dptType) (p : parser) : option (res parser) :=
  match type with
  | DPT_AND | DPT_OR | DPT_NOT => Some (push_operator type p)
  | DPT_LEFT_ => Some (Go (set_ops (DPT_LEFT_ :: ps_ops p) (ps_operands p) p))
  | DPT_RIGHT_ =>
      Some ('(ops, ns) ← of_option (ps_code p) (merge_left (ps_ops p) (ps_operands p));
            Go (set_ops ops ns p))
  | DPT_WINDOW =>
      match expect (ps_code p) DPT_LEFT_ (ps_rest p) with
      | Stop c => Some (Stop c)
      | Go s =>
          m ← measure_windows fuel (ps_code p) s;
          match m with
          | Stop c => Some (Stop c)
          | Go _ =>
              r ← parse_windows fuel (ps_code p) s;
              Some ('(l, s) ← r; Go (set_rest s (push_operand (WindowNode DP_FALSE l) p)))
          end
      end
  | DPT_DONE | DPT_POST_DONE | DPT_POST_ERR | DPT_EXIT | DPT_STARTED | DPT_ENDED =>
      Some (parse_job type p)
  | DPT_NAME => Some (parse_name tok p)
  | DPT_NUMPEND | DPT_NUMHOLD | DPT_NUMRUN | DPT_NUMEXIT | DPT_NUMDONE | DPT_NUMSTART | DPT_NUMENDED =>
      Some (parse_jgrp type p)
  | _ => Some (Stop (ps_code p))
  end.

Fixpoint parse_loop (fuel : nat) (p : parser) : option (res parser) :=
  match fuel with
  | O => None
  | S fuel =>
      match getToken (ps_rest p) with
      | None => Some (Go p)
      | Some (tok, type, s) =>
          r ← parse_token fuel tok type (set_rest s p);
          match r with Go p => parse_loop fuel p | Stop c => Some (Stop c) end
      end
  end.

(** What is left on the stacks at the end must be one operand. *)
Definition parse_end (p : parser) : res dptNode :=
  match merge_all (ps_ops p) (ps_operands p) with
  | ([], [root]) => Go root
  | _ => Stop (ps_code p)
  end.

(** A round of a loop takes a character, or the loop does not end: the length is enough fuel. *)
Definition parseDepCond (dependCond : cstr) : option (res dptNode) :=
  r ← parse_loop (S (length dependCond)) (Parser [] [] LSBE_DEPEND_SYNTAX 0 dependCond);
  Some (p ← r; parse_end p).
End Parser.

(** ** Evaluation *)

(** mbd.jarray.c *)
Definition inIdxList (jobId : Z) (idxs : list idxList) : bool :=
  match idxs with
  | [] => true
  | _ =>
      existsb (fun idx =>
        let i := LSB_ARRAY_IDX jobId in
        negb ((i <? il_start idx) || (il_end idx <? i)) && (Z.rem (i - il_start idx) (il_step idx) =? 0)) idxs
  end.

Definition opExpr (opType : dptType) (operand1 operand2 : Z) : bool :=
  match opType with
  | DPT_LT => operand1 <? operand2
  | DPT_LE => operand1 <=? operand2
  | DPT_GT => operand2 <? operand1
  | DPT_GE => operand2 <=? operand1
  | DPT_EQ => operand1 =? operand2
  | DPT_NE => negb (operand1 =? operand2)
  | DPT_TRUE => true
  | _ => false
  end.

Definition count_of (counts : list Z) (i : nat) : Z := default 0 (counts !! i).

Definition getCounterOfDep (type : dptType) (counts : list Z) : Z :=
  let c := count_of counts in
  match type with
  | DPT_NUMPEND => c JGRP_COUNT_PEND
  | DPT_NUMRUN => c JGRP_COUNT_NRUN
  | DPT_NUMHOLD => c JGRP_COUNT_NPSUSP
  | DPT_NUMEXIT => c JGRP_COUNT_NEXIT
  | DPT_NUMDONE => c JGRP_COUNT_NDONE
  | DPT_NUMSTART => c JGRP_COUNT_NJOBS - c JGRP_COUNT_PEND - c JGRP_COUNT_NPSUSP
  | DPT_NUMENDED => c JGRP_COUNT_NEXIT + c JGRP_COUNT_NDONE
  | _ => 0
  end.

(** The condition of a node on the job [jpbw]; it counts only what happened after
    the end of the last run of the waiting job. *)
Definition evalJobDep (type opType : dptType) (code : Z) (jpbw : jData) (depJob : option jData) : bool :=
  let after t := match depJob with None => true | Some d => dj_endTime d <? t end in
  let st := dj_jStatus jpbw in
  match type with
  | DPT_DONE =>
      after (dj_endTime jpbw) &&
      (has st JOB_STAT_DONE || (IS_PEND st && has (dj_jFlags jpbw) JFLAG_LASTRUN_SUCC))
  | DPT_POST_DONE => after (dj_endTime jpbw) && (IS_POST_DONE st && has st JOB_STAT_DONE)
  | DPT_POST_ERR => after (dj_endTime jpbw) && (IS_POST_ERR st && has st JOB_STAT_DONE)
  | DPT_EXIT =>
      after (dj_endTime jpbw) && opExpr opType (Z.shiftr (dj_exitStatus jpbw) 8) code &&
      (IS_FINISH st || (IS_PEND st && negb (has (dj_jFlags jpbw) JFLAG_LASTRUN_SUCC))) &&
      negb (has st JOB_STAT_DONE)
  | DPT_ENDED => after (dj_endTime jpbw) && (IS_FINISH st || IS_PEND st)
  | DPT_STARTED =>
      negb (dj_startTime jpbw =? 0) && after (dj_startTime jpbw) && negb (has st JOB_STAT_PRE_EXEC)
  | _ => false
  end.

(** The job will not satisfy the condition any more, unless it runs again. *)
Definition never (type : dptType) (jpbw : jData) : bool :=
  let st := dj_jStatus jpbw in
  has st JOB_STAT_VOID ||
  (IS_FINISH st && negb (negb (IS_POST_FINISH st) && has st JOB_STAT_DONE &&
                         bool_decide (type ∈ [DPT_POST_DONE; DPT_POST_ERR]))).

Section Jobs.
(** What the pointers point to, and the chain [nextJob] of the elements of a job
    array. *)
Variable job : Z -> jData.
Variable elements : Z -> list Z.
Variable getJobData : Z -> option Z.
Variable jgrp : Z -> jgArrayBase.
(** [updateTimeWindow] and the status it leaves. *)
Variable window_open : list cstr -> bool.

(** The loop over jobs: all of those on the list of indices must satisfy the
    condition.  [value] is the value of the node so far. *)
Fixpoint eval_jobs (selected : Z -> bool) (type opType : dptType) (code : Z) (depJob : option jData)
    (jobs : list Z) (value : Z) : Z :=
  match jobs with
  | [] => value
  | j :: jobs =>
      if negb (selected j) then eval_jobs selected type opType code depJob jobs value
      else if evalJobDep type opType code (job j) depJob
      then eval_jobs selected type opType code depJob jobs DP_TRUE
      else if never type (job j) then DP_INVALID else DP_FALSE
  end.

(** The element of an array with the index of the waiting job: in the job table,
    or among the elements that were found when the condition was parsed.  When
    none has the index, it is the last one. *)
Definition one_to_one (arr : Z) (idx : option jobIdx) (depJob : option jData) : option Z :=
  let i := LSB_ARRAY_IDX (match depJob with Some d => dj_jobId d | None => 0 end) in
  match getJobData (LSB_JOBID (dj_jobId (job arr)) i) with
  | Some j => Some j
  | None =>
      match idx with
      | None => None
      | Some idx =>
          match List.find (fun j => LSB_ARRAY_IDX (dj_jobId (job j)) =? i) (ji_depJobList idx) with
          | Some j => Some j
          | None => last (ji_depJobList idx)
          end
      end
  end.

Definition eval_job_node (type : dptType) (value : Z) (opType : dptType) (code opFlag : Z)
    (jobRec : option Z) (idx : option jobIdx) (depJob : option jData) : Z :=
  match jobRec with
  | None => DP_INVALID
  | Some j =>
      let selected j := match idx with Some idx => inIdxList (dj_jobId (job j)) (ji_idxList idx) | None => true end in
      let eval sel jobs := eval_jobs sel type opType code depJob jobs value in
      if dj_nodeType (job j) =? JGRP_NODE_ARRAY then
        if opFlag =? ARRAY_DEP_ONE_TO_ONE then
          match one_to_one j idx depJob with
          | Some e => eval (fun _ => true) [e]
          | None => DP_INVALID
          end
        else match idx with
             | Some (JobIdx _ ((_ :: _) as l)) => eval selected l
             | _ => eval selected (elements j)
             end
      else eval (if opFlag =? ARRAY_DEP_ONE_TO_ONE then fun _ => true else selected) [j]
  end.

(** The node of a job array that is gone is emptied. *)
Definition eval_jgrp_node (type : dptType) (opType : dptType) (num : Z) (g : option Z) : Z * option Z :=
  match g with
  | None => (DP_INVALID, None)
  | Some a =>
      if ja_status (jgrp a) =? JGRP_VOID then (DP_INVALID, None)
      else
        let counts := ja_counts (jgrp a) in
        let num := if num =? INFINIT_INT
                   then let n := count_of counts JGRP_COUNT_NJOBS in if n <=? 0 then INFINIT_INT else n
                   else num in
        (if opExpr opType (getCounterOfDep type counts) num then DP_TRUE else DP_FALSE, g)
  end.

(** The tree with the values of the nodes that were evaluated. *)
Fixpoint evalDepCond (node : dptNode) (jobRec : option jData) : dptNode :=
  match node with
  | OprNode DPT_OR v l r =>
      let l := evalDepCond l jobRec in
      let value := node_value l in
      if value =? DP_REJECT then OprNode DPT_OR DP_REJECT l r
      else if value =? DP_TRUE then OprNode DPT_OR DP_TRUE l r
      else if value =? DP_FALSE then
        let r := evalDepCond r jobRec in
        let value := node_value r in
        OprNode DPT_OR (if value =? DP_REJECT then DP_REJECT
                        else if value =? DP_TRUE then DP_TRUE else DP_FALSE) l r
      else let r := evalDepCond r jobRec in OprNode DPT_OR (node_value r) l r
  | OprNode DPT_AND v l r =>
      let l := evalDepCond l jobRec in
      let value := node_value l in
      if (value =? DP_INVALID) || (value =? DP_REJECT) then OprNode DPT_AND value l r
      else if value =? DP_FALSE then
        let r := evalDepCond r jobRec in
        let value := node_value r in
        OprNode DPT_AND (if (value =? DP_INVALID) || (value =? DP_REJECT) then value else DP_FALSE) l r
      else let r := evalDepCond r jobRec in OprNode DPT_AND (node_value r) l r
  | OprNode _ _ _ _ => node
  | NotNode v l =>
      let l := evalDepCond l jobRec in
      let value := node_value l in
      NotNode (if value =? DP_REJECT then value
               else if (value =? DP_FALSE) || (value =? DP_INVALID) then DP_TRUE
               else if value =? DP_TRUE then DP_FALSE else value) l
  | JobNode type v op code flag j idx =>
      JobNode type (eval_job_node type v op code flag j idx jobRec) op code flag j idx
  | JgrpNode type v op num g =>
      let '(v, g) := eval_jgrp_node type op num g in JgrpNode type v op num g
  | WindowNode v w => WindowNode (if window_open w then DP_TRUE else DP_FALSE) w
  end.
End Jobs.

Fixpoint resetDepCond (node : dptNode) : dptNode :=
  match node with
  | OprNode type _ l r =>
      if bool_decide (type ∈ [DPT_AND; DPT_OR]) then OprNode type DP_FALSE (resetDepCond l) (resetDepCond r)
      else OprNode type DP_FALSE l r
  | NotNode _ l => NotNode DP_FALSE (resetDepCond l)
  | JobNode type _ op code flag j idx => JobNode type DP_FALSE op code flag j idx
  | JgrpNode type _ op num g => JgrpNode type DP_FALSE op num g
  | WindowNode _ w => WindowNode DP_FALSE w
  end.

(** ** What a condition means *)

Lemma find_first {A} (f : A -> bool) l x : List.find f l = Some x ->
  exists before after, l = before ++ x :: after /\ Forall (fun y => f y = false) before /\ f x = true.
Proof.
  induction l as [|a l IH]; simpl; [done|]. destruct (f a) eqn:E.
  - intros [= ->]. by exists [], l.
  - intros Hf. destruct (IH Hf) as (b & c & -> & Hb & Hx). exists (a :: b), c. auto.
Qed.

Lemma find_none_iff {A} (f : A -> bool) l : List.find f l = None <-> Forall (fun y => f y = false) l.
Proof.
  induction l as [|a l IH]; simpl; [done|]. rewrite Forall_cons. destruct (f a) eqn:E; [|tauto].
  split; [done|]. intros [H _]. congruence.
Qed.

(** The first element that fails a test is unique. *)
Lemma first_unique {A} (f : A -> bool) b1 x1 a1 b2 x2 a2 :
  b1 ++ x1 :: a1 = b2 ++ x2 :: a2 -> Forall (fun y => f y = true) b1 -> Forall (fun y => f y = true) b2 ->
  f x1 = false -> f x2 = false -> x1 = x2.
Proof.
  revert b2. induction b1 as [|y b1 IH]; intros [|z b2] He H1 H2 Hx1 Hx2; simplify_eq/=; try done.
  - inversion H2. congruence.
  - inversion H1. congruence.
  - inversion H1. inversion H2. by eapply IH.
Qed.

Section Meaning.
Context (job : Z -> jData) (elements : Z -> list Z) (getJobData : Z -> option Z)
  (jgrp : Z -> jgArrayBase) (window_open : list cstr -> bool).

(** The values are ordered DP_INVALID < DP_FALSE < DP_TRUE: AND is the minimum and
    OR the maximum, with both operands evaluated. *)
Fixpoint meaning (node : dptNode) (jobRec : option jData) : Z :=
  match node with
  | OprNode DPT_OR _ l r => Z.max (meaning l jobRec) (meaning r jobRec)
  | OprNode DPT_AND _ l r => Z.min (meaning l jobRec) (meaning r jobRec)
  | OprNode _ v _ _ => v
  | NotNode _ l => if meaning l jobRec =? DP_TRUE then DP_FALSE else DP_TRUE
  | JobNode type v op code flag j idx =>
      eval_job_node job elements getJobData type v op code flag j idx jobRec
  | JgrpNode type v op num g => fst (eval_jgrp_node jgrp type op num g)
  | WindowNode v w => if window_open w then DP_TRUE else DP_FALSE
  end.

(** No value of the tree is [DP_REJECT]; the trees that the parser makes and the
    evaluation leaves are of this kind. *)
Definition proper_value (v : Z) : Prop := v = DP_INVALID \/ v = DP_FALSE \/ v = DP_TRUE.

Fixpoint proper (node : dptNode) : Prop :=
  match node with
  | OprNode _ v l r => proper_value v /\ proper l /\ proper r
  | NotNode v l => proper_value v /\ proper l
  | JobNode _ v _ _ _ _ _ | JgrpNode _ v _ _ _ | WindowNode v _ => proper_value v
  end.

Lemma eval_jobs_proper selected type op code w jobs v : proper_value v ->
  proper_value (eval_jobs job selected type op code w jobs v).
Proof.
  unfold proper_value. revert v. induction jobs as [|j jobs IH]; intros v Hv; simpl; [done|].
  case_ifs; auto.
Qed.

Lemma eval_job_node_proper type v op code flag j idx w : proper_value v ->
  proper_value (eval_job_node job elements getJobData type v op code flag j idx w).
Proof.
  intros Hv. unfold eval_job_node. destruct j as [j|]; [|by left].
  destruct (dj_nodeType (job j) =? JGRP_NODE_ARRAY); [|by apply eval_jobs_proper].
  destruct (flag =? ARRAY_DEP_ONE_TO_ONE).
  - destruct (one_to_one _ _ _ _ _); [by apply eval_jobs_proper|by left].
  - destruct idx as [[l [|e es]]|]; by apply eval_jobs_proper.
Qed.

Lemma eval_jgrp_node_proper type op num g : proper_value (fst (eval_jgrp_node jgrp type op num g)).
Proof.
  unfold eval_jgrp_node, proper_value. destruct g as [a|]; [|by left].
  destruct (_ =? JGRP_VOID); [by left|]. simpl. case_ifs; auto.
Qed.

(** The values of the operators, whatever was skipped. *)
Lemma or_value a b : proper_value a -> proper_value b ->
  (if a =? DP_REJECT then DP_REJECT else if a =? DP_TRUE then DP_TRUE
   else if a =? DP_FALSE then if b =? DP_REJECT then DP_REJECT else if b =? DP_TRUE then DP_TRUE else DP_FALSE
   else b) = Z.max a b.
Proof. by intros [->|[->| ->]] [->|[->| ->]]. Qed.

Lemma and_value a b : proper_value a -> proper_value b ->
  (if (a =? DP_INVALID) || (a =? DP_REJECT) then a
   else if a =? DP_FALSE then if (b =? DP_INVALID) || (b =? DP_REJECT) then b else DP_FALSE
   else b) = Z.min a b.
Proof. by intros [->|[->| ->]] [->|[->| ->]]. Qed.

Lemma max_proper a b : proper_value a -> proper_value b -> proper_value (Z.max a b).
Proof. unfold proper_value. intros [->|[->| ->]] [->|[->| ->]]; vm_compute; auto. Qed.

Lemma min_proper a b : proper_value a -> proper_value b -> proper_value (Z.min a b).
Proof. unfold proper_value. intros [->|[->| ->]] [->|[->| ->]]; vm_compute; auto. Qed.

Lemma meaning_proper node w : proper node -> proper_value (meaning node w).
Proof.
  induction node as [ty v l IHl r IHr|v l IHl| | |]; simpl.
  - intros (Hv & Hl & Hr). destruct ty; try done; [by apply min_proper; auto|by apply max_proper; auto].
  - intros _. unfold proper_value. case_if; auto.
  - apply eval_job_node_proper.
  - intros _. apply eval_jgrp_node_proper.
  - intros _. unfold proper_value. case_if; auto.
Qed.

Lemma evalDepCond_meaning node w :
  proper node ->
  let node' := evalDepCond job elements getJobData jgrp window_open node w in
  node_value node' = meaning node w /\ proper node'.
Proof.
  cbv zeta. induction node as [ty v l IHl r IHr|v l IHl|ty v op code flag j idx|ty v op num g|v ws];
    cbn [proper meaning evalDepCond].
  - intros (Hv & Hl & Hr). destruct (IHl Hl) as [El Pl]. destruct (IHr Hr) as [Er Pr].
    pose proof (meaning_proper l w Hl) as Ml. pose proof (meaning_proper r w Hr) as Mr.
    destruct ty; try by simpl.
    + pose proof (and_value _ _ Ml Mr) as Hval. pose proof (min_proper _ _ Ml Mr) as Hp.
      rewrite <- Hval in Hp |- *. rewrite <- El, <- Er in Hp |- *.
      case_ifs; cbn [node_value proper] in *; auto.
    + pose proof (or_value _ _ Ml Mr) as Hval. pose proof (max_proper _ _ Ml Mr) as Hp.
      rewrite <- Hval in Hp |- *. rewrite <- El, <- Er in Hp |- *.
      case_ifs; cbn [node_value proper] in *; auto.
  - intros (Hv & Hl). destruct (IHl Hl) as [El Pl]. cbn [node_value proper].
    pose proof (meaning_proper l w Hl) as Ml. rewrite El.
    destruct Ml as [Ml|[Ml|Ml]]; rewrite Ml;
      (split; [reflexivity|split; [vm_compute; auto|exact Pl]]).
  - intros Hv. split; [done|]. by apply eval_job_node_proper.
  - intros Hv. pose proof (eval_jgrp_node_proper ty op num g) as Hg.
    destruct (eval_jgrp_node jgrp ty op num g) as [v' g'] eqn:E. by split.
  - intros Hv. split; [done|]. simpl. unfold proper_value. case_if; auto.
Qed.

(** C30: Evaluating a condition computes its three-valued meaning: with the
    values ordered INVALID < FALSE < TRUE, an AND has the smaller and an OR the
    larger value of its operands, in whatever order they stand and although the
    evaluation skips the second operand when the first decides, and a NOT is FALSE
    exactly when its operand is TRUE.  The tree it leaves can be evaluated again. *)
Theorem evalDepCond_spec node w :
  proper node ->
  let node' := evalDepCond job elements getJobData jgrp window_open node w in
  node_value node' = meaning node w /\ proper node'.
Proof. apply evalDepCond_meaning. Qed.

(** The first job that does not satisfy the condition decides. *)
Lemma eval_jobs_find selected ty op code w jobs v :
  eval_jobs job selected ty op code w jobs v =
  match List.find (fun j => negb (evalJobDep ty op code (job j) w)) (List.filter selected jobs) with
  | Some j => if never ty (job j) then DP_INVALID else DP_FALSE
  | None => match List.filter selected jobs with [] => v | _ => DP_TRUE end
  end.
Proof.
  revert v. induction jobs as [|j jobs IH]; intros v; simpl; [done|].
  destruct (selected j); simpl; [|by rewrite IH].
  destruct (evalJobDep ty op code (job j) w) eqn:E; simpl; [|done].
  rewrite IH. destruct (List.find _ _); [done|]. by destruct (List.filter selected jobs).
Qed.

(** The jobs that a condition on a job array is about: the elements that were
    found when it was parsed, or else all elements, of which those on the list of
    indices are selected. *)
Definition array_jobs (arr : Z) (idx : option jobIdx) : list Z :=
  let all := match idx with Some (JobIdx _ ((_ :: _) as l)) => l | _ => elements arr end in
  List.filter (fun j => match idx with Some idx => inIdxList (dj_jobId (job j)) (ji_idxList idx) | None => true end) all.

(** C35: A condition on a job array holds exactly when each of the selected
    elements satisfies it; it is INVALID exactly when the first element that
    does not satisfy it has finished in a way that cannot satisfy it any more
    (a post-execution condition still can, while the post-execution command of
    a job that is done runs) or has vanished, and FALSE otherwise. *)
Theorem job_array_condition arr idx ty op code flag w v :
  dj_nodeType (job arr) = JGRP_NODE_ARRAY -> flag <> ARRAY_DEP_ONE_TO_ONE -> array_jobs arr idx <> [] ->
  let value := node_value (evalDepCond job elements getJobData jgrp window_open
                             (JobNode ty v op code flag (Some arr) idx) w) in
  (value = DP_TRUE <-> Forall (fun j => evalJobDep ty op code (job j) w = true) (array_jobs arr idx)) /\
  (value = DP_INVALID <-> exists before j after, array_jobs arr idx = before ++ j :: after /\
     Forall (fun j => evalJobDep ty op code (job j) w = true) before /\
     evalJobDep ty op code (job j) w = false /\ never ty (job j) = true) /\
  (value = DP_TRUE \/ value = DP_INVALID \/ value = DP_FALSE).
Proof.
  intros Ha Hf Hne. cbn [evalDepCond node_value]. unfold eval_job_node.
  rewrite Ha, Z.eqb_refl, (proj2 (Z.eqb_neq _ _) Hf).
  set (sel := fun j => match idx with Some idx => inIdxList (dj_jobId (job j)) (ji_idxList idx) | None => true end).
  assert (match idx with
          | Some (JobIdx _ ((_ :: _) as l)) => eval_jobs job sel ty op code w l v
          | _ => eval_jobs job sel ty op code w (elements arr) v end =
          match List.find (fun j => negb (evalJobDep ty op code (job j) w)) (array_jobs arr idx) with
          | Some j => if never ty (job j) then DP_INVALID else DP_FALSE
          | None => DP_TRUE end) as ->.
  { unfold array_jobs in *. fold sel in Hne |- *.
    destruct idx as [[l [|e es]]|]; rewrite eval_jobs_find; (destruct (List.find _ _); [done|]);
      by destruct (List.filter sel _). }
  destruct (List.find _ (array_jobs arr idx)) as [j|] eqn:E.
  - apply find_first in E as (before & after & Hs & Hb & Hj). apply negb_true_iff in Hj.
    assert (~ Forall (fun j => evalJobDep ty op code (job j) w = true) (array_jobs arr idx)) as Hnot.
    { rewrite Hs, Forall_app, Forall_cons. intros (_ & H & _). congruence. }
    assert (Forall (fun j => evalJobDep ty op code (job j) w = true) before) as Hb'.
    { eapply Forall_impl; [exact Hb|]. intros k. apply negb_false_iff. }
    destruct (never ty (job j)) eqn:En; (split; [split; [done|tauto]|]); (split; [|auto]).
    + split; [|done]. intros _. by exists before, j, after.
    + split; [done|]. intros (b' & j' & a' & Hs' & Hb'' & Hj' & Hn').
      rewrite Hs in Hs'. assert (j = j'); [|congruence].
      eapply (first_unique (fun j => evalJobDep ty op code (job j) w)); eauto.
  - rewrite find_none_iff in E. split; [|split; [|auto]].
    + split; [intros _|done]. eapply Forall_impl; [exact E|]. intros j. apply negb_false_iff.
    + split; [done|]. intros (b & j & a & Hs & _ & Hj & _). rewrite Hs, Forall_app, Forall_cons in E.
      destruct E as (_ & E & _). apply negb_false_iff in E. congruence.
Qed.
End Meaning.

(** ** What the parser makes of a condition *)

(** The text of a condition: [Cond] is a keyword with a job number. *)
Inductive dep :=
  | Cond (type : dptType) (n : Z)
  | Paren (d : dep)
  | Not (d : dep)
  | And (d e : dep)
  | Or (d e : dep).

Definition keyword (type : dptType) : cstr :=
  match type with
  | DPT_DONE => lit "done" | DPT_EXIT => lit "exit" | DPT_STARTED => lit "started"
  | DPT_ENDED => lit "ended" | DPT_POST_DONE => lit "post_done" | DPT_POST_ERR => lit "post_err"
  | _ => []
  end.

Definition cond_type (type : dptType) : Prop :=
  type ∈ [DPT_DONE; DPT_EXIT; DPT_STARTED; DPT_ENDED; DPT_POST_DONE; DPT_POST_ERR].

Fixpoint text (d : dep) : cstr :=
  match d with
  | Cond type n => keyword type ++ lit "(" ++ print_Z n ++ lit ")"
  | Paren d => lit "(" ++ text d ++ lit ")"
  | Not d => lit "!" ++ text d
  | And d e => text d ++ lit " && " ++ text e
  | Or d e => text d ++ lit " || " ++ text e
  end.

(** The conditions that the parser reads as they are meant.  Before an AND there
    is at most one NOT; before an OR, at most one AND or NOT has not been applied
    yet. *)
Inductive level := LPrim | LFactor | LUnary | LSimple | LConj | LDisj.

Inductive clear : level -> dep -> Prop :=
  | clear_cond type n : cond_type type -> clear LPrim (Cond type n)
  | clear_paren d : clear LDisj d -> clear LPrim (Paren d)
  | clear_factor p : clear LPrim p -> clear LFactor p
  | clear_not p : clear LPrim p -> clear LFactor (Not p)
  | clear_unary p : clear LPrim p -> clear LUnary p
  | clear_nots u : clear LUnary u -> clear LUnary (Not u)
  | clear_simple f : clear LFactor f -> clear LSimple f
  | clear_simple_and f p : clear LFactor f -> clear LPrim p -> clear LSimple (And f p)
  | clear_conj u : clear LUnary u -> clear LConj u
  | clear_and f c : clear LFactor f -> clear LConj c -> clear LConj (And f c)
  | clear_disj c : clear LConj c -> clear LDisj c
  | clear_or s d : clear LSimple s -> clear LDisj d -> clear LDisj (Or s d).

Fixpoint leaves (d : dep) : list (dptType * Z) :=
  match d with
  | Cond type n => [(type, n)]
  | Paren d | Not d => leaves d
  | And d e | Or d e => leaves d ++ leaves e
  end.

Section Trees.
(** The job with a number. *)
Variable job_of : Z -> Z.

Definition leaf (type : dptType) (n : Z) : dptNode :=
  JobNode type DP_FALSE (if decide (type = DPT_EXIT) then DPT_TRUE else DPT_AND) 0 0 (Some (job_of n)) None.

(** The operand read last is the left one. *)
Fixpoint tree (d : dep) : dptNode :=
  match d with
  | Cond type n => leaf type n
  | Paren d => tree d
  | Not d => NotNode DP_FALSE (tree d)
  | And d e => OprNode DPT_AND DP_FALSE (tree e) (tree d)
  | Or d e => OprNode DPT_OR DP_FALSE (tree e) (tree d)
  end.

(** The meaning of the text. *)
Fixpoint denote (leaf_value : dptType -> Z -> Z) (d : dep) : Z :=
  match d with
  | Cond type n => leaf_value type n
  | Paren d => denote leaf_value d
  | Not d => if denote leaf_value d =? DP_TRUE then DP_FALSE else DP_TRUE
  | And d e => Z.min (denote leaf_value d) (denote leaf_value e)
  | Or d e => Z.max (denote leaf_value d) (denote leaf_value e)
  end.
End Trees.

(** ** Tokens of a text *)

Lemma token_space s : getToken (" "%char :: s) = getToken s.
Proof. unfold getToken. simpl. by destruct (span isspace s). Qed.

Lemma token_keyword type s : cond_type type ->
  getToken (keyword type ++ lit "(" ++ s) = Some (keyword type, type, lit "(" ++ s).
Proof.
  unfold cond_type. intros Ht. repeat (apply elem_of_cons in Ht as [->|Ht]; [reflexivity|]).
  by apply not_elem_of_nil in Ht.
Qed.

Ltac plain_token s := destruct s; [reflexivity|unfold getToken; simpl; by rewrite andb_false_r].

Lemma token_left s : getToken (lit "(" ++ s) = Some (lit "(", DPT_LEFT_, s).
Proof. plain_token s. Qed.
Lemma token_right s : getToken (lit ")" ++ s) = Some (lit ")", DPT_RIGHT_, s).
Proof. plain_token s. Qed.
Lemma token_and s : getToken (lit " && " ++ s) = Some (lit "&&", DPT_AND, lit " " ++ s).
Proof. reflexivity. Qed.
Lemma token_or s : getToken (lit " || " ++ s) = Some (lit "||", DPT_OR, lit " " ++ s).
Proof. reflexivity. Qed.

Lemma token_not s : match s with c :: _ => c <> "="%char | [] => True end ->
  getToken (lit "!" ++ s) = Some (lit "!", DPT_NOT, s).
Proof.
  intros Hs. destruct s as [|c s]; [reflexivity|].
  assert (ch_eqb "="%char c = false) as E by (apply bool_decide_eq_false; congruence).
  unfold getToken. simpl. rewrite E. by rewrite andb_false_r.
Qed.

(** A number is a name. *)
Lemma find_token_digit table c s : isdigit c = true ->
  Forall (fun t => match fst (fst t) with a :: _ => isdigit a = false | [] => False end) table ->
  find_token table (c :: s) = inr ([], c :: s).
Proof.
  intros Hc. induction 1 as [|[[name type] b] table Hn _ IH]; simpl; [done|].
  destruct name as [|a name]; [done|]. simpl in *.
  assert (ch_eqb a c = false) as -> by (apply bool_decide_eq_false; intros ->; congruence). exact IH.
Qed.

Lemma digit_valid c : isdigit c = true -> IS_VALIDCHAR c && negb (IS_DELIM c) = true /\ IS_QUOTE c = false.
Proof.
  intros Hc. unfold IS_VALIDCHAR, isalnum. rewrite Hc, orb_true_r. simpl.
  unfold IS_DELIM, IS_QUOTE.
  assert (forall a, isdigit a = false -> ch_eqb c a = false) as Hne
    by (intros a Ha; apply bool_decide_eq_false; intros ->; congruence).
  by rewrite !Hne by reflexivity.
Qed.

Lemma scan_name_digits room ds s : Forall (fun c => isdigit c = true) ds -> (length ds < room)%nat ->
  match s with c :: _ => IS_VALIDCHAR c && negb (IS_DELIM c) = false | [] => True end ->
  scan_name room (ds ++ s) = (ds, s).
Proof.
  intros Hd. revert room. induction Hd as [|c ds Hc _ IH]; intros room Hr Hs; simpl in *.
  - destruct room; [lia|]. destruct s as [|c s]; simpl; [done|]. by rewrite Hs.
  - destruct room; [lia|]. simpl. destruct (digit_valid c Hc) as [-> _]. by rewrite IH by (try lia; done).
Qed.

Definition job_number (n : Z) : Prop := 0 <= n < 2 ^ 31.

Lemma print_digits n : job_number n -> exists c ds, print_Z n = c :: ds /\
  Forall (fun c => isdigit c = true) (c :: ds) /\ (length (c :: ds) <= 10)%nat.
Proof.
  unfold job_number. intros Hn. unfold print_Z. rewrite (proj2 (Z.ltb_ge _ _)) by lia.
  destruct (print_nat_spec n) as (Hd & Hv & Hne); [lia|].
  destruct (print_nat n) as [|c ds] eqn:E; [done|]. exists c, ds. split_and!; [done|done|].
  rewrite <- E. unfold print_nat. apply dec_digits_length; lia.
Qed.

Lemma token_number n s : job_number n ->
  getToken (print_Z n ++ lit ")" ++ s) = Some (print_Z n, DPT_NAME, lit ")" ++ s).
Proof.
  intros Hn. destruct (print_digits n Hn) as (c & ds & E & Hd & Hl). rewrite E.
  assert (isdigit c = true) as Hc by by inversion Hd.
  unfold getToken. rewrite <- app_comm_cons, span_none by by apply isdigit_not_space.
  rewrite find_token_digit by first [done | repeat constructor].
  destruct (digit_valid c Hc) as [_ ->]. cbn [length].
  rewrite (app_comm_cons ds), scan_name_digits; [done|done| |reflexivity].
  unfold TOKEN_MAX. lia.
Qed.

Lemma keyword_length type : cond_type type -> (0 < length (keyword type))%nat.
Proof.
  unfold cond_type. intros Ht. repeat (apply elem_of_cons in Ht as [->|Ht]; [simpl; lia|]).
  by apply not_elem_of_nil in Ht.
Qed.

(** ** Runs of the parser *)

Section Runs.
Context (beyond : Z) (matchJobs : cstr -> option Z -> (list Z * option jobIdx + Z) * Z)
  (getJobData : Z -> option Z) (jgrpNode_type jgrpNode_data : Z -> Z) (addWindow : cstr -> bool)
  (replay : bool) (job_of : Z -> Z).

Abbreviation step := (parse_token beyond matchJobs getJobData jgrpNode_type jgrpNode_data addWindow false replay).
Abbreviation loop := (parse_loop beyond matchJobs getJobData jgrpNode_type jgrpNode_data addWindow false replay).
Abbreviation tree := (tree job_of).

Definition st (ops : operators) (ns : operands) (s : cstr) : parser :=
  Parser ops ns LSBE_DEPEND_SYNTAX 0 s.

(** Some rounds of the loop, at most as many as characters are read, lead from
    [p] to [q]. *)
Definition reaches (p q : parser) : Prop :=
  exists k, (0 < k)%nat /\ (k + length (ps_rest q) <= length (ps_rest p))%nat /\
    forall fuel, loop (k + fuel) p = loop fuel q.

Lemma reaches_trans p q r : reaches p q -> reaches q r -> reaches p r.
Proof.
  intros (j & J1 & J2 & J3) (k & K1 & K2 & K3). exists (j + k)%nat. split_and!; [lia|lia|].
  intros fuel. by rewrite <- Nat.add_assoc, J3, K3.
Qed.

Lemma reaches_token p tok type s q :
  getToken (ps_rest p) = Some (tok, type, s) -> (length (ps_rest q) < length (ps_rest p))%nat ->
  (forall fuel, step fuel tok type (set_rest s p) = Some (Go q)) -> reaches p q.
Proof.
  intros Ht Hl Hs. exists 1%nat. split_and!; [lia|lia|]. intros fuel. simpl. by rewrite Ht, Hs.
Qed.

Lemma reaches_space ops ns s q : reaches (st ops ns s) q -> reaches (st ops ns (" "%char :: s)) q.
Proof.
  intros (k & K1 & K2 & K3). exists k. split_and!; [done|simpl in *; lia|]. intros fuel.
  rewrite <- K3. destruct k as [|k]; [lia|]. specialize (K3 0%nat). simpl in *. rewrite token_space.
  by destruct (getToken s) as [[[tok type] r]|].
Qed.

(** The operators that have not been applied yet. *)
Fixpoint merge_ops (ops : operators) (ns : operands) : option operands :=
  match ops with [] => Some ns | op :: ops => ns ← apply_op op ns; merge_ops ops ns end.

Definition pending (ops : operators) (ns : operands) (t : dptNode) (base : operands) : Prop :=
  (DPT_LEFT_ ∉ ops) /\ merge_ops ops ns = Some (t :: base).

Lemma merge_left_pending ops ns t base more : pending ops ns t base ->
  merge_left (ops ++ DPT_LEFT_ :: more) ns = Some (more, t :: base).
Proof.
  intros [Hn Hm]. revert ns Hm. induction ops as [|op ops IH]; intros ns Hm; simpl in *.
  - by simplify_eq.
  - apply not_elem_of_cons in Hn as [Hn1 Hn2]. rewrite decide_False by done.
    destruct (apply_op op ns); simpl in *; [by apply IH|done].
Qed.

Lemma merge_all_pending ops ns t base : pending ops ns t base ->
  merge_all ops ns = ([], t :: base).
Proof.
  intros [_ Hm]. revert ns Hm. induction ops as [|op ops IH]; intros ns Hm; simpl in *.
  - by simplify_eq.
  - destruct (apply_op op ns); simpl in *; [by apply IH|done].
Qed.

Lemma merge_ops_app o1 o2 ns : merge_ops (o1 ++ o2) ns = (ns' ← merge_ops o1 ns; merge_ops o2 ns').
Proof.
  revert ns. induction o1 as [|op o1 IH]; intros ns; simpl; [done|].
  destruct (apply_op op ns); simpl; [apply IH|done].
Qed.

(** What is below an operator does not bind more tightly than it. *)
Definition below (type : dptType) (ops : operators) : Prop :=
  match ops with [] => True | prev :: _ => preceTable beyond prev <= preceTable beyond type end.

Lemma push_plain type ops ns s : below type ops ->
  push_operator beyond type (st ops ns s) = Go (st (type :: ops) ns s).
Proof.
  unfold push_operator. destruct ops as [|prev ops]; simpl; [done|].
  intros Hp. by rewrite (proj2 (Z.ltb_ge _ _)) by done.
Qed.

Lemma push_merge type prev ops ns ns' s : preceTable beyond type < preceTable beyond prev ->
  apply_op prev ns = Some ns' ->
  push_operator beyond type (st (prev :: ops) ns s) = Go (st (type :: ops) ns' s).
Proof.
  intros Hp Ha. unfold push_operator. simpl. rewrite (proj2 (Z.ltb_lt _ _)) by done. by rewrite Ha.
Qed.

Lemma reaches_and ops ns s q :
  push_operator beyond DPT_AND (st ops ns (lit " " ++ s)) = Go q -> ps_rest q = lit " " ++ s ->
  reaches (st ops ns (lit " && " ++ s)) q.
Proof.
  intros Hp Hq. eapply reaches_token; [apply token_and|rewrite Hq; simpl; lia|].
  intros fuel. simpl. by f_equal.
Qed.

Lemma reaches_or ops ns s q :
  push_operator beyond DPT_OR (st ops ns (lit " " ++ s)) = Go q -> ps_rest q = lit " " ++ s ->
  reaches (st ops ns (lit " || " ++ s)) q.
Proof.
  intros Hp Hq. eapply reaches_token; [apply token_or|rewrite Hq; simpl; lia|].
  intros fuel. simpl. by f_equal.
Qed.

Lemma expect_ok code tok type s r : getToken s = Some (tok, type, r) -> expect code type s = Go r.
Proof. intros E. unfold expect, next. rewrite E. simpl. by rewrite bool_decide_true. Qed.

Lemma next_ok code t s : getToken s = Some t -> next code s = Go t.
Proof. unfold next. by intros ->. Qed.

(** [matchJobs] knows the jobs of the condition. *)
Definition resolves (d : dep) : Prop :=
  Forall (fun l => job_number (snd l) /\
    forall f, matchJobs (print_Z (snd l)) (Some f) = (inl ([job_of (snd l)], None), f)) (leaves d).

Lemma reaches_cond type n ops ns s :
  cond_type type -> resolves (Cond type n) ->
  reaches (st ops ns (text (Cond type n) ++ s)) (st ops (tree (Cond type n) :: ns) s).
Proof.
  intros Ht Hr. inversion Hr as [|? ? [Hn Hm] _]; subst. cbn [snd] in *.
  cbn [text]. rewrite <- !app_assoc.
  eapply reaches_token; [apply token_keyword, Ht| |].
  - simpl. rewrite !length_app. pose proof (keyword_length type Ht). simpl. rewrite length_app. simpl. lia.
  - intros fuel.
    assert (parse_job matchJobs false replay type (st ops ns (lit "(" ++ print_Z n ++ lit ")" ++ s))
            = Go (st ops (leaf job_of type n :: ns) s)) as Hj.
    { unfold parse_job. cbn [ps_rest ps_code ps_opFlag st require negb mbind res_bind].
      rewrite (expect_ok _ _ _ _ _ (token_left _)). cbn [mbind res_bind].
      rewrite (next_ok _ _ _ (token_number n s Hn)). cbn [mbind res_bind].
      rewrite Hm. cbn [found mbind res_bind ps_code st]. unfold parse_exit.
      rewrite (expect_ok _ _ _ _ _ (token_right _)), (next_ok _ _ _ (token_right _)).
      unfold leaf. destruct (decide (type = DPT_EXIT)); reflexivity. }
    unfold cond_type in Ht. unfold set_rest. cbn [ps_ops ps_operands ps_code ps_opFlag st].
    repeat (apply elem_of_cons in Ht as [->|Ht]; [simpl; f_equal; exact Hj|]).
    by apply not_elem_of_nil in Ht.
Qed.

Hypothesis Hbeyond : beyond <= 1.

(** How the parser gets through a condition of each level. *)
Definition runs (l : level) (d : dep) : Prop :=
  match l with
  | LPrim => forall ops ns s, reaches (st ops ns (text d ++ s)) (st ops (tree d :: ns) s)
  | LFactor =>
      (forall ops ns s, below DPT_AND ops ->
         reaches (st ops ns (text d ++ lit " && " ++ s)) (st (DPT_AND :: ops) (tree d :: ns) (lit " " ++ s))) /\
      (forall ops ns s, below DPT_OR ops ->
         reaches (st ops ns (text d ++ lit " || " ++ s)) (st (DPT_OR :: ops) (tree d :: ns) (lit " " ++ s)))
  | LSimple =>
      forall ops ns s, below DPT_OR ops ->
        reaches (st ops ns (text d ++ lit " || " ++ s)) (st (DPT_OR :: ops) (tree d :: ns) (lit " " ++ s))
  | LUnary =>
      forall ops ns s, exists no nn,
        reaches (st ops ns (text d ++ s)) (st (no ++ ops) nn s) /\ pending no nn (tree d) ns
  | LConj =>
      forall ops ns s, below DPT_AND ops -> exists no nn,
        reaches (st ops ns (text d ++ s)) (st (no ++ ops) nn s) /\ pending no nn (tree d) ns
  | LDisj =>
      forall ops ns s, below DPT_OR ops -> exists no nn,
        reaches (st ops ns (text d ++ s)) (st (no ++ ops) nn s) /\ pending no nn (tree d) ns
  end.

Lemma text_head l d : clear l d -> match text d with c :: _ => c <> "="%char | [] => False end.
Proof.
  induction 1; simpl; try done.
  all: try (match goal with IH : match text ?d with _ => _ end |- _ => by destruct (text d) end).
  unfold cond_type in *.
  repeat match goal with Ht : _ ∈ _ :: _ |- _ => apply elem_of_cons in Ht as [->|Ht]; [done|] end.
  by apply not_elem_of_nil in H.
Qed.

Lemma below_not ops : below DPT_NOT ops.
Proof. destruct ops as [|[] ops]; simpl; lia. Qed.

Lemma below_or_and ops : below DPT_OR ops -> below DPT_AND ops.
Proof. destruct ops as [|prev ops]; simpl; [done|lia]. Qed.

Lemma reaches_not l d ops ns s : clear l d ->
  reaches (st ops ns (lit "!" ++ text d ++ s)) (st (DPT_NOT :: ops) ns (text d ++ s)).
Proof.
  intros Hd. eapply reaches_token.
  - apply token_not. pose proof (text_head _ _ Hd). by destruct (text d).
  - simpl. lia.
  - intros fuel. cbn [parse_token]. f_equal. apply push_plain, below_not.
Qed.

Lemma run_paren d : runs LDisj d -> runs LPrim (Paren d).
Proof.
  intros IH ops ns s. cbn [text tree]. rewrite <- !app_assoc.
  destruct (IH (DPT_LEFT_ :: ops) ns (lit ")" ++ s)) as (no & nn & Hr & Hp); [simpl; lia|].
  eapply reaches_trans; [|eapply reaches_trans; [exact Hr|]].
  - eapply reaches_token; [apply token_left|simpl; lia|]. by intros fuel.
  - eapply reaches_token; [apply token_right|simpl; lia|]. intros fuel. cbn [parse_token set_rest ps_ops ps_operands st].
    f_equal. by rewrite (merge_left_pending _ _ _ _ _ Hp).
Qed.

Lemma run_factor p : runs LPrim p -> runs LFactor p.
Proof.
  intros IH. split; intros ops ns s Hb; (eapply reaches_trans; [apply IH|]).
  - apply reaches_and; [by apply push_plain|done].
  - apply reaches_or; [by apply push_plain|done].
Qed.

Lemma run_not p : clear LPrim p -> runs LPrim p -> runs LFactor (Not p).
Proof.
  intros Hc IH. split; intros ops ns s Hb; cbn [text tree]; rewrite <- app_assoc;
    (eapply reaches_trans; [by eapply reaches_not|]; eapply reaches_trans; [apply IH|]).
  - apply reaches_and; [|done]. by apply push_merge.
  - apply reaches_or; [|done]. by apply push_merge.
Qed.

Lemma run_simple_and f p : runs LFactor f -> runs LPrim p -> runs LSimple (And f p).
Proof.
  intros [IHf _] IHp ops ns s Hb. cbn [text tree]. rewrite <- !app_assoc.
  eapply reaches_trans; [by apply IHf, below_or_and|].
  apply reaches_space. eapply reaches_trans; [apply IHp|].
  apply reaches_or; [|done]. by apply push_merge.
Qed.

Lemma run_nots u : clear LUnary u -> runs LUnary u -> runs LUnary (Not u).
Proof.
  intros Hc IH ops ns s. destruct (IH (DPT_NOT :: ops) ns s) as (no & nn & Hr & Hn & Hm).
  exists (no ++ [DPT_NOT]), nn. cbn [text tree]. rewrite <- !app_assoc. split.
  - eapply reaches_trans; [by eapply reaches_not|exact Hr].
  - split; [set_solver|]. by rewrite merge_ops_app, Hm.
Qed.

(** A further operand to the right of a binary operator. *)
Lemma run_right op d rest ops ns s no nn :
  op = DPT_AND \/ op = DPT_OR ->
  reaches (st (op :: ops) (tree d :: ns) (text rest ++ s)) (st (no ++ op :: ops) nn s) ->
  pending no nn (tree rest) (tree d :: ns) ->
  reaches (st (op :: ops) (tree d :: ns) (lit " " ++ text rest ++ s)) (st ((no ++ [op]) ++ ops) nn s) /\
  pending (no ++ [op]) nn (OprNode op DP_FALSE (tree rest) (tree d)) ns.
Proof.
  intros Hop Hr [Hn Hm]. split.
  - rewrite <- app_assoc. by apply reaches_space.
  - split; [|by destruct Hop as [->| ->]; rewrite merge_ops_app, Hm].
    destruct Hop as [->| ->]; set_solver.
Qed.

Lemma run_and f c : runs LFactor f -> runs LConj c -> runs LConj (And f c).
Proof.
  intros [IHf _] IHc ops ns s Hb.
  destruct (IHc (DPT_AND :: ops) (tree f :: ns) s) as (no & nn & Hr & Hp); [simpl; lia|].
  destruct (run_right DPT_AND f c ops ns s no nn) as [Hr' Hp']; [auto|done|done|].
  exists (no ++ [DPT_AND]), nn. split; [|exact Hp']. cbn [text]. rewrite <- !app_assoc in *.
  eapply reaches_trans; [by apply IHf|]. exact Hr'.
Qed.

Lemma run_or f d : runs LSimple f -> runs LDisj d -> runs LDisj (Or f d).
Proof.
  intros IHf IHd ops ns s Hb.
  destruct (IHd (DPT_OR :: ops) (tree f :: ns) s) as (no & nn & Hr & Hp); [simpl; lia|].
  destruct (run_right DPT_OR f d ops ns s no nn) as [Hr' Hp']; [auto|done|done|].
  exists (no ++ [DPT_OR]), nn. split; [|exact Hp']. cbn [text]. rewrite <- !app_assoc in *.
  eapply reaches_trans; [by apply IHf|]. exact Hr'.
Qed.

Lemma clear_runs l d : clear l d -> resolves d -> runs l d.
Proof.
  induction 1 as [ty n Ht|d _ IH|p _ IH|p Hc IH|p _ IH|u Hc IH|f _ IH|f p _ IHf _ IHp|u _ IH|f c _ IHf _ IHc
    |c _ IH|f d _ IHf _ IHd]; intros Hr.
  - intros ops ns s. by apply reaches_cond.
  - by apply run_paren, IH.
  - by apply run_factor, IH.
  - by apply run_not; [|apply IH].
  - intros ops ns s. exists [], (tree p :: ns). split; [by apply IH|]. split; [by apply not_elem_of_nil|done].
  - by apply run_nots; [|apply IH].
  - destruct (IH Hr) as [_ Ho]. exact Ho.
  - apply Forall_app in Hr as [H1 H2]. by apply run_simple_and; [apply IHf|apply IHp].
  - intros ops ns s _. by apply IH.
  - apply Forall_app in Hr as [H1 H2]. by apply run_and; [apply IHf|apply IHc].
  - intros ops ns s Hb. by apply IH; [|apply below_or_and].
  - apply Forall_app in Hr as [H1 H2]. by apply run_or; [apply IHf|apply IHd].
Qed.
End Runs.

(** ** Theorems on the parser *)

Section Parsing.
Context (beyond : Z) (matchJobs : cstr -> option Z -> (list Z * option jobIdx + Z) * Z)
  (getJobData : Z -> option Z) (jgrpNode_type jgrpNode_data : Z -> Z) (addWindow : cstr -> bool)
  (replay : bool) (job_of : Z -> Z).
Context (job : Z -> jData) (elements : Z -> list Z) (jgrp : Z -> jgArrayBase) (window_open : list cstr -> bool).

Abbreviation parse :=
  (parseDepCond beyond matchJobs getJobData jgrpNode_type jgrpNode_data addWindow false replay).
Abbreviation value node w := (node_value (evalDepCond job elements getJobData jgrp window_open node w)).

Lemma tree_proper d : proper (tree job_of d).
Proof. induction d; simpl; unfold proper_value; auto. Qed.

(** The value of the tree is the meaning of the text. *)
Lemma tree_value d w :
  value (tree job_of d) w = denote (fun type n => value (leaf job_of type n) w) d.
Proof.
  destruct (evalDepCond_meaning job elements getJobData jgrp window_open (tree job_of d) w) as [-> _];
    [apply tree_proper|].
  induction d as [ty n|d IH|d IH|d IHd e IHe|d IHd e IHe]; cbn [tree denote meaning]; try done.
  - by rewrite IH.
  - by rewrite IHd, IHe, Z.min_comm.
  - by rewrite IHd, IHe, Z.max_comm.
Qed.

Lemma parse_reaches s ops nn t :
  reaches beyond matchJobs getJobData jgrpNode_type jgrpNode_data addWindow replay (st [] [] s) (st ops nn []) ->
  merge_all ops nn = ([], [t]) -> parse s = Some (Go t).
Proof.
  intros (k & K1 & K2 & K3) Hp. unfold parseDepCond. simpl in K2.
  replace (S (length s)) with (k + S (length s - k))%nat by lia.
  fold (st [] [] s). rewrite K3. simpl. unfold parse_end. simpl.
  by rewrite Hp.
Qed.

(** C16: The parser understands every condition in which at most one NOT stands before
    an AND and in which at most one AND or NOT has not been applied before an OR,
    with conditions of any kind in parentheses: it accepts the text, and the
    tree, evaluated for any state of the jobs, has the value that the text means
    with the usual precedence. *)
Theorem parse_correct d w :
  beyond <= 1 -> clear LDisj d -> resolves matchJobs job_of d ->
  exists t, parse (text d) = Some (Go t) /\
    value t w = denote (fun type n => value (leaf job_of type n) w) d.
Proof.
  intros Hb Hd Hr. exists (tree job_of d). split; [|apply tree_value].
  destruct (clear_runs beyond matchJobs getJobData jgrpNode_type jgrpNode_data addWindow replay job_of Hb
              LDisj d Hd Hr [] [] []) as (no & nn & Hrun & Hp); [done|].
  rewrite !app_nil_r in Hrun. eapply parse_reaches; [exact Hrun|]. by apply merge_all_pending.
Qed.

(** C37: But when two operators have not been applied before an OR, only one of
    them is: a && b && c || d is parsed as a && (b && c || d).  So, when a is
    false and d is true, a condition that holds is found not to hold. *)
Theorem parse_precedence a b c d w :
  beyond <= 1 -> clear LPrim a -> clear LPrim b -> clear LPrim c -> clear LPrim d ->
  resolves matchJobs job_of (Or (And a (And b c)) d) ->
  let holds e := denote (fun type n => value (leaf job_of type n) w) e in
  exists t, parse (text (Or (And a (And b c)) d)) = Some (Go t) /\
    value t w = holds (And a (Or (And b c) d)) /\
    (holds a = DP_FALSE -> holds d = DP_TRUE ->
     holds (Or (And a (And b c)) d) = DP_TRUE /\ value t w = DP_FALSE).
Proof.
  intros Hb Ha Hb' Hc Hd Hr. cbv zeta. exists (tree job_of (And a (Or (And b c) d))).
  rewrite tree_value. unfold resolves in Hr. cbn [leaves] in Hr.
  rewrite !Forall_app in Hr. destruct Hr as ((Ra & Rb & Rc) & Rd). split; [|split; [done|]].
  - set (P l e := runs beyond matchJobs getJobData jgrpNode_type jgrpNode_data addWindow replay job_of l e).
    assert (forall e, clear LPrim e -> resolves matchJobs job_of e -> P LPrim e) as HP
      by (intros e He Re; by apply clear_runs).
    eapply parse_reaches with (ops := [DPT_OR; DPT_AND]).
    + cbn [text]. rewrite <- !app_assoc.
      eapply reaches_trans; [apply (run_factor _ _ _ _ _ _ _ _ a (HP a Ha Ra)); done|].
      apply reaches_space. eapply reaches_trans.
      { apply (run_factor _ _ _ _ _ _ _ _ b (HP b Hb' Rb)). simpl. lia. }
      apply reaches_space. eapply reaches_trans; [apply (HP c Hc Rc)|].
      eapply reaches_trans; [apply reaches_or; [by apply push_merge|done]|].
      apply reaches_space. rewrite <- (app_nil_r (text d)). apply (HP d Hd Rd).
    + reflexivity.
  - cbn [denote]. intros -> ->. unfold DP_TRUE, DP_FALSE. lia.
Qed.

(** Two conditions side by side behind a left parenthesis that is never
    closed are accepted, and what is made of them never holds, whatever the
    jobs do. *)
Theorem parse_malformed a b :
  beyond <= 1 -> clear LPrim a -> clear LPrim b ->
  resolves matchJobs job_of a -> resolves matchJobs job_of b ->
  exists t, parse (lit "(" ++ text a ++ lit " " ++ text b) = Some (Go t) /\
    forall w, value t w = DP_FALSE.
Proof.
  intros Hb Ha Hb' Ra Rb. exists (OprNode DPT_LEFT_ DP_FALSE (tree job_of b) (tree job_of a)). split; [|done].
  eapply parse_reaches with (ops := [DPT_LEFT_]) (nn := [tree job_of b; tree job_of a]).
  - eapply reaches_trans.
    { eapply reaches_token with (q := st [DPT_LEFT_] [] (text a ++ lit " " ++ text b));
        [apply token_left|simpl; lia|by intros fuel]. }
    eapply reaches_trans; [by apply (clear_runs _ _ _ _ _ _ _ _ Hb LPrim a Ha Ra)|].
    apply reaches_space. rewrite <- (app_nil_r (text b)).
    by apply (clear_runs _ _ _ _ _ _ _ _ Hb LPrim b Hb' Rb).
  - reflexivity.
Qed.
End Parsing.

(** ** The parser always stops *)

Section Progress.

Lemma find_token_length table s : Forall (fun t => fst (fst t) <> []) table ->
  match find_token table s with
  | inl (_, _, r) => (length r < length s)%nat
  | inr (pre, r) => (pre = [] /\ r = s) \/ (length r < length s)%nat
  end.
Proof.
  assert (forall name s r, after_prefix name s = Some r -> length s = (length name + length r)%nat) as Hp.
  { induction name as [|c name IH]; intros s' r; [by intros [= ->]|]. destruct s' as [|d s']; simpl; [done|].
    destruct (ch_eqb c d); [|done]. intros Hr. by rewrite (IH _ _ Hr). }
  induction 1 as [|[[name type] b] table Hn _ IH]; simpl; [by left|].
  destruct (after_prefix name s) as [r|] eqn:E; [|exact IH]. apply Hp in E.
  assert (length r < length s)%nat by (simpl in Hn; destruct name; simpl in *; [done|lia]).
  case_if; [by right|done].
Qed.

Lemma scan_quoted_length room q s : (length (snd (scan_quoted room q s)) <= length s)%nat.
Proof.
  revert s. induction room as [|room IH]; intros [|c s]; simpl; try lia. specialize (IH s).
  destruct (ch_eqb c q); [simpl; lia|]. destruct (scan_quoted room q s). simpl in *. lia.
Qed.

Lemma scan_name_length room s :
  length s = (length (fst (scan_name room s)) + length (snd (scan_name room s)))%nat.
Proof.
  revert s. induction room as [|room IH]; intros [|c s]; simpl; try lia. specialize (IH s).
  destruct (_ && _); [|simpl; lia]. destruct (scan_name room s). simpl in *. lia.
Qed.

(** A token takes a character, or it is an empty name. *)
Lemma getToken_progress s tok type r : getToken s = Some (tok, type, r) ->
  (length r < length s)%nat \/ (length r <= length s)%nat /\ tok = [] /\ type = DPT_NAME.
Proof.
  unfold getToken. pose proof (span_length isspace s) as Hs. destruct (span isspace s) as [sp s']. simpl in Hs.
  destruct s' as [|c s']; [done|].
  pose proof (find_token_length tokenTable (c :: s')) as Hf.
  destruct (find_token tokenTable (c :: s')) as [[[name t] r']|[pre r']].
  { intros [= -> -> ->]. left. assert (length r < length (c :: s'))%nat; [|lia].
    apply Hf. by repeat constructor. }
  assert ((pre = [] /\ r' = c :: s') \/ (length r' < length (c :: s'))%nat) as Hr
    by (apply Hf; by repeat constructor). clear Hf.
  destruct r' as [|q r'']; [intros [= <- <- <-]; destruct Hr as [[_ ?]|?]; [done|left; simpl in *; lia]|].
  destruct (IS_QUOTE q).
  - pose proof (scan_quoted_length (TOKEN_MAX - length pre - 1) q r'') as Hq.
    destruct (scan_quoted _ q r'') as [a b]. intros [= <- <- <-]. left.
    destruct Hr as [[_ [= -> ->]]|?]; simpl in *; lia.
  - pose proof (scan_name_length (TOKEN_MAX - length pre) (q :: r'')) as Hq.
    destruct (scan_name _ (q :: r'')) as [a b]. intros [= <- <- <-]. cbn [fst snd] in Hq.
    destruct Hr as [[-> [= -> ->]]|?]; [|left; lia].
    destruct a; [right; simpl in *; split_and!; [lia|done|done]|left; simpl in *; lia].
Qed.

(** What is left is an end of the text; the token of a window is the word "time". *)
Lemma find_token_split table s :
  match find_token table s with
  | inl (name, type, r) => s = name ++ r /\ exists b, (name, type, b) ∈ table
  | inr (pre, r) => s = pre ++ r
  end.
Proof.
  assert (forall name s r, after_prefix name s = Some r -> s = name ++ r) as Hp.
  { induction name as [|c name IH]; intros s' r; [by intros [= ->]|]. destruct s' as [|d s']; simpl; [done|].
    unfold ch_eqb. case_bool_decide as E; [subst d|done]. intros Hr. by rewrite (IH _ _ Hr). }
  induction table as [|[[name type] b] table IH]; simpl; [done|].
  destruct (after_prefix name s) as [r|] eqn:E.
  - apply Hp in E. case_if; [done|]. split; [done|]. exists b. by left.
  - destruct (find_token table s) as [[[n t] r]|[pre r]]; [|done]. destruct IH as (H1 & b' & H2).
    split; [done|]. exists b'. by right.
Qed.

Lemma scan_quoted_suffix room q s : snd (scan_quoted room q s) `suffix_of` s.
Proof.
  revert s. induction room as [|room IH]; intros [|c s]; simpl; try done. specialize (IH s).
  destruct (ch_eqb c q); [by apply suffix_cons_r|]. destruct (scan_quoted room q s). simpl in *. by apply suffix_cons_r.
Qed.

Lemma scan_name_suffix room s : snd (scan_name room s) `suffix_of` s.
Proof.
  revert s. induction room as [|room IH]; intros [|c s]; simpl; try done. specialize (IH s).
  destruct (_ && _); [|done]. destruct (scan_name room s). simpl in *. by apply suffix_cons_r.
Qed.

Lemma span_suffix (p : ascii -> bool) (s : cstr) : snd (span p s) `suffix_of` s.
Proof.
  induction s as [|c s IH]; simpl; [done|]. destruct (p c); [|done].
  destruct (span p s). simpl in *. by apply suffix_cons_r.
Qed.

Lemma getToken_suffix s tok type r : getToken s = Some (tok, type, r) -> r `suffix_of` s.
Proof.
  unfold getToken. pose proof (span_suffix isspace s) as Hs. destruct (span isspace s) as [sp s']. simpl in Hs.
  destruct s' as [|c s']; [done|]. pose proof (find_token_split tokenTable (c :: s')) as Hf.
  destruct (find_token tokenTable (c :: s')) as [[[name t] r']|[pre r']].
  { intros [= -> -> ->]. destruct Hf as [Hf _]. etrans; [|exact Hs]. rewrite Hf. by apply suffix_app_r. }
  assert (r' `suffix_of` s) as Hr by (etrans; [|exact Hs]; rewrite Hf; by apply suffix_app_r).
  destruct r' as [|q r'']; [by intros [= <- <- <-]|]. destruct (IS_QUOTE q).
  - pose proof (scan_quoted_suffix (TOKEN_MAX - length pre - 1) q r'') as Hq.
    destruct (scan_quoted _ q r'') as [a b]. intros [= <- <- <-]. etrans; [|exact Hr]. by apply suffix_cons_r.
  - pose proof (scan_name_suffix (TOKEN_MAX - length pre) (q :: r'')) as Hq.
    destruct (scan_name _ (q :: r'')) as [a b]. intros [= <- <- <-]. by etrans.
Qed.

Lemma getToken_window s tok type r : getToken s = Some (tok, type, r) -> type = DPT_WINDOW ->
  exists a, s = a ++ lit "time" ++ r.
Proof.
  unfold getToken. pose proof (span_suffix isspace s) as [a Ha]. destruct (span isspace s) as [sp s']. simpl in Ha.
  destruct s' as [|c s']; [done|]. pose proof (find_token_split tokenTable (c :: s')) as Hf.
  destruct (find_token tokenTable (c :: s')) as [[[name t] r']|[pre r']].
  - intros [= -> -> ->] ->. destruct Hf as (Hf & b & Hin). exists a. rewrite Ha, Hf. do 2 f_equal.
    revert Hin. unfold tokenTable. rewrite !elem_of_cons, elem_of_nil. intros Hin.
    repeat (destruct Hin as [Hin|Hin]; [try discriminate Hin; by injection Hin|]). done.
  - intros E ->. destruct r' as [|q r'']; [done|]. destruct (IS_QUOTE q); [by destruct (scan_quoted _ q r'')|by destruct (scan_name _ (q :: r''))].
Qed.

(** What holds of a result that is not an error. *)
Definition post {A} (P : A -> Prop) (r : res A) : Prop := match r with Go a => P a | Stop _ => True end.

Lemma post_bind {A B} (P : A -> Prop) (Q : B -> Prop) r (f : A -> res B) :
  post P r -> (forall a, P a -> post Q (f a)) -> post Q (r ≫= f).
Proof. destruct r; simpl; auto. Qed.

Lemma post_ret {A} (P : A -> Prop) a : P a -> post P (mret a).
Proof. done. Qed.

Lemma post_require c b : post (fun _ => b = true) (require c b).
Proof. by destruct b. Qed.

Lemma post_next c s : post (fun t => snd t `suffix_of` s) (next c s).
Proof.
  unfold next. destruct (getToken s) as [[[tok ty] r]|] eqn:E; simpl; [|done]. by eapply getToken_suffix.
Qed.

Lemma post_expect c t s : post (fun r => r `suffix_of` s) (expect c t s).
Proof.
  unfold expect. eapply post_bind; [apply post_next|]. intros [[tok ty] r] Hr.
  eapply post_bind; [apply post_require|]. done.
Qed.
End Progress.

Ltac suffixes := simpl in *; first [assumption | reflexivity | etrans; [eassumption|suffixes]].

(** [getToken] does not advance. *)
Definition stuck (s : cstr) : bool :=
  match getToken s with Some (_, _, r) => bool_decide (length r = length s) | None => false end.

Section Termination.
Context (beyond : Z) (matchJobs : cstr -> option Z -> (list Z * option jobIdx + Z) * Z)
  (getJobData : Z -> option Z) (jgrpNode_type jgrpNode_data : Z -> Z) (addWindow : cstr -> bool)
  (window_conf : bool).
Hypothesis no_job : forall f, exists c, fst (matchJobs [] f) = inr c.
Hypothesis no_window : addWindow [] = false.

Abbreviation le_rest s := (fun p => ps_rest p `suffix_of` s).

Lemma post_relation c s t : post (fun r => snd r `suffix_of` s)
  ('(tok, t', s) ← next c s; _ ← require c (bool_decide (t' = DPT_NAME)); mret (t : dptType, tok, s)).
Proof.
  eapply post_bind; [apply post_next|]. intros [[tok t'] r] Hr. simpl in *.
  eapply post_bind; [apply post_require|]. done.
Qed.

Lemma post_exit c s : post (fun r => snd r `suffix_of` s) (parse_exit c s).
Proof.
  unfold parse_exit. eapply post_bind; [apply post_next|]. intros [[? t] r] Hr. simpl in Hr.
  destruct (decide (t = DPT_RIGHT_)); [done|].
  eapply post_bind; [apply post_require|]. intros _ _.
  eapply post_bind; [apply post_next|]. intros [[tok t'] r'] Hr'. simpl in Hr'.
  eapply post_bind with (P := fun x => snd x `suffix_of` r').
  - destruct (is_relation t'); [apply post_relation|]. eapply post_bind; [apply post_require|]. intros _ _. apply post_ret. suffixes.
  - intros [[op tok'] r2] H2. simpl in H2. eapply post_bind; [apply post_require|]. intros _ _.
    eapply post_bind; [apply post_expect|]. intros r3 H3. apply post_ret. suffixes.
Qed.

Lemma post_num c s : post (fun r => snd r `suffix_of` s) (parse_num c s).
Proof.
  unfold parse_num. eapply post_bind; [apply post_next|]. intros [[? t] r] Hr. simpl in Hr.
  destruct (decide (t = DPT_RIGHT_)); [done|].
  eapply post_bind; [apply post_require|]. intros _ _.
  eapply post_bind; [apply post_next|]. intros [[tok t'] r'] Hr'. simpl in Hr'.
  eapply post_bind with (P := fun x => snd x `suffix_of` r').
  - destruct (is_relation t'); [apply post_relation|]. eapply post_bind; [apply post_require|]. intros _ _. apply post_ret. suffixes.
  - intros [[op tok'] r2] H2. simpl in H2.
    eapply post_bind with (P := fun _ => True).
    + destruct (isint_ tok'); [done|]. eapply post_bind; [apply post_require|]. done.
    + intros num _. eapply post_bind; [apply post_expect|]. intros r3 H3. apply post_ret. suffixes.
Qed.

Lemma post_job type p : post (le_rest (ps_rest p)) (parse_job matchJobs window_conf false type p).
Proof.
  unfold parse_job. eapply post_bind; [apply post_require|]. intros _ _.
  eapply post_bind; [apply post_expect|]. intros s Hs.
  eapply post_bind; [apply post_next|]. intros [[tok t] r] Hr. simpl in Hr.
  destruct (matchJobs tok (Some (ps_opFlag p))) as [[[jobs idx]|c] flag]; [|done].
  cbn [found mbind res_bind].
  eapply post_bind with (P := fun x => snd x `suffix_of` r).
  - destruct (decide (type = DPT_EXIT)); [apply post_exit|].
    eapply post_bind; [apply post_expect|]. intros r2 H2. apply post_ret. suffixes.
  - intros [[op ec] r2] H2. apply post_ret. suffixes.
Qed.

Lemma post_jgrp type p : post (le_rest (ps_rest p))
  (parse_jgrp getJobData jgrpNode_type jgrpNode_data false type p).
Proof.
  unfold parse_jgrp. eapply post_bind; [apply post_expect|]. intros s Hs.
  eapply post_bind; [apply post_next|]. intros [[tok t] r] Hr. simpl in Hr.
  eapply post_bind with (P := fun q => q = p).
  - destruct (if isint_ tok then _ else _) as [j|]; [|done]. by destruct (jgrpNode_type j =? JGRP_NODE_ARRAY).
  - intros q ->. eapply post_bind; [apply post_num|]. intros [[op num] r2] H2. apply post_ret. suffixes.
Qed.

Lemma not_stuck s tok ty r : stuck s = false -> getToken s = Some (tok, ty, r) -> (length r < length s)%nat.
Proof.
  unfold stuck. intros H E. rewrite E in H. apply bool_decide_eq_false in H. apply getToken_suffix, suffix_length in E. lia.
Qed.

Lemma measure_stop fuel c s : (length s < fuel)%nat -> (forall r, r `suffix_of` s -> stuck r = false) ->
  is_Some (measure_windows fuel c s).
Proof.
  revert s. induction fuel as [|fuel IH]; intros s Hf Hs; [lia|]. simpl. unfold next.
  destruct (getToken s) as [[[tok ty] r]|] eqn:E; simpl; [|done].
  pose proof (not_stuck _ _ _ _ (Hs s ltac:(reflexivity)) E). apply getToken_suffix in E.
  destruct (decide (ty = DPT_RIGHT_)); [done|]. case_bool_decide; [|done].
  apply IH; [lia|]. intros r' Hr'. apply Hs. suffixes.
Qed.

Lemma windows_stop fuel c s : (length s < fuel)%nat ->
  exists r, parse_windows addWindow fuel c s = Some r /\ post (fun x => snd x `suffix_of` s) r.
Proof.
  revert s. induction fuel as [|fuel IH]; intros s Hf; [lia|]. simpl. unfold next.
  destruct (getToken s) as [[[tok ty] r]|] eqn:E; simpl; [|by eexists].
  pose proof (getToken_suffix _ _ _ _ E) as Hr. apply getToken_progress in E.
  destruct (decide (ty = DPT_RIGHT_)) as [->|Hn]; [by eexists|].
  destruct (bool_decide (ty = DPT_NAME) && addWindow tok) eqn:Eb; [|by eexists].
  destruct E as [E|(_ & -> & _)]; [|rewrite no_window, andb_false_r in Eb; done].
  destruct (IH r) as (x & Hx & Hp); [lia|]. rewrite Hx. simpl. eexists. split; [done|].
  eapply post_bind; [exact Hp|]. intros [l s'] Hs. suffixes.
Qed.

(** A round of the loop ends, and leaves an end of the text. *)
Lemma token_stop fuel tok ty p : (length (ps_rest p) < fuel)%nat ->
  (ty = DPT_WINDOW -> forall r, r `suffix_of` ps_rest p -> stuck r = false) ->
  exists r, parse_token beyond matchJobs getJobData jgrpNode_type jgrpNode_data addWindow window_conf false
              fuel tok ty p = Some r /\
    post (le_rest (ps_rest p)) r /\ (ty = DPT_NAME -> tok = [] -> exists c, r = Stop c).
Proof.
  intros Hf Hw.
  assert (forall t, post (le_rest (ps_rest p)) (push_operator beyond t p)) as Hpush.
  { intros t. unfold push_operator. destruct (ps_ops p) as [|prev ops]; simpl; [done|].
    destruct (_ <? _); simpl; [|done]. destruct (apply_op prev (ps_operands p)); simpl; done. }
  destruct ty; cbn [parse_token]; try (eexists; split_and!; [done|simpl; done|done]);
    try (eexists; split_and!; [done|apply Hpush|done]);
    try (eexists; split_and!; [done|apply post_job|done]);
    try (eexists; split_and!; [done|apply post_jgrp|done]).
  - eexists. split_and!; [done| |done]. destruct (merge_left _ _) as [[]|]; simpl; done.
  - eexists. split_and!; [done| |].
    + unfold parse_name. eapply post_bind; [apply post_require|]. intros _ _.
      destruct (fst (matchJobs tok None)) as [[jobs idx]|c]; simpl; done.
    + intros _ ->. unfold parse_name. destruct (no_job None) as [c ->].
      destruct window_conf; simpl; by eexists.
  - pose proof (post_expect (ps_code p) DPT_LEFT_ (ps_rest p)) as Hx.
    destruct (expect (ps_code p) DPT_LEFT_ (ps_rest p)) as [r|c]; [|by eexists]. simpl in Hx.
    pose proof (suffix_length _ _ Hx).
    destruct (measure_stop fuel (ps_code p) r) as [x ->]; [lia| |].
    { intros r' Hr'. apply Hw; [done|suffixes]. }
    destruct x as [[]|c]; simpl; [|by eexists].
    destruct (windows_stop fuel (ps_code p) r) as (x & -> & Hp); [lia|]. simpl.
    eexists. split_and!; [done| |done]. eapply post_bind; [exact Hp|]. intros [l s] Hs. suffixes.
Qed.

(** C38: Parsing ends with a tree or an error code for every text in which no window
    of [time(...)] is malformed: after the word "time" there is no place at which [getToken] does not advance,
    that is, no character that no token begins with. Everywhere else such characters only cost a round, and
    each other round takes a character, so that as many rounds as there are characters are enough.
    ([window_never_ends] shows what happens with the other texts. When events are replayed, errors are
    ignored, and such a character is read forever in any place.) *)
Theorem parse_terminates s :
  (forall a b r, s = a ++ lit "time" ++ b ++ r -> stuck r = false) ->
  is_Some (parseDepCond beyond matchJobs getJobData jgrpNode_type jgrpNode_data addWindow window_conf false s).
Proof.
  intros Hs. unfold parseDepCond.
  assert (forall fuel p, (length (ps_rest p) < fuel)%nat -> ps_rest p `suffix_of` s ->
    is_Some (parse_loop beyond matchJobs getJobData jgrpNode_type jgrpNode_data addWindow window_conf false fuel p))
    as Hloop.
  { induction fuel as [|fuel IH]; intros p Hf Hsuf; [lia|]. simpl.
    destruct (getToken (ps_rest p)) as [[[tok ty] r]|] eqn:E; [|done].
    pose proof (getToken_suffix _ _ _ _ E) as Hr. pose proof (getToken_window _ _ _ _ E) as Hwin.
    apply getToken_progress in E. destruct E as [E|(E & -> & ->)].
    - destruct (token_stop fuel tok ty (set_rest r p)) as (x & -> & Hp & _); [simpl; lia| |].
      { intros -> r' [b Hb]. simpl in Hb. destruct (Hwin eq_refl) as [a Ha]. destruct Hsuf as [a' Ha'].
        apply (Hs (a' ++ a) b). by rewrite Ha', Ha, Hb, <- !app_assoc. }
      simpl. destruct x as [q|c]; [|done]. apply suffix_length in Hp as Hl. apply IH; [simpl in *; lia|]. simpl in Hp. suffixes.
    - destruct (no_job None) as [c Hc]. simpl. unfold parse_name. rewrite Hc.
      destruct window_conf; done. }
  destruct (Hloop (S (length s)) (Parser [] [] LSBE_DEPEND_SYNTAX 0 s)) as [x ->]; [simpl; lia|reflexivity|]. done.
Qed.
End Termination.

(** ** Witnesses *)

(** Job numbers stand for the job with that number; 1 to 4 are jobs of which the
    odd ones are done; 10 is an array of the elements 11 and 13. *)
Definition demo_match (tok : cstr) (flag : option Z) : (list Z * option jobIdx + Z) * Z :=
  (if isint_ tok then inl ([atoi tok], None) else inr 1, default 0 flag).

Definition demo_state (j : Z) : jData :=
  JData j (if j =? 10 then JGRP_NODE_ARRAY else 1)
    (if Z.odd j then JOB_STAT_DONE else JOB_STAT_RUN) 0 100 (if Z.odd j then 200 else 0) 0.

Definition demo_elements (j : Z) : list Z := if j =? 10 then [11; 13] else [].

Abbreviation demo_parse :=
  (parseDepCond 0 demo_match (fun _ => None) (fun _ => 1) id (fun _ => false) false false).
Abbreviation demo_eval node :=
  (evalDepCond demo_state demo_elements (fun _ => None) (fun _ => JgArrayBase 0 []) (fun _ => true) node None).

Lemma demo_resolves d : Forall (fun l => 0 <= snd l < 100) (leaves d) -> resolves demo_match id d.
Proof.
  intros Hl. eapply Forall_impl; [exact Hl|]. intros [ty n] Hn. simpl in Hn.
  split; [unfold job_number; simpl; lia|]. intros f. unfold demo_match, id. simpl.
  assert (isint_ (print_Z n) = true /\ atoi (print_Z n) = n) as [-> ->]; [|done].
  assert (exists k, (k < 100)%nat /\ n = Z.of_nat k) as (k & Hk & ->) by (exists (Z.to_nat n); lia).
  do 100 (destruct k as [|k]; [vm_compute; by split|]). lia.
Qed.

Lemma clear_done n : clear LPrim (Cond DPT_DONE n).
Proof. apply clear_cond. unfold cond_type. set_solver. Qed.

#[export] Hint Resolve clear_done : lava.

Definition demo_dep : dep :=
  Or (And (Not (Cond DPT_DONE 1)) (Cond DPT_DONE 2)) (And (Cond DPT_DONE 1) (Not (Paren (Cond DPT_DONE 2)))).

Lemma evalDepCond_spec_witness :
  node_value (demo_eval (tree id demo_dep)) = DP_TRUE.
Proof.
  destruct (evalDepCond_spec demo_state demo_elements (fun _ => None) (fun _ => JgArrayBase 0 []) (fun _ => true)
              (tree id demo_dep) None (tree_proper id demo_dep)) as [-> _].
  vm_compute. reflexivity.
Defined.

Lemma job_array_condition_witness :
  node_value (demo_eval (JobNode DPT_DONE DP_FALSE DPT_AND 0 0 (Some 10) None)) = DP_TRUE.
Proof.
  destruct (job_array_condition demo_state demo_elements (fun _ => None) (fun _ => JgArrayBase 0 [])
              (fun _ => true) 10 None DPT_DONE DPT_AND 0 0 None DP_FALSE) as [[_ H1] _];
    [reflexivity|vm_compute; congruence|vm_compute; congruence|].
  apply H1. repeat constructor.
Defined.

Lemma parse_correct_witness :
  exists t, demo_parse (text demo_dep) = Some (Go t) /\ node_value (demo_eval t) = DP_TRUE.
Proof.
  destruct (parse_correct 0 demo_match (fun _ => None) (fun _ => 1) id (fun _ => false) false id
              demo_state demo_elements (fun _ => JgArrayBase 0 []) (fun _ => true) demo_dep None)
    as (t & Ht & Hv).
  - lia.
  - apply clear_or; [apply clear_simple_and; [apply clear_not|]; auto with lava|].
    apply clear_disj, clear_and; [apply clear_factor; auto with lava|].
    apply clear_conj, clear_nots, clear_unary, clear_paren, clear_disj, clear_conj, clear_unary. auto with lava.
  - apply demo_resolves. repeat constructor; simpl; lia.
  - exists t. split; [exact Ht|]. rewrite Hv. vm_compute. reflexivity.
Defined.

(** done(2) && done(1) && done(3) || done(1), where 2 is running. *)
Lemma parse_precedence_witness :
  exists t, demo_parse (lit "done(2) && done(1) && done(3) || done(1)") = Some (Go t) /\
    node_value (demo_eval t) = DP_FALSE.
Proof.
  destruct (parse_precedence 0 demo_match (fun _ => None) (fun _ => 1) id (fun _ => false) false id
              demo_state demo_elements (fun _ => JgArrayBase 0 []) (fun _ => true)
              (Cond DPT_DONE 2) (Cond DPT_DONE 1) (Cond DPT_DONE 3) (Cond DPT_DONE 1) None)
    as (t & Ht & _ & Hv); [lia|apply clear_done..| |].
  - apply demo_resolves. repeat constructor; simpl; lia.
  - exists t. split; [exact Ht|]. apply Hv; vm_compute; reflexivity.
Defined.

Lemma parse_malformed_witness :
  exists t, demo_parse (lit "(done(1) done(3)") = Some (Go t) /\ node_value (demo_eval t) = DP_FALSE.
Proof.
  destruct (parse_malformed 0 demo_match (fun _ => None) (fun _ => 1) id (fun _ => false) false id
              demo_state demo_elements (fun _ => JgArrayBase 0 []) (fun _ => true)
              (Cond DPT_DONE 1) (Cond DPT_DONE 3)) as (t & Ht & Hv); [lia|apply clear_done..| | |].
  - apply demo_resolves. repeat constructor; simpl; lia.
  - apply demo_resolves. repeat constructor; simpl; lia.
  - exists t. split; [exact Ht|apply Hv].
Defined.

Lemma parse_terminates_witness : is_Some (demo_parse (lit "done(1) # &&")).
Proof.
  apply (parse_terminates 0 demo_match (fun _ => None) (fun _ => 1) id (fun _ => false) false).
  - intros f. by exists 1.
  - reflexivity.
  - intros a b r H. assert ("t"%char ∈ lit "done(1) # &&") as Hin by (rewrite H; set_solver).
    exfalso. revert Hin. by apply (bool_decide_unpack _).
Defined.

(** A window with a character that no token begins with: mbatchd reads it for ever. *)
Lemma window_never_ends beyond matchJobs getJobData nodeType nodeData addWindow window_conf replay fuel :
  parse_loop beyond matchJobs getJobData nodeType nodeData addWindow window_conf replay fuel
    (Parser [] [] LSBE_DEPEND_SYNTAX 0 (lit "time(#)")) = None.
Proof.
  assert (forall n, measure_windows n LSBE_DEPEND_SYNTAX (lit "#)") = None) as Hm.
  { induction n as [|n IH]; [done|]. exact IH. }
  destruct fuel as [|fuel]; [done|]. cbn [parse_loop].
  change (getToken (ps_rest _)) with (Some (lit "time", DPT_WINDOW, lit "(#)")). cbn [parse_token set_rest ps_rest ps_code].
  change (expect LSBE_DEPEND_SYNTAX DPT_LEFT_ (lit "(#)")) with (Go (lit "#)")). cbn iota. by rewrite Hm.
Qed.
