(* ===== verification/CalLex.v ===== *)
(** * The lexical analyser of index lists (callex.c)

    [yylex] is generated by lex from the rules of cal.l: [yylook] runs the automaton
    of the tables [yycrank] and [yysvec] on the characters at [yybuff] and returns
    the rule of the longest match; characters behind the match are pushed
    back.  A [None] stands for a read or a write outside of an array: [yytext] has
    YYLMAX bytes, and a character above 127 is a negative index into the tables.

    The comments of the source files call the tokens by the names of tokdefs.h. *)

From S2P Require Import Prelude CLib.

(** ** Tables *)

(** tokdefs.h: the numbers of the tokens. *)
Definition ICON : Z := 1.
Definition RCON : Z := 2.
Definition OR : Z := 29.
Definition AND : Z := 30.
Definition LE : Z := 31.
Definition GE : Z := 32.
Definition EQ : Z := 33.
Definition DOTS : Z := 34.
Definition ESTRING : Z := 37.
Definition NAME : Z := 38.
Definition SZZZZ : Z := 41.

Definition YYLMAX : nat := 200.
Definition YYNEWLINE : Z := 10.

(** A state: where its row is in [yycrank] (negative: a compressed row), the state it falls
    back to, and where its rules are in [yyvstop]; 0 is a null pointer. *)
Record yysvf := Yysvf { yystoff : Z; yyother : Z; yystops : Z }.

Definition yyvstop : list Z :=
  [0; 15; 0; 14; 15; 0; 14; 0; 15; 0; 1; 15; 0; 15; 0; 15; 0; 15; 0; 15; 0; 10; 15; 0; 15; 0; 15; 0; 15; 0;
   9; 15; 0; 15; 0; 13; 0; 4; 0; 12; 0; 8; 0; 11; 0; 10; 0; 5; 0; 7; 0; 6; 0; 9; 0; 3; 0; 2; 0; 0].

Definition yycrank : list (Z * Z) :=
  [(0, 0); (0, 0); (1, 3); (0, 0); (0, 0); (0, 0); (0, 0); (0, 0); (0, 0); (0, 0); (1, 4); (1, 5);
   (0, 0); (9, 21); (4, 5); (4, 5); (0, 0); (6, 18); (0, 0); (0, 0); (0, 0); (9, 21); (9, 0); (0, 0);
   (0, 0); (6, 18); (6, 0); (33, 0); (21, 0); (22, 0); (0, 0); (18, 0); (19, 0); (0, 0); (0, 0); (1, 6);
   (1, 7); (4, 5); (0, 0); (1, 8); (1, 9); (2, 6); (2, 7); (8, 20); (11, 24); (2, 8); (2, 9); (1, 10);
   (1, 11); (1, 12); (6, 19); (9, 22); (10, 23); (2, 10); (2, 11); (18, 19); (19, 19); (21, 22); (22, 22); (33, 32);
   (9, 21); (1, 13); (1, 14); (1, 15); (6, 18); (13, 27); (1, 16); (2, 13); (2, 14); (2, 15); (14, 28); (15, 29);
   (0, 0); (0, 0); (0, 0); (0, 0); (32, 0); (9, 21); (0, 0); (0, 0); (12, 25); (6, 18); (12, 26); (12, 26);
   (12, 26); (12, 26); (12, 26); (12, 26); (12, 26); (12, 26); (12, 26); (12, 26); (0, 0); (0, 0); (0, 0); (0, 0);
   (1, 3); (25, 25); (25, 25); (25, 25); (25, 25); (25, 25); (25, 25); (25, 25); (25, 25); (25, 25); (25, 25); (9, 21);
   (32, 32); (0, 0); (0, 0); (6, 18); (0, 0); (32, 33); (0, 0); (16, 30); (16, 30); (16, 30); (16, 30); (16, 30);
   (16, 30); (16, 30); (16, 30); (16, 30); (16, 30); (1, 17); (17, 31); (0, 0); (0, 0); (0, 0); (0, 0); (2, 17);
   (16, 30); (16, 30); (16, 30); (16, 30); (16, 30); (16, 30); (16, 30); (16, 30); (16, 30); (16, 30); (16, 30); (16, 30);
   (16, 30); (16, 30); (16, 30); (16, 30); (16, 30); (16, 30); (16, 30); (16, 30); (16, 30); (16, 30); (16, 30); (16, 30);
   (16, 30); (16, 30); (0, 0); (0, 0); (0, 0); (0, 0); (16, 30); (0, 0); (16, 30); (16, 30); (16, 30); (16, 30);
   (16, 30); (16, 30); (16, 30); (16, 30); (16, 30); (16, 30); (16, 30); (16, 30); (16, 30); (16, 30); (16, 30); (16, 30);
   (16, 30); (16, 30); (16, 30); (16, 30); (16, 30); (16, 30); (16, 30); (16, 30); (16, 30); (16, 30); (24, 24); (0, 0);
   (0, 0); (0, 0); (0, 0); (0, 0); (0, 0); (0, 0); (24, 24); (24, 0); (0, 0); (0, 0); (0, 0); (0, 0);
   (0, 0); (0, 0); (0, 0); (0, 0); (0, 0); (0, 0); (0, 0); (0, 0); (0, 0); (0, 0); (0, 0); (0, 0);
   (0, 0); (0, 0); (0, 0); (0, 0); (0, 0); (0, 0); (0, 0); (0, 0); (0, 0); (0, 0); (0, 0); (0, 0);
   (0, 0); (0, 0); (0, 0); (24, 32); (0, 0); (0, 0); (0, 0); (0, 0); (0, 0); (24, 24); (0, 0); (0, 0);
   (0, 0); (0, 0); (0, 0); (0, 0); (0, 0); (0, 0); (0, 0); (0, 0); (0, 0); (0, 0); (0, 0); (0, 0);
   (0, 0); (0, 0); (24, 24); (0, 0); (0, 0); (0, 0); (0, 0); (0, 0); (0, 0); (0, 0); (0, 0); (0, 0);
   (0, 0); (0, 0); (0, 0); (0, 0); (0, 0); (0, 0); (0, 0); (0, 0); (0, 0); (0, 0); (0, 0); (0, 0);
   (0, 0); (0, 0); (0, 0); (0, 0); (0, 0); (0, 0); (0, 0); (0, 0); (24, 24); (0, 0); (0, 0); (0, 0);
   (0, 0)].

Definition yysvec : list yysvf :=
  [Yysvf 0 0 0; Yysvf (-1) 0 0; Yysvf (-7) 1 0; Yysvf 0 0 1; Yysvf 5 0 3;
   Yysvf 0 4 6; Yysvf (-16) 0 8; Yysvf 0 0 10; Yysvf 5 0 13; Yysvf (-12) 0 15;
   Yysvf 6 0 17; Yysvf 2 0 19; Yysvf 34 0 21; Yysvf 4 0 24; Yysvf 9 0 26;
   Yysvf 10 0 28; Yysvf 67 0 30; Yysvf 2 0 33; Yysvf (-21) 6 0; Yysvf (-22) 6 35;
   Yysvf 0 0 37; Yysvf (-18) 9 0; Yysvf (-19) 9 39; Yysvf 0 0 41; Yysvf (-189) 0 0;
   Yysvf 49 0 43; Yysvf 0 12 45; Yysvf 0 0 47; Yysvf 0 0 49; Yysvf 0 0 51;
   Yysvf 0 16 53; Yysvf 0 0 55; Yysvf (-66) 24 0; Yysvf (-17) 24 57; Yysvf 0 0 0].

Definition yymatch : list Z :=
  [0; 1; 1; 1; 1; 1; 1; 1; 1; 9; 10; 1; 1; 1; 1; 1; 1; 1; 1; 1; 1; 1; 1; 1; 1; 1; 1; 1; 1; 1; 1; 1;
   9; 1; 1; 1; 1; 1; 1; 1; 1; 1; 1; 1; 1; 1; 1; 1; 48; 48; 48; 48; 48; 48; 48; 48; 48; 48; 1; 1; 1; 1; 1; 1;
   1; 65; 65; 65; 65; 65; 65; 65; 65; 65; 65; 65; 65; 65; 65; 65; 65; 65; 65; 65; 65; 65; 65; 65; 65; 65; 65; 1; 1; 1; 1; 95;
   1; 65; 65; 65; 65; 65; 65; 65; 65; 65; 65; 65; 65; 65; 65; 65; 65; 65; 65; 65; 65; 65; 65; 65; 65; 65; 65; 1; 1; 1; 1; 1;
   1; 1; 1; 1; 1; 1; 1; 1; 1; 1; 1; 1; 1; 1; 1; 1; 1; 1; 1; 1; 1; 1; 1; 1; 1; 1; 1; 1; 1; 1; 1; 1;
   1; 1; 1; 1; 1; 1; 1; 1; 1; 1; 1; 1; 1; 1; 1; 1; 1; 1; 1; 1; 1; 1; 1; 1; 1; 1; 1; 1; 1; 1; 1; 1;
   1; 1; 1; 1; 1; 1; 1; 1; 1; 1; 1; 1; 1; 1; 1; 1; 1; 1; 1; 1; 1; 1; 1; 1; 1; 1; 1; 1; 1; 1; 1; 1;
   1; 1; 1; 1; 1; 1; 1; 1; 1; 1; 1; 1; 1; 1; 1; 1; 1; 1; 1; 1; 1; 1; 1; 1; 1; 1; 1; 1; 1; 1; 1; 1;
   0].

Definition yytop : Z := 284.

(** The reserved words; the last one ends the table. *)
Definition rwtable : list (cstr * Z) :=
  [(lit "apr", 14); (lit "april", 14); (lit "aug", 18); (lit "august", 18); (lit "dates", 40);
   (lit "day", 28); (lit "dec", 22); (lit "december", 22); (lit "feb", 12); (lit "february", 12);
   (lit "fri", 8); (lit "friday", 8); (lit "fy", 24); (lit "h", 35); (lit "jan", 11);
   (lit "january", 11); (lit "jul", 17); (lit "july", 17); (lit "jun", 16); (lit "june", 16);
   (lit "m", 36); (lit "mar", 13); (lit "march", 13); (lit "may", 15); (lit "mon", 4);
   (lit "monday", 4); (lit "month", 26); (lit "nov", 21); (lit "november", 21); (lit "oct", 20);
   (lit "october", 20); (lit "quarter", 27); (lit "range", 39); (lit "sat", 9); (lit "saturday", 9);
   (lit "sep", 19); (lit "september", 19); (lit "sun", 10); (lit "sunday", 10); (lit "thu", 7);
   (lit "thursday", 7); (lit "tue", 5); (lit "tuesday", 5); (lit "wed", 6); (lit "wednesday", 6);
   (lit "week", 25); (lit "yy", 23); (lit "zzzz", 41)].

Definition svec (st : Z) : yysvf := default (Yysvf 0 0 0) (yysvec !! Z.to_nat st).
Definition stoff (st : Z) : Z := yystoff (svec st).
Definition other (st : Z) : Z := yyother (svec st).

(** [*yystops], 0 when the state has no rule. *)
Definition stop (st : Z) : Z :=
  if yystops (svec st) =? 0 then 0 else default 0 (yyvstop !! Z.to_nat (yystops (svec st))).

(** ** Characters *)

(** [yysptr] and [yybuff], [yyprevious], and [token]. *)
Record lexer := Lexer { pushed : list Z; yybuff : cstr; yyprevious : Z; token : cstr }.

Definition set_pushed (p : list Z) (l : lexer) : lexer := Lexer p (yybuff l) (yyprevious l) (token l).
Definition set_previous (c : Z) (l : lexer) : lexer := Lexer (pushed l) (yybuff l) c (token l).
Definition set_token (t : cstr) (l : lexer) : lexer := Lexer (pushed l) (yybuff l) (yyprevious l) t.

(** [getbufc] returns a char, so that 255 is EOF; the end of the input is 0. *)
Definition input (l : lexer) : option (Z * lexer) :=
  match pushed l, yybuff l with
  | c :: p, _ => Some (c, set_pushed p l)
  | [], [] => Some (0, l)
  | [], a :: b =>
      let l := Lexer [] b (yyprevious l) (token l) in
      if code a <? 128 then Some (code a, l) else if code a =? 255 then Some (0, l) else None
  end.

Definition unput (c : Z) (l : lexer) : lexer := set_pushed (c :: pushed l) l.

(** ** The automaton *)

(** [verify == state] and [advance]. *)
Definition entry (yyt st : Z) : option Z :=
  if yytop <? yyt then None
  else match yycrank !! Z.to_nat yyt with
       | Some (verify, advance) => if verify =? st then Some advance else None
       | None => None
       end.

(** From [tryagain] on: the next state, [None] when there is none. *)
Fixpoint transition (fuel : nat) (st yyt yych : Z) : option Z :=
  match fuel with
  | O => None
  | S fuel =>
      let hit :=
        if 0 <? yyt then entry (yyt + yych) st
        else if yyt <? 0 then
          match entry (- yyt + yych) st with
          | Some a => Some a
          | None => entry (- yyt + default 0 (yymatch !! Z.to_nat yych)) st
          end
        else None in
      match hit with
      | Some a => if a =? 0 then None else Some a
      | None =>
          if negb (other st =? 0) && negb (stoff (other st) =? 0)
          then transition fuel (other st) (stoff (other st)) yych else None
      end
  end.

(** A state falls back at most once for each state of the table. *)
Definition next_state (st yych : Z) : option Z := transition 35 st (stoff st) yych.

(** The inner loop: [acc] has the characters in [yytext] and the states in [yylstate],
    the last ones first. *)
Fixpoint scan (fuel : nat) (l : lexer) (yyfirst : bool) (st : Z) (acc : list (Z * Z))
    : option (lexer * list (Z * Z)) :=
  match fuel with
  | O => None
  | S fuel =>
      if (YYLMAX <=? length acc)%nat then None
      else if (stoff st =? 0) && negb yyfirst && ((other st =? 0) || (stoff (other st) =? 0))
      then Some (l, acc)
      else
        '(yych, l) ← input l;
        match next_state st yych with
        | Some st' => scan fuel l false st' ((yych, st') :: acc)
        | None => Some (unput yych l, acc)
        end
  end.

(** The loop back over the states to one with a rule. *)
Fixpoint longest (l : lexer) (acc : list (Z * Z)) : option (Z * list Z * lexer) * lexer :=
  match acc with
  | [] => (None, l)
  | (c, st) :: acc' =>
      if 0 <? stop st then (Some (stop st, reverse (acc.*1), set_previous c l), l)
      else longest (unput c l) acc'
  end.

(** The number of the rule with [yytext]. *)
Fixpoint yylook (fuel : nat) (l : lexer) (yyfirst : bool) : option (Z * list Z * lexer) :=
  match fuel with
  | O => None
  | S fuel =>
      let start := if yyprevious l =? YYNEWLINE then 2 else 1 in
      '(l, acc) ← scan (S YYLMAX) l yyfirst start [];
      match longest l acc with
      | (Some m, _) => Some m
      | (None, l) =>
          if default 0 (head (pushed l)) =? 0 then Some (0, [], set_pushed [] l)
          else '(c, l) ← input l; yylook fuel (set_previous c l) false
      end
  end.

(** ** Tokens *)

Definition set_lower (s : cstr) : cstr :=
  (fun c => if (65 <=? code c) && (code c <=? 90) then chr (code c + 32) else c) <$> s.

(** [strcmp] *)
Fixpoint strcmp (s t : cstr) : Z :=
  match s, t with
  | [], [] => 0
  | [], c :: _ => - code c
  | c :: _, [] => code c
  | c :: s, d :: t => if code c =? code d then strcmp s t else code c - code d
  end.

(** The binary search in [rwtable]. *)
Fixpoint search_word (fuel : nat) (low high : Z) (s : cstr) : option Z :=
  match fuel with
  | O => None
  | S fuel =>
      if low <=? high then
        let mid := low + (high - low) `quot` 2 in
        '(w, t) ← rwtable !! Z.to_nat mid;
        let c := strcmp w s in
        if c =? 0 then Some t
        else if c <? 0 then search_word fuel (mid + 1) high s
        else search_word fuel low (mid - 1) s
      else None
  end.

Definition screen (l : lexer) (yytext : cstr) : Z * lexer :=
  match search_word (length rwtable) 0 (Z.of_nat (length rwtable) - 1) (set_lower yytext) with
  | Some t => (t, l)
  | None => (NAME, set_token yytext l)
  end.

(** Blanks and comments are skipped; 0 is the end of the input, where [yywrap] has no
    other stream. *)
Fixpoint yylex (fuel : nat) (l : lexer) : option (Z * lexer) :=
  match fuel with
  | O => None
  | S fuel =>
      '(nstr, text, l) ← yylook (S (length (yybuff l) + length (pushed l))) l true;
      let yytext := chr <$> text in
      if nstr =? 0 then Some (0, l)
      else if nstr =? 3 then Some (OR, l)
      else if nstr =? 4 then Some (AND, l)
      else if nstr =? 5 then Some (LE, l)
      else if nstr =? 6 then Some (GE, l)
      else if nstr =? 7 then Some (EQ, l)
      else if nstr =? 8 then Some (DOTS, l)
      else if nstr =? 9 then Some (screen l yytext)
      else if nstr =? 10 then Some (ICON, set_token yytext l)
      else if nstr =? 11 then Some (RCON, set_token yytext l)
      else if (nstr =? 12) || (nstr =? 13) then Some (ESTRING, set_token yytext l)
      else if nstr =? 15 then Some (default 0 (head text), l)
      else yylex fuel l
  end.

(** Each round consumes a character. *)
Definition lex (l : lexer) : option (Z * lexer) := yylex (S (length (yybuff l) + length (pushed l))) l.

(** ** What the tables do on digits and single characters *)

(** The characters in front of the analyser. *)
Definition rest (l : lexer) : list Z := pushed l ++ (code <$> yybuff l).

Definition is_digit (c : Z) : bool := (48 <=? c) && (c <=? 57).

(** A character that ends a number. *)
Definition ends_number (c : Z) : bool := (0 <=? c) && (c <? 128) && negb (is_digit c) && negb (c =? 46).

Definition start_state (l : lexer) : Z := if yyprevious l =? YYNEWLINE then 2 else 1.

Definition number_row (st : Z) : bool :=
  forallb (fun c => if is_digit c then bool_decide (next_state st c = Some 26)
                    else if ends_number c then bool_decide (next_state st c = None) else true) (seqZ 0 128) &&
  (stop st =? 10) && negb ((stoff st =? 0) && ((other st =? 0) || (stoff (other st) =? 0))).

Lemma number_rows : number_row 12 = true /\ number_row 26 = true.
Proof. vm_compute. done. Qed.

Definition start_row (st : Z) : bool :=
  forallb (fun c => if is_digit c then bool_decide (next_state st c = Some 12) else true) (seqZ 0 128) &&
  bool_decide (next_state st 0 = None).

Lemma start_rows : start_row 1 = true /\ start_row 2 = true.
Proof. vm_compute. done. Qed.

(** The tokens of index lists that are a single character. *)
Definition punctuation : list Z := [91; 93; 44; 45; 58; 37].

Lemma punctuation_rows : forallb (fun c => bool_decide (next_state 1 c = Some 3) &&
  bool_decide (next_state 2 c = Some 3) && ends_number c) punctuation = true.
Proof. vm_compute. done. Qed.

Lemma row_at (p : Z -> bool) c : forallb p (seqZ 0 128) = true -> 0 <= c < 128 -> p c = true.
Proof. intros H Hc. rewrite forallb_forall in H. apply H. apply list_elem_of_In, elem_of_seqZ. lia. Qed.

Lemma digit_range c : is_digit c = true -> 0 <= c < 128.
Proof. unfold is_digit. intros H. breflect. lia. Qed.

Lemma ends_range c : ends_number c = true -> 0 <= c < 128 /\ is_digit c = false.
Proof. unfold ends_number. intros H. breflect. split; [lia|done]. Qed.

(** *** Reading *)

Definition keeps (l l' : lexer) : Prop := yyprevious l' = yyprevious l /\ token l' = token l.

Lemma input_cons l c r : rest l = c :: r -> c < 128 ->
  exists l', input l = Some (c, l') /\ rest l' = r /\ keeps l l'.
Proof.
  intros H Hc. destruct l as [[|c' p] b pr t]; unfold rest, input in *; simpl in *.
  - destruct b as [|a b]; [done|]. injection H as <- <-. rewrite (proj2 (Z.ltb_lt _ _) Hc).
    by eexists.
  - injection H as <- <-. by eexists.
Qed.

Lemma input_end l : rest l = [] -> input l = Some (0, l).
Proof. destruct l as [[|c p] [|a b] pr t]; by intros [=]. Qed.

Lemma rest_unput c l : rest (unput c l) = c :: rest l.
Proof. done. Qed.

(** At the end of the text a 0 may have been pushed back. *)
Definition at_end (l : lexer) : Prop := rest l = [] \/ rest l = [0].

Definition follows (l : lexer) (r : list Z) : Prop := if r is [] then at_end l else rest l = r.

Lemma scan_digits ds : forall fuel l st acc r, (st = 12 \/ st = 26) -> Forall (fun c => is_digit c = true) ds ->
  rest l = ds ++ r -> (if r is c :: _ then ends_number c = true else True) ->
  (length ds + length acc < YYLMAX)%nat -> (length ds < fuel)%nat ->
  exists l', scan fuel l false st acc = Some (l', reverse ((fun c => (c, 26)) <$> ds) ++ acc) /\
    follows l' r /\ keeps l l'.
Proof.
  induction ds as [|c ds IH]; intros fuel l st acc r Hst Hds Hr He Hlen Hf;
    (destruct fuel as [|fuel]; [simpl in Hf; lia|]); cbn [scan];
    assert (number_row st = true) as Hrow by (destruct Hst as [->| ->]; apply number_rows);
    unfold number_row in Hrow; apply andb_true_iff in Hrow as [Hrow Hbrk];
    apply andb_true_iff in Hrow as [Hrow Hstop]; apply negb_true_iff in Hbrk;
    cbn [negb]; rewrite andb_true_r, Hbrk;
    (destruct (Nat.leb_spec YYLMAX (length acc)) as [Hle|_]; [simpl in Hlen; lia|]).
  - cbn [app] in Hr. cbn [fmap list_fmap]. destruct r as [|c r].
    + rewrite (input_end _ Hr). cbn [mbind option_bind].
      pose proof (row_at _ 0 Hrow ltac:(lia)) as H0. cbv beta in H0.
      change (is_digit 0) with false in H0. change (ends_number 0) with true in H0. cbv iota in H0.
      apply bool_decide_eq_true in H0. rewrite H0. eexists. split; [done|]. split; [|done].
      right. by rewrite rest_unput, Hr.
    + destruct (ends_range _ He) as [Hc Hd].
      destruct (input_cons _ _ _ Hr ltac:(lia)) as (l1 & E & Hr1 & Hk). rewrite E. cbn [mbind option_bind].
      pose proof (row_at _ c Hrow Hc) as H0. cbv beta in H0. rewrite Hd, He in H0.
      apply bool_decide_eq_true in H0. rewrite H0. eexists. split; [done|]. split; [|done].
      simpl. by rewrite rest_unput, Hr1.
  - apply Forall_cons in Hds as [Hd Hds]. pose proof (digit_range _ Hd) as Hc.
    destruct (input_cons _ _ _ Hr ltac:(lia)) as (l1 & E & Hr1 & Hk1). rewrite E. cbn [mbind option_bind].
    pose proof (row_at _ c Hrow Hc) as H0. cbv beta in H0. rewrite Hd in H0.
    apply bool_decide_eq_true in H0. rewrite H0.
    destruct (IH fuel l1 26 ((c, 26) :: acc) r (or_intror eq_refl) Hds Hr1 He) as (l2 & E2 & Hf2 & Hk2);
      [simpl in *; lia|simpl in *; lia|].
    exists l2. rewrite E2. split; [|split; [done|]].
    + rewrite fmap_cons, reverse_cons, <- app_assoc. done.
    + destruct Hk1, Hk2. split; congruence.
Qed.

Lemma longest_head l c st acc : 0 < stop st ->
  longest l ((c, st) :: acc) = (Some (stop st, reverse (c :: acc.*1), set_previous c l), l).
Proof. intros H. cbn [longest]. by rewrite (proj2 (Z.ltb_lt _ _) H). Qed.

Lemma scan_first l st : scan (S YYLMAX) l true st [] =
  ('(yych, l) ← input l;
   match next_state st yych with
   | Some st' => scan YYLMAX l false st' [(yych, st')]
   | None => Some (unput yych l, [])
   end).
Proof.
  transitivity (if (stoff st =? 0) && false && ((other st =? 0) || (stoff (other st) =? 0)) then Some (l, []) else
    '(yych, l) ← input l;
    match next_state st yych with
    | Some st' => scan YYLMAX l false st' [(yych, st')]
    | None => Some (unput yych l, [])
    end); [reflexivity|]. by rewrite andb_false_r.
Qed.

(** A number: one or more digits, as many as fit into [yytext]. *)
Lemma lex_number l ds r : ds <> [] -> Forall (fun c => is_digit c = true) ds -> (length ds < YYLMAX)%nat ->
  rest l = ds ++ r -> (if r is c :: _ then ends_number c = true else True) ->
  exists l', lex l = Some (ICON, l') /\ follows l' r /\ token l' = chr <$> ds.
Proof.
  intros Hne Hds Hlen Hr He. destruct ds as [|c ds]; [done|]. apply Forall_cons in Hds as [Hd Hds].
  pose proof (digit_range _ Hd) as Hc.
  destruct (input_cons _ _ _ Hr ltac:(lia)) as (l1 & E & Hr1 & Hk1).
  destruct (scan_digits ds YYLMAX l1 12 [(c, 12)] r (or_introl eq_refl) Hds Hr1 He) as (l2 & E2 & Hf2 & Hk2);
    [simpl in *; lia|simpl in *; lia|].
  assert (scan (S YYLMAX) l true (start_state l) [] = Some (l2, reverse ((fun c => (c, 26)) <$> ds) ++ [(c, 12)])) as Hscan.
  { rewrite scan_first, E. cbn [mbind option_bind].
    assert (start_row (start_state l) = true) as Hrow.
    { unfold start_state. destruct (_ =? _); apply start_rows. }
    unfold start_row in Hrow. apply andb_true_iff in Hrow as [Hrow _].
    pose proof (row_at _ c Hrow Hc) as H0. cbv beta in H0. rewrite Hd in H0.
    apply bool_decide_eq_true in H0. rewrite H0. exact E2. }
  set (acc := reverse ((fun c => (c, 26)) <$> ds) ++ [(c, 12)]) in *.
  assert (exists ch st acc', acc = (ch, st) :: acc' /\ stop st = 10) as (ch & st & acc' & Hacc & Hstop).
  { unfold acc. destruct (reverse ((fun c => (c, 26)) <$> ds)) as [|[ch st] acc'] eqn:Hrev.
    - by exists c, 12, [].
    - exists ch, st, (acc' ++ [(c, 12)]). split; [done|].
      assert ((ch, st) ∈ (fun c => (c, 26)) <$> ds) as Hin.
      { rewrite <- elem_of_reverse, Hrev. left. }
      apply list_elem_of_fmap in Hin as (? & [= _ ->] & _). done. }
  assert (reverse (acc.*1) = c :: ds) as Htext.
  { unfold acc. rewrite fmap_app, fmap_reverse, reverse_app, reverse_involutive, <- list_fmap_compose.
    cbn. f_equal. symmetry. etransitivity; [symmetry; apply list_fmap_id|]. done. }
  exists (set_token (chr <$> (c :: ds)) (set_previous ch l2)).
  split; [|split; [destruct r; exact Hf2|done]].
  unfold lex. cbn [yylex yylook]. fold (start_state l). rewrite Hscan. cbn [mbind option_bind].
  rewrite Hacc, longest_head by lia. change (ch :: acc'.*1) with (((ch, st) :: acc').*1).
  rewrite <- Hacc, Htext, Hstop. reflexivity.
Qed.

(** One of the single characters. *)
Lemma lex_char l c r : c ∈ punctuation -> rest l = c :: r ->
  exists l', lex l = Some (c, l') /\ rest l' = r /\ token l' = token l.
Proof.
  intros Hc Hr. pose proof punctuation_rows as Hrows. rewrite forallb_forall in Hrows.
  specialize (Hrows c (proj1 (list_elem_of_In _ _) Hc)). apply andb_true_iff in Hrows as [Hrows He].
  apply andb_true_iff in Hrows as [H1 H2]. apply bool_decide_eq_true in H1, H2.
  destruct (ends_range _ He) as [Hrange _].
  destruct (input_cons _ _ _ Hr ltac:(lia)) as (l1 & E & Hr1 & Hk1).
  exists (set_previous c l1). split; [|split; [done|apply Hk1]].
  unfold lex. cbn [yylex yylook]. fold (start_state l).
  assert (scan (S YYLMAX) l true (start_state l) [] = Some (l1, [(c, 3)])) as ->.
  { rewrite scan_first, E. cbn [mbind option_bind].
    assert (next_state (start_state l) c = Some 3) as -> by (unfold start_state; by destruct (_ =? _)).
    reflexivity. }
  cbn [mbind option_bind]. reflexivity.
Qed.

Lemma lex_end l : at_end l -> exists l', lex l = Some (0, l') /\ pushed l' = [] /\ rest l' = [].
Proof.
  intros Hl.
  assert (exists l1, scan (S YYLMAX) l true (start_state l) [] = Some (unput 0 l1, []) /\ rest l1 = []) as (l1 & Hs & Hr).
  { assert (exists l1, input l = Some (0, l1) /\ rest l1 = []) as (l1 & E & Hr).
    { destruct Hl as [Hl|Hl]; [exists l; split; [by apply input_end|done]|].
      destruct (input_cons _ _ _ Hl) as (l1 & E & Hr & _); [done|]. by exists l1. }
    exists l1. split; [|done].
    rewrite scan_first, E. cbn [mbind option_bind].
    assert (next_state (start_state l) 0 = None) as ->; [|done].
    unfold start_state. destruct (_ =? _); reflexivity. }
  exists (set_pushed [] l1). unfold lex. cbn [yylex yylook]. fold (start_state l). rewrite Hs.
  cbn [mbind option_bind longest unput set_pushed pushed head default Z.eqb].
  split; [reflexivity|]. split; [done|]. unfold rest in *. simpl. by apply app_eq_nil in Hr as [_ ->].
Qed.
