(* ===== verification/JobIndex.v ===== *)
(** * The index list of a job array (jidx.c)

    [bsub -J "sim[1-10:2,15]%3"] submits a job array.  [idxparse] is the parser that
    yacc generates from the grammar

      arrayIndSpec : arrayInd | arrayInd '%' icon
      arrayInd : '[' indcies ']'
      indcies : index | index ',' indcies
      index : region | region ':' icon
      region : icon | '-' icon | icon '-' | icon '-' icon

    It is modelled as it is: an automaton with a stack of states and a stack of
    values, both of YYMAXDEPTH entries, driven by tables, and the actions of the
    grammar as the cases of a switch. *)

From S2P Require Import Prelude CLib CalLex.
From S2P Require Import DepCond.

(** ** Tables *)

Definition YYMAXDEPTH : nat := 150.
Definition YYLAST : Z := 48.
Definition YYFLAG : Z := -3000.

Definition yyexca : list (Z * Z) := [(-1, 1); (0, -1); (-2, 0)].
Definition yyact : list Z :=
  [12; 3; 14; 10; 15; 13; 4; 8; 10; 1;
   5; 2; 11; 7; 6; 0; 0; 16; 0; 0;
   0; 0; 18; 19; 17; 0; 0; 0; 0; 0;
   0; 0; 0; 0; 0; 0; 0; 0; 0; 0;
   0; 0; 0; 0; 0; 0; 0; 9].
Definition yypact : list Z :=
  [-90; -3000; -31; 2; 7; -93; -39; -56; -41; 7;
   -3000; -3000; -3000; 2; 7; 7; -3000; -3000; -3000; -3000].
Definition yypgo : list Z := [0; 14; 13; 10; 11; 7; 9].
Definition yyr1 : list Z := [0; 6; 6; 4; 3; 3; 1; 1; 2; 2; 2; 2; 5].
Definition yyr2 : list Z := [0; 3; 7; 7; 3; 7; 3; 7; 3; 5; 5; 7; 3].
Definition yychk : list Z :=
  [-3000; -6; -4; 91; 37; -3; -1; -2; -5; 45;
   1; -5; 93; 44; 58; 45; -5; -3; -5; -5].
Definition yydef : list Z :=
  [0; -2; 1; 0; 0; 0; 4; 6; 8; 0;
   12; 2; 3; 0; 0; 10; 9; 5; 7; 11].

Definition at_ (table : list Z) (i : Z) : Z := default 0 (table !! Z.to_nat i).

(** The search in [yyexca]: the pairs behind (-1, [yy_state]), up to one for
    [yychar] or with a negative number. *)
Fixpoint exca_state (l : list (Z * Z)) (yy_state : Z) : list (Z * Z) :=
  match l with
  | [] => []
  | (a, b) :: l => if (a =? -1) && (b =? yy_state) then l else exca_state l yy_state
  end.
Fixpoint exca_char (l : list (Z * Z)) (yychar : Z) : Z :=
  match l with
  | [] => 0
  | (a, b) :: l => if (0 <=? a) && negb (a =? yychar) then exca_char l yychar else b
  end.

(** ** State *)

(** YYSTYPE; [YNone] is a value that nothing was assigned to. *)
Inductive yystype := YNone | YInt (ival : Z) | YIdx (idxType : idxList) | YPtr (idxPtr : list idxList).

Definition IDX_BOUND : Z := 1.

(** [yys] and [yyv], the top first; [yychar] is -1 when there is no lookahead; the
    lexical analyser; [*idxList] and [*maxJLimit]; [idxerrno]. *)
Record yacc := Yacc {
  yys : list Z; yyv : list yystype; yychar : Z; lx : lexer;
  out_list : list idxList; out_limit : Z; idxerrno : Z }.

Inductive outcome :=
  | More (y : yacc)
  | Return (code : Z) (y : yacc).

(** [idxerror] drops what was pushed back. *)
Definition yyabort (errno : Z) (y : yacc) : outcome :=
  Return 1 (Yacc (yys y) (yyv y) (yychar y) (set_pushed [] (lx y)) (out_list y) (out_limit y) errno).

(** [yy_stack] *)
Definition push (yy_state : Z) (yyval : yystype) (y : yacc) : outcome :=
  if (YYMAXDEPTH <=? length (yys y))%nat then yyabort (idxerrno y) y
  else More (Yacc (yy_state :: yys y) (yyval :: yyv y) (yychar y) (lx y) (out_list y) (out_limit y) (idxerrno y)).

Definition set_char (c : Z) (l : lexer) (y : yacc) : yacc :=
  Yacc (yys y) (yyv y) c l (out_list y) (out_limit y) (idxerrno y).
Definition set_stacks (s : list Z) (v : list yystype) (y : yacc) : yacc :=
  Yacc s v (yychar y) (lx y) (out_list y) (out_limit y) (idxerrno y).
Definition set_out (l : list idxList) (limit : Z) (y : yacc) : yacc :=
  Yacc (yys y) (yyv y) (yychar y) (lx y) l limit (idxerrno y).

(** ** The actions *)

Definition bounded (i : idxList) : bool :=
  negb ((il_start i <? 1) || (il_end i <? il_start i) || (il_step i <=? 0)).

(** [yypvt[-k]] *)
Definition int_at (v : list yystype) (k : nat) : option Z :=
  match v !! k with Some (YInt n) => Some n | _ => None end.
Definition idx_at (v : list yystype) (k : nat) : option idxList :=
  match v !! k with Some (YIdx i) => Some i | _ => None end.
Definition ptr_at (v : list yystype) (k : nat) : option (list idxList) :=
  match v !! k with Some (YPtr l) => Some l | _ => None end.

(** [yyval] and the state, or YYABORT with IDX_BOUND ([inr]). *)
Definition action (n : Z) (v : list yystype) (yyval : yystype) (y : yacc) : option (yystype * yacc + unit) :=
  if n =? 1 then l ← ptr_at v 0; Some (inl (yyval, set_out l (out_limit y) y))
  else if n =? 2 then l ← ptr_at v 2; lim ← int_at v 0; Some (inl (yyval, set_out l lim y))
  else if n =? 3 then l ← ptr_at v 1; Some (inl (YPtr l, y))
  else if n =? 4 then i ← idx_at v 0; Some (inl (YPtr [i], y))
  else if n =? 5 then i ← idx_at v 2; l ← ptr_at v 0; Some (inl (YPtr (i :: l), y))
  else if n =? 6 then
    r ← idx_at v 0;
    let i := IdxList (il_start r) (il_end r) 1 in
    Some (if bounded i then inl (YIdx i, y) else inr tt)
  else if n =? 7 then
    r ← idx_at v 2; s ← int_at v 0;
    let i := IdxList (il_start r) (il_end r) s in
    Some (if bounded i then inl (YIdx i, y) else inr tt)
  else if n =? 8 then a ← int_at v 0; Some (inl (YIdx (IdxList a a 1), y))
  else if n =? 9 then b ← int_at v 0; Some (inl (YIdx (IdxList 1 b 1), y))
  else if n =? 10 then a ← int_at v 1; Some (inl (YIdx (IdxList a INFINIT_INT 1), y))
  else if n =? 11 then a ← int_at v 2; b ← int_at v 0; Some (inl (YIdx (IdxList a b 1), y))
  else if n =? 12 then Some (inl (YInt (atoi (token (lx y))), y))
  else Some (inl (yyval, y)).

(** The state behind the nonterminal [m] when [s] is on the top of the stack. *)
Definition goto_ (m s : Z) : Z :=
  let g := at_ yypgo m + s + 1 in
  if (YYLAST <=? g) || negb (at_ yychk (at_ yyact g) =? - m) then at_ yyact (at_ yypgo m)
  else at_ yyact g.

(** The reduction by the rule [n]; an even length would stand for no action. *)
Definition reduce (n : Z) (y : yacc) : option outcome :=
  let len := Z.to_nat (Z.shiftr (at_ yyr2 n) 1) in
  let v := yyv y in
  let yyval := default YNone (v !! (len - 1)%nat) in
  let below := drop len (yys y) in
  let yy_state := goto_ (at_ yyr1 n) (match below with s :: _ => s | [] => 0 end) in
  let y := set_stacks below (drop len v) y in
  if Z.even (at_ yyr2 n) then Some (push yy_state yyval y)
  else r ← action n v yyval y;
       Some (match r with
             | inl (yyval, y) => push yy_state yyval y
             | inr _ => yyabort IDX_BOUND y
             end).

(** ** The automaton *)

(** [if (yychar < 0 && (yychar = yylex()) < 0) yychar = 0] *)
Definition lookahead (y : yacc) : option yacc :=
  if yychar y <? 0 then '(c, l) ← lex (lx y); Some (set_char (if c <? 0 then 0 else c) l y)
  else Some y.

Definition top (y : yacc) : Z := match yys y with s :: _ => s | [] => 0 end.

(** No state has a transition on YYERRCODE ([no_recovery]), so that the first
    error ends the parser. *)
Definition yydefault (y : yacc) : option outcome :=
  let yy_state := top y in
  let yy_n := at_ yydef yy_state in
  if yy_n =? -2 then
    y ← lookahead y;
    let yy_n := exca_char (exca_state yyexca yy_state) (yychar y) in
    if yy_n <? 0 then Some (Return 0 y)
    else if yy_n =? 0 then Some (yyabort (idxerrno y) y) else reduce yy_n y
  else if yy_n =? 0 then Some (yyabort (idxerrno y) y)
  else reduce yy_n y.

(** From [yy_newstate] to the next [yy_stack]. *)
Definition yystep (y : yacc) : option outcome :=
  let yy_state := top y in
  let yy_n := at_ yypact yy_state in
  if yy_n <=? YYFLAG then yydefault y
  else
    y ← lookahead y;
    let yy_n := yy_n + yychar y in
    if (yy_n <? 0) || (YYLAST <=? yy_n) then yydefault y
    else
      let a := at_ yyact yy_n in
      if at_ yychk a =? yychar y then Some (push a YNone (set_char (-1) (lx y) y))
      else yydefault y.

Fixpoint yyrun (fuel : nat) (y : yacc) : option (Z * yacc) :=
  match fuel with
  | O => None
  | S fuel => o ← yystep y; match o with More y => yyrun fuel y | Return c y => Some (c, y) end
  end.

(** The result is 0 when the text was parsed.  Each token is shifted once, and there are
    at most four reductions for a token. *)
Definition idxparse (l : lexer) (maxJLimit errno : Z) : option (Z * yacc) :=
  match push 0 YNone (Yacc [] [] (-1) l [] maxJLimit errno) with
  | More y => yyrun (6 * (2 + length (yybuff l) + length (pushed l))) y
  | Return c y => Some (c, y)
  end.

Lemma no_recovery :
  forallb (fun n => let k := n + 256 in
    (n <=? YYFLAG) || (YYLAST <=? k) || negb (at_ yychk (at_ yyact k) =? 256)) yypact = true.
Proof. reflexivity. Qed.

(** ** Steps of the automaton *)

#[global] Arguments lex : simpl never.
#[global] Arguments atoi : simpl never.

(** [n] steps, each of which goes on. *)
Fixpoint reach (n : nat) (y y' : yacc) : Prop :=
  match n with
  | O => y = y'
  | S n => exists y1, yystep y = Some (More y1) /\ reach n y1 y'
  end.

Lemma reach_trans n1 n2 y1 y2 y3 : reach n1 y1 y2 -> reach n2 y2 y3 -> reach (n1 + n2) y1 y3.
Proof.
  revert y1. induction n1 as [|n1 IH]; intros y1; simpl; [by intros ->|].
  intros (y & E & H) H2. exists y. eauto.
Qed.

Lemma reach_run n y y' fuel : reach n y y' -> yyrun (n + fuel) y = yyrun fuel y'.
Proof.
  revert y. induction n as [|n IH]; intros y; simpl; [by intros ->|].
  intros (y1 & -> & H). simpl. by apply IH.
Qed.

Lemma push_ok s v y : (length (yys y) < YYMAXDEPTH)%nat ->
  push s v y = More (Yacc (s :: yys y) (v :: yyv y) (yychar y) (lx y) (out_list y) (out_limit y) (idxerrno y)).
Proof. intros H. unfold push. by destruct (Nat.leb_spec YYMAXDEPTH (length (yys y))) as [?|_]; [lia|]. Qed.

(** What the tables say in the state [s] on the lookahead [c]. *)
Definition shifts (s c a : Z) : bool :=
  negb (at_ yypact s <=? YYFLAG) && negb ((at_ yypact s + c <? 0) || (YYLAST <=? at_ yypact s + c)) &&
  (at_ yyact (at_ yypact s + c) =? a) && (at_ yychk a =? c) && negb (c <? 0).
Definition reduces (s c n : Z) : bool :=
  negb (at_ yypact s <=? YYFLAG) &&
  ((at_ yypact s + c <? 0) || (YYLAST <=? at_ yypact s + c) || negb (at_ yychk (at_ yyact (at_ yypact s + c)) =? c)) &&
  (at_ yydef s =? n) && (0 <? n) && negb (c <? 0).

Lemma step_shift_known s ss v l o lim e c a : shifts s c a = true -> (S (length ss) < YYMAXDEPTH)%nat ->
  yystep (Yacc (s :: ss) v c l o lim e) = Some (More (Yacc (a :: s :: ss) (YNone :: v) (-1) l o lim e)).
Proof.
  unfold shifts. rewrite !andb_true_iff, !negb_true_iff, Z.eqb_eq. intros [[[[H1 H2] H3] H4] H5] Hlen.
  unfold yystep, lookahead. cbn [top yys yychar lx]. rewrite H1, H5. cbn [mbind option_bind yychar lx].
  rewrite H2, H3, H4. by rewrite push_ok.
Qed.

Lemma step_reduce_known s ss v l o lim e c n : reduces s c n = true ->
  yystep (Yacc (s :: ss) v c l o lim e) = reduce n (Yacc (s :: ss) v c l o lim e).
Proof.
  unfold reduces. rewrite !andb_true_iff, !negb_true_iff, Z.eqb_eq, Z.ltb_lt. intros [[[[H1 H2] H3] H4] H5].
  unfold yystep, lookahead. cbn [top yys yychar lx]. rewrite H1, H5. cbn [mbind option_bind yychar lx].
  assert (yydefault (Yacc (s :: ss) v c l o lim e) = reduce n (Yacc (s :: ss) v c l o lim e)) as ->.
  { unfold yydefault. cbn [top yys]. rewrite H3.
    by rewrite (proj2 (Z.eqb_neq n (-2))), (proj2 (Z.eqb_neq n 0)) by lia. }
  destruct ((_ <? 0) || _)%bool eqn:E; rewrite ?E in H2; [done|]. cbn [orb] in H2. apply negb_true_iff in H2. by rewrite H2.
Qed.

(** Without a lookahead the token is read first. *)
Lemma step_read s ss v l o lim e c l' : lex l = Some (c, l') -> (at_ yypact s <=? YYFLAG) = false -> (c <? 0) = false ->
  yystep (Yacc (s :: ss) v (-1) l o lim e) = yystep (Yacc (s :: ss) v c l' o lim e).
Proof.
  intros Hl Hp Hc. unfold yystep, lookahead. cbn [top yys yychar lx]. rewrite Hp.
  change (-1 <? 0) with true. rewrite Hl. cbn [mbind option_bind]. by rewrite Hc.
Qed.

Lemma step_shift s ss v l o lim e c l' a : lex l = Some (c, l') -> shifts s c a = true ->
  (S (length ss) < YYMAXDEPTH)%nat ->
  yystep (Yacc (s :: ss) v (-1) l o lim e) = Some (More (Yacc (a :: s :: ss) (YNone :: v) (-1) l' o lim e)).
Proof.
  intros Hl Hs Hlen. rewrite (step_read _ _ _ _ _ _ _ _ _ Hl); [by apply step_shift_known|..];
    unfold shifts in Hs; rewrite !andb_true_iff, !negb_true_iff in Hs; tauto.
Qed.

Lemma step_reduce s ss v l o lim e c l' n : lex l = Some (c, l') -> reduces s c n = true ->
  yystep (Yacc (s :: ss) v (-1) l o lim e) = reduce n (Yacc (s :: ss) v c l' o lim e).
Proof.
  intros Hl Hr. rewrite (step_read _ _ _ _ _ _ _ _ _ Hl); [by apply step_reduce_known|..];
    unfold reduces in Hr; rewrite !andb_true_iff, !negb_true_iff in Hr; tauto.
Qed.

Lemma step_default s ss v l o lim e n : (at_ yypact s <=? YYFLAG) = true -> at_ yydef s = n -> 0 < n ->
  forall c, yystep (Yacc (s :: ss) v c l o lim e) = reduce n (Yacc (s :: ss) v c l o lim e).
Proof.
  intros Hp Hd Hn c. unfold yystep, yydefault. cbn [top yys]. rewrite Hp, Hd.
  by rewrite (proj2 (Z.eqb_neq n (-2))), (proj2 (Z.eqb_neq n 0)) by lia.
Qed.

(** The next character is [c], whether it was read already or not. *)
Definition sees (ch : Z) (l : lexer) (c : Z) (r : list Z) : Prop :=
  ch = -1 /\ rest l = c :: r \/ ch = c /\ rest l = r.

Lemma see_shift s ss v ch l o lim e c r a : sees ch l c r -> c ∈ punctuation -> shifts s c a = true ->
  (S (length ss) < YYMAXDEPTH)%nat ->
  exists l', yystep (Yacc (s :: ss) v ch l o lim e) =
    Some (More (Yacc (a :: s :: ss) (YNone :: v) (-1) l' o lim e)) /\ rest l' = r.
Proof.
  intros [[-> Hr]|[-> Hr]] Hc Hs Hlen.
  - destruct (lex_char _ _ _ Hc Hr) as (l' & Hl & Hr' & _). exists l'. split; [by eapply step_shift|done].
  - exists l. split; [by apply step_shift_known|done].
Qed.

Lemma see_reduce s ss v ch l o lim e c r n : sees ch l c r -> c ∈ punctuation -> reduces s c n = true ->
  exists l', yystep (Yacc (s :: ss) v ch l o lim e) = reduce n (Yacc (s :: ss) v c l' o lim e) /\ rest l' = r.
Proof.
  intros [[-> Hr]|[-> Hr]] Hc Hs.
  - destruct (lex_char _ _ _ Hc Hr) as (l' & Hl & Hr' & _). exists l'. split; [by apply step_reduce|done].
  - exists l. split; [by apply step_reduce_known|done].
Qed.

(** ** The texts of the grammar *)

(** A number: digits that fit into [yytext]. *)
Definition numeral (s : cstr) : Prop :=
  s <> [] /\ Forall (fun c => isdigit c = true) s /\ (length s < YYLMAX)%nat.

Inductive region := One (a : cstr) | UpTo (b : cstr) | From (a : cstr) | Between (a b : cstr).
Record index := Index { index_region : region; index_step : option cstr }.

Definition region_text (g : region) : cstr :=
  match g with
  | One a => a
  | UpTo b => lit "-" ++ b
  | From a => a ++ lit "-"
  | Between a b => a ++ lit "-" ++ b
  end.
Definition index_text (i : index) : cstr :=
  region_text (index_region i) ++ match index_step i with Some s => lit ":" ++ s | None => [] end.
Fixpoint indices_text (l : list index) : cstr :=
  match l with
  | [] => []
  | [i] => index_text i
  | i :: l => index_text i ++ lit "," ++ indices_text l
  end.
Definition spec_text (l : list index) (limit : option cstr) : cstr :=
  lit "[" ++ indices_text l ++ lit "]" ++ match limit with Some n => lit "%" ++ n | None => [] end.

Definition region_ok (g : region) : Prop :=
  match g with One a | UpTo a | From a => numeral a | Between a b => numeral a /\ numeral b end.
Definition index_ok (i : index) : Prop :=
  region_ok (index_region i) /\ match index_step i with Some s => numeral s | None => True end.

(** What they mean. *)
Definition region_value (g : region) : idxList :=
  match g with
  | One a => IdxList (atoi a) (atoi a) 1
  | UpTo b => IdxList 1 (atoi b) 1
  | From a => IdxList (atoi a) INFINIT_INT 1
  | Between a b => IdxList (atoi a) (atoi b) 1
  end.
Definition index_value (i : index) : idxList :=
  IdxList (il_start (region_value (index_region i))) (il_end (region_value (index_region i)))
    (match index_step i with Some s => atoi s | None => 1 end).

Abbreviation codes s := (code <$> s : list Z).

Lemma chr_codes s : chr <$> codes s = s.
Proof.
  induction s as [|a s IH]; [done|]. rewrite !fmap_cons, IH. f_equal.
  unfold chr, code. rewrite N2Z.id. apply ascii_N_embedding.
Qed.

Lemma numeral_length s : numeral s -> (1 <= length s)%nat.
Proof. intros (Hne & _). destruct s; [by destruct Hne|simpl; lia]. Qed.

Lemma lex_numeral l s c r : numeral s -> rest l = codes s ++ c :: r -> c ∈ punctuation ->
  exists l', lex l = Some (ICON, l') /\ rest l' = c :: r /\ token l' = s.
Proof.
  intros (Hne & Hd & Hlen) Hr Hc.
  pose proof punctuation_rows as Hrows. rewrite forallb_forall in Hrows.
  specialize (Hrows c (proj1 (list_elem_of_In _ _) Hc)). apply andb_true_iff in Hrows as [_ He].
  destruct (lex_number l (codes s) (c :: r)) as (l' & Hl & Hf & Ht).
  - by destruct s.
  - by apply Forall_fmap.
  - by rewrite length_fmap.
  - done.
  - done.
  - exists l'. split; [done|]. split; [done|]. by rewrite Ht, chr_codes.
Qed.

(** *** Reductions *)

Lemma reduce_to n pre s ss vs v ch l o lim e o' lim' a val :
  Z.to_nat (Z.shiftr (at_ yyr2 n) 1) = length pre -> length vs = length pre ->
  Z.even (at_ yyr2 n) = false -> goto_ (at_ yyr1 n) s = a ->
  action n (vs ++ v) (default YNone ((vs ++ v) !! (length pre - 1)%nat)) (Yacc (s :: ss) v ch l o lim e) =
    Some (inl (val, Yacc (s :: ss) v ch l o' lim' e)) ->
  (length (s :: ss) < YYMAXDEPTH)%nat ->
  reduce n (Yacc (pre ++ s :: ss) (vs ++ v) ch l o lim e) = Some (More (Yacc (a :: s :: ss) (val :: v) ch l o' lim' e)).
Proof.
  intros Hlen Hv He Hg Ha Hd. unfold reduce. rewrite Hlen, He. cbn [yys yyv]. rewrite drop_app_length.
  rewrite <- Hv in Ha |- *. rewrite drop_app_length. cbv zeta. unfold set_stacks. cbn [yychar lx out_list out_limit idxerrno].
  rewrite Hg, Ha. cbn [mbind option_bind]. by rewrite push_ok.
Qed.

(** A number becomes an icon. *)
Lemma read_icon s ss v l o lim e n c r i : numeral n -> rest l = codes n ++ c :: r -> c ∈ punctuation ->
  shifts s ICON 10 = true -> goto_ 5 s = i -> (S (length ss) < YYMAXDEPTH)%nat ->
  exists l', reach 2 (Yacc (s :: ss) v (-1) l o lim e) (Yacc (i :: s :: ss) (YInt (atoi n) :: v) (-1) l' o lim e) /\
    rest l' = c :: r.
Proof.
  intros Hn Hr Hc Hs Hg Hlen. destruct (lex_numeral _ _ _ _ Hn Hr Hc) as (l' & Hl & Hr' & Ht).
  exists l'. split; [|done]. eexists. split; [by eapply step_shift|]. eexists. split; [|done].
  rewrite (step_default _ _ _ _ _ _ _ 12) by done.
  apply (reduce_to 12 [10] s ss [YNone]); try done. cbn. by rewrite Ht.
Qed.

Lemma reach_S n y y1 y' : yystep y = Some (More y1) -> reach n y1 y' -> reach (S n) y y'.
Proof. intros H1 H2. by exists y1. Qed.

Definition after_list (s : Z) : Prop := s = 3 \/ s = 13.

Ltac side := first [done | by apply (bool_decide_eq_true_1 _) | simpl in *; lia].

(** A region; the state behind it is 7. *)
Lemma read_region g s ss v l o lim e c r : region_ok g -> after_list s ->
  rest l = codes (region_text g) ++ c :: r -> c ∈ [44; 93; 58] -> (length ss + 3 < YYMAXDEPTH)%nat ->
  exists n ch l', (n <= 4 * length (region_text g))%nat /\ sees ch l' c r /\
    reach n (Yacc (s :: ss) v (-1) l o lim e) (Yacc (7 :: s :: ss) (YIdx (region_value g) :: v) ch l' o lim e).
Proof.
  intros Hg Hs Hr Hc Hlen.
  assert (c ∈ punctuation) as Hp by (unfold punctuation; set_solver).
  assert (shifts s ICON 10 = true /\ goto_ 5 s = 8 /\ shifts s 45 9 = true /\ goto_ 2 s = 7) as (H1 & H2 & H3 & H4)
    by (destruct Hs as [->| ->]; done).
  assert (reduces 8 c 8 = true /\ reduces 15 c 10 = true) as [H5 H6]
    by (repeat (apply elem_of_cons in Hc as [->|Hc]; [done|]); by apply not_elem_of_nil in Hc).
  destruct g as [a|b|a|a b]; cbn [region_ok region_text region_value] in *.
  - destruct (read_icon s ss v l o lim e a c r 8 Hg Hr Hp H1 H2) as (l1 & Hr1 & Hl1); [side..|].
    destruct (see_reduce 8 (s :: ss) (YInt (atoi a) :: v) (-1) l1 o lim e c r 8 (or_introl (conj eq_refl Hl1)) Hp H5)
      as (l2 & E2 & Hl2).
    exists 3%nat, c, l2. split_and!; [pose proof (numeral_length _ Hg); lia|by right|].
    eapply (reach_trans 2 1); [exact Hr1|]. eexists. split; [|done]. rewrite E2.
    apply (reduce_to 8 [8] s ss [YInt (atoi a)]); side.
  - rewrite fmap_app, <- app_assoc in Hr.
    destruct (see_shift s ss v (-1) l o lim e 45 (codes b ++ c :: r) 9) as (l1 & E1 & Hl1);
      [exact (or_introl (conj eq_refl Hr))|side..|].
    destruct (read_icon 9 (s :: ss) (YNone :: v) l1 o lim e b c r 16 Hg Hl1 Hp) as (l2 & Hr2 & Hl2);
      [side..|].
    exists 4%nat, (-1), l2. split_and!; [rewrite length_app; simpl; lia|by left|].
    eapply reach_S; [exact E1|]. eapply (reach_trans 2 1); [exact Hr2|]. eexists. split; [|done].
    rewrite (step_default _ _ _ _ _ _ _ 9) by done.
    apply (reduce_to 9 [16; 9] s ss [YInt (atoi b); YNone]); side.
  - rewrite fmap_app, <- app_assoc in Hr.
    destruct (read_icon s ss v l o lim e a 45 (c :: r) 8 Hg Hr) as (l1 & Hr1 & Hl1); [side..|].
    destruct (see_shift 8 (s :: ss) (YInt (atoi a) :: v) (-1) l1 o lim e 45 (c :: r) 15) as (l2 & E2 & Hl2);
      [by left|side..|].
    destruct (see_reduce 15 (8 :: s :: ss) (YNone :: YInt (atoi a) :: v) (-1) l2 o lim e c r 10
                (or_introl (conj eq_refl Hl2)) Hp H6) as (l3 & E3 & Hl3).
    exists 4%nat, c, l3. split_and!; [rewrite length_app; simpl; lia|by right|].
    eapply (reach_trans 2 2); [exact Hr1|]. eapply reach_S; [exact E2|]. eexists. split; [|done]. rewrite E3.
    apply (reduce_to 10 [15; 8] s ss [YNone; YInt (atoi a)]); side.
  - destruct Hg as [Ha Hb]. rewrite !fmap_app, <- !app_assoc in Hr.
    destruct (read_icon s ss v l o lim e a 45 (codes b ++ c :: r) 8 Ha Hr) as (l1 & Hr1 & Hl1); [side..|].
    destruct (see_shift 8 (s :: ss) (YInt (atoi a) :: v) (-1) l1 o lim e 45 (codes b ++ c :: r) 15) as (l2 & E2 & Hl2);
      [by left|side..|].
    destruct (read_icon 15 (8 :: s :: ss) (YNone :: YInt (atoi a) :: v) l2 o lim e b c r 19 Hb Hl2 Hp)
      as (l3 & Hr3 & Hl3); [side..|].
    exists 6%nat, (-1), l3. split_and!; [rewrite !length_app; pose proof (numeral_length _ Ha); simpl; lia|by left|].
    eapply (reach_trans 2 4); [exact Hr1|]. eapply reach_S; [exact E2|]. eapply (reach_trans 2 1); [exact Hr3|].
    eexists. split; [|done]. rewrite (step_default _ _ _ _ _ _ _ 11) by done.
    apply (reduce_to 11 [19; 15; 8] s ss [YInt (atoi b); YNone; YInt (atoi a)]); side.
Qed.

Lemma reduce_abort n pre s ss vs v ch l o lim e :
  Z.to_nat (Z.shiftr (at_ yyr2 n) 1) = length pre -> length vs = length pre ->
  Z.even (at_ yyr2 n) = false ->
  action n (vs ++ v) (default YNone ((vs ++ v) !! (length pre - 1)%nat)) (Yacc (s :: ss) v ch l o lim e) = Some (inr tt) ->
  reduce n (Yacc (pre ++ s :: ss) (vs ++ v) ch l o lim e) =
    Some (Return 1 (Yacc (s :: ss) v ch (set_pushed [] l) o lim IDX_BOUND)).
Proof.
  intros Hlen Hv He Ha. unfold reduce. rewrite Hlen, He. cbn [yys yyv]. rewrite drop_app_length.
  rewrite <- Hv in Ha |- *. rewrite drop_app_length. cbv zeta. unfold set_stacks. cbn [yychar lx out_list out_limit idxerrno].
  by rewrite Ha.
Qed.

(** The parser stops with an error after at most [k] steps. *)
Definition fails (k : nat) (y : yacc) (errno : Z) : Prop :=
  exists n y1 y2, (n < k)%nat /\ reach n y y1 /\ yystep y1 = Some (Return 1 y2) /\
    idxerrno y2 = errno /\ pushed (lx y2) = [].

Lemma fails_reach n k y y' errno : reach n y y' -> fails k y' errno -> fails (n + k) y errno.
Proof.
  intros H (m & y1 & y2 & Hm & Hr & ?). exists (n + m)%nat, y1, y2. split; [lia|].
  split; [by eapply reach_trans|done].
Qed.

(** An index with its limits; the state behind it is 6. *)
Lemma read_index i s ss v l o lim e c r : index_ok i -> after_list s ->
  rest l = codes (index_text i) ++ c :: r -> c ∈ [44; 93] -> (length ss + 3 < YYMAXDEPTH)%nat ->
  let y := Yacc (s :: ss) v (-1) l o lim e in
  if bounded (index_value i) then
    exists n ch l', (n <= 4 * length (index_text i) + 1)%nat /\ sees ch l' c r /\
      reach n y (Yacc (6 :: s :: ss) (YIdx (index_value i) :: v) ch l' o lim e)
  else fails (4 * length (index_text i) + 1) y IDX_BOUND.
Proof.
  intros [Hg Hst] Hs Hr Hc Hlen.
  assert (c ∈ punctuation) as Hp by (unfold punctuation; set_solver).
  assert (c ∈ [44; 93; 58]) as Hc3 by set_solver.
  assert (goto_ 1 s = 6) as H1 by (destruct Hs as [->| ->]; done).
  assert (reduces 7 c 6 = true) as H2
    by (repeat (apply elem_of_cons in Hc as [->|Hc]; [done|]); by apply not_elem_of_nil in Hc).
  destruct i as [g [st|]]; unfold index_text, index_value in *; cbn [index_region index_step] in *.
  - rewrite !fmap_app, <- !app_assoc in Hr.
    destruct (read_region g s ss v l o lim e 58 (codes st ++ c :: r) Hg Hs Hr) as (n & ch & l1 & Hn & Hsee & Hr1);
      [by apply (bool_decide_eq_true_1 _)|done|].
    destruct (see_shift 7 (s :: ss) (YIdx (region_value g) :: v) ch l1 o lim e 58 (codes st ++ c :: r) 14 Hsee)
      as (l2 & E2 & Hl2); [side..|].
    destruct (read_icon 14 (7 :: s :: ss) (YNone :: YIdx (region_value g) :: v) l2 o lim e st c r 18 Hst Hl2 Hp)
      as (l3 & Hr3 & Hl3); [side..|].
    pose proof (numeral_length _ Hst) as Hst1.
    assert (reach (n + 3) (Yacc (s :: ss) v (-1) l o lim e)
              (Yacc (18 :: 14 :: 7 :: s :: ss) (YInt (atoi st) :: YNone :: YIdx (region_value g) :: v) (-1) l3 o lim e)) as Hreach.
    { eapply reach_trans; [exact Hr1|]. eapply reach_S; [exact E2|]. exact Hr3. }
    set (i := IdxList (il_start (region_value g)) (il_end (region_value g)) (atoi st)).
    assert (length (region_text g ++ lit ":" ++ st) = length (region_text g) + S (length st))%nat as ->
      by (by rewrite length_app).
    assert (yystep (Yacc (18 :: 14 :: 7 :: s :: ss) (YInt (atoi st) :: YNone :: YIdx (region_value g) :: v) (-1) l3 o lim e) =
      reduce 7 (Yacc ([18; 14; 7] ++ s :: ss) ([YInt (atoi st); YNone; YIdx (region_value g)] ++ v) (-1) l3 o lim e)) as Hstep
      by (by rewrite (step_default _ _ _ _ _ _ _ 7)).
    destruct (bounded i) eqn:Hb.
    + exists (n + 3 + 1)%nat, (-1), l3. split_and!; [lia|by left|].
      eapply reach_trans; [exact Hreach|]. eexists. split; [|done]. rewrite Hstep.
      apply reduce_to; try done; [|simpl; lia]. cbn. fold i. by rewrite Hb.
    + exists (n + 3)%nat. eexists. eexists. split_and!; [lia|exact Hreach| |..].
      * rewrite Hstep. apply reduce_abort; try done. cbn. fold i. by rewrite Hb.
      * done.
      * done.
  - rewrite app_nil_r in *.
    destruct (read_region g s ss v l o lim e c r Hg Hs Hr) as (n & ch & l1 & Hn & Hsee & Hr1); [done|done|].
    destruct (see_reduce 7 (s :: ss) (YIdx (region_value g) :: v) ch l1 o lim e c r 6 Hsee Hp H2) as (l2 & E2 & Hl2).
    set (i := IdxList (il_start (region_value g)) (il_end (region_value g)) 1).
    change (YIdx (region_value g) :: v) with ([YIdx (region_value g)] ++ v) in E2 at 2.
    change (7 :: s :: ss) with ([7] ++ s :: ss) in E2 at 2.
    destruct (bounded i) eqn:Hb.
    + exists (n + 1)%nat, c, l2. split_and!; [lia|by right|].
      eapply reach_trans; [exact Hr1|]. eexists. split; [|done]. rewrite E2.
      apply reduce_to; try done; [|simpl; lia]. cbn. fold i. by rewrite Hb.
    + exists n. eexists. eexists. split_and!; [lia|exact Hr1| |..].
      * rewrite E2. apply reduce_abort; try done. cbn. fold i. by rewrite Hb.
      * done.
      * done.
Qed.

Lemma indices_cons i l : l <> [] -> indices_text (i :: l) = index_text i ++ lit "," ++ indices_text l.
Proof. by destruct l. Qed.

Lemma read_indices il : forall s ss v l o lim e r, il <> [] -> Forall index_ok il -> after_list s ->
  rest l = codes (indices_text il) ++ 93 :: r -> (length ss + 2 * length il + 1 < YYMAXDEPTH)%nat ->
  let y := Yacc (s :: ss) v (-1) l o lim e in
  if forallb bounded (index_value <$> il) then
    exists n l', (n <= 4 * length (indices_text il) + 3)%nat /\ rest l' = r /\
      reach n y (Yacc (goto_ 3 s :: s :: ss) (YPtr (index_value <$> il) :: v) 93 l' o lim e)
  else fails (4 * length (indices_text il) + 3) y IDX_BOUND.
Proof.
  induction il as [|i il IH]; [done|].
  intros s ss v l o lim e r _ Hok Hs Hr Hlen. apply Forall_cons in Hok as [Hi Hok]. cbv zeta.
  destruct (decide (il = [])) as [->|Hne].
  - cbn [indices_text] in *. rewrite fmap_cons. cbn [fmap list_fmap forallb]. rewrite andb_true_r.
    pose proof (read_index i s ss v l o lim e 93 r Hi Hs Hr) as H. cbv zeta in H.
    destruct (bounded (index_value i)).
    + destruct H as (n & ch & l1 & Hn & Hsee & Hr1); [side..|].
      destruct (see_reduce 6 (s :: ss) (YIdx (index_value i) :: v) ch l1 o lim e 93 r 4 Hsee) as (l2 & E2 & Hl2); [side..|].
      exists (n + 1)%nat, l2. split_and!; [lia|done|]. eapply reach_trans; [exact Hr1|]. eexists. split; [|done].
      rewrite E2. apply (reduce_to 4 [6] s ss [YIdx (index_value i)]); side.
    + destruct H as (n & y1 & y2 & Hn & ?); [side..|]. exists n, y1, y2. split; [lia|done].
  - rewrite (indices_cons _ _ Hne) in *. rewrite !fmap_app, <- !app_assoc in Hr.
    rewrite fmap_cons. cbn [forallb].
    assert (length (index_text i ++ lit "," ++ indices_text il) = length (index_text i) + S (length (indices_text il)))%nat as ->
      by (by rewrite length_app).
    pose proof (read_index i s ss v l o lim e 44 (codes (indices_text il) ++ 93 :: r) Hi Hs Hr) as H. cbv zeta in H.
    destruct (bounded (index_value i)); cbn [andb].
    2: { destruct H as (n & y1 & y2 & Hn & ?); [side|simpl in Hlen; lia|]. exists n, y1, y2. split; [lia|done]. }
    destruct H as (n & ch & l1 & Hn & Hsee & Hr1); [side|simpl in Hlen; lia|].
    assert (1 <= length il)%nat by (destruct il; [done|simpl; lia]).
    destruct (see_shift 6 (s :: ss) (YIdx (index_value i) :: v) ch l1 o lim e 44 (codes (indices_text il) ++ 93 :: r) 13 Hsee)
      as (l2 & E2 & Hl2); [side..|].
    assert (reach (n + 1) (Yacc (s :: ss) v (-1) l o lim e)
              (Yacc (13 :: 6 :: s :: ss) (YNone :: YIdx (index_value i) :: v) (-1) l2 o lim e)) as Hreach.
    { eapply reach_trans; [exact Hr1|]. by eapply reach_S. }
    pose proof (IH 13 (6 :: s :: ss) (YNone :: YIdx (index_value i) :: v) l2 o lim e r Hne Hok (or_intror eq_refl) Hl2) as HI.
    cbv zeta in HI. destruct (forallb bounded (index_value <$> il)).
    + destruct HI as (n2 & l3 & Hn2 & Hl3 & Hr3); [simpl in *; lia|].
      exists (n + 1 + (n2 + 1))%nat, l3. split_and!; [lia|done|].
      eapply reach_trans; [exact Hreach|]. eapply reach_trans; [exact Hr3|]. eexists. split; [|done].
      rewrite (step_default _ _ _ _ _ _ _ 5) by done.
      apply (reduce_to 5 [goto_ 3 13; 13; 6] s ss [YPtr (index_value <$> il); YNone; YIdx (index_value i)]); try done.
      simpl in *. lia.
    + pose proof (fails_reach _ _ _ _ _ Hreach (HI ltac:(simpl in *; lia))) as (m & y1 & y2 & Hm & ?).
      exists m, y1, y2. split; [lia|done].
Qed.

(** The text behind the list, from the state behind its bracket. *)
Definition limit_value (limit : option cstr) (lim : Z) : Z :=
  match limit with Some n => atoi n | None => lim end.

Lemma read_limit limit v l o lim e il r : match limit with Some n => numeral n | None => True end ->
  rest l = codes (match limit with Some n => lit "%" ++ n | None => [] end) ++ r -> r = [] ->
  exists n y1 y2, (n <= 6)%nat /\ reach n (Yacc [2; 0] (YPtr il :: v) (-1) l o lim e) y1 /\
    yystep y1 = Some (Return 0 y2) /\ out_list y2 = il /\ out_limit y2 = limit_value limit lim /\
    idxerrno y2 = e /\ pushed (lx y2) = [].
Proof.
  intros Hn Hr ->. rewrite app_nil_r in Hr. destruct limit as [n|].
  - rewrite fmap_app in Hr.
    destruct (see_shift 2 [0] (YPtr il :: v) (-1) l o lim e 37 (codes n) 4) as (l1 & E1 & Hl1);
      [exact (or_introl (conj eq_refl Hr))|side..|].
    destruct Hn as (Hne & Hd & Hlen).
    destruct (lex_number l1 (codes n) []) as (l2 & Hlex & Hend & Ht);
      [by destruct n|by apply Forall_fmap|by rewrite length_fmap|by rewrite app_nil_r|done|].
    destruct (lex_end l2 Hend) as (l3 & Hlex3 & Hp3 & _).
    eexists 4%nat, _, _. split; [lia|]. split.
    { eapply reach_S; [exact E1|]. eapply reach_S; [apply (step_shift _ _ _ _ _ _ _ _ _ 10 Hlex); side|].
      eapply reach_S; [rewrite (step_default _ _ _ _ _ _ _ 12) by done; apply (reduce_to 12 [10] 4 [2; 0] [YNone]); side|].
      eapply reach_S; [|reflexivity].
      rewrite (step_default _ _ _ _ _ _ _ 2) by done.
      apply (reduce_to 2 [11; 4; 2] 0 [] [_; YNone; YPtr il] v _ _ _ _ _ il (atoi (token l2))); side. }
    unfold yystep, yydefault, lookahead. cbn [top yys]. change (at_ yypact (goto_ 6 0) <=? YYFLAG) with true.
    change (at_ yydef (goto_ 6 0) =? -2) with true. cbn [yychar lx]. change (-1 <? 0) with true. rewrite Hlex3.
    cbn [mbind option_bind]. split; [reflexivity|]. cbn [set_char out_list out_limit idxerrno lx].
    split_and!; try done. simpl. by rewrite Ht, chr_codes.
  - destruct (lex_end l) as (l1 & Hlex & Hp1 & _); [by left|].
    eexists 1%nat, _, _. split; [lia|]. split.
    { eapply reach_S; [|reflexivity]. rewrite (step_reduce _ _ _ _ _ _ _ _ _ 1 Hlex) by done.
      apply (reduce_to 1 [2] 0 [] [YPtr il] v _ _ _ _ _ il lim); side. }
    split; [reflexivity|]. by split_and!.
Qed.

Lemma run_return n k y y1 y2 code : reach n y y1 -> yystep y1 = Some (Return code y2) -> (n < k)%nat ->
  yyrun k y = Some (code, y2).
Proof.
  intros H E Hk. replace k with (n + S (k - n - 1))%nat by lia. rewrite (reach_run _ _ _ _ H).
  simpl. by rewrite E.
Qed.

Lemma idxparse_spec il limit prev tok lim e : il <> [] -> Forall index_ok il ->
  match limit with Some n => numeral n | None => True end -> (length il <= 73)%nat ->
  let l := Lexer [] (spec_text il limit) prev tok in
  exists y, pushed (lx y) = [] /\
    if forallb bounded (index_value <$> il) then
      idxparse l lim e = Some (0, y) /\ out_list y = index_value <$> il /\
      out_limit y = limit_value limit lim /\ idxerrno y = e
    else idxparse l lim e = Some (1, y) /\ idxerrno y = IDX_BOUND.
Proof.
  intros Hne Hok Hlim Hlen l.
  set (tail := match limit with Some n => lit "%" ++ n | None => [] end) in *.
  assert (rest l = 91 :: codes (indices_text il) ++ 93 :: codes tail) as Hr.
  { unfold l, rest, spec_text. fold tail. cbn [pushed yybuff app]. by rewrite !fmap_app. }
  destruct (lex_char l 91 _ ltac:(side) Hr) as (l1 & Hl1 & Hr1 & _).
  assert (yystep (Yacc [0] [YNone] (-1) l [] lim e) = Some (More (Yacc [3; 0] [YNone; YNone] (-1) l1 [] lim e))) as H1.
  { apply (step_shift 0 [] [YNone] _ _ _ _ 91); side. }
  assert (length (yybuff l) = length (indices_text il) + S (S (length tail)))%nat as Hsz.
  { unfold l, spec_text. fold tail. cbn [yybuff]. rewrite !length_app. simpl. lia. }
  unfold idxparse. rewrite push_ok by (simpl; unfold YYMAXDEPTH; lia). cbn [yys yyv yychar lx out_list out_limit idxerrno].
  assert (pushed l = []) as -> by done. cbn [length]. rewrite Hsz.
  pose proof (read_indices il 3 [0] [YNone; YNone] l1 [] lim e (codes tail) Hne Hok (or_introl eq_refl) Hr1) as H2.
  cbv zeta in H2. destruct (forallb bounded (index_value <$> il)).
  - destruct H2 as (n & l2 & Hn & Hr2 & Hreach); [simpl; unfold YYMAXDEPTH; lia|].
    assert (reach 2 (Yacc [goto_ 3 3; 3; 0] [YPtr (index_value <$> il); YNone; YNone] 93 l2 [] lim e)
              (Yacc [2; 0] [YPtr (index_value <$> il); YNone] (-1) l2 [] lim e)) as H3.
    { eapply reach_S; [apply (step_shift_known _ _ _ _ _ _ _ 93 12); side|].
      eapply reach_S; [|reflexivity]. rewrite (step_default _ _ _ _ _ _ _ 3) by done.
      apply (reduce_to 3 [12; 5; 3] 0 [] [YNone; YPtr (index_value <$> il); YNone]); side. }
    destruct (read_limit limit [YNone] l2 [] lim e (index_value <$> il) [] Hlim) as (m & y1 & y2 & Hm & H4 & H5 & H6);
      [by rewrite app_nil_r|done|].
    exists y2. split; [tauto|]. split; [|tauto].
    eapply (run_return (1 + (n + (2 + m)))); [|exact H5|lia].
    eapply reach_S; [exact H1|]. eapply reach_trans; [exact Hreach|]. eapply reach_trans; [exact H3|exact H4].
  - destruct H2 as (n & y1 & y2 & Hn & H3 & H4 & H5 & H6); [simpl; unfold YYMAXDEPTH; lia|].
    exists y2. split; [done|]. split; [|done].
    eapply (run_return (1 + n)); [|exact H4|lia]. by eapply reach_S.
Qed.
