(* ===== verification/JobArray.v ===== *)
(** * Job arrays (mbd.jarray.c): index lists and lists of job numbers

    [parseJobArrayIndex] reads the index list at the end of a job name and checks
    it against the limits; [getJobIdList] does the same for a job number such as
    [200[1-10:2]] and lists the numbers of the elements.

    A NULL list is the empty list, which the parser never makes.  [None] stands for
    an access out of bounds, or a loop that needs more rounds than [fuel]. *)

From S2P Require Import Prelude CLib CalLex JobIndex.
From S2P Require Import DepCond JobId.

(** ** State

    What the analyser and the parser keep from one call to the next, and
    [idxerrno]. *)
Record parser_state := ParserState { ps_lx : lexer; ps_errno : Z }.

Definition IDX_MEM : Z := 2.
Definition LSBE_BAD_JOB : Z := 42.
Definition LSBE_NO_MEM : Z := 52.
Definition LSBE_BAD_IDX : Z := 97.
Definition LSBE_BIG_IDX : Z := 98.
Definition LSBE_BAD_JOBID : Z := 102.

(** The list, [*error], [*maxJLimit] ([None] when it is not written), and the state. *)
Record array_index := ArrayIndex {
  ai_list : list idxList; ai_error : Z; ai_limit : option Z; ai_state : parser_state }.

(** ** Checks of the parsed list *)

Section Params.
(** [mSchedStage == M_STAGE_REPLAY], and MAX_JOB_ARRAY_SIZE of lsb.params. *)
Context (replay : bool) (maxJobArraySize : Z).

(** The end of an open range. *)
Definition close_idx (idx : idxList) : idxList :=
  if il_end idx =? INFINIT_INT
  then IdxList (il_start idx)
         (int32 (il_start idx + int32 (int32 (maxJobArraySize - 1) * il_step idx))) (il_step idx)
  else idx.

(** The body of the loop, on the error and [arraySize]. *)
Definition check_idx (idx : idxList) (error arraySize : Z) : option (idxList * Z * Z) :=
  let error := if (il_start idx <? 1) || (il_step idx <? 1) then LSBE_BAD_IDX else error in
  let idx := close_idx idx in
  let error := if il_end idx <? il_start idx then LSBE_BAD_IDX else error in
  let error := if negb replay && (LSB_MAX_ARRAY_IDX <=? il_end idx) then LSBE_BIG_IDX else error in
  if il_step idx =? 0 then None
  else Some (idx, error, int32 (arraySize + int32 (Z.quot (int32 (il_end idx - il_start idx)) (il_step idx) + 1))).

Fixpoint check_loop (l : list idxList) (error arraySize : Z) : option (list idxList * Z * Z) :=
  match l with
  | [] => Some ([], error, arraySize)
  | idx :: l =>
      '(idx, error, arraySize) ← check_idx idx error arraySize;
      '(l, error, arraySize) ← check_loop l error arraySize;
      Some (idx :: l, error, arraySize)
  end.

Definition parseJobArrayIndex (ps : parser_state) (job_name : cstr) : option array_index :=
  match strchr job_name "["%char with
  | None => Some (ArrayIndex [] LSBE_NO_ERROR None ps)
  | Some index =>
      let lx := Lexer (pushed (ps_lx ps)) index (yyprevious (ps_lx ps)) (token (ps_lx ps)) in
      '(code, y) ← idxparse lx INFINIT_INT (ps_errno ps);
      let ps := ParserState (JobIndex.lx y) (idxerrno y) in
      if code =? 0 then
        '(l, error, arraySize) ← check_loop (out_list y) LSBE_NO_ERROR 0;
        let error := if negb replay && (maxJobArraySize <? arraySize) then LSBE_BIG_IDX else error in
        Some (ArrayIndex (if error =? LSBE_NO_ERROR then l else []) error (Some (out_limit y)) ps)
      else
        Some (ArrayIndex [] (if idxerrno y =? IDX_MEM then LSBE_NO_MEM else LSBE_BAD_JOB)
                (Some (out_limit y)) ps)
  end.

(** [arrayIdxList] while a condition is parsed: [setIdxListContext] makes it,
    [getIdxListContext] reads it, [freeIdxListContext] clears it. *)
Definition setIdxListContext (ps : parser_state) (jobName : cstr) : option (list idxList * parser_state) :=
  r ← parseJobArrayIndex ps jobName; Some (ai_list r, ai_state r).
Definition freeIdxListContext (arrayIdxList : list idxList) : list idxList := [].

(** ** Job numbers *)

(** The error, [*outJobId] when it is written, and [*idxListP]. *)
Definition getJobIdIndexList (ps : parser_state) (jobIdStr : cstr)
    : option (Z * option Z * list idxList * parser_state) :=
  match strchr jobIdStr "["%char with
  | None =>
      let jobId := atoi jobIdStr in
      if negb (isint_ jobIdStr) || (jobId <? 0) then Some (LSBE_BAD_JOBID, None, [], ps)
      else Some (LSBE_NO_ERROR, Some jobId, [], ps)
  | Some startP =>
      let prefix := take (length jobIdStr - length startP) jobIdStr in
      let jobId := atoi prefix in
      if negb (isint_ prefix) || (jobId <=? 0) || (LSB_MAX_ARRAY_JOBID <? uint32 jobId)
      then Some (LSBE_BAD_JOBID, None, [], ps)
      else
        r ← parseJobArrayIndex ps jobIdStr;
        match ai_list r with
        | [] => Some (ai_error r, Some jobId, [], ai_state r)
        | l => Some (LSBE_NO_ERROR, Some jobId, l, ai_state r)
        end
  end.

(** [for (i = first; i <= last; i += step)] on an [int]. *)
Fixpoint for_range {S} (fuel : nat) (i last step : Z) (body : Z -> S -> option S) (s : S) : option S :=
  match fuel with
  | O => None
  | S fuel =>
      if last <? i then Some s
      else s ← body i s; for_range fuel (int32 (i + step)) last step body s
  end.

(** The loop over the ranges of a list. *)
Fixpoint for_list {S} (fuel : nat) (l : list idxList) (body : Z -> S -> option S) (s : S) : option S :=
  match l with
  | [] => Some s
  | idx :: l => s ← for_range fuel (il_start idx) (il_end idx) (il_step idx) body s; for_list fuel l body s
  end.

(** [jobIds[]]: a number is added once. *)
Definition add_id (jobId j : Z) (jobIds : list Z) : option (list Z) :=
  let lsbJobId := LSB_JOBID jobId j in
  Some (if bool_decide (lsbJobId ∈ jobIds) then jobIds else jobIds ++ [lsbJobId]).

(** The error and the numbers. *)
Definition getJobIdList (fuel : nat) (ps : parser_state) (jobIdStr : cstr)
    : option (Z * list Z * parser_state) :=
  '(errCode, jobId, idxListP, ps) ← getJobIdIndexList ps jobIdStr;
  if negb (errCode =? LSBE_NO_ERROR) then Some (errCode, [], ps)
  else
    jobId ← jobId;
    if jobId <=? 0 then Some (LSBE_BAD_JOBID, [], ps)
    else match idxListP with
         | [] => Some (LSBE_NO_ERROR, [jobId], ps)
         | l => jobIds ← for_list fuel l (add_id jobId) []; Some (LSBE_NO_ERROR, jobIds, ps)
         end.
End Params.

(** ** The elements of a list *)

(** The indices of a range, and of a list. *)
Definition range_size (idx : idxList) : Z := (il_end idx - il_start idx) / il_step idx + 1.
Definition elements (idx : idxList) : list Z :=
  (fun k => il_start idx + k * il_step idx) <$> seqZ 0 (range_size idx).
Definition all_elements (l : list idxList) : list Z := l ≫= elements.

(** A range that is accepted when a job is submitted, and one whose loop does not
    overflow. *)
Definition fits (idx : idxList) : Prop :=
  1 <= il_start idx <= il_end idx /\ il_end idx < LSB_MAX_ARRAY_IDX /\ 1 <= il_step idx.
Definition no_overflow (idx : idxList) : Prop := il_end idx + il_step idx < 2 ^ 31.

Fixpoint iterM {S} (body : Z -> S -> option S) (l : list Z) (s : S) : option S :=
  match l with [] => Some s | i :: l => s ← body i s; iterM body l s end.

Lemma iterM_app {S} (body : Z -> S -> option S) l1 l2 s :
  iterM body (l1 ++ l2) s = s ← iterM body l1 s; iterM body l2 s.
Proof.
  revert s. induction l1 as [|i l1 IH]; intros s; [done|]. cbn [app iterM].
  destruct (body i s) as [s'|]; [|done]. simpl. apply IH.
Qed.

(** The loop of a range: [n] rounds from [i]. *)
Lemma for_range_iter {S} (body : Z -> S -> option S) last step : 1 <= step -> last + step < 2 ^ 31 ->
  forall n fuel i s, - 2 ^ 31 <= i -> last < i + Z.of_nat n * step ->
    (n = 0%nat \/ i + (Z.of_nat n - 1) * step <= last) -> (n < fuel)%nat ->
    for_range fuel i last step body s = iterM body ((fun k => i + k * step) <$> seqZ 0 (Z.of_nat n)) s.
Proof.
  intros Hstep Hov. induction n as [|n IH]; intros fuel i s Hi Hlast Hn Hf; (destruct fuel; [lia|]).
  - simpl. rewrite (proj2 (Z.ltb_lt last i)) by lia. done.
  - destruct Hn as [?|Hn]; [done|]. cbn [for_range]. rewrite (proj2 (Z.ltb_ge last i)) by nia.
    rewrite seqZ_cons by lia. cbn [fmap list_fmap iterM]. rewrite Z.add_0_r.
    destruct (body i s) as [s'|]; [|done]. cbn [mbind option_bind].
    assert (int32 (i + step) = i + step) as -> by (apply sint_of_id; [lia|unfold in_sint; nia]).
    rewrite IH by (try (destruct n; [left; done|right]); nia).
    replace (Z.pred (Z.of_nat (Datatypes.S n))) with (Z.of_nat n) by lia.
    rewrite <- (fmap_add_seqZ 1 0), <- list_fmap_compose. f_equal.
    apply list_fmap_ext. intros k x _. simpl. lia.
Qed.

Lemma for_range_elements {S} (body : Z -> S -> option S) idx fuel s : fits idx -> no_overflow idx ->
  (Z.to_nat LSB_MAX_ARRAY_IDX < fuel)%nat ->
  for_range fuel (il_start idx) (il_end idx) (il_step idx) body s = iterM body (elements idx) s.
Proof.
  unfold fits, no_overflow, elements, range_size. intros (Hs & He & Hst) Hov Hf.
  pose proof (Z.div_mod (il_end idx - il_start idx) (il_step idx) ltac:(lia)) as Hd.
  pose proof (Z.mod_pos_bound (il_end idx - il_start idx) (il_step idx) ltac:(lia)) as Hm.
  set (q := (il_end idx - il_start idx) / il_step idx) in *.
  assert (0 <= q < LSB_MAX_ARRAY_IDX) as Hq by nia.
  rewrite (for_range_iter _ _ _ Hst Hov (Z.to_nat (q + 1))).
  - do 2 f_equal. f_equal. lia.
  - lia.
  - rewrite Z2Nat.id by lia. nia.
  - right. rewrite Z2Nat.id by lia. nia.
  - unfold LSB_MAX_ARRAY_IDX in *. lia.
Qed.

(** The loop over a list ends, and visits the elements in their order. *)
Lemma for_list_elements {S} (body : Z -> S -> option S) l fuel : Forall fits l -> Forall no_overflow l ->
  (Z.to_nat LSB_MAX_ARRAY_IDX < fuel)%nat -> forall s, for_list fuel l body s = iterM body (all_elements l) s.
Proof.
  intros Hl Ho Hf. induction l as [|idx l IH]; intros s; [done|].
  apply Forall_cons in Hl as [Hi Hl]. apply Forall_cons in Ho as [Hoi Ho].
  unfold all_elements. cbn [for_list mbind list_bind]. rewrite iterM_app, for_range_elements by done.
  destruct (iterM body (elements idx) s) as [s'|]; [|done]. simpl. by apply IH.
Qed.

Lemma elements_range idx j : fits idx -> j ∈ elements idx -> il_start idx <= j <= il_end idx.
Proof.
  intros (Hs & He & Hst). unfold elements, range_size. rewrite list_elem_of_fmap.
  intros (k & -> & Hk%elem_of_seqZ).
  pose proof (Z.div_mod (il_end idx - il_start idx) (il_step idx) ltac:(lia)) as Hd.
  pose proof (Z.mod_pos_bound (il_end idx - il_start idx) (il_step idx) ltac:(lia)) as Hm. nia.
Qed.

(** The elements of a range are the indices that [inIdxList] selects. *)
Lemma elements_iff idx j : fits idx -> j ∈ elements idx <->
  il_start idx <= j <= il_end idx /\ (j - il_start idx) mod il_step idx = 0.
Proof.
  intros H. split.
  - intros Hj. split; [by apply elements_range|]. revert Hj. unfold elements. rewrite list_elem_of_fmap.
    intros (k & -> & _). replace (il_start idx + k * il_step idx - il_start idx) with (k * il_step idx) by lia.
    apply Z.mod_mul. destruct H. lia.
  - destruct H as (Hs & He & Hst). intros [Hj Hm]. unfold elements, range_size. rewrite list_elem_of_fmap.
    exists ((j - il_start idx) / il_step idx).
    pose proof (Z.div_mod (j - il_start idx) (il_step idx) ltac:(lia)) as Hd.
    split; [lia|]. apply elem_of_seqZ. split; [apply Z.div_pos; lia|].
    pose proof (Z.div_le_mono (j - il_start idx) (il_end idx - il_start idx) (il_step idx)). lia.
Qed.

Lemma all_elements_range l j : Forall fits l -> j ∈ all_elements l -> 1 <= j < LSB_MAX_ARRAY_IDX.
Proof.
  intros Hl. unfold all_elements. rewrite list_elem_of_bind. intros (idx & Hj & Hin).
  pose proof (Forall_forall fits l) as HF. rewrite HF in Hl. pose proof (Hl idx Hin) as Hfit.
  pose proof (elements_range idx j Hfit Hj). destruct Hfit as (? & ? & ?). lia.
Qed.

(** ** The checks *)

#[export] Instance fits_dec idx : Decision (fits idx).
Proof. unfold fits. apply _. Defined.

Definition total_size (l : list idxList) : Z := foldr (fun idx n => range_size idx + n) 0 l.

Lemma range_size_bounds idx : fits idx -> 1 <= range_size idx <= LSB_MAX_ARRAY_IDX.
Proof.
  intros (? & ? & ?). unfold range_size, LSB_MAX_ARRAY_IDX in *.
  pose proof (Z.div_pos (il_end idx - il_start idx) (il_step idx)).
  pose proof (Z.div_le_upper_bound (il_end idx - il_start idx) (il_step idx) (il_end idx - il_start idx)).
  nia.
Qed.

Lemma total_size_bounds l : Forall fits l ->
  Z.of_nat (length l) <= total_size l <= LSB_MAX_ARRAY_IDX * Z.of_nat (length l).
Proof.
  induction 1 as [|idx l Hi _ IH]; [unfold LSB_MAX_ARRAY_IDX; simpl; lia|].
  pose proof (range_size_bounds _ Hi). cbn [total_size foldr length]. fold (total_size l).
  rewrite Nat2Z.inj_succ. unfold LSB_MAX_ARRAY_IDX in *. lia.
Qed.

Lemma int32_small z : 0 <= z < 2 ^ 31 -> int32 z = z.
Proof. intros. apply sint_of_id; [lia|]. unfold in_sint. lia. Qed.

Lemma int32_add_l a b : int32 (int32 a + b) = int32 (a + b).
Proof.
  unfold sint_of at 1 3. f_equal. unfold sint_of.
  replace ((a + 2 ^ (32 - 1)) mod 2 ^ 32 - 2 ^ (32 - 1) + b + 2 ^ (32 - 1))
    with ((a + 2 ^ (32 - 1)) mod 2 ^ 32 + b) by lia.
  rewrite Z.add_mod_idemp_l by lia. f_equal. lia.
Qed.

Lemma int32_idem a : int32 (int32 a) = int32 a.
Proof. apply sint_of_id; auto with lava zarith. Qed.

Lemma size_computed idx : fits idx ->
  int32 (Z.quot (int32 (il_end idx - il_start idx)) (il_step idx) + 1) = range_size idx.
Proof.
  intros H. pose proof (range_size_bounds _ H). destruct H as (? & ? & ?). unfold LSB_MAX_ARRAY_IDX in *.
  rewrite (int32_small (il_end idx - il_start idx)) by lia. rewrite Z.quot_div_nonneg by lia.
  fold (range_size idx). apply int32_small. lia.
Qed.

Section Checks.
Context (maxJobArraySize : Z).
Local Notation check_idx := (check_idx false maxJobArraySize).
Local Notation check_loop := (check_loop false maxJobArraySize).
Local Notation close_idx := (close_idx maxJobArraySize).

Lemma close_idx_ends idx : il_start (close_idx idx) = il_start idx /\ il_step (close_idx idx) = il_step idx.
Proof. unfold JobArray.close_idx. by destruct (_ =? _). Qed.

(** The error is one of the index errors, and is set unless the range fits. *)
Lemma check_idx_spec idx e a : il_step idx <> 0 ->
  exists e' a', check_idx idx e a = Some (close_idx idx, e', a') /\ (e' = e \/ e' = LSBE_BAD_IDX \/ e' = LSBE_BIG_IDX) /\
    (fits (close_idx idx) -> e' = e /\ a' = int32 (a + range_size (close_idx idx))) /\
    (e' = LSBE_NO_ERROR -> e = LSBE_NO_ERROR /\ fits (close_idx idx)).
Proof.
  intros Hs. destruct (close_idx_ends idx) as [E1 E2]. unfold JobArray.check_idx.
  rewrite E2, (proj2 (Z.eqb_neq _ _) Hs). cbn [negb andb]. eexists _, _. split; [reflexivity|].
  unfold fits. rewrite E1, E2. unfold LSBE_BAD_IDX, LSBE_BIG_IDX, DepCond.LSBE_NO_ERROR.
  split_and!.
  - case_ifs; tauto.
  - intros Hf. split.
    + destruct Hf as (? & ? & ?).
      rewrite !(proj2 (Z.ltb_ge _ _)), (proj2 (Z.leb_gt _ _)) by lia. done.
    + rewrite <- E1, <- E2 in Hf |- *. do 2 f_equal. by apply size_computed.
  - intros He. destruct (LSB_MAX_ARRAY_IDX <=? _) eqn:?; [done|].
    destruct (il_end _ <? _) eqn:?; [done|]. destruct ((il_start idx <? 1) || _) eqn:?; [done|]. breflect. lia.
Qed.

Lemma check_loop_spec l : Forall (fun idx => il_step idx <> 0) l -> forall e a,
  exists e' a', check_loop l e a = Some (close_idx <$> l, e', a') /\ (e' = e \/ e' = LSBE_BAD_IDX \/ e' = LSBE_BIG_IDX) /\
    (int32 a = a -> Forall fits (close_idx <$> l) -> e' = e /\ a' = int32 (a + total_size (close_idx <$> l))) /\
    (e' = LSBE_NO_ERROR -> e = LSBE_NO_ERROR /\ Forall fits (close_idx <$> l)).
Proof.
  induction 1 as [|idx l Hs _ IH]; intros e a.
  - exists e, a. cbn [JobArray.check_loop fmap list_fmap total_size foldr]. split; [done|]. split; [by left|]. split; [|done].
    intros Ha _. by rewrite Z.add_0_r.
  - destruct (check_idx_spec idx e a Hs) as (e1 & a1 & E1 & Hor1 & Hf1 & Hn1).
    destruct (IH e1 a1) as (e2 & a2 & E2 & Hor2 & Hf2 & Hn2).
    exists e2, a2. cbn [JobArray.check_loop]. rewrite E1. cbn [mbind option_bind]. rewrite E2. split; [done|].
    split; [destruct Hor2 as [->| [->| ->]]; tauto|]. cbn [fmap list_fmap].
    rewrite Forall_cons. split.
    + intros _ [Hi Hl]. destruct (Hf1 Hi) as [-> ->]. destruct (Hf2 (int32_idem _) Hl) as [-> ->]. split; [done|].
      rewrite int32_add_l. f_equal. cbn [total_size foldr]. fold (total_size (close_idx <$> l)). lia.
    + intros He. destruct (Hn2 He) as [He1 Hl]. destruct (Hn1 He1) as [He0 Hi]. done.
Qed.

Lemma check_loop_steps l l' e a e' a' : check_loop l e a = Some (l', e', a') -> Forall (fun idx => il_step idx <> 0) l.
Proof.
  revert l' e a e' a'. induction l as [|idx l IH]; intros l' e a e' a'; [constructor|]. cbn [JobArray.check_loop].
  destruct (check_idx idx e a) as [[[idx1 e1] a1]|] eqn:E; [|done]. cbn [mbind option_bind].
  destruct (check_loop l e1 a1) as [[[l1 e2] a2]|] eqn:E2; [|done]. intros _. constructor; [|by eapply IH].
  unfold JobArray.check_idx in E. rewrite (proj2 (close_idx_ends idx)) in E.
  by destruct (Z.eqb_spec (il_step idx) 0).
Qed.

Definition accepts (l : list idxList) : Prop := Forall fits l /\ total_size l <= maxJobArraySize.
End Checks.

#[export] Instance accepts_dec max l : Decision (accepts max l).
Proof. unfold accepts. apply _. Defined.

Lemma strchr_app pre s c : strchr pre c = None -> strchr (pre ++ s) c = strchr s c.
Proof. induction pre as [|a pre IH]; [done|]. simpl. by destruct (ch_eqb a c). Qed.

Lemma bounded_step l : forallb bounded l = true -> Forall (fun idx => il_step idx <> 0) l.
Proof.
  intros H. apply Forall_forall. intros idx Hin. rewrite forallb_forall in H.
  pose proof (H idx (proj1 (list_elem_of_In _ _) Hin)) as Hb. unfold bounded in Hb. breflect. lia.
Qed.

(** ** The index list of a job name *)

(** The result for a list of ranges that the parser returns. *)
Definition checked (maxJobArraySize : Z) (il : list index) (limit : option cstr) (r : array_index) : Prop :=
  let l := close_idx maxJobArraySize <$> (index_value <$> il) in
  pushed (ps_lx (ai_state r)) = [] /\
  if forallb bounded (index_value <$> il) then
    if decide (accepts maxJobArraySize l) then
      ai_list r = l /\ ai_error r = LSBE_NO_ERROR /\ ai_limit r = Some (limit_value limit INFINIT_INT)
    else ai_list r = [] /\ (ai_error r = LSBE_BAD_IDX \/ ai_error r = LSBE_BIG_IDX)
  else ai_list r = [] /\ ai_error r = LSBE_BAD_JOB.

Lemma parse_checked maxJobArraySize ps pre il limit : strchr pre "["%char = None -> il <> [] ->
  Forall index_ok il -> match limit with Some n => numeral n | None => True end -> (length il <= 73)%nat ->
  pushed (ps_lx ps) = [] ->
  exists r, parseJobArrayIndex false maxJobArraySize ps (pre ++ spec_text il limit) = Some r /\
    checked maxJobArraySize il limit r.
Proof.
  intros Hpre Hne Hok Hlim Hlen Hp. unfold parseJobArrayIndex, checked.
  set (l := close_idx maxJobArraySize <$> (index_value <$> il)).
  rewrite strchr_app by done. change (strchr (spec_text il limit) "["%char) with (Some (spec_text il limit)).
  cbv iota. rewrite Hp.
  destruct (idxparse_spec il limit (yyprevious (ps_lx ps)) (token (ps_lx ps)) INFINIT_INT (ps_errno ps) Hne Hok Hlim Hlen)
    as (y & Hpy & Hy).
  destruct (forallb bounded (index_value <$> il)) eqn:Hb.
  - destruct Hy as (-> & Ho & Hl & _). cbn [mbind option_bind]. change (0 =? 0) with true. cbv iota. rewrite Ho.
    destruct (check_loop_spec maxJobArraySize _ (bounded_step _ Hb) LSBE_NO_ERROR 0) as (e' & a' & -> & Hor & Hf & Hn).
    cbn [mbind option_bind negb andb]. fold l in Hf, Hn |- *. eexists. split; [reflexivity|]. cbn [ai_list ai_error ai_limit ai_state ps_lx].
    split; [done|]. rewrite Hl. unfold accepts. destruct (decide (Forall fits l)) as [Hfit|Hfit].
    + destruct (Hf eq_refl Hfit) as [-> ->]. pose proof (total_size_bounds l Hfit) as Ht.
      assert (length l = length il) as Hll by (unfold l; by rewrite !length_fmap).
      unfold LSB_MAX_ARRAY_IDX in Ht. rewrite int32_small by lia. rewrite Z.add_0_l.
      destruct (decide _) as [[_ Hs]|Hs].
      * by rewrite (proj2 (Z.ltb_ge _ _)) by done.
      * rewrite (proj2 (Z.ltb_lt _ _)) by (apply Z.nle_gt; tauto). by auto.
    + destruct (decide _) as [[? _]|_]; [done|].
      assert (e' <> LSBE_NO_ERROR) as He by tauto.
      destruct (maxJobArraySize <? a'); [by auto|]. rewrite (proj2 (Z.eqb_neq _ _) He). tauto.
  - destruct Hy as [-> He]. cbn [mbind option_bind]. change (1 =? 0) with false. cbv iota.
    eexists. split; [reflexivity|]. cbn. rewrite He. done.
Qed.

(** C17: A job name that ends in an index list of the
    grammar, of at most 73 ranges, is read: when every number makes sense, every
    range, the open ones closed at MAX_JOB_ARRAY_SIZE elements, lies between 1 and
    the largest index (65534), and there are at most MAX_JOB_ARRAY_SIZE elements, the result
    is the ranges in their order and the limit behind the %; else it is NULL with
    LSBE_BAD_JOB, LSBE_BAD_IDX or LSBE_BIG_IDX. The analyser is left ready for the
    next name. lsb.params(5) calls MAX_JOB_ARRAY_SIZE the maximum index value; the code
    compares it with the number of elements only ([index_above_maximum]). *)
Theorem array_index_parsed maxJobArraySize ps pre il limit : strchr pre "["%char = None -> il <> [] ->
  Forall index_ok il -> match limit with Some n => numeral n | None => True end -> (length il <= 73)%nat ->
  pushed (ps_lx ps) = [] ->
  let l := close_idx maxJobArraySize <$> (index_value <$> il) in
  exists r, parseJobArrayIndex false maxJobArraySize ps (pre ++ spec_text il limit) = Some r /\
    pushed (ps_lx (ai_state r)) = [] /\
    if forallb bounded (index_value <$> il) then
      if decide (accepts maxJobArraySize l) then
        ai_list r = l /\ ai_error r = LSBE_NO_ERROR /\ ai_limit r = Some (limit_value limit INFINIT_INT)
      else ai_list r = [] /\ (ai_error r = LSBE_BAD_IDX \/ ai_error r = LSBE_BIG_IDX)
    else ai_list r = [] /\ ai_error r = LSBE_BAD_JOB.
Proof. intros. by apply parse_checked. Qed.

(** C19: Whatever the job name is: a list that is returned
    comes without an error, each of its ranges is not empty, lies between 1 and the
    largest index and has a positive step, and it has at most MAX_JOB_ARRAY_SIZE
    elements (the sum of the sizes does not overflow for up to 32768 ranges). *)
Theorem accepted_ranges_fit maxJobArraySize ps job_name r :
  parseJobArrayIndex false maxJobArraySize ps job_name = Some r -> ai_list r <> [] ->
  ai_error r = LSBE_NO_ERROR /\ Forall fits (ai_list r) /\
  (Z.of_nat (length (ai_list r)) <= 32768 -> total_size (ai_list r) <= maxJobArraySize).
Proof.
  unfold parseJobArrayIndex. destruct (strchr job_name _) as [index|]; [|by intros [= <-]].
  destruct (idxparse _ _ _) as [[code y]|]; [|done]. cbn [mbind option_bind].
  destruct (code =? 0); [|by intros [= <-]].
  destruct (check_loop false maxJobArraySize (out_list y) LSBE_NO_ERROR 0) as [[[l e] a]|] eqn:Hc; [|done].
  cbn [mbind option_bind negb andb]. intros [= <-]. cbn [ai_list ai_error].
  destruct (check_loop_spec maxJobArraySize (out_list y) (check_loop_steps _ _ _ _ _ _ _ Hc) LSBE_NO_ERROR 0)
    as (e' & a' & E & _ & Hf & Hn).
  rewrite E in Hc. injection Hc as <- <- <-.
  destruct (maxJobArraySize <? a') eqn:Ha; [done|].
  destruct (e' =? LSBE_NO_ERROR) eqn:He; [|done]. intros _. apply Z.eqb_eq in He.
  destruct (Hn He) as [_ Hfit]. split_and!; [done|done|]. intros Hlen.
  destruct (Hf eq_refl Hfit) as [_ ->]. pose proof (total_size_bounds _ Hfit) as Ht.
  unfold LSB_MAX_ARRAY_IDX in Ht. rewrite int32_small in Ha by lia. breflect. lia.
Qed.

(** ** Lists of job numbers *)

Lemma unpack_pack jobId idx : valid_job jobId idx ->
  LSB_ARRAY_JOBID (LSB_JOBID jobId idx) = jobId /\ LSB_ARRAY_IDX (LSB_JOBID jobId idx) = idx.
Proof.
  intros H. pose proof H as [Hj Hi]. unfold LSB_MAX_ARRAY_IDX in Hi. rewrite pack_value by done.
  pose proof (unpack_value (idx * 2 ^ 32 + jobId) ltac:(lia)) as E. unfold jobId64To32 in E.
  injection E as -> ->. rewrite (Z.add_comm _ jobId), Z.mod_add, Z.div_add, Z.mod_small, Z.div_small, Z.add_0_l by lia.
  split; [|apply Z.mod_small; lia]. apply sint_of_id; [lia|]. unfold in_sint. lia.
Qed.

Lemma inIdxList_elements jobId j l : l <> [] -> Forall fits l -> valid_job jobId j ->
  inIdxList (LSB_JOBID jobId j) l = true <-> j ∈ all_elements l.
Proof.
  intros Hne Hl Hv. unfold inIdxList. destruct (unpack_pack _ _ Hv) as [_ ->].
  assert (forall l, Forall fits l -> existsb (fun idx =>
    negb ((j <? il_start idx) || (il_end idx <? j)) && (Z.rem (j - il_start idx) (il_step idx) =? 0)) l = true <->
    j ∈ all_elements l) as H; [|destruct l; [done|by apply H]].
  clear l Hne Hl. intros l Hl. unfold all_elements. rewrite existsb_exists, list_elem_of_bind.
  rewrite Forall_forall in Hl. setoid_rewrite <- list_elem_of_In. split.
  - intros (idx & Hin & Hb). exists idx. split; [|done]. pose proof (Hl idx Hin) as Hf.
    rewrite (elements_iff _ _ Hf). destruct Hf as (? & ? & ?). breflect.
    rewrite <- Z.rem_mod_nonneg by lia. done.
  - intros (idx & Hj & Hin). exists idx. split; [done|]. pose proof (Hl idx Hin) as Hf.
    rewrite (elements_iff _ _ Hf) in Hj. destruct Hf as (? & ? & ?).
    rewrite Z.rem_mod_nonneg by lia. rewrite (proj2 Hj), !(proj2 (Z.ltb_ge _ _)) by lia. done.
Qed.

(** The loop of [getJobIdList] adds each number once. *)
Lemma add_ids jobId js : forall acc, NoDup acc ->
  exists ids, iterM (add_id jobId) js acc = Some ids /\ NoDup ids /\
    forall x, x ∈ ids <-> x ∈ acc \/ exists j, j ∈ js /\ x = LSB_JOBID jobId j.
Proof.
  induction js as [|j js IH]; intros acc Hnd.
  - exists acc. split_and!; [done..|]. intros x. split; [auto|]. intros [?|(j & Hj & _)]; [done|].
    by apply not_elem_of_nil in Hj.
  - cbn [iterM]. set (acc' := if bool_decide (LSB_JOBID jobId j ∈ acc) then acc else acc ++ [LSB_JOBID jobId j]).
    assert (NoDup acc' /\ forall x, x ∈ acc' <-> x ∈ acc \/ x = LSB_JOBID jobId j) as [Hnd' Hin].
    { unfold acc'. case_bool_decide as Hd.
      - split; [done|]. intros x. split; [auto|]. by intros [?| ->].
      - split; [|intros x; set_solver]. apply NoDup_app. split_and!; [done| |apply NoDup_singleton].
        intros x Hx ->%list_elem_of_singleton. done. }
    change (add_id jobId j acc) with (Some acc'). cbn [mbind option_bind].
    destruct (IH acc' Hnd') as (ids & -> & Hnd2 & Hin2). exists ids. split_and!; [done..|].
    intros x. rewrite Hin2, Hin. split.
    + intros [[?| ->]|(j' & ? & ->)]; [by left|right; exists j|right; exists j']; set_solver.
    + intros [?|(j' & Hj' & ->)]; [tauto|]. apply elem_of_cons in Hj' as [->|?]; [tauto|]. right. by exists j'.
Qed.

(** A printed job number. *)
Lemma strchr_digits s c : Forall (fun a => isdigit a = true) s -> isdigit c = false -> strchr s c = None.
Proof.
  intros Hs Hc. induction Hs as [|a s Ha _ IH]; [done|]. simpl. unfold ch_eqb. case_bool_decide; [|done].
  subst. congruence.
Qed.

Lemma printed_number n : job_number n ->
  isint_ (print_Z n) = true /\ atoi (print_Z n) = n /\ strchr (print_Z n) "["%char = None.
Proof.
  intros Hn. destruct (print_digits n Hn) as (c & ds & E & Hd & _). unfold job_number in Hn.
  assert (print_Z n = print_nat n) as Ep by (unfold print_Z; by rewrite (proj2 (Z.ltb_ge _ _)) by lia).
  assert (strtol (print_Z n) = (n, [])) as Hs.
  { rewrite Ep, <- (app_nil_r (print_nat n)). apply strtol_print_nat; [unfold LONG_MAX; lia|done]. }
  split_and!.
  - unfold isint_. rewrite Hs, E. cbv iota. rewrite int32_small by lia. unfold INFINIT_INT.
    rewrite (proj2 (Z.leb_le _ _)), (proj2 (Z.ltb_lt _ _)) by lia. rewrite !andb_true_r. rewrite <- E, Ep.
    unfold strtol_erange. destruct (print_nat_spec n ltac:(lia)) as (Hp & Hv & _).
    destruct (print_nat_head n ltac:(lia)) as (c' & s' & Hh & Hc').
    assert (span isspace (print_nat n) = ([], print_nat n)) as ->
      by (rewrite Hh; apply span_none; by apply isdigit_not_space).
    cbn [snd]. assert (scan_sign (print_nat n) = (false, print_nat n)) as ->
      by (rewrite Hh; clear -Hc'; by destruct c' as [[] [] [] [] [] [] [] []]).
    rewrite span_all by done. cbn [fst]. rewrite Hv, saturate_id by (unfold LONG_MIN, LONG_MAX; lia).
    by rewrite Z.eqb_refl.
  - unfold atoi. rewrite Hs. apply int32_small. unfold job_number in Hn. lia.
  - rewrite E. by apply strchr_digits.
Qed.

(** C18: The numbers of a job array's elements, such as
    [200[1-10:2,3]]: when the index list is accepted and no range ends so near to
    INT_MAX that its loop overflows, [getJobIdList] returns LSBE_NO_ERROR and, once
    each, the numbers of the job with the indices that [inIdxList] selects. *)
Theorem job_id_list maxJobArraySize fuel ps id il limit : 1 <= id < 2 ^ 31 -> il <> [] ->
  Forall index_ok il -> match limit with Some n => numeral n | None => True end -> (length il <= 73)%nat ->
  pushed (ps_lx ps) = [] -> forallb bounded (index_value <$> il) = true ->
  let l := close_idx maxJobArraySize <$> (index_value <$> il) in
  accepts maxJobArraySize l -> Forall no_overflow l -> (Z.to_nat LSB_MAX_ARRAY_IDX < fuel)%nat ->
  exists ids ps', getJobIdList false maxJobArraySize fuel ps (print_Z id ++ spec_text il limit) =
      Some (DepCond.LSBE_NO_ERROR, ids, ps') /\ NoDup ids /\
    forall x, x ∈ ids <-> exists j, valid_job id j /\ x = LSB_JOBID id j /\ inIdxList x l = true.
Proof.
  intros Hid Hne Hok Hlim Hlen Hp Hb l Hacc Hov Hf.
  destruct (printed_number id) as (Hint & Hat & Hstr); [unfold job_number; lia|].
  destruct (parse_checked maxJobArraySize ps (print_Z id) il limit Hstr Hne Hok Hlim Hlen Hp) as (r & Hr & _ & Hl).
  rewrite Hb, decide_True in Hl by done. destruct Hl as (Hl & He & _). fold l in Hl.
  assert (getJobIdIndexList false maxJobArraySize ps (print_Z id ++ spec_text il limit) =
          Some (DepCond.LSBE_NO_ERROR, Some id, l, ai_state r)) as Hidx.
  { unfold getJobIdIndexList. rewrite strchr_app by done.
    change (strchr (spec_text il limit) "["%char) with (Some (spec_text il limit)). cbv iota.
    rewrite length_app, Nat.add_sub, take_app_length, Hint, Hat. cbn [negb orb].
    rewrite (proj2 (Z.leb_gt _ _)) by lia. rewrite uint_of_id by (unfold in_uint; lia).
    rewrite (proj2 (Z.ltb_ge _ _)) by (unfold LSB_MAX_ARRAY_JOBID; lia). cbn [orb]. rewrite Hr. cbn [mbind option_bind].
    rewrite Hl. by destruct l eqn:El; [destruct il|]. }
  destruct (add_ids id (all_elements l) [] (NoDup_nil_2)) as (ids & Hids & Hnd & Hin).
  exists ids, (ai_state r). split_and!; [|done|].
  - unfold getJobIdList. rewrite Hidx. cbn [mbind option_bind]. change (DepCond.LSBE_NO_ERROR =? DepCond.LSBE_NO_ERROR) with true.
    cbn [negb]. cbv iota. rewrite (proj2 (Z.leb_gt _ _)) by lia.
    destruct Hacc as [Hfit _]. destruct l as [|i l'] eqn:El; [by destruct il|].
    rewrite (for_list_elements _ _ _ Hfit Hov Hf), Hids. done.
  - intros x. rewrite Hin. destruct Hacc as [Hfit _]. assert (l <> []) as Hln by (by unfold l; destruct il).
    split.
    + intros [Hx|(j & Hj & ->)]; [by apply not_elem_of_nil in Hx|]. pose proof (all_elements_range _ _ Hfit Hj) as Hr'.
      assert (valid_job id j) as Hv by (split; unfold LSB_MAX_ARRAY_IDX in *; lia).
      exists j. split_and!; [done..|]. by apply inIdxList_elements.
    + intros (j & Hv & -> & Hx). right. exists j. split; [|done]. by apply (inIdxList_elements id).
Qed.

(** ** Witnesses and examples *)

Definition fresh_parser : parser_state := ParserState (Lexer [] [] YYNEWLINE []) 0.
Definition demo_list : list index :=
  [Index (Between (lit "1") (lit "10")) (Some (lit "2")); Index (One (lit "3")) None].

Lemma numeral_check s : bool_decide (s <> []) && forallb isdigit s && Nat.ltb (length s) YYLMAX = true -> numeral s.
Proof.
  intros H. breflect. split_and!; [done| |by apply Nat.ltb_lt]. apply Forall_forall. intros c Hc.
  eapply (proj1 (forallb_forall isdigit s)); [done|by apply list_elem_of_In].
Qed.

Lemma demo_list_ok : Forall index_ok demo_list.
Proof. repeat constructor; by apply numeral_check. Qed.

Lemma array_index_parsed_witness : exists r,
  parseJobArrayIndex false 100 fresh_parser (lit "sim" ++ spec_text demo_list (Some (lit "4"))) = Some r /\
  ai_list r = [IdxList 1 10 2; IdxList 3 3 1] /\ ai_error r = DepCond.LSBE_NO_ERROR /\ ai_limit r = Some 4.
Proof.
  destruct (array_index_parsed 100 fresh_parser (lit "sim") demo_list (Some (lit "4")) eq_refl ltac:(done) demo_list_ok
              ltac:(by apply numeral_check) ltac:(simpl; lia) eq_refl) as (r & Hr & _ & H).
  exists r. split; [exact Hr|].
  assert (forallb bounded (index_value <$> demo_list) = true) as Hb by (vm_compute; reflexivity). rewrite Hb in H.
  rewrite decide_True in H by (by apply (bool_decide_eq_true_1 _); vm_compute).
  exact H.
Defined.

(** An index above MAX_JOB_ARRAY_SIZE is accepted. *)
Example index_above_maximum :
  ai_list <$> parseJobArrayIndex false 1000 fresh_parser (lit "sim[2000,65534]") = Some [IdxList 2000 2000 1; IdxList 65534 65534 1].
Proof. vm_compute. reflexivity. Qed.

Lemma accepted_ranges_fit_witness : exists r,
  parseJobArrayIndex false 200 fresh_parser (lit "sim[1-10:2,3,40-]") = Some r /\ ai_list r = [] /\
  forall r, parseJobArrayIndex false 200 fresh_parser (lit "sim[1-10:2,3]") = Some r -> ai_list r <> [] ->
    total_size (ai_list r) <= 200.
Proof.
  eexists. split; [vm_compute; reflexivity|]. split; [reflexivity|]. intros r Hr Hne.
  destruct (accepted_ranges_fit 200 fresh_parser _ r Hr Hne) as (_ & _ & H). apply H.
  vm_compute in Hr. injection Hr as <-. vm_compute. discriminate.
Defined.

Lemma job_id_list_witness : exists ids ps',
  getJobIdList false 100 (Z.to_nat 65536) fresh_parser (print_Z 200 ++ spec_text demo_list None) =
    Some (DepCond.LSBE_NO_ERROR, ids, ps') /\ NoDup ids /\ LSB_JOBID 200 7 ∈ ids.
Proof.
  destruct (job_id_list 100 (Z.to_nat 65536) fresh_parser 200 demo_list None ltac:(lia) ltac:(done) demo_list_ok I
              ltac:(simpl; lia) eq_refl ltac:(vm_compute; reflexivity)) as (ids & ps' & H & Hnd & Hin).
  - by apply (bool_decide_eq_true_1 _); vm_compute.
  - repeat constructor.
  - apply Z2Nat.inj_lt; [discriminate|discriminate|reflexivity].
  - exists ids, ps'. split_and!; [exact H|exact Hnd|]. apply Hin. exists 7.
    split; [split; unfold LSB_MAX_ARRAY_IDX; lia|]. split; [reflexivity|]. vm_compute. reflexivity.
Defined.

(** A step is not bounded: the counter of the loop overflows and the numbers of jobs
    that do not belong to the array are listed. *)
Example step_overflow :
  (fun r => r.1.2) <$> getJobIdList false 100 20 fresh_parser (lit "200[5-6:2147483647]") =
  Some (LSB_JOBID 200 <$> [5; -2147483644; 3; -2147483646; 1; -2147483648; -1]).
Proof. vm_compute. reflexivity. Qed.

(** [atoi] wraps, and a quoted string is taken for the %: the analyser numbers it 37. *)
Example number_wraps :
  ai_list <$> parseJobArrayIndex false 100 fresh_parser (lit "a[1-4294967298]") = Some [IdxList 1 2 1].
Proof. vm_compute. reflexivity. Qed.
Example string_is_percent :
  (fun r => (ai_list r, ai_limit r)) <$> parseJobArrayIndex false 100 fresh_parser (lit "a[1-3]'x'5") =
  Some ([IdxList 1 3 1], Some 5).
Proof. vm_compute. reflexivity. Qed.

(** 75 ranges are too many for the parser's stack. *)
Example stack_overflow :
  (fun r => (ai_list r, ai_error r)) <$>
    parseJobArrayIndex false 1000 fresh_parser (spec_text (replicate 75 (Index (One (lit "3")) None)) None) =
  Some ([], LSBE_BAD_JOB).
Proof. vm_compute. reflexivity. Qed.
