(* ===== verification/JobLists.v ===== *)
(** * The job lists of mbatchd (mbd.job.c)

    Every unfinished job is linked on one of the lists [jDataList[]]: pending jobs
    on [PJL] (or [MJL] while they migrate), started jobs on [SJL]; finished jobs
    wait on [FJL] to be cleaned.  The order of [PJL] is the order in which the
    scheduler, which walks the [back] links, considers the jobs.

    A list is the sequence of its entries along the [forw] links, without the
    header: [DList] shows that the entry operations on the linked structure act
    on this sequence.  A position in a list is [Some p] for the entry [p] and
    [None] for the header.  The job records themselves live in a store, because
    the elements of a job array share one submission record. *)

From S2P Require Import Prelude JobStatus.
From S2P Require JobId DepCond.

(** ** Data *)

(** Addresses of [struct jData], of [struct jShared] and of tree nodes. *)
Abbreviation jptr := positive.
Abbreviation sptr := positive.
Abbreviation nptr := positive.

(** The fields of [struct submitReq], with the parsed dependency condition that
    [struct jShared] keeps beside it. *)
Record jobBill := JobBill {
  options : Z; options2 : Z; submitTime : Z; userPriority : Z; maxNumProcessors : Z;
  queue : cstr; dependCond : cstr; dptRoot : option DepCond.dptNode }.

Record pendEvent := PendEvent {
  notSwitched : bool; sig : Z; sig1 : Z; sig1Flags : Z; sigDel : Z; notModified : bool }.

(** The times of a job. *)
Record times := Times {
  startTime : Z; endTime : Z; reserveTime : Z; resumeTime : Z; runTime : Z; updStateTime : Z;
  requeueTime : Z }.

(** [struct jData].  [qPtr], [uPtr] and [hPtr] are the names of the records. *)
Record job := Job {
  jobId : Z; jStatus : Z; userId : Z; qPtr : cstr; uPtr : cstr; hPtr : option (list cstr);
  shared : sptr; jgrpNode : option nptr; nodeType : Z;
  newReason : Z; subreasons : Z; jFlags : Z; runCount : Z; jobPriority : Z;
  restartPid : Z; jobPid : Z;
  tm : times; pend : pendEvent; newSub : option jobBill }.

Record jlists := JLists {
  l_SJL : list jptr; l_MJL : list jptr; l_PJL : list jptr; l_FJL : list jptr }.

(** The jobs, their submissions and the lists. *)
Record store := Store {
  jobs : gmap jptr job; bills : gmap sptr jobBill; lists : jlists }.

(** Queues and parameters, which are set by the configuration. *)
Record config := Config {
  priority : cstr -> Z; qAttrib : cstr -> Z;
  maxUserPriority : Z; requeueToBottom : bool; arraySchedOrder : bool; glMigToPendFlag : bool }.

Definition JGRP_NODE_JOB : Z := 1.
Definition DEL_ACTION_REQUEUE : Z := 0x02.
Definition Q_ATTRIB_ENQUE_INTERACTIVE_AHEAD : Z := 0x80000.
Definition SUB_INTERACTIVE : Z := 0x4000000.
Definition JFLAG_BTOP : Z := 0x20000.

(** Every pointer that the code dereferences points to a record; the default
    records are never looked at in a well-formed store. *)
#[export] Instance jobBill_inhabited : Inhabited jobBill := populate (JobBill 0 0 0 0 0 [] [] None).
#[export] Instance job_inhabited : Inhabited job :=
  populate (Job 0 0 0 [] [] None 1 None 0 0 0 0 0 0 0 0 (Times 0 0 0 0 0 0 0)
              (PendEvent false 0 0 0 0 false) None).

Definition the_job (st : store) (p : jptr) : job := jobs st !!! p.
Definition jobBill_of (st : store) (p : jptr) : jobBill := bills st !!! shared (the_job st p).

Definition jDataList (st : store) (listno : jlistno) : list jptr :=
  match listno with
  | SJL => l_SJL (lists st) | MJL => l_MJL (lists st)
  | PJL => l_PJL (lists st) | FJL => l_FJL (lists st)
  end.

(** ** Field updates *)

Definition set_list (listno : jlistno) (l : list jptr) (st : store) : store :=
  let '(JLists s m p f) := lists st in
  Store (jobs st) (bills st)
    (match listno with
     | SJL => JLists l m p f | MJL => JLists s l p f
     | PJL => JLists s m l f | FJL => JLists s m p l
     end).

Definition upd_job (p : jptr) (f : job -> job) (st : store) : store :=
  Store (alter f p (jobs st)) (bills st) (lists st).
Definition upd_bill (p : jptr) (f : jobBill -> jobBill) (st : store) : store :=
  Store (jobs st) (alter f (shared (the_job st p)) (bills st)) (lists st).

Definition set_jStatus (f : Z -> Z) (j : job) : job :=
  Job (jobId j) (f (jStatus j)) (userId j) (qPtr j) (uPtr j) (hPtr j) (shared j) (jgrpNode j)
    (nodeType j) (newReason j) (subreasons j) (jFlags j) (runCount j) (jobPriority j)
    (restartPid j) (jobPid j) (tm j) (pend j) (newSub j).
Definition set_qPtr (q : cstr) (j : job) : job :=
  Job (jobId j) (jStatus j) (userId j) q (uPtr j) (hPtr j) (shared j) (jgrpNode j)
    (nodeType j) (newReason j) (subreasons j) (jFlags j) (runCount j) (jobPriority j)
    (restartPid j) (jobPid j) (tm j) (pend j) (newSub j).
Definition set_hPtr (h : option (list cstr)) (j : job) : job :=
  Job (jobId j) (jStatus j) (userId j) (qPtr j) (uPtr j) h (shared j) (jgrpNode j)
    (nodeType j) (newReason j) (subreasons j) (jFlags j) (runCount j) (jobPriority j)
    (restartPid j) (jobPid j) (tm j) (pend j) (newSub j).
Definition set_reason (f : Z -> Z) (j : job) : job :=
  Job (jobId j) (jStatus j) (userId j) (qPtr j) (uPtr j) (hPtr j) (shared j) (jgrpNode j)
    (nodeType j) (f (newReason j)) (subreasons j) (jFlags j) (runCount j) (jobPriority j)
    (restartPid j) (jobPid j) (tm j) (pend j) (newSub j).
Definition set_subreasons (v : Z) (j : job) : job :=
  Job (jobId j) (jStatus j) (userId j) (qPtr j) (uPtr j) (hPtr j) (shared j) (jgrpNode j)
    (nodeType j) (newReason j) v (jFlags j) (runCount j) (jobPriority j)
    (restartPid j) (jobPid j) (tm j) (pend j) (newSub j).
Definition set_jFlags (f : Z -> Z) (j : job) : job :=
  Job (jobId j) (jStatus j) (userId j) (qPtr j) (uPtr j) (hPtr j) (shared j) (jgrpNode j)
    (nodeType j) (newReason j) (subreasons j) (f (jFlags j)) (runCount j) (jobPriority j)
    (restartPid j) (jobPid j) (tm j) (pend j) (newSub j).
Definition set_runCount (f : Z -> Z) (j : job) : job :=
  Job (jobId j) (jStatus j) (userId j) (qPtr j) (uPtr j) (hPtr j) (shared j) (jgrpNode j)
    (nodeType j) (newReason j) (subreasons j) (jFlags j) (f (runCount j)) (jobPriority j)
    (restartPid j) (jobPid j) (tm j) (pend j) (newSub j).
Definition set_jobPriority (v : Z) (j : job) : job :=
  Job (jobId j) (jStatus j) (userId j) (qPtr j) (uPtr j) (hPtr j) (shared j) (jgrpNode j)
    (nodeType j) (newReason j) (subreasons j) (jFlags j) (runCount j) v
    (restartPid j) (jobPid j) (tm j) (pend j) (newSub j).
Definition set_restartPid (v : Z) (j : job) : job :=
  Job (jobId j) (jStatus j) (userId j) (qPtr j) (uPtr j) (hPtr j) (shared j) (jgrpNode j)
    (nodeType j) (newReason j) (subreasons j) (jFlags j) (runCount j) (jobPriority j)
    v (jobPid j) (tm j) (pend j) (newSub j).
Definition set_tm (f : times -> times) (j : job) : job :=
  Job (jobId j) (jStatus j) (userId j) (qPtr j) (uPtr j) (hPtr j) (shared j) (jgrpNode j)
    (nodeType j) (newReason j) (subreasons j) (jFlags j) (runCount j) (jobPriority j)
    (restartPid j) (jobPid j) (f (tm j)) (pend j) (newSub j).
Definition set_pend (f : pendEvent -> pendEvent) (j : job) : job :=
  Job (jobId j) (jStatus j) (userId j) (qPtr j) (uPtr j) (hPtr j) (shared j) (jgrpNode j)
    (nodeType j) (newReason j) (subreasons j) (jFlags j) (runCount j) (jobPriority j)
    (restartPid j) (jobPid j) (tm j) (f (pend j)) (newSub j).
Definition set_newSub (v : option jobBill) (j : job) : job :=
  Job (jobId j) (jStatus j) (userId j) (qPtr j) (uPtr j) (hPtr j) (shared j) (jgrpNode j)
    (nodeType j) (newReason j) (subreasons j) (jFlags j) (runCount j) (jobPriority j)
    (restartPid j) (jobPid j) (tm j) (pend j) v.

Definition set_sigDel (f : Z -> Z) (e : pendEvent) : pendEvent :=
  PendEvent (notSwitched e) (sig e) (sig1 e) (sig1Flags e) (f (sigDel e)) (notModified e).
Definition set_queue (q : cstr) (b : jobBill) : jobBill :=
  JobBill (options b) (options2 b) (submitTime b) (userPriority b) (maxNumProcessors b) q
    (dependCond b) (dptRoot b).

(** ** Entries of a list *)

(** The entry after, or before, a position; [None] is the header. *)
Definition forw (l : list jptr) (p : jptr) : option jptr :=
  (fix go l := match l with
               | [] => None
               | x :: l' => if decide (x = p) then head l' else go l'
               end) l.
Definition back (l : list jptr) (p : jptr) : option jptr := forw (reverse l) p.

Fixpoint insert_before (l : list jptr) (succ : option jptr) (entry : jptr) : list jptr :=
  match l with
  | [] => [entry]
  | x :: l' => if decide (Some x = succ) then entry :: l else x :: insert_before l' succ entry
  end.
(** [listInsertEntryAfter] inserts before the entry that follows [pred]. *)
Definition insert_after (l : list jptr) (pred : option jptr) (entry : jptr) : list jptr :=
  match pred with
  | None => entry :: l
  | Some p => insert_before l (forw l p) entry
  end.
Definition remove_entry (l : list jptr) (entry : jptr) : list jptr := filter (fun x => x <> entry) l.

Definition offJobList (listno : jlistno) (jp : jptr) (st : store) : store :=
  set_list listno (remove_entry (jDataList st listno) jp) st.

(** [inList(jDataList[FJL]->forw, job)]: at the front. *)
Definition inFinishList (jp : jptr) (st : store) : store :=
  set_list FJL (jp :: jDataList st FJL) st.

Definition PJLorMJL (st : store) (p : jptr) : jlistno :=
  if bool_decide (p ∈ jDataList st MJL) then MJL else PJL.

Section Lists.
Variable cfg : config.

(** mbd.policy.c, [jobsOnSameSegment]; the list is not used. *)
Definition jobsOnSameSegment (j1 j2 : job) : bool :=
  bool_decide (qPtr j2 = qPtr j1) || (priority cfg (qPtr j2) =? priority cfg (qPtr j1)).

(** ** The pending lists *)

(** The loop of [inPendJobList]: the rest of the list from the entry [jp] at
    which it stops, and the local [lastJob]. *)
Fixpoint pend_scan (st : store) (p : jptr) (compareTime : Z) (rest : list jptr)
    (lastJob : option jptr) : list jptr * option jptr :=
  match rest with
  | [] => ([], lastJob)
  | q :: rest' =>
      let job := the_job st p in let bill := jobBill_of st p in
      let jp := the_job st q in let jbill := jobBill_of st q in
      if priority cfg (qPtr job) <? priority cfg (qPtr jp) then (rest, lastJob)
      else if priority cfg (qPtr job) =? priority cfg (qPtr jp) then
        if negb (jobsOnSameSegment job jp) then
          let lastJob :=
            match lastJob with
            | Some _ => lastJob
            | None =>
                if submitTime jbill <? submitTime bill then Some q
                else if submitTime bill =? submitTime jbill then
                  if (jobId job =? -1) || (jobId jp =? -1) || (jobId jp <? jobId job) then Some q
                  else None
                else None
            end in
          let lastJob :=
            match rest' with
            | r :: _ => if jobsOnSameSegment (the_job st r) job then None else lastJob
            | [] => lastJob
            end in
          pend_scan st p compareTime rest' lastJob
        else if has (qAttrib cfg (qPtr job)) Q_ATTRIB_ENQUE_INTERACTIVE_AHEAD
                && has (options bill) SUB_INTERACTIVE && negb (has (options jbill) SUB_INTERACTIVE)
        then pend_scan st p compareTime rest' lastJob
        else if jobPriority job <? jobPriority jp then (rest, lastJob)
        else if (jobPriority job =? jobPriority jp)
             && ((submitTime jbill <? compareTime)
                 || ((compareTime =? submitTime jbill)
                     && ((arraySchedOrder cfg && negb (JobId.LSB_ARRAY_IDX (jobId job) =? 0))
                         || (jobId job =? -1) || (jobId jp =? -1) || (jobId jp <? jobId job))))
        then (rest, lastJob)
        else
          match rest' with
          | r :: _ =>
              if jobsOnSameSegment job jp && negb (jobsOnSameSegment job (the_job st r))
              then (rest', lastJob)
              else pend_scan st p compareTime rest' lastJob
          | [] => pend_scan st p compareTime rest' lastJob
          end
      else pend_scan st p compareTime rest' lastJob
  end.

(** The walk from [lastJob] to the first entry of its segment; [before] are the
    entries before it, nearest first. *)
Fixpoint segment_start (st : store) (lastJob : jptr) (before : list jptr) : jptr :=
  match before with
  | [] => lastJob
  | nextLastJob :: before' =>
      if negb (jobsOnSameSegment (the_job st lastJob) (the_job st nextLastJob)) then lastJob
      else segment_start st nextLastJob before'
  end.

Fixpoint entries_before (l : list jptr) (p : jptr) (acc : list jptr) : list jptr :=
  match l with
  | [] => acc
  | x :: l' => if decide (x = p) then acc else entries_before l' p (x :: acc)
  end.

Definition inPendJobList (p : jptr) (listno : jlistno) (requeueTime : Z) (st : store) : store :=
  let job := the_job st p in
  let compareTime :=
    if negb (requeueTime =? 0) && bool_decide (listno = PJL)
       && (requeueToBottom cfg || has (sigDel (pend job)) DEL_ACTION_REQUEUE)
    then requeueTime else submitTime (jobBill_of st p) in
  let st := if has (sigDel (pend job)) DEL_ACTION_REQUEUE
            then upd_job p (set_pend (set_sigDel (fun s => clr s DEL_ACTION_REQUEUE))) st else st in
  let l := jDataList st listno in
  let '(rest, lastJob) := pend_scan st p compareTime l None in
  let jp :=
    match lastJob with
    | None => head rest
    | Some q =>
        if negb (jobsOnSameSegment job (the_job st q))
        then Some (segment_start st q (entries_before l q [])) else Some q
    end in
  set_list listno (insert_before l jp p) st.

(** ** The list of started jobs *)

Fixpoint start_scan (st : store) (p : jptr) (rest : list jptr) : list jptr :=
  match rest with
  | [] => []
  | q :: rest' =>
      let job := the_job st p in
      let jp := the_job st q in
      if priority cfg (qPtr job) <? priority cfg (qPtr jp) then rest
      else if priority cfg (qPtr job) =? priority cfg (qPtr jp) then
        if startTime (tm jp) <? startTime (tm job) then rest
        else if ((startTime (tm job) =? startTime (tm jp)) || (startTime (tm job) =? 0))
                && (jobId jp <? jobId job)
        then rest
        else start_scan st p rest'
      else start_scan st p rest'
  end.

Definition inStartJobList (p : jptr) (st : store) : store :=
  let l := jDataList st SJL in
  set_list SJL (insert_before l (head (start_scan st p l)) p) st.

(** ** A job changes its queue *)

Definition jobInQueueEnd (p : jptr) (qp : cstr) (st : store) : store :=
  let s := jStatus (the_job st p) in
  if IS_FINISH s then st
  else
    let listno := if IS_PEND s then PJLorMJL st p else SJL in
    let st := offJobList listno p st in
    let st := upd_bill p (set_queue qp) (upd_job p (set_qPtr qp) st) in
    if IS_PEND s then
      if has s JOB_STAT_MIG then
        if glMigToPendFlag cfg
        then upd_job p (set_jStatus (fun s => clr s JOB_STAT_MIG)) (inPendJobList p PJL 0 st)
        else inPendJobList p MJL 0 st
      else inPendJobList p PJL 0 st
    else inStartJobList p st.

(** ** Moving a job within its queue *)

(** The loop of [insertAndShift], in the direction of [backward]: every entry
    met that belongs to the queue of [toJob] (and, for an ordinary user, to its
    owner) gets the previous such entry as its neighbour.  [None] as a result
    stands for a read through the list header, or for lack of fuel. *)
Fixpoint shift_loop (st : store) (backward ordUser : bool) (froJob toJob : jptr)
    (fuel : nat) (l : list jptr) (jobP : option jptr) (tmpJobP : jptr) : option (list jptr * jptr) :=
  let next l p := if backward then back l p else forw l p in
  match fuel with
  | O => None
  | S fuel =>
      if decide (jobP = next l froJob) then Some (l, tmpJobP)
      else match jobP with
           | None => None
           | Some p =>
               let j := the_job st p in let t := the_job st toJob in
               if negb (bool_decide (qPtr j = qPtr t)) || (ordUser && negb (bool_decide (uPtr j = uPtr t)))
               then shift_loop st backward ordUser froJob toJob fuel l (next l p) tmpJobP
               else
                 let l := remove_entry l tmpJobP in
                 let l := if backward then insert_after l (Some p) tmpJobP
                          else insert_before l (Some p) tmpJobP in
                 shift_loop st backward ordUser froJob toJob fuel l (next l p) p
           end
  end.

Definition insertAndShift (froJob toJob : jptr) (backward ordUser : bool) (st : store)
    : option store :=
  let listno := PJLorMJL st froJob in
  let l := jDataList st listno in
  let oldJobP := if backward then forw l toJob else back l toJob in
  let first := if backward then back l toJob else forw l toJob in
  l ← fst <$> shift_loop st backward ordUser froJob toJob (S (S (length l))) l first toJob;
  let l := remove_entry l froJob in
  Some (set_list listno (if backward then insert_before l oldJobP froJob
                         else insert_after l oldJobP froJob) st).

Record jobMoveReq := JobMoveReq { opCode : Z; mv_jobId : Z; position : Z }.

Definition TO_TOP : Z := 1.
Definition LSBE_NO_JOB : Z := 1.
Definition LSBE_JOB_STARTED : Z := 3.
Definition LSBE_JOB_FINISH : Z := 4.
Definition LSBE_MBATCHD : Z := 47.
Definition LSBE_JOB_ARRAY : Z := 94.

(** The locals of the loop of [moveAJob]. *)
Record move_scan := MoveScan {
  nowpos : Z; moveJobNum : Z; froJob : option jptr; toJob : option jptr }.

(** The loop of [moveAJob] over the list in the order of the walk; an entry of
    another queue, of another priority when users may set priorities, or of
    another owner when the caller has no authority over the queue is not
    counted. *)
Fixpoint move_loop (st : store) (job : job) (req : jobMoveReq) (privileged : bool)
    (walk : list jptr) (s : move_scan) : move_scan :=
  match walk with
  | [] => s
  | p :: walk =>
      let jp := the_job st p in
      if negb (nowpos s =? 0) && negb (priority cfg (qPtr jp) =? priority cfg (qPtr job)) then s
      else if negb (bool_decide (qPtr jp = qPtr job)) then move_loop st job req privileged walk s
      else if (0 <? maxUserPriority cfg) && negb (jobPriority jp =? jobPriority job)
      then move_loop st job req privileged walk s
      else if negb privileged && negb (bool_decide (uPtr jp = uPtr job))
      then move_loop st job req privileged walk s
      else
        let n := nowpos s + 1 in
        let '(fro, num) := if jobId jp =? mv_jobId req then (Some p, n) else (froJob s, moveJobNum s) in
        move_loop st job req privileged walk
          (MoveScan n num fro (if n =? position req then Some p else toJob s))
  end.

(** What [moveAJob] leaves: the lists, the request (whose position it may
    change), whether the move was logged, and the reply. *)
Record move_result := MoveResult {
  mv_store : store; mv_req : jobMoveReq; mv_logged : bool; mv_reply : Z }.

(** [getJobData] finds the job; [privileged] stands for the three tests of the
    caller's authority. *)
Fixpoint moveAJob (fuel : nat) (getJobData : Z -> option jptr) (req : jobMoveReq)
    (log privileged : bool) (st : store) : option move_result :=
  match fuel with
  | O => None
  | S fuel =>
      let fail st code := Some (MoveResult st req false code) in
      match getJobData (mv_jobId req) with
      | None => fail st LSBE_NO_JOB
      | Some p =>
          let job := the_job st p in
          if negb (nodeType job =? JGRP_NODE_JOB) then fail st LSBE_JOB_ARRAY
          else if negb (IS_PEND (jStatus job)) then
            if IS_FINISH (jStatus job) then fail st LSBE_JOB_FINISH else fail st LSBE_JOB_STARTED
          else
            let st := upd_job p (set_jFlags (fun f => Z.lor f JFLAG_BTOP)) st in
            let l := jDataList st (PJLorMJL st p) in
            let top := opCode req =? TO_TOP in
            let s := move_loop st job req privileged (if top then reverse l else l)
                       (MoveScan 0 0 None None) in
            if nowpos s <? position req then
              moveAJob fuel getJobData (JobMoveReq (opCode req) (mv_jobId req) (nowpos s)) log privileged st
            else if position req =? moveJobNum s then
              Some (MoveResult st req log DepCond.LSBE_NO_ERROR)
            else
              match froJob s, toJob s with
              | Some fro, Some to =>
                  let backward := if top then position req <? moveJobNum s
                                  else moveJobNum s <? position req in
                  st ← insertAndShift fro to backward (negb privileged) st;
                  Some (MoveResult st req log DepCond.LSBE_NO_ERROR)
              | _, _ => fail st LSBE_MBATCHD
              end
      end
  end.

End Lists.

(** ** The store *)

Lemma the_job_upd p f st q :
  the_job (upd_job p f st) q = the_job st q \/
  (q = p /\ the_job (upd_job p f st) q = f (the_job st p)).
Proof.
  unfold the_job, upd_job. simpl. rewrite !lookup_total_alt.
  destruct (decide (p = q)) as [<-|Hne]; [|left; by rewrite lookup_alter_ne].
  rewrite lookup_alter_eq. destruct (jobs st !! p); [by right|by left].
Qed.

(** A field that [f] keeps. *)
Lemma upd_job_keeps {A} (g : job -> A) p f st q :
  (forall j, g (f j) = g j) -> g (the_job (upd_job p f st) q) = g (the_job st q).
Proof.
  intros Hf. destruct (the_job_upd p f st q) as [->|[-> ->]]; [done|apply Hf].
Qed.

Lemma set_list_jobs n l st : jobs (set_list n l st) = jobs st /\ bills (set_list n l st) = bills st.
Proof. unfold set_list. by destruct (lists st). Qed.

Lemma jDataList_set n l st m :
  jDataList (set_list n l st) m = if decide (m = n) then l else jDataList st m.
Proof. unfold set_list, jDataList. destruct (lists st), n, m; done. Qed.

Lemma set_list_same n l st : jDataList (set_list n l st) n = l.
Proof. rewrite jDataList_set. by rewrite decide_True. Qed.

Lemma set_list_other n l st m : m <> n -> jDataList (set_list n l st) m = jDataList st m.
Proof. intros. rewrite jDataList_set. by rewrite decide_False. Qed.

Lemma the_job_set_list n l st p : the_job (set_list n l st) p = the_job st p.
Proof. unfold the_job. by rewrite (proj1 (set_list_jobs n l st)). Qed.

Lemma jobBill_of_set_list n l st p : jobBill_of (set_list n l st) p = jobBill_of st p.
Proof.
  unfold jobBill_of. by rewrite the_job_set_list, (proj2 (set_list_jobs n l st)).
Qed.

(** ** Entries *)

Lemma insert_before_split a b e : NoDup (a ++ b) -> insert_before (a ++ b) (head b) e = a ++ e :: b.
Proof.
  induction a as [|x a IH]; simpl; intros Hnd.
  - destruct b as [|y b]; [done|]. simpl. by rewrite decide_True.
  - inversion Hnd as [|? ? Hx Hnd']; subst. rewrite decide_False; [by rewrite IH|].
    intros Hh. apply Hx. apply elem_of_app. right. destruct b; [done|]. injection Hh as ->. left.
Qed.

Lemma forw_split a p b : p ∉ a -> forw (a ++ p :: b) p = head b.
Proof.
  induction a as [|x a IH]; simpl; intros Hp; [by rewrite decide_True|].
  rewrite decide_False; [apply IH|]; intros H; apply Hp; [by right|subst; left].
Qed.

Lemma back_split a p b : p ∉ b -> back (a ++ p :: b) p = last a.
Proof.
  intros Hp. unfold back. rewrite reverse_app, reverse_cons, <- app_assoc. simpl.
  rewrite forw_split by by rewrite elem_of_reverse. by rewrite <- head_reverse.
Qed.

Lemma insert_before_entry a p b e : NoDup (a ++ p :: b) ->
  insert_before (a ++ p :: b) (Some p) e = a ++ e :: p :: b.
Proof. apply (insert_before_split a (p :: b)). Qed.

Lemma insert_after_entry a p b e : NoDup (a ++ p :: b) ->
  insert_after (a ++ p :: b) (Some p) e = a ++ p :: e :: b.
Proof.
  intros Hnd. unfold insert_after. pose proof (NoDup_app a (p :: b)) as Ha. apply Ha in Hnd as Hd.
  destruct Hd as (_ & Hd & _). rewrite forw_split.
  - pose proof (insert_before_split (a ++ [p]) b e) as Hi. rewrite <- !app_assoc in Hi. by apply Hi.
  - intros Hp. apply (Hd p Hp). left.
Qed.

Lemma remove_absent l p : p ∉ l -> remove_entry l p = l.
Proof.
  unfold remove_entry. induction l as [|x l IH]; intros H; [done|].
  apply not_elem_of_cons in H as [Hx H]. rewrite filter_cons_True by congruence. by rewrite IH.
Qed.

Lemma remove_entry_cons l p : remove_entry (p :: l) p = remove_entry l p.
Proof. unfold remove_entry. by rewrite filter_cons_False by tauto. Qed.

Lemma remove_entry_app a p b : p ∉ a -> p ∉ b -> remove_entry (a ++ p :: b) p = a ++ b.
Proof.
  intros Ha Hb. unfold remove_entry. rewrite filter_app. fold (remove_entry a p).
  fold (remove_entry (p :: b) p). by rewrite remove_entry_cons, !remove_absent.
Qed.

Lemma remove_nodup a p b : NoDup (a ++ p :: b) -> remove_entry (a ++ p :: b) p = a ++ b.
Proof.
  intros H. apply NoDup_app in H as (_ & Hd & H). apply NoDup_cons in H as [H _].
  apply remove_entry_app; [|done]. intros Hp. apply (Hd p Hp). left.
Qed.

Lemma insert_before_perm l s e : insert_before l s e ≡ₚ e :: l.
Proof.
  induction l as [|x l IH]; simpl; [done|]. case_decide; [done|]. rewrite IH. apply perm_swap.
Qed.

Lemma remove_inserted l s e : e ∉ l -> remove_entry (insert_before l s e) e = l.
Proof.
  induction l as [|x l IH]; intros He; [by apply remove_entry_cons|].
  apply not_elem_of_cons in He as [Hx He]. cbn [insert_before]. case_decide.
  - rewrite remove_entry_cons. apply remove_absent. by apply not_elem_of_cons.
  - unfold remove_entry. rewrite filter_cons_True by congruence. f_equal. by apply IH.
Qed.

(** ** The order of the lists *)

Section Order.
Variable cfg : config.

Definition pri (st : store) (p : jptr) : Z := priority cfg (qPtr (the_job st p)).
Definition jprio (st : store) (p : jptr) : Z := jobPriority (the_job st p).
Definition subtime (st : store) (p : jptr) : Z := submitTime (jobBill_of st p).
Definition jid (st : store) (p : jptr) : Z := jobId (the_job st p).
Definition started (st : store) (p : jptr) : Z := startTime (tm (the_job st p)).

(** Along the [forw] links the priority of the queue, and within it the priority
    of the job, do not decrease: the scheduler, which walks the [back] links,
    meets the higher ones first. *)
Definition class_le (st : store) (p q : jptr) : Prop :=
  pri st p < pri st q \/ (pri st p = pri st q /\ jprio st p <= jprio st q).
Definition same_class (st : store) (p q : jptr) : Prop :=
  pri st p = pri st q /\ jprio st p = jprio st q.

(** Within a class, the scheduler meets the job submitted first, first; of those
    submitted in the same second, the one with the smaller number. *)
Definition fcfs_le (st : store) (p q : jptr) : Prop :=
  pri st p < pri st q \/ (pri st p = pri st q /\
    (jprio st p < jprio st q \/ (jprio st p = jprio st q /\
      (subtime st q < subtime st p \/ (subtime st q = subtime st p /\ jid st q <= jid st p))))).

(** The same for started jobs, by start time. *)
Definition start_le (st : store) (p q : jptr) : Prop :=
  pri st p < pri st q \/ (pri st p = pri st q /\
    (started st q < started st p \/ (started st q = started st p /\ jid st q <= jid st p))).

(** The time by which a job is placed among those of its class. *)
Definition to_bottom (st : store) (p : jptr) (listno : jlistno) (requeueTime : Z) : bool :=
  negb (requeueTime =? 0) && bool_decide (listno = PJL)
  && (requeueToBottom cfg || has (sigDel (pend (the_job st p))) DEL_ACTION_REQUEUE).
Definition place_time (st : store) (p : jptr) (listno : jlistno) (requeueTime : Z) : Z :=
  if to_bottom st p listno requeueTime then requeueTime else subtime st p.

(** The job is not an interactive job of a queue that puts those ahead. *)
Definition in_line (st : store) (p : jptr) : Prop :=
  has (qAttrib cfg (qPtr (the_job st p))) Q_ATTRIB_ENQUE_INTERACTIVE_AHEAD
  && has (options (jobBill_of st p)) SUB_INTERACTIVE = false.

Lemma same_segment st p q :
  jobsOnSameSegment cfg (the_job st p) (the_job st q) = (pri st q =? pri st p).
Proof.
  unfold jobsOnSameSegment, pri. destruct (bool_decide _) eqn:H; [|done].
  apply bool_decide_eq_true in H. rewrite H. symmetry. apply Z.eqb_refl.
Qed.

(** What the loop has passed and where it stops: an entry that follows the job,
    or the end of the list.  The branch for jobs on different segments of one
    queue priority is never taken, so [lastJob] stays NULL. *)
Definition passed (st : store) (p : jptr) (t : Z) (x : jptr) : Prop :=
  pri st x < pri st p \/ (pri st x = pri st p /\
    (jprio st x < jprio st p \/ (jprio st x = jprio st p /\ t <= subtime st x /\
       (t = subtime st x -> jid st x <> -1 /\ jid st p <= jid st x)))).
Definition stopped (st : store) (p : jptr) (t : Z) (x : jptr) : Prop :=
  pri st p < pri st x \/ (pri st x = pri st p /\
    (jprio st p < jprio st x \/ (jprio st x = jprio st p /\ subtime st x <= t /\
       (t = subtime st x -> arraySchedOrder cfg = false -> jid st p <> -1 -> jid st x <> -1 ->
        jid st x < jid st p)))).

Lemma pend_scan_spec st p t l :
  in_line st p -> StronglySorted (class_le st) l ->
  exists l1 l2, pend_scan cfg st p t l None = (l2, None) /\ l = l1 ++ l2 /\
    Forall (passed st p t) l1 /\ (forall x, head l2 = Some x -> stopped st p t x).
Proof.
  intros Hin. induction l as [|q l IH]; intros Hs.
  { by exists [], []. }
  inversion Hs as [|? ? Hs' Hf]; subst. destruct (IH Hs') as (l1 & l2 & E & El & Hp & Hst). clear IH.
  assert (passed st p t q ->
    exists l1 l2, pend_scan cfg st p t l None = (l2, None) /\ q :: l = l1 ++ l2 /\
      Forall (passed st p t) l1 /\ (forall x, head l2 = Some x -> stopped st p t x)) as Hgo.
  { intros Hq. exists (q :: l1), l2. split_and!; [done|by rewrite El|by constructor|done]. }
  assert (stopped st p t q -> exists l1 l2, (q :: l, @None jptr) = (l2, None) /\ q :: l = l1 ++ l2 /\
    Forall (passed st p t) l1 /\ (forall x, head l2 = Some x -> stopped st p t x)) as Hstop.
  { intros Hq. exists [], (q :: l). split_and!; [done..|]. by intros x [= <-]. }
  cbn [pend_scan]. rewrite same_segment. unfold in_line in Hin. rewrite Hin. cbn [andb].
  change (priority cfg (qPtr (the_job st p))) with (pri st p).
  change (priority cfg (qPtr (the_job st q))) with (pri st q).
  change (jobPriority (the_job st p)) with (jprio st p).
  change (jobPriority (the_job st q)) with (jprio st q).
  change (submitTime (jobBill_of st q)) with (subtime st q).
  change (jobId (the_job st p)) with (jid st p). change (jobId (the_job st q)) with (jid st q).
  destruct (Z.ltb_spec (pri st p) (pri st q)); [apply Hstop; by left|].
  destruct (Z.eqb_spec (pri st p) (pri st q)) as [Hpq|]; [|apply Hgo; left; lia].
  rewrite (proj2 (Z.eqb_eq (pri st q) (pri st p))) by done. cbn [negb andb].
  destruct (Z.ltb_spec (jprio st p) (jprio st q)); [apply Hstop; right; split; [done|by left]|].
  match goal with |- context [if ?b then (q :: l, _) else _] => destruct b eqn:Hc end.
  - apply Hstop. right. split; [done|]. right. apply andb_true_iff in Hc as [Hj Hc].
    apply Z.eqb_eq in Hj. split; [done|]. apply orb_true_iff in Hc as [Ht|Hc]; [apply Z.ltb_lt in Ht; lia|].
    apply andb_true_iff in Hc as [Ht Hc]. apply Z.eqb_eq in Ht. split; [lia|].
    intros _ Ha H2 H3. rewrite Ha in Hc. cbn [andb orb] in Hc. rewrite (proj2 (Z.eqb_neq _ _) H2), (proj2 (Z.eqb_neq _ _) H3) in Hc.
    by apply Z.ltb_lt.
  - assert (passed st p t q) as Hq.
    { right. split; [done|]. destruct (Z.eqb_spec (jprio st p) (jprio st q)); [|left; lia].
      right. cbn [andb] in Hc. apply orb_false_iff in Hc as [Ht Hc]. apply Z.ltb_ge in Ht.
      split_and!; [done|done|]. intros ->. rewrite Z.eqb_refl in Hc. cbn [andb] in Hc. breflect. lia. }
    destruct l as [|r l0]; [by apply Hgo|]. rewrite same_segment.
    destruct (Z.eqb_spec (pri st r) (pri st p)) as [Hr|Hr]; cbn [negb andb]; [by apply Hgo|].
    exists [q], (r :: l0). split_and!; [done|done|by constructor|]. intros x [= <-]. left.
    inversion Hf as [|? ? Hqr _]; subst. unfold class_le in Hqr. lia.
Qed.

(** Two stores that agree on what the order depends on. *)
Record same_keys (st st' : store) : Prop := {
  sk_pri : forall q, pri st' q = pri st q;
  sk_jprio : forall q, jprio st' q = jprio st q;
  sk_bill : forall q, jobBill_of st' q = jobBill_of st q;
  sk_jid : forall q, jid st' q = jid st q;
  sk_started : forall q, started st' q = started st q }.

Lemma same_keys_upd st p f :
  (forall j, qPtr (f j) = qPtr j /\ jobPriority (f j) = jobPriority j /\ shared (f j) = shared j /\
     jobId (f j) = jobId j /\ startTime (tm (f j)) = startTime (tm j)) ->
  same_keys st (upd_job p f st).
Proof.
  intros Hf. split; intros q; unfold pri, jprio, jid, started, jobBill_of.
  - f_equal. apply (upd_job_keeps qPtr). apply Hf.
  - apply (upd_job_keeps jobPriority). apply Hf.
  - simpl. f_equal. apply (upd_job_keeps shared). apply Hf.
  - apply (upd_job_keeps jobId). apply Hf.
  - apply (upd_job_keeps (fun j => startTime (tm j))). apply Hf.
Qed.

Lemma same_keys_list st n l : same_keys st (set_list n l st).
Proof.
  split; intros q; unfold pri, jprio, jid, started;
    rewrite ?the_job_set_list, ?jobBill_of_set_list; done.
Qed.

Lemma same_keys_trans st1 st2 st3 : same_keys st1 st2 -> same_keys st2 st3 -> same_keys st1 st3.
Proof. intros [] []. split; intros q; congruence. Qed.

Lemma sorted_keys (R : store -> jptr -> jptr -> Prop) st st' l :
  (forall p q, R st p q -> R st' p q) -> StronglySorted (R st) l -> StronglySorted (R st') l.
Proof.
  intros HR. induction 1 as [|x l _ IH Hf]; [constructor|]. constructor; [done|].
  eapply Forall_impl; [exact Hf|]. by apply HR.
Qed.

Lemma class_le_keys st st' : same_keys st st' -> forall p q, class_le st p q -> class_le st' p q.
Proof. intros [] p q. unfold class_le. congruence. Qed.

Lemma fcfs_le_keys st st' : same_keys st st' -> forall p q, fcfs_le st p q -> fcfs_le st' p q.
Proof. intros [] p q. unfold fcfs_le, subtime in *. congruence. Qed.

Lemma start_le_keys st st' : same_keys st st' -> forall p q, start_le st p q -> start_le st' p q.
Proof. intros [] p q. unfold start_le. congruence. Qed.

(** Where [inPendJobList] links a job. *)
Lemma inPendJobList_split st p n rt :
  in_line st p -> NoDup (jDataList st n) -> StronglySorted (class_le st) (jDataList st n) ->
  exists l1 l2, jDataList st n = l1 ++ l2 /\
    Forall (passed st p (place_time st p n rt)) l1 /\
    (forall x, head l2 = Some x -> stopped st p (place_time st p n rt) x) /\
    exists st1, inPendJobList cfg p n rt st = set_list n (l1 ++ p :: l2) st1 /\
      lists st1 = lists st /\ bills st1 = bills st /\ same_keys st st1 /\
      (st1 = st \/ st1 = upd_job p (set_pend (set_sigDel (fun s => clr s DEL_ACTION_REQUEUE))) st).
Proof.
  intros Hin Hnd Hs. unfold inPendJobList.
  change (submitTime (jobBill_of st p)) with (subtime st p).
  fold (to_bottom st p n rt) (place_time st p n rt). set (t := place_time st p n rt).
  set (st1 := if has _ _ then _ else st).
  assert (st1 = st \/ st1 = upd_job p (set_pend (set_sigDel (fun s => clr s DEL_ACTION_REQUEUE))) st) as Hst1.
  { unfold st1. case_if; auto. }
  assert (same_keys st st1 /\ lists st1 = lists st /\ bills st1 = bills st) as (Hk & Hl & Hb).
  { destruct Hst1 as [-> | ->]; [by split_and!|]. split; [by apply same_keys_upd|done]. }
  clearbody st1. assert (jDataList st1 n = jDataList st n) as Hd by (unfold jDataList; by rewrite Hl).
  assert (in_line st1 p) as Hin1.
  { unfold in_line in *. rewrite (sk_bill _ _ Hk). rewrite <- Hin. do 3 f_equal.
    destruct Hst1 as [-> | ->]; [done|]. by apply (upd_job_keeps qPtr). }
  assert (StronglySorted (class_le st1) (jDataList st n)) as Hs1.
  { eapply sorted_keys; [|exact Hs]. by apply class_le_keys. }
  rewrite Hd. destruct (pend_scan_spec st1 p t _ Hin1 Hs1) as (l1 & l2 & E & El & Hp & Hst).
  rewrite E. exists l1, l2. rewrite El in *.
  assert (forall x, (passed st1 p t x -> passed st p t x) /\ (stopped st1 p t x -> stopped st p t x)) as Hkeys.
  { destruct Hk as [K1 K2 K3 K4 _]. intros x. unfold passed, stopped, subtime. by rewrite !K1, !K2, !K3, !K4. }
  split_and!; [done|eapply Forall_impl; [exact Hp|apply Hkeys]|intros x Hx; apply Hkeys; auto|]. exists st1. split_and!; try done.
  by rewrite insert_before_split.
Qed.

(** Insertion into a sorted list between what precedes and what follows. *)
Lemma sorted_insert (R : jptr -> jptr -> Prop) l1 l2 p :
  (forall x y z, R x y -> R y z -> R x z) -> StronglySorted R (l1 ++ l2) ->
  Forall (fun x => R x p) l1 -> (forall x, head l2 = Some x -> R p x) ->
  StronglySorted R (l1 ++ p :: l2).
Proof.
  intros Htr Hs H1 H2. apply StronglySorted_insert; [done|by apply Forall_forall|].
  intros y Hy. apply StronglySorted_app_r in Hs. destruct l2 as [|x l2]; [by apply not_elem_of_nil in Hy|].
  specialize (H2 x eq_refl). apply elem_of_cons in Hy as [->|Hy]; [done|].
  inversion Hs as [|? ? _ Hf]; subst. rewrite Forall_forall in Hf. eauto.
Qed.

Lemma class_le_trans st x y z : class_le st x y -> class_le st y z -> class_le st x z.
Proof. unfold class_le. lia. Qed.

Lemma fcfs_le_trans st x y z : fcfs_le st x y -> fcfs_le st y z -> fcfs_le st x z.
Proof. unfold fcfs_le. lia. Qed.

Lemma start_le_trans st x y z : start_le st x y -> start_le st y z -> start_le st x z.
Proof. unfold start_le. lia. Qed.

(** A job put at the bottom goes before, in [forw] order, every job of its
    class. *)
Lemma bottom_first st p t l1 :
  Forall (passed st p t) l1 -> (forall q, q ∈ l1 -> same_class st q p -> subtime st q < t) ->
  forall q, q ∈ l1 -> ~ same_class st q p.
Proof.
  intros Hp Ht q Hq Hc. rewrite Forall_forall in Hp. specialize (Hp q Hq). specialize (Ht q Hq Hc).
  unfold passed, same_class in *. lia.
Qed.


(** The same for the started jobs. *)
Lemma start_scan_spec st p l : started st p <> 0 ->
  exists l1, l = l1 ++ start_scan cfg st p l /\ Forall (fun x => start_le st x p) l1 /\
    (forall x, head (start_scan cfg st p l) = Some x -> start_le st p x).
Proof.
  intros H0. induction l as [|q l (l1 & El & Hp & Hst)]; [by exists []|]. cbn [start_scan].
  change (priority cfg (qPtr (the_job st p))) with (pri st p).
  change (priority cfg (qPtr (the_job st q))) with (pri st q).
  change (startTime (tm (the_job st p))) with (started st p).
  change (startTime (tm (the_job st q))) with (started st q).
  change (jobId (the_job st p)) with (jid st p). change (jobId (the_job st q)) with (jid st q).
  rewrite (proj2 (Z.eqb_neq _ _) H0), orb_false_r.
  assert (start_le st p q -> exists l1, q :: l = l1 ++ q :: l /\ Forall (fun x => start_le st x p) l1 /\
    (forall x, head (q :: l) = Some x -> start_le st p x)) as Hstop.
  { intros Hq. exists []. split_and!; [done..|]. by intros x [= <-]. }
  assert (start_le st q p -> exists l1, q :: l = l1 ++ start_scan cfg st p l /\
    Forall (fun x => start_le st x p) l1 /\
    (forall x, head (start_scan cfg st p l) = Some x -> start_le st p x)) as Hgo.
  { intros Hq. exists (q :: l1). split_and!; [simpl; congruence|by constructor|done]. }
  unfold start_le in Hstop, Hgo.
  repeat case_if; breflect; first [apply Hstop; lia | apply Hgo; rewrite ?andb_false_iff in *; breflect; lia].
Qed.

(** The list of started jobs is kept sorted by the priority of the
    queue, then by the time of the start, latest first, then by job number. *)
Theorem started_order st p :
  started st p <> 0 -> NoDup (p :: jDataList st SJL) ->
  StronglySorted (start_le st) (jDataList st SJL) ->
  let st' := inStartJobList cfg p st in
  jDataList st' SJL ≡ₚ p :: jDataList st SJL /\
  remove_entry (jDataList st' SJL) p = jDataList st SJL /\
  StronglySorted (start_le st') (jDataList st' SJL).
Proof.
  intros H0 Hnd Hs st'. apply NoDup_cons in Hnd as [Hp Hnd].
  assert (same_keys st st') as Hk by apply same_keys_list.
  destruct (start_scan_spec st p (jDataList st SJL) H0) as (l1 & El & Hpass & Hstop).
  assert (jDataList st' SJL = l1 ++ p :: start_scan cfg st p (jDataList st SJL)) as El'.
  { unfold st', inStartJobList. rewrite set_list_same. rewrite El at 1. apply insert_before_split.
    by rewrite <- El. }
  rewrite El'. set (l2 := start_scan _ _ _ _) in *. clearbody l2. rewrite El in *. split_and!.
  - by rewrite Permutation_middle.
  - rewrite elem_of_app in Hp. apply remove_entry_app; tauto.
  - eapply sorted_keys; [by apply start_le_keys|]. by apply sorted_insert; [apply start_le_trans|..].
Qed.
End Order.

(** ** Moving a job: a rotation of places *)

(** The entries that [m] selects, in order. *)
Definition sel (m : jptr -> bool) (l : list jptr) : list jptr := filter (fun p => m p = true) l.

Lemma sel_app m l1 l2 : sel m (l1 ++ l2) = sel m l1 ++ sel m l2.
Proof. apply filter_app. Qed.

Lemma sel_cons m x l : sel m (x :: l) = if m x then x :: sel m l else sel m l.
Proof.
  unfold sel. destruct (m x) eqn:H; [by rewrite filter_cons_True|by rewrite filter_cons_False by congruence].
Qed.

Lemma sel_none m l : Forall (fun x => m x = false) l -> sel m l = [].
Proof. induction 1 as [|x l Hx _ IH]; [done|]. by rewrite sel_cons, Hx. Qed.

Lemma sel_reverse m l : sel m (reverse l) = reverse (sel m l).
Proof. unfold sel. by rewrite filter_reverse. Qed.

Lemma elem_of_sel m x l : x ∈ sel m l <-> m x = true /\ x ∈ l.
Proof. unfold sel. by rewrite list_elem_of_filter. Qed.

(** [aligned m l l']: the entries of [l] that [m] does not select stand at the
    same places of [l']. *)
Definition aligned (m : jptr -> bool) (l l' : list jptr) : Prop :=
  Forall2 (fun x y => x = y \/ (m x = true /\ m y = true)) l l'.

Lemma aligned_refl m l : aligned m l l.
Proof. induction l; constructor; auto. Qed.

Lemma aligned_app m l1 l1' l2 l2' : aligned m l1 l1' -> aligned m l2 l2' -> aligned m (l1 ++ l2) (l1' ++ l2').
Proof. apply Forall2_app. Qed.

Lemma aligned_trans m l1 l2 l3 : aligned m l1 l2 -> aligned m l2 l3 -> aligned m l1 l3.
Proof.
  intros H. revert l3. induction H as [|x y l1 l2 Hxy _ IH]; intros l3 H3; inversion H3 as [|? z ? ? Hyz]; subst;
    constructor; [|by apply IH]. naive_solver.
Qed.

Lemma aligned_reverse m l l' : aligned m l l' -> aligned m (reverse l) (reverse l').
Proof. apply Forall2_reverse. Qed.

Lemma aligned_keeps m l l' i x : aligned m l l' -> l !! i = Some x -> m x = false -> l' !! i = Some x.
Proof.
  intros Ha Hi Hx. destruct (Forall2_lookup_l _ _ _ _ _ Ha Hi) as (y & Hy & [->|[? _]]); [done|congruence].
Qed.

Lemma aligned_tail m x y l l' : aligned m (x :: l) (y :: l') -> aligned m l l'.
Proof. intros H. by inversion H. Qed.

Section Move.
Context (cfg : config) (st : store) (ordUser : bool) (fro to : jptr).

(** The entries that [insertAndShift] shifts. *)
Definition shifts (p : jptr) : bool :=
  bool_decide (qPtr (the_job st p) = qPtr (the_job st to)) &&
  (negb ordUser || bool_decide (uPtr (the_job st p) = uPtr (the_job st to))).

(** The list seen in the direction of the loop: [back] links lead to the next
    entry. *)
Definition view (backward : bool) (l : list jptr) : list jptr := if backward then l else reverse l.

Lemma view_view b l : view b (view b l) = l.
Proof. destruct b; [done|]. apply reverse_involutive. Qed.

Lemma view_next b a p c : NoDup (a ++ p :: c) ->
  (if b : bool then back (view b (a ++ p :: c)) p else forw (view b (a ++ p :: c)) p) = last a.
Proof.
  intros Hnd. apply NoDup_app in Hnd as (_ & Hd & Hnd). apply NoDup_cons in Hnd as [Hp _].
  destruct b; simpl; [by apply back_split|]. rewrite reverse_app, reverse_cons, <- app_assoc. simpl.
  rewrite forw_split by by rewrite elem_of_reverse. by rewrite <- head_reverse.
Qed.

Lemma remove_view b l p : remove_entry (view b l) p = view b (remove_entry l p).
Proof. destruct b; [done|]. unfold remove_entry. simpl. by rewrite filter_reverse. Qed.

Lemma put_view b a p c e : NoDup (a ++ p :: c) ->
  (if b : bool then insert_after (view b (a ++ p :: c)) (Some p) e
   else insert_before (view b (a ++ p :: c)) (Some p) e) = view b (a ++ p :: e :: c).
Proof.
  intros Hnd. destruct b; simpl; [by apply insert_after_entry|].
  assert (reverse (a ++ p :: c) = reverse c ++ p :: reverse a) as E.
  { by rewrite reverse_app, reverse_cons, <- app_assoc. }
  assert (NoDup (reverse c ++ p :: reverse a)) as Hnd' by (rewrite <- E; by rewrite reverse_Permutation).
  rewrite E, insert_before_entry by done. by rewrite reverse_app, !reverse_cons, <- !app_assoc.
Qed.

Lemma shifts_code p :
  negb (bool_decide (qPtr (the_job st p) = qPtr (the_job st to)))
  || (ordUser && negb (bool_decide (uPtr (the_job st p) = uPtr (the_job st to)))) = negb (shifts p).
Proof. unfold shifts. by destruct (bool_decide _), ordUser, (bool_decide _). Qed.

(** One turn of the loop at the entry [p]. *)
Lemma shift_turn b fuel a p c tmp : NoDup (a ++ p :: c) -> fro ∈ a ++ [p] ->
  shift_loop st b ordUser fro to (S fuel) (view b (a ++ p :: c)) (Some p) tmp =
  if shifts p then
    let l := view b (remove_entry (a ++ p :: c) tmp) in
    let l := if b then insert_after l (Some p) tmp else insert_before l (Some p) tmp in
    shift_loop st b ordUser fro to fuel l (if b then back l p else forw l p) p
  else shift_loop st b ordUser fro to fuel (view b (a ++ p :: c)) (last a) tmp.
Proof.
  intros Hnd Hfro. cbn [shift_loop]. rewrite decide_False.
  - rewrite shifts_code, remove_view. destruct (shifts p); [done|]. cbn [negb].
    f_equal. by apply view_next.
  - assert (exists a1 c1, a ++ p :: c = a1 ++ fro :: c1 /\ p ∉ a1) as (a1 & c1 & E & Hp).
    { apply elem_of_app in Hfro as [Hf|Hf].
      - apply list_elem_of_split in Hf as (a1 & a2 & ->). exists a1, (a2 ++ p :: c).
        rewrite <- app_assoc. split; [done|]. intros Hp. apply NoDup_app in Hnd as (_ & Hd & _).
        apply (Hd p); [apply elem_of_app; by left|left].
      - apply list_elem_of_singleton in Hf as ->. exists a, c. split; [done|].
        apply NoDup_app in Hnd as (_ & Hd & _). intros Hp. apply (Hd p Hp). left. }
    rewrite E in *. rewrite view_next by done. intros Hl. symmetry in Hl.
    apply last_Some in Hl as [a' ->]. apply Hp, elem_of_app. right. left.
Qed.

(** The entry [tmp] is taken out and linked behind [p]. *)
Lemma shift_put b a p u tmp c : NoDup (a ++ p :: u ++ tmp :: c) ->
  (let l := view b (remove_entry (a ++ p :: u ++ tmp :: c) tmp) in
   if b : bool then insert_after l (Some p) tmp else insert_before l (Some p) tmp) =
  view b (a ++ p :: tmp :: u ++ c) /\ NoDup (a ++ p :: tmp :: u ++ c).
Proof.
  intros Hnd. assert (NoDup (a ++ p :: tmp :: u ++ c)) as Hnd'.
  { by rewrite Permutation_middle. }
  split; [|done]. pose proof (remove_nodup (a ++ p :: u) tmp c) as Hr.
  rewrite <- app_assoc in Hr. simpl in Hr. rewrite Hr by done. rewrite <- app_assoc. simpl.
  apply put_view. eapply sublist_NoDup; [exact Hnd'|]. apply sublist_app; [done|]. by do 2 constructor.
Qed.

Lemma shift_loop_spec b A M1 U tmp V B fuel :
  NoDup (A ++ fro :: M1 ++ U ++ tmp :: V ++ B) -> shifts fro = true -> shifts tmp = true ->
  Forall (fun u => shifts u = false) U -> (length M1 + 2 <= fuel)%nat ->
  exists R, shift_loop st b ordUser fro to fuel (view b (A ++ fro :: M1 ++ U ++ tmp :: V ++ B))
      (last (A ++ fro :: M1)) tmp = Some (view b (A ++ fro :: R ++ B), fro) /\
    aligned shifts (fro :: M1 ++ U ++ V) R /\ sel shifts R = sel shifts (M1 ++ tmp :: V) /\
    R ≡ₚ M1 ++ U ++ tmp :: V.
Proof.
  intros Hnd Hfro Htmp HU Hfuel. revert U tmp V fuel Hnd Htmp HU Hfuel.
  induction M1 as [|x M1 IH] using rev_ind; intros U tmp V fuel Hnd Htmp HU Hfuel.
  - simpl in Hfuel. destruct fuel as [|[|fuel]]; [lia..|]. exists (tmp :: U ++ V).
    rewrite last_snoc. simpl app in *. rewrite shift_turn; [|done|apply elem_of_app; right; left].
    rewrite Hfro. destruct (shift_put b A fro U tmp (V ++ B) Hnd) as (Hput & Hnd').
    cbv zeta in Hput |- *. rewrite Hput. cbn [shift_loop]. rewrite (view_next b A fro) by done.
    rewrite decide_True by done. split_and!.
    + by rewrite <- app_assoc.
    + constructor; [by right|apply aligned_refl].
    + by rewrite !sel_cons, Htmp, sel_app, (sel_none shifts U).
    + simpl. by rewrite Permutation_middle.
  - rewrite length_app in Hfuel. simpl in Hfuel. destruct fuel as [|fuel]; [lia|].
    assert (forall W, A ++ fro :: (M1 ++ [x]) ++ W = (A ++ fro :: M1) ++ x :: W) as EW.
    { intros W. by rewrite <- !app_assoc. }
    rewrite EW in *.
    assert (last (A ++ fro :: M1 ++ [x]) = Some x) as ->.
    { rewrite app_comm_cons, app_assoc. apply last_snoc. }
    rewrite shift_turn; [|done|rewrite <- app_assoc; apply elem_of_app; right; left].
    destruct (shifts x) eqn:Hx.
    + destruct (shift_put b (A ++ fro :: M1) x U tmp (V ++ B) Hnd) as (Hput & Hnd').
      cbv zeta in Hput |- *. rewrite Hput, (view_next b (A ++ fro :: M1) x) by done.
      destruct (IH [] x (tmp :: U ++ V) fuel) as (R & HR & Ha & Hs & Hp);
        [by rewrite <- app_assoc in *; simpl in *; rewrite <- app_assoc|done|constructor|lia|].
      exists R. split_and!.
      * rewrite <- HR. f_equal. f_equal. rewrite <- !app_assoc. simpl. by rewrite <- app_assoc.
      * eapply aligned_trans; [|exact Ha]. rewrite <- app_assoc. constructor; [by left|].
        apply aligned_app; [apply aligned_refl|]. constructor; [by right|apply aligned_refl].
      * rewrite Hs, !sel_app, !sel_cons, sel_app, (sel_none shifts U) by done. rewrite Hx, Htmp, <- app_assoc.
        done.
      * rewrite Hp, <- app_assoc. simpl. by rewrite (Permutation_middle U V tmp).
    + destruct (IH (x :: U) tmp V fuel) as (R & HR & Ha & Hs & Hp);
        [by rewrite <- app_assoc in Hnd|done|by constructor|lia|].
      exists R. split_and!.
      * rewrite <- HR. by rewrite <- app_assoc.
      * by rewrite <- app_assoc.
      * rewrite Hs, !sel_app, (sel_cons _ x), Hx. simpl. by rewrite app_nil_r.
      * by rewrite Hp, <- app_assoc.
Qed.

Lemma put_head b a c e : NoDup (a ++ c) ->
  (if b : bool then insert_before (view b (a ++ c)) (head c) e
   else insert_after (view b (a ++ c)) (head c) e) = view b (a ++ e :: c).
Proof.
  intros Hnd. destruct b; simpl; [by apply insert_before_split|].
  destruct c as [|y c]; simpl; [by rewrite app_nil_r, reverse_app|].
  assert (NoDup (reverse (a ++ y :: c))) as Hnd' by by rewrite reverse_Permutation.
  rewrite reverse_app, reverse_cons, <- app_assoc in *. simpl in *.
  change (insert_before _ _ e) with (insert_after (reverse c ++ y :: reverse a) (Some y) e).
  rewrite insert_after_entry by done. by rewrite reverse_app, !reverse_cons, <- !app_assoc.
Qed.

(** [insertAndShift] rotates the entries of the queue (and owner) that stand
    between [froJob] and [toJob], both included: [froJob] gets the place of
    [toJob], and each of the others the place of the next one towards
    [froJob]. *)
Lemma insertAndShift_spec b A M B :
  jDataList st (PJLorMJL st fro) = view b (A ++ fro :: M ++ to :: B) ->
  NoDup (A ++ fro :: M ++ to :: B) -> shifts fro = true ->
  exists R, insertAndShift fro to b ordUser st =
      Some (set_list (PJLorMJL st fro) (view b (A ++ R ++ fro :: B)) st) /\
    aligned shifts (fro :: M ++ [to]) (R ++ [fro]) /\ sel shifts R = sel shifts (M ++ [to]) /\
    R ≡ₚ M ++ [to].
Proof.
  intros El Hnd Hfro. assert (shifts to = true) as Hto.
  { unfold shifts. by rewrite !bool_decide_true, orb_true_r. }
  destruct (shift_loop_spec b A M [] to [] B (S (S (length (view b (A ++ fro :: M ++ to :: B))))))
    as (R & HR & Ha & Hs & Hp); [done|done|done|constructor| |].
  { assert (length (view b (A ++ fro :: M ++ to :: B)) = length (A ++ fro :: M ++ to :: B)) as ->
      by (destruct b; [done|apply length_reverse]).
    rewrite length_app. simpl. rewrite length_app. simpl. lia. }
  exists R. simpl app in *. rewrite app_nil_r in Ha. split_and!; [|rewrite app_comm_cons; by apply aligned_app; [|constructor; [right|constructor]]|done|done].
  unfold insertAndShift. rewrite El.
  assert ((if b then back (view b (A ++ fro :: M ++ to :: B)) to
           else forw (view b (A ++ fro :: M ++ to :: B)) to) = last (A ++ fro :: M)) as ->.
  { pose proof (view_next b (A ++ fro :: M) to B) as Hv. rewrite <- app_assoc in Hv. by apply Hv. }
  rewrite HR. cbn [fst fmap option_fmap option_map mbind option_bind].
  assert ((if b then forw (view b (A ++ fro :: M ++ to :: B)) to
           else back (view b (A ++ fro :: M ++ to :: B)) to) = head B) as ->.
  { assert (forw (A ++ fro :: M ++ to :: B) to = head B) as E.
    { pose proof (forw_split (A ++ fro :: M) to B) as Hf. rewrite <- app_assoc in Hf. apply Hf.
      change (fro :: M ++ to :: B) with ((fro :: M) ++ to :: B) in Hnd. rewrite app_assoc in Hnd.
      apply NoDup_app in Hnd as (_ & Hd & _). intros Hin. apply (Hd to Hin). left. }
    destruct b; [done|]. unfold back. simpl. by rewrite reverse_involutive. }
  assert (NoDup (A ++ fro :: R ++ B)) as Hnd2.
  { rewrite Hp. simpl. by rewrite <- app_assoc. }
  rewrite remove_view, remove_nodup by done.
  do 2 f_equal. rewrite (app_assoc A R), app_assoc. apply put_head. rewrite <- app_assoc.
  eapply sublist_NoDup; [exact Hnd2|]. apply sublist_app; [done|]. by constructor.
Qed.
End Move.

(** ** [moveAJob] *)

Section MoveAJob.
Context (cfg : config) (privileged : bool).

(** The jobs among which [p] is moved. *)
Definition candidate (st : store) (p q : jptr) : bool :=
  bool_decide (qPtr (the_job st q) = qPtr (the_job st p))
  && ((maxUserPriority cfg <=? 0) || (jprio st q =? jprio st p))
  && (privileged || bool_decide (uPtr (the_job st q) = uPtr (the_job st p))).

(** What one candidate does to the locals of the loop. *)
Definition count1 (st : store) (req : jobMoveReq) (s : move_scan) (q : jptr) : move_scan :=
  let n := nowpos s + 1 in
  let '(fro, num) := if jid st q =? mv_jobId req then (Some q, n) else (froJob s, moveJobNum s) in
  MoveScan n num fro (if n =? position req then Some q else toJob s).

(** The jobs of one queue priority form a block of the list. *)
Definition block (st : store) (p : jptr) (l : list jptr) : Prop :=
  exists l1 l2 l3, l = l1 ++ l2 ++ l3 /\ Forall (fun q => pri cfg st q <> pri cfg st p) l1 /\
    Forall (fun q => pri cfg st q = pri cfg st p) l2 /\ Forall (fun q => pri cfg st q <> pri cfg st p) l3.

Lemma block_reverse st p l : block st p l -> block st p (reverse l).
Proof.
  intros (l1 & l2 & l3 & -> & H1 & H2 & H3). exists (reverse l3), (reverse l2), (reverse l1).
  rewrite !reverse_app, <- app_assoc. split; [done|]. by rewrite !Forall_reverse.
Qed.

Lemma sorted_split st p l : StronglySorted (class_le cfg st) l ->
  exists l1 l2 l3, l = l1 ++ l2 ++ l3 /\ Forall (fun q => pri cfg st q < pri cfg st p) l1 /\
    Forall (fun q => pri cfg st q = pri cfg st p) l2 /\ Forall (fun q => pri cfg st p < pri cfg st q) l3.
Proof.
  assert (forall (P Q : jptr -> Prop) l, (forall q, P q -> Q q -> False) -> Forall P l -> Forall Q l -> l = []) as Hno.
  { intros P Q [|y l0] H HP HQ; [done|]. inversion HP; inversion HQ; subst. exfalso. eauto. }
  induction 1 as [|x l _ (l1 & l2 & l3 & -> & H1 & H2 & H3) Hf]; [by exists [], [], []|].
  rewrite !Forall_app in Hf. destruct Hf as (Hf1 & Hf2 & Hf3). unfold class_le in *.
  destruct (Z.lt_trichotomy (pri cfg st x) (pri cfg st p)) as [Hx|[Hx|Hx]].
  - exists (x :: l1), l2, l3. split_and!; [done|by constructor|done..].
  - assert (l1 = []) as -> by (eapply Hno; [|exact H1|exact Hf1]; simpl; lia).
    exists [], (x :: l2), l3. split_and!; [done|constructor|by constructor|done].
  - assert (l1 = []) as -> by (eapply Hno; [|exact H1|exact Hf1]; simpl; lia).
    assert (l2 = []) as -> by (eapply Hno; [|exact H2|exact Hf2]; simpl; lia).
    exists [], [], (x :: l3). split_and!; [done|constructor|constructor|by constructor].
Qed.

Lemma block_sorted st p l : StronglySorted (class_le cfg st) l -> block st p l.
Proof.
  intros (l1 & l2 & l3 & -> & H1 & H2 & H3)%(sorted_split st p). exists l1, l2, l3.
  split_and!; [done| |done|]; (eapply Forall_impl; [eassumption|]; simpl; lia).
Qed.

Lemma candidate_pri st p q : candidate st p q = true -> pri cfg st q = pri cfg st p.
Proof.
  unfold candidate, pri. intros H. breflect. congruence.
Qed.

(** The loop sees the candidates of a block, in order. *)
Lemma move_loop_block st p req l s : block st p l -> nowpos s = 0 ->
  move_loop cfg st (the_job st p) req privileged l s =
  fold_left (count1 st req) (sel (candidate st p) l) s.
Proof.
  intros (l1 & l2 & l3 & -> & H1 & H2 & H3) Hn.
  assert (forall l, Forall (fun q => pri cfg st q <> pri cfg st p) l -> sel (candidate st p) l = []) as Hnone.
  { intros l H. apply sel_none. eapply Forall_impl; [exact H|]. intros q Hq.
    destruct (candidate st p q) eqn:Hc; [|done]. by apply candidate_pri in Hc. }
  assert (forall q l s, move_loop cfg st (the_job st p) req privileged (q :: l) s =
    if negb (nowpos s =? 0) && negb (pri cfg st q =? pri cfg st p) then s
    else move_loop cfg st (the_job st p) req privileged l
           (if candidate st p q then count1 st req s q else s)) as Hstep.
  { intros q l s0. cbn [move_loop]. unfold candidate, count1, jid, jprio.
    change (priority cfg (qPtr (the_job st q))) with (pri cfg st q).
    change (priority cfg (qPtr (the_job st p))) with (pri cfg st p).
    rewrite Z.leb_antisym. case_if; [done|]. destruct (bool_decide (qPtr _ = _)); [|done]. cbn [negb andb].
    destruct (0 <? maxUserPriority cfg), (jobPriority _ =? _); cbn [negb andb orb]; try done;
      destruct privileged, (bool_decide _); cbn [negb andb orb]; try done; by case_if. }
  assert (forall l s, Forall (fun q => pri cfg st q <> pri cfg st p) l ->
    move_loop cfg st (the_job st p) req privileged l s = s) as Hskip.
  { induction l as [|q l IH]; intros s0 Hl; [done|]. inversion Hl as [|? ? Hq Hl']; subst.
    rewrite Hstep. case_if; [done|]. destruct (candidate st p q) eqn:Hc; [by apply candidate_pri in Hc|].
    by apply IH. }
  rewrite !sel_app, (Hnone l1), (Hnone l3), app_nil_r by done. cbn [app].
  induction H1 as [|q l1 Hq _ IH]; cbn [app].
  - clear Hn. revert s. induction H2 as [|q l2 Hq _ IH]; intros s; [by apply Hskip|]. cbn [app].
    rewrite Hstep, (proj2 (Z.eqb_eq _ _) Hq), andb_false_r, sel_cons, IH. by destruct (candidate st p q).
  - rewrite Hstep, Hn. cbn [Z.eqb negb andb].
    destruct (candidate st p q) eqn:Hc; [by apply candidate_pri in Hc|]. exact IH.
Qed.

(** What the loop has counted. *)
Lemma count_nowpos st req c s :
  nowpos (fold_left (count1 st req) c s) = nowpos s + Z.of_nat (length c).
Proof.
  revert s. induction c as [|q c IH]; intros s; simpl; [lia|]. rewrite IH. unfold count1.
  case_if; simpl; lia.
Qed.

Lemma count_skip_fro st req c s : Forall (fun q => jid st q <> mv_jobId req) c ->
  froJob (fold_left (count1 st req) c s) = froJob s /\
  moveJobNum (fold_left (count1 st req) c s) = moveJobNum s.
Proof.
  intros H. revert s. induction H as [|q c Hq _ IH]; intros s; simpl; [done|].
  destruct (IH (count1 st req s q)) as [-> ->]. unfold count1. by rewrite (proj2 (Z.eqb_neq _ _) Hq).
Qed.

Lemma count_skip_to st req c s :
  position req <= nowpos s \/ nowpos s + Z.of_nat (length c) < position req ->
  toJob (fold_left (count1 st req) c s) = toJob s.
Proof.
  revert s. induction c as [|q c IH]; intros s H; simpl in *; [done|].
  assert (nowpos (count1 st req s q) = nowpos s + 1) as En by (unfold count1; by case_if).
  rewrite IH by lia. unfold count1. rewrite (proj2 (Z.eqb_neq (nowpos s + 1) (position req))) by lia.
  by case_if.
Qed.

Lemma count_result st req p t c1 c2 d1 d2 :
  c1 ++ p :: c2 = d1 ++ t :: d2 -> Forall (fun q => jid st q <> mv_jobId req) c1 ->
  jid st p = mv_jobId req -> Forall (fun q => jid st q <> mv_jobId req) c2 ->
  position req = Z.of_nat (length d1) + 1 ->
  fold_left (count1 st req) (c1 ++ p :: c2) (MoveScan 0 0 None None) =
  MoveScan (Z.of_nat (length (c1 ++ p :: c2))) (Z.of_nat (length c1) + 1) (Some p) (Some t).
Proof.
  intros E H1 Hp H2 Hpos. set (s := fold_left _ _ _).
  assert (nowpos s = Z.of_nat (length (c1 ++ p :: c2))) as En by apply count_nowpos.
  assert (froJob s = Some p /\ moveJobNum s = Z.of_nat (length c1) + 1) as [Ef Em].
  { unfold s. rewrite fold_left_app. simpl. set (s1 := fold_left _ c1 _).
    destruct (count_skip_fro st req c2 (count1 st req s1 p) H2) as [-> ->].
    unfold count1. rewrite Hp, Z.eqb_refl. simpl. split; [done|]. unfold s1. by rewrite count_nowpos. }
  assert (toJob s = Some t) as Et.
  { unfold s. rewrite E, fold_left_app. simpl. set (s1 := fold_left _ d1 _).
    assert (nowpos s1 = Z.of_nat (length d1)) as E1 by apply count_nowpos.
    rewrite count_skip_to; [|left]; unfold count1; case_if; simpl; rewrite ?E1, ?Hpos, ?Z.eqb_refl; done || lia. }
  destruct s; simpl in *. by subst.
Qed.

Lemma sel_ext m m' l : Forall (fun x => m x = m' x) l -> sel m l = sel m' l.
Proof. induction 1 as [|x l Hx _ IH]; [done|]. by rewrite !sel_cons, Hx, IH. Qed.

Lemma aligned_mono m m' l l' : (forall x, x ∈ l ++ l' -> m x = true -> m' x = true) ->
  aligned m l l' -> aligned m' l l'.
Proof.
  intros Hm H. induction H as [|x y l l' Hxy H IH]; constructor.
  - destruct Hxy as [|[Hx Hy]]; [by left|right]. split; apply Hm; try done; set_solver.
  - apply IH. intros z Hz. apply Hm. set_solver.
Qed.

Lemma candidate_shifts st p t q : candidate st p t = true -> candidate st p q = true ->
  shifts st (negb privileged) t q = true.
Proof.
  unfold candidate, shifts. intros Ht Hq. breflect. rewrite negb_involutive.
  rewrite bool_decide_true by congruence. destruct privileged; [done|]. simpl in *. breflect.
  rewrite bool_decide_true by congruence. done.
Qed.

(** An entry between two candidates that [insertAndShift] shifts is one. *)
Lemma shifts_candidate st p t q : candidate st p t = true ->
  (class_le cfg st p q /\ class_le cfg st q t) \/ (class_le cfg st t q /\ class_le cfg st q p) ->
  shifts st (negb privileged) t q = true -> candidate st p q = true.
Proof.
  unfold candidate, shifts, class_le, pri. rewrite negb_involutive.
  intros [[Etq Etp]%andb_true_iff Etu]%andb_true_iff Hle [Eqq Equ]%andb_true_iff.
  apply bool_decide_eq_true in Etq, Eqq. rewrite Eqq, Etq in *. rewrite bool_decide_true by done. cbn [andb].
  apply andb_true_iff. split.
  - destruct (maxUserPriority cfg <=? 0); [done|]. simpl in *. breflect. apply Z.eqb_eq. lia.
  - destruct privileged; [done|]. simpl in *. breflect. rewrite bool_decide_true; congruence.
Qed.

Lemma sorted_pair (R : relation jptr) a x c y : StronglySorted R (a ++ x :: c) -> y ∈ c -> R x y.
Proof.
  intros Hs Hy. apply StronglySorted_app_r in Hs. inversion Hs as [|? ? _ Hf]; subst.
  rewrite Forall_forall in Hf. by apply Hf.
Qed.

(** The entries between two others in a sorted list, read in either
    direction. *)
Lemma sorted_between (R : relation jptr) b A p M t B x :
  StronglySorted R (view b (A ++ p :: M ++ t :: B)) -> x ∈ M ->
  (R p x /\ R x t) \/ (R t x /\ R x p).
Proof.
  intros Hs (M1 & M2 & ->)%list_elem_of_split. destruct b; simpl in Hs.
  - left. split; [eapply sorted_pair; [exact Hs|]; set_solver|].
    rewrite <- app_assoc, app_comm_cons, app_assoc in Hs. simpl in Hs. eapply sorted_pair; [exact Hs|]. set_solver.
  - right. rewrite !reverse_app, reverse_cons, !reverse_app, !reverse_cons, <- !app_assoc in Hs. simpl in Hs.
    split; [eapply sorted_pair; [exact Hs|]; set_solver|].
    replace (reverse B ++ t :: reverse M2 ++ x :: reverse M1 ++ p :: reverse A)
      with ((reverse B ++ t :: reverse M2) ++ x :: reverse M1 ++ p :: reverse A) in Hs by by rewrite <- app_assoc.
    eapply sorted_pair; [exact Hs|]. set_solver.
Qed.

Lemma rotate_candidates st p t b A M B :
  jDataList st (PJLorMJL st p) = view b (A ++ p :: M ++ t :: B) ->
  NoDup (A ++ p :: M ++ t :: B) -> candidate st p t = true ->
  StronglySorted (class_le cfg st) (jDataList st (PJLorMJL st p)) ->
  exists R, insertAndShift p t b (negb privileged) st =
      Some (set_list (PJLorMJL st p) (view b (A ++ R ++ p :: B)) st) /\
    aligned (candidate st p) (p :: M ++ [t]) (R ++ [p]) /\
    sel (candidate st p) R = sel (candidate st p) (M ++ [t]) /\ R ≡ₚ M ++ [t].
Proof.
  intros El Hnd Ht Hs.
  assert (candidate st p p = true) as Hpp.
  { unfold candidate. rewrite !bool_decide_true, Z.eqb_refl by done. by rewrite !orb_true_r. }
  assert (shifts st (negb privileged) t p = true) as Hpt by by apply candidate_shifts with p.
  destruct (insertAndShift_spec st (negb privileged) p t b A M B El Hnd Hpt) as (R & HR & Ha & HsR & Hp).
  assert (forall x, x ∈ p :: M ++ [t] -> shifts st (negb privileged) t x = candidate st p x) as Hsame.
  { intros x Hx. apply eq_true_iff_eq. split; [|by apply candidate_shifts].
    apply elem_of_cons in Hx as [->|Hx]; [done|]. apply elem_of_app in Hx as [Hx|Hx].
    - apply shifts_candidate; [done|]. rewrite El in Hs. by apply (sorted_between _ _ _ _ _ _ _ _ Hs).
    - by apply list_elem_of_singleton in Hx as ->. }
  exists R. split_and!; [done| | |].
  - eapply aligned_mono; [|exact Ha]. intros x Hx. rewrite Hsame; [done|].
    apply elem_of_app in Hx as [Hx|Hx]; [done|]. rewrite Hp in Hx. set_solver.
  - rewrite <- (sel_ext (shifts st (negb privileged) t)), HsR; [apply sel_ext|];
      apply Forall_forall; intros x Hx; apply Hsame; [|rewrite Hp in Hx]; set_solver.
  - done.
Qed.

(** The list in the order of the walk. *)
Definition walk (req : jobMoveReq) (l : list jptr) : list jptr :=
  if opCode req =? TO_TOP then reverse l else l.

(** A list and a job that [moveAJob] is asked to move. *)
Record movable (st : store) (p : jptr) (req : jobMoveReq) : Prop := {
  mb_in : p ∈ jDataList st (PJLorMJL st p);
  mb_nodup : NoDup (jDataList st (PJLorMJL st p));
  mb_sorted : StronglySorted (class_le cfg st) (jDataList st (PJLorMJL st p));
  mb_id : jid st p = mv_jobId req;
  mb_ids : Forall (fun q => jid st q = mv_jobId req -> q = p) (jDataList st (PJLorMJL st p)) }.

(** What a move to the place [pos] among the candidates does to a list. *)
Record moved (m : jptr -> bool) (ord : list jptr -> list jptr) (p : jptr) (pos : nat)
    (l l' : list jptr) : Prop := {
  mvd_others : aligned m l l';
  mvd_place : sel m (ord l') !! pos = Some p;
  mvd_rest : remove_entry (sel m (ord l')) p = remove_entry (sel m (ord l)) p }.

Lemma walk_walk req l : walk req (walk req l) = l.
Proof. unfold walk. case_if; [apply reverse_involutive|done]. Qed.

Lemma NoDup_sel m l : NoDup l -> NoDup (sel m l).
Proof. apply NoDup_filter. Qed.

(** The place of an element of a list without repetitions. *)
Lemma nodup_place {A} (a c : list A) x i : NoDup (a ++ x :: c) -> (a ++ x :: c) !! i = Some x -> i = length a.
Proof.
  intros Hnd Hi. eapply NoDup_lookup; [exact Hnd|exact Hi|]. by apply list_lookup_middle.
Qed.

Lemma candidate_refl st p : candidate st p p = true.
Proof.
  unfold candidate. rewrite !bool_decide_true, Z.eqb_refl by done. by rewrite !orb_true_r.
Qed.

Lemma moved_intro req m p W W' X Y X' Y' :
  aligned m W W' -> NoDup W -> NoDup W' -> sel m W = X ++ p :: Y -> sel m W' = X' ++ p :: Y' ->
  X ++ Y = X' ++ Y' -> moved m (walk req) p (length X') (walk req W) (walk req W').
Proof.
  intros Ha Hnd Hnd' E E' EXY. split; rewrite ?walk_walk.
  - unfold walk. case_if; [by apply aligned_reverse|done].
  - rewrite E'. by apply list_lookup_middle.
  - apply (NoDup_sel m) in Hnd, Hnd'. rewrite E, E' in *. by rewrite !remove_nodup.
Qed.

(** The job jumps over the candidates [M] and [t] behind it in the walk. *)
Lemma moved_down st p t req A M B :
  let m := candidate st p in
  jDataList st (PJLorMJL st p) = walk req (A ++ p :: M ++ t :: B) -> movable st p req ->
  m t = true ->
  exists st', insertAndShift p t (negb (opCode req =? TO_TOP)) (negb privileged) st = Some st' /\
    moved m (walk req) p (S (length (sel m A ++ sel m M))) (jDataList st (PJLorMJL st p))
      (jDataList st' (PJLorMJL st p)) /\
    forall n, n <> PJLorMJL st p -> jDataList st' n = jDataList st n.
Proof.
  intros m El [_ Hnd Hs _ _] Ht. pose proof (candidate_refl st p) as Hp. fold m in Hp.
  assert (forall l, view (negb (opCode req =? TO_TOP)) l = walk req l) as Hv by (intros l; unfold walk, view; by destruct (_ =? _)).
  assert (NoDup (A ++ p :: M ++ t :: B)) as Hnd'.
  { rewrite El in Hnd. unfold walk in Hnd. destruct (_ =? _); [by rewrite reverse_Permutation in Hnd|done]. }
  destruct (rotate_candidates st p t (negb (opCode req =? TO_TOP)) A M B) as (R & HR & Ha & HsR & HpR);
    [by rewrite Hv|done..|].
  eexists. split; [exact HR|]. rewrite set_list_same, El, Hv. split; [|intros; by apply set_list_other].
  fold m in Ha, HsR |- *. rewrite sel_app, sel_cons, Ht in HsR. simpl in HsR.
  replace (S (length (sel m A ++ sel m M))) with (length (sel m A ++ sel m M ++ [t]))
    by (rewrite !length_app; simpl; lia).
  eapply moved_intro with (X := sel m A) (Y := sel m M ++ t :: sel m B) (Y' := sel m B).
  - apply aligned_app; [apply aligned_refl|].
    change (p :: M ++ t :: B) with ((p :: M) ++ [t] ++ B). change (R ++ p :: B) with (R ++ [p] ++ B).
    rewrite !app_assoc. by apply aligned_app; [|apply aligned_refl].
  - done.
  - by rewrite HpR, <- (Permutation_middle (M ++ [t]) B p), <- app_assoc.
  - by rewrite sel_app, sel_cons, Hp, sel_app, sel_cons, Ht.
  - by rewrite !sel_app, sel_cons, Hp, HsR, <- !app_assoc.
  - by rewrite <- !app_assoc.
Qed.

(** The job jumps over the candidates [t] and [M] before it in the walk. *)
Lemma moved_up st p t req A M B :
  let m := candidate st p in
  jDataList st (PJLorMJL st p) = walk req (A ++ t :: M ++ p :: B) -> movable st p req ->
  m t = true ->
  exists st', insertAndShift p t (opCode req =? TO_TOP) (negb privileged) st = Some st' /\
    moved m (walk req) p (length (sel m A)) (jDataList st (PJLorMJL st p))
      (jDataList st' (PJLorMJL st p)) /\
    forall n, n <> PJLorMJL st p -> jDataList st' n = jDataList st n.
Proof.
  intros m El [_ Hnd Hs _ _] Ht. pose proof (candidate_refl st p) as Hp. fold m in Hp.
  assert (forall l, view (opCode req =? TO_TOP) l = walk req (reverse l)) as Hv.
  { intros l. unfold walk, view. destruct (_ =? _); by rewrite ?reverse_involutive. }
  assert (NoDup (A ++ t :: M ++ p :: B)) as Hnd'.
  { rewrite El in Hnd. unfold walk in Hnd. destruct (_ =? _); [by rewrite reverse_Permutation in Hnd|done]. }
  assert (reverse (reverse B ++ p :: reverse M ++ t :: reverse A) = A ++ t :: M ++ p :: B) as Er.
  { rewrite !reverse_app, !reverse_cons, !reverse_app, !reverse_cons, !reverse_involutive.
    by rewrite <- !app_assoc. }
  destruct (rotate_candidates st p t (opCode req =? TO_TOP) (reverse B) (reverse M) (reverse A))
    as (R & HR & Ha & HsR & HpR); [by rewrite Hv, Er|by rewrite <- reverse_Permutation, Er|done..|].
  eexists. split; [exact HR|]. rewrite set_list_same, El, Hv. split; [|intros; by apply set_list_other].
  fold m in Ha, HsR |- *. rewrite sel_app, sel_cons, Ht, sel_reverse in HsR. simpl in HsR.
  assert (reverse (reverse B ++ R ++ p :: reverse A) = A ++ p :: reverse R ++ B) as ->.
  { rewrite !reverse_app, reverse_cons, !reverse_involutive. by rewrite <- !app_assoc. }
  eapply moved_intro with (X := sel m A ++ t :: sel m M) (Y := sel m B) (Y' := t :: sel m M ++ sel m B).
  - apply aligned_app; [apply aligned_refl|]. apply aligned_reverse in Ha.
    rewrite reverse_app, reverse_cons, reverse_app, reverse_involutive in Ha. simpl in Ha.
    apply (aligned_app _ _ _ B B) in Ha; [|apply aligned_refl].
    simpl in Ha. by rewrite <- !app_assoc in Ha.
  - done.
  - rewrite (reverse_Permutation R), HpR, (reverse_Permutation M).
    assert (p :: (M ++ [t]) ++ B ≡ₚ t :: M ++ p :: B) as ->; [|done].
    rewrite <- (Permutation_middle M B p), (Permutation_app_comm M [t]). simpl. apply perm_swap.
  - by rewrite sel_app, sel_cons, Ht, sel_app, sel_cons, Hp, <- app_assoc.
  - rewrite sel_app, sel_cons, Hp, sel_app, sel_reverse, HsR, reverse_app, reverse_involutive. done.
  - by rewrite <- app_assoc.
Qed.

(** The choice that [moveAJob] makes after the loop. *)
Definition move_choice (st : store) (req : jobMoveReq) (s : move_scan) : option store :=
  if position req =? moveJobNum s then Some st
  else match froJob s, toJob s with
       | Some fro, Some to =>
           insertAndShift fro to
             (if opCode req =? TO_TOP then position req <? moveJobNum s
              else moveJobNum s <? position req) (negb privileged) st
       | _, _ => None
       end.

Lemma move_choice_spec st p req : movable st p req ->
  let l := jDataList st (PJLorMJL st p) in
  let c := sel (candidate st p) (walk req l) in
  let s := move_loop cfg st (the_job st p) req privileged (walk req l) (MoveScan 0 0 None None) in
  nowpos s = Z.of_nat (length c) /\
  (1 <= position req <= Z.of_nat (length c) ->
   exists st', move_choice st req s = Some st' /\
     moved (candidate st p) (walk req) p (Z.to_nat (position req - 1)) l
       (jDataList st' (PJLorMJL st p)) /\
     forall n, n <> PJLorMJL st p -> jDataList st' n = jDataList st n).
Proof.
  intros Hm l c s. destruct (Hm) as [Hin Hnd Hs Hid Hids]. fold l in Hin, Hnd, Hs, Hids.
  assert (block st p (walk req l)) as Hb.
  { apply (block_sorted st p) in Hs. unfold walk. destruct (_ =? _); [by apply block_reverse|done]. }
  assert (s = fold_left (count1 st req) c (MoveScan 0 0 None None)) as Es by by apply move_loop_block.
  split; [rewrite Es; apply count_nowpos|]. intros Hpos.
  assert (p ∈ walk req l) as Hin' by (unfold walk; destruct (_ =? _); by rewrite ?elem_of_reverse).
  assert (NoDup (walk req l)) as Hnd' by (unfold walk; destruct (_ =? _); by rewrite ?reverse_Permutation).
  assert (Forall (fun q => jid st q = mv_jobId req -> q = p) (walk req l)) as Hids'.
  { unfold walk; destruct (_ =? _); by rewrite ?Forall_reverse. }
  assert (l = walk req (walk req l)) as El by by rewrite walk_walk.
  destruct (list_elem_of_split _ _ Hin') as (w1 & w2 & Ew).
  pose proof (candidate_refl st p) as Hp. set (m := candidate st p) in *.
  assert (c = sel m w1 ++ p :: sel m w2) as Ec by (unfold c; by rewrite Ew, sel_app, sel_cons, Hp).
  destruct (lookup_lt_is_Some_2 c (Z.to_nat (position req - 1))) as [t Ht]; [lia|].
  pose proof (list_elem_of_split_length _ _ _ Ht) as (d1 & d2 & Ed & Hd).
  assert (forall w, Forall (fun q => jid st q = mv_jobId req -> q = p) w -> p ∉ w ->
    Forall (fun q => jid st q <> mv_jobId req) (sel m w)) as Hother.
  { intros w Hw Hpw. apply Forall_forall. intros q Hq Hj. apply elem_of_sel in Hq as [_ Hq].
    rewrite Forall_forall in Hw. apply Hpw. rewrite <- (Hw q Hq Hj). done. }
  rewrite Ew in Hnd', Hids'. apply Forall_app in Hids' as [Hi1 Hi2]. apply Forall_cons in Hi2 as [_ Hi2].
  assert ((p ∉ w1) /\ (p ∉ w2)) as [Hp1 Hp2].
  { apply NoDup_app in Hnd' as (_ & Hd' & Hn2). apply NoDup_cons in Hn2 as [Hn2 _].
    split; [|done]. intros H. apply (Hd' p H). left. }
  assert (position req = Z.of_nat (length d1) + 1) as Epos by lia.
  assert (s = MoveScan (Z.of_nat (length c)) (Z.of_nat (length (sel m w1)) + 1) (Some p) (Some t)) as Es'.
  { rewrite Es, Ec. apply (count_result st req p t (sel m w1) (sel m w2) d1 d2); auto. congruence. }
  assert (NoDup c) as Hnc by (unfold c; rewrite Ew; by apply NoDup_sel).
  assert (m t = true /\ Z.to_nat (position req - 1) = length d1) as [Htm ->].
  { split; [|lia]. assert (t ∈ c) as Hc by by eapply list_elem_of_lookup_2. by apply elem_of_sel in Hc as [? _]. }
  rewrite Hd in *. unfold move_choice. rewrite Es'. cbn [moveJobNum froJob toJob]. rewrite Epos.
  destruct (Z.eqb_spec (Z.of_nat (length d1) + 1) (Z.of_nat (length (sel m w1)) + 1)) as [Hk|Hk].
  - exists st. split; [done|]. split; [|done]. fold l. split; [apply aligned_refl| |done].
    fold c. rewrite Ec. replace (length d1) with (length (sel m w1)) by lia. by apply list_lookup_middle.
  - assert (length d1 < length (sel m w1) \/ length (sel m w1) < length d1)%nat as [Hlt|Hgt] by lia.
    + rewrite Ec, lookup_app_l in Ht by done. assert (t ∈ w1) as Ht1.
      { apply list_elem_of_lookup_2 in Ht. by apply elem_of_sel in Ht as [_ ?]. }
      destruct (list_elem_of_split _ _ Ht1) as (x1 & x2 & ->).
      rewrite sel_app, sel_cons, Htm in Ht, Hlt, Hk.
      assert (length d1 = length (sel m x1)) as ->.
      { eapply nodup_place; [|exact Ht]. rewrite Ec, sel_app, sel_cons, Htm in Hnc.
        by apply NoDup_app in Hnc as (? & _). }
      rewrite length_app in *. simpl in *.
      destruct (moved_up st p t req x1 x2 w2) as (st' & E & H);
        [fold l; rewrite El, Ew; by rewrite <- app_assoc|done|done|].
      exists st'. split; [|done]. rewrite <- E. f_equal.
      rewrite sel_app, sel_cons, Htm, length_app.
      destruct (opCode req =? TO_TOP); [apply Z.ltb_lt|apply Z.ltb_ge]; simpl; lia.
    + rewrite Ec, lookup_app_r in Ht by lia. destruct (length d1 - length (sel m w1))%nat as [|i] eqn:Ei; [lia|].
      simpl in Ht. assert (t ∈ w2) as Ht2.
      { apply list_elem_of_lookup_2 in Ht. by apply elem_of_sel in Ht as [_ ?]. }
      destruct (list_elem_of_split _ _ Ht2) as (x1 & x2 & ->).
      rewrite sel_app, sel_cons, Htm in Ht.
      assert (i = length (sel m x1)) as ->.
      { eapply nodup_place; [|exact Ht]. rewrite Ec, sel_app, sel_cons, Htm in Hnc.
        apply NoDup_app in Hnc as (_ & _ & Hn). by apply NoDup_cons in Hn as [_ ?]. }
      destruct (moved_down st p t req w1 x1 x2) as (st' & E & H); [fold l; by rewrite El, Ew|done|done|].
      exists st'. fold m l in H. rewrite length_app in H.
      replace (length d1) with (S (length (sel m w1) + length (sel m x1))) by lia.
      split; [|done]. rewrite <- E. f_equal.
      destruct (opCode req =? TO_TOP); [apply Z.ltb_ge|apply Z.ltb_lt]; lia.
Qed.

Definition flagged (p : jptr) (st : store) : store :=
  upd_job p (set_jFlags (fun f => Z.lor f JFLAG_BTOP)) st.

Lemma move_loop_job st j j' req w s : qPtr j = qPtr j' -> jobPriority j = jobPriority j' ->
  uPtr j = uPtr j' ->
  move_loop cfg st j req privileged w s = move_loop cfg st j' req privileged w s.
Proof.
  intros H1 H2 H3. revert s. induction w as [|q w IH]; intros s; [done|]. cbn [move_loop].
  rewrite H1, H2, H3. by repeat (case_if; [by rewrite ?IH|]); rewrite ?IH.
Qed.

Lemma flagged_keeps {A} (g : job -> A) p st q : (forall j f, g (set_jFlags f j) = g j) ->
  g (the_job (flagged p st) q) = g (the_job st q).
Proof. intros H. apply upd_job_keeps. intros j. apply H. Qed.

Lemma flagged_candidate p st x q : candidate (flagged p st) x q = candidate st x q.
Proof.
  unfold candidate, jprio. by rewrite !(flagged_keeps qPtr), !(flagged_keeps jobPriority), !(flagged_keeps uPtr).
Qed.

Lemma flagged_movable p st req : movable st p req -> movable (flagged p st) p req.
Proof.
  assert (forall q, jid (flagged p st) q = jid st q) as Hj by (intros q; by apply (flagged_keeps jobId)).
  intros [H1 H2 H3 H4 H5]. split; try done.
  - eapply sorted_keys; [|exact H3]. apply class_le_keys. by apply same_keys_upd.
  - by rewrite Hj.
  - eapply Forall_impl; [exact H5|]. intros q. simpl. by rewrite Hj.
Qed.

Lemma sel_flagged p st x l : sel (candidate (flagged p st) x) l = sel (candidate st x) l.
Proof. apply sel_ext. apply Forall_forall. intros q _. apply flagged_candidate. Qed.

Lemma moved_flagged p st x ord n l l' :
  moved (candidate (flagged p st) x) ord x n l l' -> moved (candidate st x) ord x n l l'.
Proof.
  intros [H1 H2 H3]. rewrite !sel_flagged in *. split; try done.
  eapply aligned_mono; [|exact H1]. intros q _. by rewrite flagged_candidate.
Qed.

(** A pending job is moved to the place that the request names. *)
Lemma move_in_range fuel getJobData st p req log :
  getJobData (mv_jobId req) = Some p -> nodeType (the_job st p) = JGRP_NODE_JOB ->
  IS_PEND (jStatus (the_job st p)) = true -> movable st p req ->
  let l := jDataList st (PJLorMJL st p) in
  let c := sel (candidate st p) (walk req l) in
  moveAJob cfg (S fuel) getJobData req log privileged st =
    (if Z.of_nat (length c) <? position req then
       moveAJob cfg fuel getJobData (JobMoveReq (opCode req) (mv_jobId req) (Z.of_nat (length c))) log
         privileged (flagged p st)
     else moveAJob cfg (S fuel) getJobData req log privileged st) /\
  (1 <= position req <= Z.of_nat (length c) ->
   exists st', moveAJob cfg (S fuel) getJobData req log privileged st =
       Some (MoveResult st' req log DepCond.LSBE_NO_ERROR) /\
     moved (candidate st p) (walk req) p (Z.to_nat (position req - 1)) l
       (jDataList st' (PJLorMJL st p)) /\
     forall n, n <> PJLorMJL st p -> jDataList st' n = jDataList st n).
Proof.
  intros Hg Hn Hp Hm l c. cbn [moveAJob]. rewrite Hg, Hn, Hp. cbn [Z.eqb JGRP_NODE_JOB negb Pos.eqb].
  fold (flagged p st). set (st1 := flagged p st).
  change (PJLorMJL st1 p) with (PJLorMJL st p). change (jDataList st1 (PJLorMJL st p)) with l. fold (walk req l).
  rewrite (move_loop_job st1 (the_job st p) (the_job st1 p)) by (symmetry; by apply flagged_keeps).
  destruct (move_choice_spec st1 p req (flagged_movable _ _ _ Hm)) as [En Hch].
  change (jDataList st1 (PJLorMJL st1 p)) with l in *. change (PJLorMJL st1 p) with (PJLorMJL st p) in *.
  set (s := move_loop _ st1 _ _ _ _ _) in *. unfold st1 in En, Hch. rewrite sel_flagged in *. fold st1 c in En, Hch.
  rewrite En. split; [by case_if|]. intros Hpos. destruct (Hch Hpos) as (st' & E & Hmv & Hoth).
  exists st'. rewrite (proj2 (Z.ltb_ge _ _)) by lia. split; [|split; [by apply moved_flagged in Hmv|done]].
  unfold move_choice in E. destruct (position req =? moveJobNum s); [by injection E as <-|].
  destruct (froJob s), (toJob s); try done. by rewrite E.
Qed.

(** C9: A request to move a pending job to the top or the bottom of its
    queue does what btop(1) and bbot(1) say.  Counting from the end of the list
    that the request names, over the jobs of the same queue (and, when users may
    set priorities, of the same priority; and, for a caller without authority
    over the queue, of the same owner), the job ends up at the position asked
    for, or at the last one when there are fewer jobs; the other jobs counted
    keep their relative order, every job not counted keeps its very place in the
    list, and no other list changes.  The one recursive call ends: two levels
    are enough for every request. *)
Theorem job_move getJobData st p req log :
  getJobData (mv_jobId req) = Some p -> nodeType (the_job st p) = JGRP_NODE_JOB ->
  IS_PEND (jStatus (the_job st p)) = true -> movable st p req -> 1 <= position req ->
  let l := jDataList st (PJLorMJL st p) in
  let c := sel (candidate st p) (walk req l) in
  let pos := Z.min (position req) (Z.of_nat (length c)) in
  exists st',
    moveAJob cfg 2 getJobData req log privileged st =
      Some (MoveResult st' (JobMoveReq (opCode req) (mv_jobId req) pos) log DepCond.LSBE_NO_ERROR) /\
    moved (candidate st p) (walk req) p (Z.to_nat (pos - 1)) l (jDataList st' (PJLorMJL st p)) /\
    forall n, n <> PJLorMJL st p -> jDataList st' n = jDataList st n.
Proof.
  intros Hg Hn Hp Hm Hpos l c pos.
  destruct (move_in_range 1 getJobData st p req log Hg Hn Hp Hm) as [Hrec Hin]. fold l c in Hrec, Hin.
  destruct (Z.ltb_spec (Z.of_nat (length c)) (position req)) as [Hlt|Hle].
  - unfold pos. rewrite Z.min_r by lia. set (req' := JobMoveReq _ _ _) in *.
    assert (movable (flagged p st) p req') as Hm' by (apply flagged_movable; by destruct Hm).
    assert (1 <= Z.of_nat (length c)) as Hc.
    { destruct Hm as [Hi _ _ _ _]. assert (p ∈ c) as H.
      { apply elem_of_sel. split; [apply candidate_refl|]. unfold walk. destruct (_ =? _); by rewrite ?elem_of_reverse. }
      destruct (nil_or_length_pos c) as [E|?]; [by rewrite E in H; apply not_elem_of_nil in H|lia]. }
    destruct (move_in_range 0 getJobData (flagged p st) p req' log Hg) as [_ Hin'];
      [by rewrite flagged_keeps|by rewrite flagged_keeps|done|].
    change (PJLorMJL (flagged p st) p) with (PJLorMJL st p) in Hin'.
    change (jDataList (flagged p st) (PJLorMJL st p)) with l in Hin'. rewrite sel_flagged in Hin'.
    change (walk req' l) with (walk req l) in Hin'. fold c in Hin'.
    destruct Hin' as (st' & E & Hmv & Ho); [simpl; lia|]. exists st'. split; [by rewrite Hrec|].
    split; [by apply moved_flagged in Hmv|done].
  - unfold pos. rewrite Z.min_l by lia. destruct (Hin ltac:(lia)) as (st' & E & H). exists st'.
    split; [|done]. rewrite E. by destruct req.
Qed.
End MoveAJob.

(** ** Witnesses: three jobs of one queue, of which two are pending *)

Definition demo_cfg : config := Config (fun _ => 30) (fun _ => 0) 0 false false false.
Definition demo_job (id : Z) (s : Z) (b : sptr) (start : Z) : job :=
  Job id s 500 (lit "normal") (lit "alice") None b None JGRP_NODE_JOB 0 0 0 1 (-1) 0 0
    (Times start 0 0 0 0 0 0) (PendEvent false 0 0 0 0 false) None.
Definition demo_bill (t : Z) : jobBill := JobBill 0 0 t (-1) 1 (lit "normal") [] None.
Definition demo_store (pjl sjl : list jptr) : store :=
  Store (<[1%positive := demo_job 11 JOB_STAT_PEND 1 0]> (<[2%positive := demo_job 12 JOB_STAT_PEND 2 0]>
          (<[3%positive := demo_job 13 JOB_STAT_PEND 3 5]> ∅)))
    (<[1%positive := demo_bill 100]> (<[2%positive := demo_bill 200]> (<[3%positive := demo_bill 300]> ∅)))
    (JLists sjl [] pjl []).

(** Decides sortedness of a concrete list. *)
Ltac demo_sorted :=
  repeat first [ apply SSorted_nil | apply SSorted_cons | apply Forall_cons; split | apply Forall_nil ];
  first [ exact I | vm_compute; intuition congruence ].


Lemma started_order_witness :
  let st' := inStartJobList demo_cfg 3 (demo_store [1]%positive [2]%positive) in
  jDataList st' SJL ≡ₚ [3; 2]%positive.
Proof.
  refine (proj1 (started_order demo_cfg (demo_store [1]%positive [2]%positive) 3 _ _ _)).
  - vm_compute. congruence.
  - by apply (bool_decide_unpack _).
  - demo_sorted.
Defined.

Lemma job_move_witness :
  exists st', moveAJob demo_cfg 2 (fun _ => Some 3%positive) (JobMoveReq TO_TOP 13 1) true true
      (demo_store [3; 2; 1]%positive []) = Some (MoveResult st' (JobMoveReq TO_TOP 13 1) true DepCond.LSBE_NO_ERROR) /\
    moved (candidate demo_cfg true (demo_store [3; 2; 1]%positive []) 3) reverse 3 0 [3; 2; 1]%positive
      (jDataList st' PJL) /\
    jDataList st' PJL = [2; 1; 3]%positive.
Proof.
  destruct (job_move demo_cfg true (fun _ => Some 3%positive) (demo_store [3; 2; 1]%positive []) 3
              (JobMoveReq TO_TOP 13 1) true) as (st' & E & Hm & _).
  - reflexivity.
  - reflexivity.
  - reflexivity.
  - split; [left|by apply (bool_decide_unpack _)|demo_sorted|reflexivity|].
    repeat constructor; vm_compute; congruence.
  - simpl. lia.
  - exists st'. split; [exact E|]. split; [exact Hm|]. revert E. vm_compute. intros [= <-]. reflexivity.
Defined.
