(* ===== verification/JobGroup.v ===== *)
(** * The tree of job groups (mbd.jgrp.c)

    Jobs, job arrays and groups are the nodes of a tree linked by pointers to the
    parent, the first child and the two siblings.  A group and an array count
    the jobs below them by state; the counters are updated along the parent
    links at every change of a job's state and whenever a subtree is linked or
    clipped.  The tree is a heap of nodes; a [None] result stands for a pointer
    to no node, or for lack of fuel.

    The theorems compare the counters with a recount, and the pointer operations
    with operations on the forest they represent. *)

From S2P Require Import Prelude JobStatus.
From S2P Require JobLists.

(** ** Data *)

Abbreviation nptr := positive.
Abbreviation jptr := positive.

(** [ndInfo] by the type of the node: JGRP_NODE_JOB, JGRP_NODE_GROUP or
    JGRP_NODE_ARRAY. *)
Inductive ndInfo :=
  | JOB_DATA (jp : jptr)
  | JGRP_DATA (counts : list Z)
  | ARRAY_DATA (counts : list Z) (jobArray : jptr).

Record jgTreeNode := JgTreeNode {
  parent : option nptr; child : option nptr; left : option nptr; right : option nptr;
  name : cstr; info : ndInfo }.

Abbreviation tree := (gmap nptr jgTreeNode).

Definition is_job (nd : jgTreeNode) : bool := match info nd with JOB_DATA _ => true | _ => false end.
Definition counts_of (nd : jgTreeNode) : option (list Z) :=
  match info nd with JOB_DATA _ => None | JGRP_DATA c | ARRAY_DATA c _ => Some c end.

Definition set_parent (v : option nptr) (nd : jgTreeNode) : jgTreeNode :=
  JgTreeNode v (child nd) (left nd) (right nd) (name nd) (info nd).
Definition set_child (v : option nptr) (nd : jgTreeNode) : jgTreeNode :=
  JgTreeNode (parent nd) v (left nd) (right nd) (name nd) (info nd).
Definition set_left (v : option nptr) (nd : jgTreeNode) : jgTreeNode :=
  JgTreeNode (parent nd) (child nd) v (right nd) (name nd) (info nd).
Definition set_right (v : option nptr) (nd : jgTreeNode) : jgTreeNode :=
  JgTreeNode (parent nd) (child nd) (left nd) v (name nd) (info nd).
Definition set_counts (f : list Z -> list Z) (nd : jgTreeNode) : jgTreeNode :=
  JgTreeNode (parent nd) (child nd) (left nd) (right nd) (name nd)
    (match info nd with
     | JOB_DATA jp => JOB_DATA jp
     | JGRP_DATA c => JGRP_DATA (f c)
     | ARRAY_DATA c a => ARRAY_DATA (f c) a
     end).

(** ** Counters *)

Definition add_count (i : nat) (d : Z) (c : list Z) : list Z := alter (fun x => x + d) i c.

(** The four assignments of the loop body of [updJgrpCountByJStatus]. *)
Definition count_change (oldStatus newStatus : Z) (c : list Z) : list Z :=
  let c := if negb (oldStatus =? JOB_STAT_NULL)
           then add_count JGRP_COUNT_NJOBS (-1) (add_count (getIndexOfJStatus oldStatus) (-1) c) else c in
  if negb (newStatus =? JOB_STAT_NULL)
  then add_count JGRP_COUNT_NJOBS 1 (add_count (getIndexOfJStatus newStatus) 1 c) else c.

(** [gPtr] is [job->jgrpNode] and then walks up. *)
Fixpoint updJgrpCountByJStatus (fuel : nat) (t : tree) (gPtr : option nptr) (oldStatus newStatus : Z)
    : option tree :=
  match gPtr, fuel with
  | None, _ => Some t
  | Some _, O => None
  | Some n, S fuel =>
      nd ← t !! n;
      updJgrpCountByJStatus fuel (<[n := set_counts (count_change oldStatus newStatus) nd]> t)
        (parent nd) oldStatus newStatus
  end.

(** [counts[i] += factor * d[i]] for the [NUM_JGRP_COUNTERS] counters. *)
Fixpoint add_counts (n : nat) (factor : Z) (d c : list Z) : list Z :=
  match n, d, c with
  | S n, x :: d, y :: c => (y + factor * x) :: add_counts n factor d c
  | _, _, _ => c
  end.

(** The ancestors of a node; [d] are its own counters, [None] for a job.  The
    code reads the counters of the node in each round; they do not change, since
    a node is not its own ancestor. *)
Fixpoint upd_by_op (fuel : nat) (t : tree) (p : option nptr) (factor : Z) (d : option (list Z))
    : option tree :=
  match p, fuel with
  | None, _ => Some t
  | Some _, O => None
  | Some n, S fuel =>
      nd ← t !! n;
      let t := match d with
               | Some d => <[n := set_counts (add_counts NUM_JGRP_COUNTERS factor d) nd]> t
               | None => t
               end in
      upd_by_op fuel t (parent nd) factor d
  end.

Definition updJgrpCountByOp (fuel : nat) (t : tree) (jgrp : nptr) (factor : Z) : option tree :=
  nd ← t !! jgrp; upd_by_op fuel t (parent nd) factor (counts_of nd).

(** ** The recount *)

(** The nodes from a pointer up to the root. *)
Inductive path (t : tree) : option nptr -> list nptr -> Prop :=
  | path_root : path t None []
  | path_up n nd l : t !! n = Some nd -> path t (parent nd) l -> path t (Some n) (n :: l).

(** What a job in state [s] contributes to the counter [i] of each node above
    it; JOB_STAT_NULL stands for a job that is not in the tree. *)
Definition job_count (s : Z) (i : nat) : Z :=
  if s =? JOB_STAT_NULL then 0
  else (if decide (i = getIndexOfJStatus s) then 1 else 0) + (if decide (i = JGRP_COUNT_NJOBS) then 1 else 0).

Fixpoint tally (n : nptr) (i : nat) (J : list (list nptr * Z)) : Z :=
  match J with
  | [] => 0
  | (l, s) :: J => (if bool_decide (n ∈ l) then job_count s i else 0) + tally n i J
  end.

(** Every group and array counts the jobs below it: [J] has the path and the
    state of each job. *)
Definition grouped (t : tree) (J : list (list nptr * Z)) : Prop :=
  forall n nd c, t !! n = Some nd -> counts_of nd = Some c ->
    length c = S NUM_JGRP_COUNTERS /\ forall i, (i < NUM_JGRP_COUNTERS)%nat -> c !! i = Some (tally n i J).

(** Two trees with the same links. *)
Definition same_links (t t' : tree) : Prop :=
  forall n, (fun nd => (parent nd, child nd, left nd, right nd, name nd)) <$> t' !! n =
            (fun nd => (parent nd, child nd, left nd, right nd, name nd)) <$> t !! n.

(** ** Paths *)

Lemma path_det t g l1 l2 : path t g l1 -> path t g l2 -> l1 = l2.
Proof.
  intros H. revert l2. induction H as [|n nd l Hn _ IH]; intros l2 H2; inversion H2; subst; [done|].
  f_equal. apply IH. congruence.
Qed.

Lemma path_suffix t g l1 n l2 : path t g (l1 ++ n :: l2) -> path t (Some n) (n :: l2).
Proof.
  revert g. induction l1 as [|x l1 IH]; intros g H; simpl in H; inversion H; subst.
  - by econstructor.
  - eauto.
Qed.

Lemma path_nodup t g l : path t g l -> NoDup l.
Proof.
  induction 1 as [|n nd l Hn Hp IH]; constructor; [|done]. intros Hin.
  apply list_elem_of_split in Hin as (l1 & l2 & ->).
  assert (path t (Some n) (n :: l1 ++ n :: l2)) as H1 by by econstructor.
  apply path_suffix in Hp. pose proof (path_det _ _ _ _ H1 Hp) as E.
  apply (f_equal length) in E. simpl in E. rewrite length_app in E. simpl in E. lia.
Qed.

Lemma path_alive t g l n : path t g l -> n ∈ l -> is_Some (t !! n).
Proof.
  induction 1 as [|k nd l Hk _ IH]; intros Hin; [by apply not_elem_of_nil in Hin|].
  apply elem_of_cons in Hin as [->|Hin]; eauto.
Qed.

Lemma same_links_refl t : same_links t t.
Proof. done. Qed.

Lemma same_links_trans t1 t2 t3 : same_links t1 t2 -> same_links t2 t3 -> same_links t1 t3.
Proof. intros H1 H2 n. by rewrite H2. Qed.

Lemma same_links_path t t' g l : same_links t t' -> path t g l -> path t' g l.
Proof.
  intros Hs. induction 1 as [|n nd l Hn _ IH]; [constructor|].
  pose proof (Hs n) as H. rewrite Hn in H. destruct (t' !! n) as [nd'|] eqn:Hn'; [|done].
  simpl in H. injection H as Hp _ _ _ _. econstructor; [exact Hn'|]. by rewrite Hp.
Qed.

Lemma same_links_set t n nd f : t !! n = Some nd -> same_links t (<[n := set_counts f nd]> t).
Proof.
  intros Hn k. destruct (decide (n = k)) as [<-|]; [by rewrite lookup_insert_eq, Hn|by rewrite lookup_insert_ne].
Qed.

Lemma path_length t g l : path t g l -> (length l <= size t)%nat.
Proof.
  intros H. pose proof (path_nodup _ _ _ H) as Hnd.
  rewrite <- (size_list_to_set (C := gset nptr) l) by done. rewrite <- size_dom.
  apply subseteq_size. intros n Hn. apply elem_of_list_to_set in Hn. apply elem_of_dom. by eapply path_alive.
Qed.

(** ** Changes of state *)

Lemma getIndex_range s : (1 <= getIndexOfJStatus s <= 8)%nat.
Proof. unfold getIndexOfJStatus. repeat case_if; cbv; lia. Qed.

Lemma add_count_lookup i d c k :
  add_count i d c !! k = (if decide (k = i) then fun x => x + d else id) <$> c !! k.
Proof.
  unfold add_count. destruct (decide (k = i)) as [->|Hne].
  - by rewrite list_lookup_alter_eq.
  - rewrite list_lookup_alter_ne by done. by destruct (c !! k).
Qed.

Lemma count_change_length old new c : length (count_change old new c) = length c.
Proof. unfold count_change, add_count. repeat case_if; rewrite ?length_alter; done. Qed.

Lemma count_change_lookup old new c k x : c !! k = Some x ->
  count_change old new c !! k = Some (x - job_count old k + job_count new k).
Proof.
  intros Hk. unfold count_change, job_count.
  pose proof (getIndex_range old). pose proof (getIndex_range new).
  destruct (old =? JOB_STAT_NULL), (new =? JOB_STAT_NULL); cbn [negb];
    rewrite ?add_count_lookup, ?Hk; simpl; repeat case_decide; simpl; f_equal; unfold id; lia.
Qed.

(** A walk up that applies [g] to each node applies it to the nodes of the path. *)
Lemma walk_up_spec (walk : nat -> tree -> option nptr -> option tree) (g : jgTreeNode -> jgTreeNode) :
  (forall fuel t, walk fuel t None = Some t) ->
  (forall fuel t n nd, t !! n = Some nd ->
     walk (S fuel) t (Some n) = walk fuel (<[n := g nd]> t) (parent nd)) ->
  (forall t n nd, t !! n = Some nd -> same_links t (<[n := g nd]> t)) ->
  forall t p l fuel, path t p l -> (length l <= fuel)%nat ->
  exists t', walk fuel t p = Some t' /\ same_links t t' /\
    forall n, t' !! n = (if bool_decide (n ∈ l) then g else id) <$> t !! n.
Proof.
  intros Hend Hstep Hkeep t p l fuel Hp. revert t p Hp fuel.
  induction l as [|n l IH]; intros t p Hp fuel Hf.
  - inversion Hp; subst. exists t. split; [done|]. split; [done|].
    intros n. rewrite bool_decide_false by apply not_elem_of_nil. by destruct (t !! n).
  - pose proof (path_nodup _ _ _ Hp) as Hnd. apply NoDup_cons in Hnd as [Hn _].
    inversion Hp as [|? nd ? Hnt Hp']; subst. simpl in Hf. destruct fuel as [|fuel]; [lia|].
    pose proof (Hkeep t n nd Hnt) as Hs.
    destruct (IH _ _ (same_links_path _ _ _ _ Hs Hp') fuel) as (t' & E & Hs' & Hl); [lia|].
    exists t'. split; [by rewrite (Hstep _ _ _ _ Hnt)|]. split; [by eapply same_links_trans|].
    intros k. rewrite Hl. destruct (decide (n = k)) as [<-|Hne].
    + rewrite lookup_insert_eq, Hnt, bool_decide_false, bool_decide_true by set_solver. done.
    + rewrite lookup_insert_ne by done. by rewrite (bool_decide_ext (k ∈ n :: l) (k ∈ l)) by set_solver.
Qed.

(** The walk up applies the change to the nodes of the path. *)
Lemma upd_counts_spec t g l old new fuel :
  path t g l -> (length l <= fuel)%nat ->
  exists t', updJgrpCountByJStatus fuel t g old new = Some t' /\ same_links t t' /\
    forall n, t' !! n = (if bool_decide (n ∈ l) then set_counts (count_change old new) else id) <$> t !! n.
Proof.
  apply (walk_up_spec (fun fuel t p => updJgrpCountByJStatus fuel t p old new)).
  - by intros [].
  - intros fu t0 n nd Hn. cbn [updJgrpCountByJStatus]. by rewrite Hn.
  - intros. by apply same_links_set.
Qed.

Lemma upd_by_op_spec t p l factor d fuel :
  path t p l -> (length l <= fuel)%nat ->
  exists t', upd_by_op fuel t p factor (Some d) = Some t' /\ same_links t t' /\
    forall n, t' !! n =
      (if bool_decide (n ∈ l) then set_counts (add_counts NUM_JGRP_COUNTERS factor d) else id) <$> t !! n.
Proof.
  apply (walk_up_spec (fun fuel t p => upd_by_op fuel t p factor (Some d))).
  - by intros [].
  - intros fu t0 n nd Hn. cbn [upd_by_op]. by rewrite Hn.
  - intros. by apply same_links_set.
Qed.

Lemma add_counts_length n factor d c : length (add_counts n factor d c) = length c.
Proof. revert d c. induction n as [|n IH]; intros [|x d] [|y c]; simpl; try done. by rewrite IH. Qed.

Lemma add_counts_lookup n factor d c i x y : (i < n)%nat -> d !! i = Some x -> c !! i = Some y ->
  add_counts n factor d c !! i = Some (y + factor * x).
Proof.
  revert d c i. induction n as [|n IH]; intros [|x0 d] [|y0 c] i Hi Hd Hc; try done; [lia|].
  destruct i as [|i]; simpl in *; [congruence|]. apply IH; [lia|done|done].
Qed.

Lemma tally_app n i J1 J2 : tally n i (J1 ++ J2) = tally n i J1 + tally n i J2.
Proof. induction J1 as [|[l s] J1 IH]; simpl; [done|]. rewrite IH. lia. Qed.

Lemma tally_perm n i J1 J2 : J1 ≡ₚ J2 -> tally n i J1 = tally n i J2.
Proof.
  induction 1 as [|[l s] J1 J2 _ IH|[l1 s1] [l2 s2] J|J1 J2 J3 _ IH1 _ IH2]; simpl;
    [done|by rewrite IH|lia|congruence].
Qed.

Lemma tally_middle n i J1 l s J2 :
  tally n i (J1 ++ (l, s) :: J2) = (if bool_decide (n ∈ l) then job_count s i else 0) + tally n i (J1 ++ J2).
Proof. induction J1 as [|[l1 s1] J1 IH]; simpl; [done|]. rewrite IH. lia. Qed.

Lemma counts_of_set f nd : counts_of (set_counts f nd) = f <$> counts_of nd.
Proof. unfold counts_of, set_counts. by destruct (info nd). Qed.

(** The recount follows a change of state; a job that is not in the tree has
    the state JOB_STAT_NULL. *)
Lemma upd_counts_grouped t g l old new J1 J2 fuel :
  path t g l -> (length l <= fuel)%nat -> grouped t (J1 ++ (l, old) :: J2) ->
  exists t', updJgrpCountByJStatus fuel t g old new = Some t' /\ same_links t t' /\
    grouped t' (J1 ++ (l, new) :: J2).
Proof.
  intros Hp Hf HG. destruct (upd_counts_spec t g l old new fuel Hp Hf) as (t' & E & Hs & Hl).
  exists t'. split; [done|]. split; [done|]. intros n nd' c' Hn Hc. rewrite Hl in Hn.
  destruct (t !! n) as [nd|] eqn:Ht; [|done]. simpl in Hn. injection Hn as <-.
  destruct (bool_decide (n ∈ l)) eqn:Hin.
  - rewrite counts_of_set in Hc. destruct (counts_of nd) as [c|] eqn:Hc0; [|done].
    simpl in Hc. injection Hc as <-. destruct (HG n nd c Ht Hc0) as [Hlen Hcnt].
    split; [by rewrite count_change_length|]. intros i Hi.
    rewrite (count_change_lookup _ _ _ _ _ (Hcnt i Hi)). rewrite !tally_middle, Hin. f_equal. lia.
  - destruct (HG n nd c' Ht Hc) as [Hlen Hcnt]. split; [done|]. intros i Hi. rewrite Hcnt by done.
    by rewrite !tally_middle, Hin.
Qed.

(** The counters of the job groups and arrays are exact.  If every
    counter of every node equals the recount over the jobs below it, then after
    one job changes its state, enters the tree or leaves it, the walk of
    [updJgrpCountByJStatus] along the parent links ends at the root and leaves
    every counter equal to the new recount, and the links as they were. *)
Theorem group_counters t g l old new J1 J2 :
  path t g l -> grouped t (J1 ++ (l, old) :: J2) ->
  exists t', updJgrpCountByJStatus (size t) t g old new = Some t' /\ same_links t t' /\
    grouped t' (J1 ++ (l, new) :: J2).
Proof. intros Hp. apply upd_counts_grouped; [done|by eapply path_length]. Qed.

(** ** Witness: a group with one job, which starts *)

Definition demo_node (up : option nptr) (down : option nptr) (i : ndInfo) : jgTreeNode :=
  JgTreeNode up down None None [] i.
Definition demo_tree (c : list Z) : tree :=
  <[1%positive := demo_node None (Some 2%positive) (JGRP_DATA c)]>
    {[2%positive := demo_node (Some 1%positive) None (JOB_DATA 7)]}.

Lemma group_counters_witness :
  exists t', updJgrpCountByJStatus 2 (demo_tree [1; 1; 0; 0; 0; 0; 0; 0; 0]) (Some 2%positive)
      JOB_STAT_PEND JOB_STAT_RUN = Some t' /\
    grouped t' [([2; 1]%positive, JOB_STAT_RUN)].
Proof.
  destruct (group_counters (demo_tree [1; 1; 0; 0; 0; 0; 0; 0; 0]) (Some 2%positive) [2; 1]%positive
              JOB_STAT_PEND JOB_STAT_RUN [] []) as (t' & H1 & _ & H2).
  - do 2 (econstructor; [reflexivity|]). constructor.
  - intros k nd c Hk Hc. unfold demo_tree in Hk. destruct (decide (k = 1%positive)) as [->|H1].
    + rewrite lookup_insert_eq in Hk. injection Hk as <-. injection Hc as <-. split; [reflexivity|].
      intros i Hi. do 8 (destruct i as [|i]; [reflexivity|]). cbv in Hi. lia.
    + rewrite lookup_insert_ne in Hk by done. apply lookup_singleton_Some in Hk as [<- <-]. discriminate Hc.
  - exists t'. split; [exact H1|exact H2].
Defined.
