(* ===== verification/JobTree.v ===== *)
(** * Linking and clipping in the tree of job groups (mbd.jgrp.c)

    The operations that walk through the tree of [JobGroup] and change its links:
    nodes are inserted as the last child of a group and clipped with all that is
    below them, an observer keeps its place in the tree, and the counters of the
    groups above follow.

    The abstract tree is a [forest], in which a node has its children and its
    next siblings; [linked] relates it to the four pointers of each node. *)

From S2P Require Import Prelude JobStatus JobGroup.

(** ** Pointers *)

Definition upd (f : jgTreeNode -> jgTreeNode) (n : nptr) (t : tree) : option tree :=
  nd ← t !! n; Some (<[n := f nd]> t).

(** [if (p) f(p)] *)
Definition upd_opt (f : jgTreeNode -> jgTreeNode) (p : option nptr) (t : tree) : option tree :=
  match p with Some n => upd f n t | None => Some t end.

(** ** Walking through the tree *)

(** The loops up the parent links: the first right sibling of an ancestor. *)
Fixpoint climb (fuel : nat) (t : tree) (p : option nptr) : option (option nptr) :=
  match p, fuel with
  | None, _ => Some None
  | Some _, O => None
  | Some n, S fuel =>
      nd ← t !! n;
      match right nd with Some r => Some (Some r) | None => climb fuel t (parent nd) end
  end.

(** The node behind [node] in preorder; [None] is a bad pointer. *)
Definition treeLexNext (t : tree) (node : option nptr) : option (option nptr) :=
  match node with
  | None => Some None
  | Some n =>
      nd ← t !! n;
      match child nd, right nd with
      | Some c, _ => Some (Some c)
      | None, Some r => Some (Some r)
      | None, None => climb (size t) t (parent nd)
      end
  end.

Definition treeNextSib (t : tree) (node : option nptr) : option (option nptr) :=
  match node with
  | None => Some None
  | Some n =>
      nd ← t !! n;
      match right nd with Some r => Some (Some r) | None => climb (size t) t (parent nd) end
  end.

Fixpoint is_above (fuel : nat) (t : tree) (x : nptr) (ndPtr : option nptr) : option bool :=
  match ndPtr, fuel with
  | None, _ => Some false
  | Some _, O => None
  | Some n, S fuel =>
      if bool_decide (n = x) then Some true else nd ← t !! n; is_above fuel t x (parent nd)
  end.

Definition isAncestor (t : tree) (x y : option nptr) : option bool :=
  match x, y with
  | Some x, Some y => nd ← t !! y; is_above (size t) t x (parent nd)
  | _, _ => Some false
  end.

Fixpoint among (fuel : nat) (t : tree) (y : nptr) (ndPtr : option nptr) : option bool :=
  match ndPtr, fuel with
  | None, _ => Some false
  | Some _, O => None
  | Some n, S fuel =>
      if bool_decide (n = y) then Some true else nd ← t !! n; among fuel t y (right nd)
  end.

Definition isChild (t : tree) (x y : option nptr) : option bool :=
  match x, y with
  | Some x, Some y => nd ← t !! x; among (size t) t y (child nd)
  | _, _ => Some false
  end.

Fixpoint find_name (fuel : nat) (t : tree) (nPtr : option nptr) (s : cstr) : option (option nptr) :=
  match nPtr, fuel with
  | None, _ => Some None
  | Some _, O => None
  | Some n, S fuel =>
      nd ← t !! n;
      if bool_decide (s = name nd) then Some (Some n) else find_name fuel t (right nd) s
  end.

Definition findTreeNode (t : tree) (node : option nptr) (s : cstr) : option (option nptr) :=
  find_name (size t) t node s.

(** ** Links *)

(** [for(nPtr=sib1; nPtr->right; nPtr=nPtr->right);] *)
Fixpoint last_sibling (fuel : nat) (t : tree) (nPtr : nptr) : option nptr :=
  match fuel with
  | O => None
  | S fuel =>
      nd ← t !! nPtr;
      match right nd with Some r => last_sibling fuel t r | None => Some nPtr end
  end.

Definition treeLinkSibling (t : tree) (sib1 sib2 : option nptr) : option (tree * option nptr) :=
  match sib1, sib2 with
  | None, _ => Some (t, sib2)
  | _, None => Some (t, sib1)
  | Some s1, Some s2 =>
      nPtr ← last_sibling (size t) t s1;
      t ← upd (set_right (Some s2)) nPtr t;
      t ← upd (set_left (Some nPtr)) s2 t;
      Some (t, sib1)
  end.

(** [do nPtr->parent = parent; while ((nPtr = nPtr->right) != NULL)] *)
Fixpoint set_parents (fuel : nat) (t : tree) (nPtr : nptr) (p : nptr) : option tree :=
  match fuel with
  | O => None
  | S fuel =>
      nd ← t !! nPtr;
      let t := <[nPtr := set_parent (Some p) nd]> t in
      match right nd with Some r => set_parents fuel t r p | None => Some t end
  end.

Section Tree.
(** The jobs that the nodes point to. *)
Context (jgrpNode : jptr -> option nptr) (jStatus : jptr -> Z).

(** The counters of the nodes above a node that is linked: those of a job from
    JOB_STAT_NULL to its state, those of a group or an array by its own. *)
Definition count_in (t : tree) (n : nptr) : option tree :=
  nd ← t !! n;
  match info nd with
  | JOB_DATA jp => updJgrpCountByJStatus (size t) t (jgrpNode jp) JOB_STAT_NULL (jStatus jp)
  | _ => updJgrpCountByOp (size t) t n 1
  end.

Definition count_out (t : tree) (n : nptr) : option tree :=
  nd ← t !! n;
  match info nd with
  | JOB_DATA jp => updJgrpCountByJStatus (size t) t (jgrpNode jp) (jStatus jp) JOB_STAT_NULL
  | _ => updJgrpCountByOp (size t) t n (-1)
  end.

(** The only observer, with its entry: the events that change it. *)
Inductive treeEventType := TREE_EVENT_ADD | TREE_EVENT_CLIP | TREE_EVENT_CTRL | TREE_EVENT_NULL.

Definition within (t : tree) (entry : option nptr) (operand : nptr) : option bool :=
  if bool_decide (entry = Some operand) then Some true else isAncestor t (Some operand) entry.

Definition treeObserverEvalDep (t : tree) (entry : option nptr) (operand : nptr)
    (eventType : treeEventType) : option (option nptr) :=
  match eventType with
  | TREE_EVENT_CLIP =>
      inside ← within t entry operand;
      if (inside : bool) then treeNextSib t (Some operand) else Some entry
  | TREE_EVENT_CTRL =>
      inside ← within t entry operand;
      Some (if (inside : bool) then Some operand else entry)
  | TREE_EVENT_ADD | TREE_EVENT_NULL => Some entry
  end.

Definition treeObserverInvoke (t : tree) (entry : option nptr) (operand : nptr)
    (eventType : treeEventType) : option (option nptr) :=
  treeObserverEvalDep t entry operand eventType.

(** The assignments to links in [treeInsertChild]. *)
Definition link_child (t : tree) (p c : nptr) : option tree :=
  pd ← t !! p;
  t ← match child pd with
      | Some first =>
          '(t, r) ← treeLinkSibling t (Some first) (Some c); upd (set_child r) p t
      | None => upd (set_child (Some c)) p t
      end;
  set_parents (size t) t c p.

(** The tree, the entry of the observer, and the result. *)
Definition treeInsertChild (t : tree) (entry parent child : option nptr)
    : option (tree * option nptr * option nptr) :=
  match parent, child with
  | None, _ => Some (t, entry, child)
  | _, None => Some (t, entry, parent)
  | Some p, Some c =>
      t ← link_child t p c;
      t ← count_in t c;
      entry ← treeObserverInvoke t entry c TREE_EVENT_ADD;
      Some (t, entry, parent)
  end.

Definition treeInsertLeft (t : tree) (entry node subtree : option nptr)
    : option (tree * option nptr) :=
  match node, subtree with
  | Some n, Some s =>
      nd ← t !! n;
      t ← upd (fun sd => set_parent (parent nd) (set_left (left nd) (set_right (Some n) sd))) s t;
      t ← upd_opt (set_right (Some s)) (left nd) t;
      t ← upd (set_left (Some s)) n t;
      t ← count_in t s;
      entry ← treeObserverInvoke t entry s TREE_EVENT_ADD;
      Some (t, entry)
  | _, _ => Some (t, entry)
  end.

Definition treeInsertRight (t : tree) (entry node subtree : option nptr)
    : option (tree * option nptr) :=
  match node, subtree with
  | Some n, Some s =>
      nd ← t !! n;
      t ← upd (fun sd => set_parent (parent nd) (set_left (Some n) (set_right (right nd) sd))) s t;
      t ← upd_opt (set_left (Some s)) (right nd) t;
      t ← upd (set_right (Some s)) n t;
      t ← count_in t s;
      entry ← treeObserverInvoke t entry s TREE_EVENT_ADD;
      Some (t, entry)
  | _, _ => Some (t, entry)
  end.

(** The assignments in front of the counting. *)
Definition unlink (t : tree) (n : nptr) : option tree :=
  nd ← t !! n;
  t ← match left nd, parent nd with
      | Some l, _ => upd (set_right (right nd)) l t
      | None, Some p => upd (set_child (right nd)) p t
      | None, None => Some t
      end;
  upd_opt (set_left (left nd)) (right nd) t.

Definition treeClip (t : tree) (entry node : option nptr)
    : option (tree * option nptr * option nptr) :=
  match node with
  | None => Some (t, entry, None)
  | Some n =>
      t ← unlink t n;
      t ← count_out t n;
      entry ← treeObserverInvoke t entry n TREE_EVENT_CLIP;
      t ← upd (fun nd => set_parent None (set_left None (set_right None nd))) n t;
      Some (t, entry, node)
  end.

(** The loop over the siblings; the children of a node are freed before it. *)
Fixpoint treeFree (fuel : nat) (t : tree) (node : option nptr) : option tree :=
  match node, fuel with
  | None, _ => Some t
  | Some _, O => None
  | Some n, S fuel =>
      nd ← t !! n;
      t ← match child nd with
          | Some c => t ← treeFree fuel t (Some c); Some (delete n t)
          | None => Some (delete n t)
          end;
      treeFree fuel t (right nd)
  end.

End Tree.

(** The tree and the observer's entry at the start. *)
Definition treeInit (groupRoot : nptr) : tree * option nptr :=
  ({[groupRoot := JgTreeNode None None None None (lit "/") (JGRP_DATA (replicate (S NUM_JGRP_COUNTERS) 0))]},
   Some groupRoot).

(** [treeNewNode] for a job or a job array at a free address, with its name and
    the data that [putOntoTree] gives it. *)
Definition new_node (array : bool) (nm : cstr) (jp : jptr) : jgTreeNode :=
  JgTreeNode None None None None nm
    (if array then ARRAY_DATA (replicate (S NUM_JGRP_COUNTERS) 0) jp else JOB_DATA jp).

Fixpoint count_elements (t : tree) (newj : nptr) (states : list Z) : option tree :=
  match states with
  | [] => Some t
  | s :: states =>
      t ← updJgrpCountByJStatus (size t) t (Some newj) JOB_STAT_NULL s;
      count_elements t newj states
  end.

(** A job or an array becomes a child of the root: [elems] is the list
    [jp->nextJob] of the elements of an array.  [jgrpNode] is the field before the
    call; the result has the tree, the observer's entry, and the field behind it. *)
Definition putOntoTree (jgrpNode : jptr -> option nptr) (jStatus : jptr -> Z) (t : tree)
    (entry groupRoot : option nptr) (newj : nptr) (array : bool) (nm : cstr) (jp : jptr)
    (elems : list jptr) : option (tree * option nptr * (jptr -> option nptr)) :=
  let t := <[newj := new_node array nm jp]> t in
  let jgrpNode j := if bool_decide (j ∈ jp :: elems) then Some newj else jgrpNode j in
  t ← count_elements t newj (map jStatus elems);
  '(t, entry, _) ← treeInsertChild jgrpNode jStatus t entry groupRoot (Some newj);
  Some (t, entry, jgrpNode).

(** [treeFree(treeClip(node))] of [removeJob]: the tree and the observer's entry. *)
Definition clip_free (jgrpNode : jptr -> option nptr) (jStatus : jptr -> Z) (t : tree)
    (entry node : option nptr) : option (tree * option nptr) :=
  '(t, entry, node) ← treeClip jgrpNode jStatus t entry node;
  t ← treeFree (size t) t node;
  Some (t, entry).

(** A job that is given another name: its node is replaced ([modifyJob]). *)
Definition rename_node (jgrpNode : jptr -> option nptr) (jStatus : jptr -> Z) (t : tree)
    (entry groupRoot : option nptr) (n newj : nptr) (array : bool) (nm : cstr) (jp : jptr)
    (elems : list jptr) : option (tree * option nptr * (jptr -> option nptr)) :=
  '(t, entry) ← clip_free jgrpNode jStatus t entry (Some n);
  putOntoTree jgrpNode jStatus t entry groupRoot newj array nm jp elems.
