(* ===== verification/JobForest.v ===== *)
(** * The tree of job groups stays a tree

    The theorems on the operations of [JobTree]: they implement operations on an
    abstract forest, the walk through the tree visits every node once, the counters
    of all groups stay exact, and the observer never points to a node that is freed. *)

From S2P Require Import Prelude JobStatus JobGroup JobTree.

(** ** Forests

    A node with its children and its next siblings.  [nodes] is the preorder. *)

Inductive forest :=
| Nil
| Cons (n : nptr) (kids rest : forest).

Fixpoint nodes (f : forest) : list nptr :=
  match f with
  | Nil => []
  | Cons n kids rest => n :: nodes kids ++ nodes rest
  end.

Definition first (f : forest) : option nptr := match f with Nil => None | Cons n _ _ => Some n end.

Fixpoint join (f g : forest) : forest :=
  match f with
  | Nil => g
  | Cons n kids rest => Cons n kids (join rest g)
  end.

(** The four pointers of every node. *)
Fixpoint shape (t : tree) (up lft : option nptr) (f : forest) : Prop :=
  match f with
  | Nil => True
  | Cons n kids rest =>
      exists nd, t !! n = Some nd /\ parent nd = up /\ left nd = lft /\
        child nd = first kids /\ right nd = first rest /\
        shape t (Some n) None kids /\ shape t up (Some n) rest
  end.

Definition links (nd : jgTreeNode) : option nptr * option nptr * option nptr * option nptr :=
  (parent nd, child nd, left nd, right nd).
Definition same_at (t t' : tree) (n : nptr) : Prop := links <$> t' !! n = links <$> t !! n.

Lemma nodes_join f g : nodes (join f g) = nodes f ++ nodes g.
Proof. induction f as [|n kids _ rest IH]; [done|]. simpl. by rewrite IH, app_assoc. Qed.

Lemma first_head f : first f = head (nodes f).
Proof. by destruct f. Qed.

Lemma shape_ext t t' f : forall up lft, (forall n, n ∈ nodes f -> same_at t t' n) ->
  shape t up lft f -> shape t' up lft f.
Proof.
  induction f as [|n kids IHk rest IHr]; [done|].
  intros up lft Hs (nd & Hn & Hp & Hl & Hc & Hr & Hk & Hre). cbn [nodes] in Hs.
  assert (same_at t t' n) as H by (apply Hs; left). unfold same_at in H. rewrite Hn in H.
  destruct (t' !! n) as [nd'|] eqn:Hn'; [|done]. injection H as H1 H2 H3 H4.
  exists nd'. rewrite H1, H2, H3, H4. split_and!; try done.
  - apply IHk; [|done]. intros m Hm. apply Hs. right. apply elem_of_app. by left.
  - apply IHr; [|done]. intros m Hm. apply Hs. right. apply elem_of_app. by right.
Qed.

Lemma same_links_at t t' n : same_links t t' -> same_at t t' n.
Proof.
  intros H. specialize (H n). unfold same_at.
  destruct (t !! n) as [nd|], (t' !! n) as [nd'|]; try done. simpl in *. unfold links.
  injection H as -> -> -> -> _. done.
Qed.

Lemma shape_links t t' up lft f : same_links t t' -> shape t up lft f -> shape t' up lft f.
Proof. intros H. apply shape_ext. intros. by apply same_links_at. Qed.

Lemma shape_alive t f : forall up lft, shape t up lft f -> forall n, n ∈ nodes f -> is_Some (t !! n).
Proof.
  induction f as [|m kids IHk rest IHr]; intros up lft; [intros _ n Hn; by apply not_elem_of_nil in Hn|].
  intros (nd & Hm & _ & _ & _ & _ & Hk & Hr) n Hn. cbn [nodes] in Hn.
  apply elem_of_cons in Hn as [->|Hn]; [eauto|]. apply elem_of_app in Hn as [Hn|Hn]; eauto.
Qed.

(** ** Places in a forest *)

Inductive place :=
| Top
| InKids (n : nptr) (K : place) (rest : forest)
| InRest (n : nptr) (kids : forest) (K : place).

#[export] Instance Top_dec K : Decision (K = Top).
Proof. destruct K; [by left|by right..]. Defined.

Fixpoint plug (K : place) (f : forest) : forest :=
  match K with
  | Top => f
  | InKids n K rest => Cons n (plug K f) rest
  | InRest n kids K => Cons n kids (plug K f)
  end.

(** The nodes in front of the place and behind it. *)
Fixpoint before (K : place) : list nptr :=
  match K with
  | Top => []
  | InKids n K _ => n :: before K
  | InRest n kids K => n :: nodes kids ++ before K
  end.

Fixpoint behind (K : place) : list nptr :=
  match K with
  | Top => []
  | InKids _ K rest => behind K ++ nodes rest
  | InRest _ _ K => behind K
  end.

(** The parent and the left sibling, and the nodes up to the root. *)
Fixpoint up_of (up : option nptr) (K : place) : option nptr :=
  match K with
  | Top => up
  | InKids n K _ => up_of (Some n) K
  | InRest _ _ K => up_of up K
  end.

Fixpoint left_of (lft : option nptr) (K : place) : option nptr :=
  match K with
  | Top => lft
  | InKids _ K _ => left_of None K
  | InRest n _ K => left_of (Some n) K
  end.

Fixpoint above_of (l : list nptr) (K : place) : list nptr :=
  match K with
  | Top => l
  | InKids n K _ => above_of (n :: l) K
  | InRest _ _ K => above_of l K
  end.

Lemma nodes_plug K f : nodes (plug K f) = before K ++ nodes f ++ behind K.
Proof.
  induction K as [|n K IH rest|n kids K IH]; simpl.
  - by rewrite app_nil_r.
  - by rewrite IH, <- !app_assoc.
  - by rewrite IH, <- !app_assoc.
Qed.

Lemma place_of f n : n ∈ nodes f -> exists K kids rest, f = plug K (Cons n kids rest).
Proof.
  induction f as [|m kids IHk rest IHr]; cbn [nodes]; intros Hn; [by apply not_elem_of_nil in Hn|].
  apply elem_of_cons in Hn as [->|Hn]; [by exists Top, kids, rest|].
  apply elem_of_app in Hn as [Hn|Hn].
  - destruct (IHk Hn) as (K & k & r & ->). by exists (InKids m K rest), k, r.
  - destruct (IHr Hn) as (K & k & r & ->). by exists (InRest m kids K), k, r.
Qed.

Lemma shape_at t K f : forall up lft, shape t up lft (plug K f) ->
  shape t (up_of up K) (left_of lft K) f.
Proof.
  induction K as [|n K IH rest|n kids K IH]; intros up lft; [done| |];
    intros (nd & _ & _ & _ & _ & _ & Hk & Hr); by apply IH.
Qed.

Lemma path_at t K f : forall up lft l, shape t up lft (plug K f) -> path t up l ->
  path t (up_of up K) (above_of l K).
Proof.
  induction K as [|n K IH rest|n kids K IH]; intros up lft l; [done| |];
    intros (nd & Hn & Hp & _ & _ & _ & Hk & Hr) Hl; simpl; eapply IH; eauto.
  econstructor; [done|]. by rewrite Hp.
Qed.

Lemma above_of_app l K : exists a, above_of l K = a ++ l /\ a ⊆ before K.
Proof.
  revert l. induction K as [|n K IH rest|n kids K IH]; intros l; simpl.
  - by exists [].
  - destruct (IH (n :: l)) as (a & -> & Ha). exists (a ++ [n]). rewrite <- app_assoc.
    split; [done|]. set_solver.
  - destruct (IH l) as (a & -> & Ha). exists a. split; [done|]. set_solver.
Qed.

(** The path of a node of the forest. *)
Lemma path_node t f up lft l n : shape t up lft f -> path t up l -> n ∈ nodes f ->
  exists a, path t (Some n) (a ++ l) /\ a ⊆ nodes f /\ n ∈ a.
Proof.
  intros Hs Hl Hn. apply place_of in Hn as (K & kids & rest & ->).
  pose proof (path_at _ _ _ _ _ _ Hs Hl) as Hp. pose proof (shape_at _ _ _ _ _ Hs) as Hf.
  destruct Hf as (nd & Hnd & Hpar & _). destruct (above_of_app l K) as (a & Ha & Hsub).
  exists (n :: a). rewrite nodes_plug. simpl. split_and!; [|set_solver|set_solver].
  rewrite Ha in Hp. econstructor; [done|]. by rewrite Hpar.
Qed.

(** ** The walk *)

Lemma climb_fuel t p l : path t p l -> forall f1 f2, (length l <= f1)%nat -> (length l <= f2)%nat ->
  climb f1 t p = climb f2 t p.
Proof.
  induction 1 as [|n nd l Hn _ IH]; intros f1 f2 H1 H2; [by destruct f1, f2|].
  simpl in H1, H2. destruct f1 as [|f1], f2 as [|f2]; try lia. simpl. rewrite Hn. simpl.
  destruct (right nd); [done|]. apply IH; lia.
Qed.

(** The first right sibling of a node or of one above it. *)
Definition next_up (t : tree) (p : option nptr) : option (option nptr) := climb (size t) t p.

Lemma next_up_step t n nd l : path t (Some n) l -> t !! n = Some nd ->
  next_up t (Some n) = match right nd with Some r => Some (Some r) | None => next_up t (parent nd) end.
Proof.
  intros Hp Hn. pose proof (path_length _ _ _ Hp) as Hlen. inversion Hp as [|? nd' l' Hn' Hp']; subst.
  rewrite Hn in Hn'. injection Hn' as <-. unfold next_up at 1. simpl in Hlen.
  destruct (size t) as [|k] eqn:Hsz; [lia|]. simpl. rewrite Hn. simpl.
  destruct (right nd); [done|]. unfold next_up. rewrite Hsz. apply (climb_fuel _ _ _ Hp'); lia.
Qed.

(** Behind a place come its following nodes, then those that follow the forest. *)
Lemma next_up_at t K f : forall up lft l, shape t up lft (plug K f) -> path t up l ->
  next_up t (up_of up K) = match behind K with x :: _ => Some (Some x) | [] => next_up t up end.
Proof.
  induction K as [|n K IH rest|n kids K IH]; intros up lft l; [done| |];
    intros (nd & Hn & Hp & _ & _ & Hri & Hk & Hr) Hl; simpl.
  - assert (path t (Some n) (n :: l)) as Hpn by (econstructor; [done|by rewrite Hp]).
    rewrite (IH _ _ _ Hk Hpn), (next_up_step _ _ _ _ Hpn Hn), Hri, first_head, Hp.
    by destruct (behind K), (nodes rest).
  - by apply (IH _ _ l Hr).
Qed.

(** The node behind [n] in preorder, and the one behind all that is below it. *)
Lemma next_node t K n kids rest : shape t None None (plug K (Cons n kids rest)) ->
  treeLexNext t (Some n) = Some (head (nodes kids ++ nodes rest ++ behind K)).
Proof.
  intros Hs. pose proof (next_up_at _ _ _ _ _ _ Hs (path_root t)) as Hup.
  destruct (shape_at _ _ _ _ _ Hs) as (nd & Hn & Hp & _ & Hc & Hr & _).
  simpl. rewrite Hn. simpl. rewrite Hc, Hr, Hp, !first_head.
  destruct (nodes kids); [|done]. destruct (nodes rest); [|done]. simpl.
  change (climb (size t) t) with (next_up t). rewrite Hup. unfold next_up.
  by destruct (behind K), (size t).
Qed.

Lemma next_sib t K n kids rest : shape t None None (plug K (Cons n kids rest)) ->
  treeNextSib t (Some n) = Some (head (nodes rest ++ behind K)).
Proof.
  intros Hs. pose proof (next_up_at _ _ _ _ _ _ Hs (path_root t)) as Hup.
  destruct (shape_at _ _ _ _ _ Hs) as (nd & Hn & Hp & _ & _ & Hr & _).
  simpl. rewrite Hn. simpl. rewrite Hr, Hp, !first_head. destruct (nodes rest); [|done]. simpl.
  change (climb (size t) t) with (next_up t). rewrite Hup. unfold next_up.
  by destruct (behind K), (size t).
Qed.

(** The loop of [resetJgrpCount], [printTreeStruct] and others:
    [for (jgrp = groupRoot; jgrp; jgrp = treeLexNext(jgrp))]. *)
Fixpoint walk (fuel : nat) (t : tree) (jgrp : option nptr) : option (list nptr) :=
  match jgrp, fuel with
  | None, _ => Some []
  | Some _, O => None
  | Some n, S fuel => next ← treeLexNext t (Some n); l ← walk fuel t next; Some (n :: l)
  end.

Lemma nodup_split {A} (x : A) a1 b1 a2 b2 : NoDup (a1 ++ x :: b1) ->
  a1 ++ x :: b1 = a2 ++ x :: b2 -> a1 = a2 /\ b1 = b2.
Proof.
  revert a2. induction a1 as [|y a1 IH]; intros [|z a2] Hnd E; simpl in *.
  - injection E as ->. done.
  - injection E as <- ->. apply NoDup_cons in Hnd as [Hx _]. exfalso. apply Hx.
    apply elem_of_app. right. left.
  - injection E as -> E. apply NoDup_cons in Hnd as [Hx _]. exfalso. apply Hx.
    apply elem_of_app. right. left.
  - injection E as -> E. apply NoDup_cons in Hnd as [_ Hnd]. destruct (IH _ Hnd E) as [-> ->]. done.
Qed.

Lemma walk_suffix t f pre l : shape t None None f -> NoDup (nodes f) -> nodes f = pre ++ l ->
  walk (length l) t (head l) = Some l.
Proof.
  intros Hs Hnd. revert pre. induction l as [|n l IH]; intros pre E; [done|].
  assert (n ∈ nodes f) as Hn by (rewrite E; apply elem_of_app; right; left).
  apply place_of in Hn as (K & kids & rest & ->). rewrite nodes_plug in E. cbn [nodes] in E.
  rewrite nodes_plug in Hnd. cbn [nodes] in Hnd. cbn [app] in E, Hnd. rewrite <- app_assoc in E, Hnd.
  destruct (nodup_split _ _ _ _ _ Hnd E) as [_ El].
  cbn [length head walk]. rewrite (next_node _ _ _ _ _ Hs), El. simpl.
  rewrite (IH (pre ++ [n])); [done|]. rewrite nodes_plug. cbn [nodes]. cbn [app].
  by rewrite <- !app_assoc, E.
Qed.

(** ** Changing a part of the forest

    The pointer that leads to a place belongs to the left sibling or to the parent. *)

Definition set_slot (K : place) (q : option nptr) (nd : jgTreeNode) :
    option nptr * option nptr * option nptr * option nptr :=
  match left_of None K with
  | Some _ => (parent nd, child nd, left nd, q)
  | None => (parent nd, q, left nd, right nd)
  end.

Definition slot_node (up lft : option nptr) (K : place) : option nptr :=
  match left_of lft K with Some l => Some l | None => up_of up K end.

(** The nodes around a place keep their links, but for that pointer, which is [q]. *)
Fixpoint frame (t t' : tree) (K : place) (q : option nptr) : Prop :=
  match K with
  | Top => True
  | InKids n K' rest =>
      match K' with
      | Top => links <$> t' !! n = (fun nd => (parent nd, q, left nd, right nd)) <$> t !! n
      | _ => same_at t t' n
      end /\ (forall m, m ∈ nodes rest -> same_at t t' m) /\ frame t t' K' q
  | InRest n kids K' =>
      match K' with
      | Top => links <$> t' !! n = (fun nd => (parent nd, child nd, left nd, q)) <$> t !! n
      | _ => same_at t t' n
      end /\ (forall m, m ∈ nodes kids -> same_at t t' m) /\ frame t t' K' q
  end.

Lemma first_plug K f f' : K <> Top -> first (plug K f') = first (plug K f).
Proof. by destruct K. Qed.

Lemma reshape t t' K f f' : forall up lft, shape t up lft (plug K f) ->
  frame t t' K (first f') -> shape t' (up_of up K) (left_of lft K) f' ->
  shape t' up lft (plug K f').
Proof.
  induction K as [|n K IH rest|n kids K IH]; intros up lft; [done| |];
    intros (nd & Hn & Hp & Hl & Hc & Hr & Hk & Hre) (Hf & Hs & HF) H'.
  - pose proof (IH _ _ Hk HF H') as Hk'. cbn [plug shape].
    assert (exists nd', t' !! n = Some nd' /\ parent nd' = up /\ child nd' = first (plug K f') /\
              left nd' = lft /\ right nd' = first rest) as (nd' & Hn' & H1 & H2 & H3 & H4).
    { destruct K; [|unfold same_at in Hf..]; rewrite Hn in Hf;
        (destruct (t' !! n) as [nd'|]; [|done]); injection Hf as H1 H2 H3 H4;
        exists nd'; rewrite H1, H2, H3, H4; done. }
    exists nd'. split_and!; try done. by eapply shape_ext.
  - pose proof (IH _ _ Hre HF H') as Hr'. cbn [plug shape].
    assert (exists nd', t' !! n = Some nd' /\ parent nd' = up /\ child nd' = first kids /\
              left nd' = lft /\ right nd' = first (plug K f')) as (nd' & Hn' & H1 & H2 & H3 & H4).
    { destruct K; [|unfold same_at in Hf..]; rewrite Hn in Hf;
        (destruct (t' !! n) as [nd'|]; [|done]); injection Hf as H1 H2 H3 H4;
        exists nd'; rewrite H1, H2, H3, H4; done. }
    exists nd'. split_and!; try done. by eapply shape_ext.
Qed.

(** Nothing changes around the place. *)
Lemma frame_same t t' K f f' : forall up lft, shape t up lft (plug K f) -> first f' = first f ->
  (forall m, m ∈ before K ++ behind K -> same_at t t' m) -> frame t t' K (first f').
Proof.
  induction K as [|n K IH rest|n kids K IH]; intros up lft; [done| |];
    intros (nd & Hn & Hp & Hl & Hc & Hr & Hk & Hre) E Hs; cbn [frame before behind] in *.
  - assert (same_at t t' n) as Hsn by (apply Hs; left). split_and!.
    + destruct K; [|done..]. unfold same_at in Hsn. rewrite Hsn, Hn. simpl. unfold links.
      rewrite E, Hc. done.
    + intros m Hm. apply Hs. set_solver.
    + eapply IH; [done|done|]. intros m Hm. apply Hs. set_solver.
  - assert (same_at t t' n) as Hsn by (apply Hs; left). split_and!.
    + destruct K; [|done..]. unfold same_at in Hsn. rewrite Hsn, Hn. simpl. unfold links.
      rewrite E, Hr. done.
    + intros m Hm. apply Hs. set_solver.
    + eapply IH; [done|done|]. intros m Hm. apply Hs. set_solver.
Qed.

Lemma slot_before K : forall up lft n, K <> Top -> slot_node up lft K = Some n -> n ∈ before K.
Proof.
  unfold slot_node.
  induction K as [|m K IH rest|m kids K IH]; intros up lft n Hne H; [done| |]; simpl in *.
  - destruct K; [injection H as <-; left|right; by eapply IH..].
  - destruct K; [injection H as <-; left|right; apply elem_of_app; right; by eapply IH..].
Qed.

Lemma left_of_None K : forall lft, K <> Top ->
  (exists l, left_of lft K = Some l) <-> (exists l, left_of None K = Some l).
Proof.
  induction K as [|m K IH rest|m kids K IH]; intros lft Hne; [done| |]; simpl; done.
Qed.

(** Only the pointer to the place changes. *)
Lemma frame_slot t t' K q : forall up lft, NoDup (before K ++ behind K) -> K <> Top ->
  (forall n, slot_node up lft K = Some n -> links <$> t' !! n = set_slot K q <$> t !! n) ->
  (forall m, m ∈ before K ++ behind K -> slot_node up lft K <> Some m -> same_at t t' m) ->
  frame t t' K q.
Proof.
  induction K as [|n K IH rest|n kids K IH]; intros up lft Hnd Hne Hslot Hs; [done| |].
  - cbn [before behind] in *. cbn [app] in Hnd. apply NoDup_cons in Hnd as [Hn Hnd].
    rewrite app_assoc in Hnd. apply NoDup_app in Hnd as (Hnd & Hd & _).
    destruct (decide (K = Top)) as [->|HK].
    { split_and!; [exact (Hslot n eq_refl)| |done]. intros m Hm. apply Hs; [set_solver|].
      intros E. injection E as ->. apply Hn. set_solver. }
    assert (forall m, slot_node up lft (InKids n K rest) = Some m -> m ∈ before K) as Hb.
    { intros m Hm. exact (slot_before K (Some n) None m HK Hm). }
    split_and!.
    + assert (same_at t t' n) as H.
      { apply Hs; [left|]. intros E. apply Hb in E. apply Hn. set_solver. }
      destruct K; done.
    + intros m Hm. apply Hs; [set_solver|]. intros E. apply Hb in E. apply (Hd m); set_solver.
    + apply (IH (Some n) None); [done|done|exact Hslot|]. intros m Hm. apply Hs. set_solver.
  - cbn [before behind] in *. cbn [app] in Hnd. apply NoDup_cons in Hnd as [Hn Hnd].
    rewrite <- app_assoc in Hnd. apply NoDup_app in Hnd as (_ & Hd & Hnd).
    destruct (decide (K = Top)) as [->|HK].
    { split_and!; [exact (Hslot n eq_refl)| |done]. intros m Hm. apply Hs; [set_solver|].
      intros E. injection E as ->. apply Hn. set_solver. }
    assert (forall m, slot_node up lft (InRest n kids K) = Some m -> m ∈ before K) as Hb.
    { intros m Hm. exact (slot_before K up (Some n) m HK Hm). }
    split_and!.
    + assert (same_at t t' n) as H.
      { apply Hs; [left|]. intros E. apply Hb in E. apply Hn. set_solver. }
      destruct K; done.
    + intros m Hm. apply Hs; [set_solver|]. intros E. apply Hb in E. apply (Hd m); set_solver.
    + apply (IH up (Some n)); [done|done| |].
      * intros m Hm. rewrite (Hslot m Hm). unfold set_slot. cbn [left_of].
        destruct (left_of_None K (Some n) HK) as [H1 H2].
        destruct (left_of (Some n) K) eqn:E1, (left_of None K) eqn:E2; try done.
        { destruct H1 as [? H1]; [eauto|done]. } { destruct H2 as [? H2]; [eauto|done]. }
      * intros m Hm. apply Hs. set_solver.
Qed.

(** ** Linking a node below another *)

Lemma nodes_size t up lft f : shape t up lft f -> NoDup (nodes f) -> (length (nodes f) <= size t)%nat.
Proof.
  intros Hs Hnd. rewrite <- (size_list_to_set (C := gset nptr) (nodes f)) by done.
  rewrite <- size_dom. apply subseteq_size. intros n Hn. apply elem_of_list_to_set in Hn.
  apply elem_of_dom. by eapply shape_alive.
Qed.

(** The last of the siblings: a forest can be joined behind it. *)
Lemma last_spec t f : forall up lft, f <> Nil -> shape t up lft f -> NoDup (nodes f) ->
  exists l ld, t !! l = Some ld /\ l ∈ nodes f /\
    (forall n fuel, first f = Some n -> (length (nodes f) <= fuel)%nat ->
       last_sibling fuel t n = Some l) /\
    forall t' g, (forall x, x ∈ nodes f -> x <> l -> same_at t t' x) ->
      links <$> t' !! l = Some (parent ld, child ld, left ld, first g) ->
      shape t' up (Some l) g -> shape t' up lft (join f g).
Proof.
  induction f as [|n kids _ rest IH]; intros up lft Hne; [done|].
  intros (nd & Hn & Hp & Hl & Hc & Hr & Hk & Hre) Hnd. cbn [nodes] in Hnd.
  apply NoDup_cons in Hnd as [Hnin Hnd]. apply NoDup_app in Hnd as (_ & Hd & Hndr).
  destruct rest as [|m mk mr].
  - exists n, nd. split_and!; [done|left| |].
    + intros n' fuel E Hf. injection E as <-. destruct fuel as [|fuel]; [simpl in Hf; lia|].
      simpl. rewrite Hn. simpl. by rewrite Hr.
    + intros t' g Hs Hl' Hg. cbn [join shape]. destruct (t' !! n) as [nd'|] eqn:Hn'; [|done].
      injection Hl' as H1 H2 H3 H4. exists nd'. rewrite H1, H2, H3, H4. split_and!; try done.
      eapply shape_ext; [|exact Hk]. intros x Hx. apply Hs; [set_solver|]. intros ->. apply Hnin. set_solver.
  - destruct (IH up (Some n)) as (l & ld & Hlt & Hlin & Hlast & Hjoin); [done|done|done|].
    assert (l <> n) as Hln by (intros ->; apply Hnin; set_solver).
    exists l, ld. split_and!; [done|set_solver| |].
    + intros n' fuel E Hf. injection E as <-.
      destruct fuel as [|fuel]; [simpl in Hf; lia|]. cbn [last_sibling]. rewrite Hn. simpl.
      rewrite Hr. apply (Hlast m fuel eq_refl). cbn [nodes] in *. simpl in *.
      rewrite length_app in Hf. simpl in Hf. lia.
    + intros t' g Hs Hl' Hg. cbn [join shape].
      assert (same_at t t' n) as Hsn by (apply Hs; [left|done]). unfold same_at in Hsn.
      rewrite Hn in Hsn. destruct (t' !! n) as [nd'|] eqn:Hn'; [|done].
      injection Hsn as H1 H2 H3 H4. exists nd'. rewrite H1, H2, H3, H4. split_and!; try done.
      * eapply shape_ext; [|exact Hk]. intros x Hx. apply Hs; [set_solver|]. intros ->.
        by apply (Hd l Hx).
      * apply Hjoin; [|done|done]. intros x Hx. apply Hs. set_solver.
Qed.

(** Two trees with the same nodes and data. *)
Definition same_info (t t' : tree) : Prop := forall n, info <$> t' !! n = info <$> t !! n.

Lemma same_info_upd t n nd nd' : t !! n = Some nd -> info nd' = info nd ->
  same_info t (<[n := nd']> t).
Proof.
  intros Hn Hi x. destruct (decide (n = x)) as [<-|]; [|by rewrite lookup_insert_ne].
  rewrite lookup_insert_eq, Hn. simpl. by rewrite Hi.
Qed.

Lemma same_info_trans t1 t2 t3 : same_info t1 t2 -> same_info t2 t3 -> same_info t1 t3.
Proof. intros H1 H2 n. by rewrite H2. Qed.

Lemma same_info_size t t' : same_info t t' -> size t' = size t.
Proof.
  intros H. rewrite <- !size_dom. f_equal. apply set_eq. intros n. rewrite !elem_of_dom.
  specialize (H n). destruct (t !! n), (t' !! n); try done; split; intros [? ?]; try done; eauto.
Qed.

Lemma set_parents_one t n nd p k : t !! n = Some nd -> right nd = None -> (0 < k)%nat ->
  set_parents k t n p = Some (<[n := set_parent (Some p) nd]> t).
Proof. intros Hn Hr Hk. destruct k; [lia|]. simpl. rewrite Hn. simpl. by rewrite Hr. Qed.

Lemma size_pos (t : tree) n nd : t !! n = Some nd -> (0 < size t)%nat.
Proof.
  intros Hn. destruct (size t) eqn:E; [|lia]. apply map_size_empty_inv in E. subst t.
  by rewrite lookup_empty in Hn.
Qed.

Lemma link_child_spec t K p kids rest c ck :
  shape t None None (plug K (Cons p kids rest)) -> shape t None None (Cons c ck Nil) ->
  NoDup (nodes (plug K (Cons p kids rest)) ++ nodes (Cons c ck Nil)) ->
  exists t', link_child t p c = Some t' /\ same_info t t' /\
    (forall x, x <> p -> child <$> t' !! x = child <$> t !! x) /\
    shape t' None None (plug K (Cons p (join kids (Cons c ck Nil)) rest)).
Proof.
  intros Hs Hc Hnd. pose proof (shape_at _ _ _ _ _ Hs) as (pd & Hp & Hpp & Hpl & Hpc & Hpr & Hk & Hr).
  destruct Hc as (cd & Hcd & Hcp & Hcl & Hcc & Hcr & Hck & _).
  rewrite nodes_plug in Hnd. cbn [nodes] in Hnd. rewrite app_nil_r in Hnd.
  assert (forall x, x ∈ before K ++ behind K -> x <> p /\ x <> c /\ x ∉ nodes kids) as HK.
  { intros x Hx. split_and!; intros E; revert Hnd; rewrite !NoDup_app, !NoDup_cons; set_solver. }
  assert (p <> c) as Hpc' by (intros ->; revert Hnd; rewrite !NoDup_app; set_solver).
  assert (forall x, x ∈ nodes kids -> x <> p /\ x <> c) as Hkn.
  { intros x Hx. split; intros ->; revert Hnd; rewrite !NoDup_app, !NoDup_cons; set_solver. }
  assert (forall x, x ∈ nodes rest -> x <> p /\ x <> c /\ x ∉ nodes kids) as Hrn.
  { intros x Hx. split_and!; intros E; revert Hnd; rewrite !NoDup_app, !NoDup_cons, !NoDup_app; set_solver. }
  assert (forall x, x ∈ nodes ck -> x <> p /\ x <> c /\ x ∉ nodes kids) as Hcn.
  { intros x Hx. split_and!; intros E; revert Hnd; rewrite !NoDup_app, !NoDup_cons; set_solver. }
  assert (forall t', same_info t t' ->
    (forall x, x <> p -> x <> c -> x ∉ nodes kids -> same_at t t' x) ->
    links <$> t' !! p = Some (parent pd, first (join kids (Cons c ck Nil)), left pd, right pd) ->
    shape t' (Some p) None (join kids (Cons c ck Nil)) ->
    shape t' None None (plug K (Cons p (join kids (Cons c ck Nil)) rest))) as Hdone.
  { intros t' Hi Hsame Hp' Hk'. eapply reshape; [exact Hs| |].
    - eapply frame_same; [exact Hs|done|]. intros x Hx. by apply Hsame; apply HK.
    - destruct (t' !! p) as [pd'|] eqn:E; [|done]. injection Hp' as H1 H2 H3 H4.
      cbn [shape]. exists pd'. rewrite H1, H2, H3, H4. split_and!; try done.
      eapply shape_ext; [|exact Hr]. intros x Hx. by apply Hsame; apply Hrn. }
  unfold link_child. rewrite Hp. cbn [mbind option_bind]. rewrite Hpc.
  destruct kids as [|k kk kr].
  - unfold upd. cbn [first]. rewrite Hp. cbn [mbind option_bind].
    set (t1 := <[p := set_child (Some c) pd]> t).
    assert (t1 !! c = Some cd) as Hc1 by (unfold t1; by rewrite lookup_insert_ne).
    rewrite (set_parents_one _ _ _ _ _ Hc1 Hcr (size_pos _ _ _ Hc1)).
    eexists. split; [reflexivity|].
    assert (same_info t (<[c := set_parent (Some p) cd]> t1)) as Hi.
    { eapply same_info_trans; [by apply (same_info_upd t p pd (set_child (Some c) pd))|]. by eapply same_info_upd. }
    split; [done|]. split.
    { intros x Hxp. destruct (decide (x = c)) as [->|].
      - by rewrite lookup_insert_eq, Hcd.
      - unfold t1. by rewrite !lookup_insert_ne. }
    apply Hdone; [done|..].
    + intros x Hxp Hxc _. unfold same_at, t1. by rewrite !lookup_insert_ne.
    + rewrite lookup_insert_ne by done. unfold t1. by rewrite lookup_insert_eq.
    + cbn [join shape]. eexists. rewrite lookup_insert_eq. split_and!; try done.
      eapply shape_ext; [|exact Hck]. intros x Hx. unfold same_at, t1.
      destruct (Hcn x Hx) as (? & ? & _). by rewrite !lookup_insert_ne.
  - destruct (last_spec t (Cons k kk kr) (Some p) None) as (l & ld & Hl & Hlin & Hlast & Hjoin);
      [done|done| |].
    { revert Hnd. rewrite !NoDup_app, !NoDup_cons, !NoDup_app. tauto. }
    assert (l <> p /\ l <> c) as [Hlp Hlc] by by apply Hkn.
    cbn [first treeLinkSibling]. rewrite (Hlast k); [|done|].
    2: { eapply nodes_size; [exact Hk|]. revert Hnd. rewrite !NoDup_app, !NoDup_cons, !NoDup_app. tauto. }
    unfold upd. cbn [mbind option_bind]. rewrite Hl. cbn [mbind option_bind].
    rewrite lookup_insert_ne by done. rewrite Hcd. cbn [mbind option_bind].
    rewrite !lookup_insert_ne by done. rewrite Hp. cbn [mbind option_bind].
    set (t1 := <[l := set_right (Some c) ld]> t).
    set (t2 := <[c := set_left (Some l) cd]> t1).
    set (t3 := <[p := set_child (Some k) pd]> t2).
    assert (t3 !! c = Some (set_left (Some l) cd)) as Hc3.
    { unfold t3, t2. by rewrite lookup_insert_ne, lookup_insert_eq. }
    rewrite (set_parents_one _ _ _ _ _ Hc3 Hcr (size_pos _ _ _ Hc3)).
    eexists. split; [reflexivity|].
    assert (same_info t (<[c := set_parent (Some p) (set_left (Some l) cd)]> t3)) as Hi.
    { eapply same_info_trans; [by apply (same_info_upd t l ld (set_right (Some c) ld) Hl)|].
      eapply same_info_trans; [apply (same_info_upd t1 c cd (set_left (Some l) cd)); [|done]|].
      { unfold t1. by rewrite lookup_insert_ne. }
      eapply same_info_trans; [apply (same_info_upd t2 p pd (set_child (Some k) pd)); [|done]|].
      { unfold t2, t1. by rewrite !lookup_insert_ne. }
      by eapply same_info_upd. }
    split; [done|]. split.
    { intros x Hxp. destruct (decide (x = c)) as [->|].
      - by rewrite lookup_insert_eq, Hcd.
      - unfold t3, t2, t1. rewrite !lookup_insert_ne by done.
        destruct (decide (x = l)) as [->|]; [by rewrite lookup_insert_eq, Hl|by rewrite lookup_insert_ne]. }
    apply Hdone; [done|..].
    + intros x Hxp Hxc Hxk. assert (x <> l) by (intros ->; done).
      unfold same_at, t3, t2, t1. by rewrite !lookup_insert_ne.
    + rewrite lookup_insert_ne by done. unfold t3. rewrite lookup_insert_eq.
      cbn [join first]. cbn. unfold links. simpl. done.
    + apply Hjoin.
      * intros x Hx Hxl. destruct (Hkn x Hx) as [? ?]. unfold same_at, t3, t2, t1.
        by rewrite !lookup_insert_ne.
      * rewrite lookup_insert_ne by done. unfold t3, t2, t1.
        rewrite !lookup_insert_ne by done. by rewrite lookup_insert_eq.
      * cbn [shape]. eexists. rewrite lookup_insert_eq. split_and!; try done.
        eapply shape_ext; [|exact Hck]. intros x Hx. destruct (Hcn x Hx) as (? & ? & Hxk).
        assert (x <> l) by (intros ->; done). unfold same_at, t3, t2, t1.
        by rewrite !lookup_insert_ne.
Qed.

(** ** The jobs of the tree *)

Section Jobs.
(** What the nodes point to: the node and the state of a job, and the states of the
    elements of an array. *)
Context (jgrpNode : jptr -> option nptr) (jStatus : jptr -> Z) (elems : jptr -> list Z).

Definition states_at (t : tree) (n : nptr) : list Z :=
  match info <$> t !! n with
  | Some (JOB_DATA jp) => [jStatus jp]
  | Some (ARRAY_DATA _ jobArray) => elems jobArray
  | _ => []
  end.

(** The jobs below the nodes of a forest, each with its path, as [tally] counts
    them; [l] is the path of the parent. *)
Fixpoint items (t : tree) (l : list nptr) (f : forest) : list (list nptr * Z) :=
  match f with
  | Nil => []
  | Cons n kids rest =>
      ((fun s => (n :: l, s)) <$> states_at t n) ++ items t (n :: l) kids ++ items t l rest
  end.

(** The jobs around a place. *)
Fixpoint items_around (t : tree) (l : list nptr) (K : place) : list (list nptr * Z) :=
  match K with
  | Top => []
  | InKids n K rest =>
      ((fun s => (n :: l, s)) <$> states_at t n) ++ items_around t (n :: l) K ++ items t l rest
  | InRest n kids K =>
      ((fun s => (n :: l, s)) <$> states_at t n) ++ items t (n :: l) kids ++ items_around t l K
  end.

Lemma items_join t l f g : items t l (join f g) = items t l f ++ items t l g.
Proof. clear jgrpNode. induction f as [|n kids _ rest IH]; [done|]. simpl. by rewrite IH, <- !app_assoc. Qed.

Lemma items_plug t K f : forall l, items t l (plug K f) ≡ₚ items_around t l K ++ items t (above_of l K) f.
Proof. clear jgrpNode.
  induction K as [|n K IH rest|n kids K IH]; intros l; [done| |]; simpl; rewrite IH; solve_Permutation.
Qed.

(** The path of the parent is the end of every path. *)
Definition extend (l : list nptr) : list nptr * Z -> list nptr * Z := fun '(q, s) => (q ++ l, s).

Lemma items_extend t f : forall l l', items t (l ++ l') f = extend l' <$> items t l f.
Proof. clear jgrpNode.
  induction f as [|n kids IHk rest IHr]; intros l l'; [done|]. simpl.
  rewrite !fmap_app, <- list_fmap_compose. f_equal. f_equal; [apply (IHk (n :: l))|apply IHr].
Qed.

Lemma items_paths t f : forall l q s, (q, s) ∈ items t l f ->
  exists a, q = a ++ l /\ a ⊆ nodes f /\ a <> [].
Proof. clear jgrpNode.
  induction f as [|n kids IHk rest IHr]; intros l q s Hin; [by apply not_elem_of_nil in Hin|].
  cbn [items] in Hin. rewrite !elem_of_app in Hin. destruct Hin as [Hin|[Hin|Hin]].
  - apply list_elem_of_fmap in Hin as (s' & [= -> ->] & _). exists [n]. split_and!; [done| |done].
    intros x Hx. apply list_elem_of_singleton in Hx as ->. left.
  - apply IHk in Hin as (a & -> & Ha & _). exists (a ++ [n]). rewrite <- app_assoc.
    split_and!; [done| |by destruct a]. cbn [nodes]. set_solver.
  - apply IHr in Hin as (a & -> & Ha & Hne). exists a. split_and!; [done| |done]. cbn [nodes]. set_solver.
Qed.

(** Every path of a tree ends with its root. *)
Lemma items_root t n kids l q s : (q, s) ∈ items t l (Cons n kids Nil) -> n ∈ q.
Proof. clear jgrpNode.
  cbn [items]. rewrite app_nil_r, elem_of_app. intros [Hin|Hin].
  - apply list_elem_of_fmap in Hin as (s' & [= -> ->] & _). left.
  - apply items_paths in Hin as (a & -> & _). set_solver.
Qed.

Lemma items_around_paths t K : forall l q s, (q, s) ∈ items_around t l K ->
  exists a, q = a ++ l /\ a ⊆ before K ++ behind K.
Proof. clear jgrpNode.
  induction K as [|n K IH rest|n kids K IH]; intros l q s Hin; [by apply not_elem_of_nil in Hin| |];
    cbn [items_around before behind] in *; rewrite !elem_of_app in Hin;
    (destruct Hin as [Hin|[Hin|Hin]];
     [apply list_elem_of_fmap in Hin as (s' & [= -> ->] & _); exists [n]; split; [done|set_solver]|..]).
  - apply IH in Hin as (a & -> & Ha). exists (a ++ [n]). rewrite <- app_assoc. split; [done|set_solver].
  - apply items_paths in Hin as (a & -> & Ha & _). exists a. split; [done|set_solver].
  - apply items_paths in Hin as (a & -> & Ha & _). exists (a ++ [n]). rewrite <- app_assoc.
    split; [done|set_solver].
  - apply IH in Hin as (a & -> & Ha). exists a. split; [done|set_solver].
Qed.

(** Counters do not matter for the jobs. *)
Definition kind (i : ndInfo) : ndInfo :=
  match i with
  | JOB_DATA jp => JOB_DATA jp
  | JGRP_DATA _ => JGRP_DATA []
  | ARRAY_DATA _ a => ARRAY_DATA [] a
  end.

Definition same_kind (t t' : tree) (n : nptr) : Prop :=
  (fun nd => kind (info nd)) <$> t' !! n = (fun nd => kind (info nd)) <$> t !! n.

Lemma states_kind t t' n : same_kind t t' n -> states_at t' n = states_at t n.
Proof. clear jgrpNode.
  unfold same_kind, states_at. destruct (t !! n) as [nd|], (t' !! n) as [nd'|]; try done.
  simpl. intros [= H]. by destruct (info nd), (info nd'); simplify_eq/=.
Qed.

Lemma items_kind t t' f : forall l, (forall n, n ∈ nodes f -> same_kind t t' n) -> items t' l f = items t l f.
Proof. clear jgrpNode.
  induction f as [|n kids IHk rest IHr]; intros l H; [done|]. cbn [items nodes] in *.
  rewrite (states_kind t t' n) by (apply H; left). rewrite IHk, IHr; [done|..]; intros m Hm; apply H; set_solver.
Qed.

Lemma items_around_kind t t' K : forall l, (forall n, n ∈ before K ++ behind K -> same_kind t t' n) ->
  items_around t' l K = items_around t l K.
Proof. clear jgrpNode.
  induction K as [|n K IH rest|n kids K IH]; intros l H; [done| |]; cbn [items_around before behind] in *;
    rewrite (states_kind t t' n) by (apply H; left).
  - rewrite IH, (items_kind t t' rest); [done| |]; intros m Hm; apply H; set_solver.
  - rewrite (items_kind t t' kids), IH; [done| |]; intros m Hm; apply H; set_solver.
Qed.

Lemma info_kind t t' n : same_info t t' -> same_kind t t' n.
Proof.
  intros H. specialize (H n). unfold same_kind.
  destruct (t !! n), (t' !! n); try done. simpl in *. by injection H as ->.
Qed.

Lemma set_counts_kind (t t' : tree) (l : list nptr) f :
  (forall n, t' !! n = (if bool_decide (n ∈ l) then set_counts f else id) <$> t !! n) ->
  forall n, same_kind t t' n.
Proof.
  intros H n. unfold same_kind. rewrite H. destruct (t !! n) as [nd|]; [|done]. simpl.
  case_bool_decide; [|done]. unfold set_counts. simpl. by destruct (info nd).
Qed.

(** *** Counting *)

(** All jobs of a list. *)
Definition total (i : nat) (I : list (list nptr * Z)) : Z := foldr (fun a z => job_count (snd a) i + z) 0 I.

Lemma tally_total n i I : (forall q s, (q, s) ∈ I -> n ∈ q) -> tally n i I = total i I.
Proof.
  induction I as [|[q s] I IH]; intros H; [done|]. simpl. rewrite bool_decide_true by (eapply H; left).
  rewrite IH; [done|]. intros q' s' Hin. eapply H. by right.
Qed.

Lemma tally_none n i I : (forall q s, (q, s) ∈ I -> n ∉ q) -> tally n i I = 0.
Proof.
  induction I as [|[q s] I IH]; intros H; [done|]. simpl. rewrite bool_decide_false by (eapply H; left).
  rewrite IH; [done|]. intros q' s' Hin. eapply H. by right.
Qed.

Lemma total_extend l i I : total i (extend l <$> I) = total i I.
Proof. unfold total. induction I as [|[q s] I IH]; [done|].
  rewrite fmap_cons. cbn [foldr]. f_equal. exact IH.
Qed.

Lemma tally_extend n l i I : tally n i (extend l <$> I) = if bool_decide (n ∈ l) then total i I else tally n i I.
Proof.
  case_bool_decide as Hn.
  - rewrite tally_total, total_extend; [done|]. intros q s Hin.
    apply list_elem_of_fmap in Hin as ([q' s'] & [= -> ->] & _). set_solver.
  - induction I as [|[q s] I IH]; [done|]. rewrite fmap_cons. simpl. rewrite <- IH.
    by rewrite (bool_decide_ext (n ∈ q ++ l) (n ∈ q)) by set_solver.
Qed.

(** A list of jobs [I], all below [n], moves below the path [l] (or away from it,
    with the factor -1): the counters of [n] are added to those of the path. *)
Lemma count_below t n nd d l R I factor :
  t !! n = Some nd -> counts_of nd = Some d -> path t (parent nd) l ->
  n ∉ l -> (forall q s, (q, s) ∈ R -> n ∉ q) ->
  (forall q s, (q, s) ∈ I -> n ∈ q /\ forall x, x ∈ l -> x ∉ q) ->
  (factor = 1 /\ grouped t (R ++ I) \/ factor = -1 /\ grouped t (R ++ (extend l <$> I))) ->
  exists t', updJgrpCountByOp (size t) t n factor = Some t' /\ same_links t t' /\
    (forall x, same_kind t t' x) /\
    grouped t' (R ++ if factor =? 1 then extend l <$> I else I).
Proof.
  intros Hn Hd Hp Hnl HR HI HG.
  destruct (upd_by_op_spec t (parent nd) l factor d (size t) Hp (path_length _ _ _ Hp))
    as (t' & Hop & Hlk & Hl).
  exists t'. unfold updJgrpCountByOp. rewrite Hn. cbn [mbind option_bind]. rewrite Hd, Hop.
  split_and!; [done|done|exact (set_counts_kind _ _ _ _ Hl)|].
  assert (forall i, tally n i I = total i I) as HnI by (intros; apply tally_total; intros; by eapply HI).
  assert (forall i, tally n i R = 0) as HnR by (intros; by apply tally_none).
  assert (forall x i, x ∈ l -> tally x i I = 0) as HxI.
  { intros x i Hx. apply tally_none. intros q s Hin. by eapply HI. }
  assert (forall i, (i < NUM_JGRP_COUNTERS)%nat -> d !! i = Some (total i I)) as Hdi.
  { intros i Hi. destruct HG as [[_ HG]|[_ HG]]; destruct (HG n nd d Hn Hd) as [_ ->]; try done; f_equal;
      rewrite tally_app, HnR, ?tally_extend, ?bool_decide_false, HnI by done; lia. }
  pose proof (add_counts_length NUM_JGRP_COUNTERS factor d) as Hglen.
  pose proof (add_counts_lookup NUM_JGRP_COUNTERS factor d) as Hglk.
  set (g := add_counts NUM_JGRP_COUNTERS factor d) in *. clearbody g.
  intros x nd' c' Hx Hc'. rewrite Hl in Hx. destruct (t !! x) as [ndx|] eqn:Hxt; [|done].
  cbn [fmap option_fmap option_map] in Hx. injection Hx as <-.
  destruct (bool_decide (x ∈ l)) eqn:Hxl.
  - rewrite counts_of_set in Hc'. destruct (counts_of ndx) as [c|] eqn:Hc; [|done].
    cbn [fmap option_fmap option_map] in Hc'. injection Hc' as <-.
    apply bool_decide_eq_true in Hxl. rewrite Hglen.
    destruct HG as [[-> HG]|[-> HG]]; destruct (HG x ndx c Hxt Hc) as [Hlen Hcnt]; split; try done;
      intros i Hi; rewrite (Hglk _ _ _ _ Hi (Hdi i Hi) (Hcnt i Hi)); f_equal;
      cbn [Z.eqb Pos.eqb]; rewrite !tally_app, tally_extend, bool_decide_true, (HxI x i) by done; lia.
  - apply bool_decide_eq_false in Hxl. destruct HG as [[-> HG]|[-> HG]];
      destruct (HG x ndx c' Hxt Hc') as [Hlen Hcnt]; split; try done; intros i Hi;
      rewrite (Hcnt i Hi); f_equal; simpl; by rewrite !tally_app, tally_extend, bool_decide_false.
Qed.

Lemma grouped_same t J1 J2 : (forall n nd c i, t !! n = Some nd -> counts_of nd = Some c ->
    tally n i J1 = tally n i J2) -> grouped t J1 -> grouped t J2.
Proof.
  intros H HG n nd c Hn Hc. destruct (HG n nd c Hn Hc) as [Hlen Hcnt]. split; [done|].
  intros i Hi. by rewrite Hcnt, (H n nd c i).
Qed.

Lemma grouped_perm t J1 J2 : J1 ≡ₚ J2 -> grouped t J1 -> grouped t J2.
Proof. intros HP. apply grouped_same. intros. by apply tally_perm. Qed.

Lemma grouped_info t t' J : same_info t t' -> grouped t J -> grouped t' J.
Proof.
  intros Hi HG n nd' c Hn Hc. specialize (Hi n). rewrite Hn in Hi.
  destruct (t !! n) as [nd|] eqn:Hnd; [|done]. simpl in Hi. injection Hi as Hi.
  apply (HG n nd c Hnd). unfold counts_of in *. by rewrite <- Hi.
Qed.

(** A job that leaves the path or joins it counts from or to JOB_STAT_NULL. *)
Lemma count_job t n nd jp l R old new :
  t !! n = Some nd -> info nd = JOB_DATA jp -> path t (Some n) (n :: l) ->
  grouped t (R ++ [(n :: l, old)]) ->
  exists t', updJgrpCountByJStatus (size t) t (Some n) old new = Some t' /\ same_links t t' /\
    (forall x, same_kind t t' x) /\ grouped t' (R ++ [(n :: l, new)]).
Proof.
  intros Hn Hi Hp HG.
  destruct (upd_counts_grouped t (Some n) (n :: l) old new R [] (size t) Hp (path_length _ _ _ Hp) HG)
    as (t' & Hop & Hlk & HG').
  destruct (upd_counts_spec t (Some n) (n :: l) old new (size t) Hp (path_length _ _ _ Hp))
    as (t'' & Hop' & _ & Hl). rewrite Hop in Hop'. injection Hop' as <-.
  exists t'. split_and!; try done. exact (set_counts_kind _ _ _ _ Hl).
Qed.

Lemma grouped_null t n nd jp l s R : t !! n = Some nd -> info nd = JOB_DATA jp ->
  (s = JOB_STAT_NULL \/ l = []) ->
  grouped t (R ++ [(n :: l, s)]) <-> grouped t (R ++ [([n], JOB_STAT_NULL)]).
Proof.
  intros Hn Hi Hs. assert (forall x ndx c i, t !! x = Some ndx -> counts_of ndx = Some c ->
    tally x i (R ++ [(n :: l, s)]) = tally x i (R ++ [([n], JOB_STAT_NULL)])) as H.
  { intros x ndx c i Hx Hc. rewrite !tally_app. f_equal. simpl.
    assert (x <> n) as Hne.
    { intros ->. rewrite Hn in Hx. injection Hx as <-. unfold counts_of in Hc. by rewrite Hi in Hc. }
    rewrite (bool_decide_false (x ∈ [n])) by set_solver.
    destruct Hs as [->| ->]; [|by rewrite bool_decide_false by set_solver].
    by case_bool_decide. }
  split; apply grouped_same; intros; [by eapply H|symmetry; by eapply H].
Qed.

Lemma same_kind_job t t' n nd jp : same_kind t t' n -> t !! n = Some nd -> info nd = JOB_DATA jp ->
  exists nd', t' !! n = Some nd' /\ info nd' = JOB_DATA jp.
Proof.
  unfold same_kind. intros H Hn Hi. rewrite Hn in H. destruct (t' !! n) as [nd'|]; [|done].
  exists nd'. split; [done|]. simpl in H. injection H as H. rewrite Hi in H. by destruct (info nd'); simplify_eq/=.
Qed.

(** A job points back to its node, and nothing is below it. *)
Definition job_node (n : nptr) (nd : jgTreeNode) : Prop :=
  forall jp, info nd = JOB_DATA jp -> jgrpNode jp = Some n /\ child nd = None.

Lemma items_job t l n nd jp : t !! n = Some nd -> info nd = JOB_DATA jp ->
  items t l (Cons n Nil Nil) = [(n :: l, jStatus jp)].
Proof. intros Hn Hi. cbn [items]. unfold states_at. rewrite Hn. simpl. by rewrite Hi. Qed.

Section Count.
Context (t : tree) (n : nptr) (nd : jgTreeNode) (kids : forest) (l : list nptr) (R : list (list nptr * Z)).
Context (Hn : t !! n = Some nd) (Hc : child nd = first kids) (Hp : path t (parent nd) l) (Hnl : n ∉ l).
Context (Hlk : forall x, x ∈ l -> x ∉ nodes kids) (HR : forall q s, (q, s) ∈ R -> n ∉ q).
Context (Hjob : job_node n nd).

Lemma below_paths q s : (q, s) ∈ items t [] (Cons n kids Nil) -> n ∈ q /\ forall x, x ∈ l -> x ∉ q.
Proof.
  intros Hin. split; [by eapply items_root|]. apply items_paths in Hin as (a & -> & Ha & _).
  intros x Hx. rewrite app_nil_r. intros Hxa. apply Ha in Hxa. cbn [nodes] in Hxa.
  rewrite app_nil_r in Hxa. apply elem_of_cons in Hxa as [->|Hxa]; [done|by apply (Hlk x)].
Qed.

Lemma below_extend : items t l (Cons n kids Nil) = extend l <$> items t [] (Cons n kids Nil).
Proof. exact (items_extend t (Cons n kids Nil) [] l). Qed.

Lemma job_kids jp : info nd = JOB_DATA jp -> kids = Nil /\ jgrpNode jp = Some n.
Proof. intros Hi. destruct (Hjob _ Hi) as [Hg Hch]. rewrite Hc in Hch. by destruct kids. Qed.

Lemma job_path : path t (Some n) (n :: l).
Proof. by econstructor. Qed.

Lemma count_in_spec : grouped t (R ++ items t [] (Cons n kids Nil)) ->
  exists t', count_in jgrpNode jStatus t n = Some t' /\ same_links t t' /\
    (forall x, same_kind t t' x) /\ grouped t' (R ++ items t l (Cons n kids Nil)).
Proof.
  intros HG. unfold count_in. rewrite Hn. cbn [mbind option_bind].
  destruct (info nd) as [jp|c|c a] eqn:Hi.
  - destruct (job_kids _ Hi) as [-> Hg]. rewrite Hg.
    rewrite (items_job _ _ _ _ _ Hn Hi) in HG. rewrite (items_job _ _ _ _ _ Hn Hi).
    apply (count_job t n nd jp); [done|done|exact job_path|].
    apply (grouped_null t n nd jp l JOB_STAT_NULL R Hn Hi (or_introl eq_refl)).
    by apply (grouped_null t n nd jp [] (jStatus jp) R Hn Hi (or_intror eq_refl)).
  - rewrite below_extend. apply (count_below t n nd c l R _ 1); try done.
    + unfold counts_of. by rewrite Hi.
    + exact below_paths.
    + by left.
  - rewrite below_extend. apply (count_below t n nd c l R _ 1); try done.
    + unfold counts_of. by rewrite Hi.
    + exact below_paths.
    + by left.
Qed.

Lemma count_out_spec : grouped t (R ++ items t l (Cons n kids Nil)) ->
  exists t', count_out jgrpNode jStatus t n = Some t' /\ same_links t t' /\
    (forall x, same_kind t t' x) /\ grouped t' (R ++ items t [] (Cons n kids Nil)).
Proof.
  intros HG. unfold count_out. rewrite Hn. cbn [mbind option_bind].
  destruct (info nd) as [jp|c|c a] eqn:Hi.
  - destruct (job_kids _ Hi) as [-> Hg]. rewrite Hg.
    rewrite (items_job _ _ _ _ _ Hn Hi) in HG. rewrite (items_job _ _ _ _ _ Hn Hi).
    destruct (count_job t n nd jp l R (jStatus jp) JOB_STAT_NULL Hn Hi job_path HG)
      as (t' & Hop & Hlk' & Hkd & HG').
    exists t'. split_and!; try done.
    destruct (same_kind_job t t' n nd jp (Hkd n) Hn Hi) as (nd' & Hn' & Hi').
    apply (grouped_null t' n nd' jp [] (jStatus jp) R Hn' Hi' (or_intror eq_refl)).
    by apply (grouped_null t' n nd' jp l JOB_STAT_NULL R Hn' Hi' (or_introl eq_refl)).
  - rewrite below_extend in HG. apply (count_below t n nd c l R _ (-1)); try done.
    + unfold counts_of. by rewrite Hi.
    + exact below_paths.
    + by right.
  - rewrite below_extend in HG. apply (count_below t n nd c l R _ (-1)); try done.
    + unfold counts_of. by rewrite Hi.
    + exact below_paths.
    + by right.
Qed.

End Count.

(** ** The tree *)

Record tree_ok (t : tree) (f : forest) : Prop := {
  tr_shape : shape t None None f;
  tr_nodup : NoDup (nodes f);
  tr_only : forall n, is_Some (t !! n) -> n ∈ nodes f;
  tr_jobs : forall n nd, t !! n = Some nd -> job_node n nd;
  tr_counts : grouped t (items t [] f) }.

Lemma shape_join t f g : forall up lft, shape t up lft (join f g) -> exists lft', shape t up lft' g.
Proof.
  induction f as [|n kids _ rest IH]; intros up lft; [by exists lft|].
  intros (nd & _ & _ & _ & _ & _ & _ & Hr). by apply (IH _ _ Hr).
Qed.

Lemma same_links_child t t' n : same_links t t' -> child <$> t' !! n = child <$> t !! n.
Proof.
  intros H. specialize (H n). destruct (t !! n), (t' !! n); try done. simpl in *. by injection H as _ -> _ _ _.
Qed.

Lemma job_node_kind t t' n nd' : same_kind t t' n -> t' !! n = Some nd' ->
  (forall nd, t !! n = Some nd -> job_node n nd) ->
  (forall nd jp, t !! n = Some nd -> info nd = JOB_DATA jp -> child nd' = child nd) -> job_node n nd'.
Proof.
  unfold same_kind. intros Hk Hn' Hj Hc jp Hi. rewrite Hn' in Hk. destruct (t !! n) as [nd|]; [|done].
  simpl in Hk. injection Hk as Hk. rewrite Hi in Hk.
  assert (info nd = JOB_DATA jp) as Hind by (destruct (info nd); simplify_eq/=; done).
  destruct (Hj nd eq_refl jp Hind) as [Hg Hch]. split; [done|]. by rewrite (Hc nd jp).
Qed.

(** [treeInsertChild] puts a tree behind the children of a group. *)
Lemma insert_child_ok t entry K p kids rest c ck :
  shape t None None (plug K (Cons p kids rest)) -> shape t None None (Cons c ck Nil) ->
  NoDup (nodes (plug K (Cons p kids rest)) ++ nodes (Cons c ck Nil)) ->
  (forall n, is_Some (t !! n) -> n ∈ nodes (plug K (Cons p kids rest)) ++ nodes (Cons c ck Nil)) ->
  (forall n nd, t !! n = Some nd -> job_node n nd) ->
  (forall pd jp, t !! p = Some pd -> info pd <> JOB_DATA jp) ->
  grouped t (items t [] (plug K (Cons p kids rest)) ++ items t [] (Cons c ck Nil)) ->
  exists t', treeInsertChild jgrpNode jStatus t entry (Some p) (Some c) = Some (t', entry, Some p) /\
    (forall n, same_kind t t' n) /\
    tree_ok t' (plug K (Cons p (join kids (Cons c ck Nil)) rest)).
Proof.
  intros Hs Hc Hnd Honly Hjobs Hp HG.
  destruct (link_child_spec t K p kids rest c ck Hs Hc Hnd) as (t1 & Hlink & Hi & Hch & Hs1).
  pose proof (shape_at _ _ _ _ _ Hs1) as (pd & Hpd & Hpp & _ & _ & _ & Hk1 & _).
  pose proof (path_at _ _ _ _ _ _ Hs1 (path_root t1)) as Hup.
  destruct (shape_join _ _ _ _ _ Hk1) as (lft & cd & Hcd & Hcp & _ & Hcc & _ & _).
  set (F := plug K (Cons p kids rest)) in *. set (g := Cons c ck Nil) in *.
  set (l := p :: above_of [] K).
  assert (path t1 (parent cd) l) as Hpath by (rewrite Hcp; econstructor; [done|by rewrite Hpp]).
  assert (forall x, x ∈ l -> x ∈ nodes F) as HlF.
  { intros x Hx. unfold F. rewrite nodes_plug. cbn [nodes]. destruct (above_of_app [] K) as (a & Ha & Hsub).
    unfold l in Hx. rewrite Ha, app_nil_r in Hx. set_solver. }
  apply NoDup_app in Hnd as (HndF & Hdis & Hndg).
  assert (items t1 [] F = items t [] F) as HiF by (apply items_kind; intros; by apply info_kind).
  assert (items t1 [] g = items t [] g) as Hig by (apply items_kind; intros; by apply info_kind).
  destruct (count_in_spec t1 c cd ck l (items t1 [] F) Hcd Hcc Hpath) as (t2 & Hcount & Hlk & Hkd & HG2).
  { intros Hcl. apply (Hdis c); [by apply HlF|left]. }
  { intros x Hx Hxk. apply (Hdis x); [by apply HlF|]. cbn [nodes g]. rewrite app_nil_r. by right. }
  { intros q s Hin. apply items_paths in Hin as (a & -> & Ha & _). rewrite app_nil_r. intros Hca.
    apply (Hdis c); [by apply Ha|left]. }
  { eapply job_node_kind; [by apply info_kind|done|intros; by apply Hjobs|].
    intros nd jp Hnd' _. assert (c <> p) as Hcp'.
    { intros ->. apply (Hdis p); [unfold F; rewrite nodes_plug; set_solver|left]. }
    specialize (Hch c Hcp'). rewrite Hcd, Hnd' in Hch. by injection Hch. }
  { fold g. rewrite HiF, Hig. by eapply grouped_info. }
  exists t2. split.
  { unfold treeInsertChild. rewrite Hlink. cbn [mbind option_bind]. by rewrite Hcount. }
  assert (forall n, same_kind t t2 n) as Hkd2.
  { intros n. unfold same_kind. rewrite Hkd. by apply info_kind. }
  split; [done|].
  assert (nodes (plug K (Cons p (join kids g) rest)) ≡ₚ nodes F ++ nodes g) as HF'.
  { unfold F. rewrite !nodes_plug. cbn [nodes]. rewrite nodes_join. solve_Permutation. }
  split.
  - by eapply shape_links.
  - rewrite HF'. by apply NoDup_app.
  - intros n Hn. rewrite HF'. apply Honly. specialize (Hkd2 n). unfold same_kind in Hkd2.
    destruct (t2 !! n); [|by destruct Hn]. destruct (t !! n); [by eexists|done].
  - intros n nd2 Hn2. eapply job_node_kind; [apply Hkd2|done|intros; by apply Hjobs|].
    intros nd jp Hn Hinfo. assert (n <> p) as Hnp by (intros ->; by eapply Hp).
    specialize (Hch n Hnp). rewrite Hn in Hch. pose proof (same_links_child _ _ n Hlk) as Hch2.
    rewrite Hch, Hn2 in Hch2. by injection Hch2.
  - assert (items t2 [] (plug K (Cons p (join kids g) rest)) ≡ₚ items t1 [] F ++ items t1 l g) as HP;
      [|by eapply grouped_perm].
    rewrite (items_kind t1 t2) by (intros; apply Hkd). unfold F. rewrite !items_plug. cbn [items].
    rewrite items_join. unfold l. solve_Permutation.
Qed.

End Jobs.
