(* ===== verification/JobClip.v ===== *)
(** * Nodes leave the tree of job groups

    [treeClip] takes a node with all that is below it out of the tree, tells the
    observer, and [treeFree] frees the nodes; [putOntoTree] makes a new one.  The
    theorems of this file put the lemmas of [JobForest] together. *)

From S2P Require Import Prelude JobStatus JobGroup JobTree JobForest.

(** ** The links *)

Lemma slot_some K : forall up lft, K <> Top -> exists s, slot_node up lft K = Some s.
Proof.
  unfold slot_node. induction K as [|n K IH rest|n kids K IH]; intros up lft Hne; [done| |]; simpl;
    (destruct K; [by eexists|by apply IH..]).
Qed.

Lemma slot_points t K f s : forall up lft, shape t up lft (plug K f) -> K <> Top ->
  left_of lft K = None -> up_of up K = Some s -> child <$> t !! s = Some (first f).
Proof.
  induction K as [|n K IH rest|n kids K IH]; intros up lft; [done| |];
    intros (nd & Hn & _ & _ & Hc & _ & Hk & Hr) _ Hl Hu; simpl in Hl, Hu.
  - destruct (decide (K = Top)) as [->|HK]; [|by eapply IH].
    injection Hu as <-. rewrite Hn. simpl. by rewrite Hc.
  - destruct (decide (K = Top)) as [->|HK]; [done|by eapply IH].
Qed.

(** Another left sibling for the first node. *)
Lemma shape_releft t t' f up lft lft' : shape t up lft f ->
  (forall x, x ∈ nodes f -> first f <> Some x -> same_at t t' x) ->
  (forall m, first f = Some m ->
     links <$> t' !! m = (fun nd => (parent nd, child nd, lft', right nd)) <$> t !! m) ->
  NoDup (nodes f) -> shape t' up lft' f.
Proof.
  destruct f as [|m kids rest]; [done|].
  intros (nd & Hm & Hp & Hl & Hc & Hr & Hk & Hre) Hs Hf Hnd. cbn [nodes first] in *.
  specialize (Hf m eq_refl). rewrite Hm in Hf. destruct (t' !! m) as [nd'|] eqn:Hm'; [|done].
  injection Hf as H1 H2 H3 H4. apply NoDup_cons in Hnd as [Hmin _].
  exists nd'. rewrite H1, H2, H3, H4. split_and!; try done;
    (eapply shape_ext; [|done]); intros x Hx; (apply Hs; [set_solver|]);
    intros [= ->]; apply Hmin; set_solver.
Qed.

Lemma unlink_node_spec t K n kids rest :
  shape t None None (plug K (Cons n kids rest)) -> NoDup (nodes (plug K (Cons n kids rest))) ->
  exists t1, unlink t n = Some t1 /\ same_info t t1 /\ shape t1 None None (plug K rest) /\
    t1 !! n = t !! n /\ shape t1 (Some n) None kids /\
    forall x, child <$> t1 !! x = child <$> t !! x \/ child <$> t !! x = Some (Some n).
Proof.
  intros Hs Hnd. pose proof (shape_at _ _ _ _ _ Hs) as (nd & Hn & Hp & Hl & Hc & Hr & Hk & Hre).
  rewrite nodes_plug in Hnd. cbn [nodes] in Hnd.
  assert (forall x, x ∈ before K ++ behind K -> x <> n /\ x ∉ nodes kids /\ x ∉ nodes rest) as HK.
  { intros x Hx. split_and!; intros E; revert Hnd; rewrite !NoDup_app, !NoDup_cons, !NoDup_app; set_solver. }
  assert (NoDup (before K ++ behind K)) as HndK.
  { revert Hnd. rewrite !NoDup_app, !NoDup_cons, !NoDup_app. set_solver. }
  assert (forall x, x ∈ nodes rest -> x <> n /\ x ∉ nodes kids) as Hrn.
  { intros x Hx. split; intros E; revert Hnd; rewrite !NoDup_app, !NoDup_cons, !NoDup_app; set_solver. }
  assert (NoDup (nodes rest) /\ n ∉ nodes kids) as [Hndr Hnk].
  { revert Hnd. rewrite !NoDup_app, !NoDup_cons, !NoDup_app. set_solver. }
  (* the pointer to the place *)
  assert (exists ta, match left nd, parent nd with
      | Some l, _ => upd (set_right (right nd)) l t
      | None, Some p => upd (set_child (right nd)) p t
      | None, None => Some t
      end = Some ta /\ same_info t ta /\
      (forall s, slot_node None None K = Some s -> links <$> ta !! s = set_slot K (first rest) <$> t !! s) /\
      (forall x, slot_node None None K <> Some x -> ta !! x = t !! x) /\
      forall x, child <$> ta !! x = child <$> t !! x \/ child <$> t !! x = Some (Some n))
    as (ta & Hta & Hia & Hslot & Hoth & Hch).
  { rewrite Hl, Hp, Hr. destruct (decide (K = Top)) as [->|HKt].
    - exists t. split_and!; try done. by left.
    - destruct (slot_some K None None HKt) as [s Hsl]. pose proof (slot_before _ _ _ _ HKt Hsl) as Hsb.
      assert (is_Some (t !! s)) as [sd Hsd].
      { eapply shape_alive; [exact Hs|]. rewrite nodes_plug. set_solver. }
      unfold slot_node, set_slot in *. destruct (left_of None K) as [l|] eqn:HlK.
      + injection Hsl as ->. unfold upd. rewrite Hsd. simpl. eexists. split; [reflexivity|].
        split_and!.
        * by eapply same_info_upd.
        * intros s' [= <-]. by rewrite lookup_insert_eq, Hsd.
        * intros x Hx. apply lookup_insert_ne. congruence.
        * intros x. left. destruct (decide (x = s)) as [->|];
            [by rewrite lookup_insert_eq, Hsd|by rewrite lookup_insert_ne].
      + rewrite Hsl. unfold upd. rewrite Hsd. simpl. eexists. split; [reflexivity|]. split_and!.
        * by eapply same_info_upd.
        * intros s' [= <-]. by rewrite lookup_insert_eq, Hsd.
        * intros x Hx. apply lookup_insert_ne. congruence.
        * intros x. destruct (decide (x = s)) as [->|]; [|left; by rewrite lookup_insert_ne].
          right.
          exact (slot_points _ _ _ _ _ _ Hs HKt HlK Hsl). }
  unfold unlink. rewrite Hn. cbn [mbind option_bind]. rewrite Hta. cbn [mbind option_bind].
  assert (forall x, x ∉ before K ++ behind K -> ta !! x = t !! x) as Hout.
  { intros x Hx. apply Hoth. intros Hsl. apply Hx. destruct (decide (K = Top)) as [->|HKt]; [discriminate Hsl|].
    pose proof (slot_before _ _ _ _ HKt Hsl). set_solver. }
  assert (ta !! n = Some nd) as Hna by (rewrite Hout; [done|]; intros Hx; by apply HK in Hx as [? _]).
  (* the left sibling of the next node *)
  assert (exists t1, upd_opt (set_left (left nd)) (right nd) ta = Some t1 /\ same_info ta t1 /\
      (forall m, first rest = Some m ->
        links <$> t1 !! m = (fun d => (parent d, child d, left nd, right d)) <$> ta !! m) /\
      (forall x, first rest <> Some x -> t1 !! x = ta !! x) /\
      forall x, child <$> t1 !! x = child <$> ta !! x) as (t1 & Ht1 & Hi1 & Hm1 & Ho1 & Hc1).
  { rewrite Hr. destruct rest as [|m mk mr]; [by exists ta|]. cbn [first upd_opt].
    assert (is_Some (ta !! m)) as [md Hm].
    { rewrite Hout; [eapply shape_alive; [exact Hre|left]|]. intros Hx. apply HK in Hx as (_ & _ & Hx).
      apply Hx. left. }
    unfold upd. rewrite Hm. simpl. eexists. split; [reflexivity|]. split_and!.
    - by eapply same_info_upd.
    - intros m' [= <-]. by rewrite lookup_insert_eq, Hm.
    - intros x Hx. apply lookup_insert_ne. congruence.
    - intros x. destruct (decide (x = m)) as [->|];
        [by rewrite lookup_insert_eq, Hm|by rewrite lookup_insert_ne]. }
  exists t1. split; [exact Ht1|]. split; [by eapply same_info_trans|].
  assert (forall x, x ∉ before K ++ behind K -> x ∉ nodes rest -> t1 !! x = t !! x) as Hsame.
  { intros x Hx Hxr. rewrite Ho1; [by apply Hout|]. intros E. apply Hxr. rewrite first_head in E.
    destruct (nodes rest); simplify_eq/=. left. }
  split_and!.
  - eapply reshape; [exact Hs| |].
    + destruct (decide (K = Top)) as [->|HKt]; [done|]. apply (frame_slot _ _ _ _ None None); [done|done|..].
      * intros s Hsl. rewrite <- (Hslot s Hsl). rewrite Ho1; [done|]. intros E.
        pose proof (slot_before _ _ _ _ HKt Hsl) as Hsb.
        destruct (HK s) as (_ & _ & Hx); [set_solver|]. apply Hx. rewrite first_head in E.
        destruct (nodes rest); simplify_eq/=. left.
      * intros x Hx Hxs. unfold same_at. rewrite Ho1, Hoth; [done|done|]. intros E.
        destruct (HK x Hx) as (_ & _ & Hxr). apply Hxr. rewrite first_head in E.
        destruct (nodes rest); simplify_eq/=. left.
    + rewrite <- Hl. rewrite <- Hp. apply (shape_releft t t1 rest _ (Some n)).
      * by rewrite Hp.
      * intros x Hx Hf. unfold same_at. rewrite Ho1, Hout; [done| |done].
        intros Hx'. by apply HK in Hx' as (_ & _ & Hx').
      * intros m Hm. rewrite (Hm1 m Hm), Hout; [done|]. intros Hx'. apply HK in Hx' as (_ & _ & Hx').
        apply Hx'. rewrite first_head in Hm. destruct (nodes rest); simplify_eq/=. left.
      * done.
  - rewrite Hsame; [done|intros Hx; by apply HK in Hx as [? _]|intros Hx; by apply Hrn in Hx as [? _]].
  - eapply shape_ext; [|exact Hk]. intros x Hx. unfold same_at. rewrite Hsame; [done|..].
    + intros Hx'. by apply HK in Hx' as (_ & Hx' & _).
    + intros Hx'. by apply Hrn in Hx' as (_ & Hx').
  - intros x. rewrite Hc1. apply Hch.
Qed.

(** ** The observer *)

Lemma is_above_spec t p l x : path t p l -> forall fuel, (length l <= fuel)%nat ->
  is_above fuel t x p = Some (bool_decide (x ∈ l)).
Proof.
  induction 1 as [|n nd l Hn _ IH]; intros fuel Hf.
  - rewrite bool_decide_false by apply not_elem_of_nil. by destruct fuel.
  - simpl in Hf. destruct fuel as [|fuel]; [lia|]. cbn [is_above].
    destruct (bool_decide_reflect (n = x)) as [->|Hnx].
    + by rewrite bool_decide_true by left.
    + rewrite Hn. simpl. rewrite IH by lia. f_equal. apply bool_decide_ext. set_solver.
Qed.

Lemma within_spec t e n l : path t (Some e) l ->
  within t (Some e) n = Some (bool_decide (n ∈ l)).
Proof.
  intros Hp. pose proof (path_length _ _ _ Hp) as Hlen.
  inversion Hp as [|? nd l' He Hp']; subst. unfold within.
  destruct (bool_decide_reflect (Some e = Some n)) as [[= <-]|E].
  - by rewrite bool_decide_true by left.
  - cbn [isAncestor]. rewrite He. cbn [mbind option_bind].
    rewrite (is_above_spec _ _ _ _ Hp') by (simpl in Hlen; lia). f_equal. apply bool_decide_ext.
    rewrite elem_of_cons. naive_solver.
Qed.

(** A node [n] that is already unlinked from the tree [F], but still points to it:
    [rest] are its next siblings. *)
Lemma observer_clip t K n nd kids rest entry :
  shape t None None (plug K rest) -> shape t (Some n) None kids -> t !! n = Some nd ->
  parent nd = up_of None K -> right nd = first rest -> n ∉ nodes (plug K rest) ->
  (forall e, entry = Some e -> e ∈ n :: nodes kids ++ nodes (plug K rest)) ->
  exists entry', treeObserverInvoke t entry n TREE_EVENT_CLIP = Some entry' /\
    forall e, entry' = Some e -> e ∈ nodes (plug K rest).
Proof.
  intros Hs Hk Hn Hp Hr Hnin He. unfold treeObserverInvoke, treeObserverEvalDep.
  pose proof (path_at _ _ _ _ _ _ Hs (path_root t)) as Hup.
  assert (path t (Some n) (n :: above_of [] K)) as Hpn by (econstructor; [done|by rewrite Hp]).
  assert (exists b, within t entry n = Some b /\
            (b = false -> forall e, entry = Some e -> e ∈ nodes (plug K rest))) as (b & -> & Hb).
  { destruct entry as [e|]; [|by exists false]. specialize (He e eq_refl).
    apply elem_of_cons in He as [->|He]; [|apply elem_of_app in He as [He|He]].
    - exists true. split; [|done]. by rewrite (within_spec _ _ _ _ Hpn), bool_decide_true by left.
    - exists true. split; [|done]. destruct (path_node _ _ _ _ _ _ Hk Hpn He) as (a & Ha & _ & _).
      rewrite (within_spec _ _ _ _ Ha), bool_decide_true; [done|]. set_solver.
    - destruct (path_node _ _ _ _ _ _ Hs (path_root t) He) as (a & Ha & Hsub & _).
      rewrite app_nil_r in Ha. exists false. split; [|by intros _ e' [= <-]].
      rewrite (within_spec _ _ _ _ Ha), bool_decide_false; [done|]. intros Hna. by apply Hnin, Hsub. }
  cbn [mbind option_bind]. destruct b; [|exists entry; split; [done|by apply Hb]].
  assert (treeNextSib t (Some n) = Some (head (nodes rest ++ behind K))) as ->.
  { simpl. rewrite Hn. simpl. rewrite Hr, Hp, first_head. destruct (nodes rest); [|done]. simpl.
    change (climb (size t) t) with (next_up t).
    rewrite (next_up_at _ _ _ _ _ _ Hs (path_root t)). unfold next_up.
    by destruct (behind K), (size t). }
  eexists. split; [done|]. intros e E. rewrite nodes_plug.
  destruct (nodes rest ++ behind K) as [|x l] eqn:Hl; simplify_eq/=.
  apply elem_of_app. right. left.
Qed.

(** ** Freeing *)

Lemma treeFree_spec f : forall t up lft fuel, shape t up lft f -> NoDup (nodes f) ->
  (length (nodes f) <= fuel)%nat -> exists t', treeFree fuel t (first f) = Some t' /\
    forall x, t' !! x = if bool_decide (x ∈ nodes f) then None else t !! x.
Proof.
  induction f as [|n kids IHk rest IHr]; intros t up lft fuel Hs Hnd Hf.
  - exists t. split; [by destruct fuel|]. intros x. by rewrite bool_decide_false by apply not_elem_of_nil.
  - destruct Hs as (nd & Hn & _ & _ & Hc & Hr & Hk & Hre). cbn [nodes] in *.
    apply NoDup_cons in Hnd as [Hnin Hnd]. apply NoDup_app in Hnd as (Hndk & Hdis & Hndr).
    simpl in Hf. rewrite length_app in Hf. destruct fuel as [|fuel]; [lia|].
    destruct (IHk t (Some n) None fuel Hk Hndk) as (t1 & Hfree & H1); [lia|].
    assert (exists t2, match child nd with
        | Some c => t ← treeFree fuel t (Some c); Some (delete n t)
        | None => Some (delete n t)
        end = Some t2 /\ forall x, t2 !! x = if bool_decide (x ∈ n :: nodes kids) then None else t !! x)
      as (t2 & E2 & H2).
    { assert (forall x, delete n t1 !! x = if bool_decide (x ∈ n :: nodes kids) then None else t !! x) as HD.
      { intros x. destruct (decide (x = n)) as [->|Hne].
        - by rewrite lookup_delete_eq, bool_decide_true by left.
        - rewrite lookup_delete_ne, H1 by done.
          by rewrite (bool_decide_ext (x ∈ n :: nodes kids) (x ∈ nodes kids)) by set_solver. }
      rewrite Hc. destruct kids as [|c ck cr].
      - exists (delete n t1). cbn [first] in *. destruct fuel; simpl in Hfree; injection Hfree as <-; done.
      - exists (delete n t1). cbn [first] in *. by rewrite Hfree. }
    destruct (IHr t2 up (Some n) fuel) as (t3 & E3 & H3); [|done|lia|].
    { eapply shape_ext; [|exact Hre]. intros x Hx. unfold same_at. rewrite H2, bool_decide_false; [done|].
      intros Hx'. apply elem_of_cons in Hx' as [->|Hx']; [set_solver|]. by apply (Hdis x). }
    exists t3. split.
    + cbn [first treeFree]. rewrite Hn. cbn [mbind option_bind]. rewrite E2. cbn [mbind option_bind].
      by rewrite Hr.
    + intros x. rewrite H3, H2. repeat case_bool_decide; try done; exfalso; set_solver.
Qed.

(** ** The tree *)

Section Jobs.
Context (jgrpNode : jptr -> option nptr) (jStatus : jptr -> Z) (elems : jptr -> list Z).
Local Notation items := (items jStatus elems).
Local Notation tree_ok := (tree_ok jgrpNode jStatus elems).

(** [treeClip] leaves the rest of the tree and the tree below [n]. *)
Lemma clip_ok t K n kids rest entry :
  tree_ok t (plug K (Cons n kids rest)) ->
  (forall e, entry = Some e -> e ∈ nodes (plug K (Cons n kids rest))) ->
  exists t' entry', treeClip jgrpNode jStatus t entry (Some n) = Some (t', entry', Some n) /\
    (forall x, same_kind t t' x) /\
    shape t' None None (plug K rest) /\ shape t' None None (Cons n kids Nil) /\
    (forall x nd, t' !! x = Some nd -> x <> n -> job_node jgrpNode x nd) /\
    grouped t' (items t' [] (plug K rest) ++ items t' [] (Cons n kids Nil)) /\
    forall e, entry' = Some e -> e ∈ nodes (plug K rest).
Proof.
  intros [Hs Hnd Honly Hjobs HG] He.
  destruct (unlink_node_spec t K n kids rest Hs Hnd) as (t1 & Hun & Hi & Hs1 & Hn1 & Hk1 & Hch).
  pose proof (shape_at _ _ _ _ _ Hs) as (nd & Hn & Hp & Hl & Hc & Hr & _ & _).
  rewrite Hn in Hn1. set (l := above_of [] K). pose proof (path_at _ _ _ _ _ _ Hs1 (path_root t1)) as Hup.
  assert (nodes (plug K (Cons n kids rest)) ≡ₚ nodes (Cons n kids Nil) ++ nodes (plug K rest)) as HP.
  { rewrite !nodes_plug. cbn [nodes]. rewrite app_nil_r. solve_Permutation. }
  rewrite HP in Hnd. apply NoDup_app in Hnd as (Hndg & Hdis & HndF).
  assert (n ∉ nodes (plug K rest)) as HnF by (apply Hdis; left).
  assert (forall x, x ∈ l -> x ∈ nodes (plug K rest)) as HlF.
  { intros x Hx. rewrite nodes_plug. unfold l in Hx. destruct (above_of_app [] K) as (a & Ha & Hsub).
    rewrite Ha, app_nil_r in Hx. set_solver. }
  destruct (count_out_spec jgrpNode jStatus elems t1 n nd kids l (items t1 [] (plug K rest)) Hn1 Hc)
    as (t2 & Hcount & Hlk & Hkd & HG2).
  { by rewrite Hp. }
  { intros Hx. by apply HnF, HlF. }
  { intros x Hx Hxk. apply (Hdis x); [|by apply HlF]. cbn [nodes]. rewrite app_nil_r. by right. }
  { intros q s Hin. apply items_paths in Hin as (a & -> & Ha & _). rewrite app_nil_r. intros Hx.
    by apply HnF, Ha. }
  { by apply Hjobs. }
  { eapply grouped_perm; [|eapply grouped_info; [exact Hi|exact HG]].
    rewrite <- (items_kind jStatus elems t t1) by (intros; by apply info_kind).
    rewrite !items_plug. cbn [JobForest.items]. fold l. rewrite app_nil_r. solve_Permutation. }
  pose proof (shape_links _ _ _ _ _ Hlk Hs1) as Hs2. pose proof (shape_links _ _ _ _ _ Hlk Hk1) as Hk2.
  pose proof (same_links_at _ _ n Hlk) as Hn2. unfold same_at in Hn2. rewrite Hn1 in Hn2.
  destruct (t2 !! n) as [nd2|] eqn:Hn2'; [|done]. injection Hn2 as H1 H2 H3 H4.
  destruct (observer_clip t2 K n nd2 kids rest entry) as (entry' & Hobs & He'); try done.
  { by rewrite H1. } { by rewrite H4. }
  { intros e E. specialize (He e E). rewrite HP in He. cbn [nodes] in He. rewrite app_nil_r in He.
    exact He. }
  set (t3 := <[n := set_parent None (set_left None (set_right None nd2))]> t2).
  assert (same_info t2 t3) as Hi3 by by eapply same_info_upd.
  assert (forall x, x <> n -> t3 !! x = t2 !! x) as Hne by (intros; by apply lookup_insert_ne).
  assert (forall x, same_kind t t3 x) as Hk3.
  { intros x. unfold same_kind. rewrite (info_kind _ _ x Hi3), Hkd. by apply info_kind. }
  exists t3, entry'. split_and!; try done.
  - cbn [treeClip]. rewrite Hun. cbn [mbind option_bind]. rewrite Hcount. cbn [mbind option_bind].
    rewrite Hobs. cbn [mbind option_bind]. unfold upd. by rewrite Hn2'.
  - eapply shape_ext; [|exact Hs2]. intros x Hx. unfold same_at. rewrite Hne; [done|]. by intros ->.
  - cbn [shape]. exists (set_parent None (set_left None (set_right None nd2))).
    split_and!; try done; [by apply lookup_insert_eq|by rewrite <- Hc|].
    eapply shape_ext; [|exact Hk2]. intros x Hx. unfold same_at. rewrite Hne; [done|].
    intros ->. apply NoDup_cons in Hndg as [Hx' _]. apply Hx'. cbn [nodes]. by rewrite app_nil_r.
  - intros x ndx Hx Hxn. eapply job_node_kind; [apply Hk3|done|intros; by apply Hjobs|].
    intros ndx0 jp Hx0 Hinfo. rewrite Hne in Hx by done.
    pose proof (same_links_child _ _ x Hlk) as Hc2. rewrite Hx in Hc2. simpl in Hc2.
    destruct (Hch x) as [Hc1|Hc1].
    + rewrite Hc1, Hx0 in Hc2. by injection Hc2.
    + rewrite Hx0 in Hc1. destruct (Hjobs _ _ Hx0 _ Hinfo) as [_ Hnone]. simpl in Hc1. congruence.
  - rewrite !(items_kind jStatus elems t1 t3).
    + by eapply grouped_info.
    + intros. unfold same_kind. rewrite (info_kind _ _ _ Hi3). apply Hkd.
    + intros. unfold same_kind. rewrite (info_kind _ _ _ Hi3). apply Hkd.
Qed.

(** *** Clip and free *)

(** [grouped] does not look at nodes that are gone. *)
Lemma grouped_shrink t t' J : (forall x nd, t' !! x = Some nd -> t !! x = Some nd) ->
  grouped t J -> grouped t' J.
Proof. intros H HG n nd c Hn Hc. by apply (HG n nd c); [apply H|]. Qed.

Lemma clip_free_ok t K n kids rest entry :
  tree_ok t (plug K (Cons n kids rest)) ->
  (forall e, entry = Some e -> e ∈ nodes (plug K (Cons n kids rest))) ->
  exists t' entry', clip_free jgrpNode jStatus t entry (Some n) = Some (t', entry') /\
    tree_ok t' (plug K rest) /\
    (forall x, x ∈ nodes (plug K rest) -> same_kind t t' x) /\
    forall e, entry' = Some e -> e ∈ nodes (plug K rest).
Proof.
  intros Hok He. pose proof Hok as [Hs Hnd Honly Hjobs HG].
  destruct (clip_ok t K n kids rest entry Hok He)
    as (t1 & entry1 & Hclip & Hkd & Hs1 & Hk1 & Hj1 & HG1 & He1).
  assert (nodes (plug K (Cons n kids rest)) ≡ₚ nodes (Cons n kids Nil) ++ nodes (plug K rest)) as HP.
  { rewrite !nodes_plug. cbn [nodes]. rewrite app_nil_r. solve_Permutation. }
  rewrite HP in Hnd. apply NoDup_app in Hnd as (Hndg & Hdis & HndF).
  destruct (treeFree_spec (Cons n kids Nil) t1 None None (size t1) Hk1 Hndg) as (t2 & Hfree & Hl).
  { by eapply nodes_size. }
  assert (forall x, x ∈ nodes (plug K rest) -> t2 !! x = t1 !! x) as Hkeep.
  { intros x Hx. rewrite Hl, bool_decide_false; [done|]. intros Hx'. by apply (Hdis x). }
  exists t2, entry1. split_and!; [| |intros x Hx; unfold same_kind; rewrite Hkeep by done; apply Hkd|done].
  { unfold clip_free. rewrite Hclip. cbn [mbind option_bind]. cbn [first] in Hfree. by rewrite Hfree. }
  assert (forall x nd, t2 !! x = Some nd -> t1 !! x = Some nd /\ x ∉ nodes (Cons n kids Nil)) as Hsub.
  { intros x nd. rewrite Hl. by case_bool_decide. }
  split.
  - eapply shape_ext; [|exact Hs1]. intros x Hx. unfold same_at. by rewrite Hkeep.
  - done.
  - intros x [nd Hx]. apply Hsub in Hx as [Hx Hout]. specialize (Hkd x). unfold same_kind in Hkd.
    rewrite Hx in Hkd. assert (x ∈ nodes (plug K (Cons n kids rest))) as Hin.
    { apply Honly. by destruct (t !! x). }
    rewrite HP in Hin. apply elem_of_app in Hin as [Hin|Hin]; done.
  - intros x nd Hx. apply Hsub in Hx as [Hx Hout]. apply (Hj1 x nd Hx). intros ->. apply Hout. left.
  - rewrite (items_kind jStatus elems t1 t2).
    + eapply (grouped_same _ (items t1 [] (plug K rest) ++ items t1 [] (Cons n kids Nil))).
      * intros x nd c i Hx _. apply Hsub in Hx as [_ Hout]. rewrite tally_app.
        rewrite (tally_none x i (items t1 [] (Cons n kids Nil))); [lia|].
        intros q s Hin. apply items_paths in Hin as (a & -> & Ha & _). rewrite app_nil_r. set_solver.
      * eapply grouped_shrink; [|exact HG1]. intros x nd Hx. by apply Hsub.
    + intros x Hx. unfold same_kind. by rewrite Hkeep.
Qed.

End Jobs.

(** ** A new node *)

Lemma count_elements_spec newj states : forall t J, path t (Some newj) [newj] -> grouped t J ->
  exists t', count_elements t newj states = Some t' /\ same_links t t' /\
    (forall x, same_kind t t' x) /\ grouped t' (J ++ ((fun s => ([newj], s)) <$> states)).
Proof.
  induction states as [|s states IH]; intros t J Hp HG.
  - exists t. cbn [fmap list_fmap]. rewrite app_nil_r. by split_and!.
  - assert (grouped t (J ++ [([newj], JOB_STAT_NULL)])) as HG0.
    { eapply grouped_same; [|exact HG]. intros n nd c i _ _. rewrite tally_app. simpl.
      case_bool_decide; [|lia]. unfold job_count. rewrite Z.eqb_refl. lia. }
    destruct (upd_counts_grouped t (Some newj) [newj] JOB_STAT_NULL s J [] (size t) Hp
                (path_length _ _ _ Hp) HG0) as (t1 & Hop & Hlk & HG1).
    destruct (upd_counts_spec t (Some newj) [newj] JOB_STAT_NULL s (size t) Hp (path_length _ _ _ Hp))
      as (t1' & Hop' & _ & Hl). rewrite Hop in Hop'. injection Hop' as <-.
    destruct (IH t1 (J ++ [([newj], s)])) as (t2 & E & Hlk2 & Hk2 & HG2); [by eapply same_links_path|done|].
    exists t2. cbn [count_elements]. rewrite Hop. cbn [mbind option_bind]. rewrite fmap_cons.
    rewrite <- app_assoc in HG2. split_and!; [done|by eapply same_links_trans| |done].
    intros x. unfold same_kind. rewrite Hk2. by apply (set_counts_kind _ _ _ _ Hl).
Qed.


Lemma init_ok jgrpNode jStatus elems root :
  tree_ok jgrpNode jStatus elems (treeInit root).1 (Cons root Nil Nil).
Proof.
  split.
  - cbn [shape]. eexists. split_and!; [apply lookup_singleton_eq|done..].
  - apply NoDup_singleton.
  - intros n [nd Hn]. cbn [treeInit fst] in Hn. apply lookup_singleton_Some in Hn as [-> _]. left.
  - intros n nd Hn jp Hi. cbn [treeInit fst] in Hn. apply lookup_singleton_Some in Hn as [_ <-]. done.
  - intros n nd c Hn Hc. cbn [treeInit fst] in Hn. apply lookup_singleton_Some in Hn as [<- <-]. cbn [counts_of info] in Hc.
    apply (inj Some) in Hc as <-. split; [apply length_replicate|]. intros i Hi.
    assert (items jStatus elems (treeInit root).1 [] (Cons root Nil Nil) = []) as ->.
    { cbn [items]. unfold states_at. cbn [treeInit fst]. by rewrite lookup_singleton_eq. }
    apply lookup_replicate_2. lia.
Qed.

Lemma items_nodup_none t f n i : n ∉ nodes f -> forall jStatus elems, tally n i (items jStatus elems t [] f) = 0.
Proof.
  intros Hn jStatus elems. apply tally_none. intros q s Hin.
  apply items_paths in Hin as (a & -> & Ha & _). rewrite app_nil_r. set_solver.
Qed.

Section Put.
Context (jgrpNode : jptr -> option nptr) (jStatus : jptr -> Z) (elems : jptr -> list Z).
Context (newj : nptr) (array : bool) (nm : cstr) (jp : jptr) (es : list jptr).

(** [jp->jgrpNode = newj], and the same for the elements. *)
Definition repoint (j : jptr) : option nptr :=
  if bool_decide (j ∈ jp :: es) then Some newj else jgrpNode j.

(** [putOntoTree] makes the job the last child of the root. *)
Lemma put_ok t entry root kids rd c :
  tree_ok jgrpNode jStatus elems t (Cons root kids Nil) ->
  t !! root = Some rd -> info rd = JGRP_DATA c -> newj ∉ nodes (Cons root kids Nil) ->
  (forall n nd j, t !! n = Some nd -> info nd = JOB_DATA j -> j ∉ jp :: es) ->
  (if array then elems jp = jStatus <$> es else es = []) ->
  exists t', putOntoTree jgrpNode jStatus t entry (Some root) newj array nm jp es = Some (t', entry, repoint) /\
    tree_ok repoint jStatus elems t' (Cons root (join kids (Cons newj Nil Nil)) Nil) /\
    forall n, same_kind (<[newj := new_node array nm jp]> t) t' n.
Proof.
  intros [Hs Hnd Honly Hjobs HG] Hrt Hri Hnew Hfree Hes.
  set (F := Cons root kids Nil) in *. set (nn := new_node array nm jp).
  assert (t !! newj = None) as Hnone.
  { destruct (t !! newj) eqn:E; [|done]. exfalso. apply Hnew, Honly. eauto. }
  set (t1 := <[newj := nn]> t).
  assert (forall x, x <> newj -> t1 !! x = t !! x) as Hne by (intros; by apply lookup_insert_ne).
  assert (t1 !! newj = Some nn) as Hn1 by apply lookup_insert_eq.
  assert (shape t1 None None F) as Hs1.
  { eapply shape_ext; [|exact Hs]. intros x Hx. unfold same_at. rewrite Hne; [done|]. by intros ->. }
  assert (items jStatus elems t1 [] F = items jStatus elems t [] F) as HiF.
  { apply items_kind. intros x Hx. unfold same_kind. rewrite Hne; [done|]. by intros ->. }
  assert (grouped t1 (items jStatus elems t1 [] F)) as HG1.
  { intros n nd cs Hn Hcs. destruct (decide (n = newj)) as [->|Hnn].
    - rewrite Hn1 in Hn. injection Hn as <-. unfold nn, new_node, counts_of in Hcs.
      destruct array; [|done]. cbn [info] in Hcs. apply (inj Some) in Hcs as <-.
      split; [apply length_replicate|].
      intros i Hi. rewrite items_nodup_none by done. apply lookup_replicate_2. lia.
    - rewrite Hne in Hn by done. rewrite HiF. by apply (HG n nd). }
  assert (path t1 (Some newj) [newj]) as Hp1.
  { econstructor; [done|]. unfold nn, new_node. simpl. constructor. }
  destruct (count_elements_spec newj (jStatus <$> es) t1 _ Hp1 HG1) as (t2 & Hcount & Hlk & Hkd & HG2).
  assert (forall j, jgrpNode j = repoint j \/ j ∈ jp :: es) as Hrep.
  { intros j. unfold repoint. case_bool_decide; [by right|by left]. }
  pose proof (Hlk newj) as Hn2. rewrite Hn1 in Hn2. destruct (t2 !! newj) as [nn2|] eqn:Hn2'; [|done].
  injection Hn2 as Hnp Hnc Hnl Hnr _.
  destruct (insert_child_ok repoint jStatus elems t2 entry Top root kids Nil newj Nil) as (t' & Hins & Hkd' & Hok).
  - cbn [plug]. fold F. by eapply shape_links.
  - cbn [shape]. eexists. split_and!; [exact Hn2'|done..].
  - cbn [plug]. fold F. apply NoDup_app. split; [done|]. split; [|apply NoDup_singleton].
    intros x Hx Hx'. cbn [nodes app] in Hx'. apply list_elem_of_singleton in Hx'. congruence.
  - cbn [plug]. fold F. intros x Hx. apply elem_of_app. specialize (Hlk x).
    destruct (decide (x = newj)) as [->|Hxn]; [right; left|left].
    rewrite Hne in Hlk by done. apply Honly. by destruct (t2 !! x), (t !! x).
  - intros x nd2 Hx j Hinfo. pose proof (same_links_child _ _ x Hlk) as Hch. rewrite Hx in Hch.
    destruct (same_kind_job t2 t1 x nd2 j) as (nd1 & Hx1 & Hi1); [by symmetry; apply Hkd|done|done|].
    rewrite Hx1 in Hch. simpl in Hch. injection Hch as Hch.
    destruct (decide (x = newj)) as [->|Hxn].
    + rewrite Hn1 in Hx1. injection Hx1 as <-. unfold nn, new_node in *. simpl in *.
      split; [|done]. unfold repoint. rewrite bool_decide_true; [done|].
      destruct array; [done|]. injection Hi1 as ->. left.
    + rewrite Hne in Hx1 by done. destruct (Hjobs x nd1 Hx1 j Hi1) as [Hg Hc1]. rewrite Hch. split; [|done].
      destruct (Hrep j) as [<-|Hin]; [done|]. by destruct (Hfree _ _ _ Hx1 Hi1).
  - intros pd j Hpd Hinfo.
    assert (root <> newj) as Hrn by (intros ->; apply Hnew; left).
    destruct (same_kind_job t2 t1 root pd j) as (rd1 & Hr1 & Hi1); [by symmetry; apply Hkd|done|done|].
    rewrite Hne, Hrt in Hr1 by done. injection Hr1 as <-. congruence.
  - cbn [plug]. fold F. rewrite (items_kind jStatus elems t1 t2) by (intros; apply Hkd).
    assert (items jStatus elems t2 [] (Cons newj Nil Nil) =
            (fun s => ([newj], s)) <$> if array then jStatus <$> es else [jStatus jp]) as ->.
    { cbn [items]. rewrite app_nil_r. f_equal. rewrite (states_kind _ elems t1 t2) by apply Hkd.
      unfold states_at. rewrite Hn1. unfold nn, new_node. simpl. by destruct array. }
    destruct array; [done|]. rewrite Hes in *. cbn [fmap list_fmap] in *. rewrite app_nil_r in HG2.
    eapply grouped_same; [|exact HG2]. intros n nd cs i Hn Hcs. rewrite tally_app. simpl.
    rewrite bool_decide_false; [lia|]. intros ->%list_elem_of_singleton.
    pose proof (Hkd newj) as Hk. unfold same_kind in Hk. rewrite Hn1, Hn in Hk. simpl in Hk.
    injection Hk as Hk. unfold counts_of in Hcs. by destruct (info nd).
  - exists t'. split; [|split; [done|intros n; unfold same_kind; rewrite (Hkd' n); apply Hkd]].
    unfold putOntoTree. fold nn t1.
    change (map jStatus es) with (jStatus <$> es). rewrite Hcount. cbn [mbind option_bind].
    fold repoint.
    change (fun j => if bool_decide (j ∈ jp :: es) then Some newj else jgrpNode j) with repoint.
    by rewrite Hins.
Qed.

End Put.

(** ** Properties *)

Lemma walk_more fuel t n l : walk fuel t n = Some l -> forall k, (fuel <= k)%nat -> walk k t n = Some l.
Proof.
  revert n l. induction fuel as [|fuel IH]; intros n l H k Hk; destruct n as [n|]; cbn [walk] in H; try done.
  - by destruct k.
  - destruct k as [|k]; [lia|]. cbn [walk]. destruct (treeLexNext t (Some n)) as [next|]; [|done].
    cbn [mbind option_bind] in *.
    destruct (walk fuel t next) as [l'|] eqn:Hw; [|done]. rewrite (IH _ _ Hw k) by lia. exact H.
  - by destruct k.
Qed.

(** C39: A loop over [treeLexNext] from the root ends, and visits every
    node of the tree exactly once and nothing else, a node before those
    below it and these before its next siblings; so does the rest of such a loop from any
    node at which it is taken up again. *)
Theorem tree_walk jgrpNode jStatus elems t f :
  tree_ok jgrpNode jStatus elems t f ->
  walk (size t) t (first f) = Some (nodes f) /\ NoDup (nodes f) /\
  (forall n, n ∈ nodes f <-> is_Some (t !! n)) /\
  forall pre n l, nodes f = pre ++ n :: l -> walk (size t) t (Some n) = Some (n :: l).
Proof.
  intros [Hs Hnd Honly _ _]. pose proof (nodes_size _ _ _ _ Hs Hnd) as Hsize. split_and!; [|done| |].
  - rewrite first_head. eapply walk_more; [|exact Hsize]. by apply (walk_suffix t f []).
  - intros n. split; [by eapply shape_alive|apply Honly].
  - intros pre n l E. change (Some n) with (head (n :: l)). eapply walk_more; [by eapply walk_suffix|].
    rewrite E, length_app in Hsize. simpl in *. lia.
Qed.

(** C28: When a job is removed, [treeClip] and [treeFree] leave a
    tree without its node and what is below it: the nodes freed are exactly these, the
    links of the others form the remaining tree, and the counters of every group and
    array equal a recount of the jobs that are left.  No pointer dangles:
    the observer, from which the next check of conditions goes on, points to
    a node that is still there. *)
Theorem clip_free_safe jgrpNode jStatus elems t K n kids rest entry :
  tree_ok jgrpNode jStatus elems t (plug K (Cons n kids rest)) ->
  (forall e, entry = Some e -> e ∈ nodes (plug K (Cons n kids rest))) ->
  exists t' entry', clip_free jgrpNode jStatus t entry (Some n) = Some (t', entry') /\
    tree_ok jgrpNode jStatus elems t' (plug K rest) /\
    (forall x, is_Some (t' !! x) <-> is_Some (t !! x) /\ x ∉ nodes (Cons n kids Nil)) /\
    (forall e, entry' = Some e -> is_Some (t' !! e)).
Proof.
  intros Hok He. destruct (clip_free_ok _ _ _ _ _ _ _ _ _ Hok He) as (t' & entry' & Hc & Hok' & _ & He').
  exists t', entry'. destruct Hok as [Hs Hnd Honly _ _]. pose proof Hok' as [Hs' _ Honly' _ _].
  assert (nodes (plug K (Cons n kids rest)) ≡ₚ nodes (Cons n kids Nil) ++ nodes (plug K rest)) as HP.
  { rewrite !nodes_plug. cbn [nodes]. rewrite app_nil_r. solve_Permutation. }
  rewrite HP in Hnd. apply NoDup_app in Hnd as (_ & Hdis & _).
  split_and!; [done|done| |].
  - intros x. split.
    + intros Hx. apply Honly' in Hx. split.
      * eapply shape_alive; [exact Hs|]. rewrite HP. set_solver.
      * intros Hx'. by apply (Hdis x).
    + intros [Hx Hout]. eapply shape_alive; [exact Hs'|]. apply Honly in Hx. rewrite HP in Hx.
      apply elem_of_app in Hx as [Hx|Hx]; done.
  - intros e E. eapply shape_alive; [exact Hs'|]. by apply He'.
Qed.

(** C8: A job or a job array that is modified gets a new node as the last child
    of the root, in place of the old one, which may be anywhere in the tree.
    [treeClip], [treeFree] and [putOntoTree] together keep the invariant of the tree:
    the links form a tree in which the other nodes keep their places, every node of a
    job is the one its job points to, the elements of an array
    point to the node of the array, the counters of all groups and arrays are exact, the new array's
    own counters included, and the observer points into the tree. *)
Theorem rename_keeps_tree jgrpNode jStatus elems t entry root K n kids rest rd c newj (array : bool) nm jp es :
  tree_ok jgrpNode jStatus elems t (Cons root (plug K (Cons n kids rest)) Nil) ->
  t !! root = Some rd -> info rd = JGRP_DATA c ->
  (forall e, entry = Some e -> e ∈ nodes (Cons root (plug K (Cons n kids rest)) Nil)) ->
  (forall j, j ∈ jp :: es -> jgrpNode j = Some n) ->
  (if array then elems jp = jStatus <$> es else es = []) ->
  newj ∉ nodes (Cons root (plug K rest) Nil) ->
  exists t' entry', rename_node jgrpNode jStatus t entry (Some root) n newj array nm jp es =
      Some (t', entry', repoint jgrpNode newj jp es) /\
    tree_ok (repoint jgrpNode newj jp es) jStatus elems t'
      (Cons root (join (plug K rest) (Cons newj Nil Nil)) Nil) /\
    (forall e, entry' = Some e -> e ∈ nodes (Cons root (plug K rest) Nil)).
Proof.
  intros Hok Hrt Hri He Hjp Hes Hnew.
  change (Cons root (plug K (Cons n kids rest)) Nil) with (plug (InKids root K Nil) (Cons n kids rest)) in Hok, He.
  destruct (clip_free_ok _ _ _ _ _ _ _ _ _ Hok He) as (t1 & entry1 & Hc & Hok1 & Hkd & He1).
  cbn [plug] in Hok1, Hkd, He1.
  assert (same_kind t t1 root) as Hkr by (apply Hkd; left). unfold same_kind in Hkr. rewrite Hrt in Hkr.
  destruct (t1 !! root) as [rd1|] eqn:Hrt1; [|done].
  simpl in Hkr. injection Hkr as Hkr. rewrite Hri in Hkr.
  assert (exists c1, info rd1 = JGRP_DATA c1) as [c1 Hri1] by (destruct (info rd1); simplify_eq/=; eauto).
  destruct (put_ok jgrpNode jStatus elems newj array nm jp es t1 entry1 root (plug K rest) rd1 c1)
    as (t2 & Hput & Hok2 & _); try done.
  - intros m nd j Hm Hi Hj. destruct (tr_jobs _ _ _ _ _ Hok1 m nd Hm j Hi) as [Hg _].
    rewrite (Hjp j Hj) in Hg. injection Hg as <-.
    assert (n ∈ nodes (Cons root (plug K rest) Nil)) as Hin by (eapply tr_only; [exact Hok1|eauto]).
    destruct Hok as [_ Hnd _ _ _]. change (Cons root (plug K rest) Nil) with (plug (InKids root K Nil) rest) in Hin.
    rewrite nodes_plug in Hnd, Hin. cbn [nodes] in Hnd.
    revert Hnd. rewrite !NoDup_app, !NoDup_cons. set_solver.
  - exists t2, entry1. split_and!; [|done|done]. unfold rename_node. rewrite Hc. cbn [mbind option_bind]. exact Hput.
Qed.

(** *** Witnesses: an array 10 with two elements, and a job 8

    The tree is made by [putOntoTree]: the nodes are 1 (the root), 2 (the array) and
    3 (the job). *)
Definition small_status (j : jptr) : Z :=
  if bool_decide (j = 11%positive) then JOB_STAT_RUN else JOB_STAT_PEND.
Definition small_elems (j : jptr) : list jptr := if bool_decide (j = 10%positive) then [11; 12]%positive else [].
Definition small_node (j : jptr) : option nptr :=
  if bool_decide (j ∈ [10; 11; 12]%positive) then Some 2%positive
  else if bool_decide (j = 8%positive) then Some 3%positive else None.

Definition small_tree : option (tree * option nptr) :=
  let '(t, entry) := treeInit 1 in
  '(t, entry, jg) ← putOntoTree (fun _ => None) small_status t entry (Some 1%positive) 2 true (lit "a[1-2]") 10 [11; 12]%positive;
  '(t, entry, _) ← putOntoTree jg small_status t entry (Some 1%positive) 3 false (lit "b") 8 [];
  Some (t, entry).

Lemma tree_ok_jobs jgrpNode jgrpNode' jStatus elems t f :
  (forall j, jgrpNode' j = jgrpNode j) -> tree_ok jgrpNode jStatus elems t f -> tree_ok jgrpNode' jStatus elems t f.
Proof.
  intros H [Hs Hnd Ho Hj HG]. split; try done. intros n nd Hn jp Hi. rewrite H. by apply (Hj n nd).
Qed.

Definition small_forest : forest := Cons 1 (Cons 2 Nil (Cons 3 Nil Nil)) Nil.
Definition small_states (j : jptr) : list Z := small_status <$> small_elems j.

Lemma small_tree_ok : exists t entry, small_tree = Some (t, entry) /\
  tree_ok small_node small_status small_states t small_forest.
Proof.
  destruct (put_ok (fun _ => None) small_status small_states 2 true (lit "a[1-2]") 10 [11; 12]%positive
              (treeInit 1).1 (treeInit 1).2 1 Nil _ _ (init_ok _ _ _ 1) eq_refl eq_refl)
    as (t1 & E1 & H1 & _); [by apply (bool_decide_eq_true_1 (_ ∉ _))| |done|].
  { intros n nd j Hn. cbn [treeInit fst] in Hn. apply lookup_singleton_Some in Hn as [_ <-]. done. }
  pose proof (tr_jobs _ _ _ _ _ H1) as Hj1.
  assert (exists rd c, t1 !! 1%positive = Some rd /\ info rd = JGRP_DATA c) as (rd & c & Hr & Hi).
  { assert (exists c, (fun r => info <$> r.1.1 !! 1%positive) <$>
        Some (t1, (treeInit 1).2, repoint (fun _ => None) 2 10 [11; 12]%positive) = Some (Some (JGRP_DATA c))) as [c Hc].
    { rewrite <- E1. eexists. vm_compute. reflexivity. }
    cbn [fmap option_fmap option_map fst] in Hc. destruct (t1 !! 1%positive) as [rd|]; [|done].
    injection Hc as Hc. by exists rd, c. }
  destruct (put_ok (repoint (fun _ => None) 2 10 [11; 12]%positive) small_status small_states 3 false (lit "b") 8 []
              t1 (Some 1%positive) 1 (Cons 2 Nil Nil) rd c H1 Hr Hi) as (t2 & E2 & H2 & _);
    [by apply (bool_decide_eq_true_1 (_ ∉ _))| |done|].
  { intros n nd j Hn Hinfo Hin. apply list_elem_of_singleton in Hin as ->.
    destruct (Hj1 n nd Hn _ Hinfo) as [Hg _]. vm_compute in Hg. done. }
  exists t2, (Some 1%positive). split.
  - unfold small_tree. change (treeInit 1) with ((treeInit 1).1, Some 1%positive).
    cbn [treeInit snd] in E1. cbn beta iota zeta. rewrite E1. cbn [mbind option_bind]. by rewrite E2.
  - eapply tree_ok_jobs; [|exact H2]. intros j. unfold repoint, small_node.
    repeat case_bool_decide; try done; exfalso; set_solver.
Qed.

Lemma tree_walk_witness : exists t entry, small_tree = Some (t, entry) /\
  walk (size t) t (Some 1%positive) = Some [1; 2; 3]%positive /\
  walk (size t) t (Some 2%positive) = Some [2; 3]%positive.
Proof.
  destruct small_tree_ok as (t & entry & E & Hok). exists t, entry.
  destruct (tree_walk _ _ _ _ _ Hok) as (H1 & _ & _ & H2).
  split; [exact E|]. split; [exact H1|]. by apply (H2 [1%positive]).
Defined.

(** The array is removed while the observer stands at it: it goes on at the job. *)
Lemma clip_free_safe_witness : exists t entry t' entry', small_tree = Some (t, entry) /\
  clip_free small_node small_status t (Some 2%positive) (Some 2%positive) = Some (t', entry') /\
  tree_ok small_node small_status small_states t' (Cons 1 (Cons 3 Nil Nil) Nil).
Proof.
  destruct small_tree_ok as (t & entry & E & Hok).
  destruct (clip_free_safe _ _ _ _ (InKids 1 Top Nil) 2 Nil (Cons 3 Nil Nil) (Some 2%positive) Hok)
    as (t' & entry' & Hc & Hok' & _ & _); [intros e [= <-]; right; left|].
  by exists t, entry, t', entry'.
Defined.

(** The array gets another name; the new node has the address of the old one. *)
Lemma rename_keeps_tree_witness : exists t entry t' entry', small_tree = Some (t, entry) /\
  rename_node small_node small_status t entry (Some 1%positive) 2 2 true (lit "c[1-2]") 10 [11; 12]%positive =
    Some (t', entry', repoint small_node 2 10 [11; 12]%positive) /\
  tree_ok (repoint small_node 2 10 [11; 12]%positive) small_status small_states t'
    (Cons 1 (Cons 3 Nil (Cons 2 Nil Nil)) Nil).
Proof.
  destruct small_tree_ok as (t & entry & E & Hok).
  assert (exists rd c, t !! 1%positive = Some rd /\ info rd = JGRP_DATA c /\ entry = Some 1%positive)
    as (rd & c & Hr & Hi & He).
  { assert (exists c, (fun r => (info <$> r.1 !! 1%positive, r.2)) <$> Some (t, entry) =
              Some (Some (JGRP_DATA c), Some 1%positive)) as [c Hc].
    { rewrite <- E. eexists. vm_compute. reflexivity. }
    cbn [fmap option_fmap option_map fst snd] in Hc. destruct (t !! 1%positive) as [rd|]; [|done].
    injection Hc as Hc He. by exists rd, c. }
  destruct (rename_keeps_tree small_node small_status small_states t entry 1 Top 2 Nil (Cons 3 Nil Nil) rd c 2 true
              (lit "c[1-2]") 10 [11; 12]%positive Hok Hr Hi) as (t' & entry' & Hren & Hok' & _).
  - intros e E'. rewrite He in E'. injection E' as <-. left.
  - intros j Hj. unfold small_node. by rewrite bool_decide_true.
  - reflexivity.
  - by apply (bool_decide_eq_true_1 (_ ∉ _)).
  - exists t, entry, t', entry'. split; [exact E|]. by split.
Defined.

(** [treeInsertLeft], which no code calls, forgets the parent: a node inserted in
    front of the first child does not become the first child. *)
Example insert_left_first :
  (fun r => (child <$> r.1 !! 1%positive, left <$> r.1 !! 2%positive)) <$>
    ('(t, entry) ← small_tree;
     treeInsertLeft small_node small_status (<[4%positive := new_node false (lit "d") 9]> t) entry
       (Some 2%positive) (Some 4%positive)) =
  Some (Some (Some 2%positive), Some (Some 4%positive)).
Proof. vm_compute. done. Qed.
