(* ===== verification/JobReady.v ===== *)
(** * Jobs become ready (mbd.jgrp.c)

    The scheduler dispatches a pending job only when the flag JFLAG_READY2 says that
    its dependency condition holds.  [checkJgrpDep] evaluates the conditions
    of all pending jobs on a walk through the tree of job groups; when it takes
    too long, the walk stops, and the next call goes on at the node where
    the observer of the tree stands.

    The file puts [DepCond] and [JobForest] together: [condition_of] is the
    meaning of a job's condition, and the theorems say that after enough calls
    every pending job is marked accordingly. *)

From S2P Require Import Prelude JobStatus JobGroup JobTree JobForest.
From S2P Require DepCond.

(** ** Data *)

Definition JFLAG_DEPCOND_INVALID : Z := 0x4.
Definition JFLAG_DEPCOND_REJECT : Z := 0x8000.
Definition JFLAG_READY1 : Z := 0x100000.
Definition JFLAG_READY2 : Z := 0x200000.
Definition JFLAG_WAIT_SWITCH : Z := 0x80000000.

Definition PEND_JOB_NEW : Z := 1.
Definition PEND_JOB_DEPEND : Z := 3.
Definition PEND_JOB_DEP_INVALID : Z := 4.
Definition PEND_JOB_SWITCH : Z := 14.
Definition PEND_JOB_DEP_REJECT : Z := 15.

(** mbd.h *)
Definition JOB_PEND (s : Z) : bool := has s JOB_STAT_PEND && negb (has s JOB_STAT_PSUSP).

Abbreviation sptr := positive.

(** [struct jData]: the fields that conditions look at, [newReason], and [shared],
    which the elements of an array share. *)
Record wjob := WJob { facts : DepCond.jData; newReason : Z; shared : sptr }.

(** The jobs, and [shared->dptRoot]. *)
Record wstate := WState { jobs : gmap jptr wjob; dptRoot : gmap sptr DepCond.dptNode }.

Definition null_facts : DepCond.jData := DepCond.JData 0 0 0 0 0 0 0.

(** What the numbers of [DepCond] point to. *)
Definition facts_at (js : gmap jptr wjob) (z : Z) : DepCond.jData :=
  match z with Zpos p => match js !! p with Some j => facts j | None => null_facts end | _ => null_facts end.

Definition upd_flags (f : Z -> Z) (j : wjob) : wjob :=
  let d := facts j in
  WJob (DepCond.JData (DepCond.dj_jobId d) (DepCond.dj_nodeType d) (DepCond.dj_jStatus d)
          (f (DepCond.dj_jFlags d)) (DepCond.dj_startTime d) (DepCond.dj_endTime d)
          (DepCond.dj_exitStatus d)) (newReason j) (shared j).
Definition set_newReason (r : Z) (j : wjob) : wjob := WJob (facts j) r (shared j).
Definition set_flag (b : Z) : wjob -> wjob := upd_flags (fun f => Z.lor f b).

Section Ready.
(** The chains [nextJob], the job table, the arrays of the tree, and the time windows. *)
Context (elements : jptr -> list jptr) (getJobData : Z -> option Z).
Context (jgrp : Z -> DepCond.jgArrayBase) (window_open : list cstr -> bool).

Definition elements_at (z : Z) : list Z :=
  match z with Zpos p => Zpos <$> elements p | _ => [] end.

Definition eval_condition (js : gmap jptr wjob) (root : DepCond.dptNode) (j : wjob) : DepCond.dptNode :=
  DepCond.evalDepCond (facts_at js) elements_at getJobData jgrp window_open root (Some (facts j)).

(** ** The operations *)

(** The ifs on [depCond]. *)
Definition mark (depCond : Z) (j : wjob) : wjob :=
  if depCond =? DepCond.DP_FALSE then set_newReason PEND_JOB_DEPEND j
  else if depCond =? DepCond.DP_INVALID
  then set_flag JFLAG_DEPCOND_INVALID (set_newReason PEND_JOB_DEP_INVALID j)
  else if depCond =? DepCond.DP_REJECT
  then set_flag JFLAG_DEPCOND_REJECT (set_newReason PEND_JOB_DEP_REJECT j)
  else if depCond =? DepCond.DP_TRUE then set_flag JFLAG_READY2 j
  else j.

(** The body of the loop over the jobs of a node. *)
Definition check_job (st : wstate) (jpbw : jptr) : option wstate :=
  j ← jobs st !! jpbw;
  if negb (JOB_PEND (DepCond.dj_jStatus (facts j))) then Some st
  else
    let j := upd_flags (fun f => Z.lor (clr f (Z.lor JFLAG_READY1 JFLAG_READY2)) JFLAG_READY1) j in
    if has (DepCond.dj_jFlags (facts j)) JFLAG_WAIT_SWITCH
    then Some (WState (<[jpbw := set_newReason PEND_JOB_SWITCH j]> (jobs st)) (dptRoot st))
    else match dptRoot st !! shared j with
         | None => Some (WState (<[jpbw := set_flag JFLAG_READY2 j]> (jobs st)) (dptRoot st))
         | Some root =>
             let js := <[jpbw := j]> (jobs st) in
             let root := eval_condition js root j in
             Some (WState (<[jpbw := mark (DepCond.node_value root) j]> js)
                          (<[shared j := root]> (dptRoot st)))
         end.

Fixpoint check_jobs (st : wstate) (iterNum : nat) (l : list jptr) : option (wstate * nat) :=
  match l with
  | [] => Some (st, iterNum)
  | jpbw :: l => st ← check_job st jpbw; check_jobs st (S iterNum) l
  end.

(** The jobs of a node, from [jpbw] along [nextJob]. *)
Definition jobs_at (i : ndInfo) : list jptr :=
  match i with
  | JGRP_DATA _ => []
  | JOB_DATA jp => jp :: elements jp
  | ARRAY_DATA _ jobArray => elements jobArray
  end.

(** [late iterNum]: more than 3 seconds have passed at this check of the clock. *)
Fixpoint check_nodes (fuel : nat) (t : tree) (late : nat -> bool) (st : wstate) (iterNum : nat)
    (nPtr : option nptr) : option (wstate * option nptr) :=
  match nPtr, fuel with
  | None, _ => Some (st, None)
  | Some _, O => None
  | Some n, S fuel =>
      nd ← t !! n;
      '(st, iterNum) ← check_jobs st iterNum (jobs_at (info nd));
      next ← treeLexNext t (Some n);
      let iterNum := S iterNum in
      match next with
      | Some m =>
          if (1000 <? iterNum)%nat && late iterNum then Some (st, Some m)
          else check_nodes fuel t late st iterNum next
      | None => Some (st, None)
      end
  end.

(** The entry of the observer before and after the call.  At the end of the
    walk [nPtr] is the root and the loop is left, since [change] is FALSE. *)
Definition checkJgrpDep (t : tree) (late : nat -> bool) (st : wstate) (entry groupRoot : option nptr)
    : option (wstate * option nptr) :=
  let nPtr := match entry with Some n => Some n | None => groupRoot end in
  '(st, nPtr) ← check_nodes (size t) t late st 0 nPtr;
  Some (st, match nPtr with Some n => Some n | None => groupRoot end).

(** [putOntoTree] marks a new job. *)
Definition put_flags (st : wstate) (jp : jptr) : option wstate :=
  j ← jobs st !! jp;
  let j := if newReason j =? 0 then set_newReason PEND_JOB_NEW j else j in
  let j := match dptRoot st !! shared j with None => set_flag JFLAG_READY2 j | Some _ => j end in
  Some (WState (<[jp := j]> (jobs st)) (dptRoot st)).

(** The flags that [handleNewJob] leaves. *)
Definition handleNewJob_flags (st : wstate) (jpbw : jptr) : option wstate :=
  st ← put_flags st jpbw;
  j ← jobs st !! jpbw;
  Some (WState (<[jpbw := set_flag JFLAG_READY2 j]> (jobs st)) (dptRoot st)).

(** What a call makes of a pending job. *)

Definition condition_of (st : wstate) (j : wjob) : option Z :=
  (fun root => DepCond.meaning (facts_at (jobs st)) elements_at getJobData jgrp window_open root
                 (Some (facts j))) <$> dptRoot st !! shared j.

Definition checked (st : wstate) (j : wjob) : wjob :=
  if negb (JOB_PEND (DepCond.dj_jStatus (facts j))) then j
  else
    let j' := upd_flags (fun f => Z.lor (clr f (Z.lor JFLAG_READY1 JFLAG_READY2)) JFLAG_READY1) j in
    if has (DepCond.dj_jFlags (facts j)) JFLAG_WAIT_SWITCH then set_newReason PEND_JOB_SWITCH j'
    else match condition_of st j with
         | None => set_flag JFLAG_READY2 j'
         | Some v => mark v j'
         end.

End Ready.

(** ** What conditions see of a job

    Everything but the flags, and of these only JFLAG_LASTRUN_SUCC. *)

#[export] Instance jData_equiv : Equiv DepCond.jData := fun d d' =>
  DepCond.dj_jobId d = DepCond.dj_jobId d' /\ DepCond.dj_nodeType d = DepCond.dj_nodeType d' /\
  DepCond.dj_jStatus d = DepCond.dj_jStatus d' /\ DepCond.dj_startTime d = DepCond.dj_startTime d' /\
  DepCond.dj_endTime d = DepCond.dj_endTime d' /\ DepCond.dj_exitStatus d = DepCond.dj_exitStatus d' /\
  has (DepCond.dj_jFlags d) DepCond.JFLAG_LASTRUN_SUCC = has (DepCond.dj_jFlags d') DepCond.JFLAG_LASTRUN_SUCC.

#[export] Instance jData_equivalence : Equivalence (≡@{DepCond.jData}).
Proof.
  split.
  - by intros d.
  - intros d d' (?&?&?&?&?&?&?). by split_and!.
  - intros d d' d'' (?&?&?&?&?&?&?) (?&?&?&?&?&?&?). split_and!; congruence.
Qed.

#[export] Instance evalJobDep_equiv :
  Proper ((=) ==> (=) ==> (=) ==> (≡) ==> (≡) ==> (=)) DepCond.evalJobDep.
Proof.
  intros ty ? <- op ? <- code ? <- d d' (Ei&Et&Es&Est&Een&Eex&Ef) w w' Hw.
  unfold DepCond.evalJobDep. rewrite Es, Est, Een, Eex, Ef.
  destruct Hw as [w w' (_&_&_&_&Ew&_)|]; [|done]. by rewrite Ew.
Qed.

#[export] Instance never_equiv : Proper ((=) ==> (≡) ==> (=)) DepCond.never.
Proof. intros ty ? <- d d' (_&_&Es&_). unfold DepCond.never. by rewrite Es. Qed.

#[export] Instance eval_jobs_equiv :
  Proper (pointwise_relation Z (≡) ==> pointwise_relation Z (=) ==> (=) ==> (=) ==> (=) ==> (≡) ==> (=) ==> (=) ==> (=))
    DepCond.eval_jobs.
Proof.
  intros job job' Hj sel sel' Hsel ty ? <- op ? <- code ? <- w w' Hw l ? <- v ? <-. revert v.
  induction l as [|j l IH]; intros v; [done|]. simpl.
  rewrite Hsel, (never_equiv ty ty eq_refl _ _ (Hj j)).
  rewrite (evalJobDep_equiv ty ty eq_refl op op eq_refl code code eq_refl _ _ (Hj j) w w' Hw).
  by rewrite !IH.
Qed.

Lemma find_ext {A} (f g : A -> bool) l : (forall x, f x = g x) -> List.find f l = List.find g l.
Proof. intros H. induction l as [|x l IH]; [done|]. simpl. by rewrite H, IH. Qed.

#[export] Instance one_to_one_equiv : Proper (pointwise_relation Z (≡) ==> (=) ==> (=) ==> (=) ==> (≡) ==> (=))
  DepCond.one_to_one.
Proof.
  intros job job' Hj g ? <- arr ? <- idx ? <- w w' Hw. unfold DepCond.one_to_one.
  destruct (Hj arr) as [-> _].
  assert (match w with Some d => DepCond.dj_jobId d | None => 0 end =
          match w' with Some d => DepCond.dj_jobId d | None => 0 end) as ->
    by (destruct Hw as [w w' [E _]|]; [exact E|done]).
  destruct (g _); [done|]. destruct idx as [idx|]; [|done].
  erewrite find_ext; [done|]. intros j. by destruct (Hj j) as [-> _].
Qed.

#[export] Instance eval_job_node_equiv :
  Proper (pointwise_relation Z (≡) ==> (=) ==> (=) ==> (=) ==> (=) ==> (=) ==> (=) ==> (=) ==> (=) ==> (=) ==> (≡) ==> (=))
    DepCond.eval_job_node.
Proof.
  intros job job' Hj es ? <- g ? <- ty ? <- v ? <- op ? <- code ? <- fl ? <- jr ? <- idx ? <- w w' Hw.
  unfold DepCond.eval_job_node. destruct jr as [j|]; [|done]. cbv zeta.
  assert (pointwise_relation Z eq
    (fun j => match idx with Some idx => DepCond.inIdxList (DepCond.dj_jobId (job j)) (DepCond.ji_idxList idx) | None => true end)
    (fun j => match idx with Some idx => DepCond.inIdxList (DepCond.dj_jobId (job' j)) (DepCond.ji_idxList idx) | None => true end)) as Hsel.
  { intros k. destruct idx; [|done]. by destruct (Hj k) as [-> _]. }
  assert (DepCond.dj_nodeType (job j) = DepCond.dj_nodeType (job' j)) as -> by apply (Hj j).
  rewrite (one_to_one_equiv _ _ Hj g g eq_refl j j eq_refl idx idx eq_refl _ _ Hw).
  repeat case_match; try done; apply eval_jobs_equiv; done.
Qed.

#[export] Instance meaning_equiv :
  Proper (pointwise_relation Z (≡) ==> (=) ==> (=) ==> (=) ==> (=) ==> (=) ==> (≡) ==> (=)) DepCond.meaning.
Proof.
  intros job job' Hj es ? <- g ? <- jg ? <- win ? <- node ? <- w w' Hw.
  induction node as [ty v l IHl r IHr|v l IHl|ty v op code fl jr idx| |]; simpl; try done.
  - by rewrite IHl, IHr.
  - by rewrite IHl.
  - apply eval_job_node_equiv; done.
Qed.

(** Evaluating a condition does not change its meaning. *)
Section Again.
Context (job : Z -> DepCond.jData) (elements : Z -> list Z) (getJobData : Z -> option Z)
  (jgrp : Z -> DepCond.jgArrayBase) (window_open : list cstr -> bool).
Local Notation eval := (DepCond.evalDepCond job elements getJobData jgrp window_open).
Local Notation mean := (DepCond.meaning job elements getJobData jgrp window_open).

Lemma eval_jobs_again sel ty op code w w' l v :
  DepCond.eval_jobs job sel ty op code w' l (DepCond.eval_jobs job sel ty op code w l v) =
  DepCond.eval_jobs job sel ty op code w' l v.
Proof.
  rewrite !DepCond.eval_jobs_find.
  destruct (List.find _ (List.filter sel l)); [done|]. by destruct (List.filter sel l).
Qed.

Lemma eval_job_node_again ty op code fl jr idx w w' v :
  let value w v := DepCond.eval_job_node job elements getJobData ty v op code fl jr idx w in
  value w' (value w v) = value w' v.
Proof.
  cbv zeta. unfold DepCond.eval_job_node. destruct jr as [j|]; [|done]. cbv zeta.
  destruct (_ =? DepCond.JGRP_NODE_ARRAY); [|apply eval_jobs_again].
  destruct (fl =? DepCond.ARRAY_DEP_ONE_TO_ONE).
  - destruct (DepCond.one_to_one job getJobData j idx w'); [|done].
    by rewrite !DepCond.eval_jobs_find.
  - destruct idx as [[l [|e es]]|]; apply eval_jobs_again.
Qed.

Lemma meaning_again node w w' : mean (eval node w) w' = mean node w'.
Proof.
  induction node as [ty v l IHl r IHr|v l IHl|ty v op code fl jr idx|ty v op num g|]; simpl.
  - destruct ty; try done; repeat case_match; simpl; by rewrite ?IHl, ?IHr.
  - by rewrite IHl.
  - apply eval_job_node_again.
  - destruct g as [a|]; [|done]. unfold DepCond.eval_jgrp_node at 1. destruct (_ =? DepCond.JGRP_VOID) eqn:E; simpl.
    + by rewrite E.
    + by rewrite E.
  - done.
Qed.
End Again.

(** ** One job *)

Lemma has_lor_other z b m : has b m = false -> has (Z.lor z b) m = has z m.
Proof. intros H. by rewrite has_lor, H, orb_false_r. Qed.

Lemma upd_flags_facts f j : (forall z, has (f z) DepCond.JFLAG_LASTRUN_SUCC = has z DepCond.JFLAG_LASTRUN_SUCC) ->
  facts (upd_flags f j) ≡ facts j.
Proof. intros H. split_and!; try done. apply H. Qed.

Lemma set_flag_facts b j : has b DepCond.JFLAG_LASTRUN_SUCC = false -> facts (set_flag b j) ≡ facts j.
Proof. intros H. apply upd_flags_facts. intros z. by rewrite has_lor, H, orb_false_r. Qed.

Lemma mark_facts v j : facts (mark v j) ≡ facts j /\ shared (mark v j) = shared j.
Proof.
  unfold mark. repeat case_match; (split; [|done]); rewrite ?set_flag_facts by done; done.
Qed.

Definition begin_check (j : wjob) : wjob :=
  upd_flags (fun f => Z.lor (clr f (Z.lor JFLAG_READY1 JFLAG_READY2)) JFLAG_READY1) j.

Lemma begin_facts j : facts (begin_check j) ≡ facts j.
Proof.
  apply upd_flags_facts. intros z. rewrite has_lor, has_clr_disjoint by done. by rewrite orb_false_r.
Qed.

Lemma begin_switch j : has (DepCond.dj_jFlags (facts (begin_check j))) JFLAG_WAIT_SWITCH =
  has (DepCond.dj_jFlags (facts j)) JFLAG_WAIT_SWITCH.
Proof. simpl. rewrite has_lor, has_clr_disjoint by done. by rewrite orb_false_r. Qed.

Lemma facts_insert js p j j0 : js !! p = Some j0 -> facts j ≡ facts j0 ->
  forall z, facts_at (<[p := j]> js) z ≡ facts_at js z.
Proof.
  intros Hp Hf z. unfold facts_at. destruct z as [|q|q]; [done| |done].
  destruct (decide (p = q)) as [<-|Hne]; [by rewrite lookup_insert_eq, Hp|by rewrite lookup_insert_ne].
Qed.

Section Spec.
Context (elements : jptr -> list jptr) (getJobData : Z -> option Z).
Context (jgrp : Z -> DepCond.jgArrayBase) (window_open : list cstr -> bool).
Local Notation meaning js root w :=
  (DepCond.meaning (facts_at js) (elements_at elements) getJobData jgrp window_open root w).
Local Notation condition_of := (condition_of elements getJobData jgrp window_open).
Local Notation checked := (checked elements getJobData jgrp window_open).
Local Notation check_job := (check_job elements getJobData jgrp window_open).

(** A later state: what conditions see of the jobs is the same, and every condition
    has the same meaning. *)
Record agrees (st0 st : wstate) : Prop := {
  ag_facts : forall z, facts_at (jobs st) z ≡ facts_at (jobs st0) z;
  ag_proper : forall s root, dptRoot st !! s = Some root -> DepCond.proper root;
  ag_conds : forall s w, (fun root => meaning (jobs st0) root w) <$> dptRoot st !! s =
                         (fun root => meaning (jobs st0) root w) <$> dptRoot st0 !! s }.

Lemma agrees_refl st : (forall s root, dptRoot st !! s = Some root -> DepCond.proper root) -> agrees st st.
Proof. by split. Qed.

Lemma agrees_trans st1 st2 st3 : agrees st1 st2 -> agrees st2 st3 -> agrees st1 st3.
Proof.
  intros [F1 P1 C1] [F2 P2 C2]. split; [intros z; by rewrite F2|done|].
  intros s w. rewrite <- C1. specialize (C2 s w).
  destruct (dptRoot st3 !! s) as [r3|], (dptRoot st2 !! s) as [r2|]; try done. simpl in *.
  injection C2 as C2. f_equal.
  rewrite <- (meaning_equiv _ _ F1 _ _ eq_refl _ _ eq_refl _ _ eq_refl _ _ eq_refl r3 r3 eq_refl w w (reflexivity w)).
  rewrite C2. by apply meaning_equiv.
Qed.

Lemma agrees_condition st0 st j j0 : agrees st0 st -> facts j ≡ facts j0 -> shared j = shared j0 ->
  condition_of st j = condition_of st0 j0.
Proof.
  intros [F _ C] Hf Hs. unfold JobReady.condition_of. rewrite Hs. specialize (C (shared j0) (Some (facts j0))).
  rewrite <- C. destruct (dptRoot st !! shared j0) as [root|]; [|done]. simpl. f_equal.
  apply meaning_equiv; try done. by constructor.
Qed.

Lemma checked_facts st j : facts (checked st j) ≡ facts j /\ shared (checked st j) = shared j.
Proof.
  unfold JobReady.checked. fold (begin_check j). pose proof (begin_facts j) as Hb.
  destruct (negb _); [done|]. destruct (has _ JFLAG_WAIT_SWITCH); [by split|].
  destruct (condition_of st j) as [v|].
  - destruct (mark_facts v (begin_check j)) as [Hm ->]. split; [by rewrite Hm|done].
  - split; [by rewrite set_flag_facts|done].
Qed.

Lemma agrees_set st0 st p j j0 : agrees st0 st -> jobs st !! p = Some j0 -> facts j ≡ facts j0 ->
  agrees st0 (WState (<[p := j]> (jobs st)) (dptRoot st)).
Proof.
  intros [F P C] Hp Hf. split; [|done|done]. intros z. simpl. by rewrite (facts_insert _ _ _ _ Hp Hf).
Qed.

Lemma check_job_spec st0 st p j : agrees st0 st -> jobs st !! p = Some j ->
  exists st', check_job st p = Some st' /\ agrees st0 st' /\
    jobs st' = <[p := checked st0 j]> (jobs st).
Proof.
  intros Ha Hp. unfold JobReady.check_job, JobReady.checked. rewrite Hp. cbn [mbind option_bind].
  fold (begin_check j). destruct (negb _); [exists st; by rewrite insert_id|].
  rewrite begin_switch. destruct (has _ JFLAG_WAIT_SWITCH).
  { eexists. split; [done|]. split; [|done]. eapply agrees_set; [done|done|]. apply begin_facts. }
  pose proof (agrees_condition st0 st j j Ha (reflexivity _) eq_refl) as Hcond.
  change (shared (begin_check j)) with (shared j).
  unfold JobReady.condition_of in Hcond at 1. destruct (dptRoot st !! shared j) as [root|] eqn:Hroot.
  2: { rewrite <- Hcond. simpl. eexists. split; [done|]. split; [|done]. eapply agrees_set; [done|done|].
       rewrite set_flag_facts by done. apply begin_facts. }
  rewrite <- Hcond. cbn [fmap option_fmap option_map]. rewrite insert_insert_eq.
  set (js := <[p := begin_check j]> (jobs st)).
  set (root' := eval_condition elements getJobData jgrp window_open js root (begin_check j)).
  pose proof (ag_proper _ _ Ha _ _ Hroot) as Hprop.
  destruct (DepCond.evalDepCond_meaning (facts_at js) (elements_at elements) getJobData jgrp window_open root
              (Some (facts (begin_check j))) Hprop) as [Hval Hprop'].
  assert (pointwise_relation Z (≡) (facts_at js) (facts_at (jobs st))) as Hjs.
  { intros z. apply (facts_insert _ _ _ _ Hp (begin_facts j)). }
  assert (DepCond.node_value root' = meaning (jobs st) root (Some (facts j))) as ->.
  { unfold root', eval_condition. rewrite Hval. apply meaning_equiv; try done. constructor. apply begin_facts. }
  eexists. split; [done|]. split; [|done].
  destruct (mark_facts (meaning (jobs st) root (Some (facts j))) (begin_check j)) as [Hmf _].
  pose proof (agrees_set st0 st p _ j Ha Hp (transitivity Hmf (begin_facts j))) as [F P C].
  split; [exact F| |]; cbn [jobs dptRoot] in *; intros s.
  - intros r. destruct (decide (shared j = s)) as [<-|Hs].
    + rewrite lookup_insert_eq. by intros [= <-].
    + rewrite lookup_insert_ne by done. apply P.
  - intros w. destruct (decide (shared j = s)) as [<-|Hs].
    + rewrite lookup_insert_eq, <- C, Hroot. simpl. f_equal.
      assert (forall r, meaning (jobs st0) r w = meaning js r w) as Hmean.
      { intros r. apply meaning_equiv; try done. intros z. rewrite (Hjs z). symmetry. apply (ag_facts _ _ Ha). }
      rewrite !Hmean. apply meaning_again.
    + rewrite lookup_insert_ne by done. apply C.
Qed.

(** ** All jobs *)

Lemma mark_again v j : mark v (begin_check (mark v (begin_check j))) = mark v (begin_check j).
Proof.
  destruct j as [[a b c f s e x] r sh]. unfold mark, begin_check.
  repeat case_match; unfold set_flag, set_newReason, upd_flags; simpl; do 2 f_equal; unfold clr; bits.
Qed.

(** Checking a job twice is checking it once. *)
Lemma checked_again st j : checked st (checked st j) = checked st j.
Proof.
  destruct (checked_facts st j) as [Hf Hs].
  assert (condition_of st (checked st j) = condition_of st j) as Hc.
  { unfold JobReady.condition_of. rewrite Hs. destruct (dptRoot st !! shared j); [|done]. simpl. f_equal.
    apply meaning_equiv; try done. by constructor. }
  assert (JOB_PEND (DepCond.dj_jStatus (facts (checked st j))) = JOB_PEND (DepCond.dj_jStatus (facts j))) as Hp.
  { destruct Hf as (_ & _ & -> & _). done. }
  unfold JobReady.checked at 1. rewrite Hc, Hp. fold (begin_check (checked st j)).
  assert (has (DepCond.dj_jFlags (facts (checked st j))) JFLAG_WAIT_SWITCH =
          has (DepCond.dj_jFlags (facts j)) JFLAG_WAIT_SWITCH) as ->.
  { rewrite <- begin_switch, <- (begin_switch j). unfold JobReady.checked. fold (begin_check j).
    unfold mark. repeat case_match; rewrite ?begin_switch; try done;
      simpl; repeat first [rewrite has_lor_other by done|rewrite has_clr_disjoint by done]; done. }
  unfold JobReady.checked. fold (begin_check j).
  destruct (negb _); [done|]. destruct (has _ JFLAG_WAIT_SWITCH).
  - destruct j as [[a b c f s e x] r sh]. unfold begin_check, set_newReason, upd_flags. simpl.
    do 2 f_equal. unfold clr. bits.
  - destruct (condition_of st j) as [v|].
    + apply mark_again.
    + destruct j as [[a b c f s e x] r sh]. unfold begin_check, set_flag, upd_flags. simpl.
      do 2 f_equal. unfold clr. bits.
Qed.

Definition check_all (st0 : wstate) (l : list jptr) (js js' : gmap jptr wjob) : Prop :=
  forall q, js' !! q = (if bool_decide (q ∈ l) then checked st0 else id) <$> js !! q.

Lemma check_all_app st0 l1 l2 js1 js2 js3 : check_all st0 l1 js1 js2 -> check_all st0 l2 js2 js3 ->
  check_all st0 (l1 ++ l2) js1 js3.
Proof.
  intros H1 H2 q. rewrite H2, H1. destruct (js1 !! q) as [j|]; [|done]. simpl. f_equal.
  repeat case_bool_decide; try done; try (by rewrite checked_again); exfalso; set_solver.
Qed.

Lemma check_jobs_spec st0 l : forall st iterNum, agrees st0 st -> (forall p, p ∈ l -> is_Some (jobs st !! p)) ->
  exists st', check_jobs elements getJobData jgrp window_open st iterNum l = Some (st', (length l + iterNum)%nat) /\
    agrees st0 st' /\ check_all st0 l (jobs st) (jobs st').
Proof.
  induction l as [|p l IH]; intros st iterNum Ha Hl.
  - exists st. split_and!; [done|done|]. intros q. rewrite bool_decide_false by apply not_elem_of_nil.
    by destruct (jobs st !! q).
  - destruct (Hl p) as [j Hj]; [left|]. destruct (check_job_spec st0 st p j Ha Hj) as (st1 & E1 & Ha1 & Hjs).
    destruct (IH st1 (S iterNum) Ha1) as (st2 & E2 & Ha2 & Hc2).
    { intros q Hq. rewrite Hjs. destruct (decide (p = q)) as [<-|Hne].
      - rewrite lookup_insert_eq. by eexists.
      - rewrite lookup_insert_ne by done. apply Hl. by right. }
    exists st2. cbn [check_jobs]. rewrite E1. cbn [mbind option_bind length].
    rewrite E2. split_and!; [do 2 f_equal; lia|done|].
    apply (check_all_app st0 [p] l _ (jobs st1)); [|done].
    intros q. rewrite Hjs. destruct (decide (p = q)) as [<-|Hne].
    + by rewrite lookup_insert_eq, Hj, bool_decide_true by left.
    + rewrite lookup_insert_ne by done. rewrite bool_decide_false by set_solver. by destruct (jobs st !! q).
Qed.

(** ** The walk *)

(** The jobs of a list of nodes. *)
Definition jobs_of (t : tree) (l : list nptr) : list jptr :=
  l ≫= (fun n => match t !! n with Some nd => jobs_at elements (info nd) | None => [] end).

Section Walk.
Context (t : tree) (f : forest) (st0 : wstate).
Context (Hs : shape t None None f) (Hnd : NoDup (nodes f)).
Context (Hjobs : forall p, p ∈ jobs_of t (nodes f) -> is_Some (jobs st0 !! p)).

Lemma next_in_walk pre n l : nodes f = pre ++ n :: l -> treeLexNext t (Some n) = Some (head l).
Proof.
  intros E. assert (n ∈ nodes f) as Hn by (rewrite E; set_solver).
  apply place_of in Hn as (K & kids & rest & ->). rewrite (next_node _ _ _ _ _ Hs).
  rewrite nodes_plug in E, Hnd. cbn [nodes app] in E, Hnd. rewrite <- app_assoc in E, Hnd.
  destruct (nodup_split _ _ _ _ _ Hnd E) as [_ <-]. done.
Qed.

Lemma check_nodes_spec late l : forall fuel pre n st iterNum, nodes f = pre ++ n :: l ->
  agrees st0 st -> (forall p, is_Some (jobs st0 !! p) -> is_Some (jobs st !! p)) -> (length l < fuel)%nat ->
  exists st' V post, check_nodes elements getJobData jgrp window_open fuel t late st iterNum (Some n) = Some (st', head post) /\
    n :: l = V ++ post /\ V <> [] /\ agrees st0 st' /\ check_all st0 (jobs_of t V) (jobs st) (jobs st').
Proof.
  induction l as [|m l IH]; intros fuel pre n st iterNum E Ha Hal Hf;
    (destruct fuel as [|fuel]; [simpl in Hf; lia|]);
    assert (n ∈ nodes f) as Hn by (rewrite E; set_solver);
    destruct (shape_alive _ _ _ _ Hs _ Hn) as [nd Hnd'];
    (destruct (check_jobs_spec st0 (jobs_at elements (info nd)) st iterNum Ha) as (st1 & E1 & Ha1 & Hc1);
     [intros p Hp; apply Hal, Hjobs; unfold jobs_of; apply list_elem_of_bind; exists n; by rewrite Hnd'|]);
    cbn [check_nodes]; rewrite Hnd'; cbn [mbind option_bind]; rewrite E1; cbn [mbind option_bind];
    rewrite (next_in_walk _ _ _ E); cbn [mbind option_bind head];
    assert (jobs_of t [n] = jobs_at elements (info nd)) as Hjn
      by (unfold jobs_of; cbn; by rewrite Hnd', app_nil_r).
  - exists st1, [n], []. rewrite Hjn. by split_and!.
  - destruct (_ && late _).
    + exists st1, [n], (m :: l). rewrite Hjn. by split_and!.
    + destruct (IH fuel (pre ++ [n]) m st1 (S (length (jobs_at elements (info nd)) + iterNum)))
        as (st2 & V & post & E2 & HV & HVne & Ha2 & Hc2); [by rewrite E, <- app_assoc|done| |simpl in Hf; lia|].
      { intros p Hp. rewrite Hc1. destruct (Hal p Hp) as [j ->]. by eexists. }
      exists st2, (n :: V), post. split_and!; [exact E2|by rewrite HV|done|done|].
      change (n :: V) with ([n] ++ V). unfold jobs_of. rewrite bind_app. fold (jobs_of t [n]) (jobs_of t V).
      rewrite Hjn. by eapply check_all_app.
Qed.

(** One call does the nodes [V] and leaves the observer behind them. *)
Lemma checkJgrpDep_spec late pre n l st entry : nodes f = pre ++ n :: l ->
  agrees st0 st -> (forall p, is_Some (jobs st0 !! p) -> is_Some (jobs st !! p)) ->
  match entry with Some e => Some e | None => first f end = Some n ->
  exists st' V post, checkJgrpDep elements getJobData jgrp window_open t late st entry (first f) =
      Some (st', match head post with Some m => Some m | None => first f end) /\
    n :: l = V ++ post /\ V <> [] /\ agrees st0 st' /\ check_all st0 (jobs_of t V) (jobs st) (jobs st').
Proof.
  intros E Ha Hal He. pose proof (nodes_size _ _ _ _ Hs Hnd) as Hsize. rewrite E, length_app in Hsize. simpl in Hsize.
  destruct (check_nodes_spec late l (size t) pre n st 0 E Ha Hal) as (st' & V & post & Hc & ?); [lia|].
  exists st', V, post. split; [|done]. unfold checkJgrpDep. rewrite He, Hc. done.
Qed.

(** [k] calls in a row; each has its own clock. *)
Fixpoint calls (late : nat -> nat -> bool) (k : nat) (st : wstate) (entry : option nptr) :
    option (wstate * option nptr) :=
  match k with
  | O => Some (st, entry)
  | S k =>
      '(st, entry) ← checkJgrpDep elements getJobData jgrp window_open t (late O) st entry (first f);
      calls (fun i => late (S i)) k st entry
  end.

Lemma calls_add k1 k2 : forall late st entry st1 entry1, calls late k1 st entry = Some (st1, entry1) ->
  calls late (k1 + k2) st entry = calls (fun i => late (k1 + i)%nat) k2 st1 entry1.
Proof.
  induction k1 as [|k1 IH]; intros late st entry st1 entry1; simpl; [by intros [= -> ->]|].
  destruct (checkJgrpDep _ _ _ _ _ _ _ _ _) as [[st2 e2]|]; [|done]. simpl. intros H.
  by rewrite (IH _ _ _ _ _ H).
Qed.

Lemma check_all_alive l js js' : check_all st0 l js js' -> forall p, is_Some (js !! p) -> is_Some (js' !! p).
Proof. intros H p [j Hj]. rewrite H, Hj. by eexists. Qed.

(** The nodes from [n] on are done after at most as many calls. *)
Lemma calls_suffix len : forall late pre n l st entry, (length l < len)%nat -> nodes f = pre ++ n :: l ->
  agrees st0 st -> (forall p, is_Some (jobs st0 !! p) -> is_Some (jobs st !! p)) ->
  match entry with Some e => Some e | None => first f end = Some n ->
  exists k st', (k <= length (n :: l))%nat /\ calls late k st entry = Some (st', first f) /\
    agrees st0 st' /\ check_all st0 (jobs_of t (n :: l)) (jobs st) (jobs st').
Proof.
  induction len as [|len IH]; intros late pre n l st entry Hlen E Ha Hal He; [lia|].
  destruct (checkJgrpDep_spec (late O) pre n l st entry E Ha Hal He)
    as (st1 & V & post & Hcall & HV & HVne & Ha1 & Hc1).
  pose proof (f_equal length HV) as HVl. rewrite length_app in HVl. simpl in HVl.
  destruct post as [|m post].
  - exists 1%nat, st1. rewrite app_nil_r in HV. subst V. cbn [calls]. rewrite Hcall. cbn [head mbind option_bind].
    split_and!; [simpl; lia|done|done|done].
  - destruct V as [|v V]; [done|]. simpl in HVl.
    destruct (IH (fun i => late (S i)) (pre ++ v :: V) m post st1 (Some m)) as (k & st2 & Hk & Hcalls & Ha2 & Hc2).
    { lia. } { by rewrite E, HV, <- app_assoc. } { done. }
    { intros p Hp. by eapply check_all_alive; [|apply Hal]. } { done. }
    exists (S k), st2. cbn [calls]. rewrite Hcall. cbn [head mbind option_bind].
    split_and!; [simpl in *; lia|done|done|]. rewrite HV. unfold jobs_of. rewrite bind_app. by eapply check_all_app.
Qed.

End Walk.

End Spec.

(** ** Properties *)

Lemma mark_ready v j : has (DepCond.dj_jFlags (facts j)) JFLAG_READY2 = false ->
  has (DepCond.dj_jFlags (facts (mark v j))) JFLAG_READY2 = true <-> v = DepCond.DP_TRUE.
Proof.
  intros Hj. unfold mark. repeat case_if; breflect; subst; simpl; rewrite ?has_lor, ?Hj; split; try done.
Qed.

(** C7: Every pending job is checked, and gets JFLAG_READY2 exactly
    when its condition holds.  In a tree of job groups that does not change, and however
    often the clock stops the walk of [checkJgrpDep] and wherever the observer
    stands, after at most twice as many calls as the tree has nodes the observer is
    back at the root and each job is as the function [checked] of the state before
    the first call says: the conditions are independent of the order of the
    jobs, of those that jobs share, and of the places where the walk stopped.  A pending
    job is ready if and only if it does not wait for a switch of its queue and has
    no condition or one that is true. *)
Theorem conditions_are_checked elements getJobData jgrp window_open t f st entry late :
  shape t None None f -> NoDup (nodes f) -> f <> Nil ->
  (forall p, p ∈ jobs_of elements t (nodes f) -> is_Some (jobs st !! p)) ->
  (forall s root, dptRoot st !! s = Some root -> DepCond.proper root) ->
  (forall e, entry = Some e -> e ∈ nodes f) ->
  exists k st', (k <= 2 * length (nodes f))%nat /\
    calls elements getJobData jgrp window_open t f late k st entry = Some (st', first f) /\
    forall p j, jobs st !! p = Some j ->
      if bool_decide (p ∈ jobs_of elements t (nodes f)) then
        let j' := checked elements getJobData jgrp window_open st j in
        jobs st' !! p = Some j' /\
        (JOB_PEND (DepCond.dj_jStatus (facts j)) = true ->
          has (DepCond.dj_jFlags (facts j')) JFLAG_READY2 = true <->
          has (DepCond.dj_jFlags (facts j)) JFLAG_WAIT_SWITCH = false /\
          match condition_of elements getJobData jgrp window_open st j with
          | None => True | Some v => v = DepCond.DP_TRUE
          end)
      else jobs st' !! p = Some j.
Proof.
  intros Hs Hnd Hne Hjobs Hp He.
  destruct (first f) as [r|] eqn:Hf; [|by destruct f].
  assert (exists n, match entry with Some e => Some e | None => first f end = Some n /\ n ∈ nodes f)
    as (n & Hn & Hin).
  { destruct entry as [e|]; [exists e; auto|]. exists r. split; [done|]. rewrite first_head in Hf.
    destruct (nodes f); simplify_eq/=. left. }
  apply list_elem_of_split in Hin as (pre & l & E).
  destruct (calls_suffix elements getJobData jgrp window_open t f st Hs Hnd Hjobs (S (length l)) late pre n l st entry)
    as (k1 & st1 & Hk1 & Hc1 & Ha1 & Hall1); [lia|done|by apply agrees_refl|done|done|].
  assert (exists l', nodes f = [] ++ r :: l') as [l' E'].
  { rewrite first_head in Hf. destruct (nodes f) as [|x l']; simplify_eq/=. by exists l'. }
  destruct (calls_suffix elements getJobData jgrp window_open t f st Hs Hnd Hjobs (S (length l'))
              (fun i => late (k1 + i)%nat) [] r l' st1 (Some r))
    as (k2 & st2 & Hk2 & Hc2 & Ha2 & Hall2); [lia|done|done| |done|].
  { intros p Hal. by eapply check_all_alive. }
  exists (k1 + k2)%nat, st2. rewrite Hf in Hc1, Hc2.
  split_and!.
  - pose proof (f_equal length E) as H1. pose proof (f_equal length E') as H2.
    rewrite length_app in H1. simpl in *. lia.
  - by rewrite (calls_add _ _ _ _ _ _ _ _ _ _ _ _ _ Hc1).
  - intros p j Hj. pose proof (check_all_app _ _ _ _ _ _ _ _ _ _ Hall1 Hall2 p) as H. rewrite Hj in H.
    assert (p ∈ jobs_of elements t (n :: l) ++ jobs_of elements t (r :: l') <-> p ∈ jobs_of elements t (nodes f))
      as Hiff.
    { change (r :: l') with ([] ++ r :: l'). rewrite <- E', elem_of_app. split; [|by right].
      intros [Hin|Hin]; [|done]. rewrite E. unfold jobs_of in *. rewrite bind_app, elem_of_app. by right. }
    rewrite (bool_decide_ext _ _ Hiff) in H. case_bool_decide; [|done]. split; [done|].
    intros Hpend. unfold checked. rewrite Hpend. cbn [negb]. fold (begin_check j).
    assert (has (DepCond.dj_jFlags (facts (begin_check j))) JFLAG_READY2 = false) as Hb.
    { simpl. rewrite has_lor_other by done. apply has_false. unfold clr. bits. }
    destruct (has _ JFLAG_WAIT_SWITCH).
    + change (facts (set_newReason PEND_JOB_SWITCH (begin_check j))) with (facts (begin_check j)).
      rewrite Hb. split; [done|by intros [? _]].
    + destruct (condition_of _ _ _ _ st j) as [v|]; [rewrite mark_ready by done; tauto|].
      simpl. rewrite has_lor, orb_true_r. tauto.
Qed.

(** A group with two jobs; the second, 8, waits for the end of the first, 7. *)
Definition ready_tree : tree :=
  <[1%positive := JgTreeNode None (Some 2%positive) None None (lit "/") (JGRP_DATA (replicate 9 0))]>
    (<[2%positive := JgTreeNode (Some 1%positive) None None (Some 3%positive) (lit "a") (JOB_DATA 7)]>
      {[3%positive := JgTreeNode (Some 1%positive) None (Some 2%positive) None (lit "b") (JOB_DATA 8)]}).
Definition ready_forest : forest := Cons 1 (Cons 2 Nil (Cons 3 Nil Nil)) Nil.

Definition ready_state (first_status : Z) : wstate :=
  WState (<[7%positive := WJob (DepCond.JData 12 1 first_status 0 100 200 0) 0 1]>
            {[8%positive := WJob (DepCond.JData 13 1 JOB_STAT_PEND 0 0 0 0) 0 2]})
         {[2%positive := DepCond.JobNode DepCond.DPT_DONE 0 DepCond.DPT_EQ 0 0 (Some 7) None]}.

Definition no_jobs : jptr -> list jptr := fun _ => [].
Definition no_job : Z -> option Z := fun _ => None.
Definition no_array : Z -> DepCond.jgArrayBase := fun _ => DepCond.JgArrayBase 0 [].
Definition no_window : list cstr -> bool := fun _ => true.

Lemma conditions_are_checked_witness :
  exists k st', (k <= 6)%nat /\
    calls no_jobs no_job no_array no_window ready_tree ready_forest (fun _ _ => true) k
      (ready_state JOB_STAT_DONE) (Some 3%positive) = Some (st', Some 1%positive) /\
    (fun j => has (DepCond.dj_jFlags (facts j)) JFLAG_READY2) <$> jobs st' !! 8%positive = Some true.
Proof.
  destruct (conditions_are_checked no_jobs no_job no_array no_window ready_tree ready_forest
              (ready_state JOB_STAT_DONE) (Some 3%positive) (fun _ _ => true))
    as (k & st' & Hk & Hcalls & H).
  - cbn [shape ready_forest first]. repeat (eexists; split_and!; try reflexivity).
  - by apply (bool_decide_eq_true_1 (NoDup _)).
  - done.
  - intros p Hp. vm_compute in Hp. repeat (apply elem_of_cons in Hp as [->|Hp]; [by eexists|]).
    by apply not_elem_of_nil in Hp.
  - intros s root Hr. unfold ready_state in Hr. cbn [dptRoot] in Hr.
    apply lookup_singleton_Some in Hr as [_ <-]. right. by left.
  - intros e [= <-]. right. right. left.
  - exists k, st'. split; [exact Hk|]. split; [exact Hcalls|].
    specialize (H 8%positive _ eq_refl). destruct H as [H _].
    change (jobs st' !! 8%positive = Some (checked no_jobs no_job no_array no_window (ready_state JOB_STAT_DONE)
      (WJob (DepCond.JData 13 1 JOB_STAT_PEND 0 0 0 0) 0 2))) in H. rewrite H. reflexivity.
Defined.

(** [handleNewJob] marks every new job as ready, although [putOntoTree] did so
    only for jobs without a condition: until the next call of [checkJgrpDep] the
    scheduler takes a job whose condition is false. *)
Example new_job_is_ready :
  (fun st => (fun j => (has (DepCond.dj_jFlags (facts j)) JFLAG_READY2,
                        condition_of no_jobs no_job no_array no_window st j)) <$> jobs st !! 8%positive)
    <$> handleNewJob_flags (ready_state JOB_STAT_RUN) 8 = Some (Some (true, Some DepCond.DP_FALSE)).
Proof. vm_compute. reflexivity. Qed.

(** A condition that was invalid once leaves JFLAG_DEPCOND_INVALID in the job,
    also when it holds later, since the first job was run again: the job is ready,
    but [readyToDisp] looks at the flag and reports the condition as invalid. *)
Example invalid_flag_stays :
  let st := ready_state JOB_STAT_EXIT in
  let call st := fst <$> checkJgrpDep no_jobs no_job no_array no_window ready_tree (fun _ => false) st None (Some 1%positive) in
  let run_again st := WState (<[7%positive := WJob (DepCond.JData 12 1 JOB_STAT_DONE 0 300 400 0) 0 1]> (jobs st)) (dptRoot st) in
  let flags st := (fun j => (has (DepCond.dj_jFlags (facts j)) JFLAG_READY2,
                             has (DepCond.dj_jFlags (facts j)) JFLAG_DEPCOND_INVALID)) <$> jobs st !! 8%positive in
  flags <$> call st = Some (Some (false, true)) /\
  flags <$> (st ← call st; call (run_again st)) = Some (Some (true, true)).
Proof. vm_compute. done. Qed.
