(* ===== verification/JobState.v ===== *)
(** * The changes of state of a job (mbd.job.c)

    [jStatusChange] is the one function through which a job changes its state:
    it gives up reserved slots, updates the counters of the job groups, moves the
    job between the lists [PJL], [MJL], [SJL] and [FJL], writes the event log and
    updates the counters of queues, users and hosts.  It is translated together
    with the functions it calls and with [handleRequeueJob], which returns a
    finished job to its queue.

    The state puts together the store of [JobLists], the counters of
    [Accounting] and the tree of [JobGroup].  The theorems show that a change of
    state keeps them consistent with each other. *)

From S2P Require Import Prelude JobStatus JobLists.
From S2P Require Accounting JobGroup DepCond.

(** ** Data *)

(** What is written to the event log, or told to the client of an interactive
    job. *)
Inductive event :=
  | LOG_newjob (jobId : Z)
  | LOG_jobclean (jobId : Z)
  | LOG_startjob (jobId : Z) (preExec : bool)
  | LOG_newstatus (jobId jStatus newReason : Z)
  | BREAK_callback (jobId : Z) (wasPending : bool).

Record mbs := Mbs {
  st : store; acct : Accounting.mbd; groups : JobGroup.tree; elog : list event;
  statusChanged : bool; numRemoveJobs : Z }.

Definition set_st (f : store -> store) (m : mbs) : mbs :=
  Mbs (f (st m)) (acct m) (groups m) (elog m) (statusChanged m) (numRemoveJobs m).
Definition set_acct (a : Accounting.mbd) (m : mbs) : mbs :=
  Mbs (st m) a (groups m) (elog m) (statusChanged m) (numRemoveJobs m).
Definition set_groups (t : JobGroup.tree) (m : mbs) : mbs :=
  Mbs (st m) (acct m) t (elog m) (statusChanged m) (numRemoveJobs m).
Definition log (e : event) (m : mbs) : mbs :=
  Mbs (st m) (acct m) (groups m) (elog m ++ [e]) (statusChanged m) (numRemoveJobs m).
Definition set_statusChanged (m : mbs) : mbs :=
  Mbs (st m) (acct m) (groups m) (elog m) true (numRemoveJobs m).
Definition add_numRemoveJobs (m : mbs) : mbs :=
  Mbs (st m) (acct m) (groups m) (elog m) (statusChanged m) (numRemoveJobs m + 1).

Definition job_of (m : mbs) (p : jptr) : job := the_job (st m) p.
Definition bill_of (m : mbs) (p : jptr) : jobBill := jobBill_of (st m) p.
Definition status (m : mbs) (p : jptr) : Z := jStatus (job_of m p).
Definition on_job (p : jptr) (f : job -> job) (m : mbs) : mbs := set_st (upd_job p f) m.
Definition on_bill (p : jptr) (f : jobBill -> jobBill) (m : mbs) : mbs := set_st (upd_bill p f) m.

(** The fields of a job that the counters depend on. *)
Definition acct_job (s : store) (p : jptr) : Accounting.jData :=
  let j := the_job s p in
  Accounting.JData (jobId j) (jStatus j) (qPtr j) (uPtr j) (userId j) (hPtr j)
    (maxNumProcessors (jobBill_of s p)).

(** ** Constants *)

Definition LOG_IT : Z := 0.
Definition SUB_HOST : Z := 0x04.
Definition SUB_CHKPNTABLE : Z := 0x800.
Definition SUB_RESTART_FORCE : Z := 0x1000.
Definition SUB_RESTART : Z := 0x2000.
Definition SUB_RERUNNABLE : Z := 0x4000.
Definition SUB_MODIFY_ONCE : Z := 0x1000000.
Definition SUB2_HOLD : Z := 0x01.
Definition SUB2_BSUB_BLOCK : Z := 0x04.
Definition EXIT_NORMAL : Z := 0x0.
Definition EXIT_KILL_ZOMBIE : Z := 0x8.
Definition EXIT_NO_MAPPING : Z := 0x40.
Definition EXIT_INIT_ENVIRON : Z := 0x100.
Definition EXIT_PRE_EXEC : Z := 0x200.
Definition PEND_JOB_PRE_EXEC : Z := 6.
Definition PEND_JOB_REQUEUED : Z := 23.
Definition PEND_QUE_PRE_FAIL : Z := 306.
Definition PEND_SBD_JOB_REQUEUE : Z := 311.
Definition PEND_USER_STOP : Z := 607.
Definition JFLAG_READY : Z := 0x008.
Definition JFLAG_SEND_SIG : Z := 0x10000.
Definition JFLAG_READY1 : Z := 0x100000.
Definition JFLAG_READY2 : Z := 0x200000.
Definition JFLAG_URGENT : Z := 0x400000.
Definition JFLAG_URGENT_NOSTOP : Z := 0x800000.
Definition JFLAG_REQUEUE : Z := 0x1000000.
Definition JFLAG_HAS_BEEN_REQUEUED : Z := 0x2000000.
Definition JFLAG_WILL_BE_PREEMPTED : Z := 0x40000000.
Definition SIG_NULL : Z := -65535.

(** ** Times *)

Definition set_startTime (v : Z) (t : times) : times :=
  Times v (endTime t) (reserveTime t) (resumeTime t) (runTime t) (updStateTime t) (requeueTime t).
Definition set_endTime (v : Z) (t : times) : times :=
  Times (startTime t) v (reserveTime t) (resumeTime t) (runTime t) (updStateTime t) (requeueTime t).
Definition set_reserveTime (v : Z) (t : times) : times :=
  Times (startTime t) (endTime t) v (resumeTime t) (runTime t) (updStateTime t) (requeueTime t).
Definition set_resumeTime (v : Z) (t : times) : times :=
  Times (startTime t) (endTime t) (reserveTime t) v (runTime t) (updStateTime t) (requeueTime t).
Definition set_runTime (v : Z) (t : times) : times :=
  Times (startTime t) (endTime t) (reserveTime t) (resumeTime t) v (updStateTime t) (requeueTime t).
Definition set_updStateTime (v : Z) (t : times) : times :=
  Times (startTime t) (endTime t) (reserveTime t) (resumeTime t) (runTime t) v (requeueTime t).
Definition set_requeueTime (v : Z) (t : times) : times :=
  Times (startTime t) (endTime t) (reserveTime t) (resumeTime t) (runTime t) (updStateTime t) v.

Definition set_options (f : Z -> Z) (b : jobBill) : jobBill :=
  JobBill (f (options b)) (options2 b) (submitTime b) (userPriority b) (maxNumProcessors b)
    (queue b) (dependCond b) (dptRoot b).
Definition set_dptRoot (v : option DepCond.dptNode) (b : jobBill) : jobBill :=
  JobBill (options b) (options2 b) (submitTime b) (userPriority b) (maxNumProcessors b)
    (queue b) (dependCond b) v.

(** ** Operations *)

Section State.
Context (cfg : config).

(** [getQUsable] and the unassigned [numSlots] of [Accounting], [chkAskedHosts]
    on a submission, [parseDepCond] on its condition, the clock ([time(0)]) and
    the global [now], the time of the last turn of the main loop. *)
Context (getQUsable : Accounting.mbd -> Accounting.qData -> Accounting.qData) (uninit : Z).
Context (askedHostsOk : jobBill -> bool) (parseDepCond : cstr -> option DepCond.dptNode).
Context (time now : Z).

Definition updJgrp (p : jptr) (oldStatus newStatus : Z) (m : mbs) : option mbs :=
  t ← JobGroup.updJgrpCountByJStatus (size (groups m)) (groups m) (jgrpNode (job_of m p))
        oldStatus newStatus;
  Some (set_groups t m).

(** mbd.policy.c, [deallocHosts]; the counters of dispatched jobs per host are
    not part of the state. *)
Definition deallocHosts (p : jptr) (m : mbs) : mbs := on_job p (set_hPtr None) m.

Definition freeReserveSlots (p : jptr) (m : mbs) : mbs :=
  if negb (has (status m p) JOB_STAT_RESERVE) then m
  else
    let m := set_acct (Accounting.updResCounters getQUsable uninit (acct m) (acct_job (st m) p)
                         (clr (status m p) JOB_STAT_RESERVE)) m in
    let m := on_job p (set_jStatus (fun s => clr s JOB_STAT_RESERVE)) m in
    deallocHosts p m.

Definition resetReserve (p : jptr) (newStatus : Z) (m : mbs) : mbs :=
  if negb (has (status m p) JOB_STAT_RESERVE) then m
  else
    let m :=
      if (has newStatus JOB_STAT_PSUSP || IS_FINISH newStatus) && has (status m p) JOB_STAT_PEND then
        let m := freeReserveSlots p m in
        let m := on_job p (set_jStatus (fun s => clr s JOB_STAT_RESERVE)) m in
        on_job p (set_tm (set_reserveTime 0)) m
      else m in
    if IS_START (status m p)
       && (has newStatus JOB_STAT_RUN || IS_FINISH newStatus || has newStatus JOB_STAT_USUSP
           || has newStatus JOB_STAT_PEND) then
      let m := set_acct (Accounting.updResCounters getQUsable uninit (acct m) (acct_job (st m) p)
                           (clr (status m p) JOB_STAT_RESERVE)) m in
      on_job p (set_jStatus (fun s => clr s JOB_STAT_RESERVE)) m
    else m.

(** mbd.policy.c, [freeReservePreemptResources], and [updateStopJobPreemptResources]:
    the flags; the amounts of preemptable resources are not part of the state. *)
Definition freeReservePreemptResources (p : jptr) (m : mbs) : mbs :=
  on_job p (set_jStatus (fun s => clr s JOB_STAT_RSRC_PREEMPT_WAIT)) m.
Definition updateStopJobPreemptResources (p : jptr) (m : mbs) : mbs :=
  on_job p (set_jFlags (fun f => clr f JFLAG_WILL_BE_PREEMPTED)) m.

Definition accumRunTime (p : jptr) (newStatus eventTime : Z) (m : mbs) : mbs :=
  let currentTime := if negb (eventTime =? 0) then eventTime else time in
  let s := status m p in
  let m :=
    if has newStatus JOB_STAT_RUN && has s JOB_STAT_PEND then on_job p (set_tm (set_runTime 0)) m
    else if has newStatus JOB_STAT_RUN && IS_SUSP s then on_job p (set_tm (set_resumeTime now)) m
    else if negb (IS_START newStatus) && IS_START s then on_job p (set_tm (set_runTime 0)) m
    else if has s JOB_STAT_RUN then
      on_job p (set_tm (fun t => set_runTime (int32 (runTime t + int32 (currentTime - updStateTime t))) t)) m
    else m in
  on_job p (set_tm (set_updStateTime currentTime)) m.

Definition setJobPendReason (p : jptr) (pendReason : Z) (m : mbs) : mbs :=
  on_job p (set_reason (fun _ => pendReason)) m.
Definition jobRequeueTimeUpdate (p : jptr) (t : Z) (m : mbs) : mbs :=
  on_job p (set_tm (set_requeueTime t)) m.

(** [cleanCandHosts] and [freeExecParams]; candidates and the strings of the
    execution environment are not part of the state. *)
Definition cleanCandHosts (p : jptr) (m : mbs) : mbs :=
  if negb (IS_PEND (status m p)) then m else on_job p (set_jFlags (fun f => clr f JFLAG_READY)) m.
Definition freeExecParams (p : jptr) (m : mbs) : mbs :=
  cleanCandHosts p (on_job p (set_hPtr None) m).

(** [copyJobBill]: the parsed condition is not part of [struct submitReq]. *)
Definition copyJobBill (b : jobBill) (old : jobBill) : jobBill := set_dptRoot (dptRoot old) b.

Definition changeJobParams (p : jptr) (m : mbs) : mbs :=
  match newSub (job_of m p) with
  | None => m
  | Some sub =>
      let once := has (options sub) SUB_MODIFY_ONCE && negb (has (status m p) JOB_STAT_MODIFY_ONCE) in
      let oldSub := if once then Some (bill_of m p) else None in
      let m := on_job p (set_jStatus (fun s => if once then Z.lor s JOB_STAT_MODIFY_ONCE
                                               else clr s JOB_STAT_MODIFY_ONCE)) m in
      let m := on_job p (set_newSub None) (on_bill p (copyJobBill sub) m) in
      if has (options sub) SUB_HOST && negb (askedHostsOk sub) then m
      else
        let root := if bool_decide (dependCond sub = []) then None else parseDepCond (dependCond sub) in
        let m := on_bill p (set_dptRoot root) m in
        let m := match oldSub with Some b => on_job p (set_newSub (Some b)) m | None => m end in
        on_job p (set_runCount (fun _ => 1)) (on_job p (set_qPtr (queue sub)) m)
  end.

Definition clear_pending_signals (e : pendEvent) : pendEvent :=
  PendEvent false SIG_NULL SIG_NULL (sig1Flags e) (sigDel e) false.

Definition handleFinishJob (p : jptr) (oldStatus eventTime : Z) (m : mbs) : mbs :=
  let j := job_of m p in
  let requeue := has (sigDel (pend j)) DEL_ACTION_REQUEUE in
  let m :=
    if (has (options (bill_of m p)) SUB_RERUNNABLE || requeue)
       && (has oldStatus JOB_STAT_ZOMBIE || requeue) && negb (has (newReason j) EXIT_KILL_ZOMBIE)
    then on_job p (set_jFlags (fun f => Z.lor f JFLAG_REQUEUE)) m else m in
  let m := on_job p (set_jStatus (fun s => clr s JOB_STAT_MIG)) m in
  let m := on_job p (set_pend clear_pending_signals) m in
  let listno := if IS_START oldStatus then SJL else PJLorMJL (st m) p in
  let m := set_st (fun s => inFinishList p (offJobList listno p s)) m in
  if has (options (bill_of m p)) SUB_MODIFY_ONCE && bool_decide (newSub (job_of m p) <> None)
  then changeJobParams p m else m.

(** The three branches of [jStatusChange] that move the job, and the last one. *)

(** The record of a start, and of the end, takes its time from the clock and leaves it in the job. Of
    the records themselves the log of the model keeps what is shown here, the status before it is masked; the end
    of an array and the accounting record are not modelled. *)
Definition log_startjob (p : jptr) (preExecStart : bool) (m : mbs) : mbs :=
  log (LOG_startjob (jobId (job_of m p)) preExecStart) (on_job p (set_tm (set_startTime time)) m).

Definition log_newstatus (p : jptr) (m : mbs) : mbs :=
  let m := if has (status m p) (Z.lor JOB_STAT_EXIT JOB_STAT_DONE)
           then on_job p (set_tm (set_endTime time)) m else m in
  log (LOG_newstatus (jobId (job_of m p)) (status m p) (newReason (job_of m p))) m.

(** A pending job starts. *)
Definition status_start (p : jptr) (eventTime : Z) (m : mbs) : mbs :=
  let m := on_job p (fun j => set_tm (set_reserveTime 0) (set_subreasons 0 (set_reason (fun _ => 0) j))) m in
  let m := if eventTime =? LOG_IT
           then log_startjob p (has (status m p) JOB_STAT_PRE_EXEC) m else m in
  let m := on_job p (set_jStatus (fun s => clr s JOB_STAT_MIG)) m in
  let m := set_st (offJobList (PJLorMJL (st m) p) p) m in
  set_st (inStartJobList cfg p) m.

(** A job finishes. *)
Definition status_finish (p : jptr) (oldStatus eventTime : Z) (m : mbs) : mbs :=
  let m :=
    if negb (has (status m p) JOB_STAT_ZOMBIE) then
      on_job p (set_reason (fun r =>
        if negb (r =? EXIT_INIT_ENVIRON) && negb (r =? EXIT_NO_MAPPING) && negb (r =? EXIT_PRE_EXEC)
        then EXIT_NORMAL else r)) m
    else m in
  let m :=
    if (has (options (bill_of m p)) SUB_INTERACTIVE || has (options2 (bill_of m p)) SUB2_BSUB_BLOCK)
       && (eventTime =? LOG_IT) && negb (has (status m p) JOB_STAT_ZOMBIE)
    then log (BREAK_callback (jobId (job_of m p)) (IS_PEND oldStatus)) m else m in
  let m := if eventTime =? LOG_IT then log_newstatus p m else m in
  let m := on_job p (set_runCount (fun r => if negb (r =? INFINIT_INT) then Z.max 0 (r - 1) else r)) m in
  handleFinishJob p oldStatus eventTime m.

(** A started job goes back to the pending state. *)
Definition status_release (p : jptr) (eventTime : Z) (m : mbs) : mbs :=
  let m := if eventTime =? LOG_IT then log_newstatus p m else m in
  let m := jobRequeueTimeUpdate p (if eventTime =? LOG_IT then time else eventTime) m in
  let m := set_st (offJobList SJL p) m in
  let r := newReason (job_of m p) in
  let m := if (r =? PEND_JOB_PRE_EXEC) || (r =? PEND_QUE_PRE_FAIL) || (r =? PEND_SBD_JOB_REQUEUE)
           then on_job p (set_tm (set_startTime 0)) m else m in
  let m :=
    if has (status m p) JOB_STAT_MIG then
      let m := if has (options (bill_of m p)) SUB_CHKPNTABLE
               then on_bill p (set_options (fun o => Z.lor o (Z.lor SUB_RESTART SUB_RESTART_FORCE))) m
               else m in
      if glMigToPendFlag cfg
      then on_job p (set_jStatus (fun s => clr s JOB_STAT_MIG)) (set_st (inPendJobList cfg p PJL time) m)
      else set_st (inPendJobList cfg p MJL 0) m
    else if r =? PEND_SBD_JOB_REQUEUE then set_st (inPendJobList cfg p PJL time) m
    else set_st (inPendJobList cfg p PJL 0) m in
  let m := on_job p (set_jStatus (fun s => clr s JOB_STAT_PRE_EXEC)) m in
  setJobPendReason p (newReason (job_of m p)) m.

(** Any other change. *)
Definition status_other (p : jptr) (newStatus eventTime : Z) (m : mbs) : mbs :=
  let m := if eventTime =? LOG_IT then log_newstatus p m else m in
  if has newStatus JOB_STAT_RUN then
    on_job p (fun j => set_jFlags (fun f => clr f JFLAG_SEND_SIG)
                         (set_tm (set_reserveTime 0) (set_subreasons 0 (set_reason (fun _ => 0) j)))) m
  else m.

(** Up to [SET_STATE]: reservations, group counters, run time. *)
Definition status_prologue (p : jptr) (newStatus eventTime : Z) (m : mbs) : option mbs :=
  let logit := eventTime =? LOG_IT in
  let m := if logit && has (status m p) JOB_STAT_RESERVE then resetReserve p newStatus m else m in
  let m :=
    if logit && has (status m p) JOB_STAT_RSRC_PREEMPT_WAIT
       && ((negb (IS_PEND newStatus) && negb (has newStatus JOB_STAT_SSUSP))
           || has newStatus JOB_STAT_PSUSP || IS_FINISH newStatus)
    then freeReservePreemptResources p m else m in
  let m :=
    if logit && has (status m p) JOB_STAT_RUN
       && (negb (has newStatus JOB_STAT_RUN) || IS_FINISH newStatus || IS_SUSP newStatus)
    then updateStopJobPreemptResources p m else m in
  m ← if 0 <=? jobId (job_of m p) then updJgrp p (status m p) newStatus m else Some m;
  let m := accumRunTime p newStatus eventTime m in
  let m :=
    if negb (Accounting.mSchedStage (acct m) =? Accounting.M_STAGE_REPLAY)
       && ((IS_PEND (status m p) && IS_START newStatus) || (IS_START (status m p) && IS_FINISH newStatus))
    then set_statusChanged m else m in
  let m := on_job p (set_jStatus (fun s => SET_STATE s newStatus)) m in
  Some (if has (status m p) JOB_STAT_PSUSP && has (options2 (bill_of m p)) SUB2_HOLD
        then on_job p (set_tm (fun t => set_startTime 0 (set_endTime 0 t))) m else m).

(** The counters of queues, users and hosts, at the end. *)
Definition status_counters (p : jptr) (oldStatus newStatus eventTime : Z) (m : mbs) : mbs :=
  let upd m := set_acct (Accounting.updCounters getQUsable uninit (acct m) (acct_job (st m) p) oldStatus) m in
  if negb (Accounting.mSchedStage (acct m) =? Accounting.M_STAGE_REPLAY) then upd m
  else if eventTime =? LOG_IT then upd m
  else if has oldStatus JOB_STAT_RUN && has oldStatus JOB_STAT_WAIT
          && has newStatus (Z.lor JOB_STAT_SSUSP JOB_STAT_USUSP) then
    let m := set_st (offJobList SJL p) m in
    let m := on_job p (set_jStatus (fun _ => if has newStatus JOB_STAT_SSUSP then JOB_STAT_PEND
                                             else JOB_STAT_PSUSP)) m in
    let m := on_job p (set_hPtr None) m in
    set_st (inPendJobList cfg p PJL 0) m
  else m.

Definition jStatusChange (p : jptr) (newStatus eventTime : Z) (m : mbs) : option mbs :=
  let oldStatus := status m p in
  if MASK_STATUS (clr newStatus JOB_STAT_UNKWN) =? MASK_STATUS (clr oldStatus JOB_STAT_UNKWN) then Some m
  else
    let newStatus := MASK_STATUS newStatus in
    m ← status_prologue p newStatus eventTime m;
    let release := has newStatus JOB_STAT_PEND && IS_START oldStatus in
    let '(m, freeExec) :=
      if IS_START newStatus && IS_PEND oldStatus then (status_start p eventTime m, false)
      else if IS_FINISH newStatus then (status_finish p oldStatus eventTime m, false)
      else if release then (status_release p eventTime m, true)
      else (status_other p newStatus eventTime m, false) in
    let m := status_counters p oldStatus newStatus eventTime m in
    Some (if freeExec then freeExecParams p m else m).

(** ** A finished job returns to its queue *)

Definition requeue_priority (m : mbs) (p : jptr) : Z :=
  if 0 <? userPriority (bill_of m p) then userPriority (bill_of m p)
  else if 0 <? maxUserPriority cfg then Z.quot (maxUserPriority cfg) 2
  else -1.

(** What is left of the last run is reset. *)
Definition requeue_reset (p : jptr) (m : mbs) : mbs :=
  let m := on_job p (set_jFlags (fun f => clr f JFLAG_REQUEUE)) m in
  let m := if bool_decide (newSub (job_of m p) <> None) then changeJobParams p m
           else m in
  let m := match dptRoot (bill_of m p) with
           | Some root => on_bill p (set_dptRoot (Some (DepCond.resetDepCond root))) m
           | None => m
           end in
  let m := on_job p (set_runCount (fun _ => 1)) m in
  let succ := has (status m p) JOB_STAT_DONE in
  let m := on_job p (set_jFlags (fun f => if succ then Z.lor f DepCond.JFLAG_LASTRUN_SUCC
                                          else clr f DepCond.JFLAG_LASTRUN_SUCC)) m in
  let m := on_job p (set_jFlags (fun f => clr (clr f (Z.lor JFLAG_READY1 JFLAG_READY2))
                                            (Z.lor JFLAG_URGENT JFLAG_URGENT_NOSTOP))) m in
  let rerun := has (options (bill_of m p)) SUB_RERUNNABLE in
  let m := if rerun && has (status m p) JOB_STAT_MIG then on_job p (set_tm (set_startTime 0)) m else m in
  if rerun && has (status m p) JOB_STAT_CHKPNTED_ONCE
  then on_job p (fun j => set_restartPid (jobPid j) j) m else m.

(** The job is pending, and linked. *)
Definition requeue_link (p : jptr) (requeueTime : Z) (m : mbs) : mbs :=
  let m := on_job p (set_jStatus (fun _ => JOB_STAT_PEND)) m in
  let m := on_job p (set_jobPriority (requeue_priority m p)) m in
  let m := set_st (offJobList FJL p) m in
  let m := set_st (inPendJobList cfg p PJL requeueTime) m in
  jobRequeueTimeUpdate p requeueTime m.

(** It is suspended where that was asked for. *)
Definition requeue_suspend (p : jptr) (m : mbs) : option mbs :=
  if sig1Flags (pend (job_of m p)) =? JOB_STAT_PSUSP then
    let m := on_job p (set_jStatus (fun _ => JOB_STAT_PSUSP)) m in
    let m := setJobPendReason p PEND_USER_STOP m in
    m ← updJgrp p JOB_STAT_PEND JOB_STAT_PSUSP m;
    Some (on_job p (set_pend (fun e => PendEvent (notSwitched e) (sig e) (sig1 e) 0 (sigDel e)
                                         (notModified e))) m)
  else Some (setJobPendReason p PEND_JOB_REQUEUED m).

(** The job is requeued as far as the lists and the group counters go. *)
Definition requeue_lists (p : jptr) (requeueTime : Z) (m : mbs) : option mbs :=
  let m := requeue_reset p m in
  m ← updJgrp p (status m p) JOB_STAT_PEND m;
  requeue_suspend p (requeue_link p requeueTime m).

Definition handleRequeueJob (p : jptr) (requeueTime : Z) (m : mbs) : option mbs :=
  m ← requeue_lists p requeueTime m;
  let m := freeExecParams p m in
  let j := acct_job (st m) p in
  let n := Accounting.maxNumProcessors j in
  let d := Accounting.Counts n n 0 0 0 0 in
  let m :=
    if negb (Accounting.mSchedStage (acct m) =? Accounting.M_STAGE_REPLAY)
    then set_acct (Accounting.updUserData uninit (Accounting.updQaccount getQUsable (acct m) j d) j d) m
    else m in
  Some (if has (jFlags (job_of m p)) JFLAG_HAS_BEEN_REQUEUED then add_numRemoveJobs m
        else on_job p (set_jFlags (fun f => Z.lor f JFLAG_HAS_BEEN_REQUEUED)) m).
End State.

(** ** The state between two operations *)

(** Every job is linked once, on a list of its state. *)
Record lists_ok (s : store) : Prop := {
  lo_nodup : forall k, NoDup (jDataList s k);
  lo_once : forall q k k', q ∈ jDataList s k -> q ∈ jDataList s k' -> k = k';
  lo_state : forall q k, q ∈ jDataList s k ->
    is_Some (jobs s !! q) /\ wf_status (jStatus (the_job s q)) /\
    k ∈ lists_of_status (jStatus (the_job s q)) }.

(** The list on which [p] is linked. *)
Definition placed (s : store) (p : jptr) (n : jlistno) : Prop := forall k, p ∈ jDataList s k <-> k = n.

(** The other jobs stand as they were, in their order. *)
Definition same_others (p : jptr) (s s' : store) : Prop :=
  forall k, remove_entry (jDataList s' k) p = remove_entry (jDataList s k) p.

Definition linked (s : store) : list jptr :=
  jDataList s SJL ++ jDataList s MJL ++ jDataList s PJL ++ jDataList s FJL.
Definition others (s : store) (p : jptr) : list jptr :=
  remove_entry (jDataList s SJL) p ++ remove_entry (jDataList s MJL) p ++
  remove_entry (jDataList s PJL) p ++ remove_entry (jDataList s FJL) p.

(** The jobs that the counters count. *)
Definition views (s : store) : list Accounting.jData := acct_job s <$> linked s.
Definition counted_ok (m : mbs) : Prop :=
  Accounting.accounted (acct m) (views (st m)) /\
  Forall (Accounting.wf_job (acct m)) (views (st m)) /\ Accounting.groups_known (acct m).

Lemma remove_entry_perm l p : NoDup l -> p ∈ l -> l ≡ₚ p :: remove_entry l p.
Proof.
  intros Hnd (l1 & l2 & ->)%list_elem_of_split. rewrite remove_nodup by done. by rewrite Permutation_middle.
Qed.

Lemma elem_of_remove l p q : q ∈ remove_entry l p <-> q <> p /\ q ∈ l.
Proof. unfold remove_entry. by rewrite list_elem_of_filter. Qed.

Lemma linked_placed s p n : (forall k, NoDup (jDataList s k)) -> placed s p n ->
  linked s ≡ₚ p :: others s p.
Proof.
  intros Hnd Hp. unfold linked, others.
  assert (forall k, k <> n -> remove_entry (jDataList s k) p = jDataList s k) as Hk.
  { intros k Hne. apply remove_absent. by rewrite (Hp k). }
  assert (jDataList s n ≡ₚ p :: remove_entry (jDataList s n) p) as Hn.
  { apply remove_entry_perm; [done|by apply (Hp n)]. }
  assert (forall R a b c d, a ≡ₚ p :: R ->
    a ++ b ++ c ++ d ≡ₚ p :: R ++ b ++ c ++ d /\ b ++ a ++ c ++ d ≡ₚ p :: b ++ R ++ c ++ d /\
    b ++ c ++ a ++ d ≡ₚ p :: b ++ c ++ R ++ d /\ b ++ c ++ d ++ a ≡ₚ p :: b ++ c ++ d ++ R) as H4.
  { intros R a b c d ->. split_and!; simpl; solve_Permutation. }
  pose proof (fun b c d => H4 _ _ b c d Hn) as H5.
  destruct n; rewrite ?(Hk SJL), ?(Hk MJL), ?(Hk PJL), ?(Hk FJL) by done; apply H5.
Qed.

Lemma lists_ok_placed s p k : lists_ok s -> p ∈ jDataList s k -> placed s p k.
Proof. intros [_ H _] Hp k'. split; [intros; by eapply H|by intros ->]. Qed.

Lemma others_not p s : p ∉ others s p.
Proof. unfold others. rewrite !elem_of_app, !elem_of_remove. tauto. Qed.

Lemma same_others_eq p s s' : same_others p s s' -> others s' p = others s p.
Proof. intros H. unfold others. by rewrite !H. Qed.

Lemma same_others_trans p s1 s2 s3 : same_others p s1 s2 -> same_others p s2 s3 -> same_others p s1 s3.
Proof. intros H1 H2 k. by rewrite H2. Qed.

Lemma same_others_elem p s s' q k : same_others p s s' -> q <> p ->
  q ∈ jDataList s' k <-> q ∈ jDataList s k.
Proof.
  intros H Hq. pose proof (elem_of_remove (jDataList s' k) p q). pose proof (elem_of_remove (jDataList s k) p q).
  rewrite H in *. tauto.
Qed.

(** ** Operations that move nothing *)

(** A submission for one run is to be taken back when the job finishes. *)
Definition once (s : store) (p : jptr) : bool :=
  has (options (jobBill_of s p)) SUB_MODIFY_ONCE && bool_decide (newSub (the_job s p) <> None).

(** What an operation on [p] may do besides moving it: its view changes in the
    state only, the others not at all. *)
Record quiet (p : jptr) (s s' : store) : Prop := {
  qt_others : forall q, q <> p -> acct_job s' q = acct_job s q /\ the_job s' q = the_job s q;
  qt_self : acct_job s' p = Accounting.j_set_status (jStatus (the_job s' p)) (acct_job s p);
  qt_node : jgrpNode (the_job s' p) = jgrpNode (the_job s p);
  qt_once : once s' p = once s p;
  qt_alive : forall q, is_Some (jobs s !! q) -> is_Some (jobs s' !! q) }.

Lemma quiet_refl p s : quiet p s s.
Proof. split; try done. Qed.

Lemma quiet_trans p s1 s2 s3 : quiet p s1 s2 -> quiet p s2 s3 -> quiet p s1 s3.
Proof.
  intros [A1 B1 C1 E1 D1] [A2 B2 C2 E2 D2]. split; [| |congruence|congruence|auto].
  - intros q Hq. destruct (A1 q Hq), (A2 q Hq). split; congruence.
  - by rewrite B2, B1.
Qed.

(** Updates that leave alone what the counters look at, except for the state. *)
Definition mild (f : job -> job) : Prop :=
  forall j, jobId (f j) = jobId j /\ userId (f j) = userId j /\ qPtr (f j) = qPtr j /\
    uPtr (f j) = uPtr j /\ hPtr (f j) = hPtr j /\ shared (f j) = shared j /\ jgrpNode (f j) = jgrpNode j /\
    newSub (f j) = newSub j.

Lemma the_job_self p f s : is_Some (jobs s !! p) -> the_job (upd_job p f s) p = f (the_job s p).
Proof.
  intros [j Hj]. unfold the_job, upd_job. simpl. by rewrite !lookup_total_alt, lookup_alter_eq, Hj.
Qed.

Lemma the_job_other p f s q : q <> p -> the_job (upd_job p f s) q = the_job s q.
Proof. intros H. destruct (the_job_upd p f s q) as [|[-> _]]; done. Qed.

Lemma alive_upd p f s q : is_Some (jobs s !! q) -> is_Some (jobs (upd_job p f s) !! q).
Proof.
  intros [j Hj]. simpl. destruct (decide (p = q)) as [->|Hne]; [rewrite lookup_alter_eq|rewrite lookup_alter_ne by done];
    rewrite Hj; simpl; eauto.
Qed.

Lemma quiet_job p f s : mild f -> is_Some (jobs s !! p) ->
  quiet p s (upd_job p f s) /\ jStatus (the_job (upd_job p f s) p) = jStatus (f (the_job s p)).
Proof.
  intros Hf Hp. split; [|by rewrite the_job_self]. destruct (Hf (the_job s p)) as (E1 & E2 & E3 & E4 & E5 & E6 & E7 & E8).
  split.
  - intros q Hq. unfold acct_job, jobBill_of. by rewrite !the_job_other.
  - unfold acct_job, jobBill_of. rewrite the_job_self by done. rewrite E1, E2, E3, E4, E5, E6. done.
  - by rewrite the_job_self.
  - unfold once, jobBill_of. by rewrite the_job_self, E6, E8.
  - intros q. apply alive_upd.
Qed.

Lemma quiet_bill p p' f s :
  (forall b, maxNumProcessors (f b) = maxNumProcessors b /\
             has (options (f b)) SUB_MODIFY_ONCE = has (options b) SUB_MODIFY_ONCE) ->
  quiet p s (upd_bill p' f s) /\ jStatus (the_job (upd_bill p' f s) p) = jStatus (the_job s p).
Proof.
  intros Hf.
  assert (forall q, jobBill_of (upd_bill p' f s) q = jobBill_of s q \/
                    jobBill_of (upd_bill p' f s) q = f (jobBill_of s q)) as H.
  { intros q. unfold jobBill_of, upd_bill. simpl.
    change (the_job _ q) with (the_job s q) at 1 3. rewrite !lookup_total_alt.
    set (k := shared (the_job s p')). destruct (decide (k = shared (the_job s q))) as [<-|Hne].
    - rewrite lookup_alter_eq. destruct (bills s !! k); [by right|by left].
    - rewrite lookup_alter_ne by done. by left. }
  assert (forall q, acct_job (upd_bill p' f s) q = acct_job s q) as Ha.
  { intros q. unfold acct_job. f_equal. destruct (H q) as [->| ->]; [done|apply Hf]. }
  split; [|done]. split; [intros; by rewrite Ha|by rewrite Ha|done| |done].
  unfold once. destruct (H p) as [->| ->]; [done|by rewrite (proj2 (Hf _))].
Qed.

Lemma quiet_set_list p n l s : quiet p s (set_list n l s) /\
  jStatus (the_job (set_list n l s) p) = jStatus (the_job s p).
Proof.
  assert (forall q, the_job (set_list n l s) q = the_job s q /\ acct_job (set_list n l s) q = acct_job s q) as H.
  { intros q. unfold acct_job. by rewrite the_job_set_list, jobBill_of_set_list. }
  split; [|by rewrite (proj1 (H p))]. split.
  - intros q _. by destruct (H q) as [-> ->].
  - destruct (H p) as [-> ->]. done.
  - by destruct (H p) as [-> _].
  - unfold once. by rewrite the_job_set_list, jobBill_of_set_list.
  - intros q. by rewrite (proj1 (set_list_jobs n l s)).
Qed.

(** The class of the state and the reservation do not change. *)
Definition same_state (s s' : Z) : Prop :=
  status_of s' = status_of s /\ has s' JOB_STAT_RESERVE = has s JOB_STAT_RESERVE.

(** An operation that moves nothing and leaves the class of the state. *)
Record still (p : jptr) (m m' : mbs) : Prop := {
  sl_quiet : quiet p (st m) (st m');
  sl_state : same_state (status m p) (status m' p);
  sl_lists : lists (st m') = lists (st m);
  sl_acct : acct m' = acct m;
  sl_groups : groups m' = groups m }.

Definition alive (p : jptr) (m : mbs) : Prop := is_Some (jobs (st m) !! p).

(** Updates that do not touch the class of the state either. *)
Definition gentle (f : job -> job) : Prop :=
  mild f /\ forall j, same_state (jStatus j) (jStatus (f j)).

Lemma same_state_refl s : same_state s s.
Proof. done. Qed.

Lemma same_state_trans s1 s2 s3 : same_state s1 s2 -> same_state s2 s3 -> same_state s1 s3.
Proof. intros [] []. split; congruence. Qed.

Lemma still_refl p m : still p m m.
Proof. by split. Qed.

Lemma still_trans p m1 m2 m3 : still p m1 m2 -> still p m2 m3 -> still p m1 m3.
Proof.
  intros [] []. split; [by eapply quiet_trans|by eapply same_state_trans|congruence..].
Qed.

Lemma still_alive p m m' : still p m m' -> alive p m -> alive p m'.
Proof. intros [[_ _ _ _ H] _ _ _ _]. apply H. Qed.

Lemma still_on_job p m m1 f : still p m m1 -> alive p m -> gentle f -> still p m (on_job p f m1).
Proof.
  intros H Ha [Hf Hs]. eapply still_trans; [exact H|]. pose proof (still_alive _ _ _ H Ha) as Ha1.
  destruct (quiet_job p f (st m1) Hf Ha1) as [Hq Hst]. split; try done.
  unfold status, job_of in *. simpl. rewrite Hst. apply Hs.
Qed.

Lemma still_on_bill p m m1 f : still p m m1 ->
  (forall b, maxNumProcessors (f b) = maxNumProcessors b /\
             has (options (f b)) SUB_MODIFY_ONCE = has (options b) SUB_MODIFY_ONCE) ->
  still p m (on_bill p f m1).
Proof.
  intros H Hf. eapply still_trans; [exact H|]. destruct (quiet_bill p p f (st m1) Hf) as [Hq Hst].
  split; try done.
Qed.

Lemma still_log p m m1 e : still p m m1 -> still p m (log e m1).
Proof. intros [H1 H2 H3 H4 H5]. by split. Qed.

Lemma still_flag p m m1 : still p m m1 -> still p m (set_statusChanged m1).
Proof. intros [H1 H2 H3 H4 H5]. by split. Qed.

Lemma same_state_clr s b : Z.land b MASK_INT_JOB_STAT = 0 -> Z.land b JOB_STAT_RESERVE = 0 ->
  same_state s (clr s b).
Proof.
  intros H1 H2. split; [|by apply has_clr_disjoint]. unfold status_of, MASK_STATUS.
  unfold clr at 1. rewrite <- Z.land_assoc, (Z.land_comm (Z.lnot _)), Z.land_assoc.
  rewrite land_clr_disjoint by done. unfold clr. rewrite <- !Z.land_assoc. f_equal.
Qed.

Lemma same_state_lor s b : Z.land b MASK_INT_JOB_STAT = 0 -> Z.land b JOB_STAT_RESERVE = 0 ->
  same_state s (Z.lor s b).
Proof.
  intros H1 H2. split.
  - unfold status_of, MASK_STATUS, clr. rewrite <- !Z.land_assoc. apply land_lor_disjoint.
    by rewrite (Z.land_comm (Z.lnot _)), Z.land_assoc, H1.
  - unfold has. by rewrite land_lor_disjoint.
Qed.

(** Proves [gentle] of the updates of the code. *)
Ltac gentle :=
  lazymatch goal with
  | |- gentle _ =>
      split; [by intros ?j; split_and!|];
      intros ?j; cbn [jStatus set_jStatus set_tm set_reason set_subreasons set_jFlags set_runCount
        set_jobPriority set_restartPid set_pend set_newSub];
      first [ apply same_state_refl | by apply same_state_clr | by apply same_state_lor
            | case_if; first [by apply same_state_clr | by apply same_state_lor | apply same_state_refl] ]
  end.

Ltac bill_once :=
  first [reflexivity | cbn [options set_options]; rewrite has_lor; apply orb_false_r].

(** Proves [still p m m'] for a composition of such updates: a local definition
    is proved first and then forgotten. *)
Ltac still :=
  lazymatch goal with
  | |- still ?p ?m (let x := ?e in @?b x) =>
      lazymatch type of e with
      | mbs =>
          let y := fresh "m" in
          assert (still p m e); [still|set (y := e) in *; clearbody y; change (still p m (b y)); cbv beta; still]
      | _ => let y := fresh "v" in set (y := e); change (still p m (b y)); cbv beta; still
      end
  | |- still ?p ?m (if ?b then _ else _) => destruct b; still
  | |- still ?p ?m (match ?b with Some _ => _ | None => _ end) => destruct b; still
  | |- still ?p ?m (on_job _ _ _) => apply still_on_job; [still|assumption|gentle]
  | |- still ?p ?m (on_bill _ _ _) => apply still_on_bill; [still|intros ?b; split; [reflexivity|bill_once]]
  | |- still ?p ?m (log _ _) => apply still_log; still
  | |- still ?p ?m (set_statusChanged _) => apply still_flag; still
  | |- still ?p ?m ?m => apply still_refl
  | |- _ => assumption
  end.

(** ** Operations that move a job *)

(** The job is taken from its list, or linked on one, and the rest stays. *)
Record relinked (p : jptr) (n : option jlistno) (m m' : mbs) : Prop := {
  rl_quiet : quiet p (st m) (st m');
  rl_state : same_state (status m p) (status m' p);
  rl_others : same_others p (st m) (st m');
  rl_nodup : forall k, NoDup (jDataList (st m') k);
  rl_placed : forall k, p ∈ jDataList (st m') k <-> Some k = n;
  rl_acct : acct m' = acct m;
  rl_groups : groups m' = groups m }.

Lemma relinked_still p n m m1 m2 : relinked p n m m1 -> still p m1 m2 -> relinked p n m m2.
Proof.
  intros [R1 R2 R3 R4 R5 R6 R7] [S1 S2 S3 S4 S5].
  assert (forall k, jDataList (st m2) k = jDataList (st m1) k) as Hk by (intros k; unfold jDataList; by rewrite S3).
  split; [by eapply quiet_trans|by eapply same_state_trans| | | |congruence|congruence].
  - intros k. by rewrite Hk.
  - intros k. by rewrite Hk.
  - intros k. by rewrite Hk.
Qed.

Lemma still_relinked p n m m1 m2 : still p m m1 -> relinked p n m1 m2 -> relinked p n m m2.
Proof.
  intros [S1 S2 S3 S4 S5] [R1 R2 R3 R4 R5 R6 R7].
  split; [by eapply quiet_trans|by eapply same_state_trans| |done|done|congruence|congruence].
  intros k. rewrite R3. unfold jDataList. by rewrite S3.
Qed.

Lemma relinked_trans p n1 n2 m1 m2 m3 : relinked p n1 m1 m2 -> relinked p n2 m2 m3 -> relinked p n2 m1 m3.
Proof.
  intros [R1 R2 R3 R4 R5 R6 R7] [S1 S2 S3 S4 S5 S6 S7].
  split; [by eapply quiet_trans|by eapply same_state_trans|by eapply same_others_trans|done|done|congruence..].
Qed.

(** A list of the job's place loses it. *)
Lemma off_relinked p n m : (forall k, NoDup (jDataList (st m) k)) -> placed (st m) p n ->
  relinked p None m (set_st (offJobList n p) m).
Proof.
  intros Hnd Hp. destruct (quiet_set_list p n (remove_entry (jDataList (st m) n) p) (st m)) as [Hq Hs].
  assert (forall k, remove_entry (jDataList (st m) k) p = jDataList (offJobList n p (st m)) k) as Hk.
  { intros k. unfold offJobList. rewrite jDataList_set. case_decide as Hkn; [by subst|].
    apply remove_absent. by rewrite (Hp k). }
  assert (forall k, p ∉ remove_entry (jDataList (st m) k) p) as Hno by (intros k; rewrite elem_of_remove; tauto).
  split; try done.
  - unfold status, job_of. simpl. unfold offJobList. by rewrite Hs.
  - intros k. simpl. rewrite <- Hk. by apply remove_absent.
  - intros k. simpl. rewrite <- Hk. by apply NoDup_filter.
  - intros k. simpl. rewrite <- Hk. split; [intros H; by apply Hno in H|done].
Qed.

(** A list gains it. *)
Lemma link_relinked p n x m : (forall k, NoDup (jDataList (st m) k)) ->
  (forall k, p ∉ jDataList (st m) k) ->
  relinked p (Some n) m (set_st (fun s => set_list n (insert_before (jDataList s n) x p) s) m).
Proof.
  intros Hnd Hp. destruct (quiet_set_list p n (insert_before (jDataList (st m) n) x p) (st m)) as [Hq Hs].
  split; try done.
  - unfold status, job_of. simpl. by rewrite Hs.
  - intros k. simpl. rewrite jDataList_set. case_decide as Hkn; [subst|done].
    rewrite remove_inserted by done. symmetry. by apply remove_absent.
  - intros k. simpl. rewrite jDataList_set. case_decide; [|done]. rewrite insert_before_perm. by constructor.
  - intros k. simpl. rewrite jDataList_set. case_decide as Hkn.
    + rewrite insert_before_perm, elem_of_cons. split; [by subst|by left].
    + split; [intros H; by apply Hp in H|intros [= ->]; done].
Qed.

(** [inPendJobList] links the job somewhere. *)
Lemma inPendJobList_link cfg p n rt m : alive p m ->
  exists x m1, still p m m1 /\
    set_st (inPendJobList cfg p n rt) m =
    set_st (fun s => set_list n (insert_before (jDataList s n) x p) s) m1.
Proof.
  intros Ha. unfold inPendJobList, set_st. simpl.
  set (ct := if negb (rt =? 0) && _ && _ then _ else _).
  set (st1 := if has _ _ then _ else st m). destruct (pend_scan cfg st1 p ct (jDataList st1 n) None) as [rest lastJob].
  eexists _, (Mbs st1 (acct m) (groups m) (elog m) (statusChanged m) (numRemoveJobs m)).
  split; [|reflexivity]. unfold st1. destruct (has _ _).
  - change (still p m (on_job p (set_pend (set_sigDel (fun s => clr s DEL_ACTION_REQUEUE))) m)). still.
  - destruct m. apply still_refl.
Qed.

Lemma inPend_relinked cfg p n rt m : alive p m -> (forall k, NoDup (jDataList (st m) k)) ->
  (forall k, p ∉ jDataList (st m) k) -> relinked p (Some n) m (set_st (inPendJobList cfg p n rt) m).
Proof.
  intros Ha Hnd Hp. destruct (inPendJobList_link cfg p n rt m Ha) as (x & m1 & Hs & ->).
  eapply still_relinked; [exact Hs|]. destruct Hs as [_ _ Hl _ _].
  apply link_relinked; intros k; unfold jDataList; rewrite Hl; [apply (Hnd k)|apply (Hp k)].
Qed.

(** From one list to another. *)
Lemma relinked_absent p m m' : relinked p None m m' -> forall k, p ∉ jDataList (st m') k.
Proof. intros [_ _ _ _ H _ _] k. by rewrite H. Qed.

Lemma relinked_alive p n m m' : relinked p n m m' -> alive p m -> alive p m'.
Proof. intros [[_ _ _ _ H] _ _ _ _ _ _]. apply H. Qed.

Lemma off_on p n m m1 : relinked p None m m1 ->
  (forall x, relinked p (Some n) m (set_st (fun s => set_list n (insert_before (jDataList s n) x p) s) m1)).
Proof.
  intros H x. eapply relinked_trans; [exact H|]. apply link_relinked; [exact (rl_nodup _ _ _ _ H)|by eapply relinked_absent].
Qed.

Lemma PJLorMJL_placed s p n : placed s p n -> n = PJL \/ n = MJL -> PJLorMJL s p = n.
Proof.
  intros Hp Hn. unfold PJLorMJL. destruct Hn as [->| ->].
  - rewrite bool_decide_false; [done|]. by rewrite (Hp MJL).
  - rewrite bool_decide_true; [done|]. by rewrite (Hp MJL).
Qed.

Lemma still_placed p m m' n : still p m m' -> placed (st m) p n -> placed (st m') p n.
Proof. intros [_ _ Hl _ _] Hp k. unfold jDataList. rewrite Hl. apply Hp. Qed.

Lemma still_nodup p m m' : still p m m' -> (forall k, NoDup (jDataList (st m) k)) ->
  forall k, NoDup (jDataList (st m') k).
Proof. intros [_ _ Hl _ _] Hp k. unfold jDataList. rewrite Hl. apply Hp. Qed.

(** ** The branches of [jStatusChange] *)

Section Branches.
Context (cfg : config).
Context (getQUsable : Accounting.mbd -> Accounting.qData -> Accounting.qData) (uninit : Z).
Context (askedHostsOk : jobBill -> bool) (parseDepCond : cstr -> option DepCond.dptNode).
Context (time now : Z) (p : jptr).
Implicit Types (m : mbs).

Lemma status_start_relinked m n eventTime : alive p m -> (forall k, NoDup (jDataList (st m) k)) ->
  placed (st m) p n -> n = PJL \/ n = MJL ->
  relinked p (Some SJL) m (status_start cfg time p eventTime m).
Proof.
  intros Ha Hnd Hp Hn. unfold status_start, log_startjob.
  set (m0 := on_job p _ m). set (m1 := if _ =? _ then _ else m0). set (m2 := on_job p _ m1).
  assert (still p m m2) as H2.
  { unfold m2. apply still_on_job; [|done|gentle]. unfold m1. assert (still p m m0) by (unfold m0; still).
    destruct (_ =? _); still. }
  pose proof (still_placed _ _ _ _ H2 Hp) as Hp2. pose proof (still_nodup _ _ _ H2 Hnd) as Hnd2.
  cbv zeta. rewrite (PJLorMJL_placed _ _ _ Hp2 Hn). eapply still_relinked; [exact H2|].
  apply (off_on p SJL). by apply off_relinked.
Qed.

Lemma still_once m m' : still p m m' -> once (st m') p = once (st m) p.
Proof. intros [[_ _ _ H _] _ _ _ _]. exact H. Qed.

Lemma inFinish_relinked m m1 : relinked p None m m1 ->
  relinked p (Some FJL) m (set_st (inFinishList p) m1).
Proof.
  intros H. pose proof (off_on p FJL m m1 H (head (jDataList (st m1) FJL))) as Ho.
  assert (insert_before (jDataList (st m1) FJL) (head (jDataList (st m1) FJL)) p = p :: jDataList (st m1) FJL) as E.
  { destruct (jDataList (st m1) FJL); simpl; [done|]. by case_decide. }
  unfold set_st, inFinishList in *. by rewrite E in Ho.
Qed.

Lemma status_finish_relinked m n oldStatus eventTime : alive p m ->
  (forall k, NoDup (jDataList (st m) k)) -> placed (st m) p n -> once (st m) p = false ->
  (IS_START oldStatus = true /\ n = SJL) \/ (IS_START oldStatus = false /\ (n = PJL \/ n = MJL)) ->
  relinked p (Some FJL) m (status_finish askedHostsOk parseDepCond time p oldStatus eventTime m).
Proof.
  intros Ha Hnd Hp Ho Hn. unfold status_finish, handleFinishJob.
  set (m0 := if negb (has (status m p) _) then _ else m).
  assert (still p m m0) as H0 by (unfold m0; still). clearbody m0. cbv zeta.
  set (m1 := if _ && _ then _ else m0). assert (still p m m1) as H1 by (unfold m1; still). clearbody m1.
  set (m2 := if _ =? _ then _ else m1).
  assert (still p m m2) as H2 by (unfold m2, log_newstatus; still). clearbody m2.
  set (m3 := on_job p _ m2). assert (still p m m3) as H3 by (unfold m3; still). clearbody m3.
  set (m4 := if _ && _ then _ else m3). assert (still p m m4) as H4 by (unfold m4; still). clearbody m4.
  set (m5 := on_job p (set_pend _) _). assert (still p m m5) as H5 by (unfold m5; still). clearbody m5.
  pose proof (still_placed _ _ _ _ H5 Hp) as Hp5. pose proof (still_nodup _ _ _ H5 Hnd) as Hnd5.
  assert ((if IS_START oldStatus then SJL else PJLorMJL (st m5) p) = n) as ->.
  { destruct Hn as [[-> ->]|[-> Hn]]; [done|by apply PJLorMJL_placed]. }
  assert (relinked p (Some FJL) m (set_st (fun s => inFinishList p (offJobList n p s)) m5)) as HR.
  { eapply still_relinked; [exact H5|]. by apply (inFinish_relinked _ (set_st (offJobList n p) m5)), off_relinked. }
  set (m6 := set_st _ m5) in *. clearbody m6.
  assert (once (st m6) p = false) as Ho6 by (destruct HR as [[_ _ _ H _] _ _ _ _ _ _]; by rewrite H).
  unfold once in Ho6. fold (bill_of m6 p) (job_of m6 p) in Ho6. by rewrite Ho6.
Qed.

Lemma status_release_relinked m eventTime : alive p m ->
  (forall k, NoDup (jDataList (st m) k)) -> placed (st m) p SJL ->
  exists n, (n = PJL \/ n = MJL) /\ relinked p (Some n) m (status_release cfg time p eventTime m).
Proof.
  intros Ha Hnd Hp. unfold status_release, log_newstatus, jobRequeueTimeUpdate, setJobPendReason. cbv zeta.
  set (m0 := if _ =? _ then _ else m). assert (still p m m0) as H0 by (unfold m0; still). clearbody m0.
  set (m1 := on_job p _ m0). assert (still p m m1) as H1 by (unfold m1; still). clearbody m1.
  assert (relinked p None m (set_st (offJobList SJL p) m1)) as H2.
  { eapply still_relinked; [exact H1|]. apply off_relinked; [by eapply still_nodup|by eapply still_placed]. }
  set (m2 := set_st _ m1) in *. clearbody m2.
  pose proof (relinked_alive _ _ _ _ H2 Ha) as Ha2.
  set (m3 := if _ || _ then _ else m2). assert (still p m2 m3) as H3 by (unfold m3; still). clearbody m3.
  pose proof (relinked_still _ _ _ _ _ H2 H3) as HR3. pose proof (relinked_alive _ _ _ _ HR3 Ha) as Ha3.
  assert (forall m4 n rt, still p m3 m4 -> relinked p (Some n) m (set_st (inPendJobList cfg p n rt) m4)) as Hin.
  { intros m4 n rt H4. pose proof (relinked_still _ _ _ _ _ HR3 H4) as HR4. eapply relinked_trans; [exact HR4|].
    apply inPend_relinked; [by eapply still_alive|apply (rl_nodup _ _ _ _ HR4)|by eapply relinked_absent]. }
  assert (forall n m5 m6, relinked p (Some n) m m5 -> (alive p m5 -> still p m5 m6) -> relinked p (Some n) m m6) as Hthen.
  { intros n m5 m6 HR5 Hs. eapply relinked_still; [exact HR5|]. apply Hs. by eapply relinked_alive. }
  destruct (has (status m3 p) JOB_STAT_MIG).
  - set (m4 := if has (options _) _ then _ else m3). assert (still p m3 m4) as H4 by (unfold m4; still). clearbody m4.
    destruct (glMigToPendFlag cfg).
    + exists PJL. split; [by left|]. eapply Hthen; [by apply (Hin m4 PJL time)|]. intros ?. still.
    + exists MJL. split; [by right|]. eapply Hthen; [by apply (Hin m4 MJL 0)|]. intros ?. still.
  - exists PJL. split; [by left|].
    destruct (_ =? PEND_SBD_JOB_REQUEUE); cbv zeta.
    + eapply Hthen; [apply (Hin m3 PJL time), still_refl|]. intros ?. still.
    + eapply Hthen; [apply (Hin m3 PJL 0), still_refl|]. intros ?. still.
Qed.

Lemma status_other_still m newStatus eventTime : alive p m ->
  still p m (status_other time p newStatus eventTime m).
Proof. intros Ha. unfold status_other, log_newstatus. still. Qed.
End Branches.
