(* ===== verification/JobChange.v ===== *)
(** * What a change of state preserves

    [JobState] defines [jStatusChange]; this file shows that one change of state
    keeps three things consistent at once: the four job lists, the counters of
    queues, users, user groups and hosts, and the counters of the job groups. *)

From S2P Require Import Prelude JobStatus JobLists JobState.
From S2P Require Accounting JobGroup DepCond.

(** ** The counters of one job and of the rest *)

Lemma total_perm n (L1 L2 : list (list cstr * Accounting.counts)) : L1 ≡ₚ L2 ->
  Accounting.total n L1 = Accounting.total n L2.
Proof.
  induction 1 as [|[ts w] L1 L2 _ IH|[t1 w1] [t2 w2] L|L1 L2 L3 _ IH1 _ IH2]; cbn [Accounting.total].
  - done.
  - by rewrite IH.
  - rewrite !Accounting.cadd_assoc. f_equal. apply Accounting.cadd_comm.
  - by rewrite IH1.
Qed.

Lemma recount_perm M (L1 L2 : list (list cstr * Accounting.counts)) : L1 ≡ₚ L2 ->
  Accounting.recount M L1 -> Accounting.recount M L2.
Proof. intros HP HR n c Hn. rewrite <- (total_perm n _ _ HP). by apply HR. Qed.

Lemma accounted_perm a J1 J2 : J1 ≡ₚ J2 -> Accounting.accounted a J1 -> Accounting.accounted a J2.
Proof. intros HP [H1 H2 H3]. split; (eapply recount_perm; [by apply fmap_Permutation|done]). Qed.

(** The counters are the recount over [j] and [rest]. *)
Record book (a : Accounting.mbd) (j : Accounting.jData) (rest : list Accounting.jData) : Prop := {
  bk_accounted : Accounting.accounted a (j :: rest);
  bk_jobs : Forall (Accounting.wf_job a) (j :: rest);
  bk_groups : Accounting.groups_known a }.

Definition rest_of (m : mbs) (p : jptr) : list Accounting.jData := acct_job (st m) <$> others (st m) p.

Lemma counted_ok_book m p n : (forall k, NoDup (jDataList (st m) k)) -> placed (st m) p n ->
  counted_ok m <-> book (acct m) (acct_job (st m) p) (rest_of m p).
Proof.
  intros Hnd Hp. pose proof (linked_placed _ _ _ Hnd Hp) as HP.
  apply (fmap_Permutation (acct_job (st m))) in HP. fold (views (st m)) in HP. cbn [fmap list_fmap] in HP.
  fold (acct_job (st m) <$> others (st m) p) (rest_of m p) in HP. unfold counted_ok. split.
  - intros (Ha & Hf & Hg). split; [by eapply accounted_perm|by rewrite <- HP|done].
  - intros [Ha Hf Hg]. split; [by eapply accounted_perm|]. by rewrite HP.
Qed.

(** The class of the state is all the weights depend on. *)
Lemma weights_same_state s s' : same_state s s' ->
  (forall num req, Accounting.slot_weight s' num req = Accounting.slot_weight s num req) /\
  Accounting.host_weight s' = Accounting.host_weight s.
Proof. intros [H1 H2]. unfold Accounting.slot_weight, Accounting.host_weight. by rewrite H1, H2. Qed.

Lemma book_status a j s rest : same_state (Accounting.jStatus j) s -> book a j rest ->
  book a (Accounting.j_set_status s j) rest.
Proof.
  intros Hs [Ha Hf Hg]. destruct (weights_same_state _ _ Hs) as [Hw Hh].
  assert (forall f : Accounting.jData -> list cstr * Accounting.counts,
            f (Accounting.j_set_status s j) = f j -> f <$> (Accounting.j_set_status s j :: rest) = f <$> (j :: rest)) as Hm.
  { intros f Hfj. cbn [fmap list_fmap]. by rewrite Hfj. }
  split; [|by inversion Hf as [|? ? []]; subst; constructor|done].
  destruct Ha. split; rewrite Hm; try done;
    unfold Accounting.q_item, Accounting.u_item, Accounting.h_item, Accounting.job_weight; simpl; f_equal; auto.
Qed.

(** A pending job that has reserved nothing holds no slots. *)
Definition no_hosts (j : Accounting.jData) : Accounting.jData :=
  Accounting.JData (Accounting.jobId j) (Accounting.jStatus j) (Accounting.qPtr j) (Accounting.uPtr j)
    (Accounting.userId j) None (Accounting.maxNumProcessors j).

Lemma pending_weights s : IS_PEND s = true -> wf_status s -> has s JOB_STAT_RESERVE = false ->
  Accounting.host_weight s = Accounting.czero /\
  forall num num' req, Accounting.slot_weight s num req = Accounting.slot_weight s num' req.
Proof.
  intros Hp Hw Hr. unfold Accounting.host_weight, Accounting.slot_weight. rewrite Hr.
  assert (status_of s = JOB_STAT_PEND \/ status_of s = JOB_STAT_PSUSP) as [-> | ->]; [|done..].
  revert Hp. destruct (wf_status_cases _ Hw) as [H|[H|[H|[H|[H|[H|H]]]]]]; auto; unfold IS_PEND;
    rewrite !(has_status_of s) by reflexivity; by rewrite H.
Qed.

Lemma book_no_hosts a j rest : IS_PEND (Accounting.jStatus j) = true -> wf_status (Accounting.jStatus j) ->
  has (Accounting.jStatus j) JOB_STAT_RESERVE = false -> 0 <= Accounting.maxNumProcessors j ->
  book a j rest -> book a (no_hosts j) rest.
Proof.
  intros Hp Hw Hr Hn [[Hq Hu Hh] Hf Hg]. destruct (pending_weights _ Hp Hw Hr) as [Hhw Hsw].
  assert (Accounting.job_weight (no_hosts j) = Accounting.job_weight j) as Hj by apply Hsw.
  split; [split| |done].
  - cbn [fmap list_fmap]. unfold Accounting.q_item at 1. rewrite Hj. exact Hq.
  - cbn [fmap list_fmap]. unfold Accounting.u_item at 1. rewrite Hj. exact Hu.
  - cbn [fmap list_fmap] in *. unfold Accounting.h_item at 1. unfold Accounting.h_item at 1 in Hh.
    simpl in *. rewrite Hhw in *.
    exact (Accounting.recount_zero _ [] _ [] _ Hh).
  - inversion Hf as [|? ? [H1 H2 H3] Hf']; subst. constructor; [|done]. split; [done|done|constructor].
Qed.

(** [updCounters] reads the class of the old state only. *)
Lemma updCounters_old Q uninit a j s s' : status_of s = status_of s' ->
  Accounting.updCounters Q uninit a j s = Accounting.updCounters Q uninit a j s'.
Proof.
  intros H. unfold Accounting.updCounters, IS_FINISH, IS_PEND. fold (status_of s) (status_of s').
  rewrite !(has_status_of s), !(has_status_of s') by reflexivity. by rewrite H.
Qed.

Section Counters.
Context (getQUsable : Accounting.mbd -> Accounting.qData -> Accounting.qData) (uninit : Z).
Hypothesis getQUsable_cnt : forall a q, Accounting.q_cnt (getQUsable a q) = Accounting.q_cnt q.

Lemma step_env m m' j s0 s1 : Accounting.weight_step m m' j s0 s1 -> Accounting.same_env m m'.
Proof.
  intros (d & dh & [Hs|[-> _]] & _); [by apply (Accounting.js_env _ _ _ _ _ Hs)|apply Accounting.same_env_refl].
Qed.

Lemma book_step a a' j s1 rest : book a j rest ->
  Accounting.weight_step a a' (Accounting.j_set_status s1 j) (Accounting.jStatus j) s1 ->
  book a' (Accounting.j_set_status s1 j) rest /\ Accounting.same_env a a'.
Proof.
  intros [Ha Hf Hg] Hs. pose proof (step_env _ _ _ _ _ Hs) as He. split; [|done]. split.
  - by eapply (Accounting.weight_step_accounted _ _ [] j s1 rest).
  - eapply Forall_impl; [|intros x; by apply Accounting.same_env_job].
    inversion Hf as [|? ? []]; subst. by constructor.
  - by eapply Accounting.same_env_groups.
Qed.

(** The final update, where the job has got its new state. *)
Lemma book_updCounters a j s0 old rest : book a (Accounting.j_set_status s0 j) rest ->
  status_of s0 = status_of old -> wf_status s0 -> wf_status (Accounting.jStatus j) ->
  has s0 JOB_STAT_RESERVE = false -> has (Accounting.jStatus j) JOB_STAT_RESERVE = false ->
  Accounting.counted s0 (Accounting.jStatus j) = true ->
  book (Accounting.updCounters getQUsable uninit a j old) j rest /\
  Accounting.same_env a (Accounting.updCounters getQUsable uninit a j old).
Proof.
  intros Hb Hs Hw0 Hw1 Hr0 Hr1 Hc. rewrite <- (updCounters_old _ _ _ _ s0) by done.
  assert (Accounting.j_set_status (Accounting.jStatus j) (Accounting.j_set_status s0 j) = j) as Hj by by destruct j.
  pose proof (book_step a (Accounting.updCounters getQUsable uninit a j s0) _ (Accounting.jStatus j) rest Hb) as H.
  rewrite Hj in H. apply H. apply (Accounting.updCounters_weights getQUsable uninit getQUsable_cnt); try done.
  - pose proof (bk_jobs _ _ _ Hb) as Hf. by inversion Hf as [|? ? []]; subst.
  - apply (bk_groups _ _ _ Hb).
Qed.

(** A reservation is given up. *)
Lemma book_release a j rest : book a j rest -> wf_status (Accounting.jStatus j) ->
  has (Accounting.jStatus j) JOB_STAT_RESERVE = true ->
  let s1 := clr (Accounting.jStatus j) JOB_STAT_RESERVE in
  book (Accounting.updResCounters getQUsable uninit a j s1) (Accounting.j_set_status s1 j) rest /\
  Accounting.same_env a (Accounting.updResCounters getQUsable uninit a j s1).
Proof.
  intros Hb Hw Hr s1. destruct (Accounting.reserve_flag (Accounting.jStatus j)) as (Hst & _).
  fold s1 in Hst. destruct (Accounting.class_of_status _ _ Hst) as (Hc1 & Hc2 & _).
  assert (has s1 JOB_STAT_RESERVE = false) as Hr1.
  { apply has_false. unfold s1, clr. rewrite <- Z.land_assoc, (Z.land_comm (Z.lnot _)), Z.land_lnot_diag. apply Z.land_0_r. }
  apply book_step; [done|]. apply Accounting.weight_step_status, Accounting.res_step_weight.
  apply (Accounting.updResCounters_weights getQUsable uninit getQUsable_cnt); rewrite ?Hr, ?Hr1; try done.
  - pose proof (bk_jobs _ _ _ Hb) as Hf. by inversion Hf.
  - apply (bk_groups _ _ _ Hb).
  - by rewrite Hc1.
  - by rewrite Hc2.
Qed.
End Counters.

(** ** Up to [SET_STATE] *)

(** An operation on [p] that moves nothing and keeps the class of its state; the
    hosts of [p] and the counters may change. *)
Record apart (p : jptr) (m m' : mbs) : Prop := {
  ap_others : forall q, q <> p ->
    acct_job (st m') q = acct_job (st m) q /\ the_job (st m') q = the_job (st m) q;
  ap_id : jobId (job_of m' p) = jobId (job_of m p);
  ap_node : jgrpNode (job_of m' p) = jgrpNode (job_of m p);
  ap_once : once (st m') p = once (st m) p;
  ap_alive : forall q, is_Some (jobs (st m) !! q) -> is_Some (jobs (st m') !! q);
  ap_state : status_of (status m' p) = status_of (status m p);
  ap_lists : lists (st m') = lists (st m);
  ap_groups : groups m' = groups m }.

Lemma apart_refl p m : apart p m m.
Proof. by split. Qed.

Lemma apart_trans p m1 m2 m3 : apart p m1 m2 -> apart p m2 m3 -> apart p m1 m3.
Proof.
  intros [A1 A2 A3 A4 A5 A6 A7 A8] [B1 B2 B3 B4 B5 B6 B7 B8]. split; try congruence; [|auto].
  intros q Hq. destruct (A1 q Hq), (B1 q Hq). split; congruence.
Qed.

Lemma quiet_id p s s' : quiet p s s' -> jobId (the_job s' p) = jobId (the_job s p).
Proof. intros [_ H _ _ _]. by apply (f_equal Accounting.jobId) in H. Qed.

Lemma still_apart p m m' : still p m m' -> apart p m m'.
Proof.
  intros [Hq [Hs _] Hl _ Hg]. pose proof (quiet_id _ _ _ Hq). destruct Hq. by split.
Qed.

Lemma apart_eq p m m' : st m' = st m -> groups m' = groups m -> apart p m m'.
Proof. destruct m, m'. simpl. intros -> ->. by split. Qed.

Lemma apart_acct p m a : apart p m (set_acct a m).
Proof. by split. Qed.

Lemma apart_job p f m : mild f -> alive p m ->
  (forall j, status_of (jStatus (f j)) = status_of (jStatus j)) -> apart p m (on_job p f m).
Proof.
  intros Hf Ha Hs. destruct (quiet_job p f (st m) Hf Ha) as [Hq Hst]. pose proof (quiet_id _ _ _ Hq). destruct Hq.
  split; try done. unfold status, job_of, on_job. simpl. rewrite Hst. apply Hs.
Qed.

Lemma apart_dealloc p m : alive p m -> apart p m (deallocHosts p m).
Proof.
  intros Ha. unfold deallocHosts, on_job. split; try done.
  - intros q Hq. simpl. unfold acct_job, jobBill_of. by rewrite !the_job_other.
  - unfold job_of. simpl. by rewrite the_job_self.
  - unfold job_of. simpl. by rewrite the_job_self.
  - unfold once, jobBill_of. simpl. by rewrite the_job_self.
  - intros q. apply alive_upd.
  - unfold status, job_of. simpl. by rewrite the_job_self.
Qed.

Lemma apart_alive p m m' : apart p m m' -> alive p m -> alive p m'.
Proof. intros H. apply (ap_alive _ _ _ H). Qed.

Lemma apart_clear p m : alive p m -> apart p m (on_job p (set_jStatus (fun s => clr s JOB_STAT_RESERVE)) m).
Proof. intros Ha. apply apart_job; [done|done|]. intros j. apply Accounting.reserve_flag. Qed.

Lemma apart_rest p m m' : apart p m m' -> rest_of m' p = rest_of m p.
Proof.
  intros H. unfold rest_of. assert (others (st m') p = others (st m) p) as ->.
  { apply same_others_eq. intros k. unfold jDataList. by rewrite (ap_lists _ _ _ H). }
  apply list_fmap_ext. intros i q Hq. apply list_elem_of_lookup_2 in Hq.
  apply (ap_others _ _ _ H). intros ->. by apply others_not in Hq.
Qed.

Section Prologue.
Context (cfg : config).
Context (getQUsable : Accounting.mbd -> Accounting.qData -> Accounting.qData) (uninit : Z).
Context (askedHostsOk : jobBill -> bool) (parseDepCond : cstr -> option DepCond.dptNode).
Context (time now : Z) (p : jptr).
Implicit Types (m : mbs).

Lemma freeReserveSlots_apart m : alive p m -> apart p m (freeReserveSlots getQUsable uninit p m).
Proof.
  intros Ha. unfold freeReserveSlots. destruct (has _ _); [|apply apart_refl]. cbn [negb].
  set (m1 := set_acct _ m). assert (apart p m m1) as H1 by apply apart_acct.
  assert (alive p m1) as Ha1 by done.
  eapply apart_trans; [exact H1|]. eapply apart_trans; [by apply apart_clear|].
  apply apart_dealloc. by apply alive_upd.
Qed.

Lemma resetReserve_apart m newStatus : alive p m ->
  apart p m (resetReserve getQUsable uninit p newStatus m).
Proof.
  intros Ha. unfold resetReserve. destruct (has (status m p) _); [|apply apart_refl]. cbn [negb].
  set (m1 := if _ && _ then _ else m). assert (apart p m m1) as H1.
  { unfold m1. destruct (_ && _); [|apply apart_refl]. cbv zeta.
    pose proof (freeReserveSlots_apart m Ha) as H. pose proof (apart_alive _ _ _ H Ha) as Ha0.
    eapply apart_trans; [exact H|]. eapply apart_trans; [by apply apart_clear|].
    apply apart_job; [done|by apply alive_upd|done]. }
  clearbody m1. pose proof (apart_alive _ _ _ H1 Ha) as Ha1. cbv zeta. destruct (_ && _); [|done].
  eapply apart_trans; [exact H1|]. eapply apart_trans; [apply apart_acct|]. by apply apart_clear.
Qed.

(** A reservation is given up before the state changes: that of a pending job
    when it finishes or is suspended, that of a started one when it runs,
    finishes, is suspended by its user or goes back to its queue. *)
Definition reserve_ok (s new : Z) : Prop := has s JOB_STAT_RESERVE = true ->
  (has s JOB_STAT_PEND = true /\ (has new JOB_STAT_PSUSP = true \/ IS_FINISH new = true)) \/
  (IS_START s = true /\ (has new JOB_STAT_RUN = true \/ IS_FINISH new = true \/
                         has new JOB_STAT_USUSP = true \/ has new JOB_STAT_PEND = true)).

Lemma view_status m f : alive p m ->
  acct_job (st (on_job p (set_jStatus f) m)) p =
    Accounting.j_set_status (f (status m p)) (acct_job (st m) p) /\
  status (on_job p (set_jStatus f) m) p = f (status m p).
Proof.
  intros Ha. unfold on_job, status, job_of. simpl. unfold acct_job, jobBill_of. by rewrite the_job_self.
Qed.

Lemma view_still m m' : still p m m' ->
  acct_job (st m') p = Accounting.j_set_status (status m' p) (acct_job (st m) p).
Proof. intros [[_ H _ _ _] _ _ _ _]. exact H. Qed.

Lemma book_still m m' rest : still p m m' -> book (acct m) (acct_job (st m) p) rest ->
  book (acct m') (acct_job (st m') p) rest.
Proof.
  intros H Hb. rewrite (view_still _ _ H), (sl_acct _ _ _ H). apply book_status; [|done]. apply (sl_state _ _ _ H).
Qed.

Lemma cleared_reserve s : has (clr s JOB_STAT_RESERVE) JOB_STAT_RESERVE = false.
Proof.
  apply has_false. unfold clr. rewrite <- Z.land_assoc, (Z.land_comm (Z.lnot _)), Z.land_lnot_diag. apply Z.land_0_r.
Qed.

Hypothesis getQUsable_cnt : forall a q, Accounting.q_cnt (getQUsable a q) = Accounting.q_cnt q.

(** The job gives up its reservation, and the counters follow. *)
Definition released m m' rest : Prop :=
  book (acct m') (acct_job (st m') p) rest /\ has (status m' p) JOB_STAT_RESERVE = false /\
  Accounting.same_env (acct m) (acct m').

Lemma clear_released m rest : alive p m -> wf_status (status m p) ->
  has (status m p) JOB_STAT_RESERVE = true -> book (acct m) (acct_job (st m) p) rest ->
  released m (on_job p (set_jStatus (fun s => clr s JOB_STAT_RESERVE))
    (set_acct (Accounting.updResCounters getQUsable uninit (acct m) (acct_job (st m) p)
                 (clr (status m p) JOB_STAT_RESERVE)) m)) rest.
Proof.
  intros Ha Hw Hr Hb. set (m1 := set_acct _ m). assert (alive p m1) as Ha1 by done.
  destruct (view_status m1 (fun s => clr s JOB_STAT_RESERVE) Ha1) as [Hv Hs].
  destruct (book_release getQUsable uninit getQUsable_cnt _ _ _ Hb Hw Hr) as [Hb1 He].
  unfold released. rewrite Hv, Hs. split; [exact Hb1|]. split; [apply cleared_reserve|exact He].
Qed.

Lemma released_still m m1 m2 rest : released m m1 rest -> still p m1 m2 -> released m m2 rest.
Proof.
  intros (Hb & Hr & He) H. split; [by eapply book_still|]. destruct H as [_ [_ Hs] _ Hacct _].
  rewrite Hs, Hacct. done.
Qed.

Lemma still_clear m : alive p m -> has (status m p) JOB_STAT_RESERVE = false ->
  still p m (on_job p (set_jStatus (fun s => clr s JOB_STAT_RESERVE)) m).
Proof.
  intros Ha Hr. destruct (quiet_job p (set_jStatus (fun s => clr s JOB_STAT_RESERVE)) (st m)) as [Hq Hst]; [done|done|].
  split; try done. unfold status, job_of in *. simpl. rewrite Hst. simpl.
  split; [apply Accounting.reserve_flag|by rewrite Hr, cleared_reserve].
Qed.

Lemma freeReserveSlots_released m rest : alive p m -> wf_status (status m p) ->
  has (status m p) JOB_STAT_RESERVE = true -> IS_PEND (status m p) = true ->
  0 <= maxNumProcessors (bill_of m p) -> book (acct m) (acct_job (st m) p) rest ->
  released m (freeReserveSlots getQUsable uninit p m) rest.
Proof.
  intros Ha Hw Hr Hp Hn Hb. unfold freeReserveSlots. rewrite Hr. cbn [negb]. cbv zeta.
  set (m1 := on_job p _ _). destruct (clear_released m rest Ha Hw Hr Hb) as (Hb1 & Hr1 & He). fold m1 in Hb1, Hr1, He.
  assert (apart p m m1) as H1.
  { unfold m1. eapply apart_trans; [apply apart_acct|]. by apply apart_clear. }
  pose proof (apart_alive _ _ _ H1 Ha) as Ha1. pose proof (ap_state _ _ _ H1) as Hst.
  destruct (Accounting.class_of_status _ _ Hst) as (Hc & _).
  assert (acct_job (st (deallocHosts p m1)) p = no_hosts (acct_job (st m1) p) /\
          status (deallocHosts p m1) p = status m1 p) as [Hv Hs].
  { unfold deallocHosts, on_job, status, job_of. simpl. unfold acct_job, jobBill_of. by rewrite the_job_self. }
  unfold released. rewrite Hv, Hs. split; [|by split].
  apply book_no_hosts; [change (IS_PEND (status m1 p) = true); by rewrite Hc| |exact Hr1| |exact Hb1].
  - unfold wf_status in *. change (Accounting.jStatus _) with (status m1 p). by rewrite Hst.
  - assert (Accounting.maxNumProcessors (acct_job (st m1) p) = maxNumProcessors (bill_of m p)) as ->; [|done].
    unfold m1, on_job. simpl. unfold acct_job, bill_of, jobBill_of. by rewrite the_job_self.
Qed.

Lemma resetReserve_released m newStatus rest : alive p m -> wf_status (status m p) ->
  has (status m p) JOB_STAT_RESERVE = true -> reserve_ok (status m p) newStatus ->
  0 <= maxNumProcessors (bill_of m p) -> book (acct m) (acct_job (st m) p) rest ->
  released m (resetReserve getQUsable uninit p newStatus m) rest.
Proof.
  intros Ha Hw Hr Hok Hn Hb. unfold resetReserve. rewrite Hr. cbn [negb]. cbv zeta.
  destruct (Hok Hr) as [[Hp Hnew]|[Hs Hnew]].
  - rewrite Hp, andb_true_r.
    assert (has newStatus JOB_STAT_PSUSP || IS_FINISH newStatus = true) as -> by (apply orb_true_iff; tauto).
    assert (IS_PEND (status m p) = true) as HP by (unfold IS_PEND; by rewrite Hp).
    set (m0 := freeReserveSlots getQUsable uninit p m).
    assert (apart p m m0) as H0 by by apply freeReserveSlots_apart.
    assert (released m m0 rest) as R0 by by apply freeReserveSlots_released.
    pose proof (apart_alive _ _ _ H0 Ha) as Ha0.
    set (m2 := on_job p (set_tm _) _). assert (still p m0 m2) as H2.
    { unfold m2. apply still_on_job; [|done|gentle]. by apply still_clear, R0. }
    assert (IS_START (status m2 p) = false) as ->; [|by eapply released_still].
    pose proof (apart_trans _ _ _ _ H0 (still_apart _ _ _ H2)) as H. pose proof (ap_state _ _ _ H) as Hst.
    destruct (Accounting.class_of_status _ _ Hst) as (_ & -> & _).
    by destruct (status_partition _ Hw) as [(?&?&?)|[(?&?&?)|(?&?&?)]]; congruence.
  - assert (has (status m p) JOB_STAT_PEND = false) as Hp.
    { destruct (status_partition _ Hw) as [(?&?&?)|[(E&?&?)|(?&?&?)]]; try congruence.
      unfold IS_PEND in E. by apply orb_false_iff in E as [-> _]. }
    rewrite Hp, andb_false_r. cbn match. rewrite Hs.
    assert (has newStatus JOB_STAT_RUN || IS_FINISH newStatus || has newStatus JOB_STAT_USUSP
            || has newStatus JOB_STAT_PEND = true) as ->.
    { rewrite !orb_true_iff. tauto. }
    by apply clear_released.
Qed.

(** Everything up to [SET_STATE]; only the counters of the groups can fail, where
    the links of the tree are broken. *)
Lemma SET_STATE_spec s n : MASK_STATUS n = n ->
  status_of (SET_STATE s n) = status_of n /\
  has (SET_STATE s n) JOB_STAT_RESERVE = has s JOB_STAT_RESERVE.
Proof.
  intros Hn. split.
  - unfold status_of, SET_STATE. unfold MASK_STATUS in *. unfold clr.
    rewrite <- !Z.land_assoc, Z.land_lor_distr_l, <- Z.land_assoc.
    rewrite (Z.land_comm (Z.lnot MASK_INT_JOB_STAT)), <- !Z.land_assoc, Z.land_lnot_diag, !Z.land_0_r.
    apply Z.lor_0_l.
  - unfold SET_STATE. rewrite has_lor.
    assert (has n JOB_STAT_RESERVE = false) as ->.
    { rewrite <- Hn. apply has_false. unfold MASK_STATUS. rewrite <- Z.land_assoc. apply Z.land_0_r. }
    rewrite orb_false_r. unfold has. rewrite <- Z.land_assoc. done.
Qed.

(** The steps of the prologue: the reservation, the flags, the groups, the run
    time, the state. *)
Lemma status_prologue_steps m newStatus eventTime : alive p m ->
  exists m0 m1,
    m0 = (if (eventTime =? LOG_IT) && has (status m p) JOB_STAT_RESERVE
          then resetReserve getQUsable uninit p newStatus m else m) /\
    apart p m m0 /\ still p m0 m1 /\
    forall t,
      (if 0 <=? jobId (job_of m p)
       then JobGroup.updJgrpCountByJStatus (size (groups m)) (groups m) (jgrpNode (job_of m p))
              (status m1 p) newStatus = Some t
       else t = groups m) ->
      exists m2 m3, still p (set_groups t m1) m2 /\
        still p (on_job p (set_jStatus (fun s => SET_STATE s newStatus)) m2) m3 /\
        status_prologue getQUsable uninit time now p newStatus eventTime m = Some m3.
Proof.
  intros Ha. unfold status_prologue, freeReservePreemptResources, updateStopJobPreemptResources.
  set (m0 := if (eventTime =? LOG_IT) && has (status m p) JOB_STAT_RESERVE then _ else m). exists m0.
  assert (apart p m m0) as H0 by (unfold m0; destruct (_ && _); [by apply resetReserve_apart|apply apart_refl]).
  pose proof (apart_alive _ _ _ H0 Ha) as Ha0.
  cbv zeta. set (m1a := if _ && _ then _ else m0). assert (still p m0 m1a) as H1a by (unfold m1a; still).
  set (m1 := if _ && _ then _ else m1a). assert (still p m0 m1) as H1 by (unfold m1; still).
  exists m1. split; [done|]. split; [done|]. split; [done|]. intros t Ht. clearbody m0 m1a m1.
  pose proof (apart_trans _ _ _ _ H0 (still_apart _ _ _ H1)) as H.
  pose proof (apart_alive _ _ _ H Ha) as Ha1. rewrite (ap_id _ _ _ H).
  assert ((if 0 <=? jobId (job_of m p) then updJgrp p (status m1 p) newStatus m1 else Some m1) =
          Some (set_groups t m1)) as E.
  { destruct (0 <=? _).
    - unfold updJgrp. rewrite (ap_groups _ _ _ H), (ap_node _ _ _ H), Ht. done.
    - rewrite Ht, <- (ap_groups _ _ _ H). by destruct m1. }
  rewrite E. simpl. set (m1' := set_groups t m1). assert (alive p m1') as Ha1' by done.
  set (m2a := accumRunTime _ _ _ _ _ m1').
  assert (still p m1' m2a) as H2a by (unfold m2a, accumRunTime; still). clearbody m2a.
  set (m2 := if _ && _ then _ else m2a). assert (still p m1' m2) as H2 by (unfold m2; still). clearbody m2.
  exists m2. set (m3 := on_job p (set_jStatus _) m2).
  assert (alive p m3) as Ha3 by (apply alive_upd; by eapply still_alive).
  set (m4 := if _ && _ then _ else m3). exists m4. split; [done|]. split; [|done].
  unfold m4. destruct (_ && _); still.
Qed.
End Prologue.

(** ** The whole change *)

(** What any operation on [p] leaves alone. *)
Record near (p : jptr) (m m' : mbs) : Prop := {
  nr_others : forall q, q <> p ->
    acct_job (st m') q = acct_job (st m) q /\ the_job (st m') q = the_job (st m) q;
  nr_node : jgrpNode (job_of m' p) = jgrpNode (job_of m p);
  nr_id : jobId (job_of m' p) = jobId (job_of m p);
  nr_once : once (st m') p = once (st m) p;
  nr_alive : forall q, is_Some (jobs (st m) !! q) -> is_Some (jobs (st m') !! q);
  nr_lists : same_others p (st m) (st m') }.

Lemma near_trans p m1 m2 m3 : near p m1 m2 -> near p m2 m3 -> near p m1 m3.
Proof.
  intros [A1 A2 A3 A4 A5 A6] [B1 B2 B3 B4 B5 B6]. split; [|congruence..|auto|by eapply same_others_trans].
  intros q Hq. destruct (A1 q Hq), (B1 q Hq). split; congruence.
Qed.

Lemma apart_near p m m' : apart p m m' -> near p m m'.
Proof. intros H. destruct (H) as []. split; try done. intros k. unfold jDataList. by rewrite (ap_lists _ _ _ H). Qed.

Lemma still_near p m m' : still p m m' -> near p m m'.
Proof. intros H. by apply apart_near, still_apart. Qed.

Lemma relinked_near p n m m' : relinked p n m m' -> near p m m'.
Proof. intros [Hq _ Ho _ _ _ _]. pose proof (quiet_id _ _ _ Hq). destruct Hq. by split. Qed.

Lemma near_groups p m t : near p m (set_groups t m).
Proof. by split. Qed.

Lemma near_set_status p f m : alive p m -> near p m (on_job p (set_jStatus f) m).
Proof.
  intros Ha. assert (mild (set_jStatus f)) as Hm by by intros j; split_and!.
  destruct (quiet_job p (set_jStatus f) (st m) Hm Ha) as [Hq _]. pose proof (quiet_id _ _ _ Hq). destruct Hq. by split.
Qed.

Lemma near_rest p m m' : near p m m' -> rest_of m' p = rest_of m p.
Proof.
  intros H. unfold rest_of. rewrite (same_others_eq _ _ _ (nr_lists _ _ _ H)).
  apply list_fmap_ext. intros i q Hq. apply list_elem_of_lookup_2 in Hq.
  apply (nr_others _ _ _ H). intros ->. by apply others_not in Hq.
Qed.

(** The lists stay well formed where [p] stands on a list of its state. *)
Lemma near_lists_ok p n m m' : near p m m' -> lists_ok (st m) -> alive p m ->
  (forall k, NoDup (jDataList (st m') k)) -> placed (st m') p n ->
  wf_status (status m' p) -> n ∈ lists_of_status (status m' p) -> lists_ok (st m').
Proof.
  intros [Ho _ _ _ Ha Hl] [_ L2 L3] Hp Hnd Hpl Hw Hn. split; [done| |].
  - intros q k k'. destruct (decide (q = p)) as [->|Hq].
    + rewrite (Hpl k), (Hpl k'). congruence.
    + rewrite !(same_others_elem _ _ _ _ _ Hl Hq). apply L2.
  - intros q k Hk. destruct (decide (q = p)) as [->|Hq].
    + apply Hpl in Hk as ->. split_and!; [by apply Ha|done|done].
    + rewrite (same_others_elem _ _ _ _ _ Hl Hq) in Hk. destruct (L3 q k Hk) as (H1 & H2 & H3).
      destruct (Ho q Hq) as [_ ->]. split_and!; [by apply Ha|done|done].
Qed.

(** A job that does not move is seated where it was. *)
Lemma still_seated p n m m' : still p m m' -> (forall k, NoDup (jDataList (st m) k)) -> placed (st m) p n ->
  relinked p (Some n) m m'.
Proof.
  intros H Hnd Hp. pose proof (still_placed _ _ _ _ H Hp) as Hp'. pose proof (still_nodup _ _ _ H Hnd) as Hnd'.
  destruct H as [Hq Hs Hl Ha Hg]. split; try done.
  - intros k. unfold jDataList. by rewrite Hl.
  - intros k. rewrite (Hp' k). split; [by intros ->|by intros [= ->]].
Qed.

Lemma lists_of_class s s' : status_of s = status_of s' -> lists_of_status s = lists_of_status s'.
Proof.
  intros H. destruct (Accounting.class_of_status _ _ H) as (_ & H2 & H3). unfold lists_of_status. by rewrite H2, H3.
Qed.

Lemma wf_no_wait s : wf_status s -> has s JOB_STAT_WAIT = false.
Proof. intros Hw. rewrite (has_status_of s) by reflexivity. by destruct (wf_status_cases _ Hw) as [->|[->|[->|[->|[->|[->| ->]]]]]]. Qed.

(** The changes that the code makes: a finished job stays finished, and a started
    job is not suspended as if it were pending. *)
Definition change_ok (old new : Z) : Prop :=
  IS_FINISH old = false /\ (has new JOB_STAT_PSUSP = true -> IS_START old = false).

Lemma mask_status_of s : status_of (MASK_STATUS s) = status_of s /\ MASK_STATUS (MASK_STATUS s) = MASK_STATUS s.
Proof.
  unfold status_of, MASK_STATUS, clr. split.
  - rewrite <- !Z.land_assoc. f_equal.
  - rewrite <- Z.land_assoc. f_equal.
Qed.

Section Change.
Context (cfg : config).
Context (getQUsable : Accounting.mbd -> Accounting.qData -> Accounting.qData) (uninit : Z).
Context (askedHostsOk : jobBill -> bool) (parseDepCond : cstr -> option DepCond.dptNode).
Context (time now : Z) (p : jptr).
Implicit Types (m : mbs).

Local Abbreviation change := (jStatusChange cfg getQUsable uninit askedHostsOk parseDepCond time now p).

(** The branch taken after [SET_STATE]. *)
Definition branch (old new ev : Z) (m : mbs) : mbs * bool :=
  if IS_START new && IS_PEND old then (status_start cfg time p ev m, false)
  else if IS_FINISH new then (status_finish askedHostsOk parseDepCond time p old ev m, false)
  else if has new JOB_STAT_PEND && IS_START old then (status_release cfg time p ev m, true)
  else (status_other time p new ev m, false).

Lemma branch_seated m n old new ev : alive p m -> (forall k, NoDup (jDataList (st m) k)) ->
  placed (st m) p n -> n ∈ lists_of_status old -> once (st m) p = false ->
  wf_status old -> wf_status new -> change_ok old new ->
  exists n', relinked p (Some n') m (branch old new ev m).1 /\ n' ∈ lists_of_status new /\
    ((branch old new ev m).2 = true -> IS_PEND new = true).
Proof.
  intros Ha Hnd Hp Hn Ho Hwo Hwn [Hfo Hps].
  destruct (status_partition _ Hwo) as [(P1&S1&F1)|[(P1&S1&F1)|(P1&S1&F1)]]; [| |congruence];
  destruct (status_partition _ Hwn) as [(P2&S2&F2)|[(P2&S2&F2)|(P2&S2&F2)]];
  unfold branch; unfold lists_of_status in Hn |- *; rewrite F1, S1 in Hn; rewrite P1, S1, S2, F2; cbn [andb fst snd];
  rewrite ?andb_false_r; rewrite !elem_of_cons, elem_of_nil in Hn.
  - (* pending, pending *)
    exists n. split; [|split; [set_solver|done]]. apply still_seated; [by apply status_other_still|done|done].
  - (* pending, started *)
    exists SJL. split; [|split; [set_solver|done]]. eapply (status_start_relinked cfg time p m n); try done. tauto.
  - (* pending, finished *)
    exists FJL. split; [|split; [set_solver|done]]. eapply (status_finish_relinked askedHostsOk parseDepCond time p m n); try done. right. tauto.
  - (* started, pending *)
    assert (has new JOB_STAT_PSUSP = false) as Hn2.
    { destruct (has new JOB_STAT_PSUSP); [|done]. rewrite S1 in Hps. by apply Hps. }
    unfold IS_PEND in P2 |- *. rewrite Hn2, orb_false_r in P2. rewrite P2, ?Hn2. cbn [andb fst snd].
    assert (n = SJL) as -> by tauto.
    destruct (status_release_relinked cfg time p m ev Ha Hnd Hp) as (n' & Hn' & HR).
    exists n'. split; [done|]. split; [set_solver|done].
  - (* started, started *)
    assert (has new JOB_STAT_PEND = false) as -> by (by apply orb_false_iff in P2 as [-> _]). cbn [andb fst snd].
    exists n. split; [|split; [set_solver|done]]. apply still_seated; [by apply status_other_still|done|done].
  - (* started, finished *)
    exists FJL. split; [|split; [set_solver|done]]. eapply (status_finish_relinked askedHostsOk parseDepCond time p m n); try done. left. tauto.
Qed.

Lemma counters_branch m old new ev : wf_status old ->
  status_counters cfg getQUsable uninit p old new ev m =
  if negb (Accounting.mSchedStage (acct m) =? Accounting.M_STAGE_REPLAY) || (ev =? LOG_IT)
  then set_acct (Accounting.updCounters getQUsable uninit (acct m) (acct_job (st m) p) old) m else m.
Proof.
  intros Hw. unfold status_counters. rewrite (wf_no_wait _ Hw), andb_false_r.
  destruct (negb _); [done|]. by destruct (ev =? LOG_IT).
Qed.

Lemma apart_hPtr m : alive p m -> apart p m (freeExecParams p m).
Proof.
  intros Ha. unfold freeExecParams, cleanCandHosts. set (m1 := on_job p (set_hPtr None) m).
  assert (apart p m m1) as H1 by apply (apart_dealloc p m Ha). pose proof (apart_alive _ _ _ H1 Ha) as Ha1.
  destruct (IS_PEND _); [|done]. eapply apart_trans; [exact H1|]. by apply apart_job.
Qed.

(** [jStatusChange] as a sequence of steps: [m0] after the reservation, [m1] after
    the flags, then the group counters [t], the run time, the state, the branch
    ([m4]), the counters, the hosts. *)
Record steps (old new ev : Z) (m : mbs) (t : JobGroup.tree) (m0 m1 m2 m3 m4 m' : mbs) (n' : jlistno) : Prop := {
  sp_m0 : m0 = (if (ev =? LOG_IT) && has old JOB_STAT_RESERVE
                then resetReserve getQUsable uninit p new m else m);
  sp_apart : apart p m m0;
  sp_flags : still p m0 m1;
  sp_tree : still p (set_groups t m1) m2;
  sp_state : still p (on_job p (set_jStatus (fun s => SET_STATE s new)) m2) m3;
  sp_seat : relinked p (Some n') m3 m4;
  sp_list : n' ∈ lists_of_status new;
  sp_end : exists freeExec : bool, (freeExec = true -> IS_PEND new = true) /\
    m' = (if freeExec then freeExecParams p else id)
      (status_counters cfg getQUsable uninit p old new ev m4) }.

(** The counters of the groups after the change. *)
Definition groups_change (new : Z) (m : mbs) (old : Z) (t : JobGroup.tree) : Prop :=
  if 0 <=? jobId (job_of m p)
  then JobGroup.updJgrpCountByJStatus (size (groups m)) (groups m) (jgrpNode (job_of m p)) old new = Some t
  else t = groups m.

Lemma jStatusChange_steps m n new ev : alive p m -> (forall k, NoDup (jDataList (st m) k)) ->
  placed (st m) p n -> n ∈ lists_of_status (status m p) -> once (st m) p = false ->
  wf_status (status m p) -> wf_status new -> change_ok (status m p) new ->
  status_of new <> status_of (status m p) ->
  (forall s, status_of s = status_of (status m p) -> exists t, groups_change (MASK_STATUS new) m s t) ->
  exists t m0 m1 m2 m3 m4 m' n',
    change new ev m = Some m' /\ groups_change (MASK_STATUS new) m (status m1 p) t /\
    steps (status m p) (MASK_STATUS new) ev m t m0 m1 m2 m3 m4 m' n'.
Proof.
  intros Ha Hnd Hp Hn Ho Hwo Hwn Hok Hne Ht. set (old := status m p) in *. set (nw := MASK_STATUS new).
  destruct (mask_status_of new) as [Hst Hmm]. fold nw in Hst, Hmm.
  assert (wf_status nw) as Hwnw by (unfold wf_status in *; by rewrite Hst).
  assert (change_ok old nw) as Hok'.
  { destruct Hok as [H1 H2]. split; [done|]. rewrite (has_status_of nw), Hst, <- has_status_of by reflexivity. exact H2. }
  destruct (status_prologue_steps getQUsable uninit time now p m nw ev Ha) as (m0 & m1 & E0 & A0 & F1 & Hrun).
  pose proof (apart_trans _ _ _ _ A0 (still_apart _ _ _ F1)) as A1.
  destruct (Ht (status m1 p) (ap_state _ _ _ A1)) as [t Hgt].
  destruct (Hrun t Hgt) as (m2 & m3 & S2 & S3 & Epro).
  assert (near p m m3) as N3.
  { eapply near_trans; [by apply apart_near|]. eapply near_trans; [apply near_groups|].
    eapply near_trans; [by apply still_near|]. eapply near_trans; [|by apply still_near].
    apply near_set_status. eapply still_alive; [exact S2|]. change (alive p m1). by eapply apart_alive. }
  assert (lists (st m3) = lists (st m)) as L3.
  { rewrite (sl_lists _ _ _ S3). change (lists (st m2) = lists (st m)). rewrite (sl_lists _ _ _ S2).
    apply (ap_lists _ _ _ A1). }
  destruct (branch_seated m3 n old nw ev) as (n' & HR & Hn' & Hfree); try done.
  - by apply N3.
  - intros k. unfold jDataList. rewrite L3. apply Hnd.
  - intros k. unfold jDataList. rewrite L3. apply Hp.
  - by rewrite (nr_once _ _ _ N3).
  - exists t, m0, m1, m2, m3, (branch old nw ev m3).1,
      ((if (branch old nw ev m3).2 then freeExecParams p else id)
         (status_counters cfg getQUsable uninit p old nw ev (branch old nw ev m3).1)), n'.
    split; [|split; [exact Hgt|]].
    + unfold jStatusChange. fold old. fold (status_of new) (status_of old). rewrite (proj2 (Z.eqb_neq _ _) Hne).
      fold nw. cbv zeta. rewrite Epro. simpl. fold (branch old nw ev m3). destruct (branch old nw ev m3) as [m4 [|]]; done.
    + split; try done. exists (branch old nw ev m3).2. done.
Qed.

(** What the steps add up to. *)
Lemma counters_keep old nw ev m : wf_status old ->
  st (status_counters cfg getQUsable uninit p old nw ev m) = st m /\
  groups (status_counters cfg getQUsable uninit p old nw ev m) = groups m.
Proof. intros Hw. rewrite counters_branch by done. by destruct (_ || _). Qed.

Record changed (m m' : mbs) (t : JobGroup.tree) (new : Z) (n' : jlistno) : Prop := {
  cg_near : near p m m';
  cg_alive : alive p m';
  cg_nodup : forall k, NoDup (jDataList (st m') k);
  cg_placed : placed (st m') p n';
  cg_status : status_of (status m' p) = status_of new;
  cg_groups : groups m' = t }.

Lemma steps_changed old nw ev m t m0 m1 m2 m3 m4 m' n' : alive p m -> wf_status old -> MASK_STATUS nw = nw ->
  steps old nw ev m t m0 m1 m2 m3 m4 m' n' -> changed m m' t nw n'.
Proof.
  intros Ha Hw Hm [_ A0 F1 S2 S3 HR Hl (fe & Hfe & ->)].
  assert (alive p m2) as Ha2.
  { eapply still_alive; [exact S2|]. change (alive p m1). eapply still_alive; [exact F1|]. by eapply apart_alive. }
  assert (near p m m4) as N4.
  { eapply near_trans; [by apply apart_near|]. eapply near_trans; [by apply still_near|].
    eapply near_trans; [apply near_groups|]. eapply near_trans; [by apply still_near|].
    eapply near_trans; [by apply near_set_status|]. eapply near_trans; [by apply still_near|by eapply relinked_near]. }
  assert (status_of (status m4 p) = status_of nw) as Hs4.
  { rewrite (proj1 (rl_state _ _ _ _ HR)), (proj1 (sl_state _ _ _ S3)).
    rewrite (proj2 (view_status p m2 _ Ha2)). by apply SET_STATE_spec. }
  assert (groups m4 = t) as Hg4.
  { rewrite (rl_groups _ _ _ _ HR), (sl_groups _ _ _ S3). change (groups m2 = t). by rewrite (sl_groups _ _ _ S2). }
  set (m5 := status_counters cfg getQUsable uninit p old nw ev m4).
  destruct (counters_keep old nw ev m4 Hw) as [Est Egr]. fold m5 in Est, Egr.
  assert (alive p m4) as Ha4 by (apply N4; exact Ha).
  assert (alive p m5) as Ha5 by (unfold alive; by rewrite Est).
  assert (apart p m4 m5) as A5 by by apply apart_eq.
  assert (apart p m4 ((if fe then freeExecParams p else id) m5)) as A6.
  { destruct fe; [|done]. eapply apart_trans; [exact A5|]. by apply apart_hPtr. }
  set (m6 := (if fe then _ else _) m5) in *. clearbody m6.
  assert (forall k, jDataList (st m6) k = jDataList (st m4) k) as Hk.
  { intros k. unfold jDataList. by rewrite (ap_lists _ _ _ A6). }
  split.
  - eapply near_trans; [exact N4|by apply apart_near].
  - by eapply apart_alive.
  - intros k. rewrite Hk. apply (rl_nodup _ _ _ _ HR).
  - intros k. rewrite Hk, (rl_placed _ _ _ _ HR). split; congruence.
  - by rewrite (ap_state _ _ _ A6).
  - by rewrite (ap_groups _ _ _ A6).
Qed.

(** The job's node hangs in the tree. *)
Definition in_tree m : Prop :=
  0 <= jobId (job_of m p) -> exists l, JobGroup.path (groups m) (jgrpNode (job_of m p)) l.

Lemma in_tree_change m s new : in_tree m -> exists t, groups_change new m s t.
Proof.
  intros Hin. unfold groups_change. destruct (Z.leb_spec 0 (jobId (job_of m p))) as [H|H]; [|by eexists].
  destruct (Hin H) as [l Hl].
  destruct (JobGroup.upd_counts_spec _ _ _ s new (size (groups m)) Hl) as (t & E & _); [|by exists t].
  by eapply JobGroup.path_length.
Qed.

(** C2: A change of state never fails and keeps the job
    lists well formed, for any event time: every job stands exactly once, on the
    list of its state.  The job that changes is taken to the list of its new
    state (or stays, where the list is the same), and all other jobs keep their
    states and their order.  Finished jobs, and started jobs that would become
    PSUSP, do not change; a submission for one run is handled elsewhere. *)
Theorem jStatusChange_lists m n new ev :
  lists_ok (st m) -> p ∈ jDataList (st m) n -> once (st m) p = false -> in_tree m ->
  wf_status new -> change_ok (status m p) new ->
  exists m' n', change new ev m = Some m' /\ lists_ok (st m') /\ p ∈ jDataList (st m') n' /\
    n' ∈ lists_of_status new /\ status_of (status m' p) = status_of new /\ same_others p (st m) (st m') /\
    forall q, q <> p -> the_job (st m') q = the_job (st m) q.
Proof.
  intros HL Hin Ho Htree Hwn Hok. destruct (lo_state _ HL p n Hin) as (Ha & Hw & Hn).
  fold (job_of m p) in Hw, Hn. fold (status m p) in Hw, Hn.
  destruct (Z.eq_dec (status_of new) (status_of (status m p))) as [E|E].
  - exists m, n. unfold jStatusChange. fold (status_of new) (status_of (status m p)). rewrite E, Z.eqb_refl.
    rewrite (lists_of_class new _ E). done.
  - pose proof (lists_ok_placed _ _ _ HL Hin) as Hp.
    destruct (jStatusChange_steps m n new ev Ha (lo_nodup _ HL) Hp Hn Ho Hw Hwn Hok E) as
      (t & m0 & m1 & m2 & m3 & m4 & m' & n' & Hrun & Hgt & HS).
    { intros s _. by apply in_tree_change. }
    destruct (mask_status_of new) as [Hst Hmm].
    pose proof (sp_list _ _ _ _ _ _ _ _ _ _ _ _ HS) as Hn'.
    rewrite (lists_of_class _ new Hst) in Hn'.
    apply (steps_changed _ _ _ _ _ _ _ _ _ _ _ _ Ha Hw Hmm) in HS as [N Ha' Hnd Hpl Hs' _].
    rewrite Hst in Hs'. exists m', n'. split; [exact Hrun|]. split_and!; try done.
    + apply (near_lists_ok p n' m m'); try done.
      * unfold wf_status in *. by rewrite Hs'.
      * by rewrite (lists_of_class _ new Hs').
    + by apply Hpl.
    + apply N.
    + intros q Hq. by apply N.
Qed.

Hypothesis getQUsable_cnt : forall a q, Accounting.q_cnt (getQUsable a q) = Accounting.q_cnt q.

Lemma book_max a j rest : book a j rest -> 0 <= Accounting.maxNumProcessors j.
Proof.
  intros [_ Hf _]. inversion Hf as [|? ? [H1 _ _]]; subst. unfold Accounting.numHostPtr in H1. lia.
Qed.

(** The counters follow the steps. *)
Lemma steps_book old nw ev m t m0 m1 m2 m3 m4 m' n' rest : alive p m -> old = status m p -> wf_status old ->
  wf_status nw -> MASK_STATUS nw = nw -> reserve_ok old nw -> Accounting.counted old nw = true ->
  (has old JOB_STAT_RESERVE = true -> ev = LOG_IT) ->
  (Accounting.mSchedStage (acct m) <> Accounting.M_STAGE_REPLAY \/ ev = LOG_IT) ->
  steps old nw ev m t m0 m1 m2 m3 m4 m' n' ->
  book (acct m) (acct_job (st m) p) rest -> book (acct m') (acct_job (st m') p) rest.
Proof.
  intros Ha -> Hw Hwn Hm Hres Hcnt Hrev Hstage [E0 A0 F1 S2 S3 HR Hl (fe & Hfe & ->)] Hb.
  assert (released p m m0 rest) as R0.
  { destruct (has (status m p) JOB_STAT_RESERVE) eqn:Hr.
    - rewrite (Hrev eq_refl) in E0. cbn [andb] in E0. rewrite E0. change (LOG_IT =? LOG_IT) with true. cbn [andb].
      apply resetReserve_released; try done. apply (book_max _ _ _ Hb).
    - rewrite andb_false_r in E0. subst m0. split; [done|]. split; [done|apply Accounting.same_env_refl]. }
  pose proof (released_still p _ _ _ _ R0 F1) as R1.
  assert (released p m (set_groups t m1) rest) as R1' by exact R1.
  destruct (released_still p _ _ _ _ R1' S2) as (Hb2 & Hr2 & He2).
  assert (alive p m2) as Ha2.
  { eapply still_alive; [exact S2|]. change (alive p m1). eapply still_alive; [exact F1|]. by eapply apart_alive. }
  assert (status_of (status m2 p) = status_of (status m p)) as Hs2.
  { rewrite (proj1 (sl_state _ _ _ S2)). change (status_of (status m1 p) = status_of (status m p)).
    by rewrite (proj1 (sl_state _ _ _ F1)), (ap_state _ _ _ A0). }
  destruct (view_status p m2 (fun s => SET_STATE s nw) Ha2) as [V3 T3].
  destruct (SET_STATE_spec (status m2 p) nw Hm) as [Hst Hrs].
  assert (same_state (SET_STATE (status m2 p) nw) (status m4 p)) as [Hs4 Hr4].
  { rewrite <- T3. eapply same_state_trans; [apply (sl_state _ _ _ S3)|apply (rl_state _ _ _ _ HR)]. }
  rewrite Hst in Hs4. rewrite Hrs, Hr2 in Hr4.
  assert (acct_job (st m4) p = Accounting.j_set_status (status m4 p) (acct_job (st m2) p)) as V4.
  { rewrite (qt_self _ _ _ (rl_quiet _ _ _ _ HR)), (view_still p _ _ S3), V3. done. }
  assert (acct m4 = acct m2) as Ha4 by (rewrite (rl_acct _ _ _ _ HR), (sl_acct _ _ _ S3); done).
  rewrite <- Ha4 in Hb2, He2.
  assert (book (acct m4) (Accounting.j_set_status (status m2 p) (acct_job (st m4) p)) rest) as Hb4 by (by rewrite V4).
  assert (Accounting.jStatus (acct_job (st m4) p) = status m4 p) as J4 by done.
  assert (status_of (status m p) = status_of (status m2 p)) as Hs2' by done.
  assert (wf_status (status m4 p)) as Hw4 by (unfold wf_status in *; by rewrite Hs4).
  assert (Accounting.counted (status m2 p) (status m4 p) = true) as Hc4.
  { rewrite <- Hcnt. unfold Accounting.counted, IS_FINISH, IS_START.
    rewrite !(has_status_of (status m2 p)), !(has_status_of (status m4 p)), !(has_status_of (status m p)),
      !(has_status_of nw) by reflexivity. by rewrite Hs2, Hs4. }
  destruct (book_updCounters getQUsable uninit getQUsable_cnt (acct m4) (acct_job (st m4) p) (status m2 p)
              (status m p) rest Hb4) as [Hb5 _]; try done.
  { unfold wf_status in *. by rewrite Hs2. }
  rewrite counters_branch by done.
  assert (negb (Accounting.mSchedStage (acct m4) =? Accounting.M_STAGE_REPLAY) || (ev =? LOG_IT) = true) as ->.
  { destruct He2 as (_ & _ & _ & -> & _). apply orb_true_iff.
    destruct Hstage as [H| ->]; [left; by apply negb_true_iff, Z.eqb_neq|by right]. }
  set (m5 := set_acct _ m4). destruct fe; [|exact Hb5].
  assert (alive p m5) as Ha5.
  { change (alive p m4). apply (qt_alive _ _ _ (rl_quiet _ _ _ _ HR)). eapply still_alive; [exact S3|].
    by apply alive_upd. }
  unfold freeExecParams. set (m6 := on_job p (set_hPtr None) m5).
  assert (alive p m6) as Ha6 by by apply alive_upd.
  assert (still p m6 (cleanCandHosts p m6)) as H6 by (unfold cleanCandHosts; still).
  eapply book_still; [exact H6|].
  assert (acct_job (st m6) p = no_hosts (acct_job (st m5) p)) as ->.
  { unfold m6, on_job. simpl. unfold acct_job, jobBill_of. by rewrite the_job_self. }
  apply book_no_hosts; [|done|done|by eapply book_max|exact Hb5].
  change (IS_PEND (status m4 p) = true). rewrite (proj1 (Accounting.class_of_status _ nw Hs4)). auto.
Qed.

(** C1: A change of state that is counted keeps all counters exact.  If
    the counters of every queue, user, user group and host equal the recount over
    the jobs on the four lists, then they do after [jStatusChange], and the job has its new
    status: slots held in reserve are given up first,
    the counts move with the state, and the hosts of a job that goes back to its
    queue are freed last, when they no longer count.  The conditions: the job is on a list
    and not finished; it is not one whose next run is its only one ([once]: for such a job
    [modify_once_counters] shows a counter that is not exact); [updCounters] counts the
    change ([Accounting.counted]: a started job does not become PSUSP, and a job in PSUSP is
    not suspended otherwise); its node is in the tree ([in_tree]); the slots held in reserve can be given up with the change
    ([reserve_ok]); and when it has such slots, or the event log is replayed, the change
    is one that is logged ([LOG_IT]). *)
Theorem jStatusChange_counters m n new ev :
  lists_ok (st m) -> counted_ok m -> p ∈ jDataList (st m) n -> once (st m) p = false -> in_tree m ->
  wf_status new -> IS_FINISH (status m p) = false -> Accounting.counted (status m p) new = true ->
  reserve_ok (status m p) new -> (has (status m p) JOB_STAT_RESERVE = true -> ev = LOG_IT) ->
  (Accounting.mSchedStage (acct m) <> Accounting.M_STAGE_REPLAY \/ ev = LOG_IT) ->
  exists m', change new ev m = Some m' /\ counted_ok m' /\ status_of (status m' p) = status_of new.
Proof.
  intros HL HC Hin Ho Htree Hwn Hfin Hcnt Hres Hrev Hstage.
  destruct (lo_state _ HL p n Hin) as (Ha & Hw & Hn). fold (job_of m p) in Hw, Hn. fold (status m p) in Hw, Hn.
  destruct (Z.eq_dec (status_of new) (status_of (status m p))) as [E|E].
  { exists m. unfold jStatusChange. fold (status_of new) (status_of (status m p)). by rewrite E, Z.eqb_refl. }
  pose proof (lists_ok_placed _ _ _ HL Hin) as Hp. pose proof (lo_nodup _ HL) as Hnd.
  assert (change_ok (status m p) new) as Hok.
  { split; [done|]. intros Hps. unfold Accounting.counted in Hcnt. rewrite Hfin, Hps in Hcnt. by apply negb_true_iff. }
  destruct (jStatusChange_steps m n new ev Ha Hnd Hp Hn Ho Hw Hwn Hok E) as
    (t & m0 & m1 & m2 & m3 & m4 & m' & n' & Hrun & Hgt & HS); [intros s _; by apply in_tree_change|].
  destruct (mask_status_of new) as [Hst Hmm]. exists m'. split; [done|].
  pose proof (steps_changed _ _ _ _ _ _ _ _ _ _ _ _ Ha Hw Hmm HS) as [N Ha' Hnd' Hpl' Hs' _].
  rewrite Hst in Hs'. split; [|done].
  apply (counted_ok_book m' p n' Hnd' Hpl'). rewrite (near_rest _ _ _ N).
  apply (counted_ok_book m p n Hnd Hp) in HC.
  assert (forall b, Z.land b MASK_INT_JOB_STAT = b -> Z.land JOB_STAT_UNKWN b = 0 ->
            has (MASK_STATUS new) b = has new b) as Hb.
  { intros b H1 H2. rewrite (has_status_of (MASK_STATUS new)), Hst, <- has_status_of; done. }
  eapply steps_book; try exact HS; try exact HC; try done.
  - unfold wf_status in *. by rewrite Hst.
  - intros Hr. destruct (Hres Hr) as [[? H]|[? H]]; [left|right]; (split; [done|]);
      unfold IS_FINISH in *; rewrite !Hb by reflexivity; exact H.
  - rewrite <- Hcnt. unfold Accounting.counted, IS_FINISH. rewrite !Hb by reflexivity. done.
Qed.
End Change.

(** ** The counters of the job groups *)

Lemma grouped_ext t J1 J2 : (forall n i, JobGroup.tally n i J1 = JobGroup.tally n i J2) ->
  JobGroup.grouped t J1 -> JobGroup.grouped t J2.
Proof.
  intros He HG n nd c Hn Hc. destruct (HG n nd c Hn Hc) as [Hl Hi]. split; [done|]. intros i H. by rewrite <- He, Hi.
Qed.

(** A counter depends on the class of the state only. *)
Lemma index_status_of s : getIndexOfJStatus (status_of s) = getIndexOfJStatus s.
Proof.
  assert (forall x, MASK_STATUS (Z.land (Z.land (Z.land (status_of x) (Z.lnot JOB_STAT_UNKWN)) (Z.lnot JOB_STAT_PDONE)) (Z.lnot JOB_STAT_PERR)) =
          MASK_STATUS (Z.land (Z.land (Z.land x (Z.lnot JOB_STAT_UNKWN)) (Z.lnot JOB_STAT_PDONE)) (Z.lnot JOB_STAT_PERR))) as E.
  { intros x. unfold status_of, MASK_STATUS, clr. rewrite <- !Z.land_assoc. f_equal. }
  unfold getIndexOfJStatus. by rewrite E.
Qed.

Lemma job_count_class s s' i : wf_status s -> wf_status s' -> status_of s = status_of s' ->
  JobGroup.job_count s i = JobGroup.job_count s' i.
Proof.
  intros Hw Hw' He.
  assert (forall x, wf_status x -> (x =? JOB_STAT_NULL) = false) as Hnz.
  { intros x Hx. apply Z.eqb_neq. intros ->. destruct (wf_status_cases _ Hx) as [H|[H|[H|[H|[H|[H|H]]]]]]; discriminate H. }
  unfold JobGroup.job_count. rewrite !Hnz by done. by rewrite <- (index_status_of s), <- (index_status_of s'), He.
Qed.

(** The jobs of the lists with the nodes above them; [above] gives the path of
    each job, which no change of state affects. *)
Definition group_item (above : jptr -> list positive) (m : mbs) (q : jptr) : list positive * Z :=
  (above q, status m q).
Definition group_items (above : jptr -> list positive) (m : mbs) : list (list positive * Z) :=
  group_item above m <$> linked (st m).
Record groups_ok (above : jptr -> list positive) (m : mbs) : Prop := {
  go_path : forall q, q ∈ linked (st m) ->
    0 <= jobId (job_of m q) /\ JobGroup.path (groups m) (jgrpNode (job_of m q)) (above q);
  go_counts : JobGroup.grouped (groups m) (group_items above m) }.

Lemma group_items_split above m p n : (forall k, NoDup (jDataList (st m) k)) -> placed (st m) p n ->
  group_items above m ≡ₚ (above p, status m p) :: (group_item above m <$> others (st m) p).
Proof. intros Hnd Hp. unfold group_items. by rewrite (linked_placed _ _ _ Hnd Hp). Qed.

Lemma near_group_rest above p m m' : near p m m' ->
  (group_item above m' <$> others (st m') p) = (group_item above m <$> others (st m) p).
Proof.
  intros H. rewrite (same_others_eq _ _ _ (nr_lists _ _ _ H)).
  apply list_fmap_ext. intros i q Hq. apply list_elem_of_lookup_2 in Hq. unfold group_item, status, job_of.
  assert (q <> p) as Hne by (intros ->; by apply others_not in Hq).
  by destruct (nr_others _ _ _ H q Hne) as [_ ->].
Qed.

(** The counters with the item of [p] in front, its state given by any word of the
    same class. *)
Lemma groups_ok_at above m p n s : groups_ok above m -> (forall k, NoDup (jDataList (st m) k)) ->
  placed (st m) p n -> wf_status (status m p) -> status_of s = status_of (status m p) ->
  JobGroup.grouped (groups m) ((above p, s) :: (group_item above m <$> others (st m) p)).
Proof.
  intros [_ HG] Hnd Hp Hw Hs. eapply grouped_ext; [|exact HG]. intros k i.
  rewrite (JobGroup.tally_perm _ _ _ _ (group_items_split above m p n Hnd Hp)). simpl.
  rewrite (job_count_class s (status m p)); [done| |done|done]. unfold wf_status in *. by rewrite Hs.
Qed.

Lemma groups_ok_back above m m' p n n' s : groups_ok above m -> near p m m' ->
  (forall k, NoDup (jDataList (st m) k)) -> placed (st m) p n ->
  (forall k, NoDup (jDataList (st m') k)) -> placed (st m') p n' ->
  JobGroup.same_links (groups m) (groups m') ->
  wf_status (status m' p) -> status_of s = status_of (status m' p) ->
  JobGroup.grouped (groups m') ((above p, s) :: (group_item above m <$> others (st m) p)) ->
  groups_ok above m'.
Proof.
  intros [Hpath _] N Hnd Hp Hnd' Hp' Hlk Hw Hs HG. pose proof (linked_placed _ _ _ Hnd Hp) as HP.
  pose proof (linked_placed _ _ _ Hnd' Hp') as HP'. rewrite (same_others_eq _ _ _ (nr_lists _ _ _ N)) in HP'.
  split.
  - intros q Hq. assert (q ∈ linked (st m)) as Hq' by (rewrite HP; by rewrite HP' in Hq).
    destruct (Hpath q Hq') as [Hqi Hqp]. destruct (decide (q = p)) as [->|Hne].
    + rewrite (nr_id _ _ _ N), (nr_node _ _ _ N). split; [done|by eapply JobGroup.same_links_path].
    + unfold job_of. destruct (nr_others _ _ _ N q Hne) as [_ ->]. split; [done|by eapply JobGroup.same_links_path].
  - eapply grouped_ext; [|exact HG]. intros k i.
    rewrite (JobGroup.tally_perm _ _ _ _ (group_items_split above m' p n' Hnd' Hp')), (near_group_rest _ _ _ _ N).
    simpl. rewrite (job_count_class s (status m' p)); [done| |done|done]. unfold wf_status in *. by rewrite Hs.
Qed.

Section Groups.
Context (cfg : config).
Context (getQUsable : Accounting.mbd -> Accounting.qData -> Accounting.qData) (uninit : Z).
Context (askedHostsOk : jobBill -> bool) (parseDepCond : cstr -> option DepCond.dptNode).
Context (time now : Z) (p : jptr).
Implicit Types (m : mbs).

(** C11: A change of state keeps the counters of the job
    groups and arrays exact.  If every counter of every node equals the recount
    over the jobs on the four lists whose paths contain the node, then it does
    after [jStatusChange], at any event time, and the paths of all jobs are the
    same. *)
Theorem jStatusChange_groups above m n new ev :
  lists_ok (st m) -> groups_ok above m -> p ∈ jDataList (st m) n -> once (st m) p = false ->
  wf_status new -> change_ok (status m p) new ->
  exists m', jStatusChange cfg getQUsable uninit askedHostsOk parseDepCond time now p new ev m = Some m' /\
    groups_ok above m'.
Proof.
  intros HL HG Hin Ho Hwn Hok.
  destruct (lo_state _ HL p n Hin) as (Ha & Hw & Hn). fold (job_of m p) in Hw, Hn. fold (status m p) in Hw, Hn.
  destruct (Z.eq_dec (status_of new) (status_of (status m p))) as [E|E].
  { exists m. unfold jStatusChange. fold (status_of new) (status_of (status m p)). by rewrite E, Z.eqb_refl. }
  pose proof (lists_ok_placed _ _ _ HL Hin) as Hp. pose proof (lo_nodup _ HL) as Hnd.
  assert (p ∈ linked (st m)) as Hlp by (rewrite (linked_placed _ _ _ Hnd Hp); by left).
  destruct (go_path _ _ HG p Hlp) as [Hid Hpp].
  assert (in_tree p m) as Htree by (intros _; by eexists).
  destruct (jStatusChange_steps cfg getQUsable uninit askedHostsOk parseDepCond time now p m n new ev
              Ha Hnd Hp Hn Ho Hw Hwn Hok E) as
    (t & m0 & m1 & m2 & m3 & m4 & m' & n' & Hrun & Hgt & HS); [intros s _; by apply in_tree_change|].
  destruct (mask_status_of new) as [Hst Hmm]. exists m'. split; [done|].
  assert (status_of (status m1 p) = status_of (status m p)) as Hs1.
  { destruct HS as [_ A0 F1 _ _ _ _ _]. by rewrite (proj1 (sl_state _ _ _ F1)), (ap_state _ _ _ A0). }
  apply (steps_changed _ _ _ _ _ _ _ _ _ _ _ _ _ _ _ _ Ha Hw Hmm) in HS as [N Ha' Hnd' Hpl' Hs' Hgr].
  unfold groups_change in Hgt. rewrite (proj2 (Z.leb_le _ _) Hid) in Hgt.
  pose proof (groups_ok_at above m p n (status m1 p) HG Hnd Hp Hw Hs1) as HG1.
  destruct (JobGroup.upd_counts_grouped _ _ _ _ (MASK_STATUS new) [] _ _ Hpp (JobGroup.path_length _ _ _ Hpp) HG1)
    as (t' & E' & Hlk & HG2).
  rewrite Hgt in E'. injection E' as <-. rewrite <- Hgr in Hlk, HG2.
  apply (groups_ok_back above m m' p n n' (MASK_STATUS new)); try done.
  unfold wf_status in *. by rewrite Hs', Hst.
Qed.
End Groups.

(** ** Witnesses: the job, user, queue and host of [Accounting], below one group *)

Definition demo_cfg : config := Config (fun _ => 30) (fun _ => 0) 0 false false false.
Definition demo_hosts (_ : jobBill) : bool := true.
Definition demo_cond (_ : cstr) : option DepCond.dptNode := None.
Definition demo_job (s : Z) : job :=
  Job 7 s 500 Accounting.normal Accounting.alice (Some [Accounting.hostA; Accounting.hostA]) 1 (Some 2%positive)
    JGRP_NODE_JOB 0 0 0 1 (-1) 0 0 (Times 0 0 0 0 0 0 0) (PendEvent false 0 0 0 0 false) None.
Definition demo_bill : jobBill := JobBill 0 0 100 (-1) 2 Accounting.normal [] None.
Definition demo_list (n : jlistno) : jlists :=
  match n with
  | SJL => JLists [1%positive] [] [] [] | MJL => JLists [] [1%positive] [] []
  | PJL => JLists [] [] [1%positive] [] | FJL => JLists [] [] [] [1%positive]
  end.
Definition demo_counts (s : Z) : list Z := <[0%nat := 1]> (<[getIndexOfJStatus s := 1]> (replicate 9 0)).
Definition demo_tree (s : Z) : JobGroup.tree :=
  <[1%positive := JobGroup.JgTreeNode None (Some 2%positive) None None [] (JobGroup.JGRP_DATA (demo_counts s))]>
    {[2%positive := JobGroup.JgTreeNode (Some 1%positive) None None None [] (JobGroup.JOB_DATA 1)]}.
Definition demo_mbs (s : Z) (n : jlistno) (w hw : Accounting.counts) : mbs :=
  Mbs (Store {[1%positive := demo_job s]} {[1%positive := demo_bill]} (demo_list n))
    (Accounting.demo_mbd w hw) (demo_tree s) [] false 0.
Definition demo_above (_ : jptr) : list positive := [2; 1]%positive.

Lemma demo_linked s n w hw : linked (st (demo_mbs s n w hw)) = [1%positive].
Proof. by destruct n. Qed.

Lemma demo_elem q s n k w hw : q ∈ jDataList (st (demo_mbs s n w hw)) k -> q = 1%positive /\ k = n.
Proof.
  destruct n, k; simpl; rewrite ?elem_of_cons, ?elem_of_nil; tauto.
Qed.

Lemma demo_lists_ok s n w hw : wf_status s -> n ∈ lists_of_status s -> lists_ok (st (demo_mbs s n w hw)).
Proof.
  intros Hw Hn. split.
  - intros k. destruct n, k; simpl; repeat constructor; rewrite elem_of_nil; tauto.
  - intros q k k' [_ ->]%demo_elem [_ ->]%demo_elem. done.
  - intros q k [-> ->]%demo_elem. by split; [exists (demo_job s)|].
Qed.

Lemma demo_counted s n w hw : Accounting.job_weight (Accounting.demo_job s) = w ->
  Accounting.ctimes 2 (Accounting.host_weight s) = hw -> counted_ok (demo_mbs s n w hw).
Proof.
  intros Hw Hhw. unfold counted_ok, views. rewrite demo_linked.
  change (acct_job (st (demo_mbs s n w hw)) <$> [1%positive]) with [Accounting.demo_job s].
  split; [by apply Accounting.demo_accounted|]. split; [|apply Accounting.demo_groups].
  constructor; [apply Accounting.demo_wf|constructor].
Qed.

Lemma demo_path s : JobGroup.path (demo_tree s) (Some 2%positive) [2; 1]%positive.
Proof. do 2 (econstructor; [done|]). constructor. Qed.

Lemma demo_groups_ok s n w hw : wf_status s -> groups_ok demo_above (demo_mbs s n w hw).
Proof.
  intros Hw. split.
  - intros q. rewrite demo_linked, elem_of_cons, elem_of_nil. intros [->|[]]. split; [done|apply demo_path].
  - unfold group_items. rewrite demo_linked. change (groups (demo_mbs s n w hw)) with (demo_tree s).
    change (group_item demo_above (demo_mbs s n w hw) <$> [1%positive]) with [([2; 1]%positive, s)].
    intros k nd c Hk Hc. unfold demo_tree in Hk.
    destruct (decide (k = 1%positive)) as [->|H1].
    + rewrite lookup_insert_eq in Hk. injection Hk as <-. injection Hc as <-.
      assert (Z.eqb s JOB_STAT_NULL = false) as Hs.
      { apply Z.eqb_neq. intros ->. destruct (wf_status_cases _ Hw) as [H|[H|[H|[H|[H|[H|H]]]]]]; discriminate H. }
      unfold JobGroup.tally, JobGroup.job_count, demo_counts. rewrite Hs.
      assert (bool_decide (1%positive ∈ [2; 1]%positive) = true) as -> by done.
      rewrite <- (index_status_of s). split; [by rewrite !length_insert|].
      destruct (wf_status_cases _ Hw) as [->|[->|[->|[->|[->|[->| ->]]]]]];
        intros i Hi; do 8 (destruct i as [|i]; [done|]); cbv in Hi; lia.
    + rewrite lookup_insert_ne in Hk by done. apply lookup_singleton_Some in Hk as [<- <-]. discriminate Hc.
Qed.

(** A pending job is started. *)
Lemma jStatusChange_lists_witness :
  let m := demo_mbs JOB_STAT_PEND PJL Accounting.w_pend Accounting.czero in
  exists m' n', jStatusChange demo_cfg Accounting.demo_usable 0 demo_hosts demo_cond 900 900 1 JOB_STAT_RUN LOG_IT m = Some m' /\
    lists_ok (st m') /\ 1%positive ∈ jDataList (st m') n' /\ n' ∈ lists_of_status JOB_STAT_RUN.
Proof.
  intros m.
  destruct (jStatusChange_lists demo_cfg Accounting.demo_usable 0 demo_hosts demo_cond 900 900 1 m PJL JOB_STAT_RUN LOG_IT)
    as (m' & n' & H1 & H2 & H3 & H4 & _).
  - apply demo_lists_ok; by apply (bool_decide_unpack _).
  - by apply (bool_decide_unpack _).
  - reflexivity.
  - intros _. exists [2; 1]%positive. apply demo_path.
  - by apply (bool_decide_unpack _).
  - split; [reflexivity|discriminate].
  - exists m', n'. by split_and!.
Defined.

(** A running job goes back to its queue. *)
Lemma jStatusChange_counters_witness :
  let m := demo_mbs JOB_STAT_RUN SJL Accounting.w_run (Accounting.Counts 2 0 2 0 0 0) in
  exists m', jStatusChange demo_cfg Accounting.demo_usable 0 demo_hosts demo_cond 900 900 1 JOB_STAT_PEND LOG_IT m = Some m' /\
    counted_ok m' /\ status_of (status m' 1) = JOB_STAT_PEND.
Proof.
  intros m.
  apply (jStatusChange_counters demo_cfg Accounting.demo_usable 0 demo_hosts demo_cond 900 900 1 (fun _ _ => eq_refl)
           m SJL JOB_STAT_PEND LOG_IT).
  - apply demo_lists_ok; by apply (bool_decide_unpack _).
  - by apply demo_counted.
  - by apply (bool_decide_unpack _).
  - reflexivity.
  - intros _. exists [2; 1]%positive. apply demo_path.
  - by apply (bool_decide_unpack _).
  - reflexivity.
  - reflexivity.
  - discriminate.
  - discriminate.
  - by right.
Defined.

(** A running job finishes. *)
Lemma jStatusChange_groups_witness :
  let m := demo_mbs JOB_STAT_RUN SJL Accounting.w_run (Accounting.Counts 2 0 2 0 0 0) in
  exists m', jStatusChange demo_cfg Accounting.demo_usable 0 demo_hosts demo_cond 900 900 1 JOB_STAT_DONE LOG_IT m = Some m' /\
    groups_ok demo_above m'.
Proof.
  intros m.
  apply (jStatusChange_groups demo_cfg Accounting.demo_usable 0 demo_hosts demo_cond 900 900 1
           demo_above m SJL JOB_STAT_DONE LOG_IT).
  - apply demo_lists_ok; by apply (bool_decide_unpack _).
  - apply demo_groups_ok. by apply (bool_decide_unpack _).
  - by apply (bool_decide_unpack _).
  - reflexivity.
  - by apply (bool_decide_unpack _).
  - split; [reflexivity|discriminate].
Defined.

(** ** A submission for one run *)

(** The running job has been modified for this run only: [newSub] keeps the
    submission that is to come back, for the queue [night]. *)
Definition once_bill (q : cstr) : jobBill := JobBill SUB_MODIFY_ONCE 0 100 (-1) 2 q [] None.
Definition once_mbs : mbs :=
  let m := demo_mbs JOB_STAT_RUN SJL Accounting.w_run (Accounting.Counts 2 0 2 0 0 0) in
  on_bill 1 (fun _ => once_bill Accounting.normal)
    (on_job 1 (set_newSub (Some (once_bill Accounting.night))) m).

(** When such a job finishes, [handleFinishJob] puts the old submission back
    before [updCounters] runs: the slots are taken from the queue [night], and
    the queue [normal], in which the job ran, counts it for ever. *)
Theorem modify_once_counters :
  counted_ok once_mbs /\
  exists m', jStatusChange demo_cfg Accounting.demo_usable 0 demo_hosts demo_cond 900 900 1 JOB_STAT_DONE LOG_IT
      once_mbs = Some m' /\
    IS_FINISH (status m' 1) = true /\ Accounting.q_view (acct m') !! Accounting.normal = Some Accounting.w_run /\
    ~ counted_ok m'.
Proof.
  split.
  { pose proof (demo_counted JOB_STAT_RUN SJL Accounting.w_run (Accounting.Counts 2 0 2 0 0 0) eq_refl eq_refl) as H.
    exact H. }
  assert ((fun m' => (IS_FINISH (status m' 1), Accounting.q_view (acct m') !! Accounting.normal, views (st m'))) <$>
    jStatusChange demo_cfg Accounting.demo_usable 0 demo_hosts demo_cond 900 900 1 JOB_STAT_DONE LOG_IT once_mbs =
    Some (true, Some Accounting.w_run,
      [Accounting.j_set_qPtr Accounting.night (Accounting.demo_job (Z.lor JOB_STAT_DONE JOB_STAT_MODIFY_ONCE))])) as E
    by (vm_compute; reflexivity).
  destruct (jStatusChange _ _ _ _ _ _ _ _ _ _ _) as [m'|]; [|discriminate E]. exists m'. split; [done|].
  injection E as E1 E2 E3. split; [done|]. split; [done|]. intros (HA & _ & _).
  pose proof (Accounting.acc_q _ _ HA _ _ E2) as H. rewrite E3 in H. discriminate H.
Qed.
