(* ===== verification/JobRequeue.v ===== *)
(** * A finished job returns to its queue

    [handleRequeueJob] resets a finished job and links it on [PJL] again, pending
    or suspended.  The theorem is the counterpart of those of [JobChange]: the
    lists, the counters and the counters of the groups stay consistent. *)

From S2P Require Import Prelude JobStatus JobLists JobState JobChange.
From S2P Require Accounting JobGroup DepCond.

(** ** A job that does not count *)

Lemma finished_weights s num req : IS_FINISH s = true -> wf_status s ->
  Accounting.host_weight s = Accounting.czero /\ Accounting.slot_weight s num req = Accounting.czero.
Proof.
  intros Hf Hw. unfold Accounting.host_weight, Accounting.slot_weight.
  assert (status_of s = JOB_STAT_EXIT \/ status_of s = JOB_STAT_DONE) as [-> | ->]; [|done..].
  revert Hf. destruct (wf_status_cases _ Hw) as [H|[H|[H|[H|[H|[H|H]]]]]]; auto; unfold IS_FINISH;
    rewrite !(has_status_of s) by reflexivity; by rewrite H.
Qed.

(** A finished job that is to be pending is counted with its processors; its
    hosts may have been freed before. *)
Section Count.
Context (getQUsable : Accounting.mbd -> Accounting.qData -> Accounting.qData) (uninit : Z).
Hypothesis getQUsable_cnt : forall a q, Accounting.q_cnt (getQUsable a q) = Accounting.q_cnt q.

Lemma book_requeue a j s rest : book a j rest -> wf_status (Accounting.jStatus j) ->
  IS_FINISH (Accounting.jStatus j) = true -> wf_status s -> IS_PEND s = true -> has s JOB_STAT_RESERVE = false ->
  let j' := no_hosts (Accounting.j_set_status s j) in
  let n := Accounting.maxNumProcessors j in
  let d := Accounting.Counts n n 0 0 0 0 in
  book (Accounting.updUserData uninit (Accounting.updQaccount getQUsable a j' d) j' d) j' rest.
Proof.
  intros Hb Hw Hf Hws Hp Hr j' n d. pose proof (book_max _ _ _ Hb) as Hn. destruct Hb as [Ha Hj Hg].
  inversion Hj as [|? ? [H1 H2 H3] Hrest]; subst.
  assert (Accounting.wf_job a j') as Hj' by (split; [done|done|constructor]).
  destruct (finished_weights _ (Accounting.numHostPtr j) n Hf Hw) as [Fh Fs].
  destruct (pending_weights s Hp Hws Hr) as [Ph _].
  assert (Accounting.slot_weight s 0 n = Accounting.cadd Accounting.czero d) as Ps.
  { unfold Accounting.slot_weight. rewrite Hr.
    assert (status_of s = JOB_STAT_PEND \/ status_of s = JOB_STAT_PSUSP) as [-> | ->].
    - revert Hp. destruct (wf_status_cases _ Hws) as [H|[H|[H|[H|[H|[H|H]]]]]]; auto; unfold IS_PEND;
        rewrite !(has_status_of s) by reflexivity; by rewrite H.
    - apply Accounting.counts_eq; simpl; lia.
    - apply Accounting.counts_eq; simpl; lia. }
  set (a' := Accounting.updUserData _ _ _ _).
  assert (Accounting.job_step a a' j' d Accounting.czero) as Hs.
  { by apply (Accounting.QU_step getQUsable uninit getQUsable_cnt). }
  assert (Accounting.accounted_with a [] rest (Accounting.qPtr j') (Accounting.uPtr j') (Accounting.hlist j')
            Accounting.czero Accounting.czero) as Hwith.
  { apply (Accounting.accounted_with_job a [] j rest) in Ha.
    unfold Accounting.job_weight in Ha. fold n in Ha. rewrite Fh, Fs in Ha. destruct Ha as [Hq Hu Hh]. split; try done.
    simpl in *. exact (Accounting.recount_zero _ [] _ [] _ Hh). }
  split.
  - apply (Accounting.accounted_with_job a' [] j' rest).
    change (Accounting.job_weight j') with (Accounting.slot_weight s 0 n).
    change (Accounting.jStatus j') with s. rewrite Ps, Ph.
    change (Accounting.czero) with (Accounting.cadd Accounting.czero Accounting.czero) at 2.
    assert (Accounting.cnonneg d) as Hd by (unfold Accounting.cnonneg, d; simpl; lia).
    apply Accounting.accounted_with_step with (m := a); try done.
  - eapply Forall_impl; [|intros x; apply (Accounting.same_env_job a a'), (Accounting.js_env _ _ _ _ _ Hs)].
    by constructor.
  - eapply Accounting.same_env_groups; [apply (Accounting.js_env _ _ _ _ _ Hs)|done].
Qed.
End Count.

(** ** The steps *)

(** The state may change, the rest of the job's view does not. *)
Lemma quiet_view p m m' : quiet p (st m) (st m') ->
  acct_job (st m') p = Accounting.j_set_status (status m' p) (acct_job (st m) p).
Proof. intros [_ H _ _ _]. exact H. Qed.

Lemma quiet_set_status p f m : alive p m -> quiet p (st m) (st (on_job p (set_jStatus f) m)).
Proof. intros Ha. by apply (quiet_job p (set_jStatus f) (st m)); [intros j; split_and!|]. Qed.

Section Requeue.
Context (cfg : config).
Context (getQUsable : Accounting.mbd -> Accounting.qData -> Accounting.qData) (uninit : Z).
Context (askedHostsOk : jobBill -> bool) (parseDepCond : cstr -> option DepCond.dptNode).
Context (p : jptr).
Implicit Types (m : mbs).

(** The job as [requeue_lists] leaves it: pending or suspended, at its place on
    [PJL]. *)
Record requeued m m' : Prop := {
  rq_quiet : quiet p (st m) (st m');
  rq_others : same_others p (st m) (st m');
  rq_nodup : forall k, NoDup (jDataList (st m') k);
  rq_placed : placed (st m') p PJL;
  rq_state : status_of (status m' p) = JOB_STAT_PEND \/ status_of (status m' p) = JOB_STAT_PSUSP;
  rq_reserve : has (status m' p) JOB_STAT_RESERVE = false;
  rq_acct : acct m' = acct m }.

Lemma updJgrp_follow m old new l : JobGroup.path (groups m) (jgrpNode (job_of m p)) l ->
  exists t, updJgrp p old new m = Some (set_groups t m) /\ JobGroup.same_links (groups m) t /\
    forall J, JobGroup.grouped (groups m) ((l, old) :: J) -> JobGroup.grouped t ((l, new) :: J).
Proof.
  intros Hp. pose proof (JobGroup.path_length _ _ _ Hp) as Hlen.
  destruct (JobGroup.upd_counts_spec _ _ _ old new _ Hp Hlen) as (t & E & Hl & _).
  exists t. unfold updJgrp. rewrite E. split; [done|]. split; [done|]. intros J HG.
  destruct (JobGroup.upd_counts_grouped _ _ _ old new [] J _ Hp Hlen HG) as (t' & E' & _ & HG').
  rewrite E in E'. injection E' as <-. exact HG'.
Qed.

(** What is reset neither moves the job nor changes its state. *)
Lemma requeue_reset_still m : alive p m -> newSub (job_of m p) = None ->
  still p m (requeue_reset askedHostsOk parseDepCond p m).
Proof.
  intros Ha Hnone. unfold requeue_reset. cbv zeta.
  set (ma := on_job p _ m). assert (still p m ma) as Hsa by (unfold ma; still).
  assert (newSub (job_of ma p) = None) as -> by (unfold ma, job_of, on_job; simpl; by rewrite the_job_self).
  rewrite bool_decide_false by (intros H; by apply H). clearbody ma.
  set (mb := match dptRoot (bill_of ma p) with Some _ => _ | None => ma end).
  assert (still p m mb) as Hsb by (unfold mb; still). clearbody mb.
  set (mc := on_job p (set_runCount _) mb). assert (still p m mc) as Hsc by (unfold mc; still). clearbody mc.
  set (md := on_job p (set_jFlags _) mc). assert (still p m md) as Hsd by (unfold md; still). clearbody md.
  set (me := on_job p (set_jFlags _) md). assert (still p m me) as Hse by (unfold me; still). clearbody me.
  set (mf := if _ && _ then _ else me). assert (still p m mf) as Hsf by (unfold mf; still). clearbody mf.
  still.
Qed.

Lemma requeued_still m m1 m2 : requeued m m1 -> still p m1 m2 -> requeued m m2.
Proof.
  intros [R1 R2 R3 R4 R5 R6 R7] [S1 [S2 S3] S4 S5 S6].
  assert (forall k, jDataList (st m2) k = jDataList (st m1) k) as Hk by (intros k; unfold jDataList; by rewrite S4).
  split; [by eapply quiet_trans| | | | | |congruence].
  - intros k. rewrite Hk. apply R2.
  - intros k. rewrite Hk. apply R3.
  - intros k. rewrite Hk. apply R4.
  - by rewrite S2.
  - by rewrite S3.
Qed.

(** A change of the state word alone. *)
Lemma requeued_status m m1 s : requeued m m1 -> alive p m1 ->
  status_of s = JOB_STAT_PEND \/ status_of s = JOB_STAT_PSUSP -> has s JOB_STAT_RESERVE = false ->
  requeued m (on_job p (set_jStatus (fun _ => s)) m1).
Proof.
  intros [R1 R2 R3 R4 R5 R6 R7] Ha Hs Hr. destruct (view_status p m1 (fun _ => s) Ha) as [_ T].
  split; rewrite ?T; try done. eapply quiet_trans; [exact R1|by apply quiet_set_status].
Qed.

(** Off [FJL], onto [PJL]. *)
Lemma requeue_link_requeued m rt : alive p m -> (forall k, NoDup (jDataList (st m) k)) -> placed (st m) p FJL ->
  requeued m (requeue_link cfg p rt m) /\ groups (requeue_link cfg p rt m) = groups m /\
  status_of (status (requeue_link cfg p rt m) p) = JOB_STAT_PEND.
Proof.
  intros Ha Hnd Hp. unfold requeue_link, jobRequeueTimeUpdate. cbv zeta.
  set (m2 := on_job p (set_jStatus _) m). assert (alive p m2) as Ha2 by by apply alive_upd.
  set (m3 := on_job p (set_jobPriority _) m2). assert (still p m2 m3) as H3 by (unfold m3; still).
  assert (relinked p None m3 (set_st (offJobList FJL p) m3)) as H4 by by apply off_relinked.
  pose proof (still_relinked _ _ _ _ _ H3 H4) as H24. set (m4 := set_st (offJobList FJL p) m3) in *.
  pose proof (relinked_alive _ _ _ _ H24 Ha2) as Ha4. set (m5 := set_st (inPendJobList cfg p PJL rt) m4).
  assert (relinked p (Some PJL) m4 m5) as H5.
  { apply inPend_relinked; [done|apply (rl_nodup _ _ _ _ H24)|by eapply relinked_absent]. }
  pose proof (relinked_trans _ _ _ _ _ _ H24 H5) as H25. pose proof (relinked_alive _ _ _ _ H25 Ha2) as Ha5.
  set (m6 := on_job p (set_tm _) m5). assert (still p m5 m6) as H6 by (unfold m6; still).
  pose proof (relinked_still _ _ _ _ _ H25 H6) as [Q [S R] O N P A G].
  destruct (view_status p m (fun _ => JOB_STAT_PEND) Ha) as [_ T2]. fold m2 in T2. rewrite T2 in S, R.
  split; [|by rewrite G, S]. split; try done.
  - eapply quiet_trans; [|exact Q]. by apply quiet_set_status.
  - intros k. rewrite P. split; congruence.
  - left. by rewrite S.
Qed.

Lemma requeue_suspend_requeued m m1 l : requeued m m1 -> alive p m1 -> status_of (status m1 p) = JOB_STAT_PEND ->
  JobGroup.path (groups m1) (jgrpNode (job_of m1 p)) l ->
  exists m' s, requeue_suspend p m1 = Some m' /\ requeued m m' /\ JobGroup.same_links (groups m1) (groups m') /\
    wf_status s /\ status_of s = status_of (status m' p) /\
    forall J, JobGroup.grouped (groups m1) ((l, JOB_STAT_PEND) :: J) -> JobGroup.grouped (groups m') ((l, s) :: J).
Proof.
  intros HR Ha Hst Hpath. unfold requeue_suspend, setJobPendReason. destruct (_ =? JOB_STAT_PSUSP).
  - set (m7 := on_job p (set_jStatus (fun _ => JOB_STAT_PSUSP)) m1).
    assert (requeued m m7) as R7 by (apply requeued_status; [done|done|by right|done]).
    assert (alive p m7) as Ha7 by by apply alive_upd.
    set (m8 := on_job p (set_reason _) m7). assert (still p m7 m8) as H8 by (unfold m8; still). clearbody m8.
    assert (JobGroup.path (groups m8) (jgrpNode (job_of m8 p)) l) as Hpath8.
    { rewrite (sl_groups _ _ _ H8). change (groups m7) with (groups m1). unfold job_of.
      rewrite (qt_node _ _ _ (sl_quiet _ _ _ H8)). unfold m7, on_job. simpl. by rewrite the_job_self. }
    destruct (updJgrp_follow m8 JOB_STAT_PEND JOB_STAT_PSUSP l Hpath8) as (t2 & -> & Hlk & HG).
    rewrite (sl_groups _ _ _ H8) in Hlk, HG. cbn [mbind option_bind].
    set (m8' := set_groups t2 m8). assert (alive p m8') as Ha8 by (change (alive p m8); by eapply still_alive).
    set (m9 := on_job p (set_pend _) m8'). assert (still p m8' m9) as H9 by (unfold m9; still).
    assert (requeued m m8') as R8 by (destruct (requeued_still _ _ _ R7 H8); by split).
    exists m9, JOB_STAT_PSUSP. split; [done|]. split; [by eapply requeued_still|].
    rewrite (sl_groups _ _ _ H9), (proj1 (sl_state _ _ _ H9)). change (status m8' p) with (status m8 p).
    rewrite (proj1 (sl_state _ _ _ H8)). destruct (view_status p m1 (fun _ => JOB_STAT_PSUSP) Ha) as [_ T7].
    fold m7 in T7. rewrite T7. split_and!; [done|by apply (bool_decide_unpack _)|done|exact HG].
  - set (m7 := on_job p (set_reason _) m1). assert (still p m1 m7) as H7 by (unfold m7; still).
    exists m7, JOB_STAT_PEND. split; [done|]. split; [by eapply requeued_still|].
    rewrite (sl_groups _ _ _ H7), (proj1 (sl_state _ _ _ H7)), Hst.
    split_and!; [done|by apply (bool_decide_unpack _)|done|done].
Qed.

Lemma requeue_lists_steps m l : alive p m -> (forall k, NoDup (jDataList (st m) k)) -> placed (st m) p FJL ->
  newSub (job_of m p) = None -> JobGroup.path (groups m) (jgrpNode (job_of m p)) l -> forall rt,
  exists old m', requeue_lists cfg askedHostsOk parseDepCond p rt m = Some m' /\ requeued m m' /\
    status_of old = status_of (status m p) /\ JobGroup.same_links (groups m) (groups m') /\
    forall J, JobGroup.grouped (groups m) ((l, old) :: J) ->
      exists s, wf_status s /\ status_of s = status_of (status m' p) /\ JobGroup.grouped (groups m') ((l, s) :: J).
Proof.
  intros Ha Hnd Hp Hnone Hpath rt. unfold requeue_lists. cbv zeta.
  pose proof (requeue_reset_still m Ha Hnone) as H1. set (m1 := requeue_reset _ _ p m) in *. clearbody m1.
  exists (status m1 p).
  assert (JobGroup.path (groups m1) (jgrpNode (job_of m1 p)) l) as Hpath1.
  { rewrite (sl_groups _ _ _ H1). unfold job_of. by rewrite (qt_node _ _ _ (sl_quiet _ _ _ H1)). }
  destruct (updJgrp_follow m1 (status m1 p) JOB_STAT_PEND l Hpath1) as (t1 & -> & Hlk1 & HG1).
  rewrite (sl_groups _ _ _ H1) in Hlk1, HG1, Hpath1. cbn [mbind option_bind].
  set (m1' := set_groups t1 m1). assert (alive p m1') as Ha1 by (change (alive p m1); by eapply still_alive).
  destruct (requeue_link_requeued m1' rt Ha1) as (R2 & G2 & S2).
  { intros k. change (NoDup (jDataList (st m1) k)). by apply (still_nodup _ _ _ H1). }
  { change (placed (st m1) p FJL). by eapply still_placed. }
  set (m2 := requeue_link cfg p rt m1') in *. clearbody m2.
  assert (requeued m m2) as R2'.
  { destruct R2 as [Q O N P S R A]. split; try done.
    - eapply quiet_trans; [apply (sl_quiet _ _ _ H1)|exact Q].
    - intros k. rewrite (O k). change (remove_entry (jDataList (st m1) k) p = remove_entry (jDataList (st m) k) p).
      unfold jDataList. by rewrite (sl_lists _ _ _ H1).
    - rewrite A. apply (sl_acct _ _ _ H1). }
  assert (JobGroup.path (groups m2) (jgrpNode (job_of m2 p)) l) as Hpath2.
  { rewrite G2. unfold job_of. rewrite (qt_node _ _ _ (rq_quiet _ _ R2')). by eapply JobGroup.same_links_path. }
  destruct (requeue_suspend_requeued m m2 l R2') as (m' & s & E & R3 & Hlk2 & Hws & Hs & HG2); [|done|done|].
  { apply (qt_alive _ _ _ (rq_quiet _ _ R2')), Ha. }
  rewrite G2 in Hlk2, HG2. exists m'. split; [exact E|]. split; [exact R3|]. split; [apply (sl_state _ _ _ H1)|].
  split; [by eapply JobGroup.same_links_trans|]. intros J HG. exists s. split; [done|]. split; [done|]. by apply HG2, HG1.
Qed.

Hypothesis getQUsable_cnt : forall a q, Accounting.q_cnt (getQUsable a q) = Accounting.q_cnt q.

(** The end of [handleRequeueJob]: hosts, counters, the flag. *)
Lemma requeue_count m rt m1 : requeue_lists cfg askedHostsOk parseDepCond p rt m = Some m1 -> alive p m1 ->
  Accounting.mSchedStage (acct m1) <> Accounting.M_STAGE_REPLAY ->
  let j := acct_job (st (freeExecParams p m1)) p in
  let n := Accounting.maxNumProcessors j in
  let d := Accounting.Counts n n 0 0 0 0 in
  exists m', handleRequeueJob cfg getQUsable uninit askedHostsOk parseDepCond p rt m = Some m' /\
    apart p m1 m' /\
    acct m' = Accounting.updUserData uninit (Accounting.updQaccount getQUsable (acct m1) j d) j d /\
    acct_job (st m') p = Accounting.j_set_status (status m' p) j /\
    j = no_hosts (acct_job (st m1) p) /\ same_state (status m1 p) (status m' p).
Proof.
  intros E Ha Hst j n d. unfold handleRequeueJob. rewrite E. cbn [mbind option_bind].
  set (mf := freeExecParams p m1) in *. assert (apart p m1 mf) as Af by by apply apart_hPtr.
  assert (acct mf = acct m1 /\ acct_job (st mf) p = no_hosts (acct_job (st m1) p)) as [Hacct Hview].
  { unfold mf, freeExecParams, cleanCandHosts. set (mh := on_job p (set_hPtr None) m1).
    assert (alive p mh) as Hh by by apply alive_upd.
    assert (acct_job (st mh) p = no_hosts (acct_job (st m1) p)) as Hv.
    { unfold mh, on_job. simpl. unfold acct_job, jobBill_of. by rewrite the_job_self. }
    assert (acct mh = acct m1) as Hah by done. clearbody mh.
    assert (jStatus (the_job (st mh) p) = jStatus (the_job (st m1) p)) as Hs by exact (f_equal Accounting.jStatus Hv).
    destruct (negb _); [by split|].
    set (mk := on_job p (set_jFlags _) mh). assert (still p mh mk) as Hk by (unfold mk; still).
    split; [by rewrite (sl_acct _ _ _ Hk)|]. rewrite (view_still p _ _ Hk), Hv.
    unfold status, job_of, mk, on_job. simpl. rewrite the_job_self by done. simpl. by rewrite Hs. }
  assert (status mf p = status m1 p) as Hstat by (apply (f_equal Accounting.jStatus) in Hview; exact Hview).
  rewrite Hacct, (proj2 (Z.eqb_neq _ _) Hst). cbn [negb]. cbv zeta. fold j n d.
  set (mc := set_acct _ mf). pose proof (apart_alive _ _ _ Af Ha) as Haf. assert (alive p mc) as Hc by done.
  assert (apart p m1 mc) as Ac by (eapply apart_trans; [exact Af|apply apart_acct]).
  eexists. split; [reflexivity|]. destruct (has _ _).
  - change (acct (add_numRemoveJobs mc)) with (acct mc).
    change (status (add_numRemoveJobs mc) p) with (status mf p). rewrite Hstat.
    split; [by eapply apart_trans; [exact Ac|apply apart_eq]|]. split; [done|]. split; [|done].
    change (j = Accounting.j_set_status (status m1 p) j). rewrite <- Hstat. done.
  - set (mz := on_job p _ mc). assert (still p mc mz) as Hz by (unfold mz; still).
    split; [eapply apart_trans; [exact Ac|by apply still_apart]|]. split; [done|].
    split; [apply (view_still p mc mz Hz)|]. split; [done|]. rewrite <- Hstat. apply (sl_state _ _ _ Hz).
Qed.

(** C3: A finished job that is requeued never
    fails to return to its queue: it stands on [PJL], pending or suspended, its
    reserved or used hosts forgotten; the other jobs keep their order; and the
    four lists, all counters of queues, users and hosts, and the counters of all
    job groups are again what a recount gives. *)
Theorem handleRequeueJob_consistent above m rt :
  lists_ok (st m) -> counted_ok m -> groups_ok above m -> p ∈ jDataList (st m) FJL ->
  newSub (job_of m p) = None -> Accounting.mSchedStage (acct m) <> Accounting.M_STAGE_REPLAY ->
  exists m', handleRequeueJob cfg getQUsable uninit askedHostsOk parseDepCond p rt m = Some m' /\
    lists_ok (st m') /\ counted_ok m' /\ groups_ok above m' /\ p ∈ jDataList (st m') PJL /\
    IS_PEND (status m' p) = true /\ same_others p (st m) (st m').
Proof.
  intros HL HC HGr Hin Hnone Hstage. pose proof (go_path _ _ HGr) as Hpath.
  destruct (lo_state _ HL p FJL Hin) as (Ha & Hw & Hfin). fold (job_of m p) in Hw, Hfin.
  fold (status m p) in Hw, Hfin.
  pose proof (lists_ok_placed _ _ _ HL Hin) as Hp. pose proof (lo_nodup _ HL) as Hnd.
  pose proof (linked_placed _ _ _ Hnd Hp) as HP.
  assert (p ∈ linked (st m)) as Hlp by (rewrite HP; by left). destruct (Hpath p Hlp) as [Hid Hpp].
  destruct (requeue_lists_steps m _ Ha Hnd Hp Hnone Hpp rt) as (old & m1 & E & R & Hold & Hlk & HG1).
  pose proof R as [Q O N P S Rv A]. assert (alive p m1) as Ha1 by by apply (qt_alive _ _ _ Q).
  rewrite <- A in Hstage.
  destruct (requeue_count m rt m1 E Ha1 Hstage) as (m' & E' & A' & Hacct & Hview & Hj & Hs' & Hr').
  exists m'. split; [exact E'|].
  assert (near p m m1) as N1 by (pose proof (quiet_id _ _ _ Q); destruct Q; by split).
  assert (near p m m') as N' by (eapply near_trans; [exact N1|by apply apart_near]).
  assert (forall k, jDataList (st m') k = jDataList (st m1) k) as Hk.
  { intros k. unfold jDataList. by rewrite (ap_lists _ _ _ A'). }
  assert (forall k, NoDup (jDataList (st m') k)) as Hnd' by (intros k; rewrite Hk; apply N).
  assert (placed (st m') p PJL) as Hp' by (intros k; rewrite Hk; apply P).
  rewrite <- Hs' in S. rewrite <- Hr' in Rv.
  assert (wf_status (status m' p)) as Hw'.
  { unfold wf_status. destruct S as [-> | ->]; by apply (bool_decide_unpack _). }
  assert (IS_PEND (status m' p) = true) as Hpend.
  { unfold IS_PEND. rewrite !(has_status_of (status m' p)) by reflexivity. by destruct S as [-> | ->]. }
  split_and!; [| | |by apply Hp'|done|apply N'].
  - apply (near_lists_ok p PJL m m'); try done.
    destruct (status_partition _ Hw') as [(_&S2&F2)|[(?&_&_)|(?&_&_)]]; try congruence.
    unfold lists_of_status. rewrite S2, F2. by left.
  - apply (counted_ok_book m' p PJL Hnd' Hp'). rewrite (near_rest _ _ _ N').
    apply (counted_ok_book m p FJL Hnd Hp) in HC.
    rewrite Hview. apply book_status; [by rewrite Hj|]. rewrite Hacct, Hj, A.
    rewrite (quiet_view p m m1 Q).
    assert (IS_FINISH (status m p) = true) as F.
    { unfold lists_of_status in Hfin. destruct (IS_FINISH _); [done|].
      destruct (IS_START _); rewrite !elem_of_cons, elem_of_nil in Hfin; naive_solver. }
    apply (book_requeue getQUsable uninit getQUsable_cnt _ _ (status m1 p) _ HC Hw F).
    + unfold wf_status in *. by rewrite <- Hs'.
    + by rewrite <- (proj1 (Accounting.class_of_status _ _ Hs')).
    + congruence.
  - pose proof (groups_ok_at above m p FJL old HGr Hnd Hp Hw Hold) as HG0.
    destruct (HG1 _ HG0) as (s & Hws & Hss & HG2). rewrite <- (ap_groups _ _ _ A') in Hlk, HG2.
    apply (groups_ok_back above m m' p FJL PJL s); try done. by rewrite Hss, Hs'.
Qed.
End Requeue.

(** A job that is done is requeued. *)
Lemma handleRequeueJob_consistent_witness :
  let m := demo_mbs JOB_STAT_DONE FJL Accounting.czero Accounting.czero in
  exists m', handleRequeueJob demo_cfg Accounting.demo_usable 0 demo_hosts demo_cond 1 900 m = Some m' /\
    lists_ok (st m') /\ counted_ok m' /\ groups_ok demo_above m' /\ 1%positive ∈ jDataList (st m') PJL.
Proof.
  intros m.
  destruct (handleRequeueJob_consistent demo_cfg Accounting.demo_usable 0 demo_hosts demo_cond 1 (fun _ _ => eq_refl)
              demo_above m 900) as (m' & H1 & H2 & H3 & H4 & H5 & _).
  - apply demo_lists_ok; by apply (bool_decide_unpack _).
  - by apply demo_counted.
  - apply demo_groups_ok. by apply (bool_decide_unpack _).
  - by apply (bool_decide_unpack _).
  - reflexivity.
  - discriminate.
  - exists m'. by split_and!.
Defined.
