(* ===== verification/JobNew.v ===== *)
(** * Jobs are created and removed (mbd.job.c, mbd.jarray.c)

    [handleNewJob] and [handleNewJobArray] put a submitted job, or the elements of a
    job array, into the job table, on the list of pending jobs, into the tree of job
    groups and into the counters; [removeJob] takes a finished job out.

    The state joins that of [JobState] with the job table of [JobId], the chains
    [nextJob] of the elements of each array and the observer of the tree. The
    theorem of the file says that a new array leaves all of them consistent. *)

From S2P Require Import Prelude CLib JobStatus HashTable JobId JobLists.
From S2P Require Import JobGroup JobTree JobForest JobClip JobState JobArray.
From S2P Require Accounting DepCond.

(** ** Data *)

Definition SUB_JOB_NAME : Z := 0x01.
Definition PEND_JOB_NEW : Z := 1.
Definition MAX_JOB_PRIORITY : Z := INFINIT_INT.

(** How [handleNewJob] is called: for a submission, or for a record of the log. *)
Inductive job_kind := JOB_NEW | JOB_REPLAY.

(** [elements] is the chain that starts at [nextJob] of an array; [limits] is
    [maxJLimit] of the arrays; [zombies] is the list ZJL. *)
Record sys {T : Type} := Sys {
  ms : mbs; jobIdHT : T; elements : gmap jptr (list jptr); limits : gmap nptr Z;
  observer : option nptr; zombies : list jptr }.
Arguments sys : clear implicits.
Arguments Sys {T}.

Section Fields.
Context {T : Type}.
Implicit Type s : sys T.
Definition on_ms (f : mbs -> mbs) s : sys T :=
  Sys (f (ms s)) (jobIdHT s) (elements s) (limits s) (observer s) (zombies s).
Definition set_table (t : T) s : sys T := Sys (ms s) t (elements s) (limits s) (observer s) (zombies s).
Definition on_elements (f : gmap jptr (list jptr) -> gmap jptr (list jptr)) s : sys T :=
  Sys (ms s) (jobIdHT s) (f (elements s)) (limits s) (observer s) (zombies s).
Definition set_limit (n : nptr) (v : Z) s : sys T :=
  Sys (ms s) (jobIdHT s) (elements s) (<[n := v]> (limits s)) (observer s) (zombies s).
Definition set_observer (o : option nptr) s : sys T :=
  Sys (ms s) (jobIdHT s) (elements s) (limits s) o (zombies s).
Definition set_zombies (l : list jptr) s : sys T :=
  Sys (ms s) (jobIdHT s) (elements s) (limits s) (observer s) l.
End Fields.

Definition set_jobId (v : Z) (j : job) : job :=
  Job v (jStatus j) (userId j) (qPtr j) (uPtr j) (hPtr j) (shared j) (jgrpNode j)
    (nodeType j) (newReason j) (subreasons j) (jFlags j) (runCount j) (jobPriority j)
    (restartPid j) (jobPid j) (tm j) (pend j) (newSub j).
Definition set_uPtr (v : cstr) (j : job) : job :=
  Job (jobId j) (jStatus j) (userId j) (qPtr j) v (hPtr j) (shared j) (jgrpNode j)
    (nodeType j) (newReason j) (subreasons j) (jFlags j) (runCount j) (jobPriority j)
    (restartPid j) (jobPid j) (tm j) (pend j) (newSub j).
Definition set_nodeType (v : Z) (j : job) : job :=
  Job (jobId j) (jStatus j) (userId j) (qPtr j) (uPtr j) (hPtr j) (shared j) (jgrpNode j)
    v (newReason j) (subreasons j) (jFlags j) (runCount j) (jobPriority j)
    (restartPid j) (jobPid j) (tm j) (pend j) (newSub j).
Definition set_jgrpNode (v : option nptr) (j : job) : job :=
  Job (jobId j) (jStatus j) (userId j) (qPtr j) (uPtr j) (hPtr j) (shared j) v
    (nodeType j) (newReason j) (subreasons j) (jFlags j) (runCount j) (jobPriority j)
    (restartPid j) (jobPid j) (tm j) (pend j) (newSub j).

(** ** Operations *)

Section New.
Context {T : Type} `{!StrTable T jptr}.
Context (cfg : config).
Context (getQUsable : Accounting.mbd -> Accounting.qData -> Accounting.qData) (uninit : Z).
Context (askedHostsOk : jobBill -> bool) (parseDepCond : cstr -> option DepCond.dptNode).
Context (time now : Z).

(** JOB_PRIORITY_OVER_TIME of lsb.params; the user name, the name and the command of a
    job; the root of the tree of groups. *)
Context (jobPriorityValue jobPriorityTime : Z).
Context (userName jobName command : jptr -> cstr) (groupRoot : option nptr).

Definition replaying (s : sys T) : bool :=
  Accounting.mSchedStage (acct (ms s)) =? Accounting.M_STAGE_REPLAY.
Definition elements_of (s : sys T) (a : jptr) : list jptr := default [] (elements s !! a).

(** The fields [jgrpNode] and [jStatus] of all jobs. *)
Definition node_of (s : sys T) (p : jptr) : option nptr := jgrpNode (job_of (ms s) p).
Definition status_at (s : sys T) (p : jptr) : Z := status (ms s) p.

(** mbd.job.c: the priority after the time that passed since the submission. The sums are
    those of unsigned longs; [None] is a division by zero. *)
Definition modifyJobPriority (p : jptr) (subPriority : Z) (m : mbs) : option mbs :=
  let timeIntvl := uint64 (Z.quot (time - submitTime (bill_of m p)) 60) in
  if (jobPriorityValue <? 0) || (jobPriorityTime <? 0) then Some (on_job p (set_jobPriority subPriority) m)
  else if jobPriorityTime =? 0 then None
  else
    let newVal := uint32 (uint64 (subPriority + uint64 (timeIntvl * jobPriorityValue) / jobPriorityTime)) in
    Some (on_job p (set_jobPriority (int32 (Z.min newVal MAX_JOB_PRIORITY))) m).

(** mbd.jarray.c: an element leaves the chain of its array. *)
Fixpoint remove_first (x : jptr) (l : list jptr) : list jptr :=
  match l with [] => [] | y :: l => if bool_decide (y = x) then l else y :: remove_first x l end.

Definition offArray (p : jptr) (s : sys T) : option (sys T) :=
  match node_of s p with
  | None => Some s
  | Some n =>
      nd ← groups (ms s) !! n;
      match info nd with
      | ARRAY_DATA _ a =>
          let s := on_elements (alter (remove_first p) a) s in
          m ← updJgrp p (status_at s p) JOB_STAT_NULL (ms s);
          Some (on_ms (fun _ => m) s)
      | _ => Some s
      end
  end.

(** [treeFree(treeClip(node))] *)
Definition drop_node (n : nptr) (s : sys T) : option (sys T) :=
  '(t, o) ← clip_free (node_of s) (status_at s) (groups (ms s)) (observer s) (Some n);
  Some (set_observer o (on_ms (set_groups t) s)).

Definition log_unless_replay (e : event) (s : sys T) : sys T :=
  if replaying s then s else on_ms (log e) s.

(** The loop over [getZombieJob] takes all zombies of the job off their list. Job files and
    the memory of jobs are not part of the state. *)
Definition removeJob (jobId : Z) (s : sys T) : option (sys T) :=
  o ← getJobData (jobIdHT s) jobId;
  match o with
  | None => Some s
  | Some p =>
      if nodeType (job_of (ms s) p) =? DepCond.JGRP_NODE_ARRAY then Some s
      else
        let id := JobLists.jobId (job_of (ms s) p) in
        let s := set_zombies (filter (fun z => JobLists.jobId (job_of (ms s) z) <> id) (zombies s)) s in
        '(tab, _) ← remvMemb (jobIdHT s) id;
        let s := set_table tab s in
        let s := on_ms (fun m => add_numRemoveJobs (set_st (offJobList FJL p) m)) s in
        let s := log_unless_replay (LOG_jobclean id) s in
        match node_of s p with
        | None => Some s
        | Some n =>
            nd ← groups (ms s) !! n;
            match info nd with
            | ARRAY_DATA _ a =>
                s ← offArray p s;
                nd ← groups (ms s) !! n;
                njobs ← (counts_of nd ≫= lookup JGRP_COUNT_NJOBS);
                if njobs <=? 0 then
                  let aid := JobLists.jobId (job_of (ms s) a) in
                  let s := log_unless_replay (LOG_jobclean aid) s in
                  '(tab, _) ← remvMemb (jobIdHT s) aid;
                  drop_node n (set_table tab s)
                else Some s
            | _ => drop_node n s
            end
        end
  end.

(** The job with the same number is removed; [None] also stands for more than [fuel]
    rounds. *)
Fixpoint addJobIdHT (fuel : nat) (p : jptr) (s : sys T) : option (sys T) :=
  match fuel with
  | O => None
  | S fuel =>
      let id := jobId (job_of (ms s) p) in
      '(tab, ent) ← addMemb (jobIdHT s) id;
      match ent with
      | Some key => Some (set_table (st_set tab key (Some p)) s)
      | None =>
          let s := set_table tab s in
          o ← getJobData (jobIdHT s) id;
          if bool_decide (o = Some p) then Some s
          else s ← removeJob id s; addJobIdHT fuel p s
      end
  end.

(** [putOntoTree]: a node at a free address for a job or an array, with the elements
    that are on the chain of the array already. *)
Definition put (p : jptr) (s : sys T) : option (sys T) :=
  let b := bill_of (ms s) p in
  let nm := if has (options b) SUB_JOB_NAME then jobName p else command p in
  let array := negb (nodeType (job_of (ms s) p) =? JGRP_NODE_JOB) in
  let elems := elements_of s p in
  let newj := fresh (dom (groups (ms s)) : gset nptr) in
  '(t, o, _) ← putOntoTree (node_of s) (status_at s) (groups (ms s)) (observer s) groupRoot newj array nm p elems;
  let s := set_observer o (on_ms (set_groups t) s) in
  let s := on_ms (fun m => foldl (fun m q => on_job q (set_jgrpNode (Some newj)) m) m (p :: elems)) s in
  let s := on_ms (on_job p (set_runCount (fun _ => 1))) s in
  let s := on_ms (on_job p (set_reason (fun r => if r =? 0 then PEND_JOB_NEW else r))) s in
  Some (if bool_decide (dptRoot b = None)
        then on_ms (on_job p (set_jFlags (fun f => Z.lor f JFLAG_READY2))) s else s).

(** [jp->uPtr = getUserData(jp->userName)] *)
Definition find_user (user : cstr) (p : jptr) (s : sys T) : sys T :=
  on_ms (fun m => on_job p (set_uPtr user) (set_acct (Accounting.getUserData user (acct m)) m)) s.

(** [num] slots of pending jobs more, in the queue and for the user of the job. *)
Definition count_pending (p : jptr) (num : Z) (s : sys T) : sys T :=
  if replaying s then s
  else
    let d := Accounting.Counts num num 0 0 0 0 in
    on_ms (fun m =>
      let j := acct_job (st m) p in
      set_acct (Accounting.updUserData uninit (Accounting.updQaccount getQUsable (acct m) j d) j d) m) s.

Definition replay_priority (p : jptr) (m : mbs) : option mbs :=
  modifyJobPriority p (if userPriority (bill_of m p) <? 0 then Z.quot (maxUserPriority cfg) 2
                       else userPriority (bill_of m p)) m.

Definition handleNewJob (fuel : nat) (p : jptr) (kind : job_kind) (eventTime : Z) (s : sys T) : option (sys T) :=
  s ← addJobIdHT fuel p s;
  let s := on_ms (set_st (inPendJobList cfg p PJL 0)) s in
  let s := on_ms (on_job p (set_nodeType JGRP_NODE_JOB)) s in
  let s := on_elements (delete p) s in
  let s := find_user (userName p) p s in
  s ← put p s;
  let s := on_ms (on_job p (set_jFlags (fun f => Z.lor f JFLAG_READY2))) s in
  let s := count_pending p (maxNumProcessors (bill_of (ms s) p)) s in
  let s := match kind with
           | JOB_NEW => if eventTime =? LOG_IT then on_ms (log (LOG_newjob (jobId (job_of (ms s) p)))) s else s
           | JOB_REPLAY => s
           end in
  m ← match kind with
      | JOB_NEW => Some (ms s)
      | JOB_REPLAY =>
          m ← (if 0 <? maxUserPriority cfg then
                 m ← replay_priority p (ms s);
                 Some (set_st (inPendJobList cfg p PJL 0) (set_st (offJobList PJL p) m))
               else Some (ms s));
          Some m
      end;
  m ← (if has (options2 (bill_of m p)) SUB2_HOLD then
         let m := on_job p (set_reason (fun _ => PEND_USER_STOP)) m in
         jStatusChange cfg getQUsable uninit askedHostsOk parseDepCond time now p JOB_STAT_PSUSP (-1) m
       else Some m);
  Some (on_ms (fun _ => m) s).

(** ** Job arrays *)

(** The record of a new element: a copy of the array's. *)
Definition copyJData (a : jptr) (id : Z) (j : job) : job :=
  set_jobId id (set_nodeType JGRP_NODE_JOB (set_uPtr (userName a) j)).

Definition suspend_new (p : jptr) (m : mbs) : mbs :=
  on_job p (set_jStatus (fun _ => JOB_STAT_PSUSP)) (on_job p (set_reason (fun _ => PEND_USER_STOP)) m).

(** The body of the loop over the indices, on the state and [numJobs]: an element at a free
    address, unless there is a job with its number. *)
Definition create_element (fuel : nat) (a : jptr) (userPending : bool) (i : Z) (sn : sys T * Z)
    : option (sys T * Z) :=
  let '(s, numJobs) := sn in
  let id := LSB_JOBID (jobId (job_of (ms s) a)) i in
  o ← getJobData (jobIdHT s) id;
  match o with
  | Some _ => Some (s, numJobs)
  | None =>
      let p := fresh (dom (jobs (st (ms s))) : gset jptr) in
      let j := copyJData a id (job_of (ms s) a) in
      let s := on_ms (fun m => set_acct (Accounting.getUserData (userName a) (acct m)) m) s in
      let s := on_ms (set_st (fun st => Store (<[p := j]> (jobs st)) (bills st) (lists st))) s in
      let s := on_elements <[a := elements_of s a ++ [p]]> s in
      s ← addJobIdHT fuel p s;
      let s := on_ms (set_st (inPendJobList cfg p PJL 0)) s in
      Some (if userPending then on_ms (suspend_new p) s else s, numJobs + 1)
  end.

(** The priorities of the array and of its elements when the log is replayed. *)
Fixpoint replay_priorities (ps : list jptr) (m : mbs) : option mbs :=
  match ps with [] => Some m | p :: ps => m ← replay_priority p m; replay_priorities ps m end.

(** The counters of the array are those of its new elements; the code reads the state
    of the first one. *)
Definition count_array (n : nptr) (a : jptr) (numJobs : Z) (s : sys T) : option (sys T) :=
  first ← head (elements_of s a);
  let i := getIndexOfJStatus (status_at s first) in
  nd ← groups (ms s) !! n;
  let t := <[n := set_counts (fun c => <[JGRP_COUNT_NJOBS := numJobs]> (<[i := numJobs]> c)) nd]> (groups (ms s)) in
  t ← updJgrpCountByOp (base.size t) t n 1;
  Some (on_ms (set_groups t) s).

Definition handleNewJobArray (fuel : nat) (a : jptr) (idxList : list DepCond.idxList) (maxJLimit : Z)
    (s : sys T) : option (sys T) :=
  s ← addJobIdHT fuel a s;
  let s := on_ms (on_job a (set_nodeType DepCond.JGRP_NODE_ARRAY)) s in
  let s := on_elements <[a := []]> s in
  s ← put a s;
  let s := find_user (userName a) a s in
  let userPending := has (options2 (bill_of (ms s) a)) SUB2_HOLD in
  '(s, numJobs) ← for_list fuel idxList (create_element fuel a userPending) (s, 0);
  n ← node_of s a;
  let s := set_limit n maxJLimit s in
  let s := log_unless_replay (LOG_newjob (jobId (job_of (ms s) a))) s in
  let s := count_pending a (int32 (maxNumProcessors (bill_of (ms s) a) * numJobs)) s in
  m ← (if replaying s && (0 <? maxUserPriority cfg)
       then replay_priorities (a :: elements_of s a) (ms s) else Some (ms s));
  count_array n a numJobs (on_ms (fun _ => m) s).
End New.
