(* ===== verification/JobNewSpec.v ===== *)
(** * What a new job array leaves behind

    The theorem on [handleNewJobArray]: its elements are the jobs that [getJobIdList]
    lists, they are pending and in the table, and the lists, the counters of queues and
    users and the tree of groups stay consistent with each other. *)

From S2P Require Import Prelude CLib JobStatus HashTable JobId JobLists.
From S2P Require Import JobGroup JobTree JobForest JobClip JobState JobChange JobArray JobNew.
From S2P Require Accounting DepCond.

(** ** The tree *)

(** The tree depends on its own jobs and arrays only. *)
Lemma items_ext js js' elems elems' t f : (forall n nd, n ∈ nodes f -> t !! n = Some nd ->
    (forall p, info nd = JOB_DATA p -> js' p = js p) /\ (forall c a, info nd = ARRAY_DATA c a -> elems' a = elems a)) ->
  forall l, items js' elems' t l f = items js elems t l f.
Proof.
  induction f as [|n kids IHk rest IHr]; intros H l; [done|]. cbn [items nodes] in *. f_equal; [|f_equal].
  - unfold states_at. destruct (t !! n) as [nd|] eqn:Hn; [|done]. cbn [fmap option_fmap option_map].
    destruct (H n nd ltac:(left) Hn) as [H1 H2].
    destruct (info nd) as [p|c|c a] eqn:Hi; [by rewrite (H1 p)|done|by rewrite (H2 c a)].
  - apply IHk. intros m nd Hm. apply H. set_solver.
  - apply IHr. intros m nd Hm. apply H. set_solver.
Qed.

Lemma items_around_ext js js' elems elems' t K : (forall n nd, n ∈ before K ++ behind K -> t !! n = Some nd ->
    (forall p, info nd = JOB_DATA p -> js' p = js p) /\ (forall c a, info nd = ARRAY_DATA c a -> elems' a = elems a)) ->
  forall l, items_around js' elems' t l K = items_around js elems t l K.
Proof.
  assert (forall n, (forall nd, t !! n = Some nd -> (forall p, info nd = JOB_DATA p -> js' p = js p) /\
      (forall c a, info nd = ARRAY_DATA c a -> elems' a = elems a)) ->
    states_at js' elems' t n = states_at js elems t n) as Hst.
  { intros n H. unfold states_at. destruct (t !! n) as [nd|] eqn:Hn; [|done]. cbn [fmap option_fmap option_map].
    destruct (H nd eq_refl) as [H1 H2].
    destruct (info nd) as [p|c|c a]; [by rewrite (H1 p)|done|by rewrite (H2 c a)]. }
  induction K as [|n K IH rest|n kids K IH]; intros H l; [done| |]; cbn [items_around before behind] in *;
    (rewrite Hst, IH, (items_ext js js' elems elems'); [done|..]); intros m; intros; eapply H; set_solver.
Qed.

Lemma tree_ok_ext jn jn' js js' elems elems' t f : (forall n nd, t !! n = Some nd ->
    (forall p, info nd = JOB_DATA p -> jn' p = jn p /\ js' p = js p) /\
    (forall c a, info nd = ARRAY_DATA c a -> elems' a = elems a)) ->
  tree_ok jn js elems t f -> tree_ok jn' js' elems' t f.
Proof.
  intros H [Hs Hnd Ho Hj HG]. split; try done.
  - intros n nd Hn p Hi. destruct (H n nd Hn) as [Hp _]. destruct (Hp p Hi) as [-> _]. by apply (Hj n nd).
  - rewrite (items_ext js js' elems elems'); [done|]. intros n nd _ Hn. destruct (H n nd Hn) as [Hp Ha].
    split; [|done]. intros p Hi. by apply Hp.
Qed.

Lemma index_not_total s : getIndexOfJStatus s <> JGRP_COUNT_NJOBS.
Proof. unfold getIndexOfJStatus. by case_ifs. Qed.

(** The counters that [count_array] writes. *)
Definition array_counts (s k : Z) (c : list Z) : list Z := <[JGRP_COUNT_NJOBS := k]> (<[getIndexOfJStatus s := k]> c).

Lemma tally_replicate n l i k s : n ∈ l -> tally n i (replicate k (l, s)) = Z.of_nat k * job_count s i.
Proof.
  intros Hn. induction k as [|k IH]; [done|]. cbn [replicate tally]. rewrite bool_decide_true, IH by done. lia.
Qed.

(** An array without elements gets [k] of them, in the state [s]. *)
Lemma fill_array jn js elems elems' t F n nd c a (k : nat) s :
  tree_ok jn js elems t F -> t !! n = Some nd -> info nd = ARRAY_DATA c a -> child nd = None ->
  elems a = [] -> elems' a = replicate k s -> s <> JOB_STAT_NULL ->
  (getIndexOfJStatus s < NUM_JGRP_COUNTERS)%nat ->
  (forall m nd c' a', m <> n -> t !! m = Some nd -> info nd = ARRAY_DATA c' a' -> elems' a' = elems a') ->
  let t1 := <[n := set_counts (array_counts s (Z.of_nat k)) nd]> t in
  exists t', updJgrpCountByOp (base.size t1) t1 n 1 = Some t' /\ tree_ok jn js elems' t' F /\ forall x, same_kind t t' x.
Proof.
  intros [Hs Hnd Ho Hj HG] Hn Hi Hch He He' Hst Hidx Hoth t1.
  assert (n ∈ nodes F) as Hin by (apply Ho; eauto).
  destruct (place_of _ _ Hin) as (K & kids & rest & ->).
  pose proof (shape_at _ _ _ _ _ Hs) as (nd' & Hn' & Hp & _ & Hc & _ & _ & _). rewrite Hn in Hn'. injection Hn' as <-.
  assert (kids = Nil) as -> by (rewrite Hch in Hc; by destruct kids).
  set (F := plug K (Cons n Nil rest)) in *. set (l := above_of [] K).
  pose proof (path_at _ _ _ _ _ _ Hs (path_root t)) as Hpath. fold l in Hpath.
  assert (n ∉ l) as Hnl.
  { unfold l. destruct (above_of_app [] K) as (b & -> & Hb). rewrite app_nil_r. intros Hx. apply Hb in Hx.
    revert Hnd. unfold F. rewrite nodes_plug. cbn [nodes]. rewrite !NoDup_app, !NoDup_cons. set_solver. }
  set (R := items js elems t [] F).
  assert (R ≡ₚ items_around js elems t [] K ++ items js elems t l rest) as HR.
  { unfold R, F. rewrite items_plug. fold l. f_equiv. cbn [items]. unfold states_at. rewrite Hn. simpl. by rewrite Hi, He. }
  assert (forall q s, (q, s) ∈ R -> n ∉ q) as HRn.
  { intros q s' Hq. rewrite HR in Hq. apply elem_of_app in Hq as [Hq|Hq].
    - apply items_around_paths in Hq as (b & -> & Hb). rewrite app_nil_r. intros Hx. apply Hb in Hx.
      revert Hnd. unfold F. rewrite nodes_plug. cbn [nodes]. rewrite !NoDup_app, !NoDup_cons. set_solver.
    - apply items_paths in Hq as (b & -> & Hb & _). rewrite elem_of_app. intros [Hx|Hx]; [|done]. apply Hb in Hx.
      revert Hnd. unfold F. rewrite nodes_plug. cbn [nodes]. rewrite !NoDup_app, !NoDup_cons. set_solver. }
  assert (items js elems' t [] F ≡ₚ R ++ (extend l <$> replicate k ([n], s))) as HR'.
  { unfold F. rewrite items_plug. fold l. cbn [items]. unfold states_at. rewrite Hn. simpl. rewrite Hi, He'.
    rewrite HR, !fmap_replicate. simpl.
    assert (forall m nd', m ∈ before K ++ nodes rest ++ behind K -> t !! m = Some nd' ->
      (forall p, info nd' = JOB_DATA p -> js p = js p) /\ (forall c a, info nd' = ARRAY_DATA c a -> elems' a = elems a)) as Hext.
    { intros m nd' Hm Hm'. split; [done|]. intros c' a' Hi'. apply (Hoth m nd' c'); [|done|done]. intros ->.
      revert Hnd. unfold F. rewrite nodes_plug. cbn [nodes]. rewrite !NoDup_app, !NoDup_cons. set_solver. }
    rewrite (items_around_ext js js elems elems'), (items_ext js js elems elems');
      [solve_Permutation|intros m nd' Hm; apply Hext; set_solver..]. }
  assert (forall q s', (q, s') ∈ replicate k ([n], s) -> q = [n]) as HI.
  { intros q s' Hq. by apply elem_of_replicate in Hq as [[= -> _] _]. }
  assert (forall x, same_kind t t1 x) as Hk1.
  { intros x. unfold same_kind, t1. destruct (decide (x = n)) as [->|Hx]; [|by rewrite lookup_insert_ne].
    rewrite lookup_insert_eq, Hn. simpl. unfold set_counts. by rewrite Hi. }
  assert (same_links t t1) as Hl1.
  { intros x. unfold t1. destruct (decide (x = n)) as [->|Hx]; [|by rewrite lookup_insert_ne].
    by rewrite lookup_insert_eq, Hn. }
  assert (grouped t1 (R ++ replicate k ([n], s))) as HG1.
  { intros x xd xc Hx Hxc. unfold t1 in Hx. destruct (decide (x = n)) as [->|Hxn].
    - rewrite lookup_insert_eq in Hx. injection Hx as <-. unfold counts_of, set_counts in Hxc. cbn [info] in Hxc.
      rewrite Hi in Hxc. injection Hxc as <-.
      destruct (HG n nd c Hn) as [Hlen Hcnt]; [unfold counts_of; by rewrite Hi|].
      unfold array_counts. rewrite !length_insert. split; [done|]. intros i Hlt.
      pose proof (index_not_total s) as Hne. rewrite tally_app, tally_replicate by left.
      rewrite (tally_none n i R) by done. unfold job_count. rewrite (proj2 (Z.eqb_neq _ _) Hst).
      destruct (decide (i = JGRP_COUNT_NJOBS)) as [->|Hi1].
      + rewrite list_lookup_insert_eq by (rewrite length_insert, Hlen; unfold NUM_JGRP_COUNTERS in *; lia).
        rewrite decide_False by done. f_equal. lia.
      + rewrite list_lookup_insert_ne by done. destruct (decide (i = getIndexOfJStatus s)) as [->|Hi2].
        * rewrite list_lookup_insert_eq by lia. f_equal. lia.
        * rewrite list_lookup_insert_ne by done. rewrite Hcnt by done. fold R. rewrite (tally_none n i R) by done.
          f_equal. lia.
    - rewrite lookup_insert_ne in Hx by done. destruct (HG x xd xc Hx Hxc) as [Hlen Hcnt].
      split; [done|]. intros i Hlt. rewrite (Hcnt i Hlt). f_equal. fold R. rewrite tally_app.
      rewrite (tally_none x i (replicate k _)); [lia|]. intros q s' ->%HI ?%list_elem_of_singleton. done. }
  destruct (count_below jn js elems t1 n (set_counts (array_counts s (Z.of_nat k)) nd) (array_counts s (Z.of_nat k) c) l R
              (replicate k ([n], s)) 1) as (t' & Hop & Hlk & Hkd & HG'); try done.
  - unfold t1. by rewrite lookup_insert_eq.
  - unfold counts_of, set_counts. cbn [info]. by rewrite Hi.
  - cbn [parent set_counts]. rewrite Hp. eapply same_links_path; [exact Hl1|exact Hpath].
  - intros q s' ->%HI. split; [left|]. intros x Hx ->%list_elem_of_singleton. done.
  - by left.
  - exists t'. split; [exact Hop|]. assert (same_links t t') as Hl' by (intros x; by rewrite Hlk, Hl1).
    split; [|intros x; unfold same_kind; rewrite (Hkd x); apply Hk1]. split.
    + by eapply shape_links.
    + done.
    + intros m Hm. apply Ho. specialize (Hl' m). by destruct (t' !! m), (t !! m).
    + intros m nd' Hm. eapply job_node_kind; [|exact Hm|intros; by eapply Hj|].
      * unfold same_kind. rewrite (Hkd m). apply Hk1.
      * intros nd0 p Hnd0 _. pose proof (same_links_child _ _ m Hl') as Hcc. rewrite Hm, Hnd0 in Hcc. by injection Hcc.
    + rewrite (items_kind js elems' t t') by (intros m _; unfold same_kind; rewrite (Hkd m); apply Hk1).
      eapply grouped_perm; [|exact HG']. by rewrite HR'.
Qed.

(** ** The counters of queues and users *)

Section Counters.
Import Accounting.

Lemma ctimes_cadd n a b : ctimes n (cadd a b) = cadd (ctimes n a) (ctimes n b).
Proof.
  induction n as [|n IH]; [done|].
  change (cadd (cadd a b) (ctimes n (cadd a b)) = cadd (cadd a (ctimes n a)) (cadd b (ctimes n b))).
  rewrite IH. apply counts_eq; cbn [cadd numJobs numPEND numRUN numSSUSP numUSUSP numRESERVE]; lia.
Qed.

Lemma total_replicate n ts w k L :
  total n (replicate k (ts, w) ++ L) = cadd (ctimes (occ n ts) (ctimes k w)) (total n L).
Proof.
  induction k as [|k IH].
  - simpl. by rewrite ctimes_zero, cadd_0_l.
  - cbn [replicate app total]. rewrite IH, cadd_assoc. by rewrite <- ctimes_cadd.
Qed.

Lemma recount_add M ts w k L : recount M L -> all_nonneg L -> cnonneg w ->
  recount (add_all ts (ctimes k w) M) (replicate k (ts, w) ++ L).
Proof.
  intros HR HL Hw.
  assert (recount M ([] ++ (ts, czero) :: L)) as H0.
  { intros n c Hn. rewrite (HR n c Hn). simpl. by rewrite ctimes_zero, cadd_0_l. }
  assert (recount (add_all ts (ctimes k w) M) ([] ++ (ts, cadd czero (ctimes k w)) :: L)) as H1.
  { apply recount_step; try done. rewrite cadd_0_l. by apply ctimes_nonneg. }
  intros n c Hn. rewrite (H1 n c Hn), total_replicate. simpl. by rewrite cadd_0_l.
Qed.

(** Jobs like [j], without hosts, are counted in one step. *)
Lemma accounted_add m m' J K j w : accounted m J -> Forall (wf_job m) J -> cnonneg w ->
  job_step m m' j (ctimes (length K) w) czero -> hlist j = [] ->
  Forall (fun x => qPtr x = qPtr j /\ uPtr x = uPtr j /\ hlist x = [] /\ job_weight x = w) K ->
  accounted m' (K ++ J).
Proof.
  intros [Hq Hu Hh] HJ Hw [He Sq Su Sh] Hj HK.
  pose proof (items_nonneg m q_item _ (job_weight_nonneg m) HJ) as Nq.
  pose proof (items_nonneg m (u_item m) _ (job_weight_nonneg m) HJ) as Nu.
  assert (q_item <$> K = replicate (length K) ([qPtr j], w)) as Eq.
  { clear -HK. induction HK as [|x K (E1 & _ & _ & E4) _ IH]; [done|]. rewrite fmap_cons, IH. unfold q_item. by rewrite E1, E4. }
  assert (u_item m <$> K = replicate (length K) (uPtr j :: ugroups m (uPtr j), w)) as Eu.
  { clear -HK. induction HK as [|x K (_ & E2 & _ & E4) _ IH]; [done|]. rewrite fmap_cons, IH. unfold u_item. by rewrite E2, E4. }
  split.
  - rewrite Sq, fmap_app, Eq. by apply recount_add.
  - rewrite (u_items_env m m') by done. rewrite fmap_app, Eu, Su. by apply recount_add.
  - assert (h_view m' = h_view m) as ->.
    { destruct Sh as [-> | [_ ->]]; [by rewrite Hj|done]. }
    rewrite fmap_app. intros n c Hn. rewrite (Hh n c Hn). clear -HK.
    induction HK as [|x K (_ & _ & E3 & _) _ IH]; [done|]. cbn [fmap list_fmap app total h_item]. rewrite E3. cbn [occ].
    by rewrite cadd_0_l.
Qed.

End Counters.

(** ** The table and the pending list *)

Lemma getJobData_member {T V : Type} `{!StrTable T V} (tab : T) n : st_wf tab -> 0 < n ->
  getJobData tab n = Some (match member tab n with Some h => h | None => None end).
Proof.
  intros Hw Hn. unfold getJobData. rewrite (proj2 (Z.leb_gt _ _)) by lia. rewrite chekMemb_spec by done.
  simpl. by destruct (member tab n).
Qed.

Lemma addJobIdHT_new {T : Type} `{!StrTable T jptr} fuel p (s : sys T) :
  let id := jobId (job_of (ms s) p) in
  st_wf (jobIdHT s) -> member (jobIdHT s) id = None -> (0 < fuel)%nat ->
  exists tab, addJobIdHT fuel p s = Some (set_table tab s) /\ st_wf tab /\ member tab id = Some (Some p) /\
    forall n, n <> id -> member tab n = member (jobIdHT s) n.
Proof.
  intros id Hw Hm Hf. destruct fuel as [|fuel]; [lia|]. cbn [addJobIdHT]. fold id.
  destruct (st_add_ok (jobIdHT s) (LS_LONG_FORMAT id) Hw) as (t1 & new & Hop & Hw1 & Hnew & Ha1).
  unfold member in Hm. rewrite Hm in Hnew. rewrite bool_decide_true in Hnew by done. subst new.
  unfold addMemb, addMembStr. rewrite Hop. cbn [mbind option_bind].
  destruct (st_set_ok t1 (LS_LONG_FORMAT id) (Some p) Hw1) as [Hw2 Ha2]; [by rewrite Ha1, lookup_insert_eq|].
  eexists. split; [reflexivity|]. split_and!; [done|by unfold member; rewrite Ha2, lookup_insert_eq|].
  intros n Hn. unfold member. rewrite Ha2, Ha1. apply key_ne in Hn. by rewrite !lookup_insert_ne by done.
Qed.

Lemma set_pend_id (j : job) : set_pend (fun e => e) j = j.
Proof. by destruct j. Qed.

Lemma inPend_store cfg p s : exists g x, inPendJobList cfg p PJL 0 s =
  Store (alter (set_pend g) p (jobs s)) (bills s) (lists (set_list PJL (insert_before (jDataList s PJL) x p) s)).
Proof.
  unfold inPendJobList. set (b := has _ _). set (st1 := if b then _ else s).
  assert (exists g, st1 = Store (alter (set_pend g) p (jobs s)) (bills s) (lists s)) as (g & Hst).
  { unfold st1. destruct b; [by eexists|]. exists (fun e => e). destruct s as [J B L]. f_equal. simpl. apply map_eq.
    intros q. destruct (decide (q = p)) as [->|]; [|by rewrite lookup_alter_ne].
    rewrite lookup_alter_eq. destruct (J !! p); [|done]. simpl. by rewrite set_pend_id. }
  destruct (pend_scan _ _ _ _ _ _) as [rest lastJob]. eexists g, _. rewrite Hst.
  destruct s as [J B [? ? ? ?]]. reflexivity.
Qed.

(** ** The loop over the elements *)

Section Creation.
Context {T : Type} `{!StrTable T jptr}.
Context (cfg : config) (userName : jptr -> cstr).

(** The record of a new element, from that of its array. *)
Definition new_job (up : bool) (g : pendEvent -> pendEvent) (a : jptr) (id : Z) (j : job) : job :=
  let j := set_pend g (copyJData userName a id j) in
  if up then set_jStatus (fun _ => JOB_STAT_PSUSP) (set_reason (fun _ => PEND_USER_STOP) j) else j.

(** From [s0] to [s] the elements [es] with the numbers [ids] were made. *)
Record created (a : jptr) (ja : job) (up : bool) (s0 s : sys T) (es : list jptr) (ids : list Z) : Prop := {
  cr_jobs : forall q, q ∉ es -> jobs (st (ms s)) !! q = jobs (st (ms s0)) !! q;
  cr_new : Forall2 (fun p id => exists g, jobs (st (ms s)) !! p = Some (new_job up g a id ja)) es ids;
  cr_fresh : forall p, p ∈ es -> jobs (st (ms s0)) !! p = None;
  cr_nodup : NoDup es;
  cr_bills : bills (st (ms s)) = bills (st (ms s0));
  cr_acct : acct (ms s) = acct (ms s0);
  cr_groups : groups (ms s) = groups (ms s0);
  cr_observer : observer s = observer s0;
  cr_limits : limits s = limits s0;
  cr_elements : elements s = <[a := es]> (elements s0);
  cr_lists : forall k, k <> PJL -> jDataList (st (ms s)) k = jDataList (st (ms s0)) k;
  cr_pjl : jDataList (st (ms s)) PJL ≡ₚ es ++ jDataList (st (ms s0)) PJL;
  cr_table : st_wf (jobIdHT s);
  cr_members : Forall2 (fun p id => member (jobIdHT s) id = Some (Some p)) es ids;
  cr_others : forall id, id ∉ ids -> member (jobIdHT s) id = member (jobIdHT s0) id }.

Lemma created_start a ja up s : elements s !! a = Some [] -> st_wf (jobIdHT s) -> created a ja up s s [] [].
Proof.
  intros He Hw. split; try done; try constructor.
  - intros p Hp. by apply not_elem_of_nil in Hp.
  - by rewrite insert_id.
Qed.

Lemma Forall2_snoc {A B} (P : A -> B -> Prop) l k x y : Forall2 P l k -> P x y -> Forall2 P (l ++ [x]) (k ++ [y]).
Proof. intros. apply Forall2_app; [done|by constructor]. Qed.

Lemma Forall2_keep {A B} (P Q : A -> B -> Prop) l k : Forall2 P l k ->
  (forall x y, x ∈ l -> y ∈ k -> P x y -> Q x y) -> Forall2 Q l k.
Proof. induction 1; intros H'; constructor; [apply H'; [left|left|done]|apply IHForall2; intros; apply H'; by try right]. Qed.

Lemma create_step fuel a ja up s0 s es ids i :
  created a ja up s0 s es ids -> jobs (st (ms s0)) !! a = Some ja -> is_Some (Accounting.users (acct (ms s0)) !! userName a) ->
  let id := LSB_JOBID (jobId ja) i in
  0 < id -> (id ∉ ids -> member (jobIdHT s0) id = None) -> (0 < fuel)%nat ->
  exists s' es' ids', create_element cfg userName fuel a up i (s, Z.of_nat (length es)) = Some (s', Z.of_nat (length es')) /\
    add_id (jobId ja) i ids = Some ids' /\ created a ja up s0 s' es' ids'.
Proof.
  intros [Cj Cn Cf Cd Cb Ca Cg Co Cli Ce Cl Cp Ct Cm Cot] Ha [u Hu] id Hid Hnew Hf.
  assert (a ∉ es) as Hae by (intros Hx; apply Cf in Hx; congruence).
  assert (jobs (st (ms s)) !! a = Some ja) as Ha' by by rewrite Cj.
  assert (job_of (ms s) a = ja) as Hja by (unfold job_of, the_job; by apply lookup_total_correct).
  unfold create_element. rewrite Hja. fold id. rewrite getJobData_member by done. cbn [mbind option_bind].
  unfold add_id. fold id. cbv zeta. destruct (decide (id ∈ ids)) as [Hin|Hin].
  - assert (exists p, member (jobIdHT s) id = Some (Some p)) as [p Hp].
    { apply list_elem_of_lookup_1 in Hin as [k Hk].
      destruct (Forall2_lookup_r _ _ _ _ _ Cm Hk) as (p & _ & ?). by exists p. }
    rewrite Hp, bool_decide_true by done. exists s, es, ids. by split_and!.
  - rewrite Cot, Hnew by done. rewrite bool_decide_false by done.
    set (p := fresh (dom (jobs (st (ms s))) : gset jptr)).
    assert (jobs (st (ms s)) !! p = None) as Hpn.
    { apply not_elem_of_dom. apply is_fresh. }
    assert (p ∉ es) as Hpe.
    { intros Hx. apply list_elem_of_lookup_1 in Hx as [k Hk].
      destruct (Forall2_lookup_l _ _ _ _ _ Cn Hk) as (? & _ & g & Hg). congruence. }
    assert (p <> a) as Hpa by (intros ->; congruence).
    match goal with |- context [addJobIdHT fuel p ?y] => set (s3 := y) end.
    assert (job_of (ms s3) p = copyJData userName a id ja) as Hj3.
    { unfold job_of, the_job. apply lookup_total_correct. simpl. apply lookup_insert_eq. }
    destruct (addJobIdHT_new fuel p s3) as (tab & Hadd & Hwt & Hmt & Hot); [done| |done|].
    { rewrite Hj3. simpl. rewrite Cot, Hnew by done. done. }
    rewrite Hj3 in Hmt, Hot. cbn [copyJData set_jobId jobId] in Hmt, Hot. rewrite Hadd. cbn [mbind option_bind].
    destruct (inPend_store cfg p (st (ms s3))) as (g & x & Hin').
    set (s' := if up then _ else _). exists s', (es ++ [p]), (ids ++ [id]).
    assert (st (ms s') = Store (if up then alter (set_jStatus (fun _ => JOB_STAT_PSUSP)) p
                                  (alter (set_reason (fun _ => PEND_USER_STOP)) p
                                    (alter (set_pend g) p (jobs (st (ms s3)))))
                                else alter (set_pend g) p (jobs (st (ms s3))))
              (bills (st (ms s3))) (lists (set_list PJL (insert_before (jDataList (st (ms s3)) PJL) x p) (st (ms s3)))))
      as Hst
      by (unfold s'; destruct up; cbn [on_ms set_table ms set_st st suspend_new on_job upd_job]; rewrite Hin'; reflexivity).
    assert (acct (ms s') = acct (ms s3) /\ groups (ms s') = groups (ms s3) /\ observer s' = observer s3 /\
            limits s' = limits s3 /\ elements s' = elements s3 /\ jobIdHT s' = tab) as (Sa & Sg & So & Sl & Se & St)
      by (unfold s'; by destruct up).
    clearbody s'. split; [|split; [done|]].
    { rewrite length_app. simpl. do 2 f_equal. lia. }
    assert (forall k, jDataList (st (ms s')) k =
      if decide (k = PJL) then insert_before (jDataList (st (ms s)) PJL) x p else jDataList (st (ms s)) k) as Hlk.
    { intros k. rewrite Hst. change (jDataList (set_list PJL (insert_before (jDataList (st (ms s3)) PJL) x p) (st (ms s3))) k =
        if decide (k = PJL) then insert_before (jDataList (st (ms s)) PJL) x p else jDataList (st (ms s)) k).
      rewrite jDataList_set. by repeat case_decide. }
    assert (forall q, q <> p -> jobs (st (ms s')) !! q = jobs (st (ms s)) !! q) as Hq.
    { intros q Hq. rewrite Hst. simpl. destruct up; rewrite !lookup_alter_ne by done; by apply lookup_insert_ne. }
    assert (jobs (st (ms s')) !! p = Some (new_job up g a id ja)) as Hp.
    { rewrite Hst. simpl. unfold new_job. destruct up; by rewrite !lookup_alter_eq, lookup_insert_eq. }
    split.
    + intros q Hqe. rewrite Hq by set_solver. apply Cj. set_solver.
    + apply Forall2_snoc; [|by exists g]. eapply Forall2_keep; [exact Cn|].
      intros q id' Hq' _ [g' Hg']. exists g'. rewrite Hq; [done|]. by intros ->.
    + intros q Hq'. apply elem_of_app in Hq' as [Hq'|Hq']; [by apply Cf|].
      apply list_elem_of_singleton in Hq' as ->. by rewrite <- Cj.
    + apply NoDup_app. split_and!; [done| |apply NoDup_singleton]. intros q Hq' ->%list_elem_of_singleton. done.
    + rewrite Hst. exact Cb.
    + rewrite Sa. simpl. unfold Accounting.getUserData. by rewrite Ca, Hu.
    + by rewrite Sg.
    + by rewrite So.
    + by rewrite Sl.
    + rewrite Se. unfold s3. cbn [on_elements on_ms elements]. unfold elements_of. cbn [on_ms elements].
      rewrite Ce, lookup_insert_eq. apply insert_insert_eq.
    + intros k Hk. rewrite Hlk, decide_False by done. by apply Cl.
    + rewrite Hlk, decide_True, insert_before_perm, Cp by done. solve_Permutation.
    + by rewrite St.
    + rewrite St. apply Forall2_snoc; [|done].
      eapply Forall2_keep; [exact Cm|]. intros q id' _ Hid' Hm. rewrite Hot; [done|]. by intros ->.
    + intros id' Hid'. rewrite St, Hot by set_solver. apply Cot. set_solver.
Qed.

(** The whole loop makes the elements that [getJobIdList] lists. *)
Lemma create_loop fuel a ja up s0 js : jobs (st (ms s0)) !! a = Some ja ->
  is_Some (Accounting.users (acct (ms s0)) !! userName a) -> (0 < fuel)%nat ->
  (forall j, j ∈ js -> let id := LSB_JOBID (jobId ja) j in 0 < id /\ member (jobIdHT s0) id = None) ->
  forall s es ids, created a ja up s0 s es ids ->
  exists s' es' ids', iterM (create_element cfg userName fuel a up) js (s, Z.of_nat (length es)) =
      Some (s', Z.of_nat (length es')) /\
    iterM (add_id (jobId ja)) js ids = Some ids' /\ created a ja up s0 s' es' ids'.
Proof.
  intros Ha Hu Hf. induction js as [|j js IH]; intros Hjs s es ids Hc; [by exists s, es, ids|].
  destruct (Hjs j ltac:(left)) as [Hid Hm]. cbn [iterM].
  destruct (create_step fuel a ja up s0 s es ids j Hc Ha Hu Hid (fun _ => Hm) Hf) as (s1 & es1 & ids1 & -> & -> & Hc1).
  cbn [mbind option_bind]. apply IH; [|done]. intros j' Hj'. apply Hjs. by right.
Qed.
End Creation.

(** ** The state *)

Section State.
Context {T : Type} `{!StrTable T jptr}.

(** The states of the elements of an array. *)
Definition states_of (s : sys T) (a : jptr) : list Z := status_at s <$> elements_of s a.

(** The parts are consistent, and the tree has the forest [F]. *)
Record sys_ok (s : sys T) (F : forest) : Prop := {
  so_lists : lists_ok (st (ms s));
  so_counts : counted_ok (ms s);
  so_tree : tree_ok (node_of s) (status_at s) (states_of s) (groups (ms s)) F;
  so_table : st_wf (jobIdHT s);
  so_alive : forall n nd, groups (ms s) !! n = Some nd ->
    (forall p, info nd = JOB_DATA p -> is_Some (jobs (st (ms s)) !! p)) /\
    (forall c b p, info nd = ARRAY_DATA c b -> p ∈ elements_of s b -> is_Some (jobs (st (ms s)) !! p)) }.

(** A job that was just received: its record is complete, and nothing points to it. *)
Record received (userName : jptr -> cstr) (s : sys T) (root : nptr) (a : jptr) (ja : job) : Prop := {
  rc_job : jobs (st (ms s)) !! a = Some ja;
  rc_status : jStatus ja = JOB_STAT_PEND;
  rc_hosts : hPtr ja = None;
  rc_unlinked : forall k, a ∉ jDataList (st (ms s)) k;
  rc_user : is_Some (Accounting.users (acct (ms s)) !! userName a);
  rc_number : member (jobIdHT s) (jobId ja) = None;
  rc_root : exists rd c, groups (ms s) !! root = Some rd /\ info rd = JGRP_DATA c;
  rc_node : forall n nd c, groups (ms s) !! n = Some nd -> info nd <> JOB_DATA a /\ info nd <> ARRAY_DATA c a;
  rc_slots : 0 <= maxNumProcessors (bill_of (ms s) a) }.

Context (userName jobName command : jptr -> cstr).

Lemma node_lookup (s : sys T) p j : jobs (st (ms s)) !! p = Some j -> node_of s p = jgrpNode j /\ status_at s p = jStatus j.
Proof.
  intros H. unfold node_of, status_at, status, job_of, the_job. by rewrite (lookup_total_correct _ _ _ H).
Qed.

(** Jobs at other addresses are seen as before. *)
Lemma node_same (s s' : sys T) p : jobs (st (ms s')) !! p = jobs (st (ms s)) !! p ->
  node_of s' p = node_of s p /\ status_at s' p = status_at s p.
Proof.
  intros H. unfold node_of, status_at, status, job_of, the_job. rewrite !lookup_total_alt, H. done.
Qed.

(** What the array looks like when its elements are made: [newj] is its node. *)
Record prepared (s s5 : sys T) (root : nptr) (kids : forest) (a : jptr) (ja ja5 : job) (newj : nptr) : Prop := {
  pr_job : jobs (st (ms s5)) !! a = Some ja5;
  pr_fields : jobId ja5 = jobId ja /\ jStatus ja5 = jStatus ja /\ qPtr ja5 = qPtr ja /\ userId ja5 = userId ja /\
    hPtr ja5 = hPtr ja /\ shared ja5 = shared ja /\ uPtr ja5 = userName a /\ jgrpNode ja5 = Some newj;
  pr_others : forall q, q <> a -> jobs (st (ms s5)) !! q = jobs (st (ms s)) !! q;
  pr_bills : bills (st (ms s5)) = bills (st (ms s));
  pr_lists : lists (st (ms s5)) = lists (st (ms s));
  pr_acct : acct (ms s5) = acct (ms s);
  pr_elements : elements s5 = <[a := []]> (elements s);
  pr_table : st_wf (jobIdHT s5);
  pr_members : forall id, id <> jobId ja -> member (jobIdHT s5) id = member (jobIdHT s) id;
  pr_member : member (jobIdHT s5) (jobId ja) = Some (Some a);
  pr_tree : tree_ok (node_of s5) (status_at s5) (states_of s5) (groups (ms s5))
              (Cons root (join kids (Cons newj Nil Nil)) Nil);
  pr_node : exists nd c, groups (ms s5) !! newj = Some nd /\ info nd = ARRAY_DATA c a /\ child nd = None;
  pr_nodes : forall n nd, n <> newj -> groups (ms s5) !! n = Some nd ->
    exists nd', groups (ms s) !! n = Some nd' /\ kind (info nd') = kind (info nd) }.

Lemma prepare fuel s root kids a ja : sys_ok s (Cons root kids Nil) -> received userName s root a ja -> (0 < fuel)%nat ->
  exists s1 s5 ja5 newj, addJobIdHT fuel a s = Some s1 /\
    (s ← put jobName command (Some root) a (on_elements <[a := []]> (on_ms (on_job a (set_nodeType DepCond.JGRP_NODE_ARRAY)) s1));
     Some (find_user (userName a) a s)) = Some s5 /\ prepared s s5 root kids a ja ja5 newj.
Proof.
  intros [Hl Hco Ht Hw Hal] [Ra Rs Rh Ru [u Ruser] Rn (rd & c & Hrt & Hri) Rnode _] Hf.
  assert (job_of (ms s) a = ja) as Hja by (unfold job_of, the_job; by apply lookup_total_correct).
  destruct (addJobIdHT_new fuel a s) as (tab & Hadd & Hwt & Hmt & Hot); [done|by rewrite Hja|done|].
  rewrite Hja in Hmt, Hot. exists (set_table tab s). rewrite Hadd.
  set (s3 := on_elements <[a := []]> (on_ms (on_job a (set_nodeType DepCond.JGRP_NODE_ARRAY)) (set_table tab s))).
  assert (jobs (st (ms s3)) !! a = Some (set_nodeType DepCond.JGRP_NODE_ARRAY ja)) as Ha3
    by (simpl; by rewrite lookup_alter_eq, Ra).
  assert (forall q, q <> a -> jobs (st (ms s3)) !! q = jobs (st (ms s)) !! q) as Hq3
    by (intros q Hq; simpl; by apply lookup_alter_ne).
  assert (job_of (ms s3) a = set_nodeType DepCond.JGRP_NODE_ARRAY ja) as Hja3
    by (unfold job_of, the_job; by apply lookup_total_correct).
  assert (elements_of s3 a = []) as Hel3 by (unfold elements_of; simpl; by rewrite lookup_insert_eq).
  set (newj := fresh (dom (groups (ms s3)) : gset nptr)).
  assert (groups (ms s3) !! newj = None) as Hnew by (apply not_elem_of_dom, is_fresh).
  assert (forall q, status_at s3 q = status_at s q) as Hst3.
  { intros q. destruct (decide (q = a)) as [->|Hq]; [|by apply node_same, Hq3].
    by rewrite (proj2 (node_lookup _ _ _ Ha3)), (proj2 (node_lookup _ _ _ Ra)). }
  assert (tree_ok (node_of s3) (status_at s3) (states_of s3) (groups (ms s3)) (Cons root kids Nil)) as Ht3.
  { eapply tree_ok_ext; [|exact Ht]. intros n nd Hn. destruct (Rnode n nd [] Hn) as [Hnj _]. split.
    - intros p Hi. apply node_same, Hq3. by intros ->.
    - intros c' b Hi. assert (b <> a) as Hb by (intros ->; by destruct (Rnode n nd c' Hn)).
      unfold states_of, elements_of. cbn [s3 on_elements on_ms elements set_table]. rewrite lookup_insert_ne by done.
      apply list_fmap_ext. intros k p Hp. apply Hst3. }
  set (nm := if has (options (bill_of (ms s3) a)) SUB_JOB_NAME then jobName a else command a).
  destruct (put_ok (node_of s3) (status_at s3) (states_of s3) newj true nm a [] (groups (ms s3)) (observer s3) root kids rd c)
    as (t' & Hput & Hok & Hkd); [done|exact Hrt|exact Hri| | | |].
  { intros Hin. destruct Ht3 as [Hs _ _ _ _]. eapply shape_alive in Hs as [? ?]; [|exact Hin]. congruence. }
  { intros n nd j Hn Hi Hj. apply list_elem_of_singleton in Hj as ->. by destruct (Rnode n nd [] Hn). }
  { unfold states_of. by rewrite Hel3. }
  fold s3. unfold put. fold nm newj. rewrite Hel3, Hja3.
  change (negb (nodeType (set_nodeType DepCond.JGRP_NODE_ARRAY ja) =? JGRP_NODE_JOB)) with true.
  rewrite Hput. cbn [mbind option_bind foldl].
  set (s5 := find_user _ _ _).
  set (F := fun j => (if bool_decide (dptRoot (bill_of (ms s3) a) = None)
                      then set_jFlags (fun f => Z.lor f JFLAG_READY2) else fun j => j)
                       (set_reason (fun r => if r =? 0 then PEND_JOB_NEW else r)
                         (set_runCount (fun _ => 1) (set_jgrpNode (Some newj) j)))).
  set (ja5 := set_uPtr (userName a) (F (set_nodeType DepCond.JGRP_NODE_ARRAY ja))).
  exists s5, ja5, newj. split; [done|]. split; [done|].
  assert (jobs (st (ms s5)) !! a = Some ja5) as Ha5.
  { unfold s5, ja5, F, find_user. destruct (bool_decide _); simpl; rewrite !lookup_alter_eq, Ra; done. }
  assert (forall q, q <> a -> jobs (st (ms s5)) !! q = jobs (st (ms s)) !! q) as Hq5.
  { intros q Hq. unfold s5, find_user. destruct (bool_decide _); simpl; by rewrite !lookup_alter_ne by done. }
  assert (groups (ms s5) = t' /\ bills (st (ms s5)) = bills (st (ms s)) /\ lists (st (ms s5)) = lists (st (ms s)) /\
    acct (ms s5) = acct (ms s) /\ elements s5 = <[a := []]> (elements s) /\ jobIdHT s5 = tab) as (Eg & Eb & El & Ea & Ee & Et).
  { unfold s5, find_user. destruct (bool_decide _); simpl; unfold Accounting.getUserData; by rewrite Ruser. }
  assert (jStatus ja5 = jStatus ja /\ jgrpNode ja5 = Some newj) as [Es5 En5].
  { unfold ja5, F. by destruct (bool_decide _). }
  clearbody s5. assert (forall q, status_at s5 q = status_at s3 q) as Hst5.
  { intros q. rewrite Hst3. destruct (decide (q = a)) as [->|Hq]; [|by apply node_same, Hq5].
    by rewrite (proj2 (node_lookup _ _ _ Ha5)), (proj2 (node_lookup _ _ _ Ra)). }
  assert (forall q, node_of s5 q = repoint (node_of s3) newj a [] q) as Hnd5.
  { intros q. unfold repoint. destruct (decide (q = a)) as [->|Hq].
    - rewrite bool_decide_true by by left. by rewrite (proj1 (node_lookup _ _ _ Ha5)).
    - rewrite bool_decide_false by (by rewrite list_elem_of_singleton). apply node_same. by rewrite Hq5, Hq3. }
  split; try done.
  - split_and!; try done; unfold ja5, F; by destruct (bool_decide _).
  - by rewrite Et.
  - intros id Hid. rewrite Et. by apply Hot.
  - by rewrite Et.
  - rewrite Eg. eapply tree_ok_ext; [|exact Hok]. intros n nd _. split; [intros p _; split; [apply Hnd5|apply Hst5]|].
    intros c' b _. unfold states_of, elements_of. rewrite Ee. apply list_fmap_ext. intros k p _. apply Hst5.
  - rewrite Eg. specialize (Hkd newj). unfold same_kind in Hkd. rewrite lookup_insert_eq in Hkd.
    destruct (t' !! newj) as [nd|] eqn:Hn; [|done]. simpl in Hkd. injection Hkd as Hk.
    assert (exists c', info nd = ARRAY_DATA c' a) as [c' Hi] by (destruct (info nd); simplify_eq/=; eauto).
    exists nd, c'. split_and!; [done|done|].
    destruct Hok as [(rd' & _ & _ & _ & _ & _ & Hk' & _) _ _ _ _].
    destruct (shape_join _ _ _ _ _ Hk') as (lft & nd' & Hn' & _ & _ & Hc' & _). rewrite Hn' in Hn. injection Hn as ->. exact Hc'.
  - intros n nd Hn Hnd. rewrite Eg in Hnd. specialize (Hkd n). unfold same_kind in Hkd.
    rewrite lookup_insert_ne, Hnd in Hkd by done.
    change (groups (ms s)) with (groups (ms s3)). destruct (groups (ms s3) !! n) as [nd'|]; [|done].
    exists nd'. split; [done|]. simpl in Hkd. congruence.
Qed.

(** *** After the loop *)

Section Made.
Context (s s5 s6 : sys T) (root : nptr) (kids : forest) (a : jptr) (ja ja5 : job) (newj : nptr).
Context (up : bool) (es : list jptr) (ids : list Z).
Context (Hok : sys_ok s (Cons root kids Nil)) (Hrc : received userName s root a ja).
Context (Hpr : prepared s s5 root kids a ja ja5 newj) (Hcr : created userName a ja5 up s5 s6 es ids).

Definition new_status : Z := if up then JOB_STAT_PSUSP else JOB_STAT_PEND.

Lemma made_job p : p ∈ es -> exists id g, id ∈ ids /\ jobs (st (ms s6)) !! p = Some (new_job userName up g a id ja5) /\
  member (jobIdHT s6) id = Some (Some p).
Proof.
  intros [k Hk]%list_elem_of_lookup_1.
  destruct (Forall2_lookup_l _ _ _ _ _ (cr_new _ _ _ _ _ _ _ _ Hcr) Hk) as (id & Hid & g & Hg).
  destruct (Forall2_lookup_l _ _ _ _ _ (cr_members _ _ _ _ _ _ _ _ Hcr) Hk) as (id' & Hid' & Hm).
  assert (id' = id) as -> by congruence. exists id, g. split_and!; [by eapply list_elem_of_lookup_2|done|done].
Qed.

Lemma made_status p : p ∈ es -> status_at s6 p = new_status /\ node_of s6 p = Some newj.
Proof.
  intros Hp. destruct (made_job p Hp) as (id & g & _ & Hj & _). destruct (node_lookup _ _ _ Hj) as [-> ->].
  destruct (pr_fields _ _ _ _ _ _ _ _ Hpr) as (_ & Hs & _ & _ & _ & _ & _ & Hn).
  pose proof (rc_status _ _ _ _ _ Hrc) as HP. unfold new_status, new_job. destruct up; simpl; split; congruence.
Qed.

Lemma made_fresh q : is_Some (jobs (st (ms s)) !! q) -> q ∉ es.
Proof.
  intros [j Hj] Hq. apply (cr_fresh _ _ _ _ _ _ _ _ Hcr) in Hq. destruct (decide (q = a)) as [->|Hqa].
  - by rewrite (pr_job _ _ _ _ _ _ _ _ Hpr) in Hq.
  - by rewrite (pr_others _ _ _ _ _ _ _ _ Hpr), Hj in Hq.
Qed.

Lemma old_job q : is_Some (jobs (st (ms s)) !! q) -> q <> a -> jobs (st (ms s6)) !! q = jobs (st (ms s)) !! q.
Proof.
  intros Hq Hqa. rewrite (cr_jobs _ _ _ _ _ _ _ _ Hcr) by by apply made_fresh. by apply (pr_others _ _ _ _ _ _ _ _ Hpr).
Qed.

Lemma array_job : jobs (st (ms s6)) !! a = Some ja5.
Proof.
  rewrite (cr_jobs _ _ _ _ _ _ _ _ Hcr); [exact (pr_job _ _ _ _ _ _ _ _ Hpr)|]. apply made_fresh.
  exists ja. exact (rc_job _ _ _ _ _ Hrc).
Qed.

Lemma old_status q : is_Some (jobs (st (ms s)) !! q) -> status_at s6 q = status_at s q.
Proof.
  intros Hq. destruct (decide (q = a)) as [->|Hqa]; [|by apply node_same, old_job].
  rewrite (proj2 (node_lookup _ _ _ array_job)), (proj2 (node_lookup _ _ _ (rc_job _ _ _ _ _ Hrc))).
  apply (pr_fields _ _ _ _ _ _ _ _ Hpr).
Qed.

(** The nodes of the tree and the jobs that they stand for. *)
Lemma tree_jobs n nd : groups (ms s6) !! n = Some nd ->
  (forall p, info nd = JOB_DATA p -> is_Some (jobs (st (ms s)) !! p) /\ p <> a) /\
  (forall c b p, info nd = ARRAY_DATA c b -> b <> a -> p ∈ elements_of s b -> is_Some (jobs (st (ms s)) !! p)) /\
  (forall c, n <> newj -> info nd <> ARRAY_DATA c a).
Proof.
  rewrite (cr_groups _ _ _ _ _ _ _ _ Hcr). intros Hn. destruct (decide (n = newj)) as [->|Hne].
  - destruct (pr_node _ _ _ _ _ _ _ _ Hpr) as (nd' & c & Hn' & Hi & _). rewrite Hn in Hn'. injection Hn' as <-.
    rewrite Hi. split_and!; try done. by intros c' b p [= _ <-].
  - destruct (pr_nodes _ _ _ _ _ _ _ _ Hpr n nd Hne Hn) as (nd' & Hn' & Hk).
    destruct (so_alive _ _ Hok n nd' Hn') as [H1 H2]. pose proof (fun c => rc_node _ _ _ _ _ Hrc n nd' c Hn') as H3.
    split_and!.
    + intros p Hi. assert (info nd' = JOB_DATA p) as Hi' by (rewrite Hi in Hk; destruct (info nd'); simplify_eq/=; done).
      split; [by apply H1|]. intros ->. by destruct (H3 []).
    + intros c b p Hi _ Hp. assert (exists c', info nd' = ARRAY_DATA c' b) as [c' Hi']
        by (rewrite Hi in Hk; destruct (info nd'); simplify_eq/=; eauto). by eapply H2.
    + intros c _ Hi. assert (exists c', info nd' = ARRAY_DATA c' a) as [c' Hi']
        by (rewrite Hi in Hk; destruct (info nd'); simplify_eq/=; eauto). by destruct (H3 c').
Qed.

Lemma old_elements b : b <> a -> elements_of s6 b = elements_of s b.
Proof.
  intros Hb. unfold elements_of. rewrite (cr_elements _ _ _ _ _ _ _ _ Hcr), (pr_elements _ _ _ _ _ _ _ _ Hpr).
  by rewrite !lookup_insert_ne by done.
Qed.

Lemma new_elements : elements_of s6 a = es.
Proof. unfold elements_of. by rewrite (cr_elements _ _ _ _ _ _ _ _ Hcr), lookup_insert_eq. Qed.

(** The tree before the new elements are counted: the array counts as empty. *)
Lemma tree_before : tree_ok (node_of s6) (status_at s6)
  (fun b => if decide (b = a) then [] else states_of s6 b) (groups (ms s6)) (Cons root (join kids (Cons newj Nil Nil)) Nil).
Proof.
  eapply tree_ok_ext; [|rewrite (cr_groups _ _ _ _ _ _ _ _ Hcr); exact (pr_tree _ _ _ _ _ _ _ _ Hpr)].
  intros n nd Hn. destruct (tree_jobs n nd Hn) as (H1 & H2 & _). split.
  - intros p Hi. destruct (H1 p Hi) as [Hal Hpa]. apply node_same.
    rewrite (cr_jobs _ _ _ _ _ _ _ _ Hcr) by by apply made_fresh. done.
  - intros c b Hi. unfold states_of. case_decide as Hb.
    + subst. unfold elements_of. by rewrite (pr_elements _ _ _ _ _ _ _ _ Hpr), lookup_insert_eq.
    + rewrite old_elements by done. unfold elements_of at 2. rewrite (pr_elements _ _ _ _ _ _ _ _ Hpr), lookup_insert_ne by done.
      fold (elements_of s b). apply list_fmap_ext. intros k p Hp%list_elem_of_lookup_2.
      pose proof (H2 c b p Hi Hb Hp) as Hal. apply node_same.
      by rewrite (cr_jobs _ _ _ _ _ _ _ _ Hcr) by by apply made_fresh.
Qed.

Lemma tree_after : exists t', (nd ← groups (ms s6) !! newj;
    let t1 := <[newj := set_counts (array_counts new_status (Z.of_nat (length es))) nd]> (groups (ms s6)) in
    updJgrpCountByOp (base.size t1) t1 newj 1) = Some t' /\
  tree_ok (node_of s6) (status_at s6) (states_of s6) t' (Cons root (join kids (Cons newj Nil Nil)) Nil) /\
  forall x, same_kind (groups (ms s6)) t' x.
Proof.
  destruct (pr_node _ _ _ _ _ _ _ _ Hpr) as (nd & c & Hn & Hi & Hch). rewrite <- (cr_groups _ _ _ _ _ _ _ _ Hcr) in Hn.
  rewrite Hn. cbn [mbind option_bind]. apply (fill_array _ _ _ _ _ _ _ _ c a _ _ tree_before); try done.
  - by rewrite decide_True.
  - unfold states_of. rewrite new_elements.
    assert (Forall (fun p => status_at s6 p = new_status) es) as HF by (apply Forall_forall; intros p Hp; by apply made_status).
    clear -HF. induction HF as [|p l Hp _ IH]; [done|]. rewrite fmap_cons, Hp, IH. done.
  - unfold new_status. by destruct up.
  - unfold new_status. destruct up; vm_compute; lia.
  - intros m nd' c' b Hm Hnd Hib. rewrite decide_False; [done|]. intros ->.
    destruct (tree_jobs m nd' Hnd) as (_ & _ & H3). by apply (H3 c' Hm).
Qed.

(** The lists and the counters. *)
Lemma list_after k : jDataList (st (ms s6)) k ≡ₚ (if decide (k = PJL) then es else []) ++ jDataList (st (ms s)) k.
Proof.
  assert (jDataList (st (ms s5)) k = jDataList (st (ms s)) k) as <-
    by (unfold jDataList; by rewrite (pr_lists _ _ _ _ _ _ _ _ Hpr)).
  case_decide as Hk; [subst; exact (cr_pjl _ _ _ _ _ _ _ _ Hcr)|]. by rewrite (cr_lists _ _ _ _ _ _ _ _ Hcr).
Qed.

Lemma linked_old q k : q ∈ jDataList (st (ms s)) k -> is_Some (jobs (st (ms s)) !! q) /\ q <> a /\ q ∉ es.
Proof.
  intros Hq. destruct (lo_state _ (so_lists _ _ Hok) q k Hq) as [Hal _]. split_and!; [done| |by apply made_fresh].
  intros ->. by apply (rc_unlinked _ _ _ _ _ Hrc k).
Qed.

Lemma lists_after : lists_ok (st (ms s6)).
Proof.
  destruct (so_lists _ _ Hok) as [L1 L2 L3]. split.
  - intros k. rewrite list_after. case_decide; [|apply L1]. apply NoDup_app.
    split_and!; [exact (cr_nodup _ _ _ _ _ _ _ _ Hcr)| |apply L1]. intros x Hx Hx'.
    by destruct (linked_old x k Hx') as (_ & _ & ?).
  - intros q k k'. rewrite !list_after, !elem_of_app. intros Hq Hq'.
    assert (forall k, q ∈ (if decide (k = PJL) then es else []) -> q ∈ es /\ k = PJL) as H0.
    { intros k0 H. case_decide; [done|by apply not_elem_of_nil in H]. }
    destruct Hq as [[Hq ->]%H0|Hq], Hq' as [[Hq' ->]%H0|Hq']; [done|by destruct (linked_old q _ Hq') as (_ & _ & ?)|
      by destruct (linked_old q _ Hq) as (_ & _ & ?)|by eapply L2].
  - intros q k. rewrite list_after, elem_of_app. intros [Hq|Hq].
    + case_decide as Hk; [subst|by apply not_elem_of_nil in Hq].
      destruct (made_job q Hq) as (id & g & _ & Hj & _). split; [by eexists|].
      destruct (made_status q Hq) as [Hs _]. change (jStatus (the_job (st (ms s6)) q)) with (status_at s6 q). rewrite Hs.
      unfold new_status. destruct up; (split; [by apply (bool_decide_eq_true_1 _); vm_compute|]); vm_compute; by left.
    + destruct (linked_old q k Hq) as (Hal & Hqa & _). destruct (L3 q k Hq) as (_ & Hw & Hk).
      split; [by rewrite old_job|]. change (jStatus (the_job (st (ms s6)) q)) with (status_at s6 q).
      by rewrite old_status.
Qed.

Lemma bills_after : bills (st (ms s6)) = bills (st (ms s)).
Proof. by rewrite (cr_bills _ _ _ _ _ _ _ _ Hcr), (pr_bills _ _ _ _ _ _ _ _ Hpr). Qed.

Lemma views_after : views (st (ms s6)) ≡ₚ (acct_job (st (ms s6)) <$> es) ++ views (st (ms s)).
Proof.
  unfold views. assert (linked (st (ms s6)) ≡ₚ es ++ linked (st (ms s))) as ->.
  { unfold linked. rewrite !list_after. simpl. solve_Permutation. }
  rewrite fmap_app. apply Permutation_app_head. erewrite list_fmap_ext; [reflexivity|]. intros k q Hq%list_elem_of_lookup_2.
  assert (exists k, q ∈ jDataList (st (ms s)) k) as [k' Hk].
  { unfold linked in Hq. rewrite !elem_of_app in Hq. destruct Hq as [?|[?|[?|?]]]; eauto. }
  destruct (linked_old q k' Hk) as (Hal & Hqa & _). unfold acct_job, jobBill_of, the_job.
  by rewrite !lookup_total_alt, old_job, bills_after by done.
Qed.

Definition slots : Z := maxNumProcessors (bill_of (ms s) a).

(** The array itself, and its elements, as the counters see them. *)
Lemma array_view : acct_job (st (ms s6)) a =
  Accounting.JData (jobId ja) JOB_STAT_PEND (qPtr ja) (userName a) (userId ja) None slots.
Proof.
  destruct (pr_fields _ _ _ _ _ _ _ _ Hpr) as (E1 & E2 & E3 & E4 & E5 & E6 & E7 & _).
  unfold acct_job, slots, bill_of, jobBill_of, the_job. rewrite (lookup_total_correct _ _ _ array_job).
  rewrite (lookup_total_correct _ _ _ (rc_job _ _ _ _ _ Hrc)), bills_after.
  rewrite E1, E2, E3, E4, E5, E6, E7, (rc_status _ _ _ _ _ Hrc), (rc_hosts _ _ _ _ _ Hrc). done.
Qed.

Lemma element_view p : p ∈ es -> exists id,
  acct_job (st (ms s6)) p = Accounting.JData id new_status (qPtr ja) (userName a) (userId ja) None slots.
Proof.
  intros Hp. destruct (made_job p Hp) as (id & g & _ & Hj & _). exists id.
  destruct (pr_fields _ _ _ _ _ _ _ _ Hpr) as (E1 & E2 & E3 & E4 & E5 & E6 & E7 & _).
  unfold acct_job, slots, bill_of, jobBill_of, the_job. rewrite (lookup_total_correct _ _ _ Hj).
  rewrite (lookup_total_correct _ _ _ (rc_job _ _ _ _ _ Hrc)), bills_after.
  unfold new_job, new_status. destruct up; simpl; rewrite ?E2, E3, E4, E5, E6, ?(rc_status _ _ _ _ _ Hrc), (rc_hosts _ _ _ _ _ Hrc); done.
Qed.

(** The counters after [updQaccount] and [updUserData] for all elements. *)
Lemma counts_after getQUsable uninit num :
  (forall m q, Accounting.q_cnt (getQUsable m q) = Accounting.q_cnt q) -> num = slots * Z.of_nat (length es) ->
  let j := acct_job (st (ms s6)) a in let d := Accounting.Counts num num 0 0 0 0 in
  let acct' := Accounting.updUserData uninit (Accounting.updQaccount getQUsable (acct (ms s6)) j d) j d in
  Accounting.accounted acct' (views (st (ms s6))) /\ Forall (Accounting.wf_job acct') (views (st (ms s6))) /\
  Accounting.groups_known acct' /\ Accounting.mSchedStage acct' = Accounting.mSchedStage (acct (ms s)).
Proof.
  intros HQ -> j d acct'. destruct (so_counts _ _ Hok) as (Hacc & Hwf & Hg).
  assert (acct (ms s6) = acct (ms s)) as Ea by (by rewrite (cr_acct _ _ _ _ _ _ _ _ Hcr), (pr_acct _ _ _ _ _ _ _ _ Hpr)).
  pose proof (rc_slots _ _ _ _ _ Hrc) as Hmx. fold slots in Hmx.
  assert (forall id s0, Accounting.wf_job (acct (ms s)) (Accounting.JData id s0 (qPtr ja) (userName a) (userId ja) None slots)) as Hwj.
  { intros id s0. split; [exact Hmx|exact (rc_user _ _ _ _ _ Hrc)|constructor]. }
  assert (Accounting.wf_job (acct (ms s)) j) as Hj by (unfold j; rewrite array_view; apply Hwj).
  unfold acct'. rewrite Ea.
  pose proof (Accounting.QU_step getQUsable uninit HQ (acct (ms s)) j d Hj Hg) as Hstep.
  set (w := Accounting.Counts slots slots 0 0 0 0).
  assert (d = Accounting.ctimes (length (acct_job (st (ms s6)) <$> es)) w) as Hd.
  { rewrite length_fmap. unfold d. generalize (length es). intros n. induction n as [|n IH].
    - rewrite Z.mul_0_r. done.
    - change (Accounting.ctimes (S n) w) with (Accounting.cadd w (Accounting.ctimes n w)). rewrite <- IH.
      unfold Accounting.cadd, w. simpl. f_equal; lia. }
  rewrite Hd in Hstep at 3. clear Hd. split_and!.
  - eapply accounted_perm; [symmetry; exact views_after|].
    apply (accounted_add _ _ _ _ _ _ Hacc Hwf) in Hstep; [exact Hstep|repeat split; simpl; lia|by unfold j; rewrite array_view|].
    apply Forall_fmap, Forall_forall. intros p Hp. cbv beta delta [compose]. destruct (element_view p Hp) as (id & ->).
    unfold j. rewrite array_view. split_and!; [done..|]. unfold new_status, w. by destruct up.
  - pose proof (Accounting.js_env _ _ _ _ _ Hstep) as He. rewrite views_after. apply Forall_app. split.
    + apply Forall_fmap, Forall_forall. intros p Hp. simpl. destruct (element_view p Hp) as (id & ->).
      eapply Accounting.same_env_job; [exact He|apply Hwj].
    + eapply Forall_impl; [exact Hwf|]. intros x. by apply Accounting.same_env_job.
  - eapply Accounting.same_env_groups; [exact (Accounting.js_env _ _ _ _ _ Hstep)|done].
  - apply (Accounting.js_env _ _ _ _ _ Hstep).
Qed.
(** *** The final state *)

Definition finished (maxJLimit : Z) (acct' : Accounting.mbd) (t' : tree) : sys T :=
  on_ms (set_groups t') (on_ms (set_acct acct') (on_ms (log (LOG_newjob (jobId (job_of (ms s6) a)))) (set_limit newj maxJLimit s6))).

Lemma finished_alive n nd t' : (forall x, same_kind (groups (ms s6)) t' x) -> t' !! n = Some nd ->
  (forall p, info nd = JOB_DATA p -> is_Some (jobs (st (ms s6)) !! p)) /\
  (forall c b p, info nd = ARRAY_DATA c b -> p ∈ elements_of s6 b -> is_Some (jobs (st (ms s6)) !! p)).
Proof.
  intros Hkind Hn. specialize (Hkind n). unfold same_kind in Hkind.
  rewrite Hn in Hkind. destruct (groups (ms s6) !! n) as [nd6|] eqn:Hn6; [|done]. simpl in Hkind. injection Hkind as Hk.
  destruct (tree_jobs n nd6 Hn6) as (H1 & H2 & _).
  assert (forall q, is_Some (jobs (st (ms s)) !! q) -> is_Some (jobs (st (ms s6)) !! q)) as Hal.
  { intros q Hq. destruct (decide (q = a)) as [->|Hqa]; [rewrite array_job; by eexists|by rewrite old_job]. }
  split.
  - intros p Hi. apply Hal, (H1 p). rewrite Hi in Hk. by destruct (info nd6); simplify_eq/=.
  - intros c b p Hi Hp. destruct (decide (b = a)) as [->|Hb].
    + rewrite new_elements in Hp. destruct (made_job p Hp) as (id & g & _ & Hj & _). by eexists.
    + rewrite old_elements in Hp by done.
      assert (exists c', info nd6 = ARRAY_DATA c' b) as [c' Hi'] by (rewrite Hi in Hk; destruct (info nd6); simplify_eq/=; eauto).
      apply Hal. by eapply H2.
Qed.

Lemma finished_ok maxJLimit acct' t' :
  Accounting.accounted acct' (views (st (ms s6))) -> Forall (Accounting.wf_job acct') (views (st (ms s6))) ->
  Accounting.groups_known acct' -> (forall x, same_kind (groups (ms s6)) t' x) ->
  tree_ok (node_of s6) (status_at s6) (states_of s6) t' (Cons root (join kids (Cons newj Nil Nil)) Nil) ->
  sys_ok (finished maxJLimit acct' t') (Cons root (join kids (Cons newj Nil Nil)) Nil).
Proof.
  intros Hacc Hwf Hgk Hkind Htok. split.
  - exact lists_after.
  - split_and!; [exact Hacc|exact Hwf|exact Hgk].
  - exact Htok.
  - exact (cr_table _ _ _ _ _ _ _ _ Hcr).
  - intros n nd Hn. exact (finished_alive n nd t' Hkind Hn).
Qed.

Lemma finished_number maxJLimit acct' t' p id g : jobs (st (ms s6)) !! p = Some (new_job userName up g a id ja5) ->
  jobId (job_of (ms (finished maxJLimit acct' t')) p) = id.
Proof.
  intros Hg. unfold job_of, the_job. change (jobs _ !!! p) with (jobs (st (ms s6)) !!! p).
  rewrite (lookup_total_correct _ _ _ Hg). unfold new_job. by destruct up.
Qed.

Lemma finished_numbers maxJLimit acct' t' : (fun p => jobId (job_of (ms (finished maxJLimit acct' t')) p)) <$> es = ids.
Proof.
  pose proof (cr_new _ _ _ _ _ _ _ _ Hcr) as Hnew. revert Hnew. generalize ids. generalize es.
  induction 1 as [|p id l k (g & Hg) _ IH]; [done|]. rewrite fmap_cons, IH. f_equal. by eapply finished_number.
Qed.

Lemma finished_elements maxJLimit acct' t' p : p ∈ es -> (forall id, id ∈ ids -> 0 < id) ->
  let s' := finished maxJLimit acct' t' in
  getJobData (jobIdHT s') (jobId (job_of (ms s') p)) = Some (Some p) /\ node_of s' p = Some newj /\ status_at s' p = new_status.
Proof.
  intros Hp Hpos s'. destruct (made_job p Hp) as (id & g & Hin & Hj & Hm). destruct (made_status p Hp) as [Hs Hn].
  split_and!; [|exact Hn|exact Hs]. unfold s'. rewrite (finished_number _ _ _ p id g Hj).
  change (jobIdHT _) with (jobIdHT s6). rewrite getJobData_member; [by rewrite Hm|exact (cr_table _ _ _ _ _ _ _ _ Hcr)|by apply Hpos].
Qed.

(** [count_array] reads the state of the first element. *)
Lemma count_made (s8 : sys T) t' : es <> [] ->
  (forall q, status_at s8 q = status_at s6 q) -> elements s8 = elements s6 -> groups (ms s8) = groups (ms s6) ->
  (nd ← groups (ms s6) !! newj;
   let t1 := <[newj := set_counts (array_counts new_status (Z.of_nat (length es))) nd]> (groups (ms s6)) in
   updJgrpCountByOp (base.size t1) t1 newj 1) = Some t' ->
  count_array newj a (Z.of_nat (length es)) s8 = Some (on_ms (set_groups t') s8).
Proof.
  intros Hne Hst He Hg Htree. unfold count_array.
  assert (elements_of s8 a = es) as -> by (unfold elements_of; rewrite He; exact new_elements).
  assert (exists e0, head es = Some e0 /\ e0 ∈ es) as (e0 & -> & He0).
  { destruct es as [|e0 es']; [done|]. exists e0. split; [done|left]. }
  cbn [mbind option_bind]. rewrite Hst, (proj1 (made_status e0 He0)), Hg.
  destruct (groups (ms s6) !! newj) as [nd|]; [|done]. cbn [mbind option_bind] in Htree |- *. cbv zeta in Htree |- *.
  change (set_counts (fun c => <[JGRP_COUNT_NJOBS:=Z.of_nat (length es)]> (<[getIndexOfJStatus new_status := Z.of_nat (length es)]> c)) nd)
    with (set_counts (array_counts new_status (Z.of_nat (length es))) nd). by rewrite Htree.
Qed.

Lemma array_bill : bill_of (ms s6) a = bill_of (ms s) a.
Proof.
  unfold bill_of, jobBill_of, the_job. rewrite (lookup_total_correct _ _ _ array_job).
  rewrite (lookup_total_correct _ _ _ (rc_job _ _ _ _ _ Hrc)), bills_after.
  destruct (pr_fields _ _ _ _ _ _ _ _ Hpr) as (_ & _ & _ & _ & _ & -> & _). done.
Qed.

(** The rest of [handleNewJobArray] behind the loop. *)
Lemma rest_run getQUsable uninit maxJLimit : es <> [] -> replaying s = false ->
  (forall m q, Accounting.q_cnt (getQUsable m q) = Accounting.q_cnt q) ->
  slots * Z.of_nat (length es) < 2 ^ 31 ->
  exists acct' t', sys_ok (finished maxJLimit acct' t') (Cons root (join kids (Cons newj Nil Nil)) Nil) /\
    let s7 := log_unless_replay (LOG_newjob (jobId (job_of (ms (set_limit newj maxJLimit s6)) a))) (set_limit newj maxJLimit s6) in
    let s8 := count_pending getQUsable uninit a (int32 (maxNumProcessors (bill_of (ms s7) a) * Z.of_nat (length es))) s7 in
    replaying s8 = false /\ count_array newj a (Z.of_nat (length es)) (on_ms (fun _ => ms s8) s8) = Some (finished maxJLimit acct' t').
Proof.
  intros Hne Hrep HQ Hnum. set (num := slots * Z.of_nat (length es)) in *.
  assert (0 <= num < 2 ^ 31) as Hn by (pose proof (rc_slots _ _ _ _ _ Hrc) as Hmx; fold slots in Hmx; unfold num in *; nia).
  destruct (counts_after getQUsable uninit num HQ eq_refl) as (Hacc & Hwf & Hgk & Hstage).
  destruct tree_after as (t' & Htree & Htok & Hkind).
  set (acct' := Accounting.updUserData _ _ _ _) in *. exists acct', t'. split; [by apply finished_ok|].
  assert (replaying s6 = false) as Hrep6.
  { unfold replaying in *. by rewrite (cr_acct _ _ _ _ _ _ _ _ Hcr), (pr_acct _ _ _ _ _ _ _ _ Hpr). }
  unfold log_unless_replay. cbv zeta. change (replaying (set_limit newj maxJLimit s6)) with (replaying s6). rewrite Hrep6.
  set (s7 := on_ms (log _) _). change (bill_of (ms s7) a) with (bill_of (ms s6) a). rewrite array_bill.
  change (maxNumProcessors (bill_of (ms s) a) * Z.of_nat (length es)) with num. rewrite (int32_small num) by done.
  unfold count_pending. change (replaying s7) with (replaying s6). rewrite Hrep6.
  set (s8 := on_ms _ s7). split; [unfold replaying in *; change (acct (ms s8)) with acct'; by rewrite Hstage|].
  change (on_ms (T := T) (fun _ => ms s8) s8) with s8. change (finished maxJLimit acct' t') with (on_ms (set_groups t') s8).
  by apply count_made.
Qed.
End Made.
End State.

(** ** The property *)

Section Array.
Context {T : Type} `{!StrTable T jptr}.
Context (cfg : config) (getQUsable : Accounting.mbd -> Accounting.qData -> Accounting.qData).
Context (uninit time jobPriorityValue jobPriorityTime : Z).
Context (userName jobName command : jptr -> cstr).

(** [getQUsable] sets flags and limits only. *)
Hypothesis getQUsable_cnt : forall m q, Accounting.q_cnt (getQUsable m q) = Accounting.q_cnt q.

(** The number of elements is bounded by that of the indices. *)
Lemma add_ids_length jobId js : forall acc ids, iterM (add_id jobId) js acc = Some ids ->
  (length ids <= length acc + length js)%nat /\ (acc <> [] \/ js <> [] -> ids <> []).
Proof.
  induction js as [|j js IH]; intros acc ids H.
  - injection H as <-. split; [simpl; lia|]. by intros [?|?].
  - change (iterM (add_id jobId) js (if bool_decide (LSB_JOBID jobId j ∈ acc) then acc else acc ++ [LSB_JOBID jobId j])
      = Some ids) in H.
    apply IH in H as [H1 H2]. split.
    + case_bool_decide; rewrite ?length_app in H1; simpl in *; lia.
    + intros _. apply H2. left. case_bool_decide as Hin; [by intros ->; apply not_elem_of_nil in Hin|by destruct acc].
Qed.

Lemma created_length a ja up (s0 s : sys T) es ids : created userName a ja up s0 s es ids -> length es = length ids.
Proof. intros H. by eapply Forall2_length, (cr_members _ _ _ _ _ _ _ _ H). Qed.

(** C5: A job array that was received with an accepted
    index list, outside of the replay of the log: [handleNewJobArray] ends; its elements,
    in their order, are jobs with exactly the numbers that [getJobIdList] lists for it;
    each is found in the job table under its number, pends (suspended with SUB2_HOLD) on
    the list of pending jobs, which has no other new entry, and belongs to the node of the
    array, which is the last child of the root; the lists stay disjoint and in
    accordance with the states, and the counters of the queues, the users and
    the groups equal a recount with the new jobs. *)
Theorem handleNewJobArray_consistent fuel s root kids a ja idxList maxJLimit :
  sys_ok s (Cons root kids Nil) -> received userName s root a ja -> replaying s = false ->
  idxList <> [] -> Forall fits idxList -> Forall no_overflow idxList -> (Z.to_nat LSB_MAX_ARRAY_IDX < fuel)%nat ->
  0 < jobId ja < 2 ^ 31 ->
  (forall j, j ∈ all_elements idxList -> member (jobIdHT s) (LSB_JOBID (jobId ja) j) = None) ->
  maxNumProcessors (bill_of (ms s) a) * Z.of_nat (length (all_elements idxList)) < 2 ^ 31 ->
  exists s' es ids newj,
    handleNewJobArray cfg getQUsable uninit time jobPriorityValue jobPriorityTime userName jobName command (Some root)
      fuel a idxList maxJLimit s = Some s' /\
    sys_ok s' (Cons root (join kids (Cons newj Nil Nil)) Nil) /\
    iterM (add_id (jobId ja)) (all_elements idxList) [] = Some ids /\ ids <> [] /\
    elements_of s' a = es /\ (fun p => jobId (job_of (ms s') p)) <$> es = ids /\
    jDataList (st (ms s')) PJL ≡ₚ es ++ jDataList (st (ms s)) PJL /\
    limits s' !! newj = Some maxJLimit /\
    forall p, p ∈ es -> getJobData (jobIdHT s') (jobId (job_of (ms s') p)) = Some (Some p) /\ node_of s' p = Some newj /\
      status_at s' p = if has (options2 (bill_of (ms s) a)) SUB2_HOLD then JOB_STAT_PSUSP else JOB_STAT_PEND.
Proof.
  intros Hok Hrc Hrep Hne Hfit Hov Hfuel Hid Hfresh Hslots.
  destruct (prepare userName jobName command fuel s root kids a ja Hok Hrc ltac:(lia)) as (s1 & s5 & ja5 & newj & Hadd & Hput & Hpr).
  destruct (pr_fields _ _ _ _ _ _ _ _ _ Hpr) as (Eid & _ & _ & _ & _ & Esh & _ & Enode).
  assert (bill_of (ms s5) a = bill_of (ms s) a) as Hbill.
  { unfold bill_of, jobBill_of, the_job. rewrite (lookup_total_correct _ _ _ (pr_job _ _ _ _ _ _ _ _ _ Hpr)).
    by rewrite (lookup_total_correct _ _ _ (rc_job _ _ _ _ _ Hrc)), (pr_bills _ _ _ _ _ _ _ _ _ Hpr), Esh. }
  set (up := has (options2 (bill_of (ms s) a)) SUB2_HOLD).
  destruct (create_loop cfg userName fuel a ja5 up s5 (all_elements idxList)) with (s := s5) (es := @nil jptr) (ids := @nil Z)
    as (s6 & es & ids & Hloop & Hids & Hcr).
  { exact (pr_job _ _ _ _ _ _ _ _ _ Hpr). }
  { rewrite (pr_acct _ _ _ _ _ _ _ _ _ Hpr). exact (rc_user _ _ _ _ _ Hrc). }
  { lia. }
  { intros j Hj. pose proof (all_elements_range _ _ Hfit Hj) as Hr. rewrite Eid. cbv zeta.
    unfold LSB_MAX_ARRAY_IDX in Hr.
    rewrite (pr_members _ _ _ _ _ _ _ _ _ Hpr), Hfresh by (try done; rewrite pack_value by (split; unfold LSB_MAX_ARRAY_IDX; lia); lia).
    split; [|done]. rewrite pack_value by (split; unfold LSB_MAX_ARRAY_IDX; lia). lia. }
  { apply created_start; [|exact (pr_table _ _ _ _ _ _ _ _ _ Hpr)].
    by rewrite (pr_elements _ _ _ _ _ _ _ _ _ Hpr), lookup_insert_eq. }
  rewrite Eid in Hids. pose proof (created_length _ _ _ _ _ _ _ Hcr) as Hlen.
  destruct (add_ids_length _ _ _ _ Hids) as [Hle Hne'].
  assert (all_elements idxList <> []) as Hel.
  { destruct idxList as [|idx l]; [done|]. apply Forall_cons in Hfit as [Hf _]. pose proof (range_size_bounds _ Hf).
    unfold all_elements. cbn [mbind list_bind]. unfold JobArray.elements. rewrite seqZ_cons by lia. done. }
  specialize (Hne' (or_intror Hel)).
  destruct (rest_run userName s s5 s6 root kids a ja ja5 newj up es ids Hok Hrc Hpr Hcr getQUsable uninit maxJLimit)
    as (acct' & t' & Hok' & Hrep' & Hcount); [by intros ->; destruct ids|done|done| |].
  { pose proof (rc_slots _ _ _ _ _ Hrc) as Hmx. unfold slots. rewrite Hlen.
    assert (Z.of_nat (length ids) <= Z.of_nat (length (all_elements idxList))) by (simpl in Hle; lia). nia. }
  exists (finished s6 a newj maxJLimit acct' t'), es, ids, newj. split_and!; try done.
  - unfold handleNewJobArray. rewrite Hadd. cbn [mbind option_bind].
    destruct (put _ _ _ _ _) as [s4|]; [|done]. cbn [mbind option_bind] in Hput |- *. injection Hput as ->.
    rewrite Hbill. fold up. rewrite (for_list_elements _ _ _ Hfit Hov Hfuel).
    change (s5, 0) with (s5, Z.of_nat (length (@nil jptr))). rewrite Hloop. cbn [mbind option_bind].
    rewrite (proj1 (node_lookup _ _ _ (array_job userName s s5 s6 root kids a ja ja5 newj up es ids Hrc Hpr Hcr))), Enode.
    cbn [mbind option_bind]. rewrite Hrep'. exact Hcount.
  - exact (new_elements userName s5 s6 a ja5 up es ids Hcr).
  - by eapply finished_numbers.
  - exact (list_after userName s s5 s6 root kids a ja ja5 newj up es ids Hpr Hcr PJL).
  - apply lookup_insert_eq.
  - intros p Hp. apply (finished_elements userName s s5 s6 root kids a ja ja5 newj up es ids Hrc Hpr Hcr); [done|].
    intros id Hin. destruct (add_ids (jobId ja) (all_elements idxList) [] (NoDup_nil_2)) as (ids' & Hids' & _ & Hiff).
    assert (ids' = ids) as -> by congruence. apply Hiff in Hin as [Hin|(i & Hi & ->)]; [by apply not_elem_of_nil in Hin|].
    pose proof (all_elements_range _ _ Hfit Hi) as Hr. unfold LSB_MAX_ARRAY_IDX in Hr.
    rewrite pack_value by (split; unfold LSB_MAX_ARRAY_IDX; lia). lia.
Qed.
End Array.

(** The number of a job belongs to an array with another address. Neither [removeJob] nor
    the loop of [addJobIdHT] changes that, so that the loop has no end. *)
Definition taken_by_array {T : Type} `{!StrTable T jptr} (p : jptr) (s : sys T) : Prop :=
  let id := jobId (job_of (ms s) p) in
  st_wf (jobIdHT s) /\ 0 < id /\ exists a, a <> p /\ member (jobIdHT s) id = Some (Some a) /\
    nodeType (job_of (ms s) a) = DepCond.JGRP_NODE_ARRAY.

Lemma array_number_loops {T : Type} `{!StrTable T jptr} p (s : sys T) : taken_by_array p s ->
  exists s', taken_by_array p s' /\ forall fuel, addJobIdHT (S fuel) p s = addJobIdHT fuel p s'.
Proof.
  intros (Hw & Hpos & a & Ha & Hm & Hn). set (id := jobId (job_of (ms s) p)) in *.
  destruct (st_add_ok (jobIdHT s) (LS_LONG_FORMAT id) Hw) as (t1 & new & Hop & Hw1 & Hnew & Ha1).
  unfold member in Hm. rewrite Hm in Hnew. rewrite bool_decide_false in Hnew by done. subst new.
  assert (getJobData t1 id = Some (Some a)) as Hget.
  { unfold getJobData, chekMemb. rewrite (proj2 (Z.leb_gt _ _)), st_get_ok by done. cbn [mbind option_bind].
    by rewrite Ha1, Hm. }
  exists (set_table t1 s). split.
  - split; [exact Hw1|]. split; [exact Hpos|]. exists a. unfold member. change (ms (set_table t1 s)) with (ms s).
    cbn [jobIdHT set_table]. by rewrite Ha1.
  - intros fuel. cbn [addJobIdHT]. fold id. unfold addMemb, addMembStr. rewrite Hop. cbn [mbind option_bind].
    cbn [jobIdHT set_table]. rewrite Hget. cbn [mbind option_bind]. rewrite bool_decide_false by congruence.
    unfold removeJob. cbn [jobIdHT set_table]. rewrite Hget. cbn [mbind option_bind].
    change (ms (set_table t1 s)) with (ms s). rewrite Hn. reflexivity.
Qed.

(** ** Witness: an array of three elements in an empty system *)

Definition demo_bill2 (hold : Z) : jobBill := JobBill 0 hold 100 (-1) 2 Accounting.normal [] None.
Definition demo_array : job :=
  Job 200 JOB_STAT_PEND 500 Accounting.normal Accounting.alice None 1 None 0 0 0 0 0 0 0 0
    (Times 0 0 0 0 0 0 0) (PendEvent false 0 0 0 0 false) None.
Definition demo_sys (hold : Z) : sys (hTab jptr) :=
  Sys (Mbs (Store {[1%positive := demo_array]} {[1%positive := demo_bill2 hold]} (JLists [] [] [] []))
           (Accounting.demo_mbd Accounting.czero Accounting.czero) (treeInit 1).1 [] false 0)
      initJobIdHT ∅ ∅ (treeInit 1).2 [].
Definition demo_user_of (_ : jptr) : cstr := Accounting.alice.
Definition demo_indices : list DepCond.idxList := [DepCond.IdxList 1 3 2; DepCond.IdxList 3 4 1].

Lemma demo_empty_counts : Accounting.accounted (Accounting.demo_mbd Accounting.czero Accounting.czero) [].
Proof.
  split; intros n c; unfold Accounting.q_view, Accounting.u_view, Accounting.h_view, Accounting.demo_mbd;
    cbn [Accounting.queues Accounting.users Accounting.hosts]; rewrite ?lookup_fmap, ?lookup_omap.
  - destruct (decide (n = Accounting.night)) as [->|]; [by rewrite lookup_insert_eq; intros [= <-]|].
    rewrite lookup_insert_ne by done. intros (q & Hq & ->)%fmap_Some. by apply lookup_singleton_Some in Hq as [_ <-].
  - destruct (decide (n = Accounting.staff)) as [->|]; [by rewrite lookup_insert_eq; intros [= <-]|].
    rewrite lookup_insert_ne by done. intros (q & Hq & ->)%fmap_Some. by apply lookup_singleton_Some in Hq as [_ <-].
  - destruct (decide (n = Accounting.hostA)) as [->|]; [|by rewrite lookup_singleton_ne].
    rewrite lookup_singleton_eq. by intros [= <-].
Qed.

Lemma demo_sys_ok hold : sys_ok (demo_sys hold) (Cons 1 Nil Nil).
Proof.
  split.
  - split; intros; destruct k; try constructor; by apply not_elem_of_nil in H.
  - split_and!; [exact demo_empty_counts|constructor|apply Accounting.demo_groups].
  - apply init_ok.
  - apply (st_init_ok 50).
  - intros n nd Hn. unfold demo_sys in Hn. cbn in Hn.
    by apply lookup_singleton_Some in Hn as [_ <-].
Qed.

Lemma demo_no_member hold n : member (jobIdHT (demo_sys hold)) n = None.
Proof.
  unfold member, demo_sys, initJobIdHT. cbn [jobIdHT]. destruct (st_init_ok (T := hTab jptr) 50) as [_ H].
  by rewrite H, lookup_empty.
Qed.

Lemma demo_received hold : received demo_user_of (demo_sys hold) 1 1 demo_array.
Proof.
  constructor; [reflexivity|reflexivity|reflexivity| | | | | |].
  - intros k. destruct k; apply not_elem_of_nil.
  - exists (Accounting.demo_user Accounting.czero). reflexivity.
  - exact (demo_no_member _ _).
  - eexists _, _. split; reflexivity.
  - intros n nd c Hn. cbn in Hn. by apply lookup_singleton_Some in Hn as [_ <-].
  - discriminate.
Qed.

Lemma handleNewJobArray_consistent_witness : exists s' newj,
  handleNewJobArray demo_cfg Accounting.demo_usable 0 1000 (-1) (-1) demo_user_of (fun _ => lit "a[1-3:2,3-4]") (fun _ => lit "sleep")
    (Some 1%positive) (Z.to_nat 65536) 1 demo_indices 5 (demo_sys 1) = Some s' /\
  sys_ok s' (Cons 1 (Cons newj Nil Nil) Nil) /\
  (fun p => jobId (job_of (ms s') p)) <$> elements_of s' 1 = LSB_JOBID 200 <$> [1; 3; 4].
Proof.
  assert (Forall fits demo_indices) as Hfit by (apply (bool_decide_unpack _); vm_compute; exact I).
  assert (Forall no_overflow demo_indices) as Hov by (apply (bool_decide_unpack _); vm_compute; exact I).
  assert (Z.to_nat LSB_MAX_ARRAY_IDX < Z.to_nat 65536)%nat as Hfuel by (apply Z2Nat.inj_lt; [discriminate|discriminate|reflexivity]).
  assert (forall j, j ∈ all_elements demo_indices -> member (jobIdHT (demo_sys 1)) (LSB_JOBID (jobId demo_array) j) = None) as Hfree
    by (intros j _; apply demo_no_member).
  assert (maxNumProcessors (bill_of (ms (demo_sys 1)) 1) * Z.of_nat (length (all_elements demo_indices)) < 2 ^ 31) as Hslots
    by (vm_compute; reflexivity).
  assert (0 < jobId demo_array < 2 ^ 31) as Hid by (split; vm_compute; reflexivity).
  assert (demo_indices <> []) as Hne by discriminate.
  destruct (handleNewJobArray_consistent demo_cfg Accounting.demo_usable 0 1000 (-1) (-1) demo_user_of
              (fun _ => lit "a[1-3:2,3-4]") (fun _ => lit "sleep") (fun _ _ => eq_refl) (Z.to_nat 65536) (demo_sys 1) 1 Nil 1
              demo_array demo_indices 5 (demo_sys_ok 1) (demo_received 1) eq_refl Hne Hfit Hov Hfuel Hid Hfree Hslots)
    as (s' & es & ids & newj & Hrun & Hok & Hids & _ & Hes & Hnum & _).
  exists s', newj. split; [exact Hrun|]. split; [exact Hok|]. rewrite Hes, Hnum.
  vm_compute in Hids. injection Hids as <-. vm_compute. reflexivity.
Defined.
