(* ===== verification/Words.v ===== *)
(** * Words, quoted strings and lines (lsf/lib/lib.words.c)

    The configuration files and the event log are read line by line and word by
    word with the functions of this file; the strings of the event log are
    written between quotes.  A file is the list of the characters that are still
    to be read; a [char **] that the functions advance is a string that they
    return shortened. *)

From S2P Require Import Prelude CLib.

Definition MAXLINELEN : Z := 512.

Definition QUOTE : ascii := "034"%char.
Definition NEWLINE : ascii := "010"%char.
Abbreviation BLANK := " "%char.

(** ** Words *)

(** The static buffer of a word has [4*MAXLINELEN] characters and its length is
    not checked: [None] stands for a write behind its end. *)
Definition word_in_buffer (word rest : cstr) : option (option cstr * cstr) :=
  if strlen word <? 4 * MAXLINELEN then
    Some (match word with [] => None | _ => Some word end, rest)
  else None.

Definition getNextWord_ (line : cstr) : option (option cstr * cstr) :=
  let '(_, line) := span isspace line in
  let '(word, line) := span (fun c => negb (isspace c)) line in
  word_in_buffer word line.

Definition getNextWord1_ (line : cstr) : option (option cstr * cstr) :=
  let '(_, line) := span isspace line in
  let '(word, line) :=
    span (fun c => negb (isspace c) && negb (ch_eqb c ",") && negb (ch_eqb c "]") && negb (ch_eqb c "["))
         line in
  word_in_buffer word line.

Fixpoint charInSet (c : ascii) (set : cstr) : bool :=
  match set with
  | [] => false
  | s :: set => if ch_eqb c s then true else charInSet c set
  end.

Definition getNextWordSet (line set : cstr) : option (option cstr * cstr) :=
  let '(_, line) := span (fun c => charInSet c set) line in
  let '(word, line) := span (fun c => negb (charInSet c set)) line in
  word_in_buffer word line.

(** ** Values in parentheses

    A word, or the words between [ch1] and [ch2] joined by blanks.  The outcome is
    the value, or the code left in [lserrno]. *)

Inductive value_res :=
| Value (v : cstr)
| NoValue
| BadSyntax.

(** [*strchr(value, ch) = '\0'] and [*strrchr(value, ch) = '\0'], when the
    character occurs. *)
Definition cut_first (value : cstr) (ch : ascii) : option cstr :=
  match strchr value ch with
  | None => None
  | Some r => Some (take (length value - length r) value)
  end.

Definition cut_last (value : cstr) (ch : ascii) : option cstr :=
  match strchr (reverse value) ch with
  | None => None
  | Some r => Some (reverse (drop 1 r))
  end.

Fixpoint value_loop (fuel : nat) (line value : cstr) (ch2 : ascii) : option (value_res * cstr) :=
  match fuel with
  | O => None
  | S fuel =>
      '(sp, line) ← getNextWord_ line;
      match sp with
      | None => Some (BadSyntax, line)
      | Some sp =>
          if bool_decide (sp = [ch2]) then Some (Value value, line)
          else let value := value ++ [BLANK] ++ sp in
               match cut_last value ch2 with
               | Some v => Some (Value v, line)
               | None => value_loop fuel line value ch2
               end
      end
  end.

Definition value_rest (line sp : cstr) (ch2 : ascii) : option (value_res * cstr) :=
  match cut_first sp ch2 with
  | Some v => Some (Value v, line)
  | None => value_loop (S (length line)) line sp ch2
  end.

Definition getNextValueQ_ (line : cstr) (ch1 ch2 : ascii) : option (value_res * cstr) :=
  '(sp, line) ← getNextWord_ line;
  match sp with
  | None => Some (NoValue, line)
  | Some sp =>
      if negb (bool_decide (head sp = Some ch1)) then Some (Value sp, line)
      else if bool_decide (sp = [ch1]) then
        '(sp, line) ← getNextWord_ line;
        match sp with
        | None => Some (BadSyntax, line)
        | Some sp => value_rest line sp ch2
        end
      else value_rest line (drop 1 sp) ch2
  end.

(** ** Quoted strings *)

(** The loop after the opening quote: how many characters are read, the closing
    quote included (or -1 without a closing quote), and the characters stored. *)
Fixpoint strip_body (q : cstr) : Z * cstr :=
  match q with
  | [] => (-1, [])
  | c :: q1 =>
      if ch_eqb c QUOTE then
        match q1 with
        | c2 :: q2 =>
            if ch_eqb c2 QUOTE then
              let '(n, str) := strip_body q2 in (if n <? 0 then -1 else n + 2, c2 :: str)
            else (1, [])
        | [] => (1, [])
        end
      else let '(n, str) := strip_body q1 in (if n <? 0 then -1 else n + 1, c :: str)
  end.

(** The result, and the characters stored at [str]; a NUL follows them unless
    the result is negative. *)
Definition stripQStr (q : cstr) : Z * cstr :=
  let '(before, q1) := span (fun c => negb (ch_eqb c QUOTE)) q in
  match q1 with
  | [] => (-1, [])
  | _ :: q2 =>
      let '(n, str) := strip_body q2 in
      (if n <? 0 then -1 else strlen before + 1 + n, str)
  end.

(** What is written to the file. *)
Definition double_quotes (str : cstr) : cstr :=
  flat_map (fun c => if ch_eqb c QUOTE then [QUOTE; c] else [c]) str.

Definition addQStr (str : cstr) : cstr := [BLANK; QUOTE] ++ double_quotes str ++ [QUOTE].

Definition subNewLine_ (instr : cstr) : cstr := filter (fun c => c <> NEWLINE) instr.

(** ** Lines *)

(** How the loop over the characters of a line ends. *)
Record line_end := LineEnd { le_eof : bool; le_count : Z; le_rest : cstr }.

(** The rest of a comment. *)
Fixpoint skip_comment (file : cstr) (LineCount : Z) : line_end :=
  match file with
  | [] => LineEnd true LineCount []
  | cin :: file =>
      if ch_eqb cin NEWLINE then LineEnd false (LineCount + 1) file else skip_comment file LineCount
  end.

Definition spaced (cin : ascii) : ascii := if isspace cin then BLANK else cin.

(** The characters stored in [line], and the end. *)
Fixpoint line_loop (file : cstr) (LineCount : Z) (quotes : bool) (confFormat : bool)
    : cstr * line_end :=
  match file with
  | [] => ([], LineEnd true LineCount [])
  | cin :: file =>
      if ch_eqb cin NEWLINE then ([], LineEnd false (LineCount + 1) file)
      else
        let quotes := if ch_eqb cin QUOTE then negb quotes else quotes in
        if confFormat && ch_eqb cin "#" && negb quotes then ([], skip_comment file LineCount)
        else if confFormat && ch_eqb cin "\" then
          match file with
          | [] => ([], LineEnd true LineCount [])
          | cin2 :: file =>
              let LineCount := if ch_eqb cin2 NEWLINE then LineCount + 1 else LineCount in
              let '(line, e) := line_loop file LineCount quotes confFormat in
              ((if isspace cin2 then [] else [cin]) ++ spaced cin2 :: line, e)
          end
        else let '(line, e) := line_loop file LineCount quotes confFormat in
             (spaced cin :: line, e)
  end.

(** [while(lpos > 0 && (line[--lpos] == ' '));] the first character stays. *)
Fixpoint drop_blanks (rline : cstr) : cstr :=
  match rline with
  | c :: (_ :: _) as rest => if ch_eqb c BLANK then drop_blanks rest else rline
  | _ => rline
  end.

(** A buffer as a C string. *)
Definition c_str (buf : cstr) : cstr := fst (span (fun c => negb (ch_eqb c NUL)) buf).

Definition getNextLineD_ (file : cstr) (LineCount : Z) (confFormat : bool)
    : option cstr * Z * cstr :=
  let '(line, e) := line_loop file LineCount false confFormat in
  let kept := reverse (drop_blanks (reverse line)) in
  if negb (le_eof e) || (length line =? 1)%nat || (1 <? length kept)%nat then
    (Some (c_str kept), le_count e, le_rest e)
  else (None, le_count e, le_rest e).

(** The C function calls itself until a line has a character that is not a blank. *)
Fixpoint getNextLineC_ (fuel : nat) (file : cstr) (LineCount : Z) (confFormat : bool)
    : option (option cstr * Z * cstr) :=
  match fuel with
  | O => None
  | S fuel =>
      let '(nextLine, LineCount, file) := getNextLineD_ file LineCount confFormat in
      match nextLine with
      | None => Some (None, LineCount, file)
      | Some l =>
          if existsb (fun c => negb (ch_eqb c BLANK)) l then Some (Some l, LineCount, file)
          else getNextLineC_ fuel file LineCount confFormat
      end
  end.

(** Every line that is read takes a character of the file. *)
Definition line_fuel (file : cstr) : nat := S (length file).

Definition getNextLine_ (file : cstr) (confFormat : bool) : option (option cstr * cstr) :=
  '(l, _, file) ← getNextLineC_ (line_fuel file) file 0 confFormat;
  Some (l, file).

(** ** Lemmas on quoted strings *)

Definition no_quote (s : cstr) : Prop := Forall (fun c => ch_eqb c QUOTE = false) s.

(** What follows a quoted string must not continue it. *)
Definition quote_end (t : cstr) : Prop :=
  match t with [] => True | c :: _ => ch_eqb c QUOTE = false end.

Lemma double_quotes_cons c s :
  double_quotes (c :: s) = (if ch_eqb c QUOTE then [QUOTE; c] else [c]) ++ double_quotes s.
Proof. done. Qed.

Lemma strip_body_quoted s t : quote_end t ->
  strip_body (double_quotes s ++ QUOTE :: t) = (strlen (double_quotes s) + 1, s).
Proof.
  intros Ht. induction s as [|c s IH].
  - simpl. destruct t as [|d t]; simpl in *; [done|]. by rewrite Ht.
  - rewrite double_quotes_cons. destruct (ch_eqb c QUOTE) eqn:E.
    + apply ch_eqb_eq in E as ->. cbn [app strip_body]. rewrite !ch_eqb_refl, IH.
      unfold strlen in *. cbn [length]. case_match; breflect; [lia|]. f_equal. lia.
    + cbn [app strip_body]. rewrite E, IH. unfold strlen in *. cbn [length].
      case_match; breflect; [lia|]. f_equal. lia.
Qed.

Lemma span_no_quote before t : no_quote before ->
  span (fun c => negb (ch_eqb c QUOTE)) (before ++ QUOTE :: t) = (before, QUOTE :: t).
Proof.
  intros Hb. apply span_app; [|by rewrite ch_eqb_refl].
  eapply Forall_impl; [exact Hb|]. by intros c ->.
Qed.

(** [stripQStr] undoes [addQStr], and skips text without quotes in front of the
    string; the result is the number of characters up to the closing quote. *)
Lemma stripQStr_quoted before s t : no_quote before -> quote_end t ->
  stripQStr (before ++ QUOTE :: double_quotes s ++ QUOTE :: t) =
  (strlen (before ++ QUOTE :: double_quotes s ++ [QUOTE]), s).
Proof.
  intros Hb Ht. unfold stripQStr. rewrite span_no_quote, strip_body_quoted by done.
  unfold strlen. rewrite length_app. cbn [length]. rewrite length_app. simpl.
  case_match; breflect; [lia|]. f_equal. lia.
Qed.

(** The characters stored are fewer than those read: a buffer of the length of
    the text has room for the string and its NUL. *)
Lemma strip_body_fits q n s : strip_body q = (n, s) ->
  n = -1 /\ strlen s <= strlen q \/ 0 < n /\ strlen s < n <= strlen q.
Proof.
  unfold strlen. remember (length q) as k eqn:Hk. revert q n s Hk.
  induction k as [k IH] using lt_wf_ind. intros [|c q] n s Hk; simpl in *; [intros [= <- <-]; simpl; lia|].
  destruct (ch_eqb c QUOTE).
  - destruct q as [|c2 q]; [intros [= <- <-]; simpl; lia|].
    destruct (ch_eqb c2 QUOTE); [|intros [= <- <-]; simpl; lia].
    destruct (strip_body q) as [n' s'] eqn:E. simpl in Hk.
    apply IH with (m := length q) in E; [|lia|done].
    intros [= <- <-]. simpl. case_match; breflect; lia.
  - destruct (strip_body q) as [n' s'] eqn:E.
    apply IH with (m := length q) in E; [|lia|done].
    intros [= <- <-]. simpl. case_match; breflect; lia.
Qed.

Lemma stripQStr_fits q n s : stripQStr q = (n, s) ->
  n = -1 \/ strlen s + 2 <= n <= strlen q.
Proof.
  unfold stripQStr. pose proof (span_concat (fun c => negb (ch_eqb c QUOTE)) q) as Hq.
  destruct (span _ q) as [before [|x q2]]; simpl in Hq; [intros [= <- <-]; by left|].
  destruct (strip_body q2) as [n' s'] eqn:E. apply strip_body_fits in E.
  intros [= <- <-]. case_match; breflect; [by left|]. right. subst q. unfold strlen in *.
  rewrite length_app. simpl. lia.
Qed.

(** ** Lemmas on lines *)

Definition no_newline (s : cstr) : Prop := Forall (fun c => ch_eqb c NEWLINE = false) s.

Lemma subNewLine_spec s : no_newline (subNewLine_ s).
Proof.
  apply Forall_forall. intros c Hc. apply list_elem_of_filter in Hc as [Hc _].
  by apply ch_eqb_neq.
Qed.

Lemma subNewLine_id s : no_newline s -> subNewLine_ s = s.
Proof.
  induction 1 as [|c s Hc Hs IH]; [done|]. unfold subNewLine_ in *.
  rewrite filter_cons_True by by apply ch_eqb_neq. by rewrite IH.
Qed.

Lemma line_loop_line text rest lc q : no_newline text ->
  line_loop (text ++ NEWLINE :: rest) lc q false = (map spaced text, LineEnd false (lc + 1) rest).
Proof.
  intros Ht. revert q. induction Ht as [|c text Hc _ IH]; intros q; [done|].
  cbn [app line_loop]. rewrite Hc. simpl. by rewrite IH.
Qed.

Lemma line_loop_last text lc q : no_newline text ->
  line_loop text lc q false = (map spaced text, LineEnd true lc []).
Proof.
  intros Ht. revert q. induction Ht as [|c text Hc _ IH]; intros q; [done|].
  cbn [line_loop]. rewrite Hc. simpl. by rewrite IH.
Qed.

Lemma c_str_id s : no_nul s -> c_str s = s.
Proof.
  intros Hs. unfold c_str. rewrite span_all; [done|]. apply Forall_forall. intros c Hc.
  apply negb_true_iff, ch_eqb_neq. intros ->. by apply Hs.
Qed.

Lemma drop_blanks_blanks n c s : c <> BLANK -> drop_blanks (replicate n BLANK ++ c :: s) = c :: s.
Proof.
  intros Hc. induction n as [|n IH]; simpl.
  - destruct s; [done|]. by apply ch_eqb_neq in Hc as ->.
  - destruct (replicate n BLANK ++ c :: s) eqn:E; [by destruct n|]. done.
Qed.

Lemma map_spaced_blanks n : map spaced (replicate n BLANK) = replicate n BLANK.
Proof. induction n as [|n IH]; [done|]. simpl. by rewrite IH. Qed.

Lemma reverse_blanks n : reverse (replicate n BLANK) = replicate n BLANK.
Proof.
  induction n as [|n IH]; [done|]. simpl. rewrite reverse_cons, IH.
  by rewrite <- replicate_cons_app.
Qed.

(** Trailing blanks are removed from a line. *)
Lemma getNextLineD_line text c n rest lc :
  no_newline (text ++ c :: replicate n BLANK) -> no_nul (text ++ [c]) -> isspace c = false ->
  getNextLineD_ (text ++ c :: replicate n BLANK ++ NEWLINE :: rest) lc false =
  (Some (map spaced (text ++ [c])), lc + 1, rest).
Proof.
  intros Hn Hz Hc. unfold getNextLineD_.
  replace (text ++ c :: replicate n BLANK ++ NEWLINE :: rest)
    with ((text ++ c :: replicate n BLANK) ++ NEWLINE :: rest) by by rewrite <- app_assoc.
  rewrite line_loop_line by done. cbn [le_eof negb orb le_count le_rest].
  assert (c <> BLANK) as Hcb by (intros ->; done).
  assert (spaced c = c) as Hsc by (unfold spaced; by rewrite Hc).
  assert (reverse (map spaced (text ++ c :: replicate n BLANK)) =
          replicate n BLANK ++ c :: reverse (map spaced text)) as ->.
  { rewrite map_app, reverse_app. simpl.
    by rewrite reverse_cons, Hsc, <- app_assoc, map_spaced_blanks, reverse_blanks. }
  rewrite drop_blanks_blanks by done. rewrite reverse_cons, reverse_involutive, map_app. simpl.
  rewrite Hsc, c_str_id; [done|]. unfold no_nul in *.
  rewrite not_elem_of_app in *. destruct Hz as [Hz1 Hz2]. split; [|done].
  intros Hin. apply list_elem_of_fmap in Hin as (d & Hd & Hin). unfold spaced in Hd.
  destruct (isspace d); [done|]. subst d. done.
Qed.

(** The last line of a file needs no newline when it has more than a character. *)
Lemma getNextLineD_last text c lc :
  no_newline (text ++ [c]) -> no_nul (text ++ [c]) -> isspace c = false -> text <> [] ->
  getNextLineD_ (text ++ [c]) lc false = (Some (map spaced (text ++ [c])), lc, []).
Proof.
  intros Hn Hz Hc Hne. unfold getNextLineD_. rewrite line_loop_last by done.
  cbn [le_eof negb orb le_count le_rest].
  assert (spaced c = c) as Hsc by (unfold spaced; by rewrite Hc).
  assert (c <> BLANK) as Hcb by (intros ->; done).
  assert (reverse (drop_blanks (reverse (map spaced (text ++ [c])))) = map spaced (text ++ [c])) as ->.
  { rewrite map_app, reverse_app. cbn [map]. rewrite Hsc, reverse_singleton.
    pose proof (drop_blanks_blanks 0 c (reverse (map spaced text)) Hcb) as Hd.
    cbn [replicate app] in Hd |- *. rewrite Hd.
    by rewrite reverse_cons, reverse_involutive. }
  rewrite orb_true_intro.
  - rewrite map_app. cbn [map]. rewrite Hsc, c_str_id; [done|]. unfold no_nul in *.
    rewrite not_elem_of_app in *. destruct Hz as [Hz1 Hz2]. split; [|done].
    intros Hin. apply list_elem_of_fmap in Hin as (d & Hd & Hin). unfold spaced in Hd.
    destruct (isspace d); [done|]. subst d. done.
  - right. apply Nat.ltb_lt. rewrite length_map, length_app. destruct text; simpl; [done|lia].
Qed.

Lemma skip_comment_rest file lc : (length (le_rest (skip_comment file lc)) <= length file)%nat.
Proof.
  induction file as [|c file IH]; simpl; [lia|]. destruct (ch_eqb c NEWLINE); simpl; lia.
Qed.

Lemma line_loop_rest file lc q b :
  (length (le_rest (snd (line_loop file lc q b))) <= pred (length file))%nat.
Proof.
  remember (length file) as k eqn:Hk. revert file lc q Hk.
  induction k as [k IH] using lt_wf_ind. intros [|c file] lc q Hk; simpl in *; [lia|].
  destruct (ch_eqb c NEWLINE); simpl; [lia|]. set (q' := if ch_eqb c QUOTE then negb q else q).
  assert (forall f lc' q', (length f < k)%nat ->
    (length (le_rest (snd (line_loop f lc' q' b))) <= length f)%nat) as IH'.
  { intros f lc' q0 Hf. specialize (IH (length f) Hf f lc' q0 eq_refl). lia. }
  case_if; simpl; [pose proof (skip_comment_rest file lc); lia|].
  case_if; simpl.
  - destruct file as [|c2 file]; simpl; [lia|]. simpl in Hk.
    specialize (IH' file (if ch_eqb c2 NEWLINE then lc + 1 else lc) q' ltac:(lia)).
    destruct (line_loop _ _ _ _). simpl in *. lia.
  - specialize (IH' file lc q' ltac:(lia)). destruct (line_loop _ _ _ _). simpl in *. lia.
Qed.

Lemma getNextLineD_rest file lc b :
  (length (snd (getNextLineD_ file lc b)) <= pred (length file))%nat.
Proof.
  unfold getNextLineD_. pose proof (line_loop_rest file lc false b).
  destruct (line_loop file lc false b) as [l e]. simpl in *. by case_if.
Qed.

(** A read always ends, and takes a character unless the file is at its end. *)
Theorem getNextLineC_terminates fuel file lc b : (length file < fuel)%nat ->
  exists l lc' rest, getNextLineC_ fuel file lc b = Some (l, lc', rest) /\
    (length rest <= pred (length file))%nat.
Proof.
  revert file lc. induction fuel as [|fuel IH]; intros file lc Hf; [lia|]. simpl.
  pose proof (getNextLineD_rest file lc b) as Hr.
  destruct (getNextLineD_ file lc b) as [[[l|] lc'] rest] eqn:E; simpl in Hr; [|eauto 6].
  case_if; [eauto 6|].
  destruct file as [|c file].
  - unfold getNextLineD_ in E. simpl in E. done.
  - simpl in *. destruct (IH rest lc') as (l' & lc'' & rest' & -> & ?); [lia|].
    eexists _, _, _. split; [done|]. lia.
Qed.

(** The C recursion reads a line with a visible last character at once. *)
Lemma getNextLine_of_D file l lc rest : getNextLineD_ file 0 false = (Some l, lc, rest) ->
  existsb (fun c => negb (ch_eqb c BLANK)) l = true ->
  getNextLine_ file false = Some (Some l, rest).
Proof. intros H Hl. unfold getNextLine_, line_fuel. cbn [getNextLineC_]. by rewrite H, Hl. Qed.
