(* ===== verification/Stdio.v ===== *)
(** * Formatted numbers: what the sources use of [fprintf] and [sscanf]

    The conversions [%d], [%f] and [%lf] over C strings.  A [float] or a [double]
    is a [spec_float] of the Standard Library, whose rounding ([round_ratio]) is
    that of IEEE 754.  Not modelled: the hexadecimal form of [%f], and the
    payload of a NaN. *)

From S2P Require Import Prelude CLib.
From Stdlib Require Import SpecFloat.

(** ** Reading integers

    [sscanf("%d")] skips white space and reads what [strtol] reads; without a
    number the conversion fails. *)
Definition scan_d (s : cstr) : option (Z * cstr) :=
  let '(v, e) := strtol s in
  if (length e =? length s)%nat then None else Some (int32 v, e).

(** ** Floating-point numbers *)

(** The number nearest to n/d, ties to even; float is (24, 128), double (53, 1024). *)
Definition round_ratio (prec emax : Z) (s : bool) (n d : Z) : spec_float :=
  if n =? 0 then S754_zero s
  else let '(q, e, l) := SFdiv_core_binary prec emax n 0 d 0 in
       binary_round_aux prec emax s q e l.

(** n/d rounded to an integer, ties to even. *)
Definition div_even (n d : Z) : Z :=
  let q := n / d in
  match (2 * (n mod d)) ?= d with
  | Lt => q
  | Eq => if Z.even q then q else q + 1
  | Gt => q + 1
  end.

(** The value of a finite number times 10^p, rounded to an integer. *)
Definition scaled (p : nat) (m e : Z) : Z :=
  let n := m * 10 ^ Z.of_nat p in
  if 0 <=? e then n * 2 ^ e else div_even n (2 ^ (- e)).

Definition pad (c : ascii) (w : nat) (s : cstr) : cstr := replicate (w - length s) c ++ s.

(** [n/10^p] with [p] decimals. *)
Definition print_fixed (p : nat) (n : Z) : cstr :=
  print_nat (n / 10 ^ Z.of_nat p) ++
  match p with O => [] | _ => "."%char :: pad "0" p (print_nat (n mod 10 ^ Z.of_nat p)) end.

Definition sign_text (s : bool) : cstr := if s then ["-"%char] else [].

(** [fprintf("%w.pf")]. *)
Definition print_f (w p : nat) (x : spec_float) : cstr :=
  pad " " w
    match x with
    | S754_zero s => sign_text s ++ print_fixed p 0
    | S754_infinity s => sign_text s ++ lit "inf"
    | S754_nan => lit "nan"
    | S754_finite s m e => sign_text s ++ print_fixed p (scaled p (Z.pos m) e)
    end.

(** *** Reading *)

Definition lower (c : ascii) : ascii :=
  if (65 <=? code c) && (code c <=? 90) then chr (code c + 32) else c.

(** The rest of [s] behind the word [w], in upper or lower case. *)
Fixpoint strip_word (w s : cstr) : option cstr :=
  match w, s with
  | [], _ => Some s
  | a :: w, c :: s => if ch_eqb (lower c) a then strip_word w s else None
  | _ :: _, [] => None
  end.

(** The exponent; [None] for an [e] without digits. *)
Definition scan_exponent (r : cstr) : option (Z * cstr) :=
  match r with
  | c :: r' =>
      if ch_eqb (lower c) "e" then
        let '(neg, r') := scan_sign r' in
        let '(ds, r') := span isdigit r' in
        match ds with
        | [] => None
        | _ => Some (if neg then - digits_val ds else digits_val ds, r')
        end
      else Some (0, r)
  | [] => Some (0, r)
  end.

Definition scan_infinity (neg : bool) (r : cstr) : option (spec_float * cstr) :=
  match strip_word (lit "inf") r with
  | Some r' =>
      match strip_word (lit "inity") r', r' with
      | Some r'', _ => Some (S754_infinity neg, r'')
      | None, c :: _ => if ch_eqb (lower c) "i" then None else Some (S754_infinity neg, r')
      | None, [] => Some (S754_infinity neg, r')
      end
  | None => match strip_word (lit "nan") r with Some r' => Some (S754_nan, r') | None => None end
  end.

(** [sscanf("%f")] and [sscanf("%lf")], and [strtod], which stops in front of an
    [e] without digits instead of failing. *)
Definition read_f (strict : bool) (prec emax : Z) (s : cstr) : option (spec_float * cstr) :=
  let '(_, r) := span isspace s in
  let '(neg, r) := scan_sign r in
  let '(ip, r1) := span isdigit r in
  let '(fp, r2) := match r1 with "."%char :: r' => span isdigit r' | _ => ([], r1) end in
  match ip ++ fp with
  | [] => scan_infinity neg r
  | ds =>
      '(ex, r3) ← (match scan_exponent r2 with
                   | None => if strict then None else Some (0, r2)
                   | ex => ex
                   end);
      let n := digits_val ds in
      let x := ex - strlen fp in
      Some (if 0 <=? x then round_ratio prec emax neg (n * 10 ^ x) 1
            else round_ratio prec emax neg n (10 ^ (- x)), r3)
  end.

Definition scan_f := read_f true.
Definition scan_float : cstr -> option (spec_float * cstr) := scan_f 24 128.
Definition scan_double : cstr -> option (spec_float * cstr) := scan_f 53 1024.

(** [atof]: the value of the longest number at the beginning, 0 without one. *)
Definition atof (s : cstr) : spec_float :=
  match read_f false 53 1024 s with Some (x, _) => x | None => S754_zero false end.

(** [(float) x] *)
Definition to_float (x : spec_float) : spec_float :=
  match x with
  | S754_finite s m e => binary_normalize 24 128 (if s then Z.neg m else Z.pos m) e false
  | _ => x
  end.

(** ** What is read back from a printed number *)

(** The number read from the text of [x] with [p] decimals. *)
Definition text_value (prec emax : Z) (p : nat) (x : spec_float) : spec_float :=
  match x with
  | S754_finite s m e => round_ratio prec emax s (scaled p (Z.pos m) e) (10 ^ Z.of_nat p)
  | _ => x
  end.

Abbreviation float_text := (text_value 24 128).
Abbreviation double_text := (text_value 53 1024).

Example print_f_half : print_f 6 2 (S754_finite false 5 (-1)) = lit "  2.50".
Proof. reflexivity. Qed.
Example print_f_even : print_f 1 0 (S754_finite false 5 (-1)) = lit "2".
Proof. reflexivity. Qed.
Example scan_double_tenth : scan_double (lit " -0.1 7") =
  Some (S754_finite true 7205759403792794 (-56), lit " 7").
Proof. vm_compute. reflexivity. Qed.

(** ** Lemmas *)

(** What may follow a number in a line of fields. *)
Definition text_end (t : cstr) : Prop := match t with [] => True | c :: _ => c = " "%char end.

Lemma text_end_digit t : text_end t -> match t with [] => True | c :: _ => isdigit c = false end.
Proof. destruct t as [|c t]; simpl; [done|]. by intros ->. Qed.

Lemma text_end_exponent t : text_end t -> scan_exponent t = Some (0, t).
Proof. destruct t as [|c t]; simpl; [done|]. by intros ->. Qed.

Lemma isspace_blank : isspace " " = true.
Proof. reflexivity. Qed.

Lemma strtol_digits n t : 0 <= n <= LONG_MAX -> text_end t -> strtol (print_nat n ++ t) = (n, t).
Proof. intros Hn Ht. apply strtol_print_nat; [done|]. by apply text_end_digit. Qed.

Lemma strtol_neg n t : 0 < n <= LONG_MAX -> text_end t ->
  strtol ("-"%char :: print_nat n ++ t) = (- n, t).
Proof.
  intros Hn Ht. destruct (print_nat_spec n) as (Hd & Hv & Hne); [lia|].
  unfold strtol. rewrite span_none by done. cbn [scan_sign].
  rewrite span_app by (done || by apply text_end_digit).
  destruct (print_nat n) as [|c ds] eqn:E; [done|].
  rewrite Hv, saturate_id; [done|]. unfold LONG_MAX, LONG_MIN in *. lia.
Qed.

(** A printed integer is read back. *)
Lemma scan_d_print z t : in_sint 64 z -> text_end t ->
  scan_d (print_Z z ++ t) = Some (int32 z, t).
Proof.
  intros Hz Ht. unfold scan_d, print_Z, in_sint in *. simpl in Hz.
  assert (forall n, 0 <= n -> (1 <= length (print_nat n))%nat) as Hlen.
  { intros n Hn. destruct (print_nat_head n Hn) as (c & s & -> & _). simpl. lia. }
  destruct (z <? 0) eqn:Hneg; breflect.
  - assert (strtol ("-"%char :: print_nat (- z) ++ t) = (z, t)) as Hs.
    { destruct (decide (- z <= LONG_MAX)).
      - rewrite strtol_neg by (done || lia). f_equal. lia.
      - assert (z = - 2 ^ 63) as -> by (unfold LONG_MAX in *; lia).
        destruct t as [|c t]; simpl in Ht; [|subst c]; vm_compute; reflexivity. }
    change ("-"%char :: print_nat (- z) ++ t) with (("-"%char :: print_nat (- z)) ++ t) in Hs.
    rewrite Hs. specialize (Hlen (- z) ltac:(lia)).
    case_match eqn:E; [|done]. apply Nat.eqb_eq in E. rewrite length_app in E. simpl in E. lia.
  - rewrite strtol_digits by (done || unfold LONG_MAX; lia). specialize (Hlen z ltac:(lia)).
    case_match eqn:E; [|done]. apply Nat.eqb_eq in E. rewrite length_app in E. lia.
Qed.

(** Blanks in front of a number are skipped. *)
Lemma span_space_blank s : span isspace (" "%char :: s) = let '(a, b) := span isspace s in (" "%char :: a, b).
Proof. reflexivity. Qed.

Lemma strtol_blank s : strtol s <> (0, s) -> strtol (" "%char :: s) = strtol s.
Proof.
  unfold strtol. rewrite span_space_blank. destruct (span isspace s) as [a b].
  destruct (scan_sign b) as [neg r]. destruct (span isdigit r) as [[|d ds] e]; done.
Qed.

Lemma scan_d_blank s r : scan_d s = Some r -> scan_d (" "%char :: s) = Some r.
Proof.
  unfold scan_d. destruct (strtol s) as [v e] eqn:E.
  case_match eqn:Hl; [done|]. intros [= <-]. apply Nat.eqb_neq in Hl.
  rewrite strtol_blank.
  - rewrite E. assert (length e <= length s)%nat.
    { revert E. unfold strtol. pose proof (span_length isspace s).
      destruct (span isspace s) as [a b]. simpl in *.
      assert (length (snd (scan_sign b)) <= length b)%nat.
      { unfold scan_sign. by repeat case_match; simpl; try lia. }
      destruct (scan_sign b) as [neg r]. simpl in *. pose proof (span_length isdigit r).
      destruct (span isdigit r) as [[|d ds] e']; simpl in *; intros [= <- <-]; lia. }
    case_match eqn:Hl2; [|done]. apply Nat.eqb_eq in Hl2. simpl in Hl2. lia.
  - rewrite E. intros H. injection H as -> ->. by apply Hl.
Qed.

Lemma read_f_blank b prec emax s : read_f b prec emax (" "%char :: s) = read_f b prec emax s.
Proof. unfold read_f. rewrite span_space_blank. by destruct (span isspace s). Qed.

Lemma read_f_blanks b prec emax n s :
  read_f b prec emax (replicate n " "%char ++ s) = read_f b prec emax s.
Proof. induction n; simpl; [done|]. by rewrite read_f_blank. Qed.

(** *** Decimals *)

Lemma digits_val_app_aux a b x :
  fold_left (fun v c => 10 * v + (code c - 48)) (a ++ b) x =
  fold_left (fun v c => 10 * v + (code c - 48)) a x * 10 ^ strlen b + digits_val b.
Proof.
  rewrite fold_left_app. generalize (fold_left (fun v c => 10 * v + (code c - 48)) a x) as y.
  unfold digits_val, strlen. induction b as [|c b IH] using rev_ind; intros y; simpl; [lia|].
  rewrite !fold_left_app, length_app. simpl. rewrite IH.
  rewrite Nat2Z.inj_add, Z.pow_add_r by lia. lia.
Qed.

Lemma digits_val_app a b : digits_val (a ++ b) = digits_val a * 10 ^ strlen b + digits_val b.
Proof. apply digits_val_app_aux. Qed.

Lemma digits_val_zeros n s : digits_val (replicate n "0"%char ++ s) = digits_val s.
Proof.
  rewrite digits_val_app. assert (digits_val (replicate n "0"%char) = 0) as ->; [|lia].
  unfold digits_val. induction n; simpl; [done|]. exact IHn.
Qed.

Lemma print_nat_length n p : 0 <= n < 10 ^ Z.of_nat p -> (0 < p)%nat ->
  (length (print_nat n) <= p)%nat.
Proof. intros. by apply dec_digits_length. Qed.

Lemma pad_length c w s : (length s <= w)%nat -> length (pad c w s) = w.
Proof. intros H. unfold pad. rewrite length_app, length_replicate. lia. Qed.

(** The digits in front of and behind the point. *)
Lemma print_fixed_digits p n : 0 <= n ->
  exists ip fp, Forall (fun c => isdigit c = true) ip /\ ip <> [] /\
    Forall (fun c => isdigit c = true) fp /\ length fp = p /\ digits_val (ip ++ fp) = n /\
    print_fixed p n = ip ++ match p with O => [] | _ => "."%char :: fp end.
Proof.
  intros Hn. assert (0 < 10 ^ Z.of_nat p) as Hp by lia.
  destruct (print_nat_spec (n / 10 ^ Z.of_nat p)) as (Hd1 & Hv1 & Hne1); [by apply Z.div_pos|].
  destruct (Z.mod_pos_bound n (10 ^ Z.of_nat p) Hp) as [Hm1 Hm2].
  destruct (print_nat_spec (n mod 10 ^ Z.of_nat p)) as (Hd2 & Hv2 & Hne2); [done|].
  exists (print_nat (n / 10 ^ Z.of_nat p)).
  exists (match p with O => [] | _ => pad "0" p (print_nat (n mod 10 ^ Z.of_nat p)) end).
  destruct p as [|p].
  - change (10 ^ Z.of_nat 0) with 1 in *. split_and!; try done.
    by rewrite app_nil_r, Hv1, Z.div_1_r.
  - assert (length (print_nat (n mod 10 ^ Z.of_nat (S p))) <= S p)%nat as Hlen
      by (apply print_nat_length; lia).
    split_and!; try done.
    + unfold pad. apply Forall_app. split; [by apply Forall_replicate|done].
    + by apply pad_length.
    + rewrite digits_val_app. unfold strlen. rewrite pad_length by done.
      unfold pad. rewrite digits_val_zeros, Hv1, Hv2.
      rewrite (Z.div_mod n (10 ^ Z.of_nat (S p))) at 3 by lia. lia.
Qed.

(** A number with [p] decimals is read as the quotient. *)
Lemma read_f_fixed b prec emax sg p n t : 0 <= n -> text_end t ->
  read_f b prec emax (sign_text sg ++ print_fixed p n ++ t) =
  Some (round_ratio prec emax sg n (10 ^ Z.of_nat p), t).
Proof.
  intros Hn Ht.
  destruct (print_fixed_digits p n Hn) as (ip & fp & Hip & Hne & Hfp & Hlen & Hv & ->).
  assert (scan_sign (ip ++ match p with O => [] | _ => "."%char :: fp end ++ t) =
          (false, ip ++ match p with O => [] | _ => "."%char :: fp end ++ t)) as Hs.
  { destruct ip as [|c ip]; [done|]. inversion Hip as [|? ? Hc]; subst. clear -Hc.
    by destruct c as [[] [] [] [] [] [] [] []]. }
  unfold read_f. rewrite <- (app_assoc ip).
  assert (forall X, span isspace (sign_text sg ++ ip ++ X) = ([], sign_text sg ++ ip ++ X)) as Hsp.
  { intros X. destruct sg; [done|]. destruct ip as [|c ip]; [done|].
    inversion Hip; subst. apply span_none. by apply isdigit_not_space. }
  rewrite Hsp.
  assert (scan_sign (sign_text sg ++ ip ++ match p with O => [] | _ => "."%char :: fp end ++ t) =
          (sg, ip ++ match p with O => [] | _ => "."%char :: fp end ++ t)) as ->.
  { by destruct sg. }
  rewrite span_app; [|done|destruct p; [by apply text_end_digit|done]].
  assert (match match p with O => [] | _ => "."%char :: fp end ++ t with
          | "."%char :: r' => span isdigit r' | _ => ([], match p with O => [] | _ => "."%char :: fp end ++ t) end
          = (fp, t)) as ->.
  { destruct p as [|p]; simpl.
    - apply nil_length_inv in Hlen as ->. destruct t as [|c t]; [done|]. simpl in Ht. by subst c.
    - apply span_app; [done|]. by apply text_end_digit. }
  destruct (ip ++ fp) as [|d ds] eqn:E; [by destruct ip|].
  rewrite text_end_exponent by done. cbn [mbind option_bind]. rewrite Hv. unfold strlen. rewrite Hlen. f_equal. f_equal.
  destruct p as [|p].
  - simpl. by rewrite Z.mul_1_r.
  - replace (0 - Z.of_nat (S p)) with (- Z.of_nat (S p)) by lia.
    rewrite Z.opp_involutive. done.
Qed.

Lemma scaled_nonneg p m e : 0 <= scaled p (Z.pos m) e.
Proof.
  unfold scaled, div_even. case_match; [lia|].
  assert (0 < 2 ^ (- e)) by (apply Z.pow_pos_nonneg; breflect; lia).
  assert (0 <= Z.pos m * 10 ^ Z.of_nat p / 2 ^ (- e)) by (apply Z.div_pos; lia).
  repeat case_match; lia.
Qed.

(** A printed floating-point number is read as its value rounded to the decimals. *)
Theorem scan_f_print prec emax w p x t : text_end t ->
  scan_f prec emax (print_f w p x ++ t) = Some (text_value prec emax p x, t).
Proof.
  intros Ht. unfold scan_f, print_f, pad. rewrite <- app_assoc, read_f_blanks.
  destruct x as [s|s| |s m e]; rewrite <- ?app_assoc.
  - rewrite read_f_fixed by done. done.
  - destruct t as [|c t]; simpl in Ht; [|subst c]; by destruct s.
  - destruct t as [|c t]; simpl in Ht; [|subst c]; done.
  - rewrite read_f_fixed by (done || apply scaled_nonneg). done.
Qed.

(** *** Whole numbers are printed exactly

    A double whose value is an integer up to 2^53 is its own text without
    decimals, as the counters of resource usage are. *)

Lemma digits2_log2 m : Z.pos (digits2_pos m) = Z.log2 (Z.pos m) + 1.
Proof.
  induction m as [m IH|m IH|]; [..|done]; simpl digits2_pos; rewrite Pos2Z.inj_succ, IH.
  - rewrite Pos2Z.inj_xI, Z.log2_succ_double by lia. lia.
  - rewrite Pos2Z.inj_xO, Z.log2_double by lia. lia.
Qed.

Lemma Zdigits2_log2 z : 0 < z -> Zdigits2 z = Z.log2 z + 1.
Proof. intros Hz. destruct z as [|m|m]; [lia| |lia]. apply digits2_log2. Qed.

Lemma shr_1_even z : 0 < z -> shr_1 (Build_shr_record (2 * z) false false) = Build_shr_record z false false.
Proof. intros Hz. destruct z as [|m|m]; [lia|done|lia]. Qed.

(** The number [S754_finite s m e] is the integer [n]. *)
Definition is_integer (m e n : Z) : Prop := 0 < n <= 2 ^ 53 /\ n * 2 ^ 1074 = m * 2 ^ (e + 1074).

Lemma scaled_integer m e n : -1074 <= e -> is_integer (Z.pos m) e n -> scaled 0 (Z.pos m) e = n.
Proof.
  intros He [Hn Hv]. unfold scaled. change (10 ^ Z.of_nat 0) with 1. rewrite Z.mul_1_r.
  case_if; breflect.
  - rewrite Z.pow_add_r in Hv by lia. assert (2 ^ 1074 <> 0) by lia. nia.
  - assert (0 < 2 ^ (- e)) as Hp by (apply Z.pow_pos_nonneg; lia).
    assert (Z.pos m = n * 2 ^ (- e)) as ->.
    { replace 1074 with ((- e) + (e + 1074)) in Hv at 1 by lia.
      rewrite Z.pow_add_r in Hv by lia.
      assert (0 < 2 ^ (e + 1074)) by (apply Z.pow_pos_nonneg; lia). nia. }
    unfold div_even. rewrite Z.mod_mul, Z.div_mul by lia.
    change (2 * 0) with 0. by destruct (2 ^ (- e)).
Qed.

Lemma shr_fexp_exact m e : 0 < m -> Z.max (Z.log2 m + 1 + e - 53) (-1074) = e ->
  shr_fexp 53 1024 m e loc_Exact = (Build_shr_record m false false, e).
Proof.
  intros Hm He. unfold shr_fexp, fexp, emin. rewrite Zdigits2_log2 by done.
  replace (Z.max (Z.log2 m + 1 + e - 53) (3 - 1024 - 53) - e) with 0 by lia. done.
Qed.

Theorem double_text_integer s m e n : bounded 53 1024 m e = true -> is_integer (Z.pos m) e n ->
  double_text 0 (S754_finite s m e) = S754_finite s m e.
Proof.
  intros Hb Hn. unfold bounded, canonical_mantissa, fexp, emin in Hb. apply andb_true_iff in Hb as [Hc Hb].
  apply Z.eqb_eq in Hc. apply Z.leb_le in Hb. rewrite digits2_log2 in Hc.
  assert (-1074 <= e) as He by lia. cbn [text_value]. rewrite (scaled_integer m e n) by done.
  destruct Hn as [Hn Hv]. set (k := Z.log2 n).
  assert (0 <= k <= 53) as Hk.
  { split; [apply Z.log2_nonneg|]. unfold k. change 53 with (Z.log2 (2 ^ 53)). apply Z.log2_le_mono. lia. }
  assert (Z.log2 (Z.pos m) + e = k) as Hlog.
  { pose proof (f_equal Z.log2 Hv) as H. rewrite !Z.log2_mul_pow2 in H by lia. unfold k. lia. }
  assert (e = k - 52) as Hek by lia.
  assert (n * 2 ^ (53 - k) = 2 * Z.pos m) as Hm.
  { assert (n * 2 ^ (53 - k) * 2 ^ (e + 1074) = 2 * Z.pos m * 2 ^ (e + 1074)) as H.
    { rewrite <- Z.mul_assoc, <- Z.pow_add_r by lia.
      replace (53 - k + (e + 1074)) with (1 + 1074) by lia. rewrite Z.pow_add_r by lia. lia. }
    assert (0 < 2 ^ (e + 1074)) by (apply Z.pow_pos_nonneg; lia). nia. }
  unfold round_ratio. rewrite (proj2 (Z.eqb_neq n 0)) by lia.
  unfold SFdiv_core_binary, fexp, emin. rewrite Zdigits2_log2 by lia. fold k.
  change (Zdigits2 (10 ^ Z.of_nat 0)) with 1. change (10 ^ Z.of_nat 0) with 1.
  replace (Z.min (Z.max (k + 1 + 0 - (1 + 0) - 53) (3 - 1024 - 53)) (0 - 0)) with (k - 53) by lia.
  replace (0 - 0 - (k - 53)) with (53 - k) by lia.
  assert (match 53 - k with 0 => n | Z.pos _ => Z.shiftl n (53 - k) | Z.neg _ => 0 end = 2 * Z.pos m) as ->.
  { rewrite <- Hm. destruct (53 - k) eqn:E; [lia|rewrite <- E; apply Z.shiftl_mul_pow2; lia|lia]. }
  assert (Z.div_eucl (2 * Z.pos m) 1 = (2 * Z.pos m, 0)) as ->.
  { pose proof (Z.div_1_r (2 * Z.pos m)) as H1. pose proof (Z.mod_1_r (2 * Z.pos m)) as H2.
    unfold Z.div, Z.modulo in *. destruct (Z.div_eucl (2 * Z.pos m) 1). congruence. }
  change (new_location 1 0) with loc_Exact. unfold binary_round_aux.
  assert (shr_fexp 53 1024 (2 * Z.pos m) (k - 53) loc_Exact =
          (Build_shr_record (Z.pos m) false false, e)) as ->.
  { unfold shr_fexp, fexp, emin. rewrite Zdigits2_log2, Z.log2_double by lia.
    replace (Z.max (Z.succ (Z.log2 (Z.pos m)) + 1 + (k - 53) - 53) (3 - 1024 - 53) - (k - 53)) with 1 by lia.
    cbn [shr iter_pos shr_record_of_loc]. rewrite shr_1_even by lia. f_equal. lia. }
  cbn [shr_m loc_of_shr_record round_nearest_even]. rewrite shr_fexp_exact by lia.
  cbn [shr_m]. rewrite (proj2 (Z.leb_le _ _)) by (simpl; lia). done.
Qed.

(** A counter: an integer of at most 2^53. *)
Definition is_count (x : spec_float) : Prop :=
  match x with
  | S754_zero _ => True
  | S754_finite _ m e => bounded 53 1024 m e = true /\ exists n, is_integer (Z.pos m) e n
  | _ => False
  end.

Lemma count_text x : is_count x -> double_text 0 x = x.
Proof. destruct x as [s| | |s m e]; simpl; try done. intros [Hb (n & Hn)]. by apply (double_text_integer s m e n). Qed.
