(* ===== verification/Requeue.v ===== *)
(** * Exit values that put a job back into its queue (mbd.requeue.c)

    The parameter REQUEUE_EXIT_VALUES of a queue lists exit values; a job that ends
    with one of them goes back into the queue, and with a value inside of
    [EXCLUDE(...)] it does not run on the same host again.

    [a_getNextWord_] moves the pointer into the text backwards, so that the pointer is
    a position here. The theorem of the file relates the text of the documented form
    with the answers of [match_exitvalue]. *)

From S2P Require Import Prelude CLib Words Stdio DepCond JobArray.

(** ** Data *)

Definition RQE_NORMAL : Z := 0.
Definition RQE_EXCLUDE : Z := 1.

(** The entry of type RQE_END is the end of the list. *)
Record requeueEStruct := RequeueE { type : Z; value : Z; interval : Z }.

(** The array ends at the first entry without a host. *)
Record rqHistory {H : Type} := RqHistory { host : H; retry_num : Z }.
Arguments RqHistory {H}.

(** ** Operations *)

Definition my_atoi (arg : cstr) (upBound botBound : Z) : Z :=
  if negb (isint_ arg) then INFINIT_INT
  else let num := atoi arg in
       if (upBound <=? num) || (num <=? botBound) then INFINIT_INT else num.

(** Words at a position of the text [s]. *)
Definition next_word (s : cstr) (p : nat) : option (option cstr * nat) :=
  '(w, rest) ← getNextWord_ (drop p s);
  Some (w, (length s - length rest)%nat).

(** [while ( **line != c) ( *line)--] *)
Fixpoint back_to (c : ascii) (s : cstr) (p : nat) : option nat :=
  if bool_decide (s !! p = Some c) then Some p
  else match p with O => None | S p => back_to c s p end.

(** The position of the first [c]. *)
Definition index_of (c : ascii) (s : cstr) : option nat :=
  r ← strchr s c; Some (length s - length r)%nat.

Fixpoint back_blanks (s : cstr) (p : nat) : option nat :=
  c ← s !! p;
  if isspace c then match p with O => None | S p => back_blanks s p end else Some p.

(** [None]: an access outside of the text. *)
Definition a_getNextWord_ (s : cstr) (p : nat) : option (option cstr * nat) :=
  '(w, p) ← next_word s p;
  match w with
  | None => Some (None, p)
  | Some word =>
      match index_of "(" word with
      | Some i =>
          q ← back_to "(" s p;
          Some (Some (take (S i) word), S q)
      | None =>
          match index_of ")" word with
          | Some (S i) =>
              i ← back_blanks word i;
              q ← back_to ")" s p;
              Some (Some (take (S i) word), q)
          | _ => Some (Some word, p)
          end
      end
  end.

(** The new list, or -1 and the old one. *)
Definition fill_struct (rquest : list requeueEStruct) (v mode : Z) : Z * list requeueEStruct :=
  if existsb (fun r => value r =? v) rquest then (-1, rquest)
  else (0, rquest ++ [RequeueE mode v 1]).

(** The body of the loop of [requeueEParse] on the list, the error and the mode. *)
Definition on_word (word : cstr) (st : list requeueEStruct * Z * Z) : list requeueEStruct * Z * Z :=
  let '(rquest, error, mode) := st in
  if isint_ word then
    let exitV := my_atoi word 256 (-1) in
    if negb (exitV =? INFINIT_INT) then
      let '(r, rquest) := fill_struct rquest exitV mode in
      (rquest, if r =? 0 then error else 1, mode)
    else (rquest, 1, mode)
  else if bool_decide (is_Some (strip_word (lit "exclude(") word)) then (rquest, error, RQE_EXCLUDE)
  else if bool_decide (head word = Some ")"%char) then (rquest, error, RQE_NORMAL)
  else st.

Fixpoint requeue_loop (fuel : nat) (s : cstr) (p : nat) (st : list requeueEStruct * Z * Z)
    : option (list requeueEStruct * Z * Z) :=
  match fuel with
  | O => None
  | S fuel =>
      '(w, p) ← a_getNextWord_ s p;
      match w with
      | None => Some st
      | Some word => requeue_loop fuel s p (on_word word st)
      end
  end.

(** The number of values, the list, and [*error]. *)
Definition requeueEParse (reqstr : cstr) : option (Z * list requeueEStruct * Z) :=
  '(rquest, error, _) ← requeue_loop (S (length reqstr)) reqstr 0 ([], 0, RQE_NORMAL);
  Some (Z.of_nat (length rquest), rquest, error).

Fixpoint match_exitvalue (reqE : list requeueEStruct) (exit_value : Z) : Z :=
  match reqE with
  | [] => -1
  | r :: reqE => if value r =? exit_value then type r else match_exitvalue reqE exit_value
  end.

(** The entry of the host, with its number of tries one larger. *)
Fixpoint fill_requeueHist {H : Type} `{!EqDecision H} (hist : list (@rqHistory H)) (h : H)
    : nat * list rqHistory :=
  match hist with
  | [] => (O, [RqHistory h 1])
  | e :: hist =>
      if decide (host e = h) then (O, RqHistory (host e) (retry_num e + 1) :: hist)
      else let '(i, hist) := fill_requeueHist hist h in (S i, e :: hist)
  end.

Example values_example :
  requeueEParse (lit "30 EXCLUDE(20 5) 7") =
    Some (4, [RequeueE 0 30 1; RequeueE 1 20 1; RequeueE 1 5 1; RequeueE 0 7 1], 0).
Proof. vm_compute. reflexivity. Qed.

(** A value that follows a parenthesis without a blank is lost, and no error is set. *)
Example value_behind_parenthesis : requeueEParse (lit "EXCLUDE(1)5") = Some (1, [RequeueE 1 1 1], 0).
Proof. vm_compute. reflexivity. Qed.

(** ** Positions *)

Definition blanks (b : cstr) : Prop := Forall (fun c => isspace c = true) b.
Definition solid (w : cstr) : Prop := Forall (fun c => isspace c = false) w.
Definition at_blank (s : cstr) : Prop := match s with [] => True | c :: _ => isspace c = true end.
Definition short (w : cstr) : Prop := strlen w < 4 * MAXLINELEN.

Lemma span_blanks b s : blanks b -> match s with [] => True | c :: _ => isspace c = false end ->
  span isspace (b ++ s) = (b, s).
Proof. apply span_app. Qed.

Lemma span_solid w s : solid w -> at_blank s -> span (fun c => negb (isspace c)) (w ++ s) = (w, s).
Proof.
  intros Hw Hs. apply span_app.
  - eapply Forall_impl; [exact Hw|]. by intros c ->.
  - destruct s; [done|]. simpl in Hs. by rewrite Hs.
Qed.

Lemma next_word_at pre b w rest : blanks b -> solid w -> w <> [] -> short w -> at_blank rest ->
  next_word (pre ++ b ++ w ++ rest) (length pre) = Some (Some w, length (pre ++ b ++ w)).
Proof.
  intros Hb Hw Hne Hsh Hr. unfold next_word. rewrite drop_app_length. unfold getNextWord_.
  rewrite span_blanks by (done || (destruct w; [done|]; by inversion Hw)).
  rewrite span_solid by done. unfold word_in_buffer. rewrite (proj2 (Z.ltb_lt _ _)) by done.
  destruct w as [|c w]; [done|]. cbn [mbind option_bind]. do 2 f_equal. rewrite !length_app. lia.
Qed.

Lemma next_word_end pre b : blanks b -> next_word (pre ++ b) (length pre) = Some (None, length (pre ++ b)).
Proof.
  intros Hb. unfold next_word. rewrite drop_app_length. unfold getNextWord_. rewrite span_all by done.
  cbn [span]. unfold word_in_buffer. rewrite (proj2 (Z.ltb_lt _ _)) by done. cbn [mbind option_bind length].
  by rewrite Nat.sub_0_r.
Qed.

Lemma back_to_spec c s i p : s !! i = Some c -> (i <= p)%nat -> (forall j, (i < j <= p)%nat -> s !! j <> Some c) ->
  back_to c s p = Some i.
Proof.
  intros Hi. induction p as [|p IH]; intros Hle Hno; cbn [back_to].
  - assert (i = O) as -> by lia. by rewrite bool_decide_true.
  - destruct (decide (i = S p)) as [->|]; [by rewrite bool_decide_true|].
    rewrite bool_decide_false by (apply Hno; lia). apply IH; [lia|]. intros j Hj. apply Hno. lia.
Qed.

Lemma back_to_at c x y z : c ∉ y -> head z <> Some c ->
  back_to c (x ++ c :: y ++ z) (length (x ++ c :: y)) = Some (length x).
Proof.
  intros Hy Hz. apply back_to_spec.
  - by rewrite list_lookup_middle.
  - rewrite length_app. lia.
  - intros j Hj. rewrite length_app in Hj. cbn [length] in Hj. rewrite lookup_app_r by lia.
    destruct (j - length x)%nat as [|k] eqn:Ek; [lia|]. change ((y ++ z) !! k <> Some c).
    destruct (decide (k < length y)%nat).
    + rewrite lookup_app_l by done. intros H. apply Hy. by eapply list_elem_of_lookup_2.
    + rewrite lookup_app_r by lia. replace (k - length y)%nat with O by lia. by destruct z.
Qed.

Lemma strchr_none c s : c ∉ s -> strchr s c = None.
Proof.
  induction s as [|a s IH]; [done|]. intros Hn. simpl. unfold ch_eqb. rewrite bool_decide_false by set_solver.
  apply IH. set_solver.
Qed.

Lemma index_of_none c s : c ∉ s -> index_of c s = None.
Proof. intros H. unfold index_of. by rewrite strchr_none. Qed.

Lemma index_of_at c x y : c ∉ x -> index_of c (x ++ c :: y) = Some (length x).
Proof.
  intros Hx. unfold index_of. rewrite strchr_app by by apply strchr_none.
  simpl. unfold ch_eqb. rewrite bool_decide_true by done. cbn [mbind option_bind]. f_equal.
  rewrite length_app. simpl. lia.
Qed.

(** ** Words *)

Section Words.
Context (pre b rest : cstr) (Hb : blanks b) (Hrest : at_blank rest).

Lemma blank_head c : isspace c = false -> head rest <> Some c.
Proof using Hrest. intros Hc. destruct rest; [done|]. simpl in *. congruence. Qed.

Lemma word_plain w : solid w -> w <> [] -> short w -> "("%char ∉ w -> (")"%char ∉ w \/ head w = Some ")"%char) ->
  a_getNextWord_ (pre ++ b ++ w ++ rest) (length pre) = Some (Some w, length (pre ++ b ++ w)).
Proof using Hb Hrest.
  intros Hw Hne Hsh Ho Hc. unfold a_getNextWord_. rewrite next_word_at by done. cbn [mbind option_bind].
  rewrite index_of_none by done. destruct Hc as [Hc|Hc]; [by rewrite index_of_none|].
  destruct w as [|a w]; [done|]. injection Hc as ->. assert (index_of ")" (")"%char :: w) = Some O) as -> by (apply (index_of_at ")" [] w); apply not_elem_of_nil). done.
Qed.

Lemma word_open x y : solid (x ++ "("%char :: y) -> short (x ++ "("%char :: y) -> "("%char ∉ x -> "("%char ∉ y ->
  a_getNextWord_ (pre ++ b ++ (x ++ "("%char :: y) ++ rest) (length pre) =
    Some (Some (x ++ ["("%char]), length (pre ++ b ++ x ++ ["("%char])).
Proof using Hb Hrest.
  intros Hw Hsh Hx Hy. unfold a_getNextWord_. rewrite next_word_at; [|done|done|by destruct x|done|done].
  cbn [mbind option_bind]. rewrite index_of_at by done.
  replace (pre ++ b ++ (x ++ "("%char :: y) ++ rest) with ((pre ++ b ++ x) ++ "("%char :: y ++ rest)
    by (by rewrite <- !(assoc app)).
  replace (pre ++ b ++ x ++ "("%char :: y) with ((pre ++ b ++ x) ++ "("%char :: y) by (by rewrite <- !(assoc app)).
  rewrite back_to_at by (done || by apply blank_head). cbn [mbind option_bind]. do 3 f_equal.
  - rewrite take_app_ge by lia. by replace (S (length x) - length x)%nat with 1%nat by lia.
  - rewrite !length_app. simpl. lia.
Qed.

Lemma back_blanks_last x c : isspace c = false -> back_blanks ((x ++ [c]) ++ ")"%char :: nil) (length x) = Some (length x).
Proof.
  intros Hc. assert (((x ++ [c]) ++ [")"%char]) !! length x = Some c) as Hl.
  { rewrite <- (assoc app). by apply list_lookup_middle. }
  destruct (length x); cbn [back_blanks]; rewrite Hl; cbn [mbind option_bind]; by rewrite Hc.
Qed.

Lemma word_close x : solid x -> x <> [] -> short (x ++ [")"%char]) -> "("%char ∉ x -> ")"%char ∉ x ->
  a_getNextWord_ (pre ++ b ++ (x ++ [")"%char]) ++ rest) (length pre) = Some (Some x, length (pre ++ b ++ x)).
Proof using Hb Hrest.
  intros Hw Hne Hsh Ho Hc. unfold a_getNextWord_.
  rewrite next_word_at; [|done|by apply Forall_app_2; [|repeat constructor]|by destruct x|done|done].
  cbn [mbind option_bind]. rewrite index_of_none by set_solver. rewrite (index_of_at ")" x []) by done.
  destruct x as [|c x _] using rev_ind; [congruence|]. clear Hne.
  rewrite length_app, Nat.add_1_r. apply Forall_app in Hw as [_ Hcs]. apply Forall_cons in Hcs as [Hcs _].
  rewrite back_blanks_last by done. cbn [mbind option_bind].
  set (w := x ++ [c]) in *.
  replace (pre ++ b ++ (w ++ [")"%char]) ++ rest) with ((pre ++ b ++ w) ++ ")"%char :: [] ++ rest)
    by (by rewrite <- !(assoc app)).
  replace (pre ++ b ++ w ++ [")"%char]) with ((pre ++ b ++ w) ++ [")"%char]) by (by rewrite <- !(assoc app)).
  rewrite back_to_at by (apply not_elem_of_nil || by apply blank_head). cbn [mbind option_bind]. do 3 f_equal.
  rewrite take_app_le by (unfold w; rewrite length_app; simpl; lia). apply take_ge. unfold w. rewrite length_app. simpl. lia.
Qed.
End Words.

(** ** The documented form

    A text is a sequence of values and parentheses. A value ends at a blank or at the
    closing parenthesis, and a closing parenthesis at a blank; the word that an opening
    parenthesis ends has no other one. *)
Inductive token := TValue (v : Z) | TOpen | TClose.

Definition EXCLUDE (w : cstr) : Prop := strip_word (lit "exclude(") w = Some [].
Definition first_word (s : cstr) : cstr := fst (span (fun c => negb (isspace c)) s).

Inductive spelled : list token -> cstr -> Prop :=
| sp_end b : blanks b -> spelled [] b
| sp_value b v ts s : blanks b -> job_number v -> spelled ts s ->
    at_blank s \/ (exists us r, ts = TClose :: us /\ s = ")"%char :: r) ->
    spelled (TValue v :: ts) (b ++ print_Z v ++ s)
| sp_open b w ts s : blanks b -> EXCLUDE w -> spelled ts s -> "("%char ∉ first_word s ->
    spelled (TOpen :: ts) (b ++ w ++ s)
| sp_close b ts s : blanks b -> spelled ts s -> at_blank s ->
    spelled (TClose :: ts) (b ++ ")"%char :: s).

(** The values of a text, each with its mode. *)
Fixpoint meaning (mode : Z) (ts : list token) : list (Z * Z) :=
  match ts with
  | [] => []
  | TValue v :: ts => (v, mode) :: meaning mode ts
  | TOpen :: ts => meaning RQE_EXCLUDE ts
  | TClose :: ts => meaning RQE_NORMAL ts
  end.

(** The mode of the first occurrence of [v]. *)
Fixpoint mode_of (v : Z) (l : list (Z * Z)) : option Z :=
  match l with [] => None | (x, m) :: l => if x =? v then Some m else mode_of v l end.

Definition on_token (st : list requeueEStruct * Z * Z) (t : token) : list requeueEStruct * Z * Z :=
  let '(rquest, error, mode) := st in
  match t with
  | TValue v => on_word (print_Z v) st
  | TOpen => (rquest, error, RQE_EXCLUDE)
  | TClose => (rquest, error, RQE_NORMAL)
  end.

(** ** The words of the documented form *)

Lemma short_part a w c : short (a ++ w ++ c) -> short w.
Proof. unfold short, strlen. rewrite !length_app. lia. Qed.

Lemma digits_solid w : Forall (fun c => isdigit c = true) w -> solid w /\ "("%char ∉ w /\ ")"%char ∉ w.
Proof.
  intros H. rewrite Forall_forall in H. split_and!.
  - apply Forall_forall. intros c Hc. by apply isdigit_not_space, H.
  - by intros Hc%H.
  - by intros Hc%H.
Qed.

Lemma value_word v : job_number v ->
  solid (print_Z v) /\ print_Z v <> [] /\ "("%char ∉ print_Z v /\ ")"%char ∉ print_Z v.
Proof.
  intros Hv. destruct (print_digits v Hv) as (c & ds & E & Hd & _). rewrite E.
  destruct (digits_solid _ Hd) as (H1 & H2 & H3). done.
Qed.

(** Letters in upper or lower case. *)
Lemma lower_word c a : lower c = a -> isalpha a = true ->
  isspace c = false /\ c <> "("%char /\ isdigit c = false /\ scan_sign [c] = (false, [c]).
Proof. intros <-. by destruct c as [[] [] [] [] [] [] [] []]; vm_compute. Qed.

Lemma strip_letters ws w r : Forall (fun a => isalpha a = true) ws -> strip_word (ws ++ ["("%char]) w = Some r ->
  exists x, w = x ++ "("%char :: r /\ length x = length ws /\ solid x /\ "("%char ∉ x.
Proof.
  intros Hws. revert w. induction Hws as [|a ws Ha _ IH]; intros w H; destruct w as [|c w]; try done.
  - cbn [app strip_word] in H. unfold ch_eqb in H. case_bool_decide as Hc; [|done]. injection H as ->.
    exists []. split_and!; [|done|constructor|apply not_elem_of_nil].
    simpl. f_equal. revert Hc. by destruct c as [[] [] [] [] [] [] [] []]; vm_compute.
  - cbn [app strip_word] in H. unfold ch_eqb in H. case_bool_decide as Hc; [|done].
    destruct (IH w H) as (x & -> & Hl & Hx & Ho). destruct (lower_word c a Hc Ha) as (Hs & Hno & _).
    exists (c :: x). split_and!; [done|simpl; by rewrite Hl|by constructor|set_solver].
Qed.

Lemma exclude_word w : EXCLUDE w -> exists x, w = x ++ ["("%char] /\ solid x /\ "("%char ∉ x /\
  forall st, on_word w st = on_token st TOpen.
Proof.
  intros Hw. pose proof Hw as Hw'. apply (strip_letters (lit "exclude")) in Hw' as (x & -> & Hl & Hx & Ho);
    [|repeat constructor].
  exists x. split_and!; try done. intros [[rq e] m]. destruct x as [|c x]; [done|].
  assert (isint_ ((c :: x) ++ ["("%char]) = false) as Hint.
  { unfold EXCLUDE in Hw. cbn [app lit strip_word] in Hw.
    assert (lower c = "e"%char) as Hc by (revert Hw; cbn; unfold ch_eqb; by case_bool_decide).
    destruct (lower_word c _ Hc eq_refl) as (Hs & _ & Hd & Hsg). unfold isint_. cbn [app].
    assert (strtol (c :: x ++ ["("%char]) = (0, c :: x ++ ["("%char])) as ->; [|done].
    unfold strtol. rewrite span_none by done.
    assert (scan_sign (c :: x ++ ["("%char]) = (false, c :: x ++ ["("%char])) as ->
      by (clear -Hsg; by destruct c as [[] [] [] [] [] [] [] []]).
    by rewrite span_none. }
  unfold on_word. rewrite Hint. unfold EXCLUDE in Hw. by rewrite Hw, bool_decide_true.
Qed.

Lemma spelled_close ts r : spelled (TClose :: ts) (")"%char :: r) -> at_blank r.
Proof.
  remember (TClose :: ts) as us eqn:Eu. remember (")"%char :: r) as t eqn:Et. intros H. revert Eu Et.
  destruct H as [| | |b us s Hb Hs Hr]; try done. intros _ Et.
  destruct b as [|c b]; cbn [app] in Et; [by injection Et as <-|]. injection Et as -> _.
  apply Forall_cons in Hb as [Hb _]. discriminate Hb.
Qed.

Lemma loop_spelled ts s : spelled ts s -> forall pre st fuel, short (pre ++ s) -> (length s < fuel)%nat ->
  requeue_loop fuel (pre ++ s) (length pre) st = Some (foldl on_token st ts).
Proof.
  induction 1 as [b Hb|b v ts s Hb Hv Hts IH Hs|b w ts s Hb Hw Hts IH Ho|b ts s Hb Hts IH Hs];
    intros pre st fuel Hsh Hf; (destruct fuel as [|fuel]; [lia|]); cbn [requeue_loop].
  - unfold a_getNextWord_. by rewrite next_word_end.
  - destruct (value_word v Hv) as (H1 & H2 & H3 & H4).
    assert (a_getNextWord_ (pre ++ b ++ print_Z v ++ s) (length pre) =
            Some (Some (print_Z v), length (pre ++ b ++ print_Z v))) as ->.
    { destruct Hs as [Hs|(us & r & -> & ->)].
      - apply word_plain; try done; [|by left]. rewrite (assoc app pre b) in Hsh. by eapply short_part.
      - pose proof (spelled_close _ _ Hts) as Hr.
        replace (print_Z v ++ ")"%char :: r) with ((print_Z v ++ [")"%char]) ++ r) by (by rewrite <- (assoc app)).
        apply word_close; try done. apply (short_part (pre ++ b) _ r). by rewrite <- !(assoc app). }
    cbn [mbind option_bind foldl].
    replace (pre ++ b ++ print_Z v ++ s) with ((pre ++ b ++ print_Z v) ++ s) by (by rewrite <- !(assoc app)).
    rewrite IH; [by destruct st as [[rq e] m]|by rewrite <- !(assoc app)|]. rewrite !length_app in Hf.
    destruct (print_Z v); [done|]. simpl in Hf. lia.
  - destruct (exclude_word w Hw) as (x & -> & Hx & Hxo & Hon).
    set (y := first_word s) in *. set (rest := snd (span (fun c => negb (isspace c)) s)).
    assert (s = y ++ rest) as Es by (symmetry; apply span_concat).
    assert (at_blank rest) as Hr.
    { pose proof (span_snd (fun c => negb (isspace c)) s) as H. fold rest in H. unfold at_blank.
      destruct rest; [done|]. by apply negb_false_iff in H. }
    assert (solid y) as Hy.
    { pose proof (span_fst (fun c => negb (isspace c)) s) as H. eapply Forall_impl; [exact H|].
      intros c Hc. by apply negb_true_iff in Hc. }
    assert (a_getNextWord_ (pre ++ b ++ (x ++ ["("%char]) ++ s) (length pre) =
            Some (Some (x ++ ["("%char]), length (pre ++ b ++ x ++ ["("%char]))) as ->.
    { rewrite Es. replace ((x ++ ["("%char]) ++ y ++ rest) with ((x ++ "("%char :: y) ++ rest)
        by (by rewrite <- !(assoc app)).
      apply word_open; try done; [apply Forall_app_2; [done|by apply Forall_cons]|].
      apply (short_part (pre ++ b) _ rest). rewrite <- !(assoc app). rewrite Es in Hsh.
      by rewrite <- !(assoc app) in Hsh. }
    cbn [mbind option_bind foldl]. rewrite Hon.
    replace (pre ++ b ++ (x ++ ["("%char]) ++ s) with ((pre ++ b ++ x ++ ["("%char]) ++ s) by (by rewrite <- !(assoc app)).
    rewrite IH; [done|clear -Hsh; revert Hsh; by rewrite <- !(assoc app)|]. rewrite !length_app in Hf. simpl in Hf. lia.
  - assert (a_getNextWord_ (pre ++ b ++ [")"%char] ++ s) (length pre) = Some (Some [")"%char], length (pre ++ b ++ [")"%char]))) as Ew.
    { apply word_plain; try done; [by constructor|set_solver|by right]. }
    change (")"%char :: s) with ([")"%char] ++ s). rewrite Ew. cbn [mbind option_bind foldl].
    replace (pre ++ b ++ [")"%char] ++ s) with ((pre ++ b ++ [")"%char]) ++ s) by (by rewrite <- !(assoc app)).
    rewrite IH; [by destruct st as [[rq e] m]|by rewrite <- !(assoc app)|]. rewrite !length_app in Hf. simpl in Hf. lia.
Qed.

(** ** What the list means *)

Definition listed (v : Z) (rq : list requeueEStruct) : bool := existsb (fun r => value r =? v) rq.

Lemma value_listed v st : job_number v -> on_token st (TValue v) =
  let '(rq, e, m) := st in
  if v <? 256 then if listed v rq then (rq, 1, m) else (rq ++ [RequeueE m v 1], e, m) else (rq, 1, m).
Proof.
  intros Hv. destruct st as [[rq e] m]. cbn [on_token]. destruct (printed_number v Hv) as (Hi & Ha & _).
  unfold on_word, my_atoi. rewrite Hi, Ha. cbn [negb]. unfold job_number in Hv. unfold INFINIT_INT.
  rewrite (proj2 (Z.leb_gt v (-1))) by lia. rewrite orb_false_r.
  destruct (Z.ltb_spec v 256) as [Hlt|Hge].
  - rewrite (proj2 (Z.leb_gt 256 v)) by lia. rewrite (proj2 (Z.eqb_neq _ _)) by lia. cbn [negb].
    unfold fill_struct, listed. by destruct (existsb _ rq).
  - by rewrite (proj2 (Z.leb_le 256 v)) by lia.
Qed.

Lemma match_app rq r v : match_exitvalue (rq ++ [r]) v =
  if listed v rq then match_exitvalue rq v else if value r =? v then type r else -1.
Proof. induction rq as [|x rq IH]; simpl; [done|]. destruct (value x =? v); [done|exact IH]. Qed.

Lemma listed_app v rq r : listed v (rq ++ [r]) = listed v rq || (value r =? v).
Proof. unfold listed. rewrite existsb_app. simpl. by rewrite orb_false_r. Qed.

Lemma unlisted v rq : listed v rq = false -> match_exitvalue rq v = -1.
Proof. induction rq as [|x rq IH]; simpl; [done|]. by destruct (value x =? v). Qed.

Definition values_of (ts : list token) : list Z := (meaning RQE_NORMAL ts).*1.

Lemma values_mode m ts : (meaning m ts).*1 = values_of ts.
Proof.
  unfold values_of. generalize RQE_NORMAL as m'. revert m.
  induction ts as [|[v| |] ts IH]; intros m m'; simpl; [done|f_equal; apply IH|done|done].
Qed.

Lemma tokens_fold ts : Forall job_number (values_of ts) -> forall rq e m,
  exists rq' e' m', foldl on_token (rq, e, m) ts = (rq', e', m') /\
    (forall v, match_exitvalue rq' v =
       if listed v rq then match_exitvalue rq v
       else if v <? 256 then default (-1) (mode_of v (meaning m ts)) else -1) /\
    (e' = 0 <-> e = 0 /\ NoDup (values_of ts) /\ Forall (fun v => v < 256 /\ listed v rq = false) (values_of ts)).
Proof.
  induction ts as [|t ts IH]; intros Hn rq e m.
  - exists rq, e, m. split_and!; [done| |].
    + intros v. simpl. destruct (listed v rq) eqn:E; [done|]. rewrite unlisted by done. by destruct (v <? 256).
    + unfold values_of. simpl. split; [|tauto]. intros ->. split_and!; constructor.
  - destruct t as [v| |].
    2: { assert (values_of (TOpen :: ts) = values_of ts) as Ev by apply (values_mode RQE_EXCLUDE ts).
         rewrite Ev in *. by apply IH. }
    2: { change (values_of (TClose :: ts)) with (values_of ts) in *. by apply IH. }
    change (values_of (TValue v :: ts)) with (v :: values_of ts) in *.
    apply Forall_cons in Hn as [Hv Hn]. cbn [foldl]. rewrite value_listed by done. cbn [meaning mode_of].
    destruct (Z.ltb_spec v 256) as [Hlt|Hge]; [destruct (listed v rq) eqn:Hl|].
    + destruct (IH Hn rq 1 m) as (rq' & e' & m' & -> & Hm & He). exists rq', e', m'. split_and!; [done| |].
      * intros x. rewrite Hm. destruct (listed x rq) eqn:Hx; [done|].
        destruct (Z.eqb_spec v x) as [->|]; [congruence|done].
      * rewrite NoDup_cons, Forall_cons, He. split; [by intros [? _]|]. intros (_ & _ & (_ & ?) & _). congruence.
    + destruct (IH Hn (rq ++ [RequeueE m v 1]) e m) as (rq' & e' & m' & -> & Hm & He). exists rq', e', m'.
      split_and!; [done| |].
      * intros x. rewrite Hm, listed_app, match_app. cbn [value type].
        destruct (listed x rq) eqn:Hx; [done|]. cbn [orb]. destruct (Z.eqb_spec v x) as [->|]; [|done].
        by rewrite (proj2 (Z.ltb_lt x 256)).
      * rewrite NoDup_cons, Forall_cons, He. split.
        -- intros (-> & Hnd & Hall). split_and!; try done.
           ++ intros Hin. rewrite Forall_forall in Hall. destruct (Hall v Hin) as [_ Hx].
              rewrite listed_app in Hx. cbn [value] in Hx. by rewrite Z.eqb_refl, orb_true_r in Hx.
           ++ eapply Forall_impl; [exact Hall|]. intros x [? Hx]. rewrite listed_app in Hx.
              by apply orb_false_iff in Hx as [? _].
        -- intros (-> & [Hni Hnd] & _ & Hall). split_and!; try done. rewrite Forall_forall in Hall |- *.
           intros x Hin. destruct (Hall x Hin) as [? Hx]. split; [done|]. rewrite listed_app, Hx. cbn [value orb].
           apply Z.eqb_neq. intros ->. done.
    + destruct (IH Hn rq 1 m) as (rq' & e' & m' & -> & Hm & He). exists rq', e', m'. split_and!; [done| |].
      * intros x. rewrite Hm. destruct (listed x rq) eqn:Hx; [done|].
        destruct (Z.ltb_spec x 256); [|done]. by rewrite (proj2 (Z.eqb_neq v x)) by lia.
      * rewrite NoDup_cons, Forall_cons, He. split; [by intros [? _]|]. intros (_ & _ & (? & _) & _). lia.
Qed.

Lemma spelled_numbers ts s : spelled ts s -> Forall job_number (values_of ts).
Proof.
  induction 1 as [| | |]; unfold values_of in *; cbn [meaning]; [constructor| |by rewrite values_mode|done].
  by constructor.
Qed.

(** C20: For a text of REQUEUE_EXIT_VALUES in the documented form, values and
    groups [EXCLUDE(...)] with blanks between them, the parser ends, and afterwards
    [match_exitvalue] gives for each exit value below 256 the mode of its first
    occurrence in the text, and -1 for every other value. The error is clear exactly
    when no value is too large or occurs twice. *)
Theorem requeue_values_parsed ts text : spelled ts text -> short text ->
  exists rules error, requeueEParse text = Some (Z.of_nat (length rules), rules, error) /\
    (forall v, match_exitvalue rules v =
       if v <? 256 then default (-1) (mode_of v (meaning RQE_NORMAL ts)) else -1) /\
    (error = 0 <-> NoDup (values_of ts) /\ Forall (fun v => v < 256) (values_of ts)).
Proof.
  intros Hs Hsh. unfold requeueEParse.
  pose proof (loop_spelled ts text Hs [] ([], 0, RQE_NORMAL) (S (length text)) Hsh ltac:(lia)) as Hl.
  cbn [app length] in Hl. rewrite Hl.
  destruct (tokens_fold ts (spelled_numbers _ _ Hs) [] 0 RQE_NORMAL) as (rq & e & m & -> & Hm & He).
  cbn [mbind option_bind]. exists rq, e. split_and!; [done|done|]. rewrite He. split.
  - intros (_ & ? & Hall). split; [done|]. eapply Forall_impl; [exact Hall|]. by intros ? [? _].
  - intros (? & Hall). split_and!; [done|done|]. eapply Forall_impl; [exact Hall|]. done.
Qed.

(** ** The history of a job's hosts *)

Section History.
Context {H : Type} `{!EqDecision H}.

(** How often the job was sent back from a host. *)
Fixpoint tries (hist : list (@rqHistory H)) (h : H) : Z :=
  match hist with [] => 0 | e :: hist => if decide (host e = h) then retry_num e else tries hist h end.

(** [fill_requeueHist] counts one more try of the host, and its result is the index of the
    entry of the host. *)
Lemma history_counts hist h : let '(i, hist') := fill_requeueHist hist h in
  host <$> hist' !! i = Some h /\ forall x, tries hist' x = tries hist x + (if decide (x = h) then 1 else 0).
Proof.
  induction hist as [|e hist IH]; simpl.
  - split; [done|]. intros x. repeat case_decide; (congruence || lia).
  - destruct (decide (host e = h)) as [<-|Hne]; simpl.
    + split; [done|]. intros x. repeat case_decide; (congruence || lia).
    + destruct (fill_requeueHist hist h) as [i hist']. destruct IH as [Hi IH]. split; [exact Hi|].
      intros x. simpl. destruct (decide (host e = x)) as [<-|]; [|apply IH].
      rewrite decide_False by done. lia.
Qed.
End History.

(** ** Witness *)

Definition demo_values : list token := [TValue 30; TOpen; TValue 20; TValue 5; TClose; TValue 20].

Lemma demo_spelled : spelled demo_values (lit "30 Exclude(20 5) 20").
Proof.
  apply (sp_value [] 30 _ (lit " Exclude(20 5) 20")); [constructor|split; [discriminate|reflexivity]| |by left].
  apply (sp_open [" "%char] (lit "Exclude(") _ (lit "20 5) 20")); [by constructor|reflexivity| |].
  2: { by apply (bool_decide_unpack _). }
  apply (sp_value [] 20 _ (lit " 5) 20")); [constructor|split; [discriminate|reflexivity]| |by left].
  apply (sp_value [" "%char] 5 _ (lit ") 20")); [by constructor|split; [discriminate|reflexivity]| |by right; eauto].
  apply (sp_close [] _ (lit " 20")); [constructor| |done].
  apply (sp_value [" "%char] 20 [] []); [by constructor|split; [discriminate|reflexivity]|apply sp_end; constructor|by left].
Qed.

Lemma requeue_values_parsed_witness : exists rules error,
  requeueEParse (lit "30 Exclude(20 5) 20") = Some (Z.of_nat (length rules), rules, error) /\
  match_exitvalue rules 30 = RQE_NORMAL /\ match_exitvalue rules 20 = RQE_EXCLUDE /\
  match_exitvalue rules 7 = -1 /\ error <> 0.
Proof.
  destruct (requeue_values_parsed demo_values (lit "30 Exclude(20 5) 20") demo_spelled eq_refl)
    as (rules & error & Hp & Hm & He).
  exists rules, error. rewrite !Hm, He. split_and!; [done|reflexivity|reflexivity|reflexivity|].
  intros [Hn _]. revert Hn. by apply (bool_decide_unpack _).
Defined.
