(* ===== verification/TimeWindow.v ===== *)
(** * Time windows (window.c, mbd.window.c and their users)

    A window like [20:00-8:00] or [5:18:00-1:8:30] says when a queue or a host is open.
    [addWindow] puts a window into the lists of the days of the week on which it
    lies; times are C floats, in hours. [checkWindow] looks at one entry of the list of
    today and computes when it must be looked at again; mbatchd does this for queues
    ([checkQWindow]), hosts ([checkHWindow]) and conditions ([updateTimeWindow]), sbatchd for
    jobs ([window_ok]) and LIM for its host ([checkHostWd]).

    The text that ctime makes of a time depends on the time zone and is a parameter.
    In a list [25.0] stands for the end of the day or later, [-1.0] for its
    beginning or earlier; an entry from [25.0] to [25.0] is never open. *)

From Stdlib Require Import SpecFloat.
From S2P Require Import Prelude CLib Stdio Accounting DepCond.

(** ** Times *)

Definition double_of_int (n : Z) : spec_float := binary_normalize 53 1024 n 0 false.

(** [(float) (hour + min/60.0)] for floats [hour] and [min]. *)
Definition add_minutes (hour min : float32) : float32 :=
  to_float (SFadd 53 1024 hour (SFdiv 53 1024 min (double_of_int 60))).

(** The conversion of a double to [time_t]. *)
Definition to_long (x : spec_float) : Z :=
  match x with
  | S754_finite s m e => (if s then Z.opp else id) (if 0 <=? e then Z.pos m * 2 ^ e else Z.pos m / 2 ^ (- e))
  | _ => 0
  end.

(** [strrchr(word, c)]: what lies before and behind the last [c]. *)
Fixpoint split_last (s : cstr) (c : ascii) : option (cstr * cstr) :=
  match s with
  | [] => None
  | a :: s =>
      match split_last s c with
      | Some (x, y) => Some (a :: x, y)
      | None => if ch_eqb a c then Some ([], s) else None
      end
  end.

(** [strchr(word, c)] likewise. *)
Fixpoint split_first (s : cstr) (c : ascii) : option (cstr * cstr) :=
  match s with
  | [] => None
  | a :: s => if ch_eqb a c then Some ([], s) else '(x, y) ← split_first s c; Some (a :: x, y)
  end.

Definition not_number (word : cstr) : bool := negb (isint_ word) || (atoi word <? 0).

Definition parse_hour (word : cstr) : option float32 :=
  if not_number word then None
  else
    let hour := to_float (atof word) in
    if SFltb (float_of_int 23) hour then None else Some hour.

(** The hour, and the day or 0; [None] for the result -1. *)
Definition parse_time (word : cstr) : option (float32 * Z) :=
  match split_last word ":" with
  | None => hour ← parse_hour word; Some (add_minutes hour (float_of_int 0), 0)
  | Some (word, sp) =>
      if not_number sp then None
      else
        let min := float_of_int (atoi sp) in
        if SFltb (float_of_int 59) min then None
        else
          match split_last word ":" with
          | None => hour ← parse_hour word; Some (add_minutes hour min, 0)
          | Some (word, sp) =>
              hour ← parse_hour sp;
              if not_number word then None
              else
                let day := if atoi word =? 0 then 7 else atoi word in
                if (day <? 1) || (7 <? day) then None else Some (add_minutes hour min, day)
          end
  end.

(** ** The list of a day *)

Record windows := Window { opentime : float32; closetime : float32 }.

Definition midnight_before : float32 := float_of_int (-1).
Definition midnight_behind : float32 := float_of_int 25.

Definition fmin (x y : float32) : float32 := if SFltb x y then x else y.
Definition fmax (x y : float32) : float32 := if SFltb y x then x else y.

(** The entry and whether the new window needs no entry of its own. *)
Definition mergeW (wp : windows) (ohour chour : float32) : windows * bool :=
  if SFeqb (opentime wp) midnight_before && SFeqb (closetime wp) midnight_behind then (wp, true)
  else if SFeqb ohour midnight_before && SFeqb chour midnight_behind then (Window midnight_before midnight_behind, true)
  else if SFeqb ohour midnight_behind && SFeqb chour midnight_behind then (wp, true)
  else if SFleb chour ohour then (wp, true)
  else if SFeqb (opentime wp) midnight_behind && SFeqb (closetime wp) midnight_behind then (Window ohour chour, true)
  else
    let ohour := if SFleb ohour (float_of_int 0) then midnight_before else ohour in
    let chour := if SFleb (float_of_int 24) chour then midnight_behind else chour in
    if negb (SFltb chour (opentime wp)) && negb (SFltb (closetime wp) ohour)
    then (Window (fmin ohour (opentime wp)) (fmax chour (closetime wp)), true)
    else (wp, false).

Definition new_wind : windows := Window midnight_behind midnight_behind.
Definition fill_wind (ohour chour : float32) : windows := if SFltb ohour chour then Window ohour chour else new_wind.

(** An empty list is a null pointer. When entries have grown, all but the first are
    inserted again. *)
Fixpoint insert_loop (fuel : nat) (ws : list windows) (ohour chour : float32) : option (list windows) :=
  match fuel with
  | O => None
  | S fuel =>
      match (fun wp => mergeW wp ohour chour) <$> ws with
      | [] => Some [fill_wind ohour chour]
      | (first, m) :: rest =>
          if m || existsb snd rest
          then foldl (fun l wp => l ← l; insert_loop fuel l (opentime wp) (closetime wp)) (Some [first]) (fst <$> rest)
          else Some (ws ++ [fill_wind ohour chour])
      end
  end.

Definition insertW (ws : list windows) (ohour chour : float32) : list windows :=
  default [] (insert_loop (S (length ws)) ws ohour chour).

(** ** The week: eight lists, of which the first is not used *)

Abbreviation week := (list (list windows)).

Definition on_day (i : Z) (ohour chour : float32) (wk : week) : week := alter (fun ws => insertW ws ohour chour) (Z.to_nat i) wk.
Definition day_list (wk : week) (i : Z) : list windows := default [] (wk !! Z.to_nat i).
Definition days : list Z := [1; 2; 3; 4; 5; 6; 7].

(** Days without a window are closed. *)
Definition close_others (wk : week) : week :=
  foldl (fun wk j => match day_list wk j with [] => on_day j midnight_behind midnight_behind wk | _ => wk end) wk days.

(** The loop over the days behind the first one; [fuel] days are left in the week. *)
Fixpoint to_last_day (fuel : nat) (i cday : Z) (chour : float32) (wk : week) : week :=
  match fuel with
  | O => wk
  | S fuel =>
      let i := if i =? 8 then 1 else i in
      if i =? cday then close_others (on_day i midnight_before chour wk)
      else to_last_day fuel (i + 1) cday chour (on_day i midnight_before midnight_behind wk)
  end.

(** [None] for the result -1, which leaves the week as it is. *)
Definition addWindow (wordpair : cstr) (wk : week) : option week :=
  '(oword, cword) ← split_first wordpair "-";
  '(chour, cday) ← parse_time cword;
  '(ohour, oday) ← parse_time oword;
  if ((oday =? 0) || (cday =? 0)) && negb (oday =? cday) then None
  else
    let '(ohour, chour) :=
      if (oday =? 0) && (cday =? 0) && SFeqb ohour chour then (midnight_behind, midnight_behind) else (ohour, chour) in
    if oday =? 0 then
      Some (if SFltb chour ohour
            then foldl (fun wk i => on_day i midnight_before chour (on_day i ohour midnight_behind wk)) wk days
            else foldl (fun wk i => on_day i ohour chour wk) wk days)
    else if oday =? cday then
      if SFltb chour ohour then None
      else
        let '(ohour, chour) := if SFeqb ohour chour then (midnight_behind, midnight_behind) else (ohour, chour) in
        let wk := on_day oday ohour chour wk in
        Some (foldl (fun wk j => match day_list wk j with
                                 | [] => if negb (j =? oday) then on_day j midnight_behind midnight_behind wk else wk
                                 | _ => wk end) wk days)
    else Some (to_last_day 7 (oday + 1) cday chour (on_day oday ohour midnight_behind wk)).

(** ** Looking at the window of a time *)

Record dayhour := DayHour { day : Z; hour : float32 }.

(** The local time in the text that ctime makes, as in [Thu Nov 24 18:22:48 1986]. The day
    stays when it is none of the seven names. *)
Definition getDayHour (timep : cstr) (dayPtr : dayhour) : dayhour :=
  let name := take 3 timep in
  let d := if bool_decide (name = lit "Sun") then 7 else if bool_decide (name = lit "Mon") then 1
           else if bool_decide (name = lit "Tue") then 2 else if bool_decide (name = lit "Wed") then 3
           else if bool_decide (name = lit "Thu") then 4 else if bool_decide (name = lit "Fri") then 5
           else if bool_decide (name = lit "Sat") then 6 else day dayPtr in
  let h := to_float (atof (take 2 (drop 11 timep))) in
  DayHour d (to_float (SFadd 53 1024 h (SFdiv 53 1024 (atof (take 2 (drop 14 timep))) (double_of_int 60)))).

(** [now + (x - dayhour->hour) * 3600] in floats. *)
Definition edge_at (now : Z) (x : float32) (d : dayhour) : Z :=
  to_long (SFadd 24 128 (float_of_int now) (SFmul 24 128 (SFsub 24 128 x (hour d)) (float_of_int 3600))).

(** [*active] and [*wind_edge]. *)
Definition checkWindow (d : dayhour) (now : Z) (wp : windows) (st : bool * Z) : bool * Z :=
  let '(active, wind_edge) := st in
  if SFleb (opentime wp) (hour d) && SFltb (hour d) (closetime wp)
  then (true, Z.min (edge_at now (closetime wp) d) wind_edge)
  else (active, Z.min (edge_at now (fmin (opentime wp) (float_of_int 24)) d) wind_edge).

(** The loops over a list, with and without a break at the first open window. *)
Fixpoint scan_first (d : dayhour) (now : Z) (ws : list windows) (st : bool * Z) : bool * Z :=
  match ws with
  | [] => st
  | wp :: ws => let st := checkWindow d now wp st in if fst st then st else scan_first d now ws st
  end.

Definition scan_all (d : dayhour) (now : Z) (ws : list windows) (st : bool * Z) : bool * Z :=
  foldl (fun st wp => checkWindow d now wp st) st ws.

(** [now + (24.0 - dayhour.hour) * 3600.0] in doubles. *)
Definition end_of_day (now : Z) (d : dayhour) : Z :=
  to_long (SFadd 53 1024 (double_of_int now)
    (SFmul 53 1024 (SFsub 53 1024 (double_of_int 24) (hour d)) (double_of_int 3600))).

Section Clock.
(** The text of a time, and the last second of its day ([mktime] with 23:59:59). [dh] is
    the content of a local variable before [getDayHour] fills it. *)
Context (ctime : Z -> cstr) (last_second : Z -> Z) (dh : dayhour).

Definition local_time (t : Z) : dayhour := getDayHour (ctime t) dh.

(** ** Conditions (mbd.window.c) *)

Definition WINDOW_CLOSE : Z := 0.
Definition WINDOW_OPEN : Z := 1.

Record timeWindow := TimeW { tw_status : Z; tw_week : week; tw_windEdge : Z }.

Definition newTimeWindow : timeWindow := TimeW WINDOW_OPEN (replicate 8 []) 0.

Definition updateTimeWindow (now : Z) (timeW : timeWindow) : timeWindow :=
  if (now <? tw_windEdge timeW) || (tw_windEdge timeW =? 0) then timeW
  else
    let d := local_time now in
    match day_list (tw_week timeW) (day d) with
    | [] => TimeW (tw_status timeW) (tw_week timeW) (end_of_day now d)
    | ws =>
        let '(windOpen, edge) := scan_first d now ws (false, end_of_day now d) in
        TimeW (if windOpen then WINDOW_OPEN else WINDOW_CLOSE) (tw_week timeW) edge
    end.

(** ** Queues (mbd.queue.c) *)

Definition QUEUE_STAT_RUN : Z := 0x04.
Definition QUEUE_STAT_RUNWIN_CLOSE : Z := 0x20.

(** [has_run_window] is [HAS_RUN_WINDOW], [ignore_deadline] is [IGNORE_DEADLINE]. *)
Record queueWin := QueueWin {
  qStatus : Z; q_windEdge : Z; q_week : week; weekR : week;
  has_run_window : bool; ignore_deadline : bool; runWinCloseTime : Z }.

Definition set_queue_window (s e : Z) (q : queueWin) : queueWin :=
  QueueWin s e (q_week q) (weekR q) (has_run_window q) (ignore_deadline q) (runWinCloseTime q).
Definition set_close_time (s t : Z) (q : queueWin) : queueWin :=
  QueueWin s (q_windEdge q) (q_week q) (weekR q) (has_run_window q) (ignore_deadline q) t.

(** The body of the first loop of [checkQWindow]. *)
Definition queue_window (now : Z) (q : queueWin) : queueWin :=
  if (now <? q_windEdge q) || (q_windEdge q =? 0) then q
  else
    let d := local_time now in
    let s := clr (qStatus q) (Z.lor QUEUE_STAT_RUN QUEUE_STAT_RUNWIN_CLOSE) in
    let wsR := day_list (weekR q) (day d) in
    let '(windOpen, edge) :=
      scan_first d now wsR (match wsR with [] => true | _ => false end, end_of_day now d) in
    if negb windOpen then set_queue_window (Z.lor s QUEUE_STAT_RUNWIN_CLOSE) edge q
    else
      let s := clr s QUEUE_STAT_RUNWIN_CLOSE in
      match day_list (q_week q) (day d) with
      | [] => set_queue_window (Z.lor s QUEUE_STAT_RUN) edge q
      | ws =>
          let '(windOpen, edge) := scan_first d now ws (false, edge) in
          set_queue_window (if windOpen then Z.lor s QUEUE_STAT_RUN else s) edge q
      end.

(** The loop of [runWindowCloseTime]: it goes on to the next day as long as the window
    is open until midnight. *)
Fixpoint close_time_loop (fuel : nat) (wk : week) (thismidnight : Z) (d : dayhour) (nowTime midnight : Z) : option Z :=
  match fuel with
  | O => None
  | S fuel =>
      let '(windOpen, deadline) := scan_first d nowTime (day_list wk (day d)) (false, midnight) in
      if windOpen then
        if deadline =? midnight
        then close_time_loop fuel wk thismidnight (getDayHour (ctime (midnight + 1)) d) (midnight + 1) (midnight + 3600 * 24)
        else Some deadline
      else if midnight =? thismidnight then Some 0 else Some midnight
  end.

Definition runWindowCloseTime (fuel : nat) (now : Z) (q : queueWin) : option Z :=
  let d := local_time now in
  match day_list (weekR q) (day d) with
  | [] => Some 0
  | _ => close_time_loop fuel (weekR q) (last_second now) d now (last_second now)
  end.

(** The body of the second loop. *)
Definition queue_close_time (fuel : nat) (now : Z) (q : queueWin) : option queueWin :=
  if has_run_window q && negb (ignore_deadline q) then
    if has (qStatus q) QUEUE_STAT_RUN then
      t ← runWindowCloseTime fuel now q;
      Some (if t =? 0 then set_close_time (clr (Z.lor (qStatus q) QUEUE_STAT_RUNWIN_CLOSE) QUEUE_STAT_RUN) t q
            else set_close_time (qStatus q) t q)
    else Some (set_close_time (qStatus q) 0 q)
  else Some q.

(** [None]: [mbatchd] does not come back from the function. *)
Definition checkQWindow (fuel : nat) (now : Z) (qs : list queueWin) : option (list queueWin) :=
  mapM (queue_close_time fuel now) (queue_window now <$> qs).

(** ** Hosts (mbd.host.c) *)

Definition HOST_STAT_WIND : Z := 0x02.

Record hostWin := HostWin { hStatus : Z; h_windEdge : Z; h_week : week }.

(** The body of the loop of [checkHWindow] over all hosts. *)
Definition host_window (now : Z) (hp : hostWin) : hostWin :=
  if has (hStatus hp) HOST_STAT_REMOTE then hp
  else if (now <? h_windEdge hp) || (h_windEdge hp =? 0) then hp
  else
    let d := local_time now in
    match day_list (h_week hp) (day d) with
    | [] => HostWin (clr (hStatus hp) HOST_STAT_WIND) (end_of_day now d) (h_week hp)
    | ws =>
        let '(windOpen, edge) := scan_all d now ws (false, end_of_day now d) in
        let s := Z.lor (hStatus hp) HOST_STAT_WIND in
        HostWin (if windOpen then clr s HOST_STAT_WIND else s) edge (h_week hp)
    end.

Definition checkHWindow (now : Z) (hostTab : gmap cstr hostWin) : gmap cstr hostWin := host_window now <$> hostTab.

(** ** Jobs (sbd.misc.c) *)

Definition WARN_TIME : Z := 600.
Definition SUB_WINDOW_SIG : Z := 0x8000.

Record jobCard := JobCard {
  active : bool; j_windEdge : Z; j_week : week; j_options : Z; j_jStatus : Z; windWarnTime : Z }.

Inductive warning := job_resume | jobsig.

(** The job and what is done to it when the window is about to close; the result of the
    function is [active]. *)
Definition window_ok (now : Z) (jobPtr : jobCard) : jobCard * list warning :=
  let was := active jobPtr in
  let sig := has (j_options jobPtr) SUB_WINDOW_SIG in
  let ckTime := if was && sig then now + WARN_TIME else now in
  if (ckTime <? j_windEdge jobPtr) || (j_windEdge jobPtr =? 0) then (jobPtr, [])
  else
    let d := local_time ckTime in
    match day_list (j_week jobPtr) (day d) with
    | [] =>
        (JobCard true (end_of_day now d) (j_week jobPtr) (j_options jobPtr) (j_jStatus jobPtr) (windWarnTime jobPtr), [])
    | ws =>
        let '(act, edge) := scan_all d now ws (false, end_of_day now d) in
        if was && negb act && (WARN_TIME <=? now - windWarnTime jobPtr) && sig
        then (JobCard act edge (j_week jobPtr) (j_options jobPtr) (j_jStatus jobPtr) now,
              (if has (j_jStatus jobPtr) JobStatus.JOB_STAT_RUN then [] else [job_resume]) ++ [jobsig])
        else (JobCard act edge (j_week jobPtr) (j_options jobPtr) (j_jStatus jobPtr) (windWarnTime jobPtr), [])
    end.

(** ** The host of a LIM (lim.internal.c) *)

Definition LIM_LOCKEDW : Z := 0x00040000.

Record hostNode := HostNode { status0 : Z; wind_edge : Z; l_week : week }.

Definition checkHostWd (now : Z) (myHostPtr : hostNode) : hostNode :=
  if (now <? wind_edge myHostPtr) || (wind_edge myHostPtr =? 0) then myHostPtr
  else
    let d := local_time now in
    match day_list (l_week myHostPtr) (day d) with
    | [] => HostNode (Z.lor (status0 myHostPtr) LIM_LOCKEDW) (end_of_day now d) (l_week myHostPtr)
    | ws =>
        let '(active, edge) := scan_all d now ws (false, end_of_day now d) in
        HostNode (if active then clr (status0 myHostPtr) LIM_LOCKEDW else Z.lor (status0 myHostPtr) LIM_LOCKEDW)
          edge (l_week myHostPtr)
    end.
End Clock.
