(* ===== verification/TimeWindowSpec.v ===== *)
(** * Time windows: theorems

    All times in the lists are on a grid: [ft z] is the float for the minute [z] of the
    day, also for the marks one hour before the day and one hour behind it. On the grid
    the floats are ordered as the minutes are, so that the lists of a day can be read as
    intervals of integers. [addWindow] adds exactly the minutes that a window names, and
    the status of queues, hosts and jobs follows the windows. *)

From Stdlib Require Import SpecFloat Btauto.
From S2P Require Import Prelude CLib Stdio Accounting DepCond TimeWindow.

(** ** The order of floats *)

(** Floats that are numbers are ordered as triples of integers. *)
Definition float_key (x : spec_float) : Z * Z * Z :=
  match x with
  | S754_zero _ | S754_nan => (0, 0, 0)
  | S754_infinity s => (if s then -2 else 2, 0, 0)
  | S754_finite s m e => if s then (-1, - e, Z.neg m) else (1, e, Z.pos m)
  end.

Definition key_lt (x y : Z * Z * Z) : Prop :=
  let '(a, b, c) := x in let '(a', b', c') := y in a < a' \/ (a = a' /\ (b < b' \/ (b = b' /\ c < c'))).

Definition is_number (x : spec_float) : bool := match x with S754_nan => false | _ => true end.

Lemma SFcompare_key x y : is_number x = true -> is_number y = true ->
  match SFcompare x y with
  | Some Lt => key_lt (float_key x) (float_key y)
  | Some Eq => float_key x = float_key y
  | Some Gt => key_lt (float_key y) (float_key x)
  | None => False
  end.
Proof.
  unfold SFcompare. destruct x as [[]|[]| |[] mx ex], y as [[]|[]| |[] my ey]; try done; intros _ _; cbn;
    try lia; destruct (Z.compare_spec ex ey) as [->|?|?]; try lia;
    change (Pos.compare_cont Eq mx my) with (mx ?= my)%positive;
    destruct (Pos.compare_spec mx my) as [->|?|?]; cbn; try lia; congruence.
Qed.

Lemma SFltb_key x y : SFltb x y = true -> is_number x = true -> is_number y = true -> key_lt (float_key x) (float_key y).
Proof.
  intros H Hx Hy. pose proof (SFcompare_key x y Hx Hy) as Hk. unfold SFltb in H. by destruct (SFcompare x y) as [[]|].
Qed.

(** ** The grid *)

(** The float for the minute [z] of the day. *)
Definition ft (z : Z) : float32 := add_minutes (float_of_int (z / 60)) (float_of_int (z mod 60)).

Definition grid (z : Z) : Prop := -60 <= z <= 1500.

Fixpoint rising (z : Z) (x : float32) (n : nat) : bool :=
  match n with
  | O => is_number x
  | S n => let y := ft (z + 1) in is_number x && SFltb x y && rising (z + 1) y n
  end.

Lemma grid_rising : rising (-60) (ft (-60)) 1560 = true.
Proof. vm_compute. reflexivity. Qed.

Lemma rising_spec n z : rising z (ft z) n = true -> forall k, (k <= n)%nat ->
  is_number (ft (z + Z.of_nat k)) = true /\
  forall i, (i < k)%nat -> key_lt (float_key (ft (z + Z.of_nat i))) (float_key (ft (z + Z.of_nat k))).
Proof.
  revert z. induction n as [|n IH]; intros z H k Hk.
  - replace k with O by lia. rewrite Z.add_0_r. split; [exact H|lia].
  - cbn [rising] in H. apply andb_true_iff in H as [[Hn Hlt]%andb_true_iff H].
    destruct k as [|k]; [rewrite Z.add_0_r; split; [done|lia]|].
    assert (forall i, z + Z.of_nat (S i) = z + 1 + Z.of_nat i) as E by lia.
    destruct (IH _ H k ltac:(lia)) as [Hk1 Hk2]. rewrite E. split; [done|].
    assert (key_lt (float_key (ft z)) (float_key (ft (z + 1)))) as H1.
    { apply SFltb_key; [done..|]. destruct (IH _ H O ltac:(lia)) as [? _]. by rewrite Z.add_0_r in *. }
    intros [|i] Hi.
    + rewrite Z.add_0_r. destruct k as [|k]; [by rewrite Z.add_0_r|].
      specialize (Hk2 O ltac:(lia)). rewrite Z.add_0_r in Hk2.
      destruct (float_key (ft z)) as [[??]?], (float_key (ft (z + 1))) as [[??]?], (float_key (ft (z + 1 + Z.of_nat (S k)))) as [[??]?].
      cbn in *. lia.
    + rewrite E. apply Hk2. lia.
Qed.

Lemma ft_key_lt a b : grid a -> grid b -> a < b -> key_lt (float_key (ft a)) (float_key (ft b)).
Proof.
  unfold grid. intros Ha Hb Hab. destruct (rising_spec _ _ grid_rising (Z.to_nat (b + 60)) ltac:(lia)) as [_ H].
  specialize (H (Z.to_nat (a + 60)) ltac:(lia)). rewrite !Z2Nat.id in H by lia.
  by replace (-60 + (a + 60)) with a in H by lia; replace (-60 + (b + 60)) with b in H by lia.
Qed.

Lemma ft_number a : grid a -> is_number (ft a) = true.
Proof.
  unfold grid. intros Ha. destruct (rising_spec _ _ grid_rising (Z.to_nat (a + 60)) ltac:(lia)) as [H _].
  rewrite Z2Nat.id in H by lia. by replace (-60 + (a + 60)) with a in H by lia.
Qed.

Lemma key_lt_irrefl x y : key_lt x y -> key_lt y x -> False.
Proof. destruct x as [[??]?], y as [[??]?]. cbn. lia. Qed.

Lemma ft_compare a b : grid a -> grid b -> SFcompare (ft a) (ft b) = Some (a ?= b).
Proof.
  intros Ha Hb. pose proof (SFcompare_key _ _ (ft_number a Ha) (ft_number b Hb)) as Hk.
  destruct (Z.compare_spec a b) as [->|Hlt|Hlt].
  - destruct (SFcompare (ft b) (ft b)) as [[]|]; try done; exfalso; by eapply key_lt_irrefl.
  - pose proof (ft_key_lt a b Ha Hb Hlt) as H. destruct (SFcompare (ft a) (ft b)) as [[]|]; try done; exfalso.
    + rewrite Hk in H. by eapply key_lt_irrefl.
    + by eapply key_lt_irrefl.
  - pose proof (ft_key_lt b a Hb Ha Hlt) as H. destruct (SFcompare (ft a) (ft b)) as [[]|]; try done; exfalso.
    + rewrite Hk in H. by eapply key_lt_irrefl.
    + by eapply key_lt_irrefl.
Qed.

Lemma ft_lt a b : grid a -> grid b -> SFltb (ft a) (ft b) = (a <? b).
Proof. intros Ha Hb. unfold SFltb. rewrite ft_compare by done. unfold Z.ltb. by destruct (a ?= b). Qed.
Lemma ft_le a b : grid a -> grid b -> SFleb (ft a) (ft b) = (a <=? b).
Proof. intros Ha Hb. unfold SFleb. rewrite ft_compare by done. unfold Z.leb. by destruct (a ?= b). Qed.
Lemma ft_eq a b : grid a -> grid b -> SFeqb (ft a) (ft b) = (a =? b).
Proof. intros Ha Hb. unfold SFeqb. rewrite ft_compare by done. rewrite Z.eqb_compare. by destruct (a ?= b). Qed.

Lemma midnight_before_ft : midnight_before = ft (-60). Proof. reflexivity. Qed.
Lemma midnight_behind_ft : midnight_behind = ft 1500. Proof. reflexivity. Qed.
Lemma zero_ft : float_of_int 0 = ft 0. Proof. reflexivity. Qed.
Lemma day_end_ft : float_of_int 24 = ft 1440. Proof. reflexivity. Qed.

#[local] Opaque ft.

(** ** The list of a day as intervals *)

Definition w2 (w : Z * Z) : windows := Window (ft w.1) (ft w.2).
Definition gridw (w : Z * Z) : Prop := grid w.1 /\ grid w.2.

Definition inside (w : Z * Z) (m : Z) : bool := (w.1 <=? m) && (m <? w.2).
Definition closed : Z * Z := (1500, 1500).
Definition proper (w : Z * Z) : Prop := gridw w /\ w.1 < w.2.
Definition apart (w v : Z * Z) : Prop := w.2 < v.1 \/ v.2 < w.1.

Fixpoint gaps (zs : list (Z * Z)) : Prop :=
  match zs with [] => True | w :: zs => Forall (apart w) zs /\ gaps zs end.

(** A day: closed, or windows with gaps between them; or without a list. *)
Definition day_filled (zs : list (Z * Z)) : Prop := zs = [closed] \/ (zs <> [] /\ Forall proper zs /\ gaps zs).
Definition day_ok (zs : list (Z * Z)) : Prop := zs = [] \/ day_filled zs.

Lemma gaps_snoc zs w : gaps zs -> Forall (fun v => apart v w) zs -> gaps (zs ++ [w]).
Proof.
  induction zs as [|v zs IH]; cbn; [done|]. intros [Hv Hg] Hw. apply Forall_cons in Hw as [Hw Hws].
  split; [|by apply IH]. apply Forall_app. split; [done|]. by constructor.
Qed.

(** [mergeW] on intervals. *)
Definition merge2 (w : Z * Z) (o c : Z) : (Z * Z) * bool :=
  if (w.1 =? -60) && (w.2 =? 1500) then (w, true)
  else if (o =? -60) && (c =? 1500) then ((-60, 1500), true)
  else if (o =? 1500) && (c =? 1500) then (w, true)
  else if c <=? o then (w, true)
  else if (w.1 =? 1500) && (w.2 =? 1500) then ((o, c), true)
  else
    let o := if o <=? 0 then -60 else o in
    let c := if 1440 <=? c then 1500 else c in
    if negb (c <? w.1) && negb (w.2 <? o) then ((Z.min o w.1, Z.max c w.2), true) else (w, false).

Lemma fmin_ft a b : grid a -> grid b -> fmin (ft a) (ft b) = ft (Z.min a b).
Proof. intros Ha Hb. unfold fmin. rewrite ft_lt by done. destruct (Z.ltb_spec a b); f_equal; lia. Qed.
Lemma fmax_ft a b : grid a -> grid b -> fmax (ft a) (ft b) = ft (Z.max a b).
Proof. intros Ha Hb. unfold fmax. rewrite ft_lt by done. destruct (Z.ltb_spec b a); f_equal; lia. Qed.

Lemma mergeW_merge2 w o c : gridw w -> grid o -> grid c ->
  mergeW (w2 w) (ft o) (ft c) = (w2 (merge2 w o c).1, (merge2 w o c).2) /\ gridw (merge2 w o c).1.
Proof.
  intros [Hw1 Hw2] Ho Hc. unfold mergeW, merge2. rewrite midnight_before_ft, midnight_behind_ft, zero_ft, day_end_ft.
  cbn [opentime closetime w2].
  assert (grid (-60)) by (unfold grid; lia). assert (grid 1500) by (unfold grid; lia).
  assert (grid 0) by (unfold grid; lia). assert (grid 1440) by (unfold grid; lia).
  rewrite !ft_eq, !ft_le by done.
  destruct (_ && _); [by split|]. destruct (_ && _); [by split|]. destruct (_ && _); [by split|].
  destruct (c <=? o); [by split|]. destruct (_ && _); [by split|].
  set (o' := if o <=? 0 then -60 else o). set (c' := if 1440 <=? c then 1500 else c).
  assert (grid o' /\ grid c') as [Ho' Hc'] by (unfold o', c'; split; case_if; done).
  replace (if o <=? 0 then ft (-60) else ft o) with (ft o') by (unfold o'; by case_if).
  replace (if 1440 <=? c then ft 1500 else ft c) with (ft c') by (unfold c'; by case_if).
  rewrite !ft_lt, fmin_ft, fmax_ft by done. destruct (_ && _); [|by split].
  split; [done|]. unfold gridw, grid in *. cbn. lia.
Qed.

(** A window that is merged is added to the minutes of the entry; otherwise there is a gap
    between the two. *)
Lemma merge2_spec w o c : w = closed \/ proper w -> grid o -> grid c ->
  if (merge2 w o c).2 then
    (forall m, 0 <= m < 1440 -> inside (merge2 w o c).1 m = inside w m || inside (o, c) m) /\
    ((merge2 w o c).1 = closed \/ proper (merge2 w o c).1) /\
    (proper w -> proper (merge2 w o c).1)
  else (merge2 w o c).1 = w /\ proper (o, c) /\ apart w (o, c) /\ proper w.
Proof.
  intros Hw Ho Hc. destruct w as [w1 w2]. unfold merge2, inside, proper, gridw, grid, closed, apart in *. cbn [fst snd] in *.
  assert ((w1 = 1500 /\ w2 = 1500) \/ (-60 <= w1 /\ w2 <= 1500 /\ w1 < w2)) as Hw'.
  { destruct Hw as [[= -> ->]|?]; lia. }
  assert (forall (P : Prop) x y, (((x : Z), (y : Z)) = (1500, 1500) \/ P) <-> ((x = 1500 /\ y = 1500) \/ P)) as Hpair.
  { intros P x y. split; (intros [H|?]; [left|by right]); [by simplify_eq|]. by destruct H as [-> ->]. }
  clear Hw. destruct (Z.eqb_spec w1 (-60)), (Z.eqb_spec w2 1500); cbn [andb fst snd];
  destruct (Z.eqb_spec o (-60)), (Z.eqb_spec c 1500); cbn [andb fst snd];
  destruct (Z.eqb_spec o 1500); cbn [andb fst snd]; try lia;
  destruct (Z.leb_spec c o); cbn [andb fst snd]; try lia;
  destruct (Z.eqb_spec w1 1500); cbn [andb fst snd]; try lia;
  try (destruct (Z.leb_spec o 0), (Z.leb_spec 1440 c); cbn [fst snd];
       match goal with |- context [negb (?a <? ?b) && negb (?x <? ?y)] =>
         destruct (Z.ltb_spec a b), (Z.ltb_spec x y) end; cbn [negb andb fst snd]);
  rewrite ?Hpair; split_and?; try lia; try done;
  intros m Hm; apply eq_true_iff_eq; rewrite ?orb_true_iff, !andb_true_iff, !Z.leb_le, !Z.ltb_lt; lia.
Qed.

Definition covers (zs : list (Z * Z)) (m : Z) : bool := existsb (fun w => inside w m) zs.

Lemma covers_app zs1 zs2 m : covers (zs1 ++ zs2) m = covers zs1 m || covers zs2 m.
Proof. apply existsb_app. Qed.

Lemma covers_closed m : 0 <= m < 1440 -> inside closed m = false.
Proof. intros Hm. unfold inside, closed. cbn [fst snd]. rewrite (proj2 (Z.leb_gt _ _)) by lia. done. Qed.

Definition entry_ok (w : Z * Z) : Prop := w = closed \/ proper w.

Lemma entry_grid w : entry_ok w -> grid w.1 /\ grid w.2.
Proof. unfold entry_ok, proper, gridw, grid, closed. intros [-> | [? ?]]; cbn; lia. Qed.

Lemma day_entries zs : day_ok zs -> Forall entry_ok zs.
Proof.
  intros [-> | [-> | (_ & Hp & _)]]; [constructor|by constructor; [left|]|].
  eapply Forall_impl; [exact Hp|]. by right.
Qed.

Lemma merge_none zs o c : Forall entry_ok zs -> grid o -> grid c -> existsb (fun w => (merge2 w o c).2) zs = false ->
  (fun w => (merge2 w o c).1) <$> zs = zs.
Proof.
  intros Hz Ho Hc. induction Hz as [|v zs Hv Hz IH]; [done|]. cbn [existsb]. intros [Ev Ex]%orb_false_iff.
  cbn [fmap list_fmap]. f_equal; [|by apply IH].
  pose proof (merge2_spec v o c Hv Ho Hc) as Hs. rewrite Ev in Hs. by destruct Hs.
Qed.

(** The entries that a new window makes of those of the list. *)
Lemma merge_all zs o c : Forall entry_ok zs -> grid o -> grid c ->
  (fun wp => mergeW wp (ft o) (ft c)) <$> (w2 <$> zs) = (fun w => (w2 (merge2 w o c).1, (merge2 w o c).2)) <$> zs /\
  Forall entry_ok ((fun w => (merge2 w o c).1) <$> zs) /\
  (existsb (fun w => (merge2 w o c).2) zs = true -> forall m, 0 <= m < 1440 ->
     covers ((fun w => (merge2 w o c).1) <$> zs) m = covers zs m || inside (o, c) m) /\
  (existsb (fun w => (merge2 w o c).2) zs = false -> Forall (fun w => proper w /\ apart w (o, c) /\ proper (o, c)) zs).
Proof.
  intros Hz Ho Hc. induction Hz as [|w zs Hw Hz (IH1 & IH2 & IH3 & IH4)]; [by split_and!; try constructor|].
  destruct (mergeW_merge2 w o c (entry_grid w Hw) Ho Hc) as [E Hg]. pose proof (merge2_spec w o c Hw Ho Hc) as Hs.
  cbn [fmap list_fmap existsb covers]. rewrite E. unfold covers in *. destruct (merge2 w o c) as [w' []]; cbn [fst snd] in *.
  - destruct Hs as (Hm & He & _). split_and!; [by f_equal|by constructor| |done].
    intros _ m Hmr. rewrite Hm by done. destruct (existsb (fun w => (merge2 w o c).2) zs) eqn:Ex.
    + rewrite IH3 by done. btauto.
    + rewrite (merge_none zs o c) by done.
      btauto.
  - destruct Hs as (-> & Hp & Ha & Hpw). split_and!; [by f_equal|by constructor| |].
    + intros Ex m Hmr. rewrite IH3 by done. by rewrite orb_assoc.
    + intros Ex. constructor; [done|]. by apply IH4.
Qed.

Lemma fill_ft o c : grid o -> grid c -> exists w, fill_wind (ft o) (ft c) = w2 w /\ entry_ok w /\
  (o < c -> w = (o, c)) /\ forall m, 0 <= m < 1440 -> inside w m = inside (o, c) m.
Proof.
  intros Ho Hc. unfold fill_wind. rewrite ft_lt by done. destruct (Z.ltb_spec o c).
  - exists (o, c). by split_and!; [|right| |].
  - exists closed. split_and!; [done|by left|lia|]. intros m Hm. rewrite covers_closed by done. unfold inside. cbn [fst snd].
    symmetry. apply andb_false_iff. rewrite Z.leb_gt, Z.ltb_ge. lia.
Qed.

Lemma filled_one w : entry_ok w -> day_filled [w].
Proof. intros [-> | Hw]; [by left|]. right. split_and!; [done|by constructor|done]. Qed.

Lemma insert_loop_spec fuel zs o c : day_ok zs -> grid o -> grid c -> (length zs < fuel)%nat ->
  exists zs', insert_loop fuel (w2 <$> zs) (ft o) (ft c) = Some (w2 <$> zs') /\ day_filled zs' /\
    (length zs' <= S (length zs))%nat /\ forall m, 0 <= m < 1440 -> covers zs' m = covers zs m || inside (o, c) m.
Proof.
  revert zs o c. induction fuel as [|fuel IH]; intros zs o c Hok Ho Hc Hf; [lia|].
  pose proof (day_entries _ Hok) as He. destruct (merge_all zs o c He Ho Hc) as (E & Hent & Hyes & Hno).
  cbn [insert_loop]. rewrite E. destruct (fill_ft o c Ho Hc) as (v & Ev & Hv & Hv1 & Hv2).
  destruct zs as [|w zs].
  { cbn [fmap list_fmap]. rewrite Ev. exists [v]. split_and!; [done|by apply filled_one|done|].
    intros m Hm. cbn. rewrite Hv2 by done. by rewrite orb_false_r. }
  cbn [fmap list_fmap]. cbn [existsb] in Hyes, Hno.
  assert ((merge2 w o c).2 || existsb snd ((fun w => (w2 (merge2 w o c).1, (merge2 w o c).2)) <$> zs) =
          (merge2 w o c).2 || existsb (fun w => (merge2 w o c).2) zs) as ->.
  { f_equal. clear. induction zs as [|v zs IH]; [done|]. cbn. by rewrite IH. }
  destruct ((merge2 w o c).2 || existsb (fun w => (merge2 w o c).2) zs) eqn:Ex.
  - specialize (Hyes eq_refl). rewrite <- list_fmap_compose.
    assert (fst ∘ (fun w => (w2 (merge2 w o c).1, (merge2 w o c).2)) <$> zs = w2 <$> ((fun w => (merge2 w o c).1) <$> zs)) as ->
      by (rewrite <- list_fmap_compose; done).
    cbn [fmap list_fmap] in Hyes, Hent. apply Forall_cons in Hent as [Hw Hent].
    assert (forall rest acc, Forall entry_ok rest -> day_filled acc -> (length acc + length rest <= fuel)%nat ->
      exists zs', foldl (fun l wp => l ← l; insert_loop fuel l (opentime wp) (closetime wp)) (Some (w2 <$> acc)) (w2 <$> rest) =
        Some (w2 <$> zs') /\ day_filled zs' /\ (length zs' <= length acc + length rest)%nat /\
        forall m, 0 <= m < 1440 -> covers zs' m = covers (acc ++ rest) m) as Hfold.
    { induction rest as [|u rest IHr]; intros acc Hr Ha Hl.
      - exists acc. rewrite app_nil_r, Nat.add_0_r. by split_and!.
      - apply Forall_cons in Hr as [Hu Hr]. simpl in Hl. destruct (entry_grid u Hu) as [Hu1 Hu2].
        destruct (IH acc u.1 u.2 (or_intror Ha) Hu1 Hu2 ltac:(lia)) as (acc' & E1 & Ha' & Hl' & Hc').
        cbn [fmap list_fmap foldl mbind option_bind opentime closetime w2]. rewrite E1.
        destruct (IHr acc' Hr Ha' ltac:(lia)) as (zs' & E2 & Hz & Hlz & Hcz). exists zs'.
        split_and!; [done|done|simpl; lia|]. intros m Hm. rewrite Hcz, !covers_app, Hc' by done.
        rewrite <- surjective_pairing. cbn [covers existsb]. unfold covers. by rewrite orb_assoc. }
    destruct (Hfold ((fun w => (merge2 w o c).1) <$> zs) [(merge2 w o c).1] Hent (filled_one _ Hw)) as (zs' & Ez & Hz & Hlz & Hcz).
    { rewrite length_fmap. simpl in *. lia. }
    exists zs'. split_and!; [exact Ez|done|rewrite length_fmap in Hlz; simpl in *; lia|].
    intros m Hm. rewrite Hcz by done. by apply Hyes.
  - specialize (Hno eq_refl). pose proof (Forall_inv Hno) as (Hpw & Haw & Hpo). rewrite Ev, (Hv1 (proj2 Hpo)).
    exists ((w :: zs) ++ [(o, c)]). split_and!.
    + by rewrite fmap_app.
    + right. split_and!; [done| |].
      * apply Forall_app. split; [|by constructor]. eapply Forall_impl; [exact Hno|]. by intros ? [? _].
      * apply gaps_snoc; [|eapply Forall_impl; [exact Hno|]; by intros ? (_ & ? & _)].
        destruct Hok as [? | [Hcl | (_ & _ & ?)]]; [done| |done]. by injection Hcl as _ ->.
    + rewrite length_app. simpl. lia.
    + intros m Hm. rewrite covers_app. cbn [covers existsb]. unfold covers. by rewrite orb_false_r.
Qed.

Lemma insertW_spec zs o c : day_ok zs -> grid o -> grid c ->
  exists zs', insertW (w2 <$> zs) (ft o) (ft c) = w2 <$> zs' /\ day_filled zs' /\
    forall m, 0 <= m < 1440 -> covers zs' m = covers zs m || inside (o, c) m.
Proof.
  intros Hok Ho Hc. unfold insertW. rewrite length_fmap.
  destruct (insert_loop_spec (S (length zs)) zs o c Hok Ho Hc ltac:(lia)) as (zs' & -> & Hz & _ & Hm). by exists zs'.
Qed.

(** ** The week *)

Definition list_ok (ws : list windows) : Prop := exists zs, ws = w2 <$> zs /\ day_ok zs.

(** Eight lists, each of which is on the grid, closed or with gaps between its windows. *)
Definition week_ok (wk : week) : Prop := length wk = 8%nat /\ Forall list_ok wk.

(** Whether a window of the day is open at the minute [m]. *)
Definition is_open (wk : week) (i m : Z) : bool :=
  existsb (fun w => SFleb (opentime w) (ft m) && SFltb (ft m) (closetime w)) (day_list wk i).

Definition a_day (i : Z) : Prop := 1 <= i <= 7.
Definition a_minute (m : Z) : Prop := 0 <= m < 1440.

Lemma list_open zs m : Forall entry_ok zs -> a_minute m ->
  existsb (fun w => SFleb (opentime w) (ft m) && SFltb (ft m) (closetime w)) (w2 <$> zs) = covers zs m.
Proof.
  intros Hz Hm. induction Hz as [|w zs Hw _ IH]; [done|]. cbn [fmap list_fmap existsb covers]. rewrite IH.
  cbn [opentime closetime w2]. destruct (entry_grid w Hw). assert (grid m) by (unfold grid, a_minute in *; lia).
  by rewrite ft_le, ft_lt.
Qed.

Lemma day_list_ok wk i : week_ok wk -> list_ok (day_list wk i).
Proof.
  intros [_ Hf]. unfold day_list. destruct (wk !! Z.to_nat i) as [ws|] eqn:E; [|by exists []; split; [|left]].
  exact (Forall_lookup_1 _ _ _ _ Hf E).
Qed.

Lemma on_day_list wk j o c i : week_ok wk -> a_day j -> a_day i ->
  day_list (on_day j o c wk) i = if decide (i = j) then insertW (day_list wk j) o c else day_list wk i.
Proof.
  unfold a_day. intros [Hl _] Hj Hi. unfold day_list, on_day. case_decide as Hij.
  - subst i. rewrite list_lookup_alter_eq. destruct (lookup_lt_is_Some_2 wk (Z.to_nat j)) as [ws ->]; [lia|]. done.
  - by rewrite list_lookup_alter_ne by lia.
Qed.

Lemma insertW_list_ok ws o c : list_ok ws -> grid o -> grid c -> list_ok (insertW ws (ft o) (ft c)).
Proof. intros (zs & -> & Hz) Ho Hc. destruct (insertW_spec zs o c Hz Ho Hc) as (zs' & -> & Hz' & _). exists zs'. split; [done|by right]. Qed.

Lemma on_day_spec wk j o c : week_ok wk -> a_day j -> grid o -> grid c ->
  week_ok (on_day j (ft o) (ft c) wk) /\
  (forall i m, a_day i -> a_minute m ->
     is_open (on_day j (ft o) (ft c) wk) i m = is_open wk i m || ((i =? j) && inside (o, c) m)) /\
  (forall i, a_day i -> day_list (on_day j (ft o) (ft c) wk) i = [] -> i <> j /\ day_list wk i = []).
Proof.
  intros Hwk Hj Ho Hc. split_and!.
  - destruct Hwk as [Hl Hf]. unfold on_day. split; [by rewrite length_alter|].
    apply Forall_alter; [done|]. intros ws _ Hws. by apply insertW_list_ok.
  - intros i m Hi Hm. unfold is_open. rewrite on_day_list by done. case_decide as Hij.
    + subst i. destruct (day_list_ok wk j Hwk) as (zs & -> & Hz).
      destruct (insertW_spec zs o c Hz Ho Hc) as (zs' & -> & Hz' & Hcov). rewrite Z.eqb_refl.
      rewrite (list_open zs'), (list_open zs) by (done || by apply day_entries; (done || right)). by apply Hcov.
    + rewrite (proj2 (Z.eqb_neq i j)) by done. by rewrite orb_false_r.
  - intros i Hi. rewrite on_day_list by done. case_decide as Hij; [|done]. subst i.
    destruct (day_list_ok wk j Hwk) as (zs & -> & Hz).
    destruct (insertW_spec zs o c Hz Ho Hc) as (zs' & -> & Hz' & _).
    destruct Hz' as [-> | (? & _)]; [done|]. by destruct zs'.
Qed.

(** Windows that are put on days one after another: the day, the beginning, the end. *)
Abbreviation placing := (Z * Z * Z)%type.
Definition put_all (ops : list placing) (wk : week) : week :=
  foldl (fun wk '(j, o, c) => on_day j (ft o) (ft c) wk) wk ops.
Definition named (ops : list placing) (i m : Z) : bool := existsb (fun '(j, o, c) => (i =? j) && inside (o, c) m) ops.
Definition placing_ok (p : placing) : Prop := let '(j, o, c) := p in a_day j /\ grid o /\ grid c.

Lemma put_all_spec ops wk : Forall placing_ok ops -> week_ok wk ->
  week_ok (put_all ops wk) /\
  (forall i m, a_day i -> a_minute m -> is_open (put_all ops wk) i m = is_open wk i m || named ops i m) /\
  (forall i, a_day i -> day_list (put_all ops wk) i = [] -> Forall (fun p => i <> p.1.1) ops /\ day_list wk i = []).
Proof.
  intros Hops. revert wk. induction Hops as [|[[j o] c] ops (Hj & Ho & Hc) Hops IH]; intros wk Hwk.
  - split_and!; [done|intros; by rewrite orb_false_r|by split].
  - destruct (on_day_spec wk j o c Hwk Hj Ho Hc) as (H1 & H2 & H3). destruct (IH _ H1) as (H4 & H5 & H6).
    cbn [put_all foldl]. split_and!; [done| |].
    + intros i m Hi Hm. unfold put_all in H5. rewrite H5, H2 by done. unfold named. cbn [existsb]. btauto.
    + intros i Hi He. destruct (H6 i Hi He) as [Hf He']. destruct (H3 i Hi He'). split; [by constructor|done].
Qed.

(** Closing days changes no minute. *)
Lemma close_days_spec (b : Z -> bool) js wk : Forall a_day js -> week_ok wk ->
  let wk' := foldl (fun wk j => match day_list wk j with
                                | [] => if b j then on_day j midnight_behind midnight_behind wk else wk
                                | _ => wk end) wk js in
  week_ok wk' /\ (forall i m, a_day i -> a_minute m -> is_open wk' i m = is_open wk i m) /\
  (forall i, a_day i -> day_list wk' i = [] -> (i ∈ js -> b i = false) /\ day_list wk i = []).
Proof.
  intros Hjs. revert wk. induction Hjs as [|j js Hj Hjs IH]; intros wk Hwk; cbn [foldl].
  - split_and!; [done|done|]. intros i Hi He. split; [|done]. by intros ?%not_elem_of_nil.
  - set (wk1 := match day_list wk j with [] => _ | _ => _ end).
    assert (week_ok wk1 /\ (forall i m, a_day i -> a_minute m -> is_open wk1 i m = is_open wk i m) /\
            (forall i, a_day i -> day_list wk1 i = [] -> (i = j -> b i = false) /\ day_list wk i = [])) as (H1 & H2 & H3).
    { unfold wk1. destruct (day_list wk j) as [|w ws] eqn:Ej.
      - destruct (b j) eqn:Eb.
        + rewrite midnight_behind_ft. assert (grid 1500) as Hg by (unfold grid; lia).
          destruct (on_day_spec wk j 1500 1500 Hwk Hj Hg Hg) as (A1 & A2 & A3). split_and!; [done| |].
          * intros i m Hi Hm. rewrite A2 by done. fold closed. rewrite covers_closed by done. by rewrite andb_false_r, orb_false_r.
          * intros i Hi He. by destruct (A3 i Hi He).
        + split_and!; [done|done|]. intros i Hi He. split; [by intros ->|done].
      - split_and!; [done|done|]. intros i Hi He. split; [|done]. intros ->. congruence. }
    destruct (IH wk1 H1) as (H4 & H5 & H6). split_and!; [done| |].
    + intros i m Hi Hm. by rewrite H5, H2.
    + intros i Hi He. destruct (H6 i Hi He) as [Hb He']. destruct (H3 i Hi He') as [Hb' ?]. split; [|done].
      intros [->|Hin]%elem_of_cons; [by apply Hb'|by apply Hb].
Qed.

(** ** The text of a window *)

(** A number: digits, perhaps with leading zeros. *)
Definition numeral (n : Z) (s : cstr) : Prop := s <> [] /\ Forall (fun c => isdigit c = true) s /\ digits_val s = n.

Inductive time_text : option Z -> Z -> cstr -> Prop :=
| time_hour h sh : numeral h sh -> 0 <= h <= 23 -> time_text None (h * 60) sh
| time_minute h m sh sm : numeral h sh -> numeral m sm -> 0 <= h <= 23 -> 0 <= m <= 59 ->
    time_text None (h * 60 + m) (sh ++ ":"%char :: sm)
| time_day d h m sd sh sm : numeral d sd -> numeral h sh -> numeral m sm -> 0 <= d <= 7 -> 0 <= h <= 23 -> 0 <= m <= 59 ->
    time_text (Some (if d =? 0 then 7 else d)) (h * 60 + m) (sd ++ ":"%char :: sh ++ ":"%char :: sm).

Lemma digit_cases c : isdigit c = true -> isspace c = false /\ c <> ":"%char /\ c <> "-"%char /\ c <> "+"%char.
Proof. destruct c as [[] [] [] [] [] [] [] []]; vm_compute; try done; intros _; by split_and!. Qed.

Lemma numeral_scan n s : numeral n s ->
  span isspace s = ([], s) /\ scan_sign s = (false, s) /\ span isdigit s = (s, []).
Proof.
  intros (Hne & Hd & _). split_and!; [| |by apply span_all].
  - destruct s as [|c s]; [done|]. apply Forall_cons in Hd as [Hc _]. apply digit_cases in Hc as [Hc _]. by apply span_none.
  - destruct s as [|c s]; [done|]. apply Forall_cons in Hd as [Hc _]. apply digit_cases in Hc as (_ & _ & H1 & H2).
    unfold scan_sign. destruct c as [[] [] [] [] [] [] [] []]; done.
Qed.

Lemma numeral_strtol n s : numeral n s -> 0 <= n < 100 -> strtol s = (n, []).
Proof.
  intros Hs Hn. destruct (numeral_scan n s Hs) as (E1 & E2 & E3). unfold strtol. rewrite E1, E2, E3.
  destruct Hs as (Hne & _ & Hv). destruct s as [|c s]; [done|]. rewrite Hv. f_equal. apply saturate_id. unfold LONG_MIN, LONG_MAX. lia.
Qed.

Lemma numeral_atoi n s : numeral n s -> 0 <= n < 100 -> atoi s = n.
Proof.
  intros Hs Hn. unfold atoi. rewrite (numeral_strtol n) by done. cbn [fst]. apply sint_of_id; [done|]. unfold in_sint. lia.
Qed.

Lemma numeral_number n s : numeral n s -> 0 <= n < 100 -> not_number s = false.
Proof.
  intros Hs Hn. unfold not_number. rewrite (numeral_atoi n) by done. rewrite (proj2 (Z.ltb_ge _ _)), orb_false_r by lia.
  apply negb_false_iff. unfold isint_. destruct s as [|c0 s0] eqn:Es; [by destruct Hs|]. rewrite <- Es in *.
  rewrite (numeral_strtol n) by done. unfold strtol_erange. destruct (numeral_scan n s Hs) as (E1 & E2 & E3).
  rewrite E1. cbn [snd]. rewrite E2, E3. cbn [fst]. destruct Hs as (_ & _ & ->).
  rewrite saturate_id by (unfold LONG_MIN, LONG_MAX; lia). rewrite Z.eqb_refl.
  unfold INFINIT_INT. rewrite (sint_of_id 32) by (unfold in_sint; lia). cbn [negb andb].
  rewrite (proj2 (Z.leb_le _ _)) by lia. by rewrite (proj2 (Z.ltb_lt _ _)) by lia.
Qed.

Lemma numeral_atof n s : numeral n s -> 0 <= n < 100 -> atof s = round_ratio 53 1024 false n 1.
Proof.
  intros Hs Hn. unfold atof, read_f. destruct (numeral_scan n s Hs) as (E1 & E2 & E3). rewrite E1, E2, E3.
  destruct Hs as (Hne & _ & Hv). rewrite app_nil_r. destruct s as [|c0 s0] eqn:Es; [done|]. rewrite <- Es in *.
  cbn [scan_exponent mbind option_bind]. rewrite Hv. change (0 - strlen []) with 0. cbn [Z.leb Z.compare Z.pow].
  by rewrite Z.mul_1_r.
Qed.

(** Small integers are exact as floats, also by the way of a double. *)
#[local] Instance spec_float_eq_dec : EqDecision spec_float.
Proof. solve_decision. Defined.

Definition small_floats (P : Z -> bool) (n : Z) : bool := forallb P (seqZ 0 n).

Lemma small_floats_spec P n k : small_floats P n = true -> 0 <= k < n -> P k = true.
Proof. intros H Hk. apply (proj1 (forallb_forall P _) H). apply list_elem_of_In, elem_of_seqZ. lia. Qed.

Lemma doubles_exact : small_floats (fun n => bool_decide (to_float (round_ratio 53 1024 false n 1) = float_of_int n)) 60 = true.
Proof. vm_compute. reflexivity. Qed.

Lemma numeral_float n s : numeral n s -> 0 <= n < 60 -> to_float (atof s) = float_of_int n.
Proof.
  intros Hs Hn. rewrite (numeral_atof n) by (done || lia). apply (bool_decide_eq_true_1 _ (small_floats_spec _ _ _ doubles_exact Hn)).
Qed.

Lemma float_hour n : float_of_int n = add_minutes (float_of_int n) (float_of_int 0) -> 0 <= n -> float_of_int n = ft (n * 60).
Proof. intros H Hn. Transparent ft. unfold ft. Opaque ft. rewrite Z.div_mul, Z_mod_mult by done. exact H. Qed.

Lemma hours_exact : small_floats (fun n => bool_decide (float_of_int n = add_minutes (float_of_int n) (float_of_int 0))) 25 = true.
Proof. vm_compute. reflexivity. Qed.

Lemma hour_ft n : 0 <= n <= 24 -> float_of_int n = ft (n * 60).
Proof. intros Hn. apply float_hour; [|lia]. apply (bool_decide_eq_true_1 _ (small_floats_spec _ 25 n hours_exact ltac:(lia))). Qed.

Lemma minutes_bounded : small_floats (fun n => negb (SFltb (float_of_int 59) (float_of_int n))) 60 = true.
Proof. vm_compute. reflexivity. Qed.

Lemma minute_ok n : 0 <= n <= 59 -> SFltb (float_of_int 59) (float_of_int n) = false.
Proof. intros Hn. apply negb_true_iff, (small_floats_spec _ _ _ minutes_bounded). lia. Qed.

Lemma numeral_hour h s : numeral h s -> 0 <= h <= 23 -> parse_hour s = Some (float_of_int h).
Proof.
  intros Hs Hh. unfold parse_hour. rewrite (numeral_number h), (numeral_float h) by (done || lia).
  rewrite !hour_ft by lia. rewrite ft_lt by (unfold grid; lia). by rewrite (proj2 (Z.ltb_ge _ _)) by lia.
Qed.

Lemma add_minutes_ft h m : 0 <= m <= 59 -> add_minutes (float_of_int h) (float_of_int m) = ft (h * 60 + m).
Proof.
  intros Hm. Transparent ft. unfold ft. Opaque ft.
  by rewrite Z.div_add_l, Z.div_small, Z.add_0_r, Z.add_comm, Z_mod_plus_full, Z.mod_small by lia.
Qed.

Lemma split_last_none s c : c ∉ s -> split_last s c = None.
Proof.
  induction s as [|a s IH]; [done|]. rewrite not_elem_of_cons. intros [Ha Hs]. cbn [split_last]. rewrite IH by done.
  by rewrite (proj2 (ch_eqb_neq a c)) by done.
Qed.

Lemma split_last_app a b c : c ∉ b -> split_last (a ++ c :: b) c = Some (a, b).
Proof.
  intros Hb. induction a as [|x a IH]; cbn [app split_last].
  - rewrite split_last_none by done. by rewrite ch_eqb_refl.
  - by rewrite IH.
Qed.

Lemma split_first_app a b c : c ∉ a -> split_first (a ++ c :: b) c = Some (a, b).
Proof.
  induction a as [|x a IH]; cbn [app split_first].
  - by rewrite ch_eqb_refl.
  - rewrite not_elem_of_cons. intros [Hx Ha]. rewrite (proj2 (ch_eqb_neq x c)) by done. by rewrite IH.
Qed.

Lemma numeral_chars n s c : numeral n s -> c = ":"%char \/ c = "-"%char -> c ∉ s.
Proof.
  intros (_ & Hd & _) Hc Hin. pose proof (proj1 (Forall_forall _ _) Hd c Hin) as H. apply digit_cases in H as (_ & ? & ? & _). naive_solver.
Qed.

Lemma time_text_dash d z s : time_text d z s -> "-"%char ∉ s.
Proof.
  assert (forall n s, numeral n s -> "-"%char ∉ s) as Hc by (intros; eapply numeral_chars; eauto).
  destruct 1; repeat (rewrite elem_of_app || rewrite elem_of_cons); naive_solver.
Qed.

Lemma time_text_range d z s : time_text d z s -> 0 <= z < 1440 /\ forall k, d = Some k -> a_day k.
Proof.
  destruct 1; (split; [lia|]); intros k; try done. intros [= <-]. unfold a_day. destruct (Z.eqb_spec d 0); lia.
Qed.

Lemma parse_time_text d z s : time_text d z s -> parse_time s = Some (ft z, default 0 d).
Proof.
  assert (forall n s, numeral n s -> ":"%char ∉ s) as Hc by (intros; eapply numeral_chars; eauto).
  unfold parse_time. destruct 1 as [h sh Hh Hr|h m sh sm Hh Hm Hr Hr'|d h m sd sh sm Hd Hh Hm Hr Hr' Hr''].
  - rewrite split_last_none by eauto. rewrite (numeral_hour h) by done. cbn [mbind option_bind].
    rewrite add_minutes_ft by lia. by rewrite Z.add_0_r.
  - rewrite split_last_app by eauto. rewrite (numeral_number m), (numeral_atoi m) by (done || lia).
    rewrite minute_ok by done. rewrite split_last_none by eauto. rewrite (numeral_hour h) by done. cbn [mbind option_bind].
    by rewrite add_minutes_ft.
  - replace (sd ++ ":"%char :: sh ++ ":"%char :: sm) with ((sd ++ ":"%char :: sh) ++ ":"%char :: sm) by (by rewrite <- (assoc app)).
    rewrite split_last_app by eauto. rewrite (numeral_number m), (numeral_atoi m) by (done || lia).
    rewrite minute_ok by done. rewrite split_last_app by eauto. rewrite (numeral_hour h) by done. cbn [mbind option_bind].
    rewrite (numeral_number d), (numeral_atoi d) by (done || lia). cbn [default].
    assert (((if d =? 0 then 7 else d) <? 1) || (7 <? (if d =? 0 then 7 else d)) = false) as ->.
    { apply orb_false_iff. rewrite !Z.ltb_ge. destruct (Z.eqb_spec d 0); lia. }
    by rewrite add_minutes_ft.
Qed.

(** ** What a window means *)

(** Whether the minute [m] of day [i] lies in the window from [o] to [c]; with days the week
    is a circle, and without them the day is one. *)
Definition in_window (oday cday : option Z) (o c i m : Z) : bool :=
  match oday, cday with
  | Some d, Some e =>
      let x := i * 1440 + m in
      let a := d * 1440 + o in
      let b := e * 1440 + c in
      if a <=? b then (a <=? x) && (x <? b) else (a <=? x) || (x <? b)
  | None, None => if o <=? c then (o <=? m) && (m <? c) else (o <=? m) || (m <? c)
  | _, _ => false
  end.

(** Windows that [addWindow] refuses: one of the times has no day, or a window ends before
    it begins on the same day. *)
Definition ambiguous (oday cday : option Z) (o c : Z) : bool :=
  match oday, cday with
  | Some d, Some e => (d =? e) && (c <? o)
  | None, None => false
  | _, _ => true
  end.

Lemma days_all i : a_day i -> i ∈ days.
Proof. unfold a_day, days. rewrite !elem_of_cons. lia. Qed.

Lemma days_are : Forall a_day days.
Proof. repeat constructor; unfold a_day; lia. Qed.

Ltac placings := repeat (apply Forall_cons; split; [by split_and!|]); apply Forall_nil; done.

(** The days from [i] to the day in front of [e]. *)
Definition between (i e j : Z) : bool := if i <=? e then (i <=? j) && (j <? e) else (i <=? j) || (j <? e).

Lemma to_last_day_spec fuel i e c wk : 1 <= i <= 8 -> a_day e -> grid c ->
  (let i := if i =? 8 then 1 else i in if i <=? e then e - i else e - i + 7) < Z.of_nat fuel ->
  exists ops, Forall placing_ok ops /\ to_last_day fuel i e (ft c) wk = close_others (put_all ops wk) /\
    forall j m, a_day j -> a_minute m ->
      named ops j m = between (if i =? 8 then 1 else i) e j || ((j =? e) && (m <? c)).
Proof.
  revert i wk. induction fuel as [|fuel IH]; intros i wk Hi He Hc Hf.
  { exfalso. cbn zeta in Hf. unfold a_day in *. revert Hf. destruct (Z.eqb_spec i 8); repeat case_if; breflect; lia. }
  cbn [to_last_day]. cbn zeta in *. set (i' := if i =? 8 then 1 else i) in *.
  assert (a_day i') as Hi' by (unfold i', a_day; destruct (Z.eqb_spec i 8); lia). clearbody i'. clear i Hi.
  assert (grid (-60) /\ grid 1500) as [Hb Hbe] by (unfold grid; lia). rewrite midnight_before_ft, midnight_behind_ft.
  destruct (Z.eqb_spec i' e) as [->|Hne].
  - exists [(e, -60, c)]. split_and!; [placings|done|].
    intros j m Hj Hm. unfold named, between, inside, a_minute, a_day in *. cbn [existsb fst snd].
    apply eq_true_iff_eq. destruct (Z.leb_spec e e); [|lia]. rewrite !orb_true_iff, !andb_true_iff, !Z.leb_le, !Z.ltb_lt, !Z.eqb_eq.
    intuition lia.
  - unfold a_day in *. destruct (IH (i' + 1) (on_day i' (ft (-60)) (ft 1500) wk)) as (ops & Ho & -> & Hn); [lia|done|done| |].
    { cbn zeta. revert Hf. destruct (Z.eqb_spec (i' + 1) 8); repeat case_if; breflect; lia. }
    exists ((i', -60, 1500) :: ops). split_and!; [by constructor|done|].
    intros j m Hj Hm. unfold named in *. cbn [existsb]. rewrite Hn by done. unfold between, inside, a_minute, a_day in *. cbn [fst snd].
    apply eq_true_iff_eq.
    destruct (Z.eqb_spec (i' + 1) 8), (Z.leb_spec i' e); repeat case_if; breflect;
      rewrite !orb_true_iff, !andb_true_iff, !Z.leb_le, !Z.ltb_lt, !Z.eqb_eq; lia.
Qed.

(** The result of the cases of [addWindow]: the minutes [P] are added and no day is left
    without a list. *)
Definition added (wk wk' : week) (P : Z -> Z -> bool) : Prop :=
  week_ok wk' /\ (forall i m, a_day i -> a_minute m -> is_open wk' i m = is_open wk i m || P i m) /\
  (forall i, a_day i -> day_list wk' i <> []).

Lemma put_everywhere ops wk (P : Z -> Z -> bool) : Forall placing_ok ops -> week_ok wk ->
  (forall i, a_day i -> exists p, p ∈ ops /\ p.1.1 = i) ->
  (forall i m, a_day i -> a_minute m -> named ops i m = P i m) -> added wk (put_all ops wk) P.
Proof.
  intros Ho Hwk Hall HP. destruct (put_all_spec ops wk Ho Hwk) as (H1 & H2 & H3). split_and!; [done| |].
  - intros i m Hi Hm. by rewrite H2, HP.
  - intros i Hi He. destruct (H3 i Hi He) as [Hf _]. destruct (Hall i Hi) as (p & Hp & <-).
    by apply (proj1 (Forall_forall _ _) Hf p Hp).
Qed.

Lemma put_and_close b ops wk (P : Z -> Z -> bool) : Forall placing_ok ops -> week_ok wk ->
  (forall i, a_day i -> b i = false -> exists p, p ∈ ops /\ p.1.1 = i) ->
  (forall i m, a_day i -> a_minute m -> named ops i m = P i m) ->
  added wk (foldl (fun wk j => match day_list wk j with
                               | [] => if b j then on_day j midnight_behind midnight_behind wk else wk
                               | _ => wk end) (put_all ops wk) days) P.
Proof.
  intros Ho Hwk Hb HP. destruct (put_all_spec ops wk Ho Hwk) as (H1 & H2 & H3).
  destruct (close_days_spec b days _ days_are H1) as (H4 & H5 & H6). split_and!; [done| |].
  - intros i m Hi Hm. by rewrite H5, H2, HP.
  - intros i Hi He. destruct (H6 i Hi He) as [Hf He']. destruct (H3 i Hi He') as [Hops _].
    destruct (Hb i Hi (Hf (days_all i Hi))) as (p & Hp & <-). by apply (proj1 (Forall_forall _ _) Hops p Hp).
Qed.

Lemma named_everywhere (o c i m : Z) : a_day i -> named ((fun j => (j, o, c)) <$> days) i m = inside (o, c) m.
Proof.
  intros Hi. unfold named, days. cbn [fmap list_fmap existsb]. unfold a_day in Hi.
  assert (i = 1 \/ i = 2 \/ i = 3 \/ i = 4 \/ i = 5 \/ i = 6 \/ i = 7) as Hc by lia.
  destruct (inside (o, c) m); repeat (destruct Hc as [-> | Hc]; [done|]); by subst.
Qed.

Lemma foldl_put (f : Z -> list placing) js wk :
  foldl (fun wk j => put_all (f j) wk) wk js = put_all (js ≫= f) wk.
Proof.
  revert wk. induction js as [|j js IH]; intros wk; [done|]. cbn [foldl mbind list_bind]. rewrite IH. unfold put_all. by rewrite foldl_app.
Qed.

(** The three cases of a window: with one day, with two, and without. *)
Lemma add_on_day d o c wk : a_day d -> 0 <= o -> c < 1440 -> o <= c -> week_ok wk ->
  let '(ohour, chour) := if o =? c then (ft 1500, ft 1500) else (ft o, ft c) in
  added wk (foldl (fun wk j => match day_list wk j with
                               | [] => if negb (j =? d) then on_day j (ft 1500) (ft 1500) wk else wk
                               | _ => wk end) (on_day d ohour chour wk) days) (in_window (Some d) (Some d) o c).
Proof.
  intros Hd Ho Hc Hoc Hwk.
  assert (exists z y, (if o =? c then (ft 1500, ft 1500) else (ft o, ft c)) = (ft z, ft y) /\ grid z /\ grid y /\
    forall m, a_minute m -> inside (z, y) m = inside (o, c) m) as (z & y & -> & Hz & Hy & Hin).
  { destruct (Z.eqb_spec o c) as [->|]; [|by exists o, c; unfold grid; split_and!; try lia]. exists 1500, 1500.
    unfold grid. split_and!; [done|lia..|]. intros m Hm. fold closed. rewrite covers_closed by done. symmetry. unfold inside. cbn [fst snd].
    apply andb_false_iff. rewrite Z.leb_gt, Z.ltb_ge. lia. }
  apply (put_and_close (fun j => negb (j =? d)) [(d, z, y)]); [placings|done| |].
  - intros i Hi Hbi. apply negb_false_iff, Z.eqb_eq in Hbi as ->. eexists. split; [by left|done].
  - intros i m Hi Hm. unfold named. cbn [existsb in_window]. rewrite Hin by done. unfold inside, a_day, a_minute in *. cbn [fst snd].
    rewrite (proj2 (Z.leb_le (d * 1440 + o) _)) by lia. apply eq_true_iff_eq.
    rewrite !orb_true_iff, !andb_true_iff, !Z.leb_le, !Z.ltb_lt, !Z.eqb_eq. lia.
Qed.

Lemma add_on_days d e o c wk : a_day d -> a_day e -> d <> e -> 0 <= o < 1440 -> 0 <= c < 1440 -> week_ok wk ->
  added wk (to_last_day 7 (d + 1) e (ft c) (on_day d (ft o) (ft 1500) wk)) (in_window (Some d) (Some e) o c).
Proof.
  intros Hd He Hne Ho Hc Hwk. assert (grid o /\ grid c /\ grid 1500) as (Hgo & Hgc & Hbe) by (unfold grid; lia). unfold a_day in Hd, He.
  destruct (to_last_day_spec 7 (d + 1) e c (on_day d (ft o) (ft 1500) wk)) as (ops & Hops & E & Hn); [lia|done|done| |].
  { cbn zeta. destruct (Z.eqb_spec (d + 1) 8); repeat case_if; breflect; lia. }
  rewrite E. change (on_day d (ft o) (ft 1500) wk) with (put_all [(d, o, 1500)] wk).
  unfold put_all. rewrite <- foldl_app. fold (put_all ([(d, o, 1500)] ++ ops) wk). unfold close_others.
  apply (put_and_close (fun _ => true)); [|done|done|].
  - apply Forall_app. split; [placings|done].
  - intros i m Hi Hm. unfold named. rewrite existsb_app. fold (named ops i m). rewrite Hn by done.
    unfold between, inside, in_window, a_day, a_minute in *. cbn [existsb fst snd].
    apply eq_true_iff_eq. destruct (Z.eqb_spec (d + 1) 8); repeat case_if; breflect;
      rewrite !orb_true_iff, !andb_true_iff, !Z.leb_le, !Z.ltb_lt, !Z.eqb_eq; lia.
Qed.

Lemma add_every_day (f : Z -> list placing) wk (P : Z -> Z -> bool) : week_ok wk ->
  (forall j, a_day j -> Forall placing_ok (f j) /\ exists p, p ∈ f j /\ p.1.1 = j) ->
  (forall i m, a_day i -> a_minute m -> named (days ≫= f) i m = P i m) ->
  added wk (foldl (fun wk j => put_all (f j) wk) wk days) P.
Proof.
  intros Hwk Hf HP. rewrite foldl_put. apply put_everywhere; [|done| |done].
  - apply Forall_bind. eapply Forall_impl; [exact days_are|]. intros j Hj. by apply Hf.
  - intros i Hi. destruct (Hf i Hi) as (_ & p & Hp & Hpi). exists p. split; [|done].
    apply list_elem_of_bind. exists i. split; [done|by apply days_all].
Qed.

Lemma add_plain o c wk : 0 <= o < 1440 -> 0 <= c < 1440 -> week_ok wk ->
  let '(ohour, chour) := if o =? c then (ft 1500, ft 1500) else (ft o, ft c) in
  added wk (if SFltb chour ohour
            then foldl (fun wk i => on_day i (ft (-60)) chour (on_day i ohour (ft 1500) wk)) wk days
            else foldl (fun wk i => on_day i ohour chour wk) wk days) (in_window None None o c).
Proof.
  intros Ho Hc Hwk. assert (grid o /\ grid c /\ grid (-60) /\ grid 1500) as (Hgo & Hgc & Hb & Hbe) by (unfold grid; lia).
  assert (forall z y, grid z -> grid y -> (forall m, a_minute m -> inside (z, y) m = (if o <=? c then (o <=? m) && (m <? c) else (o <=? m) || (m <? c))) ->
    added wk (foldl (fun wk i => on_day i (ft z) (ft y) wk) wk days) (in_window None None o c)) as Hone.
  { intros z y Hz Hy Hin. apply (add_every_day (fun i => [(i, z, y)])); [done| |].
    - intros j Hj. split; [placings|]. eexists. split; [by left|done].
    - intros i m Hi Hm. cbn [in_window]. rewrite <- Hin by done. exact (named_everywhere z y i m Hi). }
  destruct (Z.eqb_spec o c) as [->|Hne].
  - rewrite ft_lt, Z.ltb_irrefl by done. apply Hone; [done..|]. intros m Hm. fold closed. rewrite covers_closed by done.
    rewrite (proj2 (Z.leb_le c c)) by lia. symmetry. apply andb_false_iff. rewrite Z.leb_gt, Z.ltb_ge. lia.
  - rewrite ft_lt by done. destruct (Z.ltb_spec c o).
    + apply (add_every_day (fun i => [(i, o, 1500); (i, -60, c)])); [done| |].
      * intros j Hj. split; [placings|]. eexists. split; [by left|done].
      * intros i m Hi Hm. cbn [in_window]. rewrite (proj2 (Z.leb_gt o c)) by lia.
        assert (named (days ≫= fun i => [(i, o, 1500); (i, -60, c)]) i m = inside (o, 1500) m || inside (-60, c) m) as ->.
        { rewrite <- (named_everywhere o 1500 i m Hi), <- (named_everywhere (-60) c i m Hi). unfold named, days.
          cbn [fmap list_fmap mbind list_bind app existsb]. btauto. }
        unfold inside, a_minute in *. cbn [fst snd]. apply eq_true_iff_eq.
        rewrite !orb_true_iff, !andb_true_iff, !Z.leb_le, !Z.ltb_lt. lia.
    + apply Hone; [done..|]. intros m Hm. by rewrite (proj2 (Z.leb_le o c)) by lia.
Qed.

(** given the text of a time window in the documented form, [[day:]hour[:minute]]
    twice, [addWindow] refuses it exactly when it is ambiguous; otherwise it opens exactly the minutes of
    the week that lie in the window, besides those that were open before, and every
    day of the week has a list of windows. *)
Theorem addWindow_text (oday cday : option Z) (o c : Z) (otext ctext : cstr) (wk : week) :
  time_text oday o otext -> time_text cday c ctext -> week_ok wk ->
  if ambiguous oday cday o c then addWindow (otext ++ "-"%char :: ctext) wk = None
  else exists wk', addWindow (otext ++ "-"%char :: ctext) wk = Some wk' /\ added wk wk' (in_window oday cday o c).
Proof.
  intros Hot Hct Hwk. unfold addWindow. rewrite split_first_app by by eapply time_text_dash. cbn [mbind option_bind].
  rewrite (parse_time_text _ _ _ Hct), (parse_time_text _ _ _ Hot). cbn [mbind option_bind].
  destruct (time_text_range _ _ _ Hot) as [Ho Hod]. destruct (time_text_range _ _ _ Hct) as [Hc Hcd].
  assert (grid o /\ grid c) as [Hgo Hgc] by (unfold grid; lia). rewrite midnight_before_ft, midnight_behind_ft, ft_eq by done.
  destruct oday as [d|], cday as [e|]; cbn [default from_option id ambiguous].
  - pose proof (Hod d eq_refl) as Hd. pose proof (Hcd e eq_refl) as He.
    rewrite (proj2 (Z.eqb_neq d 0)), (proj2 (Z.eqb_neq e 0)) by (unfold a_day in *; lia). cbn [orb andb negb]. rewrite ft_lt by done.
    destruct (Z.eqb_spec d e) as [->|Hne]; cbn [andb].
    + destruct (Z.ltb_spec c o); [done|]. rewrite ft_eq by done.
      pose proof (add_on_day e o c wk He (proj1 Ho) (proj2 Hc) ltac:(lia) Hwk) as H'.
      destruct (if o =? c then _ else _). eexists. split; [reflexivity|exact H'].
    + eexists. split; [reflexivity|]. by apply add_on_days.
  - pose proof (Hod d eq_refl) as Hd. unfold a_day in Hd. by rewrite (proj2 (Z.eqb_neq d 0)) by lia.
  - pose proof (Hcd e eq_refl) as He. unfold a_day in He. by rewrite (proj2 (Z.eqb_neq e 0)), (proj2 (Z.eqb_neq 0 e)) by lia.
  - cbn [Z.eqb orb andb negb]. pose proof (add_plain o c wk Ho Hc Hwk) as H'.
    destruct (if o =? c then _ else _). eexists. split; [reflexivity|exact H'].
Qed.

(** ** Configured weeks *)

Record window_conf := WindowConf { w_oday : option Z; w_cday : option Z; w_o : Z; w_c : Z }.
Definition conf_open (w : window_conf) (i m : Z) : bool := in_window (w_oday w) (w_cday w) (w_o w) (w_c w) i m.

Definition conf_text (w : window_conf) (s : cstr) : Prop :=
  exists otext ctext, s = otext ++ "-"%char :: ctext /\
    time_text (w_oday w) (w_o w) otext /\ time_text (w_cday w) (w_c w) ctext.

(** A week without windows, to which the windows of a configuration line are added. *)
Inductive configured : list window_conf -> week -> Prop :=
| conf_none : configured [] (replicate 8 [])
| conf_add ws w s wk wk' : configured ws wk -> conf_text w s -> addWindow s wk = Some wk' -> configured (ws ++ [w]) wk'.

Definition no_list (wk : week) (i : Z) : bool := match day_list wk i with [] => true | _ => false end.

Lemma empty_week_ok : week_ok (replicate 8 []).
Proof. split; [done|]. apply Forall_replicate. exists []. by split; [|left]. Qed.

Lemma configured_spec ws wk : configured ws wk ->
  week_ok wk /\ (forall i m, a_day i -> a_minute m -> is_open wk i m = existsb (fun w => conf_open w i m) ws) /\
  (forall i, a_day i -> no_list wk i = bool_decide (ws = [])).
Proof.
  induction 1 as [|ws w s wk wk' _ (H1 & H2 & H3) (ot & ct & -> & Ho & Hc) Ha].
  - split_and!; [exact empty_week_ok| |]; intros i; intros; unfold is_open, no_list, day_list;
      by destruct (replicate 8 [] !! Z.to_nat i) as [l|] eqn:E; [apply lookup_replicate_1 in E as [-> _]|].
  - pose proof (addWindow_text (w_oday w) (w_cday w) (w_o w) (w_c w) ot ct wk Ho Hc H1) as Hadd.
    destruct (ambiguous _ _ _ _); [congruence|]. destruct Hadd as (wk'' & E & A1 & A2 & A3).
    rewrite E in Ha. injection Ha as ->. split_and!; [done| |].
    + intros i m Hi Hm. rewrite A2, H2, existsb_app by done. cbn [existsb]. by rewrite orb_false_r.
    + intros i Hi. unfold no_list. rewrite bool_decide_eq_false_2 by (by destruct ws).
      specialize (A3 i Hi). by destruct (day_list wk' i).
Qed.

(** ** The clock *)

Definition day_name (i : Z) : cstr :=
  lit match i with 1 => "Mon" | 2 => "Tue" | 3 => "Wed" | 4 => "Thu" | 5 => "Fri" | 6 => "Sat" | _ => "Sun" end.

(** The text of ctime for the minute [m] of day [i]. *)
Definition clock_text (i m : Z) (s : cstr) : Prop :=
  exists h k date hh mm rest, s = day_name i ++ date ++ hh ++ ":"%char :: mm ++ rest /\ m = h * 60 + k /\
    length date = 8%nat /\ length hh = 2%nat /\ length mm = 2%nat /\
    numeral h hh /\ numeral k mm /\ 0 <= h <= 23 /\ 0 <= k <= 59.

Lemma minutes_exact : small_floats (fun n => bool_decide (SFdiv 53 1024 (round_ratio 53 1024 false n 1) (double_of_int 60) =
  SFdiv 53 1024 (float_of_int n) (double_of_int 60))) 60 = true.
Proof. vm_compute. reflexivity. Qed.

Lemma day_name_number i d : a_day i ->
  (if bool_decide (day_name i = lit "Sun") then 7 else if bool_decide (day_name i = lit "Mon") then 1
   else if bool_decide (day_name i = lit "Tue") then 2 else if bool_decide (day_name i = lit "Wed") then 3
   else if bool_decide (day_name i = lit "Thu") then 4 else if bool_decide (day_name i = lit "Fri") then 5
   else if bool_decide (day_name i = lit "Sat") then 6 else d) = i /\ length (day_name i) = 3%nat.
Proof.
  intros Hi. unfold a_day in Hi. assert (i = 1 \/ i = 2 \/ i = 3 \/ i = 4 \/ i = 5 \/ i = 6 \/ i = 7) as Hc by lia.
  repeat (destruct Hc as [-> | Hc]; [done|]); by subst.
Qed.

Lemma getDayHour_text i m s dh : a_day i -> clock_text i m s -> getDayHour s dh = DayHour i (ft m).
Proof.
  intros Hi (h & k & date & hh & mm & rest & -> & -> & Hld & Hlh & Hlm & Hh & Hk & Hr & Hr').
  destruct (day_name_number i (day dh) Hi) as [Hn Hl]. unfold getDayHour.
  rewrite (take_app_length' (day_name i) _ 3) by done. cbn zeta. rewrite Hn.
  rewrite (assoc app (day_name i)), (drop_app_length' (day_name i ++ date) _ 11) by (rewrite length_app; lia).
  rewrite (take_app_length' hh _ 2) by done.
  replace ((day_name i ++ date) ++ hh ++ ":"%char :: mm ++ rest) with (((day_name i ++ date) ++ hh ++ [":"%char]) ++ mm ++ rest)
    by (rewrite <- !(assoc app); done).
  rewrite (drop_app_length' ((day_name i ++ date) ++ hh ++ [":"%char]) _ 14) by (rewrite !length_app; cbn [length]; lia).
  rewrite (take_app_length' mm _ 2) by done. rewrite (numeral_float h), (numeral_atof k) by (done || lia).
  rewrite (bool_decide_eq_true_1 _ (small_floats_spec _ 60 k minutes_exact ltac:(lia))).
  f_equal. by apply add_minutes_ft.
Qed.

(** ** The loops over a list *)

Definition open_now (d : dayhour) (w : windows) : bool := SFleb (opentime w) (hour d) && SFltb (hour d) (closetime w).

Lemma checkWindow_spec d now w a e : fst (checkWindow d now w (a, e)) = a || open_now d w /\ snd (checkWindow d now w (a, e)) <= e.
Proof. unfold checkWindow, open_now. destruct (_ && _); cbn [fst snd]; [rewrite orb_true_r|rewrite orb_false_r]; split; (done || lia). Qed.

Lemma scan_first_spec d now ws e : fst (scan_first d now ws (false, e)) = existsb (open_now d) ws /\
  snd (scan_first d now ws (false, e)) <= e.
Proof.
  revert e. induction ws as [|w ws IH]; intros e; cbn [scan_first existsb]; [split; cbn; [done|lia]|].
  destruct (checkWindow_spec d now w false e) as [H1 H2]. destruct (checkWindow d now w (false, e)) as [a e'].
  cbn [fst snd orb] in *. subst a. destruct (open_now d w); [done|]. destruct (IH e') as [-> ?]. split; [done|lia].
Qed.

Lemma scan_all_spec d now ws a e : fst (scan_all d now ws (a, e)) = a || existsb (open_now d) ws /\
  snd (scan_all d now ws (a, e)) <= e.
Proof.
  revert a e. induction ws as [|w ws IH]; intros a e; unfold scan_all in *; cbn [foldl existsb].
  - rewrite orb_false_r. split; [done|cbn; lia].
  - destruct (checkWindow_spec d now w a e) as [H1 H2]. destruct (checkWindow d now w (a, e)) as [a' e'].
    cbn [fst snd] in *. subst a'. destruct (IH (a || open_now d w) e') as [-> ?]. rewrite orb_assoc. split; [done|lia].
Qed.

(** ** The status *)

Lemma clr_clr s b : clr (clr s b) b = clr s b.
Proof. unfold clr. bits. Qed.
Lemma clr_lor s b : clr (Z.lor s b) b = clr s b.
Proof. unfold clr. bits. Qed.

(** The three values that a queue's status can get. *)
Lemma run_bits s : let m := Z.lor QUEUE_STAT_RUN QUEUE_STAT_RUNWIN_CLOSE in
  let spec r c x := has x QUEUE_STAT_RUNWIN_CLOSE = c /\ has x QUEUE_STAT_RUN = r /\ clr x m = clr s m in
  spec false true (Z.lor (clr s m) QUEUE_STAT_RUNWIN_CLOSE) /\
  spec true false (Z.lor (clr (clr s m) QUEUE_STAT_RUNWIN_CLOSE) QUEUE_STAT_RUN) /\
  spec false false (clr (clr s m) QUEUE_STAT_RUNWIN_CLOSE).
Proof.
  assert (forall x k, 0 <= k -> Z.testbit x k = has x (2 ^ k)) as Hb by (intros; by rewrite has_bit).
  change QUEUE_STAT_RUNWIN_CLOSE with (2 ^ 5). change QUEUE_STAT_RUN with (2 ^ 2).
  cbv zeta beta. rewrite !has_bit by done. unfold clr.
  split_and!; repeat (rewrite Z.lor_spec || rewrite Z.land_spec || rewrite Z.lnot_spec by done);
    rewrite ?Z.pow2_bits_eqb by done; lazymatch goal with |- @eq bool _ _ => cbn; btauto | _ => bits end.
Qed.

Section Clock.
Context (ctime : Z -> cstr) (last_second : Z -> Z) (dh : dayhour).

(** The local time of [now] is the minute [m] of day [i]. *)
Definition at_minute (now i m : Z) : Prop := a_day i /\ a_minute m /\ clock_text i m (ctime now).

Lemma local_time_at now i m : at_minute now i m -> local_time ctime dh now = DayHour i (ft m).
Proof. intros (Hi & _ & Hc). by apply getDayHour_text. Qed.

(** A window that is looked at: its edge is set and has been reached. *)
Definition due (edge now : Z) : Prop := edge <> 0 /\ edge <= now.

Lemma due_test edge now : due edge now -> (now <? edge) || (edge =? 0) = false.
Proof. intros [? ?]. apply orb_false_iff. rewrite Z.ltb_ge, Z.eqb_neq. lia. Qed.

Lemma scan_day wk i m now e : let '(a, e') := scan_first (DayHour i (ft m)) now (day_list wk i) (false, e) in
  a = is_open wk i m /\ e' <= e.
Proof. pose proof (scan_first_spec (DayHour i (ft m)) now (day_list wk i) e) as [H1 H2]. by destruct (scan_first _ _ _ _). Qed.

Lemma scan_day_all wk i m now e : let '(a, e') := scan_all (DayHour i (ft m)) now (day_list wk i) (false, e) in
  a = is_open wk i m /\ e' <= e.
Proof. pose proof (scan_all_spec (DayHour i (ft m)) now (day_list wk i) false e) as [H1 H2]. by destruct (scan_all _ _ _ _). Qed.

Lemma scan_or_no_list wk i m now e : exists e',
  scan_first (DayHour i (ft m)) now (day_list wk i) (match day_list wk i with [] => true | _ => false end, e) =
    (no_list wk i || is_open wk i m, e') /\ e' <= e.
Proof.
  unfold no_list. pose proof (scan_day wk i m now e) as H. destruct (day_list wk i) as [|w ws] eqn:E.
  - exists e. by split.
  - destruct (scan_first _ _ _ _) as [a e']. destruct H as [-> ?]. exists e'. by split.
Qed.

(** The bits of the status, and an edge within the day. *)
Lemma queue_window_status now i m q : due (q_windEdge q) now -> at_minute now i m ->
  let q' := queue_window ctime dh now q in
  let run := no_list (weekR q) i || is_open (weekR q) i m in
  has (qStatus q') QUEUE_STAT_RUNWIN_CLOSE = negb run /\
  has (qStatus q') QUEUE_STAT_RUN = run && (no_list (q_week q) i || is_open (q_week q) i m) /\
  clr (qStatus q') (Z.lor QUEUE_STAT_RUN QUEUE_STAT_RUNWIN_CLOSE) = clr (qStatus q) (Z.lor QUEUE_STAT_RUN QUEUE_STAT_RUNWIN_CLOSE) /\
  q_windEdge q' <= end_of_day now (DayHour i (ft m)).
Proof.
  intros Hd Ha. unfold queue_window. rewrite due_test by done. rewrite (local_time_at now i m) by done. cbn [day].
  destruct (run_bits (qStatus q)) as ((A1 & A2 & A3) & (B1 & B2 & B3) & (C1 & C2 & C3)).
  destruct (scan_or_no_list (weekR q) i m now (end_of_day now (DayHour i (ft m)))) as (e1 & -> & He1).
  destruct (no_list (weekR q) i || is_open (weekR q) i m); cbn [negb andb qStatus q_windEdge set_queue_window]; [|by split_and!].
  pose proof (scan_day (q_week q) i m now e1) as H. unfold no_list at 1. destruct (day_list (q_week q) i) as [|w ws] eqn:E.
  - cbn [qStatus q_windEdge set_queue_window orb]. by split_and!.
  - destruct (scan_first _ _ _ _) as [a e']. destruct H as [-> ?]. cbn [orb].
    destruct (is_open (q_week q) i m); cbn [qStatus q_windEdge set_queue_window]; (split_and!; [done..|lia]).
Qed.

(** Hosts, jobs, LIM and conditions follow the list of the day too. *)
Lemma host_window_status now i m hp : has (hStatus hp) HOST_STAT_REMOTE = false -> due (h_windEdge hp) now -> at_minute now i m ->
  let hp' := host_window ctime dh now hp in
  has (hStatus hp') HOST_STAT_WIND = negb (no_list (h_week hp) i || is_open (h_week hp) i m) /\
  clr (hStatus hp') HOST_STAT_WIND = clr (hStatus hp) HOST_STAT_WIND.
Proof.
  intros Hr Hd Ha. unfold host_window. rewrite Hr, due_test by done. rewrite (local_time_at now i m) by done. cbn [day].
  unfold no_list. pose proof (scan_day_all (h_week hp) i m now (end_of_day now (DayHour i (ft m)))) as H.
  destruct (day_list (h_week hp) i) as [|w ws] eqn:E; cbn [orb negb hStatus].
  - split; [apply clr_has|apply clr_clr].
  - destruct (scan_all _ _ _ _) as [a e']. destruct H as [-> ?]. destruct (is_open (h_week hp) i m); cbn [hStatus negb].
    + split; [apply clr_has|]. by rewrite clr_clr, clr_lor.
    + split; [|apply clr_lor]. by rewrite has_lor, orb_true_r.
Qed.

Lemma job_window_status now i m j : let ckTime := if active j && has (j_options j) SUB_WINDOW_SIG then now + WARN_TIME else now in
  due (j_windEdge j) ckTime -> at_minute ckTime i m ->
  active (fst (window_ok ctime dh now j)) = no_list (j_week j) i || is_open (j_week j) i m.
Proof.
  cbn zeta. intros Hd Ha. unfold window_ok. rewrite due_test by done. rewrite (local_time_at _ i m) by done. cbn [day].
  unfold no_list. pose proof (scan_day_all (j_week j) i m now (end_of_day now (DayHour i (ft m)))) as H.
  destruct (day_list (j_week j) i) as [|w ws] eqn:E; [done|].
  destruct (scan_all _ _ _ _) as [a e']. destruct H as [-> ?]. cbn [orb]. by repeat case_if.
Qed.

Lemma lim_window_status now i m h : due (wind_edge h) now -> at_minute now i m -> no_list (l_week h) i = false ->
  has (status0 (checkHostWd ctime dh now h)) LIM_LOCKEDW = negb (is_open (l_week h) i m).
Proof.
  intros Hd Ha Hl. unfold checkHostWd. rewrite due_test by done. rewrite (local_time_at _ i m) by done. cbn [day].
  pose proof (scan_day_all (l_week h) i m now (end_of_day now (DayHour i (ft m)))) as H. unfold no_list in Hl.
  destruct (day_list (l_week h) i) as [|w ws] eqn:E; [done|].
  destruct (scan_all _ _ _ _) as [a e']. destruct H as [-> ?]. destruct (is_open (l_week h) i m); cbn [status0 negb].
  - apply clr_has.
  - by rewrite has_lor, orb_true_r.
Qed.

Lemma condition_window_status now i m t : due (tw_windEdge t) now -> at_minute now i m -> no_list (tw_week t) i = false ->
  tw_status (updateTimeWindow ctime dh now t) = if is_open (tw_week t) i m then WINDOW_OPEN else WINDOW_CLOSE.
Proof.
  intros Hd Ha Hl. unfold updateTimeWindow. rewrite due_test by done. rewrite (local_time_at _ i m) by done. cbn [day].
  pose proof (scan_day (tw_week t) i m now (end_of_day now (DayHour i (ft m)))) as H. unfold no_list in Hl.
  destruct (day_list (tw_week t) i) as [|w ws] eqn:E; [done|].
  destruct (scan_first _ _ _ _) as [a e']. by destruct H as [-> ?].
Qed.
End Clock.


(** C22: a week that is made by adding time windows one after another is
    well formed: it has eight lists, all times are on the grid of minutes, and each day is
    closed or has windows that are not empty, with gaps between them; as soon as there is a
    window, every day has a list. *)
Theorem configured_week_ok ws wk : configured ws wk ->
  week_ok wk /\ (ws <> [] -> forall i, a_day i -> day_list wk i <> []).
Proof.
  intros H. destruct (configured_spec ws wk H) as (H1 & _ & H3). split; [done|]. intros Hne i Hi He.
  specialize (H3 i Hi). unfold no_list in H3. rewrite He, bool_decide_eq_false_2 in H3; done.
Qed.

(** C21: when the window of a queue is looked at, its status says that jobs may
    run exactly when the local time lies in one of the configured run windows or there are
    none, and that jobs may be dispatched exactly when it also lies in one of the dispatch
    windows or there are none; no other bit of the status changes, and the windows are
    looked at again before the next day. *)
Theorem queue_follows_windows (ctime : Z -> cstr) (dh : dayhour) (now i m : Z) (rs ds : list window_conf) (q : queueWin) :
  configured rs (weekR q) -> configured ds (q_week q) -> due (q_windEdge q) now -> at_minute ctime now i m ->
  let q' := queue_window ctime dh now q in
  let run := bool_decide (rs = []) || existsb (fun w => conf_open w i m) rs in
  let dispatch := bool_decide (ds = []) || existsb (fun w => conf_open w i m) ds in
  has (qStatus q') QUEUE_STAT_RUNWIN_CLOSE = negb run /\
  has (qStatus q') QUEUE_STAT_RUN = run && dispatch /\
  clr (qStatus q') (Z.lor QUEUE_STAT_RUN QUEUE_STAT_RUNWIN_CLOSE) = clr (qStatus q) (Z.lor QUEUE_STAT_RUN QUEUE_STAT_RUNWIN_CLOSE) /\
  q_windEdge q' <= end_of_day now (DayHour i (ft m)).
Proof.
  intros Hr Hd Hdue Ha. destruct (configured_spec _ _ Hr) as (_ & R2 & R3). destruct (configured_spec _ _ Hd) as (_ & D2 & D3).
  pose proof (queue_window_status ctime dh now i m q Hdue Ha) as H. destruct Ha as (Hi & Hm & _).
  by rewrite (R2 i m Hi Hm), (D2 i m Hi Hm), (R3 i Hi), (D3 i Hi) in H.
Qed.

(** ** Concrete windows, in UTC *)

Definition two_digits (n : Z) : cstr := pad "0" 2 (print_nat n).
Definition utc_day (t : Z) : Z := (t / 86400 + 3) mod 7 + 1.
Definition utc_ctime (t : Z) : cstr :=
  day_name (utc_day t) ++ lit " Jan  1 " ++ two_digits (t mod 86400 / 3600) ++ ":"%char ::
  two_digits (t mod 3600 / 60) ++ lit ":00 1970".
Definition utc_last_second (t : Z) : Z := t / 86400 * 86400 + 86399.
Definition no_hour : dayhour := DayHour 0 (S754_zero false).

Definition week_of (texts : list string) : week := default [] (foldl (fun wk s => wk ≫= addWindow (lit s)) (Some (replicate 8 [])) texts).
Definition run_queue (texts : list string) : queueWin := QueueWin 0 1 (replicate 8 []) (week_of texts) true false 0.
Definition at_time (day h m s : Z) : Z := (20000 + day) * 86400 + h * 3600 + m * 60 + s.

(** Friday evening to Monday morning, and every night. *)
Lemma configured_week_ok_witness : week_ok (week_of ["5:18:00-1:8:30"; "22-6:15"]).
Proof.
  refine (proj1 (configured_week_ok [WindowConf (Some 5) (Some 1) 1080 510; WindowConf None None 1320 375] _ _)).
  apply (conf_add [WindowConf (Some 5) (Some 1) 1080 510] (WindowConf None None 1320 375) (lit "22-6:15") (week_of ["5:18:00-1:8:30"])).
  - apply (conf_add [] (WindowConf (Some 5) (Some 1) 1080 510) (lit "5:18:00-1:8:30") (replicate 8 [])); [constructor| |reflexivity].
    exists (lit "5:18:00"), (lit "1:8:30"). split_and!; [done| |].
    + apply (time_day 5 18 0 (lit "5") (lit "18") (lit "00")); (lia || (split_and!; [done|repeat constructor|done])).
    + apply (time_day 1 8 30 (lit "1") (lit "8") (lit "30")); (lia || (split_and!; [done|repeat constructor|done])).
  - exists (lit "22"), (lit "6:15"). split_and!; [done| |].
    + apply (time_hour 22 (lit "22")); (lia || (split_and!; [done|repeat constructor|done])).
    + apply (time_minute 6 15 (lit "6") (lit "15")); (lia || (split_and!; [done|repeat constructor|done])).
  - reflexivity.
Defined.

(** At 23:10 on a Monday the queue runs; at noon it does not. *)
Lemma queue_follows_windows_witness :
  has (qStatus (queue_window utc_ctime no_hour (at_time 3 23 10 0) (run_queue ["22-6:15"]))) QUEUE_STAT_RUN = true /\
  has (qStatus (queue_window utc_ctime no_hour (at_time 3 12 0 0) (run_queue ["22-6:15"]))) QUEUE_STAT_RUN = false.
Proof.
  assert (configured [WindowConf None None 1320 375] (week_of ["22-6:15"])) as Hr.
  { apply (conf_add [] (WindowConf None None 1320 375) (lit "22-6:15") (replicate 8 [])); [constructor| |reflexivity].
    exists (lit "22"), (lit "6:15"). split_and!; [done| |].
    - apply (time_hour 22 (lit "22")); (lia || (split_and!; [done|repeat constructor|done])).
    - apply (time_minute 6 15 (lit "6") (lit "15")); (lia || (split_and!; [done|repeat constructor|done])). }
  assert (forall h k, (h = 23 /\ k = 10) \/ (h = 12 /\ k = 0) -> at_minute utc_ctime (at_time 3 h k 0) 1 (h * 60 + k)) as Ht.
  { intros h k Hhk. split_and!; [unfold a_day; lia|unfold a_minute; lia|].
    exists h, k, (lit " Jan  1 "), (two_digits h), (two_digits k), (lit ":00 1970").
    destruct Hhk as [[-> ->]|[-> ->]]; (split_and!; try lia; try reflexivity); (split_and!; [done|repeat constructor|done]). }
  split.
  - destruct (queue_follows_windows utc_ctime no_hour (at_time 3 23 10 0) 1 (23 * 60 + 10) _ [] (run_queue ["22-6:15"])
                Hr conf_none) as (_ & H & _); [split; vm_compute; discriminate|apply Ht; by left|exact H].
  - destruct (queue_follows_windows utc_ctime no_hour (at_time 3 12 0 0) 1 (12 * 60) _ [] (run_queue ["22-6:15"])
                Hr conf_none) as (_ & H & _); [split; vm_compute; discriminate|apply Ht; by right|exact H].
Defined.

(** *** The time at which the run window of a queue closes *)

(** Two windows that together are always open: [runWindowCloseTime] goes on from day to day. *)
Example always_open_loops :
  runWindowCloseTime utc_ctime utc_last_second no_hour 500 (at_time 0 12 0 0) (run_queue ["8:00-20:00"; "20:00-8:00"]) = None.
Proof. vm_compute. reflexivity. Qed.

(** An earlier window of the day makes the closing time a time in the past. *)
Example closed_in_the_past :
  runWindowCloseTime utc_ctime utc_last_second no_hour 10 (at_time 0 10 0 0) (run_queue ["0:00-6:00"; "8:00-20:00"])
  = Some (at_time 0 0 0 0).
Proof. vm_compute. reflexivity. Qed.

(** A window that ends at midnight is said to close a day later. *)
Example closes_a_day_late :
  runWindowCloseTime utc_ctime utc_last_second no_hour 10 (at_time 0 21 0 0) (run_queue ["20:00-0:00"])
  = Some (at_time 1 23 59 59).
Proof. vm_compute. reflexivity. Qed.

(** Edges are computed in floats, which at these times are 128 seconds apart: a window
    until 21:00 is taken to be open for 48 seconds more. *)
Example edge_in_floats :
  edge_at (at_time 0 20 30 0) (ft 1260) (DayHour 1 (ft 1230)) = at_time 0 21 0 48.
Proof. vm_compute. reflexivity. Qed.
