(* ===== verification/EventText.v ===== *)
(** * The text of an event record (lsbatch/lib/lsb.log.c, lib.words.c)

    A record of the event log is a line of fields, each written with a blank in
    front of it: numbers, and strings between quotes.  The functions that read a
    record move a pointer along the line.  This file holds what they share: the
    monad of a reader, the macros [copyQStr] and [saveQStr], the conversions of
    [sscanf], and the law of each reader on the text that the writers produce. *)

From S2P Require Import Prelude CLib Words Stdio.
From Stdlib Require Import SpecFloat.

(** lsbatch.h *)
Definition LSBE_NO_ERROR : Z := 0.
Definition LSBE_UNKNOWN_EVENT : Z := 44.
Definition LSBE_EVENT_FORMAT : Z := 45.
Definition LSBE_EOF : Z := 46.
Definition LSBE_NO_MEM : Z := 52.

(** ** Writing *)

(** [fprintf(log_fp, " %d", z)]: the argument is an int. *)
Definition put_d (z : Z) : cstr := BLANK :: print_Z (int32 z).

(** [fprintf(log_fp, " %w.pf", x)] *)
Definition put_f (w p : nat) (x : spec_float) : cstr := BLANK :: print_f w p x.

(** A blank and a string printed with [%s] between quotes: its own quotes are not
    doubled. *)
Definition put_s (s : cstr) : cstr := [BLANK; QUOTE] ++ s ++ [QUOTE].

(** [for (i = 0; i < n; i++) put(a[i])] for an array with at least [n] elements. *)
Definition put_array {A} (put : A -> cstr) (n : Z) (a : list A) : cstr :=
  flat_map put (take (Z.to_nat n) a).

(** ** Reading

    The state of a reader is the pointer [line]: the rest of the string, or
    [None] when the pointer is one character behind the NUL, as [line += ccount + 1]
    leaves it after the last field.  To read there is undefined ([Wild]), as is
    to store a string in a buffer that is too small. *)

Inductive outcome (A : Type) :=
| Ok (a : A)
| Err (lsberr : Z)
| Wild.
Arguments Ok {A} _.
Arguments Err {A} _.
Arguments Wild {A}.

Definition reader (A : Type) : Type := option cstr -> outcome (A * option cstr).

#[export] Instance reader_ret : MRet reader := fun A a l => Ok (a, l).
#[export] Instance reader_bind : MBind reader := fun A B k m l =>
  match m l with
  | Ok (a, l') => k a l'
  | Err e => Err e
  | Wild => Wild
  end.

Definition fail {A} (e : Z) : reader A := fun _ => Err e.

(** A conversion of [sscanf]; the pointer is left where [%n] counts to.  A failed
    conversion makes the number of conversions too small, which is reported. *)
Definition conv {A} (scan : cstr -> option (A * cstr)) : reader A := fun line =>
  match line with
  | None => Wild
  | Some s =>
      match scan s with
      | None => Err LSBE_EVENT_FORMAT
      | Some (a, rest) => Ok (a, Some rest)
      end
  end.

Definition conv_d : reader Z := conv scan_d.
Definition conv_f : reader spec_float := conv scan_float.
Definition conv_lf : reader spec_float := conv scan_double.

(** [s + n], for a position of the string or the one behind its NUL. *)
Definition advance (n : Z) (s : cstr) : option cstr :=
  if n <=? strlen s then Some (drop (Z.to_nat n) s) else None.

(** The one more character of [line += ccount + 1]. *)
Definition next : reader unit := fun line =>
  match line with
  | None => Wild
  | Some s => Ok (tt, advance 1 s)
  end.

(** To read without moving the pointer. *)
Definition peek {A} (r : reader A) : reader A := fun line =>
  match r line with
  | Ok (a, _) => Ok (a, line)
  | e => e
  end.

(** [stripQStr(line, buf)] with a buffer of [size] characters, then
    [line += ccount + 1]. *)
Definition strip_buf (size : Z) : reader cstr := fun line =>
  match line with
  | None => Wild
  | Some s =>
      let '(ccount, str) := stripQStr s in
      if ccount <? 0 then (if strlen str <=? size then Err LSBE_EVENT_FORMAT else Wild)
      else if strlen str <? size then Ok (str, advance (ccount + 1) s)
      else Wild
  end.

(** The buffer has the length of the line. *)
Definition saveQStr : reader cstr := fun line =>
  match line with
  | None => Wild
  | Some s => strip_buf (strlen s) line
  end.

Definition copyQStr (maxLen : Z) (nonNil : bool) : reader cstr :=
  str ← saveQStr;
  if (maxLen <=? strlen str) || (nonNil && (strlen str =? 0)) then fail LSBE_EVENT_FORMAT
  else mret str.

(** [calloc(n, size)]: a negative number is a size beyond all memory. *)
Definition calloc (n : Z) : reader unit := if n <? 0 then fail LSBE_NO_MEM else mret tt.

(** [for (i = 0; i < n; i++)] *)
Fixpoint read_array {A} (n : nat) (r : reader A) : reader (list A) :=
  match n with
  | O => mret []
  | S n => a ← r; rest ← read_array n r; mret (a :: rest)
  end.

Definition for_n {A} (n : Z) (r : reader A) : reader (list A) := read_array (Z.to_nat n) r.

(** [if (c) x = r;] *)
Definition read_if {A} (c : bool) (other : A) (r : reader A) : reader A :=
  if c then r else mret other.

(** ** Fields

    The text of a record is a list of fields; [at_field fs] is the pointer in
    front of the fields [fs], behind the blank that separates them from the
    previous one, and [after_field fs] the pointer at that blank, both in a line
    whose white space has become blanks. *)

Definition sep (fs : list cstr) : cstr := flat_map (cons BLANK) fs.

Definition num_field (z : Z) : cstr := print_Z (int32 z).
Definition quoted (s : cstr) : cstr := QUOTE :: double_quotes s ++ [QUOTE].

(** What becomes of a string. *)
Definition blanked (s : cstr) : cstr := map spaced s.

Definition after_field (fs : list cstr) : option cstr := Some (blanked (sep fs)).
Definition at_field (fs : list cstr) : option cstr := advance 1 (blanked (sep fs)).

Create HintDb event.

Lemma sep_cons f fs : sep (f :: fs) = BLANK :: f ++ sep fs.
Proof. done. Qed.

Lemma sep_app a b : sep (a ++ b) = sep a ++ sep b.
Proof. apply flat_map_app. Qed.

Lemma sep_if (c : bool) a b : sep (if c then a else b) = if c then sep a else sep b.
Proof. by destruct c. Qed.

Lemma blanked_sep fs : blanked (sep fs) = sep (map blanked fs).
Proof.
  unfold blanked. induction fs as [|f fs IH]; [done|]. rewrite sep_cons. simpl.
  by rewrite map_app, IH.
Qed.

Lemma advance_1 c s : advance 1 (c :: s) = Some s.
Proof. unfold advance, strlen. simpl length. case_if; [done|]. breflect. lia. Qed.

Lemma at_field_cons f fs : at_field (f :: fs) = Some (blanked f ++ blanked (sep fs)).
Proof.
  unfold at_field. rewrite sep_cons. unfold blanked. cbn [map].
  by rewrite map_app, advance_1.
Qed.

Lemma after_field_cons f fs : after_field (f :: fs) = Some (BLANK :: blanked f ++ blanked (sep fs)).
Proof. unfold after_field. rewrite sep_cons. unfold blanked. cbn [map]. by rewrite map_app. Qed.

Lemma text_end_fields fs : text_end (blanked (sep fs)).
Proof. by destruct fs. Qed.

Lemma quote_end_fields fs : quote_end (blanked (sep fs)).
Proof. by destruct fs. Qed.

Lemma blanked_id s : Forall (fun c => isspace c = false) s -> blanked s = s.
Proof.
  induction 1 as [|c s Hc _ IH]; [done|]. unfold blanked in *. simpl. rewrite IH.
  unfold spaced. by rewrite Hc.
Qed.

Lemma blanked_app s t : blanked (s ++ t) = blanked s ++ blanked t.
Proof. apply map_app. Qed.

Lemma blanked_length s : strlen (blanked s) = strlen s.
Proof. unfold strlen, blanked. by rewrite length_map. Qed.

(** *** Numbers do not change when white space becomes blanks *)

Definition plain (s : cstr) : Prop := Forall (fun c => spaced c = c) s.

Lemma blanked_plain s : plain s -> blanked s = s.
Proof. induction 1 as [|c s Hc _ IH]; [done|]. unfold blanked in *. simpl. by rewrite IH, Hc. Qed.

Lemma plain_app s t : plain s -> plain t -> plain (s ++ t).
Proof. intros. by apply Forall_app. Qed.

Lemma plain_digits s : Forall (fun c => isdigit c = true) s -> plain s.
Proof.
  intros H. eapply Forall_impl; [exact H|]. intros c Hc. unfold spaced.
  by rewrite isdigit_not_space.
Qed.

Lemma plain_replicate n c : spaced c = c -> plain (replicate n c).
Proof. intros. by apply Forall_replicate. Qed.

Lemma plain_print_nat n : 0 <= n -> plain (print_nat n).
Proof. intros Hn. apply plain_digits. by apply print_nat_spec. Qed.

Lemma plain_print_Z z : plain (print_Z z).
Proof.
  unfold print_Z. case_if; breflect; [constructor; [done|]|]; apply plain_print_nat; lia.
Qed.

Lemma plain_print_fixed p n : 0 <= n -> plain (print_fixed p n).
Proof.
  intros Hn. destruct (print_fixed_digits p n Hn) as (ip & fp & Hip & _ & Hfp & _ & _ & ->).
  apply plain_app; [by apply plain_digits|].
  destruct p; [constructor|]. constructor; [done|]. by apply plain_digits.
Qed.

Lemma plain_print_f w p x : plain (print_f w p x).
Proof.
  unfold print_f, pad. apply plain_app; [by apply plain_replicate|].
  assert (forall s, plain (sign_text s)) as Hs by (intros []; repeat constructor).
  destruct x as [s|s| |s m e]; [| |by repeat constructor|]; (apply plain_app; [done|]);
    [by apply plain_print_fixed|by repeat constructor|apply plain_print_fixed, scaled_nonneg].
Qed.

Lemma blanked_num z : blanked (num_field z) = num_field z.
Proof. apply blanked_plain, plain_print_Z. Qed.

Lemma blanked_print_f w p x : blanked (print_f w p x) = print_f w p x.
Proof. apply blanked_plain, plain_print_f. Qed.

Lemma blanked_quoted s : blanked (quoted s) = quoted (blanked s).
Proof.
  unfold quoted, blanked. cbn [map]. rewrite map_app. cbn [map]. f_equal. f_equal.
  induction s as [|c s IH]; [done|]. rewrite double_quotes_cons. cbn [map].
  rewrite double_quotes_cons, map_app, IH. f_equal.
  destruct (ch_eqb c QUOTE) eqn:E.
  - apply ch_eqb_eq in E as ->. done.
  - assert (ch_eqb (spaced c) QUOTE = false) as ->; [|done]. unfold spaced. by case_if.
Qed.

(** ** The law of each reader on the text of its field *)

Lemma bind_Ok {A B} (r : reader A) (k : A -> reader B) l a l' :
  r l = Ok (a, l') -> (r ≫= k) l = k a l'.
Proof. intros H. unfold mbind, reader_bind. by rewrite H. Qed.

Lemma bind_ret {A B} (a : A) (k : A -> reader B) l : (mret a ≫= k) l = k a l.
Proof. done. Qed.

Lemma bind_assoc {A B C} (r : reader A) (k : A -> reader B) (h : B -> reader C) l :
  ((r ≫= k) ≫= h) l = (r ≫= (fun a => k a ≫= h)) l.
Proof. unfold mbind, reader_bind. by destruct (r l) as [[a l']|e|]. Qed.

Lemma scan_num z fs :
  scan_d (num_field z ++ blanked (sep fs)) = Some (int32 z, blanked (sep fs)).
Proof.
  unfold num_field. rewrite scan_d_print.
  - f_equal. f_equal. apply sint_of_id; [done|]. by apply sint_of_range.
  - pose proof (sint_of_range 32 z eq_refl). unfold in_sint in *. lia.
  - apply text_end_fields.
Qed.

Lemma conv_d_at z fs : conv_d (at_field (num_field z :: fs)) = Ok (int32 z, after_field fs).
Proof. rewrite at_field_cons, blanked_num. unfold conv_d, conv. by rewrite scan_num. Qed.

Lemma conv_d_after z fs : conv_d (after_field (num_field z :: fs)) = Ok (int32 z, after_field fs).
Proof.
  rewrite after_field_cons, blanked_num. unfold conv_d, conv.
  by rewrite (scan_d_blank _ _ (scan_num z fs)).
Qed.

Lemma conv_float_at prec emax w p x fs :
  conv (scan_f prec emax) (at_field (print_f w p x :: fs)) =
  Ok (text_value prec emax p x, after_field fs).
Proof.
  rewrite at_field_cons, blanked_print_f. unfold conv. rewrite scan_f_print; [done|].
  apply text_end_fields.
Qed.

Lemma conv_float_after prec emax w p x fs :
  conv (scan_f prec emax) (after_field (print_f w p x :: fs)) =
  Ok (text_value prec emax p x, after_field fs).
Proof.
  rewrite after_field_cons, blanked_print_f. unfold conv, scan_f. rewrite read_f_blank.
  change (read_f true prec emax) with (scan_f prec emax).
  rewrite scan_f_print; [done|]. apply text_end_fields.
Qed.

Lemma next_after fs : next (after_field fs) = Ok (tt, at_field fs).
Proof. done. Qed.

Lemma advance_app q t : advance (strlen q + 1) (q ++ t) = advance 1 t.
Proof.
  unfold advance, strlen. rewrite length_app. destruct t as [|c t]; simpl.
  - case_if; [breflect; lia|done].
  - case_if; [|breflect; lia].
    replace (Z.to_nat (Z.of_nat (length q) + 1)) with (length q + 1)%nat by lia.
    rewrite <- drop_drop, drop_app_length. case_if; [done|breflect; lia].
Qed.

Lemma strip_buf_quoted size before s fs : no_quote before -> strlen s < size ->
  strip_buf size (Some (before ++ blanked (quoted s) ++ blanked (sep fs))) =
  Ok (blanked s, at_field fs).
Proof.
  intros Hb Hs. unfold strip_buf. rewrite blanked_quoted. unfold quoted.
  rewrite <- app_comm_cons, <- app_assoc. cbn [app].
  rewrite stripQStr_quoted by (done || apply quote_end_fields).
  set (txt := before ++ QUOTE :: double_quotes (blanked s) ++ [QUOTE]).
  assert (0 <= strlen txt) by (unfold strlen; lia). case_if; breflect; [lia|].
  rewrite blanked_length. case_if; breflect; [|lia]. f_equal. f_equal.
  replace (before ++ QUOTE :: double_quotes (blanked s) ++ QUOTE :: blanked (sep fs))
    with (txt ++ blanked (sep fs)).
  2:{ unfold txt. rewrite <- app_assoc. cbn [app]. rewrite <- app_assoc. done. }
  apply advance_app.
Qed.

Lemma saveQStr_quoted before s fs : no_quote before ->
  saveQStr (Some (before ++ blanked (quoted s) ++ blanked (sep fs))) = Ok (blanked s, at_field fs).
Proof.
  intros Hb. unfold saveQStr. apply strip_buf_quoted; [done|]. unfold strlen.
  rewrite !length_app. unfold blanked. rewrite length_map. unfold quoted. cbn [length].
  rewrite length_app. assert (length s <= length (double_quotes s))%nat; [|simpl; lia].
  induction s as [|c s IH]; [done|]. rewrite double_quotes_cons, length_app.
  destruct (ch_eqb c QUOTE); simpl; lia.
Qed.

(** Fields without quotes in front of a string are skipped. *)
Lemma skip_fields before s fs : Forall no_quote before ->
  exists b, no_quote b /\
    at_field (before ++ quoted s :: fs) = Some (b ++ blanked (quoted s) ++ blanked (sep fs)).
Proof.
  intros Hb. destruct before as [|f before].
  - exists []. split; [constructor|]. by rewrite app_nil_l, at_field_cons.
  - cbn [app]. rewrite at_field_cons. inversion Hb as [|? ? Hf Hr]; subst.
    exists (blanked f ++ blanked (sep before) ++ [BLANK]).
    rewrite sep_app, sep_cons, blanked_app. split.
    + assert (forall u, no_quote u -> no_quote (blanked u)) as Hbl.
      { intros u Hu. unfold no_quote, blanked in *. rewrite Forall_map.
        eapply Forall_impl; [exact Hu|]. intros c Hc. unfold spaced. by case_if. }
      apply Forall_app. split; [by apply Hbl|]. apply Forall_app. split; [|by repeat constructor].
      apply Hbl. clear -Hr. induction Hr as [|g before Hg _ IH]; [constructor|].
      rewrite sep_cons. constructor; [done|]. by apply Forall_app.
    + rewrite <- !app_assoc. change (blanked (BLANK :: quoted s ++ sep fs))
        with (BLANK :: blanked (quoted s ++ sep fs)). by rewrite blanked_app.
Qed.

Lemma saveQStr_skip before s fs : Forall no_quote before ->
  saveQStr (at_field (before ++ quoted s :: fs)) = Ok (blanked s, at_field fs).
Proof.
  intros Hb. destruct (skip_fields before s fs Hb) as (b & Hnb & ->). by apply saveQStr_quoted.
Qed.

Lemma saveQStr_at s fs : saveQStr (at_field (quoted s :: fs)) = Ok (blanked s, at_field fs).
Proof. apply (saveQStr_skip []). constructor. Qed.

Lemma strip_buf_at size s fs : strlen s < size ->
  strip_buf size (at_field (quoted s :: fs)) = Ok (blanked s, at_field fs).
Proof.
  intros Hs. destruct (skip_fields [] s fs) as (b & Hnb & Hat); [constructor|].
  cbn [app] in Hat. rewrite Hat. by apply strip_buf_quoted.
Qed.

(** The strings that [copyQStr] accepts. *)
Definition fits (maxLen : Z) (nonNil : bool) (s : cstr) : bool :=
  (strlen s <? maxLen) && negb (nonNil && (strlen s =? 0)).

Lemma copyQStr_skip maxLen nonNil before s fs : Forall no_quote before ->
  fits maxLen nonNil s = true ->
  copyQStr maxLen nonNil (at_field (before ++ quoted s :: fs)) = Ok (blanked s, at_field fs).
Proof.
  intros Hb Hs. unfold copyQStr. erewrite bind_Ok by by apply saveQStr_skip.
  unfold fits in Hs. apply andb_true_iff in Hs as [Hs1 Hs2]. rewrite blanked_length.
  apply Z.ltb_lt in Hs1. apply negb_true_iff in Hs2. rewrite Hs2, orb_false_r.
  case_if; breflect; [lia|done].
Qed.

Lemma copyQStr_at maxLen nonNil s fs : fits maxLen nonNil s = true ->
  copyQStr maxLen nonNil (at_field (quoted s :: fs)) = Ok (blanked s, at_field fs).
Proof. apply (copyQStr_skip _ _ []). constructor. Qed.
