(* ===== verification/EventLog.v ===== *)
(** * The event log (lsbatch/lib/lsb.log.c)

    mbatchd appends a record to the file lsb.events for every change of a job, a
    queue or a host, and replays the file when it starts; the accounting file and
    the status files of sbatchd have the same format.  A record is a line: the
    name of the event, the version, the time, and the fields of the event.  For
    each kind of event a Module holds its structure with the fields of
    lsbatch.h, the function that writes it and the function that reads it.

    A writer gives the text that it appends to the file.  Writing to the file does
    not fail.  A [char] array and a [char *] that is always written are strings;
    a [char *] that is written under a condition is an option.  An array has its
    count and its elements as separate fields, as in C. *)

From S2P Require Import Prelude CLib HashTable JobId Xdr LsbXdr Words Stdio EventText.
From Stdlib Require Import SpecFloat.

(** ** Constants *)

Definition MAX_VERSION_LEN : Z := 12.
Definition MAXLSFNAMELEN : Z := 40.

Definition SUB_JOB_NAME : Z := 0x01.
Definition SUB_QUEUE : Z := 0x02.
Definition SUB_HOST : Z := 0x04.
Definition SUB_IN_FILE : Z := 0x08.
Definition SUB_OUT_FILE : Z := 0x10.
Definition SUB_ERR_FILE : Z := 0x20.
Definition SUB_CHKPNT_PERIOD : Z := 0x400.
Definition SUB_CHKPNT_DIR : Z := 0x800.
Definition SUB_HOST_SPEC : Z := 0x10000.
Definition SUB_DEPEND_COND : Z := 0x20000.
Definition SUB_RES_REQ : Z := 0x40000.
Definition SUB_OTHER_FILES : Z := 0x80000.
Definition SUB_PRE_EXEC : Z := 0x100000.
Definition SUB_LOGIN_SHELL : Z := 0x200000.
Definition SUB_MAIL_USER : Z := 0x400000.
Definition SUB_PROJECT_NAME : Z := 0x2000000.
Definition SUB_INTERACTIVE : Z := 0x4000000.
Definition SUB_RLIMIT_UNIT_IS_KB : Z := 0x80000000.
Definition SUB2_MODIFY_CMD : Z := 0x02.
Definition SUB2_BSUB_BLOCK : Z := 0x04.
Definition SUB2_IN_FILE_SPOOL : Z := 0x80.
Definition SUB2_JOB_CMD_SPOOL : Z := 0x100.
Definition SUB2_JOB_PRIORITY : Z := 0x200.

Definition LSF_RLIMIT_FSIZE : Z := 1.
Definition LSF_RLIMIT_DATA : Z := 2.
Definition LSF_RLIMIT_STACK : Z := 3.
Definition LSF_RLIMIT_CORE : Z := 4.
Definition LSF_RLIMIT_RSS : Z := 5.
Definition LSF_RLIMIT_VMEM : Z := 8.
Definition LSF_RLIMIT_SWAP : Z := LSF_RLIMIT_VMEM.

(** ** Resource limits (lsb.misc.c) *)

Definition in_kb (i : Z) : bool :=
  (i =? LSF_RLIMIT_FSIZE) || (i =? LSF_RLIMIT_DATA) || (i =? LSF_RLIMIT_STACK) ||
  (i =? LSF_RLIMIT_CORE) || (i =? LSF_RLIMIT_RSS) || (i =? LSF_RLIMIT_VMEM).

(** The multiplication is one of ints. *)
Definition convertRLimit (pRLimits : list Z) (toKb : bool) : list Z :=
  imap (fun i lim =>
          if in_kb (Z.of_nat i) && (0 <? lim) then
            if toKb then lim `quot` 1024 else int32 (lim * 1024)
          else lim) pRLimits.

Definition EXCEED_MAX_INT (x : Z) : Z := if 0 <? x then Z.shiftr (uint32 x) 21 else 0.

Definition limitIsOk_ (rLimits : list Z) : bool :=
  negb (existsb (fun i => negb (EXCEED_MAX_INT (nth (Z.to_nat i) rLimits 0) =? 0))
          [LSF_RLIMIT_FSIZE; LSF_RLIMIT_DATA; LSF_RLIMIT_STACK; LSF_RLIMIT_CORE;
           LSF_RLIMIT_RSS; LSF_RLIMIT_SWAP]).

(** ** Resource usage (lsf.h, lib.lsf.c) *)

Record lsfRusage := LsfRusage {
  ru_utime : spec_float; ru_stime : spec_float; ru_maxrss : spec_float; ru_ixrss : spec_float;
  ru_ismrss : spec_float; ru_idrss : spec_float; ru_isrss : spec_float; ru_minflt : spec_float;
  ru_majflt : spec_float; ru_nswap : spec_float; ru_inblock : spec_float; ru_oublock : spec_float;
  ru_ioch : spec_float; ru_msgsnd : spec_float; ru_msgrcv : spec_float; ru_nsignals : spec_float;
  ru_nvcsw : spec_float; ru_nivcsw : spec_float; ru_exutime : spec_float }.

Definition lsfRu2Str (lsfRu : lsfRusage) : cstr :=
  put_f 1 6 (ru_utime lsfRu) ++ put_f 1 6 (ru_stime lsfRu) ++ put_f 1 0 (ru_maxrss lsfRu) ++
  put_f 1 0 (ru_ixrss lsfRu) ++ put_f 1 0 (ru_ismrss lsfRu) ++ put_f 1 0 (ru_idrss lsfRu) ++
  put_f 1 0 (ru_isrss lsfRu) ++ put_f 1 0 (ru_minflt lsfRu) ++ put_f 1 0 (ru_majflt lsfRu) ++
  put_f 1 0 (ru_nswap lsfRu) ++ put_f 1 0 (ru_inblock lsfRu) ++ put_f 1 0 (ru_oublock lsfRu) ++
  put_f 1 0 (ru_ioch lsfRu) ++ put_f 1 0 (ru_msgsnd lsfRu) ++ put_f 1 0 (ru_msgrcv lsfRu) ++
  put_f 1 0 (ru_nsignals lsfRu) ++ put_f 1 0 (ru_nvcsw lsfRu) ++ put_f 1 0 (ru_nivcsw lsfRu) ++
  put_f 1 0 (ru_exutime lsfRu).

(** The callers compare the number of conversions with 19. *)
Definition str2lsfRu : reader lsfRusage :=
  utime ← conv_lf; stime ← conv_lf; maxrss ← conv_lf; ixrss ← conv_lf; ismrss ← conv_lf;
  idrss ← conv_lf; isrss ← conv_lf; minflt ← conv_lf; majflt ← conv_lf; nswap ← conv_lf;
  inblock ← conv_lf; oublock ← conv_lf; ioch ← conv_lf; msgsnd ← conv_lf; msgrcv ← conv_lf;
  nsignals ← conv_lf; nvcsw ← conv_lf; nivcsw ← conv_lf; exutime ← conv_lf;
  mret (LsfRusage utime stime maxrss ixrss ismrss idrss isrss minflt majflt nswap inblock
          oublock ioch msgsnd msgrcv nsignals nvcsw nivcsw exutime).

Definition zero_rusage : lsfRusage :=
  let z := S754_zero false in LsfRusage z z z z z z z z z z z z z z z z z z z.

(** ** Shared pieces of the readers *)

(** [sscanf("%d%n")] and [line += ccount + 1]. *)
Definition get_d : reader Z := z ← conv_d; next;; mret z.

Definition put_xf (f : xFile) : cstr :=
  put_s (xf_subFn f) ++ put_s (xf_execFn f) ++ put_d (xf_options f).

Definition get_xf : reader xFile :=
  subFn ← copyQStr MAXFILENAMELEN false;
  execFn ← copyQStr MAXFILENAMELEN false;
  options ← get_d;
  mret (XFile subFn execFn options).

Definition newline : cstr := [NEWLINE].

(** ** A job is submitted: JOB_NEW and JOB_MODIFY *)

Module JobNew.

Record jobNewLog := JobNewLog {
  jobId : Z; userId : Z; userName : cstr; options : Z; options2 : Z; numProcessors : Z;
  submitTime : Z; beginTime : Z; termTime : Z; sigValue : Z; chkpntPeriod : Z; restartPid : Z;
  rLimits : list Z; hostSpec : cstr; hostFactor : spec_float; umask : Z; queue : cstr;
  resReq : cstr; fromHost : cstr; cwd : cstr; chkpntDir : cstr; inFile : cstr; outFile : cstr;
  errFile : cstr; inFileSpool : cstr; commandSpool : cstr; jobSpoolDir : cstr;
  subHomeDir : cstr; jobFile : cstr; numAskedHosts : Z; askedHosts : list cstr;
  dependCond : cstr; jobName : cstr; command : cstr; nxf : Z; xf : list xFile;
  preExecCmd : cstr; mailUser : cstr; projectName : cstr; niosPort : Z; maxNumProcessors : Z;
  schedHostType : cstr; loginShell : cstr; idx : Z; userPriority : Z }.

Definition writeJobNew (l : jobNewLog) : cstr :=
  let limits := if negb (has (options l) SUB_RLIMIT_UNIT_IS_KB) then convertRLimit (rLimits l) false
                else rLimits l in
  put_d (jobId l) ++ put_d (userId l) ++ put_d (options l) ++ put_d (numProcessors l) ++
  put_d (submitTime l) ++ put_d (beginTime l) ++ put_d (termTime l) ++ put_d (sigValue l) ++
  put_d (chkpntPeriod l) ++ put_d (restartPid l) ++
  addQStr (userName l) ++
  put_array put_d LSF_RLIM_NLIMITS limits ++
  addQStr (hostSpec l) ++ put_f 6 2 (hostFactor l) ++ put_d (umask l) ++
  addQStr (queue l) ++ addQStr (subNewLine_ (resReq l)) ++ addQStr (fromHost l) ++
  addQStr (cwd l) ++ addQStr (chkpntDir l) ++ addQStr (inFile l) ++ addQStr (outFile l) ++
  addQStr (errFile l) ++ addQStr (subHomeDir l) ++ addQStr (jobFile l) ++
  put_d (numAskedHosts l) ++ put_array addQStr (numAskedHosts l) (askedHosts l) ++
  addQStr (subNewLine_ (dependCond l)) ++ addQStr (subNewLine_ (preExecCmd l)) ++
  addQStr (jobName l) ++ addQStr (subNewLine_ (command l)) ++
  put_d (nxf l) ++ put_array put_xf (nxf l) (xf l) ++
  addQStr (subNewLine_ (mailUser l)) ++ addQStr (projectName l) ++
  (if has (options l) SUB_INTERACTIVE then put_d (niosPort l) else []) ++
  put_d (maxNumProcessors l) ++ addQStr (schedHostType l) ++ addQStr (loginShell l) ++
  put_d (options2 l) ++ put_d (idx l) ++
  (if has (options2 l) SUB2_BSUB_BLOCK then put_d (niosPort l) else []) ++
  addQStr (inFileSpool l) ++ addQStr (commandSpool l) ++ addQStr (jobSpoolDir l) ++
  put_d (userPriority l) ++ newline.

(** [if ( *line != '\0') sscanf(line, "%d%n", ...)] *)
Definition conv_d_unless_end (other : Z) : reader Z := fun line =>
  match line with
  | Some [] => Ok (other, line)
  | _ => conv_d line
  end.

(** The pointer is not advanced behind [idx], nor behind a second [niosPort]:
    [stripQStr] skips the numbers in front of the next string. *)
Definition read_block (niosPort : Z) : reader (Z * Z * Z) :=
  '(options2, idx) ← peek (options2 ← conv_d; idx ← conv_d; mret (options2, idx));
  niosPort ← read_if (has options2 SUB2_BSUB_BLOCK) niosPort
               (conv_d;; conv_d;; peek (conv_d_unless_end niosPort));
  mret (options2, idx, niosPort).

Definition readJobNew : reader jobNewLog :=
  jobId ← conv_d; userId ← conv_d; options ← conv_d; numProcessors ← conv_d;
  submitTime ← conv_d; beginTime ← conv_d; termTime ← conv_d; sigValue ← conv_d;
  chkpntPeriod ← conv_d; restartPid ← conv_d; next;;
  userName ← copyQStr MAX_LSB_NAME_LEN true;
  rLimits ← for_n LSF_RLIM_NLIMITS get_d;
  hostSpec ← copyQStr MAXHOSTNAMELEN false;
  hostFactor ← conv_f; umask ← conv_d; next;;
  queue ← copyQStr MAX_LSB_NAME_LEN true;
  resReq ← saveQStr;
  fromHost ← copyQStr MAXHOSTNAMELEN true;
  cwd ← copyQStr MAXFILENAMELEN false;
  chkpntDir ← copyQStr MAXFILENAMELEN false;
  inFile ← copyQStr MAXFILENAMELEN false;
  outFile ← copyQStr MAXFILENAMELEN false;
  errFile ← copyQStr MAXFILENAMELEN false;
  subHomeDir ← copyQStr MAXFILENAMELEN false;
  jobFile ← copyQStr MAXFILENAMELEN true;
  numAskedHosts ← get_d;
  askedHosts ← for_n numAskedHosts (strip_buf MAXLINELEN);
  dependCond ← saveQStr;
  preExecCmd ← saveQStr;
  jobName ← copyQStr MAX_CMD_DESC_LEN false;
  command ← copyQStr MAX_CMD_DESC_LEN false;
  nxf ← get_d;
  xf ← for_n nxf get_xf;
  mailUser ← saveQStr;
  projectName ← saveQStr;
  niosPort ← read_if (has options SUB_INTERACTIVE) 0 get_d;
  maxNumProcessors ← get_d;
  schedHostType ← saveQStr;
  loginShell ← saveQStr;
  '(options2, idx, niosPort) ← read_block niosPort;
  let rLimits := if negb (has options SUB_RLIMIT_UNIT_IS_KB) then convertRLimit rLimits true
                 else rLimits in
  inFileSpool ← copyQStr MAXFILENAMELEN false;
  commandSpool ← copyQStr MAXFILENAMELEN false;
  jobSpoolDir ← copyQStr MAXPATHLEN false;
  userPriority ← conv_d;
  mret (JobNewLog jobId userId userName options options2 numProcessors submitTime beginTime
          termTime sigValue chkpntPeriod restartPid rLimits hostSpec hostFactor umask queue
          resReq fromHost cwd chkpntDir inFile outFile errFile inFileSpool commandSpool
          jobSpoolDir subHomeDir jobFile numAskedHosts askedHosts dependCond jobName command
          nxf xf preExecCmd mailUser projectName niosPort maxNumProcessors schedHostType
          loginShell idx userPriority).

End JobNew.

(** ** A submission is modified: JOB_MODIFY2 *)

Module JobMod.

Record jobModLog := JobModLog {
  jobIdStr : cstr; options : Z; options2 : Z; delOptions : Z; delOptions2 : Z; userId : Z;
  userName : cstr; submitTime : Z; umask : Z; numProcessors : Z; beginTime : Z; termTime : Z;
  sigValue : Z; restartPid : Z; jobName : option cstr; queue : option cstr;
  numAskedHosts : Z; askedHosts : list cstr; resReq : option cstr; rLimits : list Z;
  hostSpec : option cstr; dependCond : option cstr; subHomeDir : cstr; inFile : option cstr;
  outFile : option cstr; errFile : option cstr; command : option cstr;
  inFileSpool : option cstr; commandSpool : option cstr; chkpntPeriod : Z;
  chkpntDir : option cstr; nxf : Z; xf : list xFile; jobFile : cstr; fromHost : cstr;
  cwd : cstr; preExecCmd : option cstr; mailUser : option cstr; projectName : option cstr;
  niosPort : Z; maxNumProcessors : Z; loginShell : option cstr; schedHostType : cstr;
  userPriority : Z }.

(** [if (c && addQStr(log_fp, p) < 0)]: a NULL pointer is not to be written. *)
Definition put_if (c : bool) (p : option cstr) : option cstr :=
  if c then addQStr <$> p else Some [].

Definition writeJobMod (l : jobModLog) : option cstr :=
  let opt := has (options l) in
  let opt2 := has (options2 l) in
  jobName ← put_if (opt SUB_JOB_NAME) (jobName l);
  queue ← put_if (opt SUB_QUEUE) (queue l);
  resReq ← put_if (opt SUB_RES_REQ) (resReq l);
  hostSpec ← put_if (opt SUB_HOST_SPEC) (hostSpec l);
  dependCond ← put_if (opt SUB_DEPEND_COND) (subNewLine_ <$> dependCond l);
  inFile ← put_if (opt SUB_IN_FILE || opt2 SUB2_IN_FILE_SPOOL) (inFile l);
  outFile ← put_if (opt SUB_OUT_FILE) (outFile l);
  errFile ← put_if (opt SUB_ERR_FILE) (errFile l);
  command ← put_if (opt2 SUB2_MODIFY_CMD) (command l);
  chkpntDir ← put_if (opt SUB_CHKPNT_DIR) (chkpntDir l);
  preExecCmd ← put_if (opt SUB_PRE_EXEC) (subNewLine_ <$> preExecCmd l);
  mailUser ← put_if (opt SUB_MAIL_USER) (mailUser l);
  projectName ← put_if (opt SUB_PROJECT_NAME) (projectName l);
  loginShell ← put_if (opt SUB_LOGIN_SHELL) (loginShell l);
  inFileSpool ← put_if (opt2 SUB2_IN_FILE_SPOOL) (inFileSpool l);
  commandSpool ← put_if (opt2 SUB2_JOB_CMD_SPOOL) (commandSpool l);
  Some (addQStr (jobIdStr l) ++ put_d (options l) ++ put_d (options2 l) ++ put_d (delOptions l) ++
        put_d (userId l) ++ addQStr (userName l) ++
        put_d (submitTime l) ++ put_d (umask l) ++ put_d (numProcessors l) ++
        put_d (beginTime l) ++ put_d (termTime l) ++ put_d (sigValue l) ++ put_d (restartPid l) ++
        jobName ++ queue ++
        (if opt SUB_HOST then
           put_d (numAskedHosts l) ++ put_array addQStr (numAskedHosts l) (askedHosts l)
         else []) ++
        resReq ++ put_array put_d LSF_RLIM_NLIMITS (rLimits l) ++
        hostSpec ++ dependCond ++ addQStr (subHomeDir l) ++
        inFile ++ outFile ++ errFile ++ command ++
        (if opt SUB_CHKPNT_PERIOD then put_d (chkpntPeriod l) else []) ++ chkpntDir ++
        (if opt SUB_OTHER_FILES then put_d (nxf l) ++ put_array put_xf (nxf l) (xf l) else []) ++
        addQStr (jobFile l) ++ addQStr (fromHost l) ++ addQStr (cwd l) ++
        preExecCmd ++ mailUser ++ projectName ++
        put_d (niosPort l) ++ put_d (maxNumProcessors l) ++ loginShell ++
        addQStr (schedHostType l) ++ put_d (delOptions2 l) ++ inFileSpool ++ commandSpool ++
        (if opt2 SUB2_JOB_PRIORITY then put_d (userPriority l) else []) ++ newline).

Definition save_if (c : bool) : reader (option cstr) := read_if c None (s ← saveQStr; mret (Some s)).

Definition readJobMod : reader jobModLog :=
  jobIdStr ← saveQStr;
  options ← conv_d; options2 ← conv_d; delOptions ← conv_d; userId ← conv_d; next;;
  let opt := has options in
  let opt2 := has options2 in
  userName ← saveQStr;
  submitTime ← conv_d; umask ← conv_d; numProcessors ← conv_d; beginTime ← conv_d;
  termTime ← conv_d; sigValue ← conv_d; restartPid ← conv_d; next;;
  jobName ← save_if (opt SUB_JOB_NAME);
  queue ← save_if (opt SUB_QUEUE);
  '(numAskedHosts, askedHosts) ←
     read_if (opt SUB_HOST) (0, [])
       (n ← get_d; calloc n;; hosts ← for_n n saveQStr; mret (n, hosts));
  resReq ← save_if (opt SUB_RES_REQ);
  rLimits ← for_n LSF_RLIM_NLIMITS get_d;
  hostSpec ← save_if (opt SUB_HOST_SPEC);
  dependCond ← save_if (opt SUB_DEPEND_COND);
  subHomeDir ← saveQStr;
  inFile ← save_if (opt SUB_IN_FILE || opt2 SUB2_IN_FILE_SPOOL);
  outFile ← save_if (opt SUB_OUT_FILE);
  errFile ← save_if (opt SUB_ERR_FILE);
  command ← save_if (opt2 SUB2_MODIFY_CMD);
  chkpntPeriod ← read_if (opt SUB_CHKPNT_PERIOD) 0 get_d;
  chkpntDir ← save_if (opt SUB_CHKPNT_DIR);
  '(nxf, xf) ←
     read_if (opt SUB_OTHER_FILES) (0, []) (n ← get_d; xf ← for_n n get_xf; mret (n, xf));
  jobFile ← saveQStr;
  fromHost ← saveQStr;
  cwd ← saveQStr;
  preExecCmd ← save_if (opt SUB_PRE_EXEC);
  mailUser ← save_if (opt SUB_MAIL_USER);
  projectName ← save_if (opt SUB_PROJECT_NAME);
  niosPort ← conv_d; maxNumProcessors ← conv_d; next;;
  loginShell ← save_if (opt SUB_LOGIN_SHELL);
  schedHostType ← saveQStr;
  delOptions2 ← get_d;
  inFileSpool ← save_if (opt2 SUB2_IN_FILE_SPOOL);
  commandSpool ← save_if (opt2 SUB2_JOB_CMD_SPOOL);
  userPriority ← read_if (opt2 SUB2_JOB_PRIORITY) 0 get_d;
  mret (JobModLog jobIdStr options options2 delOptions delOptions2 userId userName submitTime
          umask numProcessors beginTime termTime sigValue restartPid jobName queue numAskedHosts
          askedHosts resReq rLimits hostSpec dependCond subHomeDir inFile outFile errFile command
          inFileSpool commandSpool chkpntPeriod chkpntDir nxf xf jobFile fromHost cwd preExecCmd
          mailUser projectName niosPort maxNumProcessors loginShell schedHostType userPriority).

End JobMod.

(** ** A job is started: JOB_START and PRE_EXEC_START *)

Module JobStart.

Record jobStartLog := JobStartLog {
  jobId : Z; jStatus : Z; jobPid : Z; jobPGid : Z; hostFactor : spec_float; numExHosts : Z;
  execHosts : list cstr; queuePreCmd : cstr; queuePostCmd : cstr; jFlags : Z; idx : Z }.

Definition writeJobStart (l : jobStartLog) : cstr :=
  put_d (jobId l) ++ put_d (jStatus l) ++ put_d (jobPid l) ++ put_d (jobPGid l) ++
  put_f 3 1 (hostFactor l) ++ put_d (numExHosts l) ++
  put_array addQStr (numExHosts l) (execHosts l) ++
  addQStr (queuePreCmd l) ++ addQStr (queuePostCmd l) ++ put_d (jFlags l) ++ put_d (idx l) ++
  newline.

Definition readJobStart : reader jobStartLog :=
  jobId ← conv_d; jStatus ← conv_d; jobPid ← conv_d; jobPGid ← conv_d; hostFactor ← conv_f;
  numExHosts ← conv_d; next;;
  if numExHosts =? 0 then fail LSBE_EVENT_FORMAT
  else
    calloc numExHosts;;
    execHosts ← for_n numExHosts (strip_buf MAXLINELEN);
    queuePreCmd ← saveQStr;
    queuePostCmd ← saveQStr;
    jFlags ← get_d;
    idx ← conv_d;
    mret (JobStartLog jobId jStatus jobPid jobPGid hostFactor numExHosts execHosts queuePreCmd
            queuePostCmd jFlags idx).

End JobStart.

Module JobStartAccept.

Record jobStartAcceptLog := JobStartAcceptLog { jobId : Z; jobPid : Z; jobPGid : Z; idx : Z }.

Definition writeJobStartAccept (l : jobStartAcceptLog) : cstr :=
  put_d (jobId l) ++ put_d (jobPid l) ++ put_d (jobPGid l) ++ put_d (idx l) ++ newline.

Definition readJobStartAccept : reader jobStartAcceptLog :=
  jobId ← conv_d; jobPid ← conv_d; jobPGid ← conv_d; next;;
  idx ← get_d;
  mret (JobStartAcceptLog jobId jobPid jobPGid idx).

End JobStartAccept.

Module JobExecute.

Record jobExecuteLog := JobExecuteLog {
  jobId : Z; execUid : Z; execHome : cstr; execCwd : cstr; jobPGid : Z; execUsername : cstr;
  jobPid : Z; idx : Z }.

Definition writeJobExecute (l : jobExecuteLog) : cstr :=
  put_d (jobId l) ++ put_d (execUid l) ++ put_d (jobPGid l) ++
  addQStr (execCwd l) ++ addQStr (execHome l) ++ addQStr (execUsername l) ++
  put_d (jobPid l) ++ put_d (idx l) ++ newline.

Definition readJobExecute : reader jobExecuteLog :=
  jobId ← conv_d; execUid ← conv_d; jobPGid ← conv_d; next;;
  execCwd ← saveQStr;
  execHome ← saveQStr;
  execUsername ← saveQStr;
  jobPid ← get_d;
  idx ← conv_d;
  mret (JobExecuteLog jobId execUid execHome execCwd jobPGid execUsername jobPid idx).

End JobExecute.

(** ** A job changes its state: JOB_STATUS, and SBD_JOB_STATUS of sbatchd *)

Module JobStatusEvent.

Record jobStatusLog := JobStatusLog {
  jobId : Z; jStatus : Z; reason : Z; subreasons : Z; cpuTime : spec_float; endTime : Z; ru : Z;
  rusage : lsfRusage; jFlags : Z; exitStatus : Z; idx : Z }.

(** The C name of [rusage] is [lsfRusage]. *)
Definition writeJobStatus (l : jobStatusLog) : cstr :=
  put_d (jobId l) ++ put_d (jStatus l) ++ put_d (reason l) ++ put_d (subreasons l) ++
  put_f 4 4 (cpuTime l) ++ put_d (endTime l) ++ put_d (ru l) ++
  (if negb (ru l =? 0) then lsfRu2Str (rusage l) else []) ++
  put_d (exitStatus l) ++ put_d (idx l) ++ newline.

(** What is not read keeps the zeros of [calloc], [jFlags] for one. *)
Definition readJobStatus : reader jobStatusLog :=
  jobId ← conv_d; jStatus ← conv_d; reason ← conv_d; subreasons ← conv_d; cpuTime ← conv_f;
  endTime ← conv_d; ru ← conv_d; next;;
  rusage ← read_if (negb (ru =? 0)) zero_rusage (u ← str2lsfRu; next;; mret u);
  exitStatus ← get_d;
  idx ← conv_d;
  mret (JobStatusLog jobId jStatus reason subreasons cpuTime endTime ru rusage 0 exitStatus idx).

End JobStatusEvent.

Module SbdJobStatus.

Record sbdJobStatusLog := SbdJobStatusLog {
  jobId : Z; jStatus : Z; reasons : Z; subreasons : Z; actPid : Z; actValue : Z; actPeriod : Z;
  actFlags : Z; actStatus : Z; actReasons : Z; actSubReasons : Z; idx : Z }.

(** No newline is written. *)
Definition writeSbdJobStatus (l : sbdJobStatusLog) : cstr :=
  put_d (jobId l) ++ put_d (jStatus l) ++ put_d (reasons l) ++ put_d (subreasons l) ++
  put_d (actPid l) ++ put_d (actValue l) ++ put_d (actPeriod l) ++ put_d (actFlags l) ++
  put_d (actStatus l) ++ put_d (actReasons l) ++ put_d (actSubReasons l) ++ put_d (idx l).

Definition readSbdJobStatus : reader sbdJobStatusLog :=
  jobId ← conv_d; jStatus ← conv_d; reasons ← conv_d; subreasons ← conv_d; actPid ← conv_d;
  actValue ← conv_d; actPeriod ← conv_d; actFlags ← conv_d; actStatus ← conv_d;
  actReasons ← conv_d; actSubReasons ← conv_d; idx ← conv_d; next;;
  mret (SbdJobStatusLog jobId jStatus reasons subreasons actPid actValue actPeriod actFlags
          actStatus actReasons actSubReasons idx).

End SbdJobStatus.

(** ** Requests of users: JOB_SWITCH, JOB_MOVE, MIG, JOB_SIGNAL, JOB_FORCE *)

Module JobSwitch.

Record jobSwitchLog := JobSwitchLog {
  userId : Z; jobId : Z; queue : cstr; idx : Z; userName : cstr }.

Definition writeJobSwitch (l : jobSwitchLog) : cstr :=
  put_d (userId l) ++ put_d (jobId l) ++ addQStr (queue l) ++ put_d (idx l) ++
  addQStr (userName l) ++ newline.

Definition readJobSwitch : reader jobSwitchLog :=
  userId ← conv_d; jobId ← conv_d; next;;
  queue ← copyQStr MAX_LSB_NAME_LEN true;
  idx ← get_d;
  userName ← copyQStr MAX_LSB_NAME_LEN true;
  mret (JobSwitchLog userId jobId queue idx userName).

End JobSwitch.

Module JobMove.

Record jobMoveLog := JobMoveLog {
  userId : Z; jobId : Z; position : Z; base : Z; idx : Z; userName : cstr }.

Definition writeJobMove (l : jobMoveLog) : cstr :=
  put_d (userId l) ++ put_d (jobId l) ++ put_d (position l) ++ put_d (base l) ++ put_d (idx l) ++
  addQStr (userName l) ++ newline.

Definition readJobMove : reader jobMoveLog :=
  userId ← conv_d; jobId ← conv_d; position ← conv_d; base ← conv_d; next;;
  idx ← get_d;
  userName ← copyQStr MAX_LSB_NAME_LEN true;
  mret (JobMoveLog userId jobId position base idx userName).

End JobMove.

Module Mig.

Record migLog := MigLog {
  jobId : Z; numAskedHosts : Z; askedHosts : list cstr; userId : Z; idx : Z; userName : cstr }.

Definition writeMig (l : migLog) : cstr :=
  put_d (jobId l) ++ put_d (numAskedHosts l) ++
  put_array addQStr (numAskedHosts l) (askedHosts l) ++
  put_d (userId l) ++ put_d (idx l) ++ addQStr (userName l) ++ newline.

(** The pointer is not advanced behind [idx]. *)
Definition readMig : reader migLog :=
  jobId ← conv_d; numAskedHosts ← conv_d; next;;
  calloc numAskedHosts;;
  askedHosts ← for_n numAskedHosts (strip_buf MAXHOSTNAMELEN);
  userId ← get_d;
  idx ← peek conv_d;
  userName ← copyQStr MAX_LSB_NAME_LEN true;
  mret (MigLog jobId numAskedHosts askedHosts userId idx userName).

End Mig.

Module JobSignal.

Record signalLog := SignalLog {
  userId : Z; jobId : Z; signalSymbol : cstr; runCount : Z; idx : Z; userName : cstr }.

Definition writeJobSignal (l : signalLog) : cstr :=
  put_d (jobId l) ++ put_d (userId l) ++ put_d (runCount l) ++ addQStr (signalSymbol l) ++
  put_d (idx l) ++ addQStr (userName l) ++ newline.

Definition readJobSignal : reader signalLog :=
  jobId ← conv_d; userId ← conv_d; runCount ← conv_d; next;;
  signalSymbol ← strip_buf MAXLINELEN;
  idx ← get_d;
  userName ← copyQStr MAX_LSB_NAME_LEN true;
  mret (SignalLog userId jobId signalSymbol runCount idx userName).

End JobSignal.

Module JobForce.

Record jobForceRequestLog := JobForceRequestLog {
  userId : Z; numExecHosts : Z; execHosts : list cstr; jobId : Z; idx : Z; options : Z;
  userName : cstr }.

(** A second blank follows the number of hosts. *)
Definition writeJobForce (l : jobForceRequestLog) : cstr :=
  put_d (jobId l) ++ put_d (userId l) ++ put_d (idx l) ++ put_d (options l) ++
  put_d (numExecHosts l) ++ [BLANK] ++
  put_array addQStr (numExecHosts l) (execHosts l) ++ addQStr (userName l) ++ newline.

Definition readJobForce : reader jobForceRequestLog :=
  jobId ← conv_d; userId ← conv_d; idx ← conv_d; options ← conv_d; numExecHosts ← conv_d; next;;
  calloc numExecHosts;;
  execHosts ← for_n numExecHosts (strip_buf MAXLINELEN);
  userName ← copyQStr MAX_LSB_NAME_LEN true;
  mret (JobForceRequestLog userId numExecHosts execHosts jobId idx options userName).

End JobForce.

(** ** Actions on a job: JOB_SIGACT, JOB_REQUEUE, JOB_CLEAN, CHKPNT, UNFULFILL *)

Module JobSigAct.

Record sigactLog := SigactLog {
  jobId : Z; period : Z; pid : Z; jStatus : Z; reasons : Z; flags : Z; signalSymbol : cstr;
  actStatus : Z; idx : Z }.

Definition writeJobSigAct (l : sigactLog) : cstr :=
  put_d (jobId l) ++ put_d (period l) ++ put_d (pid l) ++ put_d (jStatus l) ++
  put_d (reasons l) ++ put_d (flags l) ++ put_d (actStatus l) ++ addQStr (signalSymbol l) ++
  put_d (idx l) ++ newline.

Definition readJobSigAct : reader sigactLog :=
  jobId ← conv_d; period ← conv_d; pid ← conv_d; jStatus ← conv_d; reasons ← conv_d;
  flags ← conv_d; actStatus ← conv_d; next;;
  signalSymbol ← strip_buf MAXLINELEN;
  idx ← conv_d;
  mret (SigactLog jobId period pid jStatus reasons flags signalSymbol actStatus idx).

End JobSigAct.

Module JobRequeueEvent.

Record jobRequeueLog := JobRequeueLog { jobId : Z; idx : Z }.

Definition writeJobRqueue (l : jobRequeueLog) : cstr := put_d (jobId l) ++ put_d (idx l) ++ newline.

Definition readJobRequeue : reader jobRequeueLog :=
  jobId ← get_d;
  idx ← get_d;
  mret (JobRequeueLog jobId idx).

End JobRequeueEvent.

Module JobClean.

Record jobCleanLog := JobCleanLog { jobId : Z; idx : Z }.

Definition writeJobClean (l : jobCleanLog) : cstr := put_d (jobId l) ++ put_d (idx l) ++ newline.

Definition readJobClean : reader jobCleanLog :=
  jobId ← conv_d; idx ← conv_d; next;;
  mret (JobCleanLog jobId idx).

End JobClean.

Module Chkpnt.

Record chkpntLog := ChkpntLog {
  jobId : Z; period : Z; pid : Z; ok : Z; flags : Z; idx : Z }.

Definition writeChkpnt (l : chkpntLog) : cstr :=
  put_d (jobId l) ++ put_d (period l) ++ put_d (pid l) ++ put_d (ok l) ++ put_d (flags l) ++
  put_d (idx l) ++ newline.

Definition readChkpnt : reader chkpntLog :=
  jobId ← conv_d; period ← conv_d; pid ← conv_d; ok ← conv_d; flags ← conv_d; next;;
  idx ← conv_d;
  mret (ChkpntLog jobId period pid ok flags idx).

End Chkpnt.

Module Unfulfill.

Record unfulfillLog := UnfulfillLog {
  jobId : Z; notSwitched : Z; sig : Z; sig1 : Z; sig1Flags : Z; chkPeriod : Z; notModified : Z;
  idx : Z }.

Definition writeUnfulfill (l : unfulfillLog) : cstr :=
  put_d (jobId l) ++ put_d (notSwitched l) ++ put_d (sig l) ++ put_d (sig1 l) ++
  put_d (sig1Flags l) ++ put_d (chkPeriod l) ++ put_d (notModified l) ++ put_d (idx l) ++ newline.

Definition readUnfulfill : reader unfulfillLog :=
  jobId ← conv_d; notSwitched ← conv_d; sig ← conv_d; sig1 ← conv_d; sig1Flags ← conv_d;
  chkPeriod ← conv_d; notModified ← conv_d; next;;
  idx ← get_d;
  mret (UnfulfillLog jobId notSwitched sig sig1 sig1Flags chkPeriod notModified idx).

End Unfulfill.

(** ** Messages to a job: JOB_MSG and JOB_MSG_ACK

    The structures [jobMsgLog] and [jobMsgAckLog] have the same fields; the
    writer of an acknowledgement takes a [jobMsgLog]. *)

Module JobMsg.

Record jobMsgLog := JobMsgLog {
  usrId : Z; jobId : Z; msgId : Z; type : Z; src : cstr; dest : cstr; msg : cstr; idx : Z }.

Definition writeJobMsg (l : jobMsgLog) : cstr :=
  put_d (usrId l) ++ put_d (jobId l) ++ put_d (msgId l) ++ put_d (type l) ++
  addQStr (src l) ++ addQStr (dest l) ++ addQStr (msg l) ++ put_d (idx l) ++ newline.

Definition readJobMsg : reader jobMsgLog :=
  usrId ← conv_d; jobId ← conv_d; msgId ← conv_d; type ← conv_d; next;;
  src ← strip_buf MAXLINELEN;
  dest ← strip_buf MAXLINELEN;
  msg ← strip_buf MAXLINELEN;
  idx ← get_d;
  mret (JobMsgLog usrId jobId msgId type src dest msg idx).

Definition writeJobMsgAck (l : jobMsgLog) : cstr :=
  put_d (usrId l) ++ put_d (jobId l) ++ put_d (msgId l) ++ put_d (type l) ++
  addQStr (src l) ++ addQStr (dest l) ++ addQStr (msg l) ++ put_d (idx l) ++ newline.

Definition readJobMsgAck : reader jobMsgLog :=
  usrId ← conv_d; jobId ← conv_d; msgId ← conv_d; type ← conv_d; next;;
  src ← strip_buf MAXLINELEN;
  dest ← strip_buf MAXLINELEN;
  msg ← strip_buf MAXLINELEN;
  idx ← get_d;
  mret (JobMsgLog usrId jobId msgId type src dest msg idx).

End JobMsg.

(** ** Queues, hosts, mbatchd *)

Module QueueCtrl.

Record queueCtrlLog := QueueCtrlLog { opCode : Z; queue : cstr; userId : Z; userName : cstr }.

Definition writeQueueCtrl (l : queueCtrlLog) : cstr :=
  put_d (opCode l) ++ addQStr (queue l) ++ put_d (userId l) ++ addQStr (userName l) ++ newline.

Definition readQueueCtrl : reader queueCtrlLog :=
  opCode ← get_d;
  queue ← copyQStr MAX_LSB_NAME_LEN true;
  userId ← peek conv_d;
  userName ← copyQStr MAX_LSB_NAME_LEN true;
  mret (QueueCtrlLog opCode queue userId userName).

End QueueCtrl.

Module HostCtrl.

Record hostCtrlLog := HostCtrlLog { opCode : Z; host : cstr; userId : Z; userName : cstr }.

Definition writeHostCtrl (l : hostCtrlLog) : cstr :=
  put_d (opCode l) ++ addQStr (host l) ++ put_d (userId l) ++ addQStr (userName l) ++ newline.

Definition readHostCtrl : reader hostCtrlLog :=
  opCode ← get_d;
  host ← copyQStr MAXHOSTNAMELEN false;
  userId ← peek conv_d;
  userName ← copyQStr MAX_LSB_NAME_LEN true;
  mret (HostCtrlLog opCode host userId userName).

End HostCtrl.

Module MbdStart.

Record mbdStartLog := MbdStartLog { master : cstr; cluster : cstr; numHosts : Z; numQueues : Z }.

Definition writeMbdStart (l : mbdStartLog) : cstr :=
  addQStr (master l) ++ addQStr (cluster l) ++ put_d (numHosts l) ++ put_d (numQueues l) ++ newline.

Definition readMbdStart : reader mbdStartLog :=
  master ← copyQStr MAXHOSTNAMELEN false;
  cluster ← copyQStr MAXLSFNAMELEN false;
  numHosts ← conv_d; numQueues ← conv_d;
  mret (MbdStartLog master cluster numHosts numQueues).

End MbdStart.

Module MbdDie.

Record mbdDieLog := MbdDieLog { master : cstr; numRemoveJobs : Z; exitCode : Z }.

Definition writeMbdDie (l : mbdDieLog) : cstr :=
  addQStr (master l) ++ put_d (numRemoveJobs l) ++ put_d (exitCode l) ++ newline.

Definition readMbdDie : reader mbdDieLog :=
  master ← copyQStr MAXHOSTNAMELEN false;
  numRemoveJobs ← conv_d; exitCode ← conv_d;
  mret (MbdDieLog master numRemoveJobs exitCode).

End MbdDie.

Module LoadIndex.

Record loadIndexLog := LoadIndexLog { nIdx : Z; name : list cstr }.

Definition writeLoadIndex (l : loadIndexLog) : cstr :=
  put_d (nIdx l) ++ put_array addQStr (nIdx l) (name l) ++ newline.

Definition readLoadIndex : reader loadIndexLog :=
  nIdx ← conv_d;
  calloc nIdx;; next;;
  name ← for_n nIdx saveQStr;
  mret (LoadIndexLog nIdx name).

End LoadIndex.

Module LogSwitch.

Record logSwitchLog := LogSwitchLog { lastJobId : Z }.

(** A blank is written behind the number; [sscanf("%d %n")] skips it again. *)
Definition writeLogSwitch (l : logSwitchLog) : cstr := put_d (lastJobId l) ++ [BLANK] ++ newline.

Definition skip_space : reader unit := conv (fun s => Some (tt, snd (span isspace s))).

Definition readLogSwitch : reader logSwitchLog :=
  lastJobId ← conv_d; skip_space;; next;;
  mret (LogSwitchLog lastJobId).

End LogSwitch.

Module JobAttrSet.

Record jobAttrSetLog := JobAttrSetLog {
  jobId : Z; idx : Z; uid : Z; port : Z; hostname : option cstr }.

Definition writeJobAttrSet (l : jobAttrSetLog) : cstr :=
  put_d (jobId l) ++ put_d (idx l) ++ put_d (uid l) ++ put_d (port l) ++ [BLANK] ++ newline.

(** [hostname] keeps the NULL of [calloc]. *)
Definition readJobAttrSet : reader jobAttrSetLog :=
  jobId ← conv_d; idx ← conv_d; uid ← conv_d; port ← conv_d;
  mret (JobAttrSetLog jobId idx uid port None).

End JobAttrSet.

(** ** A job ends: JOB_FINISH, the record of the accounting file *)

Module JobFinish.

Record jobFinishLog := JobFinishLog {
  jobId : Z; userId : Z; userName : cstr; options : Z; numProcessors : Z; jStatus : Z;
  submitTime : Z; beginTime : Z; termTime : Z; startTime : Z; endTime : Z; queue : cstr;
  resReq : cstr; fromHost : cstr; cwd : cstr; inFile : cstr; outFile : cstr; errFile : cstr;
  inFileSpool : cstr; commandSpool : cstr; jobFile : cstr; numAskedHosts : Z;
  askedHosts : list cstr; hostFactor : spec_float; numExHosts : Z; execHosts : list cstr;
  cpuTime : spec_float; jobName : cstr; command : cstr; rusage : lsfRusage; dependCond : cstr;
  preExecCmd : cstr; mailUser : cstr; projectName : cstr; exitStatus : Z; maxNumProcessors : Z;
  loginShell : cstr; idx : Z; maxRMem : Z; maxRSwap : Z }.

Definition writeJobFinish (l : jobFinishLog) : cstr :=
  put_d (jobId l) ++ put_d (userId l) ++ put_d (options l) ++ put_d (numProcessors l) ++
  put_d (submitTime l) ++ put_d (beginTime l) ++ put_d (termTime l) ++ put_d (startTime l) ++
  addQStr (userName l) ++ addQStr (queue l) ++ addQStr (resReq l) ++ addQStr (dependCond l) ++
  addQStr (preExecCmd l) ++ addQStr (fromHost l) ++ addQStr (cwd l) ++ addQStr (inFile l) ++
  addQStr (outFile l) ++ addQStr (errFile l) ++ addQStr (jobFile l) ++
  put_d (numAskedHosts l) ++ put_array addQStr (numAskedHosts l) (askedHosts l) ++
  put_d (numExHosts l) ++ put_array addQStr (numExHosts l) (execHosts l) ++
  put_d (jStatus l) ++ put_f 3 1 (hostFactor l) ++
  addQStr (jobName l) ++ addQStr (command l) ++ lsfRu2Str (rusage l) ++
  addQStr (mailUser l) ++ addQStr (projectName l) ++ put_d (exitStatus l) ++
  put_d (maxNumProcessors l) ++ addQStr (loginShell l) ++ put_d (idx l) ++ put_d (maxRMem l) ++
  put_d (maxRSwap l) ++ addQStr (inFileSpool l) ++ addQStr (commandSpool l) ++ newline.

(** The time that the job used: [(float)(ru_utime + ru_stime)], not below 0. *)
Definition cpu_time (u : lsfRusage) : spec_float :=
  let t := to_float (SFadd 53 1024 (ru_utime u) (ru_stime u)) in
  if SFltb t (S754_zero false) then S754_zero false else t.

Definition readJobFinish (eventTime : Z) : reader jobFinishLog :=
  jobId ← conv_d; userId ← conv_d; options ← conv_d; numProcessors ← conv_d;
  submitTime ← conv_d; beginTime ← conv_d; termTime ← conv_d; startTime ← conv_d; next;;
  userName ← copyQStr MAX_LSB_NAME_LEN true;
  queue ← copyQStr MAX_LSB_NAME_LEN true;
  resReq ← saveQStr;
  dependCond ← saveQStr;
  preExecCmd ← saveQStr;
  fromHost ← copyQStr MAXHOSTNAMELEN true;
  cwd ← copyQStr MAXFILENAMELEN false;
  inFile ← copyQStr MAXFILENAMELEN false;
  outFile ← copyQStr MAXFILENAMELEN false;
  errFile ← copyQStr MAXFILENAMELEN false;
  jobFile ← copyQStr MAXFILENAMELEN true;
  numAskedHosts ← get_d;
  askedHosts ← for_n numAskedHosts (strip_buf MAXLINELEN);
  numExHosts ← get_d;
  execHosts ← for_n numExHosts (strip_buf MAXLINELEN);
  jStatus ← conv_d; hostFactor ← conv_f; next;;
  jobName ← copyQStr MAX_CMD_DESC_LEN false;
  command ← copyQStr MAX_CMD_DESC_LEN false;
  rusage ← str2lsfRu;
  next;;
  mailUser ← saveQStr;
  projectName ← saveQStr;
  exitStatus ← get_d;
  maxNumProcessors ← get_d;
  loginShell ← saveQStr;
  idx ← get_d;
  maxRMem ← conv_d; maxRSwap ← conv_d; next;;
  inFileSpool ← copyQStr MAXFILENAMELEN false;
  commandSpool ← copyQStr MAXFILENAMELEN false;
  mret (JobFinishLog jobId userId userName options numProcessors jStatus submitTime beginTime
          termTime startTime eventTime queue resReq fromHost cwd inFile outFile errFile
          inFileSpool commandSpool jobFile numAskedHosts askedHosts hostFactor numExHosts
          execHosts (cpu_time rusage) jobName command rusage dependCond preExecCmd mailUser
          projectName exitStatus maxNumProcessors loginShell idx maxRMem maxRSwap).

End JobFinish.

(** ** Event records *)

Definition EVENT_JOB_NEW : Z := 1.
Definition EVENT_JOB_START : Z := 2.
Definition EVENT_JOB_STATUS : Z := 3.
Definition EVENT_JOB_SWITCH : Z := 4.
Definition EVENT_JOB_MOVE : Z := 5.
Definition EVENT_QUEUE_CTRL : Z := 6.
Definition EVENT_HOST_CTRL : Z := 7.
Definition EVENT_MBD_DIE : Z := 8.
Definition EVENT_MBD_UNFULFILL : Z := 9.
Definition EVENT_JOB_FINISH : Z := 10.
Definition EVENT_LOAD_INDEX : Z := 11.
Definition EVENT_CHKPNT : Z := 12.
Definition EVENT_MIG : Z := 13.
Definition EVENT_PRE_EXEC_START : Z := 14.
Definition EVENT_MBD_START : Z := 15.
Definition EVENT_JOB_MODIFY : Z := 16.
Definition EVENT_JOB_SIGNAL : Z := 17.
Definition EVENT_JOB_EXECUTE : Z := 18.
Definition EVENT_JOB_MSG : Z := 19.
Definition EVENT_JOB_MSG_ACK : Z := 20.
Definition EVENT_JOB_REQUEUE : Z := 21.
Definition EVENT_JOB_SIGACT : Z := 22.
Definition EVENT_SBD_JOB_STATUS : Z := 23.
Definition EVENT_JOB_START_ACCEPT : Z := 24.
Definition EVENT_JOB_CLEAN : Z := 25.
Definition EVENT_JOB_FORCE : Z := 26.
Definition EVENT_LOG_SWITCH : Z := 27.
Definition EVENT_JOB_MODIFY2 : Z := 28.
Definition EVENT_JOB_ATTR_SET : Z := 29.

(** [union eventLog] with the member that is in use; to use another one is
    undefined, except that the two structures of messages are interchangeable. *)
Inductive eventLog :=
| jobNewLog_ (l : JobNew.jobNewLog)
| jobModLog_ (l : JobMod.jobModLog)
| jobStartLog_ (l : JobStart.jobStartLog)
| jobStartAcceptLog_ (l : JobStartAccept.jobStartAcceptLog)
| jobExecuteLog_ (l : JobExecute.jobExecuteLog)
| jobStatusLog_ (l : JobStatusEvent.jobStatusLog)
| sbdJobStatusLog_ (l : SbdJobStatus.sbdJobStatusLog)
| jobSwitchLog_ (l : JobSwitch.jobSwitchLog)
| jobMoveLog_ (l : JobMove.jobMoveLog)
| migLog_ (l : Mig.migLog)
| signalLog_ (l : JobSignal.signalLog)
| jobForceRequestLog_ (l : JobForce.jobForceRequestLog)
| sigactLog_ (l : JobSigAct.sigactLog)
| jobRequeueLog_ (l : JobRequeueEvent.jobRequeueLog)
| jobCleanLog_ (l : JobClean.jobCleanLog)
| chkpntLog_ (l : Chkpnt.chkpntLog)
| unfulfillLog_ (l : Unfulfill.unfulfillLog)
| jobMsgLog_ (l : JobMsg.jobMsgLog)
| queueCtrlLog_ (l : QueueCtrl.queueCtrlLog)
| hostCtrlLog_ (l : HostCtrl.hostCtrlLog)
| mbdStartLog_ (l : MbdStart.mbdStartLog)
| mbdDieLog_ (l : MbdDie.mbdDieLog)
| loadIndexLog_ (l : LoadIndex.loadIndexLog)
| logSwitchLog_ (l : LogSwitch.logSwitchLog)
| jobAttrSetLog_ (l : JobAttrSet.jobAttrSetLog)
| jobFinishLog_ (l : JobFinish.jobFinishLog).

Record eventRec := EventRec {
  ev_version : cstr; ev_type : Z; ev_eventTime : Z; ev_eventLog : eventLog }.

(** ** Writing a record *)

(** The switch over the types: the name of each. *)
Definition etypes : list (Z * string) :=
  [(EVENT_JOB_NEW, "JOB_NEW"); (EVENT_JOB_START, "JOB_START");
   (EVENT_JOB_START_ACCEPT, "JOB_START_ACCEPT"); (EVENT_JOB_STATUS, "JOB_STATUS");
   (EVENT_JOB_SWITCH, "JOB_SWITCH"); (EVENT_JOB_MOVE, "JOB_MOVE");
   (EVENT_QUEUE_CTRL, "QUEUE_CTRL"); (EVENT_HOST_CTRL, "HOST_CTRL");
   (EVENT_MBD_START, "MBD_START"); (EVENT_MBD_DIE, "MBD_DIE");
   (EVENT_MBD_UNFULFILL, "UNFULFILL"); (EVENT_JOB_FINISH, "JOB_FINISH");
   (EVENT_LOAD_INDEX, "LOAD_INDEX"); (EVENT_CHKPNT, "CHKPNT"); (EVENT_MIG, "MIG");
   (EVENT_PRE_EXEC_START, "PRE_EXEC_START"); (EVENT_JOB_MODIFY, "JOB_MODIFY");
   (EVENT_JOB_MODIFY2, "JOB_MODIFY2"); (EVENT_JOB_ATTR_SET, "JOB_ATTR_SET");
   (EVENT_JOB_SIGNAL, "JOB_SIGNAL"); (EVENT_JOB_EXECUTE, "JOB_EXECUTE");
   (EVENT_JOB_MSG, "JOB_MSG"); (EVENT_JOB_MSG_ACK, "JOB_MSG_ACK");
   (EVENT_JOB_REQUEUE, "JOB_REQUEUE"); (EVENT_JOB_CLEAN, "JOB_CLEAN");
   (EVENT_JOB_SIGACT, "JOB_SIGACT"); (EVENT_SBD_JOB_STATUS, "SBD_JOB_STATUS");
   (EVENT_JOB_FORCE, "JOB_FORCE"); (EVENT_LOG_SWITCH, "LOG_SWITCH")]%string.

Definition etype_of (type : Z) : option cstr :=
  match List.find (fun p => fst p =? type) etypes with Some p => Some (lit (snd p)) | None => None end.

(** The outcome of a writer of the union's member [w]. *)
Definition put_log (type : Z) (log : eventLog) : outcome cstr :=
  let from_opt o := match o with Some t => Ok t | None => Wild end in
  if (type =? EVENT_JOB_NEW) || (type =? EVENT_JOB_MODIFY) then
    match log with jobNewLog_ l => Ok (JobNew.writeJobNew l) | _ => Wild end
  else if type =? EVENT_JOB_MODIFY2 then
    match log with jobModLog_ l => from_opt (JobMod.writeJobMod l) | _ => Wild end
  else if (type =? EVENT_PRE_EXEC_START) || (type =? EVENT_JOB_START) then
    match log with jobStartLog_ l => Ok (JobStart.writeJobStart l) | _ => Wild end
  else if type =? EVENT_JOB_START_ACCEPT then
    match log with jobStartAcceptLog_ l => Ok (JobStartAccept.writeJobStartAccept l) | _ => Wild end
  else if type =? EVENT_JOB_STATUS then
    match log with jobStatusLog_ l => Ok (JobStatusEvent.writeJobStatus l) | _ => Wild end
  else if type =? EVENT_SBD_JOB_STATUS then
    match log with sbdJobStatusLog_ l => Ok (SbdJobStatus.writeSbdJobStatus l) | _ => Wild end
  else if type =? EVENT_JOB_SWITCH then
    match log with jobSwitchLog_ l => Ok (JobSwitch.writeJobSwitch l) | _ => Wild end
  else if type =? EVENT_JOB_MOVE then
    match log with jobMoveLog_ l => Ok (JobMove.writeJobMove l) | _ => Wild end
  else if type =? EVENT_QUEUE_CTRL then
    match log with queueCtrlLog_ l => Ok (QueueCtrl.writeQueueCtrl l) | _ => Wild end
  else if type =? EVENT_HOST_CTRL then
    match log with hostCtrlLog_ l => Ok (HostCtrl.writeHostCtrl l) | _ => Wild end
  else if type =? EVENT_MBD_START then
    match log with mbdStartLog_ l => Ok (MbdStart.writeMbdStart l) | _ => Wild end
  else if type =? EVENT_MBD_DIE then
    match log with mbdDieLog_ l => Ok (MbdDie.writeMbdDie l) | _ => Wild end
  else if type =? EVENT_MBD_UNFULFILL then
    match log with unfulfillLog_ l => Ok (Unfulfill.writeUnfulfill l) | _ => Wild end
  else if type =? EVENT_LOAD_INDEX then
    match log with loadIndexLog_ l => Ok (LoadIndex.writeLoadIndex l) | _ => Wild end
  else if type =? EVENT_JOB_FINISH then
    match log with jobFinishLog_ l => Ok (JobFinish.writeJobFinish l) | _ => Wild end
  else if type =? EVENT_CHKPNT then
    match log with chkpntLog_ l => Ok (Chkpnt.writeChkpnt l) | _ => Wild end
  else if type =? EVENT_MIG then
    match log with migLog_ l => Ok (Mig.writeMig l) | _ => Wild end
  else if type =? EVENT_JOB_ATTR_SET then
    match log with jobAttrSetLog_ l => Ok (JobAttrSet.writeJobAttrSet l) | _ => Wild end
  else if type =? EVENT_JOB_SIGNAL then
    match log with signalLog_ l => Ok (JobSignal.writeJobSignal l) | _ => Wild end
  else if type =? EVENT_JOB_EXECUTE then
    match log with jobExecuteLog_ l => Ok (JobExecute.writeJobExecute l) | _ => Wild end
  else if type =? EVENT_JOB_MSG then
    match log with jobMsgLog_ l => Ok (JobMsg.writeJobMsg l) | _ => Wild end
  else if type =? EVENT_JOB_MSG_ACK then
    match log with jobMsgLog_ l => Ok (JobMsg.writeJobMsgAck l) | _ => Wild end
  else if type =? EVENT_JOB_SIGACT then
    match log with sigactLog_ l => Ok (JobSigAct.writeJobSigAct l) | _ => Wild end
  else if type =? EVENT_JOB_REQUEUE then
    match log with jobRequeueLog_ l => Ok (JobRequeueEvent.writeJobRqueue l) | _ => Wild end
  else if type =? EVENT_JOB_CLEAN then
    match log with jobCleanLog_ l => Ok (JobClean.writeJobClean l) | _ => Wild end
  else if type =? EVENT_JOB_FORCE then
    match log with jobForceRequestLog_ l => Ok (JobForce.writeJobForce l) | _ => Wild end
  else if type =? EVENT_LOG_SWITCH then
    match log with logSwitchLog_ l => Ok (LogSwitch.writeLogSwitch l) | _ => Wild end
  else Ok [].

(** What is appended to the file; [Err] is the code in [lsberrno]. *)
Definition lsb_puteventrec (logPtr : eventRec) : outcome cstr :=
  match etype_of (ev_type logPtr) with
  | None => Err LSBE_UNKNOWN_EVENT
  | Some etype =>
      match put_log (ev_type logPtr) (ev_eventLog logPtr) with
      | Ok text =>
          Ok ([QUOTE] ++ etype ++ [QUOTE] ++ put_s (ev_version logPtr) ++
              put_d (ev_eventTime logPtr) ++ text)
      | Err e => Err e
      | Wild => Wild
      end
  end.

(** ** Reading a record *)

Definition EVENT_JOB_RELATED : Z := 1.
Definition EVENT_NON_JOB_RELATED : Z := 0.

(** The chain of [strcmp]. *)
Definition type_names : list (string * Z) :=
  [("JOB_NEW", EVENT_JOB_NEW); ("JOB_START", EVENT_JOB_START);
   ("JOB_START_ACCEPT", EVENT_JOB_START_ACCEPT); ("JOB_STATUS", EVENT_JOB_STATUS);
   ("SBD_JOB_STATUS", EVENT_SBD_JOB_STATUS); ("JOB_EXECUTE", EVENT_JOB_EXECUTE);
   ("JOB_CLEAN", EVENT_JOB_CLEAN); ("JOB_SWITCH", EVENT_JOB_SWITCH);
   ("JOB_MOVE", EVENT_JOB_MOVE); ("JOB_FINISH", EVENT_JOB_FINISH);
   ("LOAD_INDEX", EVENT_LOAD_INDEX); ("CHKPNT", EVENT_CHKPNT); ("MIG", EVENT_MIG);
   ("PRE_EXEC_START", EVENT_PRE_EXEC_START); ("JOB_MODIFY", EVENT_JOB_MODIFY);
   ("JOB_MODIFY2", EVENT_JOB_MODIFY2); ("JOB_ATTR_SET", EVENT_JOB_ATTR_SET);
   ("QUEUE_CTRL", EVENT_QUEUE_CTRL); ("HOST_CTRL", EVENT_HOST_CTRL);
   ("MBD_START", EVENT_MBD_START); ("MBD_DIE", EVENT_MBD_DIE);
   ("UNFULFILL", EVENT_MBD_UNFULFILL); ("JOB_SIGNAL", EVENT_JOB_SIGNAL);
   ("JOB_MSG", EVENT_JOB_MSG); ("JOB_MSG_ACK", EVENT_JOB_MSG_ACK);
   ("JOB_REQUEUE", EVENT_JOB_REQUEUE); ("JOB_SIGACT", EVENT_JOB_SIGACT);
   ("JOB_FORCE", EVENT_JOB_FORCE); ("LOG_SWITCH", EVENT_LOG_SWITCH)]%string.

Definition job_events : list Z :=
  [EVENT_JOB_NEW; EVENT_JOB_START; EVENT_JOB_START_ACCEPT; EVENT_JOB_STATUS;
   EVENT_SBD_JOB_STATUS; EVENT_JOB_SWITCH; EVENT_JOB_MOVE; EVENT_JOB_FINISH; EVENT_CHKPNT;
   EVENT_MIG; EVENT_PRE_EXEC_START; EVENT_JOB_MODIFY; EVENT_JOB_MODIFY2; EVENT_JOB_ATTR_SET;
   EVENT_JOB_SIGNAL; EVENT_JOB_EXECUTE; EVENT_JOB_MSG; EVENT_JOB_MSG_ACK; EVENT_JOB_REQUEUE;
   EVENT_JOB_CLEAN; EVENT_JOB_SIGACT; EVENT_JOB_FORCE].

Definition in_list (z : Z) (l : list Z) : bool := existsb (Z.eqb z) l.

(** The type, or [None] with [lsberrno = LSBE_UNKNOWN_EVENT], and the kind. *)
Definition getEventTypeAndKind (typeStr : cstr) : option Z * Z :=
  match List.find (fun p => bool_decide (lit (fst p) = typeStr)) type_names with
  | None => (None, EVENT_NON_JOB_RELATED)
  | Some p => (Some (snd p), if in_list (snd p) job_events then EVENT_JOB_RELATED
                             else EVENT_NON_JOB_RELATED)
  end.

(** The member of the union for a type, read from the rest of the line; [Err] is
    what is put in [lsberrno].  [getEventTypeAndKind] gives no other type. *)
Definition readEventRecord (type eventTime : Z) : reader eventLog :=
  if (type =? EVENT_JOB_NEW) || (type =? EVENT_JOB_MODIFY) then
    l ← JobNew.readJobNew; mret (jobNewLog_ l)
  else if type =? EVENT_JOB_MODIFY2 then l ← JobMod.readJobMod; mret (jobModLog_ l)
  else if (type =? EVENT_PRE_EXEC_START) || (type =? EVENT_JOB_START) then
    l ← JobStart.readJobStart; mret (jobStartLog_ l)
  else if type =? EVENT_JOB_START_ACCEPT then
    l ← JobStartAccept.readJobStartAccept; mret (jobStartAcceptLog_ l)
  else if type =? EVENT_JOB_STATUS then l ← JobStatusEvent.readJobStatus; mret (jobStatusLog_ l)
  else if type =? EVENT_SBD_JOB_STATUS then
    l ← SbdJobStatus.readSbdJobStatus; mret (sbdJobStatusLog_ l)
  else if type =? EVENT_JOB_SWITCH then l ← JobSwitch.readJobSwitch; mret (jobSwitchLog_ l)
  else if type =? EVENT_JOB_MOVE then l ← JobMove.readJobMove; mret (jobMoveLog_ l)
  else if type =? EVENT_QUEUE_CTRL then l ← QueueCtrl.readQueueCtrl; mret (queueCtrlLog_ l)
  else if type =? EVENT_HOST_CTRL then l ← HostCtrl.readHostCtrl; mret (hostCtrlLog_ l)
  else if type =? EVENT_MBD_START then l ← MbdStart.readMbdStart; mret (mbdStartLog_ l)
  else if type =? EVENT_MBD_DIE then l ← MbdDie.readMbdDie; mret (mbdDieLog_ l)
  else if type =? EVENT_MBD_UNFULFILL then l ← Unfulfill.readUnfulfill; mret (unfulfillLog_ l)
  else if type =? EVENT_LOAD_INDEX then l ← LoadIndex.readLoadIndex; mret (loadIndexLog_ l)
  else if type =? EVENT_JOB_FINISH then
    l ← JobFinish.readJobFinish eventTime; mret (jobFinishLog_ l)
  else if type =? EVENT_CHKPNT then l ← Chkpnt.readChkpnt; mret (chkpntLog_ l)
  else if type =? EVENT_MIG then l ← Mig.readMig; mret (migLog_ l)
  else if type =? EVENT_JOB_ATTR_SET then l ← JobAttrSet.readJobAttrSet; mret (jobAttrSetLog_ l)
  else if type =? EVENT_JOB_SIGNAL then l ← JobSignal.readJobSignal; mret (signalLog_ l)
  else if type =? EVENT_JOB_EXECUTE then l ← JobExecute.readJobExecute; mret (jobExecuteLog_ l)
  else if type =? EVENT_JOB_MSG then l ← JobMsg.readJobMsg; mret (jobMsgLog_ l)
  else if type =? EVENT_JOB_MSG_ACK then l ← JobMsg.readJobMsgAck; mret (jobMsgLog_ l)
  else if type =? EVENT_JOB_SIGACT then l ← JobSigAct.readJobSigAct; mret (sigactLog_ l)
  else if type =? EVENT_JOB_REQUEUE then
    l ← JobRequeueEvent.readJobRequeue; mret (jobRequeueLog_ l)
  else if type =? EVENT_JOB_CLEAN then l ← JobClean.readJobClean; mret (jobCleanLog_ l)
  else if type =? EVENT_JOB_FORCE then l ← JobForce.readJobForce; mret (jobForceRequestLog_ l)
  else if type =? EVENT_LOG_SWITCH then l ← LogSwitch.readLogSwitch; mret (logSwitchLog_ l)
  else fail LSBE_NO_ERROR.

(** A string at the beginning of a record, with a check that the line goes on. *)
Definition header_string (maxLen : Z) : reader cstr := fun line =>
  match line with
  | None => Wild
  | Some s =>
      let '(ccount, namebuf) := stripQStr s in
      if (ccount <? 0) || (strlen s =? ccount) || (maxLen <=? strlen namebuf)
      then Err LSBE_EVENT_FORMAT
      else Ok (namebuf, advance (ccount + 1) s)
  end.

(** [(version = atof(logRec->version)) <= 0.0] with a float [version]. *)
Definition bad_version (v : cstr) : bool := SFleb (to_float (atof v)) (S754_zero false).

(** [lsb_geteventrec_ex] behind the choice of the line. *)
Definition read_record : reader eventRec :=
  etype ← header_string MAX_LSB_NAME_LEN;
  version ← header_string MAX_VERSION_LEN;
  if bad_version version then fail LSBE_EVENT_FORMAT
  else
    eventTime ← get_d;
    match fst (getEventTypeAndKind etype) with
    | None => fail LSBE_UNKNOWN_EVENT
    | Some type => log ← readEventRecord type eventTime; mret (EventRec version type eventTime log)
    end.

Definition parse_event (line : cstr) : outcome eventRec :=
  match read_record (Some line) with
  | Ok (r, _) => Ok r
  | Err e => Err e
  | Wild => Wild
  end.

Definition is_comment (line : cstr) : bool := bool_decide (head line = Some "#"%char).

(** The next line that is not a comment; [skipping] when a comment was read before.
    The flag tells whether the file is closed: it is when it ends behind a comment. *)
Fixpoint event_line (fuel : nat) (skipping : bool) (file : cstr)
    : option (option cstr * cstr * bool) :=
  match fuel with
  | O => None
  | S fuel =>
      '(l, file) ← getNextLine_ file false;
      match l with
      | Some l => if is_comment l then event_line fuel true file else Some (Some l, file, false)
      | None => Some (None, file, skipping)
      end
  end.

(** The record or the code in [lsberrno], the rest of the file, [*LineNum], and
    whether the file is closed. *)
Definition lsb_geteventrec (file : cstr) (LineNum : Z)
    : option (outcome eventRec * cstr * Z * bool) :=
  '(l, file, closed) ← event_line (line_fuel file) false file;
  Some (match l with Some l => parse_event l | None => Err LSBE_EOF end, file, LineNum + 1, closed).

(** The loop of [init_log] in mbd.log.c: it goes on behind a record that is not
    readable, until the end of the file, and closes it.  The outcomes, in order:
    mbatchd dies of LSBE_NO_MEM, which is then the last one; the last one is [Wild] when
    a reader leaves its buffer, or when the file is closed for the second time. *)
Fixpoint init_log_loop (fuel : nat) (file : cstr) (lineNum : Z) : option (list (outcome eventRec)) :=
  match fuel with
  | O => None
  | S fuel =>
      '(o, file, lineNum, closed) ← lsb_geteventrec file lineNum;
      match o with
      | Err e => if e =? LSBE_EOF then Some (if (closed : bool) then [Wild] else [])
                 else if e =? LSBE_NO_MEM then Some [o]
                 else rest ← init_log_loop fuel file lineNum; Some (o :: rest)
      | Wild => Some [o]
      | Ok _ => rest ← init_log_loop fuel file lineNum; Some (o :: rest)
      end
  end.

Definition read_log (file : cstr) : option (list (outcome eventRec)) :=
  init_log_loop (line_fuel file) file 0.

(** [lsb_readeventrecord]: a record from a line; -1 for any failure.  The time is
    stored in the lower half of a [time_t] that is 0. *)
Definition read_record_line : reader eventRec :=
  etype ← strip_buf MAXLINELEN;
  if MAX_LSB_NAME_LEN <=? strlen etype then fail (-1)
  else
    version ← strip_buf MAXLINELEN;
    if MAX_VERSION_LEN <=? strlen version then fail (-1)
    else
      t ← get_d;
      if bad_version version then fail (-1)
      else match fst (getEventTypeAndKind etype) with
           | None => fail (-1)
           | Some type =>
               log ← readEventRecord type (uint32 t);
               mret (EventRec version type (uint32 t) log)
           end.

Definition lsb_readeventrecord (line : cstr) : outcome eventRec :=
  match read_record_line (Some line) with
  | Ok (r, _) => Ok r
  | Err _ => Err (-1)
  | Wild => Wild
  end.

(** ** The records of given jobs *)

(** The conversion of a quote and [%d]. *)
Definition conv_quoted_d : reader Z :=
  conv (fun s => match s with c :: r => if ch_eqb c QUOTE then scan_d r else None | [] => None end).

Definition plain_jobid_events : list Z :=
  [EVENT_JOB_NEW; EVENT_JOB_MODIFY; EVENT_PRE_EXEC_START; EVENT_JOB_START;
   EVENT_JOB_START_ACCEPT; EVENT_JOB_STATUS; EVENT_SBD_JOB_STATUS; EVENT_JOB_FINISH;
   EVENT_CHKPNT; EVENT_MIG; EVENT_JOB_ATTR_SET; EVENT_JOB_SIGNAL; EVENT_JOB_EXECUTE;
   EVENT_JOB_MSG; EVENT_JOB_MSG_ACK; EVENT_JOB_SIGACT; EVENT_JOB_REQUEUE; EVENT_JOB_CLEAN;
   EVENT_JOB_FORCE].

(** The conversion that yields the job number of an event, if there is one. *)
Definition event_jobid (eventType : Z) : option (reader Z) :=
  if in_list eventType plain_jobid_events then Some conv_d
  else if eventType =? EVENT_JOB_MODIFY2 then Some conv_quoted_d
  else if (eventType =? EVENT_JOB_SWITCH) || (eventType =? EVENT_JOB_MOVE) then
    Some (tempUserId ← conv_d; conv_d)
  else None.

(** Whether the record belongs to one of the jobs; all do when [jobIds] is empty. *)
Definition checkJobEventAndJobId (line : option cstr) (eventType : Z) (jobIds : list Z)
    : outcome bool :=
  match event_jobid eventType with
  | None => Ok false
  | Some scan =>
      match scan line with
      | Wild => Wild
      | Err _ => Ok true
      | Ok (eventJobId, _) =>
          Ok (bool_decide (jobIds = []) || (eventType =? EVENT_JOB_NEW) ||
              existsb (fun j => LSB_ARRAY_JOBID j =? eventJobId) jobIds)
      end
  end.

Definition getJobIdFromEvent (line : option cstr) (eventType : Z) : outcome Z :=
  match event_jobid eventType with
  | None => Ok 0
  | Some scan =>
      match scan line with
      | Wild => Wild
      | Err _ => Ok 0
      | Ok (eventJobId, _) => Ok eventJobId
      end
  end.

Definition check_job (type : Z) (jobIds : list Z) : reader bool := fun line =>
  match checkJobEventAndJobId line type jobIds with
  | Ok b => Ok (b, line)
  | Err e => Err e
  | Wild => Wild
  end.

(** What a line is for [lsbGetNextJobRecFromFile]: [None] when it goes on with the
    next line. *)
Definition job_record (jobIds : list Z) : reader (option eventRec) :=
  nameBuf ← strip_buf MAXLINELEN;
  if MAX_LSB_NAME_LEN <=? strlen nameBuf then fail LSBE_EVENT_FORMAT
  else
    let '(type, eventKind) := getEventTypeAndKind nameBuf in
    match type with
    | None => mret None
    | Some type =>
        if negb (eventKind =? EVENT_JOB_RELATED) then mret None
        else
          version ← strip_buf MAXLINELEN;
          if (MAX_VERSION_LEN <=? strlen version) || bad_version version
          then fail LSBE_EVENT_FORMAT
          else
            eventTime ← get_d;
            mine ← check_job type jobIds;
            if negb mine then mret None
            else log ← readEventRecord type eventTime;
                 mret (Some (EventRec version type eventTime log))
    end.

Fixpoint next_job_record (fuel : nat) (file : cstr) (lineNum : Z) (jobIds : list Z)
    : option (outcome eventRec * cstr * Z) :=
  match fuel with
  | O => None
  | S fuel =>
      '(l, file) ← getNextLine_ file false;
      match l with
      | None => Some (Err LSBE_EOF, file, lineNum + 1)
      | Some l =>
          if is_comment l then next_job_record fuel file (lineNum + 1) jobIds
          else match job_record jobIds (Some l) with
               | Wild => Some (Wild, file, lineNum + 1)
               | Err e => Some (Err e, file, lineNum + 1)
               | Ok (Some r, _) => Some (Ok r, file, lineNum + 1)
               | Ok (None, _) => next_job_record fuel file (lineNum + 1) jobIds
               end
      end
  end.

Definition lsbGetNextJobRecFromFile (logFp : cstr) (lineNum : Z) (jobIds : list Z)
    : option (outcome eventRec * cstr * Z) :=
  next_job_record (line_fuel logFp) logFp lineNum jobIds.
