(* ===== verification/EventLaws.v ===== *)
(** * Laws of event records: what the proofs on all kinds of events share

    [event_law] says that a text consists of given fields and that a reader takes
    a given record from them; the tactics below prove it for the straight-line
    code of [EventLog]. *)

From S2P Require Import Prelude CLib Xdr LsbXdr Words Stdio EventText EventLog.
From Stdlib Require Import SpecFloat.

(** ** The texts that keep to one line *)

Definition clean_ch (c : ascii) : bool := negb (ch_eqb c NEWLINE) && negb (ch_eqb c NUL).

(** A string without a newline, as a field of a record must be. *)
Definition clean (s : cstr) : bool := forallb clean_ch s.

(** A string that the reader accepts for a [char] array. *)
Definition clean_fits (maxLen : Z) (nonNil : bool) (s : cstr) : bool :=
  clean s && fits maxLen nonNil s.

(** A string for a buffer of [size] characters. *)
Definition clean_buf (size : Z) (s : cstr) : bool := clean s && (strlen s <? size).

(** The count of an array is the number of its elements. *)
Definition counted {A} (n : Z) (a : list A) : bool := (n =? Z.of_nat (length a)) && (n <? 2 ^ 31).

Definition in_int (z : Z) : bool := (- 2 ^ 31 <=? z) && (z <? 2 ^ 31).

Lemma in_int_spec z : in_int z = true -> int32 z = z.
Proof.
  unfold in_int. intros H. breflect. apply sint_of_id; [done|]. unfold in_sint. simpl. lia.
Qed.

Lemma counted_spec {A} n (a : list A) : counted n a = true ->
  n = Z.of_nat (length a) /\ int32 n = n /\ 0 <= n.
Proof.
  unfold counted. intros H. breflect. split_and!; [done| |lia].
  apply in_int_spec. unfold in_int. apply andb_true_iff. split; [apply Z.leb_le|apply Z.ltb_lt]; lia.
Qed.

Lemma clean_app s t : clean (s ++ t) = clean s && clean t.
Proof. apply forallb_app. Qed.

Lemma clean_Forall s : Forall (fun c => clean_ch c = true) s -> clean s = true.
Proof. intros H. apply forallb_forall. intros c Hc. rewrite Forall_forall in H. apply H. by apply list_elem_of_In. Qed.

Lemma clean_plain_ch c : spaced c = c -> c <> BLANK -> c <> NUL -> clean_ch c = true.
Proof.
  intros Hs Hb Hn. unfold clean_ch. apply andb_true_iff.
  split; apply negb_true_iff, ch_eqb_neq; [|done]. intros ->. done.
Qed.

Lemma clean_digits s : Forall (fun c => isdigit c = true) s -> clean s = true.
Proof.
  intros H. apply clean_Forall. eapply Forall_impl; [exact H|]. intros c Hc.
  apply clean_plain_ch; [|by intros ->..]. unfold spaced. by rewrite isdigit_not_space.
Qed.

Lemma clean_replicate n c : clean_ch c = true -> clean (replicate n c) = true.
Proof. intros. apply clean_Forall. by apply Forall_replicate. Qed.

Lemma clean_num z : clean (num_field z) = true.
Proof.
  unfold num_field, print_Z. case_if; breflect; [simpl|];
    apply clean_digits, print_nat_spec; lia.
Qed.

Lemma clean_print_fixed p n : 0 <= n -> clean (print_fixed p n) = true.
Proof.
  intros Hn. destruct (print_fixed_digits p n Hn) as (ip & fp & Hip & _ & Hfp & _ & _ & ->).
  rewrite clean_app, clean_digits by done. destruct p; [done|]. simpl. by apply clean_digits.
Qed.

Lemma clean_print_f w p x : clean (print_f w p x) = true.
Proof.
  unfold print_f, pad. rewrite clean_app, clean_replicate by done.
  assert (forall s, clean (sign_text s) = true) as Hs by by intros [].
  destruct x as [s|s| |s m e]; [| |done|]; rewrite clean_app, Hs; [|done|];
    by rewrite clean_print_fixed by (done || apply scaled_nonneg).
Qed.

Lemma clean_quoted s : clean s = true -> clean (quoted s) = true.
Proof.
  intros Hs. unfold quoted. simpl. rewrite clean_app, andb_true_r. unfold clean in *.
  induction s as [|c s IH]; [done|]. simpl in Hs. apply andb_true_iff in Hs as [Hc Hs].
  rewrite double_quotes_cons, forallb_app, (IH Hs), andb_true_r.
  destruct (ch_eqb c QUOTE); simpl; by rewrite Hc.
Qed.

(** ** Texts that do not end in white space *)

Definition visible (s : cstr) : Prop := exists s' c, s = s' ++ [c] /\ isspace c = false.

Lemma visible_app s t : visible t -> visible (s ++ t).
Proof. intros (t' & c & -> & Hc). exists (s ++ t'), c. by rewrite app_assoc. Qed.

Lemma visible_cons c s : visible s -> visible (c :: s).
Proof. apply (visible_app [c]). Qed.

Lemma visible_digits s : s <> [] -> Forall (fun c => isdigit c = true) s -> visible s.
Proof.
  intros Hne H. destruct s as [|c s] using rev_ind; [done|]. exists s, c. split; [done|].
  apply Forall_app in H as [_ H]. inversion H; subst. by apply isdigit_not_space.
Qed.

Lemma visible_num z : visible (num_field z).
Proof.
  unfold num_field, print_Z. case_if; breflect; [apply visible_cons|];
    (apply visible_digits; apply print_nat_spec; lia).
Qed.

Lemma visible_quoted s : visible (quoted s).
Proof. exists (QUOTE :: double_quotes s), QUOTE. done. Qed.

Lemma visible_sep_cons f fs : visible (sep fs) -> visible (sep (f :: fs)).
Proof. intros. rewrite sep_cons. by apply visible_cons, visible_app. Qed.

Lemma visible_sep_app a b : visible (sep b) -> visible (sep (a ++ b)).
Proof. intros. rewrite sep_app. by apply visible_app. Qed.

Lemma visible_sep_last f : visible f -> visible (sep [f]).
Proof. intros. rewrite sep_cons. apply visible_cons. by rewrite app_nil_r. Qed.

(** ** Fields and text *)

(** The text of the fields, followed by [t]. *)
Fixpoint sep_to (fs : list cstr) (t : cstr) : cstr :=
  match fs with
  | [] => t
  | f :: fs => BLANK :: f ++ sep_to fs t
  end.

Lemma sep_to_sep fs t : sep_to fs t = sep fs ++ t.
Proof.
  induction fs as [|f fs IH]; [done|]. rewrite sep_cons. simpl. by rewrite IH, <- app_assoc.
Qed.

Lemma sep_to_app a b t : sep_to (a ++ b) t = sep_to a (sep_to b t).
Proof. induction a as [|f a IH]; [done|]. simpl. by rewrite IH. Qed.

Lemma sep_to_array {A} (put : A -> cstr) (flds : A -> list cstr) n (a : list A) fs t :
  counted n a = true -> Forall (fun x => forall u, put x ++ u = sep_to (flds x) u) a ->
  sep_to (flat_map flds a ++ fs) t = put_array put n a ++ sep_to fs t.
Proof.
  intros Hn Ha. apply counted_spec in Hn as (-> & _ & _). unfold put_array.
  rewrite Nat2Z.id, firstn_all. rewrite sep_to_app.
  induction Ha as [|x a Hx _ IH]; [done|]. simpl. by rewrite sep_to_app, IH, <- app_assoc, Hx.
Qed.

Lemma flat_map_single {A} (f : A -> cstr) a : flat_map (fun x => [f x]) a = map f a.
Proof. induction a as [|x a IH]; [done|]. simpl. by rewrite IH. Qed.

Lemma sep_to_strings n hs fs t : counted n hs = true ->
  sep_to (map quoted hs ++ fs) t = put_array addQStr n hs ++ sep_to fs t.
Proof.
  intros Hn. rewrite <- flat_map_single. apply sep_to_array; [done|].
  apply Forall_forall. intros x _ u. done.
Qed.

Lemma sep_to_numbers n a fs t : counted n a = true ->
  sep_to (map num_field a ++ fs) t = put_array put_d n a ++ sep_to fs t.
Proof.
  intros Hn. rewrite <- flat_map_single. apply sep_to_array; [done|].
  apply Forall_forall. intros x _ u. done.
Qed.

Lemma sep_to_if (c : bool) a fs t :
  sep_to ((if c then a else []) ++ fs) t = (if c then sep a else []) ++ sep_to fs t.
Proof. rewrite sep_to_app, sep_to_sep. by destruct c. Qed.

Lemma sep_single f : sep [f] = BLANK :: f.
Proof. rewrite sep_cons. by rewrite app_nil_r. Qed.

(** ** The law of an event *)

Definition reads {A} (r : reader A) (line : option cstr) (a : A) : Prop :=
  exists line', r line = Ok (a, line').

Lemma reads_ret {A} (a : A) line : reads (mret a) line a.
Proof. by exists line. Qed.

Lemma reads_bind {A B} (r : reader A) (k : A -> reader B) line line' a b :
  r line = Ok (a, line') -> reads (k a) line' b -> reads (r ≫= k) line b.
Proof. intros Hr (l & Hk). exists l. by rewrite (bind_Ok _ _ _ _ _ Hr). Qed.

Definition event_law {A} (read : reader A) (text : cstr) (fs : list cstr) (a : A) : Prop :=
  (exists n, text = sep_to fs (replicate n BLANK ++ newline)) /\
  Forall (fun f => clean f = true) fs /\ visible (sep fs) /\ reads read (at_field fs) a.

(** *** Readers of more than one field *)

Lemma get_d_at z fs : get_d (at_field (num_field z :: fs)) = Ok (int32 z, at_field fs).
Proof. unfold get_d. by rewrite (bind_Ok _ _ _ _ _ (conv_d_at z fs)). Qed.

Lemma peek_conv_d z fs :
  peek conv_d (at_field (num_field z :: fs)) = Ok (int32 z, at_field (num_field z :: fs)).
Proof. unfold peek. by rewrite conv_d_at. Qed.

Lemma no_quote_num z : no_quote (num_field z).
Proof.
  assert (forall n, 0 <= n -> no_quote (print_nat n)) as Hn.
  { intros n Hn. eapply Forall_impl; [by apply print_nat_spec|]. intros c Hc.
    apply ch_eqb_neq. by intros ->. }
  unfold num_field, print_Z. case_if; breflect; [constructor; [done|]|]; apply Hn; lia.
Qed.

Lemma read_array_law {A B} (r : reader A) (flds : B -> list cstr) (val : B -> A) a fs :
  Forall (fun x => forall fs, r (at_field (flds x ++ fs)) = Ok (val x, at_field fs)) a ->
  read_array (length a) r (at_field (flat_map flds a ++ fs)) = Ok (map val a, at_field fs).
Proof.
  intros Ha. induction Ha as [|x a Hx _ IH]; [done|]. simpl. rewrite <- app_assoc.
  rewrite (bind_Ok _ _ _ _ _ (Hx _)). by rewrite (bind_Ok _ _ _ _ _ IH).
Qed.

Lemma for_n_law {A B} (r : reader A) (flds : B -> list cstr) (val : B -> A) n a fs :
  counted n a = true ->
  Forall (fun x => forall fs, r (at_field (flds x ++ fs)) = Ok (val x, at_field fs)) a ->
  for_n (int32 n) r (at_field (flat_map flds a ++ fs)) = Ok (map val a, at_field fs).
Proof.
  intros Hn Ha. apply counted_spec in Hn as (-> & -> & _). unfold for_n. rewrite Nat2Z.id.
  by apply read_array_law.
Qed.

Lemma for_n_strings (r : reader cstr) n hs fs : counted n hs = true ->
  Forall (fun s => forall fs, r (at_field (quoted s :: fs)) = Ok (blanked s, at_field fs)) hs ->
  for_n (int32 n) r (at_field (map quoted hs ++ fs)) = Ok (map blanked hs, at_field fs).
Proof. intros Hn Hh. rewrite <- flat_map_single. by apply for_n_law. Qed.

Lemma for_n_strip size n hs fs : counted n hs = true -> forallb (clean_buf size) hs = true ->
  for_n (int32 n) (strip_buf size) (at_field (map quoted hs ++ fs)) = Ok (map blanked hs, at_field fs).
Proof.
  intros Hn Hh. apply for_n_strings; [done|]. apply Forall_forall. intros s Hs fs'.
  apply strip_buf_at. rewrite forallb_forall in Hh. apply list_elem_of_In, Hh in Hs.
  unfold clean_buf in Hs. by breflect.
Qed.

Lemma for_n_save n hs fs : counted n hs = true ->
  for_n (int32 n) saveQStr (at_field (map quoted hs ++ fs)) = Ok (map blanked hs, at_field fs).
Proof.
  intros Hn. apply for_n_strings; [done|]. apply Forall_forall. intros s _ fs'. apply saveQStr_at.
Qed.

Lemma for_n_numbers n a fs : Z.of_nat (length a) = n ->
  for_n n get_d (at_field (map num_field a ++ fs)) = Ok (map int32 a, at_field fs).
Proof.
  intros <-. unfold for_n. rewrite Nat2Z.id, <- flat_map_single. apply read_array_law.
  apply Forall_forall. intros z _ fs'. apply get_d_at.
Qed.

Lemma calloc_counted {A} n (a : list A) line : counted n a = true ->
  calloc (int32 n) line = Ok (tt, line).
Proof. intros Hn. apply counted_spec in Hn as (_ & -> & H). unfold calloc. case_if; breflect; [lia|done]. Qed.

Lemma read_if_law {A} (c : bool) (other : A) r flds fs a :
  (c = true -> r (at_field (flds ++ fs)) = Ok (a, at_field fs)) ->
  read_if c other r (at_field ((if c then flds else []) ++ fs)) = Ok (if c then a else other, at_field fs).
Proof. destruct c; [|done]. intros H. by apply H. Qed.

(** *** Automation *)

Lemma clean_fits_clean maxLen nonNil s : clean_fits maxLen nonNil s = true -> clean s = true.
Proof. unfold clean_fits. by intros [? _]%andb_true_iff. Qed.

Lemma clean_fits_fits maxLen nonNil s : clean_fits maxLen nonNil s = true -> fits maxLen nonNil s = true.
Proof. unfold clean_fits. by intros [_ ?]%andb_true_iff. Qed.

Lemma clean_buf_clean size s : clean_buf size s = true -> clean s = true.
Proof. unfold clean_buf. by intros [? _]%andb_true_iff. Qed.

Lemma clean_buf_lt size s : clean_buf size s = true -> strlen s < size.
Proof. unfold clean_buf. intros [_ H]%andb_true_iff. by apply Z.ltb_lt. Qed.

Lemma clean_strings size hs : forallb (clean_buf size) hs = true ->
  Forall (fun f => clean f = true) (map quoted hs).
Proof.
  intros H. rewrite Forall_map. apply Forall_forall. intros s Hs. apply clean_quoted.
  rewrite forallb_forall in H. apply list_elem_of_In, H in Hs. by apply clean_buf_clean in Hs.
Qed.

Lemma clean_numbers a : Forall (fun f => clean f = true) (map num_field a).
Proof. rewrite Forall_map. apply Forall_forall. intros z _. apply clean_num. Qed.

#[export] Hint Resolve clean_num clean_print_f clean_quoted clean_fits_clean clean_fits_fits
  clean_buf_clean clean_buf_lt clean_strings clean_numbers visible_num visible_quoted : event.

Ltac split_wf :=
  repeat match goal with
  | H : (_ && _)%bool = true |- _ => apply andb_true_iff in H; destruct H
  end.

(** One step of a reader. *)
Ltac read_step :=
  eapply reads_bind;
  [ first
      [ apply conv_d_at | apply conv_d_after | apply conv_float_at | apply conv_float_after
      | apply next_after | apply get_d_at | apply peek_conv_d | apply saveQStr_at
      | apply copyQStr_at; by eauto with event
      | apply strip_buf_at; by eauto with event
      | apply (copyQStr_skip _ _ [_]); [by repeat constructor; apply no_quote_num|by eauto with event]
      | apply for_n_strip; done
      | apply for_n_save; done
      | eapply calloc_counted; done ]
  | cbv beta ].

Ltac reads := repeat read_step; apply reads_ret.

Ltac clean_fields :=
  repeat first
    [ apply Forall_nil_2 | apply Forall_cons_2 | apply Forall_app_2 | by eauto with event ].

Ltac visible_fields :=
  repeat first
    [ apply visible_sep_last; by eauto with event
    | apply visible_sep_cons | apply visible_sep_app ].
