(* ===== verification/EventRoundTrip.v ===== *)
(** * What is written to the event log is read back

    For each kind of event: the fields of its record ([fields]), the records that
    can be read ([wf]), what is read ([norm]), and the law that says so.  [norm]
    differs from the record that was written in what the text of the log does not
    hold: ints keep their lower 32 bits, white space in strings becomes blanks,
    floating-point numbers are rounded to the printed decimals. *)

From S2P Require Import Prelude CLib HashTable JobId Xdr LsbXdr Words Stdio EventText EventLog.
From S2P Require Import EventLaws.
From Stdlib Require Import SpecFloat.

(** Proves a law whose reader runs straight through. *)
Ltac event_law :=
  intros ?Hwf;
  match type of Hwf with ?wf _ = true => unfold wf in Hwf end;
  match goal with
  | |- event_law ?read (?write _) (?fields _) (?norm _) => unfold read, write, fields, norm
  | |- event_law (?read _) (?write _) (?fields _) (?norm _ _) => unfold read, write, fields, norm
  end;
  split_wf; split; [| split; [clean_fields | split; [visible_fields | try reads]]].

Module JobSwitchLaw.
Import JobSwitch.

Definition fields (l : jobSwitchLog) : list cstr :=
  [num_field (userId l); num_field (jobId l); quoted (queue l); num_field (idx l);
   quoted (userName l)].

Definition wf (l : jobSwitchLog) : bool :=
  clean_fits MAX_LSB_NAME_LEN true (queue l) && clean_fits MAX_LSB_NAME_LEN true (userName l).

Definition norm (l : jobSwitchLog) : jobSwitchLog :=
  JobSwitchLog (int32 (userId l)) (int32 (jobId l)) (blanked (queue l)) (int32 (idx l))
    (blanked (userName l)).

Lemma JobSwitch_law l : wf l = true -> event_law readJobSwitch (writeJobSwitch l) (fields l) (norm l).
Proof. event_law. by exists 0%nat. Qed.

End JobSwitchLaw.

Module JobMoveLaw.
Import JobMove.

Definition fields (l : jobMoveLog) : list cstr :=
  [num_field (userId l); num_field (jobId l); num_field (position l); num_field (base l);
   num_field (idx l); quoted (userName l)].

Definition wf (l : jobMoveLog) : bool := clean_fits MAX_LSB_NAME_LEN true (userName l).

Definition norm (l : jobMoveLog) : jobMoveLog :=
  JobMoveLog (int32 (userId l)) (int32 (jobId l)) (int32 (position l)) (int32 (base l))
    (int32 (idx l)) (blanked (userName l)).

Lemma JobMove_law l : wf l = true -> event_law readJobMove (writeJobMove l) (fields l) (norm l).
Proof. event_law. by exists 0%nat. Qed.

End JobMoveLaw.

Module MigLaw.
Import Mig.

Definition fields (l : migLog) : list cstr :=
  [num_field (jobId l); num_field (numAskedHosts l)] ++ map quoted (askedHosts l) ++
  [num_field (userId l); num_field (idx l); quoted (userName l)].

Definition wf (l : migLog) : bool :=
  counted (numAskedHosts l) (askedHosts l) && forallb (clean_buf MAXHOSTNAMELEN) (askedHosts l) &&
  clean_fits MAX_LSB_NAME_LEN true (userName l).

Definition norm (l : migLog) : migLog :=
  MigLog (int32 (jobId l)) (int32 (numAskedHosts l)) (map blanked (askedHosts l))
    (int32 (userId l)) (int32 (idx l)) (blanked (userName l)).

Lemma Mig_law l : wf l = true -> event_law readMig (writeMig l) (fields l) (norm l).
Proof. event_law. exists 0%nat. rewrite sep_to_app, (sep_to_strings (numAskedHosts l)); done. Qed.

End MigLaw.

Module JobSignalLaw.
Import JobSignal.

Definition fields (l : signalLog) : list cstr :=
  [num_field (jobId l); num_field (userId l); num_field (runCount l); quoted (signalSymbol l);
   num_field (idx l); quoted (userName l)].

Definition wf (l : signalLog) : bool :=
  clean_buf MAXLINELEN (signalSymbol l) && clean_fits MAX_LSB_NAME_LEN true (userName l).

Definition norm (l : signalLog) : signalLog :=
  SignalLog (int32 (userId l)) (int32 (jobId l)) (blanked (signalSymbol l)) (int32 (runCount l))
    (int32 (idx l)) (blanked (userName l)).

Lemma JobSignal_law l : wf l = true -> event_law readJobSignal (writeJobSignal l) (fields l) (norm l).
Proof. event_law. by exists 0%nat. Qed.

End JobSignalLaw.

Module JobForceLaw.
Import JobForce.

(** The second blank makes an empty field. *)
Definition fields (l : jobForceRequestLog) : list cstr :=
  [num_field (jobId l); num_field (userId l); num_field (idx l); num_field (options l);
   num_field (numExecHosts l); []] ++ map quoted (execHosts l) ++ [quoted (userName l)].

Definition wf (l : jobForceRequestLog) : bool :=
  counted (numExecHosts l) (execHosts l) && forallb (clean_buf MAXLINELEN) (execHosts l) &&
  clean_fits MAX_LSB_NAME_LEN true (userName l).

Definition norm (l : jobForceRequestLog) : jobForceRequestLog :=
  JobForceRequestLog (int32 (userId l)) (int32 (numExecHosts l)) (map blanked (execHosts l))
    (int32 (jobId l)) (int32 (idx l)) (int32 (options l)) (blanked (userName l)).

(** The first string that is read skips the empty field. *)
Lemma read_hosts n hs s : counted n hs = true -> forallb (clean_buf MAXLINELEN) hs = true ->
  clean_fits MAX_LSB_NAME_LEN true s = true ->
  exists line,
    for_n (int32 n) (strip_buf MAXLINELEN) (at_field ([] :: map quoted hs ++ [quoted s])) =
      Ok (map blanked hs, line) /\
    copyQStr MAX_LSB_NAME_LEN true line = Ok (blanked s, at_field []).
Proof.
  intros Hn Hh Hs. destruct hs as [|h hs].
  - apply counted_spec in Hn as (-> & -> & _). eexists. split; [done|].
    apply (copyQStr_skip _ _ [[]]); [by repeat constructor|by eauto with event].
  - eexists. split; [|by apply copyQStr_at; eauto with event].
    rewrite <- (for_n_strip MAXLINELEN n (h :: hs)) by done.
    apply counted_spec in Hn as (-> & -> & _). unfold for_n. rewrite Nat2Z.id. simpl.
    simpl in Hh. apply andb_true_iff in Hh as [Hc _].
    destruct (skip_fields [[]] h (map quoted hs ++ [quoted s])) as (b & Hb & Hat);
      [by repeat constructor|].
    erewrite bind_Ok; [|simpl in Hat; rewrite Hat; apply strip_buf_quoted; by eauto with event].
    pose proof (strip_buf_at MAXLINELEN h (map quoted hs ++ [quoted s]) ltac:(by eauto with event)) as E.
    by rewrite (bind_Ok _ _ _ _ _ E).
Qed.

Lemma JobForce_law l : wf l = true -> event_law readJobForce (writeJobForce l) (fields l) (norm l).
Proof.
  intros Hwf. unfold wf in Hwf. split_wf. unfold readJobForce, writeJobForce, fields, norm.
  split; [|split; [clean_fields|split; [visible_fields|]]].
  - exists 0%nat. rewrite sep_to_app, (sep_to_strings (numExecHosts l)) by done. done.
  - cbn [app]. do 7 read_step.
    destruct (read_hosts (numExecHosts l) (execHosts l) (userName l)) as (line & H1' & H2'); try done.
    eapply reads_bind; [exact H1'|]. eapply reads_bind; [exact H2'|]. apply reads_ret.
Qed.

End JobForceLaw.

Module JobSigActLaw.
Import JobSigAct.

Definition fields (l : sigactLog) : list cstr :=
  [num_field (jobId l); num_field (period l); num_field (pid l); num_field (jStatus l);
   num_field (reasons l); num_field (flags l); num_field (actStatus l); quoted (signalSymbol l);
   num_field (idx l)].

Definition wf (l : sigactLog) : bool := clean_buf MAXLINELEN (signalSymbol l).

Definition norm (l : sigactLog) : sigactLog :=
  SigactLog (int32 (jobId l)) (int32 (period l)) (int32 (pid l)) (int32 (jStatus l))
    (int32 (reasons l)) (int32 (flags l)) (blanked (signalSymbol l)) (int32 (actStatus l))
    (int32 (idx l)).

Lemma JobSigAct_law l : wf l = true -> event_law readJobSigAct (writeJobSigAct l) (fields l) (norm l).
Proof. event_law. by exists 0%nat. Qed.

End JobSigActLaw.

Module JobRequeueLaw.
Import JobRequeueEvent.

Definition fields (l : jobRequeueLog) : list cstr := [num_field (jobId l); num_field (idx l)].

Definition wf (l : jobRequeueLog) : bool := true.

Definition norm (l : jobRequeueLog) : jobRequeueLog := JobRequeueLog (int32 (jobId l)) (int32 (idx l)).

Lemma JobRequeue_law l : wf l = true -> event_law readJobRequeue (writeJobRqueue l) (fields l) (norm l).
Proof. event_law. by exists 0%nat. Qed.

End JobRequeueLaw.

Module JobCleanLaw.
Import JobClean.

Definition fields (l : jobCleanLog) : list cstr := [num_field (jobId l); num_field (idx l)].

Definition wf (l : jobCleanLog) : bool := true.

Definition norm (l : jobCleanLog) : jobCleanLog := JobCleanLog (int32 (jobId l)) (int32 (idx l)).

Lemma JobClean_law l : wf l = true -> event_law readJobClean (writeJobClean l) (fields l) (norm l).
Proof. event_law. by exists 0%nat. Qed.

End JobCleanLaw.

Module ChkpntLaw.
Import Chkpnt.

Definition fields (l : chkpntLog) : list cstr :=
  [num_field (jobId l); num_field (period l); num_field (pid l); num_field (ok l);
   num_field (flags l); num_field (idx l)].

Definition wf (l : chkpntLog) : bool := true.

Definition norm (l : chkpntLog) : chkpntLog :=
  ChkpntLog (int32 (jobId l)) (int32 (period l)) (int32 (pid l)) (int32 (ok l)) (int32 (flags l))
    (int32 (idx l)).

Lemma Chkpnt_law l : wf l = true -> event_law readChkpnt (writeChkpnt l) (fields l) (norm l).
Proof. event_law. by exists 0%nat. Qed.

End ChkpntLaw.

Module UnfulfillLaw.
Import Unfulfill.

Definition fields (l : unfulfillLog) : list cstr :=
  [num_field (jobId l); num_field (notSwitched l); num_field (sig l); num_field (sig1 l);
   num_field (sig1Flags l); num_field (chkPeriod l); num_field (notModified l);
   num_field (idx l)].

Definition wf (l : unfulfillLog) : bool := true.

Definition norm (l : unfulfillLog) : unfulfillLog :=
  UnfulfillLog (int32 (jobId l)) (int32 (notSwitched l)) (int32 (sig l)) (int32 (sig1 l))
    (int32 (sig1Flags l)) (int32 (chkPeriod l)) (int32 (notModified l)) (int32 (idx l)).

Lemma Unfulfill_law l : wf l = true -> event_law readUnfulfill (writeUnfulfill l) (fields l) (norm l).
Proof. event_law. by exists 0%nat. Qed.

End UnfulfillLaw.

Module JobStartAcceptLaw.
Import JobStartAccept.

Definition fields (l : jobStartAcceptLog) : list cstr :=
  [num_field (jobId l); num_field (jobPid l); num_field (jobPGid l); num_field (idx l)].

Definition wf (l : jobStartAcceptLog) : bool := true.

Definition norm (l : jobStartAcceptLog) : jobStartAcceptLog :=
  JobStartAcceptLog (int32 (jobId l)) (int32 (jobPid l)) (int32 (jobPGid l)) (int32 (idx l)).

Lemma JobStartAccept_law l : wf l = true ->
  event_law readJobStartAccept (writeJobStartAccept l) (fields l) (norm l).
Proof. event_law. by exists 0%nat. Qed.

End JobStartAcceptLaw.

Module JobExecuteLaw.
Import JobExecute.

Definition fields (l : jobExecuteLog) : list cstr :=
  [num_field (jobId l); num_field (execUid l); num_field (jobPGid l); quoted (execCwd l);
   quoted (execHome l); quoted (execUsername l); num_field (jobPid l); num_field (idx l)].

Definition wf (l : jobExecuteLog) : bool :=
  clean (execCwd l) && clean (execHome l) && clean (execUsername l).

Definition norm (l : jobExecuteLog) : jobExecuteLog :=
  JobExecuteLog (int32 (jobId l)) (int32 (execUid l)) (blanked (execHome l)) (blanked (execCwd l))
    (int32 (jobPGid l)) (blanked (execUsername l)) (int32 (jobPid l)) (int32 (idx l)).

Lemma JobExecute_law l : wf l = true -> event_law readJobExecute (writeJobExecute l) (fields l) (norm l).
Proof. event_law. by exists 0%nat. Qed.

End JobExecuteLaw.

(** The record has no newline. *)
Module SbdJobStatusLaw.
Import SbdJobStatus.

Definition fields (l : sbdJobStatusLog) : list cstr :=
  [num_field (jobId l); num_field (jStatus l); num_field (reasons l); num_field (subreasons l);
   num_field (actPid l); num_field (actValue l); num_field (actPeriod l); num_field (actFlags l);
   num_field (actStatus l); num_field (actReasons l); num_field (actSubReasons l);
   num_field (idx l)].

Definition norm (l : sbdJobStatusLog) : sbdJobStatusLog :=
  SbdJobStatusLog (int32 (jobId l)) (int32 (jStatus l)) (int32 (reasons l)) (int32 (subreasons l))
    (int32 (actPid l)) (int32 (actValue l)) (int32 (actPeriod l)) (int32 (actFlags l))
    (int32 (actStatus l)) (int32 (actReasons l)) (int32 (actSubReasons l)) (int32 (idx l)).

Lemma SbdJobStatus_law l : writeSbdJobStatus l = sep_to (fields l) [] /\
  Forall (fun f => clean f = true) (fields l) /\ visible (sep (fields l)) /\
  reads readSbdJobStatus (at_field (fields l)) (norm l).
Proof.
  unfold readSbdJobStatus, writeSbdJobStatus, fields, norm.
  split; [|split; [clean_fields|split; [visible_fields|reads]]].
  cbn [sep_to]. by rewrite app_nil_r.
Qed.

End SbdJobStatusLaw.

Module JobMsgLaw.
Import JobMsg.

Definition fields (l : jobMsgLog) : list cstr :=
  [num_field (usrId l); num_field (jobId l); num_field (msgId l); num_field (type l);
   quoted (src l); quoted (dest l); quoted (msg l); num_field (idx l)].

Definition wf (l : jobMsgLog) : bool :=
  clean_buf MAXLINELEN (src l) && clean_buf MAXLINELEN (dest l) && clean_buf MAXLINELEN (msg l).

Definition norm (l : jobMsgLog) : jobMsgLog :=
  JobMsgLog (int32 (usrId l)) (int32 (jobId l)) (int32 (msgId l)) (int32 (type l))
    (blanked (src l)) (blanked (dest l)) (blanked (msg l)) (int32 (idx l)).

Lemma JobMsg_law l : wf l = true -> event_law readJobMsg (writeJobMsg l) (fields l) (norm l).
Proof. event_law. by exists 0%nat. Qed.

Lemma ack_law l : wf l = true -> event_law readJobMsgAck (writeJobMsgAck l) (fields l) (norm l).
Proof. exact (JobMsg_law l). Qed.

End JobMsgLaw.

Module QueueCtrlLaw.
Import QueueCtrl.

Definition fields (l : queueCtrlLog) : list cstr :=
  [num_field (opCode l); quoted (queue l); num_field (userId l); quoted (userName l)].

Definition wf (l : queueCtrlLog) : bool :=
  clean_fits MAX_LSB_NAME_LEN true (queue l) && clean_fits MAX_LSB_NAME_LEN true (userName l).

Definition norm (l : queueCtrlLog) : queueCtrlLog :=
  QueueCtrlLog (int32 (opCode l)) (blanked (queue l)) (int32 (userId l)) (blanked (userName l)).

Lemma QueueCtrl_law l : wf l = true -> event_law readQueueCtrl (writeQueueCtrl l) (fields l) (norm l).
Proof. event_law. by exists 0%nat. Qed.

End QueueCtrlLaw.

Module HostCtrlLaw.
Import HostCtrl.

Definition fields (l : hostCtrlLog) : list cstr :=
  [num_field (opCode l); quoted (host l); num_field (userId l); quoted (userName l)].

Definition wf (l : hostCtrlLog) : bool :=
  clean_fits MAXHOSTNAMELEN false (host l) && clean_fits MAX_LSB_NAME_LEN true (userName l).

Definition norm (l : hostCtrlLog) : hostCtrlLog :=
  HostCtrlLog (int32 (opCode l)) (blanked (host l)) (int32 (userId l)) (blanked (userName l)).

Lemma HostCtrl_law l : wf l = true -> event_law readHostCtrl (writeHostCtrl l) (fields l) (norm l).
Proof. event_law. by exists 0%nat. Qed.

End HostCtrlLaw.

Module MbdStartLaw.
Import MbdStart.

Definition fields (l : mbdStartLog) : list cstr :=
  [quoted (master l); quoted (cluster l); num_field (numHosts l); num_field (numQueues l)].

Definition wf (l : mbdStartLog) : bool :=
  clean_fits MAXHOSTNAMELEN false (master l) && clean_fits MAXLSFNAMELEN false (cluster l).

Definition norm (l : mbdStartLog) : mbdStartLog :=
  MbdStartLog (blanked (master l)) (blanked (cluster l)) (int32 (numHosts l)) (int32 (numQueues l)).

Lemma MbdStart_law l : wf l = true -> event_law readMbdStart (writeMbdStart l) (fields l) (norm l).
Proof. event_law. by exists 0%nat. Qed.

End MbdStartLaw.

Module MbdDieLaw.
Import MbdDie.

Definition fields (l : mbdDieLog) : list cstr :=
  [quoted (master l); num_field (numRemoveJobs l); num_field (exitCode l)].

Definition wf (l : mbdDieLog) : bool := clean_fits MAXHOSTNAMELEN false (master l).

Definition norm (l : mbdDieLog) : mbdDieLog :=
  MbdDieLog (blanked (master l)) (int32 (numRemoveJobs l)) (int32 (exitCode l)).

Lemma MbdDie_law l : wf l = true -> event_law readMbdDie (writeMbdDie l) (fields l) (norm l).
Proof. event_law. by exists 0%nat. Qed.

End MbdDieLaw.

Module LoadIndexLaw.
Import LoadIndex.

Definition fields (l : loadIndexLog) : list cstr := num_field (nIdx l) :: map quoted (name l).

Definition wf (l : loadIndexLog) : bool := counted (nIdx l) (name l) && forallb clean (name l).

Definition norm (l : loadIndexLog) : loadIndexLog :=
  LoadIndexLog (int32 (nIdx l)) (map blanked (name l)).

Lemma visible_names n hs : visible (sep (num_field n :: map quoted hs)).
Proof.
  destruct hs as [|h hs] using rev_ind; [by apply visible_sep_last, visible_num|].
  rewrite map_app. apply visible_sep_cons, visible_sep_app, visible_sep_last, visible_quoted.
Qed.

Lemma LoadIndex_law l : wf l = true -> event_law readLoadIndex (writeLoadIndex l) (fields l) (norm l).
Proof.
  intros Hwf. unfold wf in Hwf. split_wf. unfold readLoadIndex, writeLoadIndex, fields, norm.
  rewrite <- (app_nil_r (map quoted (name l))).
  split; [|split; [|split; [rewrite app_nil_r; apply visible_names|reads]]].
  - exists 0%nat. simpl. by rewrite (sep_to_strings (nIdx l)).
  - clean_fields. rewrite Forall_map. apply Forall_forall. intros s Hs. apply clean_quoted.
    rewrite forallb_forall in H0. by apply H0, list_elem_of_In.
Qed.

End LoadIndexLaw.

Module LogSwitchLaw.
Import LogSwitch.

Definition fields (l : logSwitchLog) : list cstr := [num_field (lastJobId l)].

Definition norm (l : logSwitchLog) : logSwitchLog := LogSwitchLog (int32 (lastJobId l)).

Lemma LogSwitch_law l : event_law readLogSwitch (writeLogSwitch l) (fields l) (norm l).
Proof.
  unfold readLogSwitch, writeLogSwitch, fields, norm.
  split; [by exists 1%nat|split; [clean_fields|split; [visible_fields|]]].
  read_step. eapply reads_bind; [done|]. reads.
Qed.

End LogSwitchLaw.

Module JobAttrSetLaw.
Import JobAttrSet.

Definition fields (l : jobAttrSetLog) : list cstr :=
  [num_field (jobId l); num_field (idx l); num_field (uid l); num_field (port l)].

Definition norm (l : jobAttrSetLog) : jobAttrSetLog :=
  JobAttrSetLog (int32 (jobId l)) (int32 (idx l)) (int32 (uid l)) (int32 (port l)) None.

Lemma JobAttrSet_law l : event_law readJobAttrSet (writeJobAttrSet l) (fields l) (norm l).
Proof.
  unfold readJobAttrSet, writeJobAttrSet, fields, norm.
  split; [by exists 1%nat|split; [clean_fields|split; [visible_fields|reads]]].
Qed.

End JobAttrSetLaw.

Module JobStartLaw.
Import JobStart.

Definition fields (l : jobStartLog) : list cstr :=
  [num_field (jobId l); num_field (jStatus l); num_field (jobPid l); num_field (jobPGid l);
   print_f 3 1 (hostFactor l); num_field (numExHosts l)] ++ map quoted (execHosts l) ++
  [quoted (queuePreCmd l); quoted (queuePostCmd l); num_field (jFlags l); num_field (idx l)].

(** A record without execution hosts is refused. *)
Definition wf (l : jobStartLog) : bool :=
  counted (numExHosts l) (execHosts l) && forallb (clean_buf MAXLINELEN) (execHosts l) &&
  negb (numExHosts l =? 0) && clean (queuePreCmd l) && clean (queuePostCmd l).

Definition norm (l : jobStartLog) : jobStartLog :=
  JobStartLog (int32 (jobId l)) (int32 (jStatus l)) (int32 (jobPid l)) (int32 (jobPGid l))
    (float_text 1 (hostFactor l)) (int32 (numExHosts l)) (map blanked (execHosts l))
    (blanked (queuePreCmd l)) (blanked (queuePostCmd l)) (int32 (jFlags l)) (int32 (idx l)).

Lemma JobStart_law l : wf l = true -> event_law readJobStart (writeJobStart l) (fields l) (norm l).
Proof.
  event_law.
  - exists 0%nat. rewrite sep_to_app, (sep_to_strings (numExHosts l)); done.
  - do 7 read_step.
    assert ((int32 (numExHosts l) =? 0) = false) as ->.
    { destruct (counted_spec (numExHosts l) (execHosts l)) as (_ & -> & _); [done|]. by apply negb_true_iff. }
    reads.
Qed.

End JobStartLaw.

(** *** Resource usage *)

Definition rusage_fields (u : lsfRusage) : list cstr :=
  [print_f 1 6 (ru_utime u); print_f 1 6 (ru_stime u); print_f 1 0 (ru_maxrss u);
   print_f 1 0 (ru_ixrss u); print_f 1 0 (ru_ismrss u); print_f 1 0 (ru_idrss u);
   print_f 1 0 (ru_isrss u); print_f 1 0 (ru_minflt u); print_f 1 0 (ru_majflt u);
   print_f 1 0 (ru_nswap u); print_f 1 0 (ru_inblock u); print_f 1 0 (ru_oublock u);
   print_f 1 0 (ru_ioch u); print_f 1 0 (ru_msgsnd u); print_f 1 0 (ru_msgrcv u);
   print_f 1 0 (ru_nsignals u); print_f 1 0 (ru_nvcsw u); print_f 1 0 (ru_nivcsw u);
   print_f 1 0 (ru_exutime u)].

(** Times keep six decimals, counts none. *)
Definition norm_rusage (u : lsfRusage) : lsfRusage :=
  LsfRusage (double_text 6 (ru_utime u)) (double_text 6 (ru_stime u)) (double_text 0 (ru_maxrss u))
    (double_text 0 (ru_ixrss u)) (double_text 0 (ru_ismrss u)) (double_text 0 (ru_idrss u))
    (double_text 0 (ru_isrss u)) (double_text 0 (ru_minflt u)) (double_text 0 (ru_majflt u))
    (double_text 0 (ru_nswap u)) (double_text 0 (ru_inblock u)) (double_text 0 (ru_oublock u))
    (double_text 0 (ru_ioch u)) (double_text 0 (ru_msgsnd u)) (double_text 0 (ru_msgrcv u))
    (double_text 0 (ru_nsignals u)) (double_text 0 (ru_nvcsw u)) (double_text 0 (ru_nivcsw u))
    (double_text 0 (ru_exutime u)).

Lemma rusage_text u t : sep_to (rusage_fields u) t = lsfRu2Str u ++ t.
Proof. unfold lsfRu2Str. by rewrite <- !app_assoc. Qed.

Lemma rusage_sep u : sep (rusage_fields u) = lsfRu2Str u.
Proof. by rewrite <- (app_nil_r (sep _)), <- sep_to_sep, rusage_text, app_nil_r. Qed.

Lemma rusage_clean u : Forall (fun f => clean f = true) (rusage_fields u).
Proof. unfold rusage_fields. clean_fields. Qed.

Lemma rusage_read u fs : str2lsfRu (at_field (rusage_fields u ++ fs)) = Ok (norm_rusage u, after_field fs).
Proof.
  unfold str2lsfRu, conv_lf, scan_double, rusage_fields, norm_rusage. cbn [app].
  rewrite (bind_Ok _ _ _ _ _ (conv_float_at _ _ _ _ _ _)).
  repeat rewrite (bind_Ok _ _ _ _ _ (conv_float_after _ _ _ _ _ _)). done.
Qed.

#[local] Hint Resolve rusage_clean : event.

Module JobStatusLaw.
Import JobStatusEvent.

Definition has_usage (l : jobStatusLog) : bool := negb (ru l =? 0).

Definition fields (l : jobStatusLog) : list cstr :=
  [num_field (jobId l); num_field (jStatus l); num_field (reason l); num_field (subreasons l);
   print_f 4 4 (cpuTime l); num_field (endTime l); num_field (ru l)] ++
  (if has_usage l then rusage_fields (rusage l) else []) ++
  [num_field (exitStatus l); num_field (idx l)].

Definition wf (l : jobStatusLog) : bool := in_int (ru l).

Definition norm (l : jobStatusLog) : jobStatusLog :=
  JobStatusLog (int32 (jobId l)) (int32 (jStatus l)) (int32 (reason l)) (int32 (subreasons l))
    (float_text 4 (cpuTime l)) (int32 (endTime l)) (int32 (ru l))
    (if has_usage l then norm_rusage (rusage l) else zero_rusage) 0 (int32 (exitStatus l))
    (int32 (idx l)).

Lemma JobStatus_law l : wf l = true -> event_law readJobStatus (writeJobStatus l) (fields l) (norm l).
Proof.
  intros Hwf. apply in_int_spec in Hwf. unfold readJobStatus, writeJobStatus, fields, norm.
  split; [|split; [|split; [visible_fields|]]].
  - exists 0%nat. rewrite sep_to_app, sep_to_if, rusage_sep. done.
  - clean_fields. destruct (has_usage l); clean_fields.
  - do 8 read_step. rewrite Hwf. fold (has_usage l).
    eapply reads_bind; [apply read_if_law; intros _|cbv beta].
    + erewrite bind_Ok by apply rusage_read. erewrite bind_Ok by apply next_after. done.
    + reads.
Qed.

End JobStatusLaw.

Module JobFinishLaw.
Import JobFinish.

Definition fields (l : jobFinishLog) : list cstr :=
  [num_field (jobId l); num_field (userId l); num_field (options l); num_field (numProcessors l);
   num_field (submitTime l); num_field (beginTime l); num_field (termTime l);
   num_field (startTime l); quoted (userName l); quoted (queue l); quoted (resReq l);
   quoted (dependCond l); quoted (preExecCmd l); quoted (fromHost l); quoted (cwd l);
   quoted (inFile l); quoted (outFile l); quoted (errFile l); quoted (jobFile l);
   num_field (numAskedHosts l)] ++ map quoted (askedHosts l) ++
  [num_field (numExHosts l)] ++ map quoted (execHosts l) ++
  [num_field (jStatus l); print_f 3 1 (hostFactor l); quoted (jobName l); quoted (command l)] ++
  rusage_fields (rusage l) ++
  [quoted (mailUser l); quoted (projectName l); num_field (exitStatus l);
   num_field (maxNumProcessors l); quoted (loginShell l); num_field (idx l);
   num_field (maxRMem l); num_field (maxRSwap l); quoted (inFileSpool l);
   quoted (commandSpool l)].

Definition wf (l : jobFinishLog) : bool :=
  clean_fits MAX_LSB_NAME_LEN true (userName l) && clean_fits MAX_LSB_NAME_LEN true (queue l) &&
  clean (resReq l) && clean (dependCond l) && clean (preExecCmd l) &&
  clean_fits MAXHOSTNAMELEN true (fromHost l) && clean_fits MAXFILENAMELEN false (cwd l) &&
  clean_fits MAXFILENAMELEN false (inFile l) && clean_fits MAXFILENAMELEN false (outFile l) &&
  clean_fits MAXFILENAMELEN false (errFile l) && clean_fits MAXFILENAMELEN true (jobFile l) &&
  counted (numAskedHosts l) (askedHosts l) && forallb (clean_buf MAXLINELEN) (askedHosts l) &&
  counted (numExHosts l) (execHosts l) && forallb (clean_buf MAXLINELEN) (execHosts l) &&
  clean_fits MAX_CMD_DESC_LEN false (jobName l) && clean_fits MAX_CMD_DESC_LEN false (command l) &&
  clean (mailUser l) && clean (projectName l) && clean (loginShell l) &&
  clean_fits MAXFILENAMELEN false (inFileSpool l) &&
  clean_fits MAXFILENAMELEN false (commandSpool l).

(** The end is the time of the event, the time used that of the usage read. *)
Definition norm (eventTime : Z) (l : jobFinishLog) : jobFinishLog :=
  let u := norm_rusage (rusage l) in
  JobFinishLog (int32 (jobId l)) (int32 (userId l)) (blanked (userName l)) (int32 (options l))
    (int32 (numProcessors l)) (int32 (jStatus l)) (int32 (submitTime l)) (int32 (beginTime l))
    (int32 (termTime l)) (int32 (startTime l)) eventTime (blanked (queue l)) (blanked (resReq l))
    (blanked (fromHost l)) (blanked (cwd l)) (blanked (inFile l)) (blanked (outFile l))
    (blanked (errFile l)) (blanked (inFileSpool l)) (blanked (commandSpool l))
    (blanked (jobFile l)) (int32 (numAskedHosts l)) (map blanked (askedHosts l))
    (float_text 1 (hostFactor l)) (int32 (numExHosts l)) (map blanked (execHosts l)) (cpu_time u)
    (blanked (jobName l)) (blanked (command l)) u (blanked (dependCond l))
    (blanked (preExecCmd l)) (blanked (mailUser l)) (blanked (projectName l))
    (int32 (exitStatus l)) (int32 (maxNumProcessors l)) (blanked (loginShell l)) (int32 (idx l))
    (int32 (maxRMem l)) (int32 (maxRSwap l)).

Lemma JobFinish_law t l : wf l = true -> event_law (readJobFinish t) (writeJobFinish l) (fields l) (norm t l).
Proof.
  intros Hwf. unfold wf in Hwf. split_wf. unfold readJobFinish, writeJobFinish, fields, norm.
  split; [|split; [clean_fields|split; [visible_fields|]]].
  - exists 0%nat. rewrite sep_to_app, (sep_to_strings (numAskedHosts l)) by done.
    rewrite sep_to_app, (sep_to_strings (numExHosts l)) by done.
    rewrite sep_to_app, (sep_to_app (rusage_fields _)), rusage_text. done.
  - repeat read_step. eapply reads_bind; [apply rusage_read|cbv beta]. reads.
Qed.

End JobFinishLaw.

(** *** Files to copy *)

Definition xf_fields (f : xFile) : list cstr :=
  [quoted (xf_subFn f); quoted (xf_execFn f); num_field (xf_options f)].

(** The names are written without doubling their quotes. *)
Definition quote_free (s : cstr) : bool := forallb (fun c => negb (ch_eqb c QUOTE)) s.

Definition wf_xf (f : xFile) : bool :=
  clean_fits MAXFILENAMELEN false (xf_subFn f) && quote_free (xf_subFn f) &&
  clean_fits MAXFILENAMELEN false (xf_execFn f) && quote_free (xf_execFn f).

Definition norm_xf (f : xFile) : xFile :=
  XFile (blanked (xf_subFn f)) (blanked (xf_execFn f)) (int32 (xf_options f)).

Lemma double_quotes_free s : quote_free s = true -> double_quotes s = s.
Proof.
  induction s as [|c s IH]; [done|]. unfold quote_free. simpl. intros H.
  apply andb_true_iff in H as [Hc Hs]. apply negb_true_iff in Hc. rewrite Hc, IH by done. done.
Qed.

Lemma put_s_quoted s : quote_free s = true -> put_s s = BLANK :: quoted s.
Proof. intros H. unfold put_s, quoted. by rewrite double_quotes_free. Qed.

Lemma xf_text n xf fs t : counted n xf = true -> forallb wf_xf xf = true ->
  sep_to (flat_map xf_fields xf ++ fs) t = put_array put_xf n xf ++ sep_to fs t.
Proof.
  intros Hn Hx. apply sep_to_array; [done|]. apply Forall_forall. intros f Hf u.
  rewrite forallb_forall in Hx. apply list_elem_of_In, Hx in Hf. unfold wf_xf in Hf. split_wf.
  unfold put_xf. rewrite !put_s_quoted by done. rewrite <- !app_assoc. done.
Qed.

Lemma xf_clean xf : forallb wf_xf xf = true -> Forall (fun f => clean f = true) (flat_map xf_fields xf).
Proof.
  intros Hx. induction xf as [|f xf IH]; [constructor|]. simpl in Hx.
  apply andb_true_iff in Hx as [Hf Hx]. unfold wf_xf in Hf. split_wf. simpl.
  specialize (IH Hx). clean_fields.
Qed.

Lemma xf_read n xf fs : counted n xf = true -> forallb wf_xf xf = true ->
  for_n (int32 n) get_xf (at_field (flat_map xf_fields xf ++ fs)) = Ok (map norm_xf xf, at_field fs).
Proof.
  intros Hn Hx. apply for_n_law; [done|]. apply Forall_forall. intros f Hf fs'.
  rewrite forallb_forall in Hx. apply list_elem_of_In, Hx in Hf. unfold wf_xf in Hf. split_wf.
  unfold get_xf, xf_fields. cbn [app].
  erewrite bind_Ok by (apply copyQStr_at; by eauto with event).
  erewrite bind_Ok by (apply copyQStr_at; by eauto with event).
  by erewrite bind_Ok by apply get_d_at.
Qed.

#[local] Hint Resolve xf_clean : event.

(** *** Limits *)

Lemma convertRLimit_length l b : length (convertRLimit l b) = length l.
Proof. unfold convertRLimit. apply length_imap. Qed.

Definition limits_ok (l : list Z) : bool := Z.of_nat (length l) =? LSF_RLIM_NLIMITS.

Lemma limits_counted l : limits_ok l = true -> counted LSF_RLIM_NLIMITS l = true.
Proof. unfold limits_ok, counted. intros ->%Z.eqb_eq. done. Qed.

Lemma limits_read l fs : limits_ok l = true ->
  for_n LSF_RLIM_NLIMITS get_d (at_field (map num_field l ++ fs)) = Ok (map int32 l, at_field fs).
Proof. intros H%Z.eqb_eq. by apply for_n_numbers. Qed.

Lemma copyQStr_skip_after maxLen nonNil before s fs : Forall no_quote before ->
  fits maxLen nonNil s = true ->
  copyQStr maxLen nonNil (after_field (before ++ quoted s :: fs)) = Ok (blanked s, at_field fs).
Proof.
  intros Hb Hs. rewrite <- (copyQStr_skip maxLen nonNil before s fs Hb Hs).
  destruct (skip_fields before s fs Hb) as (b & Hnb & Hat). rewrite Hat.
  assert (after_field (before ++ quoted s :: fs) =
          Some ((BLANK :: b) ++ blanked (quoted s) ++ blanked (sep fs))) as ->.
  { destruct before as [|f before]; cbn [app] in *.
    all: rewrite at_field_cons in Hat; rewrite after_field_cons.
    all: apply (inj Some) in Hat; cbn [app]; by rewrite <- Hat. }
  unfold copyQStr. rewrite (bind_Ok _ _ _ _ _ (saveQStr_quoted b s fs Hnb)).
  assert (no_quote (BLANK :: b)) as Hnb' by by constructor.
  by rewrite (bind_Ok _ _ _ _ _ (saveQStr_quoted (BLANK :: b) s fs Hnb')).
Qed.

Module JobNewLaw.
Import JobNew.

Definition limits (l : jobNewLog) : list Z :=
  if negb (has (options l) SUB_RLIMIT_UNIT_IS_KB) then convertRLimit (rLimits l) false
  else rLimits l.

Definition interactive (l : jobNewLog) : bool := has (options l) SUB_INTERACTIVE.
Definition block (l : jobNewLog) : bool := has (options2 l) SUB2_BSUB_BLOCK.

Definition fields (l : jobNewLog) : list cstr :=
  [num_field (jobId l); num_field (userId l); num_field (options l); num_field (numProcessors l);
   num_field (submitTime l); num_field (beginTime l); num_field (termTime l);
   num_field (sigValue l); num_field (chkpntPeriod l); num_field (restartPid l);
   quoted (userName l)] ++ map num_field (limits l) ++
  [quoted (hostSpec l); print_f 6 2 (hostFactor l); num_field (umask l); quoted (queue l);
   quoted (subNewLine_ (resReq l)); quoted (fromHost l); quoted (cwd l); quoted (chkpntDir l);
   quoted (inFile l); quoted (outFile l); quoted (errFile l); quoted (subHomeDir l);
   quoted (jobFile l); num_field (numAskedHosts l)] ++ map quoted (askedHosts l) ++
  [quoted (subNewLine_ (dependCond l)); quoted (subNewLine_ (preExecCmd l)); quoted (jobName l);
   quoted (subNewLine_ (command l)); num_field (nxf l)] ++ flat_map xf_fields (xf l) ++
  [quoted (subNewLine_ (mailUser l)); quoted (projectName l)] ++
  (if interactive l then [num_field (niosPort l)] else []) ++
  [num_field (maxNumProcessors l); quoted (schedHostType l); quoted (loginShell l);
   num_field (options2 l); num_field (idx l)] ++
  (if block l then [num_field (niosPort l)] else []) ++
  [quoted (inFileSpool l); quoted (commandSpool l); quoted (jobSpoolDir l);
   num_field (userPriority l)].

Definition wf (l : jobNewLog) : bool :=
  in_int (options l) && in_int (options2 l) && clean_fits MAX_LSB_NAME_LEN true (userName l) &&
  limits_ok (rLimits l) && clean_fits MAXHOSTNAMELEN false (hostSpec l) &&
  clean_fits MAX_LSB_NAME_LEN true (queue l) && clean (subNewLine_ (resReq l)) &&
  clean_fits MAXHOSTNAMELEN true (fromHost l) && clean_fits MAXFILENAMELEN false (cwd l) &&
  clean_fits MAXFILENAMELEN false (chkpntDir l) && clean_fits MAXFILENAMELEN false (inFile l) &&
  clean_fits MAXFILENAMELEN false (outFile l) && clean_fits MAXFILENAMELEN false (errFile l) &&
  clean_fits MAXFILENAMELEN false (subHomeDir l) && clean_fits MAXFILENAMELEN true (jobFile l) &&
  counted (numAskedHosts l) (askedHosts l) && forallb (clean_buf MAXLINELEN) (askedHosts l) &&
  clean (subNewLine_ (dependCond l)) && clean (subNewLine_ (preExecCmd l)) &&
  clean_fits MAX_CMD_DESC_LEN false (jobName l) &&
  clean_fits MAX_CMD_DESC_LEN false (subNewLine_ (command l)) &&
  counted (nxf l) (xf l) && forallb wf_xf (xf l) && clean (subNewLine_ (mailUser l)) &&
  clean (projectName l) && clean (schedHostType l) && clean (loginShell l) &&
  clean_fits MAXFILENAMELEN false (inFileSpool l) &&
  clean_fits MAXFILENAMELEN false (commandSpool l) &&
  clean_fits MAXPATHLEN false (jobSpoolDir l).

Definition norm_limits (l : jobNewLog) : list Z :=
  if negb (has (options l) SUB_RLIMIT_UNIT_IS_KB) then convertRLimit (map int32 (limits l)) true
  else map int32 (limits l).

(** [niosPort] is kept for jobs that use it. *)
Definition norm_port (l : jobNewLog) : Z :=
  if block l then int32 (niosPort l) else if interactive l then int32 (niosPort l) else 0.

Definition line_blanked (s : cstr) : cstr := blanked (subNewLine_ s).

Definition norm (l : jobNewLog) : jobNewLog :=
  JobNewLog (int32 (jobId l)) (int32 (userId l)) (blanked (userName l)) (int32 (options l))
    (int32 (options2 l)) (int32 (numProcessors l)) (int32 (submitTime l)) (int32 (beginTime l))
    (int32 (termTime l)) (int32 (sigValue l)) (int32 (chkpntPeriod l)) (int32 (restartPid l))
    (norm_limits l) (blanked (hostSpec l)) (float_text 2 (hostFactor l)) (int32 (umask l))
    (blanked (queue l)) (line_blanked (resReq l)) (blanked (fromHost l)) (blanked (cwd l))
    (blanked (chkpntDir l)) (blanked (inFile l)) (blanked (outFile l)) (blanked (errFile l))
    (blanked (inFileSpool l)) (blanked (commandSpool l)) (blanked (jobSpoolDir l))
    (blanked (subHomeDir l)) (blanked (jobFile l)) (int32 (numAskedHosts l))
    (map blanked (askedHosts l)) (line_blanked (dependCond l)) (blanked (jobName l))
    (line_blanked (command l)) (int32 (nxf l)) (map norm_xf (xf l)) (line_blanked (preExecCmd l))
    (line_blanked (mailUser l)) (blanked (projectName l)) (norm_port l)
    (int32 (maxNumProcessors l)) (blanked (schedHostType l)) (blanked (loginShell l))
    (int32 (idx l)) (int32 (userPriority l)).

(** The numbers that the reader looks at twice are skipped with the next string. *)
Lemma read_block_copy maxLen p opt2 i port s fs : int32 opt2 = opt2 ->
  clean_fits maxLen false s = true ->
  exists line,
    read_block p (at_field ([num_field opt2; num_field i] ++
        (if has opt2 SUB2_BSUB_BLOCK then [num_field port] else []) ++ quoted s :: fs)) =
      Ok ((opt2, int32 i, if has opt2 SUB2_BSUB_BLOCK then int32 port else p), line) /\
    copyQStr maxLen false line = Ok (blanked s, at_field fs).
Proof.
  intros Ho Hs. unfold read_block. cbn [app].
  assert (forall fs', peek (options2 ← conv_d; idx ← conv_d; mret (options2, idx))
            (at_field (num_field opt2 :: num_field i :: fs')) =
          Ok ((opt2, int32 i), at_field (num_field opt2 :: num_field i :: fs'))) as Hpeek.
  { intros fs'. unfold peek. rewrite (bind_Ok _ _ _ _ _ (conv_d_at _ _)).
    rewrite (bind_Ok _ _ _ _ _ (conv_d_after _ _)), Ho. done. }
  rewrite (bind_Ok _ _ _ _ _ (Hpeek _)). unfold read_if.
  destruct (has opt2 SUB2_BSUB_BLOCK); cbn [app].
  - rewrite !bind_assoc, (bind_Ok _ _ _ _ _ (conv_d_at _ _)).
    rewrite !bind_assoc, (bind_Ok _ _ _ _ _ (conv_d_after _ _)).
    assert (peek (conv_d_unless_end p) (after_field (num_field port :: quoted s :: fs)) =
            Ok (int32 port, after_field (num_field port :: quoted s :: fs))) as Hp.
    { unfold peek. pose proof (conv_d_after port (quoted s :: fs)) as Hc.
      rewrite after_field_cons in Hc |- *. unfold conv_d_unless_end. by rewrite Hc. }
    rewrite (bind_Ok _ _ _ _ _ Hp). eexists. split; [done|].
    apply (copyQStr_skip_after _ _ [_]); [repeat constructor; apply no_quote_num|by eauto with event].
  - eexists. split; [done|].
    apply (copyQStr_skip _ _ [_; _]); [repeat constructor; apply no_quote_num|by eauto with event].
Qed.

Lemma JobNew_text l : wf l = true -> sep_to (fields l) newline = writeJobNew l.
Proof.
  intros Hwf. unfold wf in Hwf. split_wf. unfold writeJobNew, fields. fold (limits l).
  assert (counted LSF_RLIM_NLIMITS (limits l) = true) as Hlim.
  { apply limits_counted. unfold limits, limits_ok in *. case_if; by rewrite ?convertRLimit_length. }
  rewrite sep_to_app, (sep_to_numbers LSF_RLIM_NLIMITS) by done.
  rewrite sep_to_app, (sep_to_strings (numAskedHosts l)) by done.
  rewrite sep_to_app, (xf_text (nxf l)) by done.
  rewrite sep_to_app, sep_to_if, sep_single. rewrite sep_to_app, sep_to_if, sep_single. done.
Qed.

Lemma JobNew_read l : wf l = true -> reads readJobNew (at_field (fields l)) (norm l).
Proof.
  intros Hwf. unfold wf in Hwf. split_wf. unfold readJobNew, fields, norm, norm_limits, norm_port.
  assert (int32 (options l) = options l) as Ho by by apply in_int_spec.
  assert (int32 (options2 l) = options2 l) as Ho2 by by apply in_int_spec.
  assert (limits_ok (limits l) = true) as Hlim.
  { unfold limits, limits_ok in *. case_if; by rewrite ?convertRLimit_length. }
  do 12 read_step. rewrite Ho.
  eapply reads_bind; [by apply limits_read|cbv beta]. do 15 read_step.
  do 6 read_step. eapply reads_bind; [by apply xf_read|cbv beta]. do 2 read_step.
  fold (interactive l). eapply reads_bind; [apply read_if_law; intros _; apply get_d_at|cbv beta].
  do 3 read_step. cbn [app].
  destruct (read_block_copy MAXFILENAMELEN (if interactive l then int32 (niosPort l) else 0)
              (options2 l) (idx l) (niosPort l) (inFileSpool l)
              [quoted (commandSpool l); quoted (jobSpoolDir l); num_field (userPriority l)])
    as (line & Hblock & Hcopy); [done..|].
  eapply reads_bind; [exact Hblock|cbv beta iota zeta].
  eapply reads_bind; [exact Hcopy|cbv beta]. rewrite Ho2. reads.
Qed.

Lemma JobNew_law l : wf l = true -> event_law readJobNew (writeJobNew l) (fields l) (norm l).
Proof.
  intros Hwf. split; [exists 0%nat; by rewrite JobNew_text|]. split; [|split; [|by apply JobNew_read]].
  - unfold wf in Hwf. split_wf. unfold fields. clean_fields; case_if; clean_fields.
  - unfold fields. visible_fields.
Qed.

End JobNewLaw.

(** *** Fields that are written under a condition *)

Definition opt_field (c : bool) (p : option cstr) : list cstr :=
  if c then match p with Some s => [quoted s] | None => [] end else [].

(** A pointer that is written is not NULL. *)
Definition wf_opt (c : bool) (p : option cstr) : bool :=
  if c then match p with Some s => clean s | None => false end else true.

Definition norm_opt (c : bool) (p : option cstr) : option cstr := if c then blanked <$> p else None.

Lemma put_if_fields c p : wf_opt c p = true -> JobMod.put_if c p = Some (sep (opt_field c p)).
Proof.
  unfold wf_opt, JobMod.put_if, opt_field. destruct c; [|done]. destruct p as [s|]; [|done].
  intros _. by rewrite sep_single.
Qed.

Lemma save_if_law c p fs : wf_opt c p = true ->
  JobMod.save_if c (at_field (opt_field c p ++ fs)) = Ok (norm_opt c p, at_field fs).
Proof.
  unfold wf_opt, JobMod.save_if, opt_field, norm_opt. destruct c; [|done].
  destruct p as [s|]; [|done]. intros _. cbn [read_if app]. by erewrite bind_Ok by apply saveQStr_at.
Qed.

Lemma opt_clean c p : wf_opt c p = true -> Forall (fun f => clean f = true) (opt_field c p).
Proof.
  unfold wf_opt, opt_field. destruct c; [|constructor]. destruct p as [s|]; [|constructor].
  intros. constructor; [by apply clean_quoted|constructor].
Qed.

#[local] Hint Resolve opt_clean : event.

Module JobModLaw.
Import JobMod.

Section Fields.
Variable l : jobModLog.
Let opt := has (options l).
Let opt2 := has (options2 l).

Definition host_fields : list cstr :=
  if opt SUB_HOST then num_field (numAskedHosts l) :: map quoted (askedHosts l) else [].

Definition file_fields : list cstr :=
  if opt SUB_OTHER_FILES then num_field (nxf l) :: flat_map xf_fields (xf l) else [].

Definition fields : list cstr :=
  [quoted (jobIdStr l); num_field (options l); num_field (options2 l); num_field (delOptions l);
   num_field (userId l); quoted (userName l); num_field (submitTime l); num_field (umask l);
   num_field (numProcessors l); num_field (beginTime l); num_field (termTime l);
   num_field (sigValue l); num_field (restartPid l)] ++
  opt_field (opt SUB_JOB_NAME) (jobName l) ++ opt_field (opt SUB_QUEUE) (queue l) ++
  host_fields ++ opt_field (opt SUB_RES_REQ) (resReq l) ++ map num_field (rLimits l) ++
  opt_field (opt SUB_HOST_SPEC) (hostSpec l) ++
  opt_field (opt SUB_DEPEND_COND) (subNewLine_ <$> dependCond l) ++ [quoted (subHomeDir l)] ++
  opt_field (opt SUB_IN_FILE || opt2 SUB2_IN_FILE_SPOOL) (inFile l) ++
  opt_field (opt SUB_OUT_FILE) (outFile l) ++ opt_field (opt SUB_ERR_FILE) (errFile l) ++
  opt_field (opt2 SUB2_MODIFY_CMD) (command l) ++
  (if opt SUB_CHKPNT_PERIOD then [num_field (chkpntPeriod l)] else []) ++
  opt_field (opt SUB_CHKPNT_DIR) (chkpntDir l) ++ file_fields ++
  [quoted (jobFile l); quoted (fromHost l); quoted (cwd l)] ++
  opt_field (opt SUB_PRE_EXEC) (subNewLine_ <$> preExecCmd l) ++
  opt_field (opt SUB_MAIL_USER) (mailUser l) ++ opt_field (opt SUB_PROJECT_NAME) (projectName l) ++
  [num_field (niosPort l); num_field (maxNumProcessors l)] ++
  opt_field (opt SUB_LOGIN_SHELL) (loginShell l) ++
  [quoted (schedHostType l); num_field (delOptions2 l)] ++
  opt_field (opt2 SUB2_IN_FILE_SPOOL) (inFileSpool l) ++
  opt_field (opt2 SUB2_JOB_CMD_SPOOL) (commandSpool l) ++
  (if opt2 SUB2_JOB_PRIORITY then [num_field (userPriority l)] else []).

Definition wf : bool :=
  in_int (options l) && in_int (options2 l) && clean (jobIdStr l) && clean (userName l) &&
  wf_opt (opt SUB_JOB_NAME) (jobName l) && wf_opt (opt SUB_QUEUE) (queue l) &&
  counted (numAskedHosts l) (askedHosts l) && forallb clean (askedHosts l) &&
  wf_opt (opt SUB_RES_REQ) (resReq l) && limits_ok (rLimits l) &&
  wf_opt (opt SUB_HOST_SPEC) (hostSpec l) &&
  wf_opt (opt SUB_DEPEND_COND) (subNewLine_ <$> dependCond l) && clean (subHomeDir l) &&
  wf_opt (opt SUB_IN_FILE || opt2 SUB2_IN_FILE_SPOOL) (inFile l) &&
  wf_opt (opt SUB_OUT_FILE) (outFile l) && wf_opt (opt SUB_ERR_FILE) (errFile l) &&
  wf_opt (opt2 SUB2_MODIFY_CMD) (command l) && wf_opt (opt SUB_CHKPNT_DIR) (chkpntDir l) &&
  counted (nxf l) (xf l) && forallb wf_xf (xf l) &&
  clean (jobFile l) && clean (fromHost l) && clean (cwd l) &&
  wf_opt (opt SUB_PRE_EXEC) (subNewLine_ <$> preExecCmd l) &&
  wf_opt (opt SUB_MAIL_USER) (mailUser l) && wf_opt (opt SUB_PROJECT_NAME) (projectName l) &&
  wf_opt (opt SUB_LOGIN_SHELL) (loginShell l) && clean (schedHostType l) &&
  wf_opt (opt2 SUB2_IN_FILE_SPOOL) (inFileSpool l) &&
  wf_opt (opt2 SUB2_JOB_CMD_SPOOL) (commandSpool l).

(** What is not written is 0 or NULL when it is read. *)
Definition norm : jobModLog :=
  let '(n, hosts) :=
    if opt SUB_HOST then (int32 (numAskedHosts l), map blanked (askedHosts l)) else (0, []) in
  let '(n_xf, files) :=
    if opt SUB_OTHER_FILES then (int32 (nxf l), map norm_xf (xf l)) else (0, []) in
  JobModLog (blanked (jobIdStr l)) (int32 (options l)) (int32 (options2 l)) (int32 (delOptions l))
    (int32 (delOptions2 l)) (int32 (userId l)) (blanked (userName l)) (int32 (submitTime l))
    (int32 (umask l)) (int32 (numProcessors l)) (int32 (beginTime l)) (int32 (termTime l))
    (int32 (sigValue l)) (int32 (restartPid l)) (norm_opt (opt SUB_JOB_NAME) (jobName l))
    (norm_opt (opt SUB_QUEUE) (queue l)) n hosts (norm_opt (opt SUB_RES_REQ) (resReq l))
    (map int32 (rLimits l)) (norm_opt (opt SUB_HOST_SPEC) (hostSpec l))
    (norm_opt (opt SUB_DEPEND_COND) (subNewLine_ <$> dependCond l)) (blanked (subHomeDir l))
    (norm_opt (opt SUB_IN_FILE || opt2 SUB2_IN_FILE_SPOOL) (inFile l))
    (norm_opt (opt SUB_OUT_FILE) (outFile l)) (norm_opt (opt SUB_ERR_FILE) (errFile l))
    (norm_opt (opt2 SUB2_MODIFY_CMD) (command l))
    (norm_opt (opt2 SUB2_IN_FILE_SPOOL) (inFileSpool l))
    (norm_opt (opt2 SUB2_JOB_CMD_SPOOL) (commandSpool l))
    (if opt SUB_CHKPNT_PERIOD then int32 (chkpntPeriod l) else 0)
    (norm_opt (opt SUB_CHKPNT_DIR) (chkpntDir l)) n_xf files (blanked (jobFile l))
    (blanked (fromHost l)) (blanked (cwd l))
    (norm_opt (opt SUB_PRE_EXEC) (subNewLine_ <$> preExecCmd l))
    (norm_opt (opt SUB_MAIL_USER) (mailUser l)) (norm_opt (opt SUB_PROJECT_NAME) (projectName l))
    (int32 (niosPort l)) (int32 (maxNumProcessors l))
    (norm_opt (opt SUB_LOGIN_SHELL) (loginShell l)) (blanked (schedHostType l))
    (if opt2 SUB2_JOB_PRIORITY then int32 (userPriority l) else 0).

Lemma host_text fs t : counted (numAskedHosts l) (askedHosts l) = true ->
  sep_to (host_fields ++ fs) t =
  (if opt SUB_HOST then
     put_d (numAskedHosts l) ++ put_array addQStr (numAskedHosts l) (askedHosts l)
   else []) ++ sep_to fs t.
Proof.
  intros Hn. unfold host_fields. destruct (opt SUB_HOST); [|done].
  rewrite <- app_assoc, <- (sep_to_strings _ _ _ _ Hn). done.
Qed.

Lemma file_text fs t : counted (nxf l) (xf l) = true -> forallb wf_xf (xf l) = true ->
  sep_to (file_fields ++ fs) t =
  (if opt SUB_OTHER_FILES then put_d (nxf l) ++ put_array put_xf (nxf l) (xf l) else []) ++
  sep_to fs t.
Proof.
  intros Hn Hx. unfold file_fields. destruct (opt SUB_OTHER_FILES); [|done].
  rewrite <- app_assoc, <- (xf_text _ _ _ _ Hn Hx). done.
Qed.

Lemma JobMod_text : wf = true -> writeJobMod l = Some (sep_to fields newline).
Proof.
  intros Hwf. unfold wf in Hwf. split_wf. unfold writeJobMod. fold opt opt2.
  rewrite !put_if_fields by done. cbn [mbind option_bind]. f_equal. unfold fields.
  assert (counted LSF_RLIM_NLIMITS (rLimits l) = true) as Hlim by by apply limits_counted.
  assert (forall c p fs t, sep_to (opt_field c p ++ fs) t = sep (opt_field c p) ++ sep_to fs t) as Ho.
  { intros. by rewrite sep_to_app, sep_to_sep. }
  rewrite sep_to_app, !Ho, host_text, Ho, (sep_to_numbers LSF_RLIM_NLIMITS), !Ho by done.
  rewrite sep_to_app, !Ho, sep_to_if, sep_single, Ho, file_text by done.
  rewrite sep_to_app, !Ho, sep_to_app, Ho, sep_to_app, !Ho.
  rewrite (sep_to_sep (if opt2 SUB2_JOB_PRIORITY then [num_field (userPriority l)] else [])), sep_if, sep_single.
  done.
Qed.

Lemma host_read fs : counted (numAskedHosts l) (askedHosts l) = true ->
  read_if (opt SUB_HOST) (0, [])
    (n ← get_d; calloc n;; hosts ← for_n n saveQStr; mret (n, hosts))
    (at_field (host_fields ++ fs)) =
  Ok (if opt SUB_HOST then (int32 (numAskedHosts l), map blanked (askedHosts l)) else (0, []),
      at_field fs).
Proof.
  intros Hn. unfold host_fields. destruct (opt SUB_HOST); [|done]. cbn [read_if app].
  erewrite bind_Ok by apply get_d_at. rewrite (bind_Ok _ _ _ _ _ (calloc_counted _ _ _ Hn)).
  by erewrite bind_Ok by by apply for_n_save.
Qed.

Lemma file_read fs : counted (nxf l) (xf l) = true -> forallb wf_xf (xf l) = true ->
  read_if (opt SUB_OTHER_FILES) (0, []) (n ← get_d; xf ← for_n n get_xf; mret (n, xf))
    (at_field (file_fields ++ fs)) =
  Ok (if opt SUB_OTHER_FILES then (int32 (nxf l), map norm_xf (xf l)) else (0, []), at_field fs).
Proof.
  intros Hn Hx. unfold file_fields. destruct (opt SUB_OTHER_FILES); [|done]. cbn [read_if app].
  erewrite bind_Ok by apply get_d_at. by erewrite bind_Ok by by apply xf_read.
Qed.

Lemma JobMod_read : wf = true -> reads readJobMod (at_field fields) norm.
Proof.
  intros Hwf. unfold wf in Hwf. split_wf. unfold readJobMod, fields, norm.
  assert (int32 (options l) = options l) as Hopt by by apply in_int_spec.
  assert (int32 (options2 l) = options2 l) as Hopt2 by by apply in_int_spec.
  do 6 read_step. rewrite Hopt, Hopt2. cbv zeta. fold opt opt2. do 9 read_step.
  do 2 (eapply reads_bind; [by apply save_if_law|cbv beta]).
  eapply reads_bind; [by apply host_read|cbv beta].
  destruct (if opt SUB_HOST then (int32 (numAskedHosts l), map blanked (askedHosts l)) else (0, []))
    as [n hosts].
  eapply reads_bind; [by apply save_if_law|cbv beta].
  eapply reads_bind; [by apply limits_read|cbv beta].
  do 2 (eapply reads_bind; [by apply save_if_law|cbv beta]). read_step.
  do 4 (eapply reads_bind; [by apply save_if_law|cbv beta]).
  eapply reads_bind; [apply read_if_law; intros _; apply get_d_at|cbv beta].
  eapply reads_bind; [by apply save_if_law|cbv beta].
  eapply reads_bind; [by apply file_read|cbv beta].
  destruct (if opt SUB_OTHER_FILES then (int32 (nxf l), map norm_xf (xf l)) else (0, []))
    as [n_xf files]. do 3 read_step.
  do 3 (eapply reads_bind; [by apply save_if_law|cbv beta]). do 3 read_step.
  eapply reads_bind; [by apply save_if_law|cbv beta]. do 2 read_step.
  do 2 (eapply reads_bind; [by apply save_if_law|cbv beta]).
  eapply reads_bind; [rewrite <- (app_nil_r (if opt2 SUB2_JOB_PRIORITY then [num_field (userPriority l)] else []));
                      apply read_if_law; intros _; apply get_d_at|cbv beta].
  apply reads_ret.
Qed.

Lemma visible_opt f fs : visible f -> (fs <> [] -> visible (sep fs)) -> visible (sep (f :: fs)).
Proof.
  intros Hf Hfs. destruct fs as [|g fs]; [by apply visible_sep_last|].
  apply visible_sep_cons. by apply Hfs.
Qed.

Lemma visible_opt_field c p fs : (fs <> [] -> visible (sep fs)) ->
  opt_field c p ++ fs <> [] -> visible (sep (opt_field c p ++ fs)).
Proof.
  intros Hfs Hne. unfold opt_field in *. destruct c; [destruct p as [s|]|]; [|by apply Hfs..].
  apply visible_opt; [apply visible_quoted|done].
Qed.

Lemma JobMod_law : wf = true -> exists t, writeJobMod l = Some t /\ event_law readJobMod t fields norm.
Proof.
  intros Hwf. exists (sep_to fields newline). split; [by apply JobMod_text|].
  split; [by exists 0%nat|]. split; [|split; [|by apply JobMod_read]].
  - unfold wf in Hwf. split_wf. unfold fields, host_fields, file_fields.
    assert (Forall (fun f => clean f = true) (map quoted (askedHosts l))).
    { rewrite Forall_map. apply Forall_forall. intros s Hs. apply clean_quoted.
      match goal with H : forallb clean _ = true |- _ => rewrite forallb_forall in H; apply H end.
      by apply list_elem_of_In. }
    repeat (apply Forall_app_2; [clean_fields; case_ifs; clean_fields|]). case_ifs; clean_fields.
  - unfold fields. do 22 apply visible_sep_app. cbn [app].
    apply visible_sep_cons, visible_opt; [apply visible_num|].
    do 2 apply visible_opt_field. case_if; [|done]. intros _. apply visible_sep_last, visible_num.
Qed.

End Fields.
End JobModLaw.
