(* ===== verification/EventReplay.v ===== *)
(** * The event log is replayed

    The laws of [EventRoundTrip] put together: a record that [lsb_puteventrec]
    appends to the log is what [lsb_geteventrec] reads, and the loop of [init_log]
    reads a whole log, with the comments and the damaged lines in it. *)

From S2P Require Import Prelude CLib HashTable JobId Xdr LsbXdr Words Stdio EventText EventLog.
From S2P Require Import EventLaws EventRoundTrip.
From Stdlib Require Import SpecFloat.

(** ** Records of all kinds *)

Definition fields_of (log : eventLog) : list cstr :=
  match log with
  | jobNewLog_ l => JobNewLaw.fields l
  | jobModLog_ l => JobModLaw.fields l
  | jobStartLog_ l => JobStartLaw.fields l
  | jobStartAcceptLog_ l => JobStartAcceptLaw.fields l
  | jobExecuteLog_ l => JobExecuteLaw.fields l
  | jobStatusLog_ l => JobStatusLaw.fields l
  | sbdJobStatusLog_ l => SbdJobStatusLaw.fields l
  | jobSwitchLog_ l => JobSwitchLaw.fields l
  | jobMoveLog_ l => JobMoveLaw.fields l
  | migLog_ l => MigLaw.fields l
  | signalLog_ l => JobSignalLaw.fields l
  | jobForceRequestLog_ l => JobForceLaw.fields l
  | sigactLog_ l => JobSigActLaw.fields l
  | jobRequeueLog_ l => JobRequeueLaw.fields l
  | jobCleanLog_ l => JobCleanLaw.fields l
  | chkpntLog_ l => ChkpntLaw.fields l
  | unfulfillLog_ l => UnfulfillLaw.fields l
  | jobMsgLog_ l => JobMsgLaw.fields l
  | queueCtrlLog_ l => QueueCtrlLaw.fields l
  | hostCtrlLog_ l => HostCtrlLaw.fields l
  | mbdStartLog_ l => MbdStartLaw.fields l
  | mbdDieLog_ l => MbdDieLaw.fields l
  | loadIndexLog_ l => LoadIndexLaw.fields l
  | logSwitchLog_ l => LogSwitchLaw.fields l
  | jobAttrSetLog_ l => JobAttrSetLaw.fields l
  | jobFinishLog_ l => JobFinishLaw.fields l
  end.

(** The record that is read. *)
Definition norm_log (t : Z) (log : eventLog) : eventLog :=
  match log with
  | jobNewLog_ l => jobNewLog_ (JobNewLaw.norm l)
  | jobModLog_ l => jobModLog_ (JobModLaw.norm l)
  | jobStartLog_ l => jobStartLog_ (JobStartLaw.norm l)
  | jobStartAcceptLog_ l => jobStartAcceptLog_ (JobStartAcceptLaw.norm l)
  | jobExecuteLog_ l => jobExecuteLog_ (JobExecuteLaw.norm l)
  | jobStatusLog_ l => jobStatusLog_ (JobStatusLaw.norm l)
  | sbdJobStatusLog_ l => sbdJobStatusLog_ (SbdJobStatusLaw.norm l)
  | jobSwitchLog_ l => jobSwitchLog_ (JobSwitchLaw.norm l)
  | jobMoveLog_ l => jobMoveLog_ (JobMoveLaw.norm l)
  | migLog_ l => migLog_ (MigLaw.norm l)
  | signalLog_ l => signalLog_ (JobSignalLaw.norm l)
  | jobForceRequestLog_ l => jobForceRequestLog_ (JobForceLaw.norm l)
  | sigactLog_ l => sigactLog_ (JobSigActLaw.norm l)
  | jobRequeueLog_ l => jobRequeueLog_ (JobRequeueLaw.norm l)
  | jobCleanLog_ l => jobCleanLog_ (JobCleanLaw.norm l)
  | chkpntLog_ l => chkpntLog_ (ChkpntLaw.norm l)
  | unfulfillLog_ l => unfulfillLog_ (UnfulfillLaw.norm l)
  | jobMsgLog_ l => jobMsgLog_ (JobMsgLaw.norm l)
  | queueCtrlLog_ l => queueCtrlLog_ (QueueCtrlLaw.norm l)
  | hostCtrlLog_ l => hostCtrlLog_ (HostCtrlLaw.norm l)
  | mbdStartLog_ l => mbdStartLog_ (MbdStartLaw.norm l)
  | mbdDieLog_ l => mbdDieLog_ (MbdDieLaw.norm l)
  | loadIndexLog_ l => loadIndexLog_ (LoadIndexLaw.norm l)
  | logSwitchLog_ l => logSwitchLog_ (LogSwitchLaw.norm l)
  | jobAttrSetLog_ l => jobAttrSetLog_ (JobAttrSetLaw.norm l)
  | jobFinishLog_ l => jobFinishLog_ (JobFinishLaw.norm t l)
  end.

(** The types of the records that have a newline, with the structure that is used
    and the strings that can be read. *)
Definition wf_log (type : Z) (log : eventLog) : bool :=
  match log with
  | jobNewLog_ l => in_list type [EVENT_JOB_NEW; EVENT_JOB_MODIFY] && JobNewLaw.wf l
  | jobModLog_ l => (type =? EVENT_JOB_MODIFY2) && JobModLaw.wf l
  | jobStartLog_ l => in_list type [EVENT_PRE_EXEC_START; EVENT_JOB_START] && JobStartLaw.wf l
  | jobStartAcceptLog_ l => (type =? EVENT_JOB_START_ACCEPT) && JobStartAcceptLaw.wf l
  | jobExecuteLog_ l => (type =? EVENT_JOB_EXECUTE) && JobExecuteLaw.wf l
  | jobStatusLog_ l => (type =? EVENT_JOB_STATUS) && JobStatusLaw.wf l
  | sbdJobStatusLog_ l => false
  | jobSwitchLog_ l => (type =? EVENT_JOB_SWITCH) && JobSwitchLaw.wf l
  | jobMoveLog_ l => (type =? EVENT_JOB_MOVE) && JobMoveLaw.wf l
  | migLog_ l => (type =? EVENT_MIG) && MigLaw.wf l
  | signalLog_ l => (type =? EVENT_JOB_SIGNAL) && JobSignalLaw.wf l
  | jobForceRequestLog_ l => (type =? EVENT_JOB_FORCE) && JobForceLaw.wf l
  | sigactLog_ l => (type =? EVENT_JOB_SIGACT) && JobSigActLaw.wf l
  | jobRequeueLog_ l => (type =? EVENT_JOB_REQUEUE) && JobRequeueLaw.wf l
  | jobCleanLog_ l => (type =? EVENT_JOB_CLEAN) && JobCleanLaw.wf l
  | chkpntLog_ l => (type =? EVENT_CHKPNT) && ChkpntLaw.wf l
  | unfulfillLog_ l => (type =? EVENT_MBD_UNFULFILL) && UnfulfillLaw.wf l
  | jobMsgLog_ l => in_list type [EVENT_JOB_MSG; EVENT_JOB_MSG_ACK] && JobMsgLaw.wf l
  | queueCtrlLog_ l => (type =? EVENT_QUEUE_CTRL) && QueueCtrlLaw.wf l
  | hostCtrlLog_ l => (type =? EVENT_HOST_CTRL) && HostCtrlLaw.wf l
  | mbdStartLog_ l => (type =? EVENT_MBD_START) && MbdStartLaw.wf l
  | mbdDieLog_ l => (type =? EVENT_MBD_DIE) && MbdDieLaw.wf l
  | loadIndexLog_ l => (type =? EVENT_LOAD_INDEX) && LoadIndexLaw.wf l
  | logSwitchLog_ l => type =? EVENT_LOG_SWITCH
  | jobAttrSetLog_ l => type =? EVENT_JOB_ATTR_SET
  | jobFinishLog_ l => (type =? EVENT_JOB_FINISH) && JobFinishLaw.wf l
  end.

Lemma event_law_member {A} (C : A -> eventLog) (r : reader A) text fs a :
  event_law r text fs a -> event_law (l ← r; mret (C l)) text fs (C a).
Proof.
  intros (Ht & Hc & Hv & (l' & Hr)). split_and!; try done. exists l'.
  by rewrite (bind_Ok _ _ _ _ _ Hr).
Qed.

Lemma in_list_two z a b : in_list z [a; b] = true -> z = a \/ z = b.
Proof. unfold in_list. simpl. intros H. rewrite orb_false_r in H. apply orb_true_iff in H as [H|H]; breflect; auto. Qed.

Ltac one_event C := breflect; subst; eexists; split; [reflexivity|]; apply (event_law_member C).

Lemma log_law type t log : wf_log type log = true ->
  exists text, put_log type log = Ok text /\
    event_law (readEventRecord type t) text (fields_of log) (norm_log t log).
Proof.
  destruct log as [l|l|l|l|l|l|l|l|l|l|l|l|l|l|l|l|l|l|l|l|l|l|l|l|l|l]; simpl wf_log; intros Hwf;
    try discriminate; try (apply andb_true_iff in Hwf as [Ht Hwf]).
  - apply in_list_two in Ht as [-> | ->]; one_event jobNewLog_; by apply JobNewLaw.JobNew_law.
  - apply JobModLaw.JobMod_law in Hwf as (text & Htext & Hlaw). exists text. breflect. subst type.
    cbn. rewrite Htext. split; [done|]. by apply (event_law_member jobModLog_).
  - apply in_list_two in Ht as [-> | ->]; one_event jobStartLog_; by apply JobStartLaw.JobStart_law.
  - one_event jobStartAcceptLog_; by apply JobStartAcceptLaw.JobStartAccept_law.
  - one_event jobExecuteLog_; by apply JobExecuteLaw.JobExecute_law.
  - one_event jobStatusLog_; by apply JobStatusLaw.JobStatus_law.
  - one_event jobSwitchLog_; by apply JobSwitchLaw.JobSwitch_law.
  - one_event jobMoveLog_; by apply JobMoveLaw.JobMove_law.
  - one_event migLog_; by apply MigLaw.Mig_law.
  - one_event signalLog_; by apply JobSignalLaw.JobSignal_law.
  - one_event jobForceRequestLog_; by apply JobForceLaw.JobForce_law.
  - one_event sigactLog_; by apply JobSigActLaw.JobSigAct_law.
  - one_event jobRequeueLog_; by apply JobRequeueLaw.JobRequeue_law.
  - one_event jobCleanLog_; by apply JobCleanLaw.JobClean_law.
  - one_event chkpntLog_; by apply ChkpntLaw.Chkpnt_law.
  - one_event unfulfillLog_; by apply UnfulfillLaw.Unfulfill_law.
  - apply in_list_two in Ht as [-> | ->]; one_event jobMsgLog_; [by apply JobMsgLaw.JobMsg_law|by apply JobMsgLaw.ack_law].
  - one_event queueCtrlLog_; by apply QueueCtrlLaw.QueueCtrl_law.
  - one_event hostCtrlLog_; by apply HostCtrlLaw.HostCtrl_law.
  - one_event mbdStartLog_; by apply MbdStartLaw.MbdStart_law.
  - one_event mbdDieLog_; by apply MbdDieLaw.MbdDie_law.
  - one_event loadIndexLog_; by apply LoadIndexLaw.LoadIndex_law.
  - one_event logSwitchLog_; apply LogSwitchLaw.LogSwitch_law.
  - one_event jobAttrSetLog_; apply JobAttrSetLaw.JobAttrSet_law.
  - one_event jobFinishLog_; by apply JobFinishLaw.JobFinish_law.
Qed.

(** The status record of sbatchd has no newline. *)
Definition ends_line (type : Z) : bool := negb (type =? EVENT_SBD_JOB_STATUS).

Definition wf_member (type : Z) (log : eventLog) : bool :=
  match log with
  | sbdJobStatusLog_ l => type =? EVENT_SBD_JOB_STATUS
  | _ => wf_log type log
  end.

Definition line_tail (type : Z) (t : cstr) : Prop :=
  if ends_line type then exists n, t = replicate n BLANK ++ newline else t = [].

Lemma wf_log_ends_line type log : wf_log type log = true -> ends_line type = true.
Proof.
  destruct log; simpl; intros Hwf; try discriminate; try (apply andb_true_iff in Hwf as [Ht Hwf]);
    try (apply in_list_two in Ht as [-> | ->]); breflect; subst; reflexivity.
Qed.

Lemma member_law type t log : wf_member type log = true ->
  exists tl, put_log type log = Ok (sep_to (fields_of log) tl) /\ line_tail type tl /\
    Forall (fun f => clean f = true) (fields_of log) /\ visible (sep (fields_of log)) /\
    reads (readEventRecord type t) (at_field (fields_of log)) (norm_log t log).
Proof.
  intros Hwf.
  assert (wf_log type log = true \/
          exists l, log = sbdJobStatusLog_ l /\ type = EVENT_SBD_JOB_STATUS) as [Hlog|(l & -> & ->)].
  { destruct log; simpl in *; auto. right. breflect. eauto. }
  - destruct (log_law type t log Hlog) as (text & Hput & (n & ->) & Hc & Hv & Hr).
    eexists. split; [done|]. split; [|done]. unfold line_tail.
    rewrite (wf_log_ends_line type log Hlog). eauto.
  - destruct (SbdJobStatusLaw.SbdJobStatus_law l) as (Htext & Hc & Hv & Hr). exists []. split_and!; try done.
    + change (Ok (SbdJobStatus.writeSbdJobStatus l) = Ok (sep_to (SbdJobStatusLaw.fields l) [])).
      by rewrite Htext.
    + destruct Hr as (line & Hr). exists line.
      change (readEventRecord EVENT_SBD_JOB_STATUS t)
        with (l ← SbdJobStatus.readSbdJobStatus; mret (sbdJobStatusLog_ l)).
      by rewrite (bind_Ok _ _ _ _ _ Hr).
Qed.

(** ** The beginning of a record *)

(** A version that is read back. *)
Definition version_ok (v : cstr) : bool :=
  clean_fits MAX_VERSION_LEN false v && quote_free v && negb (bad_version (blanked v)).

Definition wf_event (r : eventRec) : bool :=
  version_ok (ev_version r) && wf_member (ev_type r) (ev_eventLog r).

Definition norm_event (r : eventRec) : eventRec :=
  let t := int32 (ev_eventTime r) in
  EventRec (blanked (ev_version r)) (ev_type r) t (norm_log t (ev_eventLog r)).

(** The names that are written are the names that are read. *)
Definition name_ok (p : Z * string) : bool :=
  let etype := lit (snd p) in
  bool_decide (fst (getEventTypeAndKind etype) = Some (fst p)) && quote_free etype &&
  clean_fits MAX_LSB_NAME_LEN true etype && forallb (fun c => negb (isspace c)) etype.

Lemma etypes_ok : forallb name_ok etypes = true.
Proof. vm_compute. reflexivity. Qed.

Lemma etype_of_ok type etype : etype_of type = Some etype ->
  fst (getEventTypeAndKind etype) = Some type /\ quote_free etype = true /\
  clean_fits MAX_LSB_NAME_LEN true etype = true /\ blanked etype = etype.
Proof.
  unfold etype_of. destruct (List.find _ etypes) as [p|] eqn:E; [|done].
  intros [= <-]. apply find_some in E as [Hin Hp]. apply Z.eqb_eq in Hp.
  pose proof etypes_ok as Hok. rewrite forallb_forall in Hok. apply Hok in Hin.
  unfold name_ok in Hin. split_wf. apply bool_decide_eq_true in H. rewrite H, Hp. split_and!; try done.
  apply blanked_id, Forall_forall. intros c Hc.
  match goal with H : forallb (fun c => negb (isspace c)) _ = true |- _ => rewrite forallb_forall in H;
    apply negb_true_iff, H end. by apply list_elem_of_In.
Qed.

Lemma wf_member_etype type log : wf_member type log = true -> exists etype, etype_of type = Some etype.
Proof.
  destruct log; simpl; intros Hwf; try discriminate; try (apply andb_true_iff in Hwf as [Ht Hwf]);
    try (apply in_list_two in Ht as [-> | ->]); breflect; subst; eexists; reflexivity.
Qed.

(** What [stripQStr] does with a line that begins with a string. *)
Lemma quoted_line s fs : exists line,
  at_field (quoted s :: fs) = Some line /\
  stripQStr line = (strlen (quoted (blanked s)), blanked s) /\
  strlen line = strlen (quoted (blanked s)) + strlen (blanked (sep fs)) /\
  advance (strlen (quoted (blanked s)) + 1) line = at_field fs.
Proof.
  exists (quoted (blanked s) ++ blanked (sep fs)). split_and!.
  - by rewrite at_field_cons, blanked_quoted.
  - pose proof (stripQStr_quoted [] (blanked s) (blanked (sep fs))) as H. cbn [app] in H.
    unfold quoted. rewrite <- app_comm_cons, <- app_assoc. cbn [app].
    apply H; [constructor|apply quote_end_fields].
  - unfold strlen. rewrite length_app. lia.
  - apply advance_app.
Qed.

Lemma header_string_at maxLen s f fs : strlen s < maxLen ->
  header_string maxLen (at_field (quoted s :: f :: fs)) = Ok (blanked s, at_field (f :: fs)).
Proof.
  intros Hs. destruct (quoted_line s (f :: fs)) as (line & -> & Hstrip & Hlen & <-).
  unfold header_string. rewrite Hstrip, Hlen, !blanked_length.
  assert (0 <= strlen (quoted (blanked s))) by (unfold strlen; lia).
  assert (0 < strlen (sep (f :: fs))) by (unfold strlen; simpl; lia).
  rewrite (proj2 (Z.ltb_ge _ _)) by lia.
  rewrite (proj2 (Z.eqb_neq _ _)) by lia. cbn [orb]. case_if; [breflect; lia|done].
Qed.

(** ** A record is a line *)

(** All fields of a record, the three of its beginning included. *)
Definition record_fields (etype : cstr) (r : eventRec) : list cstr :=
  quoted etype :: quoted (ev_version r) :: num_field (ev_eventTime r) :: fields_of (ev_eventLog r).

Lemma read_record_fields etype r : etype_of (ev_type r) = Some etype -> wf_event r = true ->
  reads read_record (at_field (record_fields etype r)) (norm_event r).
Proof.
  intros He Hwf. unfold wf_event, version_ok in Hwf. split_wf.
  apply etype_of_ok in He as (Htype & Hq & Hfit & Hbl).
  destruct (member_law (ev_type r) (int32 (ev_eventTime r)) (ev_eventLog r))
    as (tl & _ & _ & _ & _ & Hread); [done|]. unfold read_record, record_fields, norm_event.
  eapply reads_bind; [apply header_string_at|cbv beta].
  { unfold clean_fits, fits in Hfit. by breflect. }
  eapply reads_bind; [apply header_string_at|cbv beta].
  { match goal with H : clean_fits _ _ _ = true |- _ => unfold clean_fits, fits in H end. by breflect. }
  assert (bad_version (blanked (ev_version r)) = false) as -> by by apply negb_true_iff.
  read_step. rewrite Hbl, Htype. destruct Hread as (line & Hread).
  eapply reads_bind; [exact Hread|cbv beta]. apply reads_ret.
Qed.

(** The text of a record: the line of its fields, and how it ends. *)
Lemma put_record r : wf_event r = true ->
  exists etype X tl, etype_of (ev_type r) = Some etype /\ BLANK :: X = sep (record_fields etype r) /\
    lsb_puteventrec r = Ok (X ++ tl) /\ line_tail (ev_type r) tl.
Proof.
  intros Hwf. unfold wf_event, version_ok in Hwf. split_wf.
  destruct (wf_member_etype (ev_type r) (ev_eventLog r)) as (etype & He); [done|].
  destruct (member_law (ev_type r) 0 (ev_eventLog r)) as (tl & Hput & Htl & _); [done|].
  exists etype, (quoted etype ++ sep (tail (record_fields etype r))), tl.
  split_and!; try done. unfold lsb_puteventrec. rewrite He, Hput, sep_to_sep.
  apply etype_of_ok in He as (_ & Hq & _ & _). unfold record_fields. cbn [tail].
  rewrite put_s_quoted by done. rewrite !sep_cons. unfold quoted at 2.
  rewrite (double_quotes_free etype) by done. f_equal. cbn [app]. rewrite <- !app_assoc. cbn [app].
  rewrite <- !app_assoc. cbn [app]. rewrite <- !app_assoc. done.
Qed.

Lemma clean_no_newline s : clean s = true -> no_newline s.
Proof.
  unfold clean, no_newline. intros H. apply Forall_forall. intros c Hc. rewrite forallb_forall in H.
  apply list_elem_of_In, H in Hc. unfold clean_ch in Hc. apply andb_true_iff in Hc as [Hc _].
  by apply negb_true_iff.
Qed.

Lemma clean_no_nul s : clean s = true -> no_nul s.
Proof.
  unfold clean, no_nul. intros H Hin. rewrite forallb_forall in H.
  apply list_elem_of_In, H in Hin. done.
Qed.

Lemma clean_sep fs : Forall (fun f => clean f = true) fs -> clean (sep fs) = true.
Proof.
  induction 1 as [|f fs Hf _ IH]; [done|]. rewrite sep_cons. simpl. by rewrite clean_app, Hf, IH.
Qed.

Lemma record_fields_ok etype r : etype_of (ev_type r) = Some etype -> wf_event r = true ->
  clean (sep (record_fields etype r)) = true /\ visible (sep (fields_of (ev_eventLog r))).
Proof.
  intros He Hwf. unfold wf_event, version_ok in Hwf. split_wf.
  apply etype_of_ok in He as (_ & _ & Hfit & _).
  destruct (member_law (ev_type r) 0 (ev_eventLog r)) as (tl & _ & _ & Hc & Hv & _); [done|].
  split; [|done]. apply clean_sep. unfold record_fields.
  clean_fields.
Qed.

(** A line with a visible end is read as it is, with blanks for its white space. *)
Lemma read_line s n rest : clean s = true -> visible s ->
  getNextLine_ (s ++ replicate n BLANK ++ newline ++ rest) false = Some (Some (blanked s), rest).
Proof.
  intros Hc (s' & c & -> & Hsp). rewrite clean_app in Hc. apply andb_true_iff in Hc as [Hc1 Hc2].
  eapply getNextLine_of_D.
  - rewrite <- app_assoc. cbn [app]. apply getNextLineD_line; [| |done].
    + apply clean_no_newline. rewrite clean_app, Hc1. simpl in *. rewrite andb_true_r in Hc2.
      rewrite Hc2. by apply clean_replicate.
    + apply clean_no_nul. by rewrite clean_app, Hc1, Hc2.
  - rewrite blanked_app, existsb_app. apply orb_true_iff. right. simpl. rewrite orb_false_r.
    unfold spaced. rewrite Hsp. apply negb_true_iff, ch_eqb_neq. by intros ->.
Qed.

(** The last line of a file may lack the newline. *)
Lemma read_last_line s : clean s = true -> visible s -> (1 < length s)%nat ->
  getNextLine_ s false = Some (Some (blanked s), []).
Proof.
  intros Hc (s' & c & -> & Hsp) Hl. eapply getNextLine_of_D.
  - apply getNextLineD_last; [by apply clean_no_newline|by apply clean_no_nul|done|].
    rewrite length_app in Hl. destruct s'; simpl in Hl; [lia|done].
  - rewrite blanked_app, existsb_app. apply orb_true_iff. right. simpl. rewrite orb_false_r.
    unfold spaced. rewrite Hsp. apply negb_true_iff, ch_eqb_neq. by intros ->.
Qed.

(** The line of a record, and what is read from it. *)
Lemma written_record r : wf_event r = true ->
  exists X tl, lsb_puteventrec r = Ok (X ++ tl) /\ line_tail (ev_type r) tl /\
    clean X = true /\ visible X /\ (1 < length X)%nat /\ is_comment (blanked X) = false /\
    parse_event (blanked X) = Ok (norm_event r) /\
    exists etype, etype_of (ev_type r) = Some etype /\
      Some (blanked X) = at_field (record_fields etype r).
Proof.
  intros Hwf. destruct (put_record r Hwf) as (etype & X & tl & He & HX & Hput & Htl).
  destruct (record_fields_ok etype r He Hwf) as (Hclean & Hvis).
  pose proof (read_record_fields etype r He Hwf) as (l' & Hread).
  assert (exists Y, X = QUOTE :: Y ++ sep (fields_of (ev_eventLog r))) as (Y & HY).
  { unfold record_fields in HX. rewrite !sep_cons in HX. unfold quoted at 1 in HX.
    injection HX as ->. eexists. cbn [app]. f_equal. rewrite !app_comm_cons, !app_assoc. done. }
  assert (Some (blanked X) = at_field (record_fields etype r)) as Hat.
  { unfold at_field. rewrite <- HX. unfold blanked. cbn [map]. by rewrite advance_1. }
  exists X, tl. split_and!; try done.
  - rewrite <- HX in Hclean. simpl in Hclean. done.
  - rewrite HY. by apply visible_cons, visible_app.
  - rewrite HY. simpl. destruct Hvis as (s' & c & -> & _). rewrite !length_app. simpl. lia.
  - by rewrite HY.
  - unfold parse_event. by rewrite Hat, Hread.
  - eauto.
Qed.

(** ** The whole log *)

(** What a log holds: records, comments, and lines that are not readable. *)
Inductive log_line :=
| Logged (r : eventRec)
| Comment (s : cstr) (blanks : nat)
| Damaged (s : cstr).

Definition line_text (x : log_line) : cstr :=
  match x with
  | Logged r => match lsb_puteventrec r with Ok text => text | _ => [] end
  | Comment s k => "#"%char :: s ++ replicate k BLANK ++ newline
  | Damaged s => s ++ newline
  end.

(** A damaged line fails with another code than those of the end of the file and of lack of memory;
    a fatal one with the latter. *)
Definition damaged (s : cstr) : bool :=
  negb (is_comment (blanked s)) &&
  match parse_event (blanked s) with Err e => negb (e =? LSBE_EOF) && negb (e =? LSBE_NO_MEM) | _ => false end.
Definition fatal (s : cstr) : bool :=
  negb (is_comment (blanked s)) &&
  match parse_event (blanked s) with Err e => e =? LSBE_NO_MEM | _ => false end.

(** [s] does not end in white space. *)
Definition visible_end (s : cstr) : bool :=
  match last s with Some c => negb (isspace c) | None => false end.

Definition line_ok (x : log_line) : bool :=
  match x with
  | Logged r => wf_event r && ends_line (ev_type r)
  | Comment s _ => clean s && visible_end ("#"%char :: s)
  | Damaged s => clean s && visible_end s && damaged s
  end.

(** What the loop of [init_log] gets from a line. *)
Definition replayed (x : log_line) : list (outcome eventRec) :=
  match x with
  | Logged r => [Ok (norm_event r)]
  | Comment _ _ => []
  | Damaged s => [parse_event (blanked s)]
  end.

Lemma visible_end_spec s : visible_end s = true -> visible s.
Proof.
  unfold visible_end. destruct s as [|c s] using rev_ind; [done|]. rewrite last_snoc.
  intros H. exists s, c. split; [done|]. by apply negb_true_iff.
Qed.

(** *** More fuel does not change what is read *)

Lemma getNextLine_total file b : exists l rest,
  getNextLine_ file b = Some (l, rest) /\ (length rest <= pred (length file))%nat.
Proof.
  destruct (getNextLineC_terminates (line_fuel file) file 0 b) as (l & lc & rest & H & Hr);
    [unfold line_fuel; lia|].
  exists l, rest. unfold getNextLine_. by rewrite H.
Qed.

Lemma event_line_mono fuel fuel' b file x : event_line fuel b file = Some x ->
  (fuel <= fuel')%nat -> event_line fuel' b file = Some x.
Proof.
  revert fuel' b file. induction fuel as [|fuel IH]; intros [|fuel'] b file; simpl; try done; [lia|].
  intros H Hle. destruct (getNextLine_ file false) as [[[l|] rest]|]; [|done..]. simpl in *.
  destruct (is_comment l); [|done]. apply IH; [done|lia].
Qed.

Lemma event_line_total fuel b file : (length file < fuel)%nat -> exists l rest c,
  event_line fuel b file = Some (l, rest, c) /\ (length rest <= pred (length file))%nat.
Proof.
  revert b file. induction fuel as [|fuel IH]; intros b [|c file] Hf; [simpl in Hf; lia..| |];
    [by exists None, [], b|]. cbn [event_line].
  destruct (getNextLine_total (c :: file) false) as (l & rest & -> & Hr). simpl.
  destruct l as [l|]; [|by eauto]. destruct (is_comment l); [|by eauto]. simpl in Hf, Hr.
  destruct (IH true rest) as (l' & rest' & c' & -> & Hr'); [lia|]. eexists _, _, _.
  split; [done|]. lia.
Qed.

(** The line that follows lines of comments, with the fuel of the whole file. *)
Lemma event_line_skip file rest l fuel b : getNextLine_ file false = Some (Some l, rest) ->
  is_comment l = true -> (length rest < fuel)%nat ->
  event_line (S fuel) b file = event_line (line_fuel rest) true rest.
Proof.
  intros Hl Hc Hf.
  destruct (event_line_total (line_fuel rest) true rest) as (l' & rest' & c' & H & _);
    [unfold line_fuel; lia|].
  rewrite H. cbn [event_line]. rewrite Hl. simpl. rewrite Hc.
  apply (event_line_mono _ _ _ _ _ H). unfold line_fuel. lia.
Qed.

(** [lsb_geteventrec] behind comments. *)
Definition get_from (b : bool) (file : cstr) (n : Z) : option (outcome eventRec * cstr * Z * bool) :=
  '(l, file, closed) ← event_line (line_fuel file) b file;
  Some (match l with Some l => parse_event l | None => Err LSBE_EOF end, file, n + 1, closed).

Lemma get_from_comment b file rest l n : getNextLine_ file false = Some (Some l, rest) ->
  is_comment l = true -> file <> [] -> get_from b file n = get_from true rest n.
Proof.
  intros Hl Hc Hne. unfold get_from, line_fuel at 1.
  rewrite (event_line_skip _ _ _ _ _ Hl Hc); [done|].
  destruct (getNextLine_total file false) as (l' & rest' & H & Hr). rewrite Hl in H.
  injection H as <- <-. destruct file; [done|]. simpl in *. lia.
Qed.

Lemma get_from_line b file rest l n : getNextLine_ file false = Some (Some l, rest) ->
  is_comment l = false -> get_from b file n = Some (parse_event l, rest, n + 1, false).
Proof.
  intros Hl Hc. unfold get_from, line_fuel. cbn [event_line]. rewrite Hl. simpl.
  by rewrite Hc.
Qed.

Lemma get_from_total b file n : exists o rest c,
  get_from b file n = Some (o, rest, n + 1, c) /\ (length rest <= pred (length file))%nat.
Proof.
  unfold get_from.
  destruct (event_line_total (line_fuel file) b file) as (l & rest & c & -> & Hr);
    [unfold line_fuel; lia|]. simpl. eauto.
Qed.

(** A call of [lsb_geteventrec] always returns. *)
Lemma geteventrec_total file n : exists o rest c,
  lsb_geteventrec file n = Some (o, rest, n + 1, c) /\ (length rest <= pred (length file))%nat.
Proof. apply (get_from_total false). Qed.

(** The loop when its first call is behind comments. *)
Definition loop_from (fuel : nat) (b : bool) (file : cstr) (n : Z) : option (list (outcome eventRec)) :=
  match fuel with
  | O => None
  | S fuel =>
      '(o, file, n, closed) ← get_from b file n;
      match o with
      | Err e => if e =? LSBE_EOF then Some (if (closed : bool) then [Wild] else [])
                 else if e =? LSBE_NO_MEM then Some [o]
                 else rest ← init_log_loop fuel file n; Some (o :: rest)
      | Wild => Some [o]
      | Ok _ => rest ← init_log_loop fuel file n; Some (o :: rest)
      end
  end.

Lemma init_log_loop_from fuel file n : init_log_loop fuel file n = loop_from fuel false file n.
Proof. by destruct fuel. Qed.

Lemma loop_from_step fuel fuel' b file n x :
  (forall file n x, init_log_loop fuel file n = Some x -> init_log_loop fuel' file n = Some x) ->
  loop_from (S fuel) b file n = Some x -> loop_from (S fuel') b file n = Some x.
Proof.
  intros IH. cbn [loop_from]. destruct (get_from b file n) as [[[[o rest] n'] c]|]; [|done]. simpl.
  assert (forall y, (rest0 ← init_log_loop fuel rest n'; Some (o :: rest0)) = Some y ->
                    (rest0 ← init_log_loop fuel' rest n'; Some (o :: rest0)) = Some y) as Hrest.
  { intros y Hy. destruct (init_log_loop fuel rest n') as [r|] eqn:E; [|done].
    by rewrite (IH _ _ _ E). }
  destruct o as [r|e|]; [by apply Hrest| |done]. repeat case_if; [done..|by apply Hrest].
Qed.

Lemma init_log_loop_mono fuel fuel' file n x : init_log_loop fuel file n = Some x ->
  (fuel <= fuel')%nat -> init_log_loop fuel' file n = Some x.
Proof.
  revert fuel' file n x. induction fuel as [|fuel IH]; intros [|fuel'] file n x; try done; [lia|].
  rewrite !init_log_loop_from. intros H Hle. revert H. apply loop_from_step.
  intros file' n' x' H. apply IH; [done|lia].
Qed.

Lemma loop_from_mono fuel fuel' b file n x : loop_from fuel b file n = Some x ->
  (fuel <= fuel')%nat -> loop_from fuel' b file n = Some x.
Proof.
  destruct fuel as [|fuel], fuel' as [|fuel']; intros H Hle; try done; [lia|]. revert H.
  apply loop_from_step. intros file' n' x' H. apply (init_log_loop_mono _ _ _ _ _ H). lia.
Qed.

(** The loop ends: every read takes a character, or finds the end of the file. *)
Lemma loop_from_total fuel b file n : (length file < fuel)%nat ->
  exists x, loop_from fuel b file n = Some x.
Proof.
  revert b file n. induction fuel as [|fuel IH]; intros b [|c file] n Hf; [simpl in Hf; lia..| |];
    [by eexists|]. cbn [loop_from].
  destruct (get_from_total b (c :: file) n) as (o & rest & c' & -> & Hr). simpl in Hf, Hr. simpl.
  rewrite init_log_loop_from. destruct (IH false rest (n + 1)) as (x & ->); [lia|].
  destruct o as [r|e|]; simpl; [eauto| |eauto]. repeat case_if; eauto.
Qed.

Lemma loop_from_line b file rest o n c : get_from b file n = Some (o, rest, n + 1, c) ->
  match o with Ok _ => True | Err e => e <> LSBE_EOF /\ e <> LSBE_NO_MEM | Wild => False end -> file <> [] ->
  loop_from (line_fuel file) b file n =
    (x ← loop_from (line_fuel rest) false rest (n + 1); Some (o :: x)).
Proof.
  intros H Ho Hne. unfold line_fuel at 1. cbn [loop_from]. rewrite H. simpl.
  assert (init_log_loop (length file) rest (n + 1) =
          loop_from (line_fuel rest) false rest (n + 1)) as ->.
  { destruct (loop_from_total (line_fuel rest) false rest (n + 1)) as (x & Hx);
      [unfold line_fuel; lia|].
    rewrite Hx, init_log_loop_from. apply (loop_from_mono _ _ _ _ _ _ Hx).
    destruct (get_from_total b file n) as (o' & rest' & c' & H' & Hr). rewrite H in H'.
    injection H' as <- <- <-. unfold line_fuel. destruct file; [done|]. simpl in *. lia. }
  destruct o as [r|e|]; [done| |done]. destruct Ho as [He Hm].
  by rewrite (proj2 (Z.eqb_neq _ _) He), (proj2 (Z.eqb_neq _ _) Hm).
Qed.

Lemma loop_from_skip b file rest n : get_from b file n = get_from true rest n ->
  (length rest <= length file)%nat ->
  loop_from (line_fuel file) b file n = loop_from (line_fuel rest) true rest n.
Proof.
  intros H Hle.
  assert (loop_from (line_fuel file) b file n = loop_from (line_fuel file) true rest n) as ->
    by (unfold line_fuel; cbn [loop_from]; by rewrite H).
  destruct (loop_from_total (line_fuel rest) true rest n) as (x & Hx); [unfold line_fuel; lia|].
  rewrite Hx. apply (loop_from_mono _ _ _ _ _ _ Hx). unfold line_fuel. lia.
Qed.

(** *** The lines of a log *)

(** One record in front of a file. *)
Lemma get_from_record b r rest n : wf_event r && ends_line (ev_type r) = true ->
  exists text, lsb_puteventrec r = Ok text /\ text <> [] /\
    get_from b (text ++ rest) n = Some (Ok (norm_event r), rest, n + 1, false).
Proof.
  intros Hok. apply andb_true_iff in Hok as [Hok He].
  destruct (written_record r Hok) as (X & tl & Hput & Htl & Hc & Hv & Hlen & Hcm & Hparse & _).
  unfold line_tail in Htl. rewrite He in Htl. destruct Htl as (k & ->).
  eexists. split; [exact Hput|]. split; [by destruct X|]. rewrite <- !app_assoc.
  rewrite (get_from_line _ _ rest (blanked X)); [by rewrite Hparse| |done]. by apply read_line.
Qed.

Definition is_comment_line (x : log_line) : bool := match x with Comment _ _ => true | _ => false end.

Lemma line_text_lines b x rest n : line_ok x = true -> exists n',
  loop_from (line_fuel (line_text x ++ rest)) b (line_text x ++ rest) n =
  (y ← loop_from (line_fuel rest) (is_comment_line x) rest n'; Some (replayed x ++ y)).
Proof.
  destruct x as [r|s k|s]; simpl line_ok; intros Hok.
  - destruct (get_from_record b r rest n Hok) as (text & Hput & Hne & Hget).
    simpl line_text. rewrite Hput. simpl replayed. exists (n + 1).
    eapply loop_from_line; [exact Hget|done|by destruct text].
  - apply andb_true_iff in Hok as [Hc Hv]. apply visible_end_spec in Hv. exists n.
    assert (getNextLine_ (line_text (Comment s k) ++ rest) false =
            Some (Some (blanked ("#"%char :: s)), rest)) as Hline.
    { simpl line_text. rewrite <- app_comm_cons, <- !app_assoc.
      by apply (read_line ("#"%char :: s) k rest). }
    rewrite (loop_from_skip _ _ rest); [| |simpl; rewrite length_app; lia].
    + simpl replayed. simpl is_comment_line. by destruct (loop_from (line_fuel rest) true rest n).
    + by apply (get_from_comment _ _ _ _ _ Hline).
  - apply andb_true_iff in Hok as [Hok Hd]. apply andb_true_iff in Hok as [Hc Hv].
    apply visible_end_spec in Hv. unfold damaged in Hd. apply andb_true_iff in Hd as [Hcm Hd].
    apply negb_true_iff in Hcm. simpl line_text. simpl replayed. rewrite <- app_assoc.
    exists (n + 1). eapply loop_from_line.
    + rewrite (get_from_line _ _ rest (blanked s)); [done| |done].
      by apply (read_line s 0 rest).
    + destruct (parse_event (blanked s)) as [|e|]; [done| |done]. breflect. done.
    + destruct Hv as (s' & c & -> & _). by destruct s'.
Qed.

(** The file is closed twice when comments are at its end. *)
Fixpoint closed_twice (b : bool) (xs : list log_line) : bool :=
  match xs with
  | [] => b
  | x :: xs => closed_twice (is_comment_line x) xs
  end.

Lemma replay_lines b xs rest n : forallb line_ok xs = true -> exists n',
  loop_from (line_fuel (flat_map line_text xs ++ rest)) b (flat_map line_text xs ++ rest) n =
  (y ← loop_from (line_fuel rest) (closed_twice b xs) rest n'; Some (flat_map replayed xs ++ y)).
Proof.
  revert b n. induction xs as [|x xs IH]; intros b n Hok.
  { exists n. cbn [flat_map app closed_twice]. destruct (loop_from (line_fuel rest) b rest n); reflexivity. }
  simpl in Hok. apply andb_true_iff in Hok as [Hx Hxs]. cbn [flat_map closed_twice]. rewrite <- !app_assoc.
  destruct (line_text_lines b x (flat_map line_text xs ++ rest) n Hx) as (n1 & ->).
  destruct (IH (is_comment_line x) n1 Hxs) as (n' & ->). exists n'.
  destruct (loop_from (line_fuel rest) _ rest n'); simpl; [by rewrite app_assoc|done].
Qed.

Lemma fatal_line b s more n : clean s && visible_end s && fatal s = true ->
  loop_from (line_fuel (s ++ newline ++ more)) b (s ++ newline ++ more) n = Some [Err LSBE_NO_MEM].
Proof.
  intros Hok. apply andb_true_iff in Hok as [Hok Hd]. apply andb_true_iff in Hok as [Hc Hv].
  apply visible_end_spec in Hv. unfold fatal in Hd. apply andb_true_iff in Hd as [Hcm Hd].
  apply negb_true_iff in Hcm. unfold line_fuel. cbn [loop_from].
  rewrite (get_from_line _ _ more (blanked s)); [|by apply (read_line s 0 more)|done]. cbn [mbind option_bind].
  destruct (parse_event (blanked s)) as [|e|]; [done| |done]. apply Z.eqb_eq in Hd. by subst e.
Qed.

(** ** The theorems *)

(** C4: a log made of records that
    [lsb_puteventrec] wrote, of all kinds that end their line, of comments and of
    damaged lines, is read by the loop of [init_log] to its end: every record
    comes back in order, with the numbers as ints and the white space of its texts
    as blanks; comments are passed over; and a damaged line costs nothing but
    itself.  When the log ends with a comment, its file is closed twice.  A line is damaged
    in this sense when its reader fails with another code than LSBE_NO_MEM. At the first line
    for which it fails with that one ([fatal]: a negative number of hosts is enough) mbatchd dies, and
    nothing behind it is read. *)
Theorem event_log_replay xs : forallb line_ok xs = true ->
  read_log (flat_map line_text xs) =
    Some (flat_map replayed xs ++ if closed_twice false xs then [Wild] else []) /\
  forall s more, clean s && visible_end s && fatal s = true ->
    read_log (flat_map line_text xs ++ s ++ newline ++ more) = Some (flat_map replayed xs ++ [Err LSBE_NO_MEM]).
Proof.
  intros Hok. unfold read_log. split; [|intros s more Hs]; rewrite init_log_loop_from.
  - destruct (replay_lines false xs [] 0 Hok) as (n & H). rewrite app_nil_r in H. by rewrite H.
  - destruct (replay_lines false xs (s ++ newline ++ more) 0 Hok) as (n & ->). by rewrite fatal_line.
Qed.

(** C40: reading a log ends for every file, whatever
    it holds, and so does a single call of [lsb_geteventrec], which moves forward
    or is at the end of the file. *)
Theorem read_log_total file : (exists x, read_log file = Some x) /\
  forall n, exists o rest c, lsb_geteventrec file n = Some (o, rest, n + 1, c) /\
    (length rest <= pred (length file))%nat.
Proof.
  split; [|intros; apply geteventrec_total]. unfold read_log. rewrite init_log_loop_from.
  apply loop_from_total. unfold line_fuel. lia.
Qed.

(** ** A log *)

Definition sample_limits : list Z := [-1; 2048; -1; -1; -1; 500; -1; -1; 65536; -1; -1].

Definition sample_job : JobNew.jobNewLog :=
  JobNew.JobNewLog 101 500 (lit "ann") 0x2000000 0 1 1400000000 0 0 0 0 0 sample_limits
    (lit "hostA") (S754_finite false 10485760 (-22)) 18 (lit "normal") (lit "select[mem > 100]")
    (lit "hostA") (lit "/home/ann") [] [] (lit "/dev/null") [] [] [] [] (lit "/home/ann")
    (lit "1400000000.101") 2 [lit "hostA"; lit "hostB"] (lit "done(100)") (lit "sim run")
    (lit "sim -x 'a b'") 1 [XFile (lit "in.dat") (lit "data") 1] [] [] (lit "default") 0 1
    (lit "LINUX") [] 0 (-1).

Definition sample_log : list log_line :=
  [Comment (lit "80") 60;
   Logged (EventRec (lit "30") EVENT_MBD_START 1400000000
     (mbdStartLog_ (MbdStart.MbdStartLog (lit "hostA") (lit "cluster1") 2 3)));
   Logged (EventRec (lit "30") EVENT_JOB_NEW 1400000001 (jobNewLog_ sample_job));
   Damaged (lit "JOB_START");
   Damaged (addQStr (lit "JOB_GUESS") ++ addQStr (lit "30") ++ lit " 1400000002 101");
   Logged (EventRec (lit "30") EVENT_JOB_START 1400000003
     (jobStartLog_ (JobStart.JobStartLog 101 4 0 0 (S754_finite false 10485760 (-22)) 1 [lit "hostB"]
        [] [] 0 0)));
   Logged (EventRec (lit "30") EVENT_QUEUE_CTRL 1400000004
     (queueCtrlLog_ (QueueCtrl.QueueCtrlLog 3 (lit "normal") 0 (lit "root"))));
   Logged (EventRec (lit "30") EVENT_JOB_REQUEUE 1400000005
     (jobRequeueLog_ (JobRequeueEvent.JobRequeueLog 101 0)))].

(** The start of a job on -1 hosts. *)
Definition fatal_start : cstr :=
  addQStr (lit "JOB_START") ++ addQStr (lit "30") ++ lit " 1400000002 101 4 0 0 10.0 -1".

Lemma event_log_replay_witness :
  forallb line_ok sample_log = true /\ length (flat_map replayed sample_log) = 7%nat /\
  read_log (flat_map line_text sample_log) =
    Some (flat_map replayed sample_log ++ if closed_twice false sample_log then [Wild] else []) /\
  read_log (flat_map line_text sample_log ++ fatal_start ++ newline ++ flat_map line_text sample_log) =
    Some (flat_map replayed sample_log ++ [Err LSBE_NO_MEM]).
Proof.
  destruct (event_log_replay sample_log ltac:(vm_compute; reflexivity)) as [H1 H2].
  split; [vm_compute; reflexivity|]. split; [vm_compute; reflexivity|]. split; [exact H1|].
  apply H2. vm_compute. reflexivity.
Defined.

Example requeue_text :
  line_text (Logged (EventRec (lit "30") EVENT_JOB_REQUEUE 1400000005
     (jobRequeueLog_ (JobRequeueEvent.JobRequeueLog 101 0)))) =
  [QUOTE] ++ lit "JOB_REQUEUE" ++ [QUOTE; BLANK; QUOTE] ++ lit "30" ++ [QUOTE] ++
    lit " 1400000005 101 0" ++ newline.
Proof. vm_compute. reflexivity. Qed.

(** A record whose numbers are cut off: the reader goes on behind the NUL. *)
Example truncated_record :
  parse_event (tail (addQStr (lit "JOB_REQUEUE") ++ addQStr (lit "30") ++ lit " 1400000005 101")) =
  Wild.
Proof. vm_compute. reflexivity. Qed.

(** A job status of [sbatchd] is written without a newline: it is the only record
    of its file.  In front of another record it hides that one. *)
Definition status_record : eventRec :=
  EventRec (lit "30") EVENT_SBD_JOB_STATUS 1400000006
    (sbdJobStatusLog_ (SbdJobStatus.SbdJobStatusLog 101 4 0 0 7 0 0 0 0 0 0 0)).

Example status_record_alone : wf_event status_record = true /\
  read_log (line_text (Logged status_record)) = Some [Ok status_record].
Proof. vm_compute. done. Qed.

Example status_record_hides :
  read_log (line_text (Logged status_record) ++
    line_text (Logged (EventRec (lit "30") EVENT_JOB_REQUEUE 1400000005
      (jobRequeueLog_ (JobRequeueEvent.JobRequeueLog 101 0))))) = Some [Ok status_record].
Proof. vm_compute. done. Qed.

(** A log that has only the comment with which it is created. *)
Example fresh_log : read_log (line_text (Comment (lit "80") 60)) = Some [Wild].
Proof. vm_compute. reflexivity. Qed.
