(* ===== verification/EventKept.v ===== *)
(** * What a record of the event log keeps

    [EventReplay] says which record is read for the one that was written.  Here
    are the records that are the same: the counters of resource usage, the limits
    of a submission, and the submission of a job as a whole. *)

From S2P Require Import Prelude CLib HashTable JobId Xdr LsbXdr Words Stdio EventText EventLog.
From S2P Require Import EventLaws EventRoundTrip EventReplay.
From Stdlib Require Import SpecFloat.

(** ** Numbers *)

(** The counters of resource usage, all fields but the two times. *)
Definition counts (u : lsfRusage) : list spec_float :=
  [ru_maxrss u; ru_ixrss u; ru_ismrss u; ru_idrss u; ru_isrss u; ru_minflt u; ru_majflt u;
   ru_nswap u; ru_inblock u; ru_oublock u; ru_ioch u; ru_msgsnd u; ru_msgrcv u; ru_nsignals u;
   ru_nvcsw u; ru_nivcsw u; ru_exutime u].

Lemma counts_norm u : counts (norm_rusage u) = map (double_text 0) (counts u).
Proof. reflexivity. Qed.

(** Counters are read back exactly. *)
Lemma counts_kept u : Forall is_count (counts u) -> counts (norm_rusage u) = counts u.
Proof.
  rewrite counts_norm. generalize (counts u) as l. induction 1 as [|x l Hx _ IH]; [done|].
  simpl. by rewrite IH, count_text.
Qed.

(** *** Limits of a submission *)

Lemma limit_ok_bound l i : limitIsOk_ l = true -> in_kb i = true -> nth (Z.to_nat i) l 0 < 2 ^ 31 ->
  nth (Z.to_nat i) l 0 < 2 ^ 21.
Proof.
  unfold limitIsOk_. intros Hok Hi Hr. apply negb_true_iff in Hok.
  assert (EXCEED_MAX_INT (nth (Z.to_nat i) l 0) = 0) as H.
  { destruct (decide (EXCEED_MAX_INT (nth (Z.to_nat i) l 0) = 0)) as [|Hne]; [done|]. exfalso.
    assert (existsb (fun i => negb (EXCEED_MAX_INT (nth (Z.to_nat i) l 0) =? 0))
      [LSF_RLIMIT_FSIZE; LSF_RLIMIT_DATA; LSF_RLIMIT_STACK; LSF_RLIMIT_CORE; LSF_RLIMIT_RSS;
       LSF_RLIMIT_SWAP] = true) as Hex; [|congruence].
    apply existsb_exists. exists i. split; [|by apply negb_true_iff, Z.eqb_neq].
    unfold in_kb in Hi. repeat (apply orb_true_iff in Hi as [Hi|Hi]); apply Z.eqb_eq in Hi as ->;
      simpl; unfold LSF_RLIMIT_SWAP; auto 10. }
  unfold EXCEED_MAX_INT in H. destruct (0 <? nth (Z.to_nat i) l 0) eqn:Hp; breflect; [|lia].
  rewrite uint_of_id in H by (unfold in_uint; lia). rewrite Z.shiftr_div_pow2 in H by lia.
  apply Z.div_small_iff in H; lia.
Qed.

Lemma convertRLimit_lookup l b i : convertRLimit l b !! i =
  (fun lim => if in_kb (Z.of_nat i) && (0 <? lim) then
                if b then lim `quot` 1024 else int32 (lim * 1024) else lim) <$> l !! i.
Proof. unfold convertRLimit. by rewrite list_lookup_imap. Qed.

(** A limit in kilobytes that is sent in bytes comes back. *)
Lemma convertRLimit_back l : forallb in_int l = true -> limitIsOk_ l = true ->
  convertRLimit (map int32 (convertRLimit l false)) true = l.
Proof.
  intros Hin Hok. apply list_eq. intros i.
  rewrite convertRLimit_lookup, list_lookup_fmap, convertRLimit_lookup.
  destruct (l !! i) as [lim|] eqn:Hl; [|done]. simpl. f_equal.
  assert (in_int lim = true) as Hi.
  { rewrite forallb_forall in Hin. apply Hin, list_elem_of_In. by eapply list_elem_of_lookup_2. }
  assert (- 2 ^ 31 <= lim < 2 ^ 31) as Hr by (unfold in_int in Hi; breflect; lia).
  assert (forall z, - 2 ^ 31 <= z < 2 ^ 31 -> int32 z = z) as Hid.
  { intros z Hz. by apply sint_of_id. }
  destruct (in_kb (Z.of_nat i)) eqn:Hk; simpl; [|by apply Hid].
  destruct (0 <? lim) eqn:Hp; simpl.
  - assert (nth (Z.to_nat (Z.of_nat i)) l 0 = lim) as Hn.
    { by rewrite Nat2Z.id, nth_lookup, Hl. }
    assert (lim < 2 ^ 21) as Hb.
    { rewrite <- Hn. apply limit_ok_bound; [done..|]. rewrite Hn. lia. }
    breflect. rewrite !(Hid (lim * 1024)) by lia.
    destruct (0 <? lim * 1024) eqn:Hp2; breflect; [|lia]. by apply Z.quot_mul.
  - rewrite Hid, Hp by lia. done.
Qed.

(** ** The submission of a job *)

(** No white space but blanks. *)
Definition plain_text (s : cstr) : bool := forallb (fun c => ch_eqb (spaced c) c) s.

Lemma plain_text_blanked s : plain_text s = true -> blanked s = s.
Proof.
  intros H. apply blanked_plain, Forall_forall. intros c Hc. unfold plain_text in H.
  rewrite forallb_forall in H. by apply ch_eqb_eq, H, list_elem_of_In.
Qed.

Lemma plain_text_line s : plain_text s = true -> subNewLine_ s = s.
Proof.
  intros H. apply subNewLine_id, Forall_forall. intros c Hc. apply ch_eqb_neq. intros ->.
  unfold plain_text in H.
  rewrite forallb_forall in H. apply list_elem_of_In, H in Hc. discriminate.
Qed.

Lemma map_same {A} (f : A -> A) (p : A -> bool) l : (forall a, p a = true -> f a = a) ->
  forallb p l = true -> map f l = l.
Proof.
  intros Hf. induction l as [|a l IH]; [done|]. simpl. intros H.
  apply andb_true_iff in H as [Ha Hl]. by rewrite Hf, IH.
Qed.

Definition plain_xf (f : xFile) : bool :=
  plain_text (xf_subFn f) && plain_text (xf_execFn f) && in_int (xf_options f).

Lemma plain_xf_same f : plain_xf f = true -> norm_xf f = f.
Proof.
  destruct f. unfold plain_xf, norm_xf. simpl. intros H. split_wf.
  by rewrite !plain_text_blanked, in_int_spec.
Qed.

Module JobNewKept.
Import JobNew JobNewLaw.

(** The numbers are ints, the texts have no white space but blanks, limits that
    are too large to be converted are marked, as [lsb_submit] does, and a port belongs
    to a job that uses it. *)
Definition exact (l : jobNewLog) : bool :=
  forallb in_int
    [jobId l; userId l; options l; options2 l; numProcessors l; submitTime l; beginTime l;
     termTime l; sigValue l; chkpntPeriod l; restartPid l; umask l; numAskedHosts l; nxf l;
     niosPort l; maxNumProcessors l; idx l; userPriority l] &&
  forallb in_int (rLimits l) && (has (options l) SUB_RLIMIT_UNIT_IS_KB || limitIsOk_ (rLimits l)) &&
  forallb plain_text
    [userName l; hostSpec l; queue l; resReq l; fromHost l; cwd l; chkpntDir l; inFile l;
     outFile l; errFile l; inFileSpool l; commandSpool l; jobSpoolDir l; subHomeDir l; jobFile l;
     dependCond l; jobName l; command l; preExecCmd l; mailUser l; projectName l;
     schedHostType l; loginShell l] &&
  forallb plain_text (askedHosts l) && forallb plain_xf (xf l) &&
  (interactive l || block l || (niosPort l =? 0)).

Lemma norm_exact l : exact l = true -> float_text 2 (hostFactor l) = hostFactor l -> norm l = l.
Proof.
  unfold exact. cbn [forallb]. intros H Hf. split_wf.
  assert (norm_limits l = rLimits l) as Hlim.
  { unfold norm_limits, limits. destruct (has (options l) SUB_RLIMIT_UNIT_IS_KB) eqn:Hk; simpl.
    - eapply map_same; [exact in_int_spec|done].
    - by apply convertRLimit_back. }
  assert (norm_port l = niosPort l) as Hport.
  { unfold norm_port. rewrite in_int_spec by done.
    destruct (block l), (interactive l); try done.
    symmetry. by apply Z.eqb_eq. }
  assert (map blanked (askedHosts l) = askedHosts l) as Hhosts
    by by eapply map_same; [exact plain_text_blanked|].
  assert (map norm_xf (xf l) = xf l) as Hxf by by eapply map_same; [exact plain_xf_same|].
  unfold norm, line_blanked. rewrite Hlim, Hport, Hhosts, Hxf, Hf.
  rewrite !in_int_spec, !plain_text_line, !plain_text_blanked by done. by destruct l.
Qed.

End JobNewKept.

(** C13: a JOB_NEW record whose numbers are ints, whose texts have no white space
    but blanks, whose limits fit into ints as bytes ([limitIsOk_]) unless they are
    marked as kilobytes, and whose host factor has two decimals is read back from
    the log unchanged, its limits converted to bytes and back. *)
Theorem job_new_kept r l rest n : ev_eventLog r = jobNewLog_ l ->
  wf_event r = true -> plain_text (ev_version r) = true -> in_int (ev_eventTime r) = true ->
  JobNewKept.exact l = true -> float_text 2 (JobNew.hostFactor l) = JobNew.hostFactor l ->
  exists text, lsb_puteventrec r = Ok text /\
    lsb_geteventrec (text ++ rest) n = Some (Ok r, rest, n + 1, false).
Proof.
  intros Hl Hwf Hv Ht He Hf.
  assert (ends_line (ev_type r) = true) as Hends.
  { unfold wf_event, wf_member, wf_log in Hwf. rewrite Hl in Hwf. split_wf.
    match goal with H : in_list _ _ = true |- _ => apply in_list_two in H as [-> | ->]; done end. }
  destruct (get_from_record false r rest n) as (text & Hput & _ & Hget); [by rewrite Hwf|].
  exists text. split; [done|]. change lsb_geteventrec with (get_from false).
  rewrite Hget. unfold norm_event.
  rewrite Hl, plain_text_blanked, in_int_spec by done. cbn [norm_log].
  rewrite JobNewKept.norm_exact, <- Hl by done. by destruct r.
Qed.

Lemma job_new_kept_witness : exists text,
  lsb_puteventrec (EventRec (lit "30") EVENT_JOB_NEW 1400000001 (jobNewLog_ sample_job)) = Ok text /\
  lsb_geteventrec (text ++ lit "rest") 4 =
    Some (Ok (EventRec (lit "30") EVENT_JOB_NEW 1400000001 (jobNewLog_ sample_job)),
          lit "rest", 4 + 1, false).
Proof.
  apply (job_new_kept (EventRec (lit "30") EVENT_JOB_NEW 1400000001 (jobNewLog_ sample_job))
           sample_job); try reflexivity; vm_compute; reflexivity.
Defined.

(** A limit of 4 terabytes is no int in bytes: [lsb_submit] marks such limits, and
    they are not converted. *)
Example large_limit : limitIsOk_ [-1; 2 ^ 32 / 1024] = false /\
  convertRLimit [-1; 2 ^ 32 / 1024] false = [-1; 0].
Proof. vm_compute. done. Qed.
