(* ===== verification/EventFilter.v ===== *)
(** * The records of given jobs

    [lsbGetNextJobRecFromFile] walks through the log and returns the records of
    the jobs that it is asked for, without parsing the others: it finds the number
    of the job in the text of the line.  The theorem says that it returns what a
    selection among all records would. *)

From S2P Require Import Prelude CLib HashTable JobId Xdr LsbXdr Words Stdio EventText EventLog.
From S2P Require Import EventLaws EventRoundTrip EventReplay.
From Stdlib Require Import SpecFloat.

(** ** Which records are selected *)

(** The digits at the beginning of the printed identifier of a modified job. *)
Definition id_digits (jobIdStr : cstr) : cstr := fst (span isdigit jobIdStr).

(** The job of a record. *)
Definition job_of (log : eventLog) : option Z :=
  match log with
  | jobNewLog_ l => Some (JobNew.jobId l)
  | jobModLog_ l => Some (saturate (digits_val (id_digits (JobMod.jobIdStr l))))
  | jobStartLog_ l => Some (JobStart.jobId l)
  | jobStartAcceptLog_ l => Some (JobStartAccept.jobId l)
  | jobExecuteLog_ l => Some (JobExecute.jobId l)
  | jobStatusLog_ l => Some (JobStatusEvent.jobId l)
  | sbdJobStatusLog_ l => Some (SbdJobStatus.jobId l)
  | jobSwitchLog_ l => Some (JobSwitch.jobId l)
  | jobMoveLog_ l => Some (JobMove.jobId l)
  | migLog_ l => Some (Mig.jobId l)
  | signalLog_ l => Some (JobSignal.jobId l)
  | jobForceRequestLog_ l => Some (JobForce.jobId l)
  | sigactLog_ l => Some (JobSigAct.jobId l)
  | jobRequeueLog_ l => Some (JobRequeueEvent.jobId l)
  | jobCleanLog_ l => Some (JobClean.jobId l)
  | chkpntLog_ l => Some (Chkpnt.jobId l)
  | jobAttrSetLog_ l => Some (JobAttrSet.jobId l)
  | jobFinishLog_ l => Some (JobFinish.jobId l)
  | _ => None
  end.

(** Messages are written with the number of the user in front of that of the job;
    what is compared with the jobs is the former. *)
Definition compared_with (log : eventLog) : option Z :=
  match log with
  | jobMsgLog_ l => Some (JobMsg.usrId l)
  | _ => job_of log
  end.

(** A submission is returned whatever its job is. *)
Definition selected (jobIds : list Z) (r : eventRec) : bool :=
  match compared_with (ev_eventLog r) with
  | None => false
  | Some j =>
      bool_decide (jobIds = []) || (ev_type r =? EVENT_JOB_NEW) ||
      existsb (fun k => LSB_ARRAY_JOBID k =? int32 j) jobIds
  end.

(** The identifier of a modified job begins with its number. *)
Definition id_ok (jobIdStr : cstr) : bool :=
  negb (bool_decide (id_digits jobIdStr = [])) && quote_free jobIdStr.

Definition wf_id (log : eventLog) : bool :=
  match log with
  | jobModLog_ l => id_ok (JobMod.jobIdStr l)
  | _ => true
  end.

(** ** The number in the text *)

Lemma scan_d_digits ds t : Forall (fun c => isdigit c = true) ds -> ds <> [] ->
  match t with [] => True | c :: _ => isdigit c = false end ->
  scan_d (ds ++ t) = Some (int32 (saturate (digits_val ds)), t).
Proof.
  intros Hd Hne Ht. destruct ds as [|c ds]; [done|]. inversion Hd as [|? ? Hc Hds]; subst.
  assert (strtol ((c :: ds) ++ t) = (saturate (digits_val (c :: ds)), t)) as Hs.
  { unfold strtol. rewrite <- app_comm_cons, span_none by by apply isdigit_not_space.
    assert (scan_sign (c :: ds ++ t) = (false, c :: ds ++ t)) as ->
      by (clear -Hc; by destruct c as [[] [] [] [] [] [] [] []]).
    rewrite app_comm_cons, span_app by done. done. }
  unfold scan_d. rewrite Hs, length_app. rewrite (proj2 (Nat.eqb_neq _ _)); [done|]. simpl. lia.
Qed.

Lemma conv_quoted_d_at s fs : id_ok s = true ->
  exists line, conv_quoted_d (at_field (quoted s :: fs)) =
    Ok (int32 (saturate (digits_val (id_digits s))), line).
Proof.
  intros Hid. unfold id_ok in Hid. split_wf. unfold id_digits in *.
  pose proof (span_concat isdigit s) as Hs. pose proof (span_fst isdigit s) as Hd.
  pose proof (span_snd isdigit s) as Hr. destruct (span isdigit s) as [ds r]. simpl in *.
  assert (ds <> []) as Hne by (intros ->; by rewrite bool_decide_eq_true_2 in H).
  rewrite at_field_cons, blanked_quoted. unfold conv_quoted_d, conv, quoted.
  rewrite <- app_comm_cons, ch_eqb_refl.
  assert (double_quotes (blanked s) = ds ++ blanked r) as ->.
  { rewrite <- Hs, blanked_app, (blanked_plain ds) by by apply plain_digits.
    apply double_quotes_free. rewrite <- Hs in H0. unfold quote_free in *.
    rewrite forallb_app in H0 |- *. apply andb_true_iff in H0 as [H1 H2].
    apply andb_true_iff. split; [done|].
    unfold blanked. clear -H2. induction r as [|c r IH]; [done|]. simpl in *.
    apply andb_true_iff in H2 as [Hc Hr]. rewrite (IH Hr), andb_true_r.
    unfold spaced. by case_if. }
  rewrite <- !app_assoc, scan_d_digits; [eauto|done..|].
  destruct r as [|c r]; simpl; [done|]. unfold spaced. by case_if.
Qed.

(** The conversion finds the number that is compared. *)
Lemma event_jobid_law type log : wf_member type log = true -> wf_id log = true ->
  match compared_with log with
  | None => in_list type job_events = false
  | Some j =>
      in_list type job_events = true /\
      exists scan line, event_jobid type = Some scan /\
        scan (at_field (fields_of log)) = Ok (int32 j, line)
  end.
Proof.
  destruct log as [l|l|l|l|l|l|l|l|l|l|l|l|l|l|l|l|l|l|l|l|l|l|l|l|l|l]; cbn [wf_member wf_log compared_with job_of];
    intros Hwf Hid; try (apply andb_true_iff in Hwf as [Ht Hwf]);
    try (apply in_list_two in Ht as [-> | ->]); breflect; subst; try done;
    try (split; [done|]; eexists _, _; split; [reflexivity|]; apply conv_d_at).
  - split; [done|]. destruct (conv_quoted_d_at (JobMod.jobIdStr l)
      (tail (fields_of (jobModLog_ l))) Hid) as (line & Hline).
    eexists _, _. split; [reflexivity|exact Hline].
  - split; [done|]. eexists _, _. split; [reflexivity|]. cbn [fields_of].
    unfold JobSwitchLaw.fields. rewrite (bind_Ok _ _ _ _ _ (conv_d_at _ _)). apply conv_d_after.
  - split; [done|]. eexists _, _. split; [reflexivity|]. cbn [fields_of].
    unfold JobMoveLaw.fields. rewrite (bind_Ok _ _ _ _ _ (conv_d_at _ _)). apply conv_d_after.
Qed.

Lemma kind_of_type etype type : etype_of type = Some etype ->
  getEventTypeAndKind etype =
    (Some type, if in_list type job_events then EVENT_JOB_RELATED else EVENT_NON_JOB_RELATED).
Proof.
  intros He. apply etype_of_ok in He as (H & _). unfold getEventTypeAndKind in *.
  destruct (List.find _ type_names) as [p|]; [|done]. simpl in H. by injection H as ->.
Qed.

(** What the walk makes of the line of a record. *)
Lemma job_record_law jobIds etype r : etype_of (ev_type r) = Some etype -> wf_event r = true ->
  wf_id (ev_eventLog r) = true ->
  reads (job_record jobIds) (at_field (record_fields etype r))
    (if selected jobIds r then Some (norm_event r) else None).
Proof.
  intros He Hwf Hid. unfold wf_event, version_ok in Hwf. split_wf.
  pose proof (kind_of_type _ _ He) as Hkind. apply etype_of_ok in He as (_ & _ & Hfit & Hbl).
  pose proof (event_jobid_law (ev_type r) (ev_eventLog r)) as Hjob.
  specialize (Hjob ltac:(done) Hid). unfold job_record, record_fields, selected.
  assert (strlen etype < MAX_LSB_NAME_LEN) as Hlen by (unfold clean_fits, fits in Hfit; by breflect).
  assert (strlen (ev_version r) < MAX_VERSION_LEN) as Hlenv
    by (match goal with H : clean_fits _ _ (ev_version r) = true |- _ => unfold clean_fits, fits in H end; by breflect).
  eapply reads_bind; [apply strip_buf_at; unfold MAXLINELEN, MAX_LSB_NAME_LEN in *; lia|cbv beta].
  rewrite Hbl, Hkind. rewrite (proj2 (Z.leb_gt _ _)) by done.
  destruct (compared_with (ev_eventLog r)) as [j|]; [|rewrite Hjob; apply reads_ret].
  destruct Hjob as (-> & scan & line & Hscan & Hline). cbn [negb Z.eqb EVENT_JOB_RELATED].
  eapply reads_bind; [apply strip_buf_at; unfold MAXLINELEN, MAX_VERSION_LEN in *; lia|cbv beta].
  assert (bad_version (blanked (ev_version r)) = false) as -> by by apply negb_true_iff.
  rewrite blanked_length, (proj2 (Z.leb_gt _ _)) by done. cbn [orb]. read_step.
  set (mine := bool_decide (jobIds = []) || (ev_type r =? EVENT_JOB_NEW) ||
      existsb (fun k => LSB_ARRAY_JOBID k =? int32 j) jobIds).
  assert (check_job (ev_type r) jobIds (at_field (fields_of (ev_eventLog r))) =
          Ok (mine, at_field (fields_of (ev_eventLog r)))) as Hcheck.
  { unfold check_job, checkJobEventAndJobId. by rewrite Hscan, Hline. }
  eapply reads_bind; [exact Hcheck|cbv beta]. destruct mine; [|apply reads_ret]. cbn [negb].
  destruct (member_law (ev_type r) (int32 (ev_eventTime r)) (ev_eventLog r))
    as (tl & _ & _ & _ & _ & (line' & Hread)); [done|].
  eapply reads_bind; [exact Hread|cbv beta]. apply reads_ret.
Qed.

(** ** The walk through a log *)

(** The calls that a client makes: one after the other, to the end of the file. *)
Fixpoint job_log_loop (fuel : nat) (file : cstr) (lineNum : Z) (jobIds : list Z)
    : option (list (outcome eventRec)) :=
  match fuel with
  | O => None
  | S fuel =>
      '(o, file, lineNum) ← lsbGetNextJobRecFromFile file lineNum jobIds;
      match o with
      | Err e => if e =? LSBE_EOF then Some []
                 else rest ← job_log_loop fuel file lineNum jobIds; Some (o :: rest)
      | _ => rest ← job_log_loop fuel file lineNum jobIds; Some (o :: rest)
      end
  end.

Definition read_job_log (file : cstr) (jobIds : list Z) : option (list (outcome eventRec)) :=
  job_log_loop (line_fuel file) file 0 jobIds.

Lemma next_job_record_mono fuel fuel' file n jobIds x : next_job_record fuel file n jobIds = Some x ->
  (fuel <= fuel')%nat -> next_job_record fuel' file n jobIds = Some x.
Proof.
  revert fuel' file n. induction fuel as [|fuel IH]; intros [|fuel'] file n; try done; [lia|].
  cbn [next_job_record]. intros H Hle.
  destruct (getNextLine_ file false) as [[[l|] rest]|]; [|done..]. simpl in *.
  destruct (is_comment l); [by apply IH; [|lia]|].
  destruct (job_record jobIds (Some l)) as [[[r|] ?]| |]; [done| |done..]. by apply IH; [|lia].
Qed.

Lemma next_job_record_total fuel file n jobIds : (length file < fuel)%nat ->
  exists o rest n', next_job_record fuel file n jobIds = Some (o, rest, n') /\
    (length rest <= pred (length file))%nat.
Proof.
  revert file n. induction fuel as [|fuel IH]; intros [|c file] n Hf; [simpl in Hf; lia..| |];
    [by eexists _, _, _|]. cbn [next_job_record].
  destruct (getNextLine_total (c :: file) false) as (l & rest & -> & Hr). simpl in *.
  destruct l as [l|]; [|by eexists _, _, _].
  destruct (IH rest (n + 1)) as (o & rest' & n' & Hn & Hr'); [lia|].
  destruct (is_comment l); [rewrite Hn; eexists _, _, _; split; [done|lia]|].
  destruct (job_record jobIds (Some l)) as [[[r|] ?]| |];
    [|rewrite Hn|..]; eexists _, _, _; split; try done; lia.
Qed.

Lemma job_log_loop_mono fuel fuel' file n jobIds x : job_log_loop fuel file n jobIds = Some x ->
  (fuel <= fuel')%nat -> job_log_loop fuel' file n jobIds = Some x.
Proof.
  revert fuel' file n x. induction fuel as [|fuel IH]; intros [|fuel'] file n x; try done; [lia|].
  cbn [job_log_loop]. intros H Hle.
  destruct (lsbGetNextJobRecFromFile file n jobIds) as [[[o rest] n']|]; [|done]. simpl in *.
  assert (forall y, (rest0 ← job_log_loop fuel rest n' jobIds; Some (o :: rest0)) = Some y ->
                    (rest0 ← job_log_loop fuel' rest n' jobIds; Some (o :: rest0)) = Some y) as Hrest.
  { intros y Hy. destruct (job_log_loop fuel rest n' jobIds) as [r|] eqn:E; [|done].
    rewrite (IH fuel' _ _ _ E) by lia. done. }
  destruct o as [r|e|]; [by apply Hrest| |by apply Hrest]. case_if; [done|by apply Hrest].
Qed.

(** One record at the beginning of the file. *)
Lemma next_job_line jobIds r rest n : wf_event r && ends_line (ev_type r) = true ->
  wf_id (ev_eventLog r) = true ->
  (length rest < length (line_text (Logged r) ++ rest))%nat /\
  lsbGetNextJobRecFromFile (line_text (Logged r) ++ rest) n jobIds =
    if selected jobIds r then Some (Ok (norm_event r), rest, n + 1)
    else lsbGetNextJobRecFromFile rest (n + 1) jobIds.
Proof.
  intros Hok Hid. apply andb_true_iff in Hok as [Hok He].
  destruct (written_record r Hok) as (X & tl & Hput & Htl & Hc & Hv & Hlen & Hcm & _ & etype & Het & Hat).
  unfold line_tail in Htl. rewrite He in Htl. destruct Htl as (k & ->).
  simpl line_text. rewrite Hput. rewrite <- !app_assoc.
  pose proof (read_line X k rest Hc Hv) as Hline. set (file := X ++ replicate k BLANK ++ newline ++ rest) in *.
  assert (length rest < length file)%nat as Hrest by (unfold file; rewrite !length_app; lia).
  split; [done|]. unfold lsbGetNextJobRecFromFile at 1. unfold line_fuel. cbn [next_job_record].
  rewrite Hline. cbn [mbind option_bind]. rewrite Hcm, Hat.
  destruct (job_record_law jobIds etype r Het Hok Hid) as (l' & ->).
  destruct (selected jobIds r); [done|].
  destruct (next_job_record_total (line_fuel rest) rest (n + 1) jobIds) as (o & rest' & n' & H & _);
    [unfold line_fuel; lia|]. unfold lsbGetNextJobRecFromFile. rewrite H. apply (next_job_record_mono _ _ _ _ _ _ H).
  unfold line_fuel. lia.
Qed.

Lemma job_log_lines jobIds rs n fuel :
  forallb (fun r => wf_event r && ends_line (ev_type r) && wf_id (ev_eventLog r)) rs = true ->
  (length (flat_map (fun r => line_text (Logged r)) rs) < fuel)%nat ->
  job_log_loop fuel (flat_map (fun r => line_text (Logged r)) rs) n jobIds =
  Some (map (fun r => Ok (norm_event r)) (List.filter (selected jobIds) rs)).
Proof.
  revert n fuel. induction rs as [|r rs IH]; intros n [|fuel] Hok Hf;
    [by apply Nat.nlt_0_r in Hf|done|by apply Nat.nlt_0_r in Hf|].
  simpl in Hok. apply andb_true_iff in Hok as [Hr Hrs]. apply andb_true_iff in Hr as [Hr Hid].
  cbn [flat_map List.filter] in *.
  destruct (next_job_line jobIds r (flat_map (fun r => line_text (Logged r)) rs) n Hr Hid) as [Hlen Hnext].
  cbn [job_log_loop]. rewrite Hnext.
  destruct (selected jobIds r); simpl.
  - rewrite IH by (done || lia). done.
  - specialize (IH (n + 1) (S fuel) Hrs ltac:(lia)). exact IH.
Qed.

Example message_belongs_to_user :
  exists r, wf_event r = true /\ job_of (ev_eventLog r) = None /\ selected [7] r = true.
Proof.
  exists (EventRec (lit "30") EVENT_JOB_MSG 0 (jobMsgLog_ (JobMsg.JobMsgLog 7 5 0 0 [] [] [] 0))).
  vm_compute. done.
Qed.

(** C12: a client that calls
    [lsbGetNextJobRecFromFile] until the end of a log gets exactly the records that [selected] names, in order
    and as [lsb_geteventrec] would return them. These are, when it names jobs, the records about these jobs,
    whatever the index of an element; besides, every record of a submission (EVENT_JOB_NEW), of any
    job; and messages by the number of their user in the place of that of the job. When it names no jobs, they are
    all records about jobs. The number that the walk finds in the text of a line is always that of the record. *)
Theorem job_log_selection jobIds rs :
  forallb (fun r => wf_event r && ends_line (ev_type r) && wf_id (ev_eventLog r)) rs = true ->
  read_job_log (flat_map (fun r => line_text (Logged r)) rs) jobIds =
  Some (map (fun r => Ok (norm_event r)) (List.filter (selected jobIds) rs)).
Proof. intros H. apply job_log_lines; [done|]. unfold line_fuel. lia. Qed.

(** The submission of job 101 is returned to a client that asks for job 102. *)
Example other_submission :
  map (fun o => match o with Ok r => ev_type r | _ => 0 end) <$>
    read_job_log (line_text (Logged (EventRec (lit "30") EVENT_JOB_NEW 1400000001 (jobNewLog_ sample_job)))) [102] =
  Some [EVENT_JOB_NEW].
Proof. vm_compute. reflexivity. Qed.

Definition sample_records : list eventRec :=
  flat_map (fun x => match x with Logged r => [r] | _ => [] end) sample_log ++
  [EventRec (lit "30") EVENT_JOB_REQUEUE 1400000009
     (jobRequeueLog_ (JobRequeueEvent.JobRequeueLog 102 0))].

Lemma job_log_selection_witness :
  length (List.filter (selected [102]) sample_records) = 2%nat /\
  read_job_log (flat_map (fun r => line_text (Logged r)) sample_records) [102] =
  Some (map (fun r => Ok (norm_event r)) (List.filter (selected [102]) sample_records)).
Proof.
  split; [vm_compute; reflexivity|]. apply (job_log_selection [102] sample_records).
  vm_compute. reflexivity.
Defined.
