(* ===== verification/SlotLimits.v ===== *)
(** * The limits on the slots of a job (mbd.policy.c)

    Before a job is dispatched the scheduler computes how many slots it may get: from
    its queue, its user and the user's groups ([cntUQSlots]), and on each host from the
    limits of queue, user and host ([getHostJobSlots]). The counters are those of
    [Accounting]. The lemmas say that whoever gets no more slots than that stays
    below each of the limits. *)

From Stdlib Require Import SpecFloat.
From S2P Require Import Prelude JobStatus Accounting.

Definition PEND_QUE_PJOB_LIMIT : Z := 314.
Definition PEND_QUE_USR_PJLIMIT : Z := 305.
Definition PEND_USER_PJOB_LIMIT : Z := 603.
Definition PEND_UGRP_PJOB_LIMIT : Z := 604.

Definition OUT_SCHED_RS (reason : Z) : bool :=
  (reason =? PEND_HOST_JOB_LIMIT) || (reason =? PEND_QUE_JOB_LIMIT) || (reason =? PEND_QUE_USR_JLIMIT)
  || (reason =? PEND_QUE_PROC_JLIMIT) || (reason =? PEND_QUE_HOST_JLIMIT) || (reason =? PEND_USER_JOB_LIMIT)
  || (reason =? PEND_UGRP_JOB_LIMIT) || (reason =? PEND_USER_PROC_JLIMIT) || (reason =? PEND_UGRP_PROC_JLIMIT)
  || (reason =? PEND_HOST_USR_JLIMIT).

(** The smallest and the largest number of slots that a job asks for. *)
Record request := Request { numProcessors : Z; maxNumProcessors : Z }.

(** A field [numAvailSUSP] of an account is set to 0 when the account is made, and never
    after that. *)
Definition numAvailSUSP : Z := 0.

(** ** Limits of queue, user and groups *)

(** Slots that are not pending. *)
Definition used (c : counts) : Z := numJobs c - numPEND c.

Definition slots_left (maxJobs : Z) (c : counts) : Z :=
  if maxJobs =? INFINIT_INT then INFINIT_INT else maxJobs - used c.

Definition one_or_more (r : request) (one more : Z) : Z := if maxNumProcessors r =? 1 then one else more.

(** The loop over the groups: [jReason1] and [numUserGroup]. *)
Fixpoint group_slots (r : request) (gs : list uData) (acc : Z * Z) : Z * Z :=
  match gs with
  | [] => acc
  | ugp :: gs =>
      let '(jReason1, numUserGroup) := acc in
      let num := slots_left (u_maxJobs ugp) (u_cnt ugp) in
      let jReason1 :=
        if (jReason1 =? 0) && (num <? numProcessors r)
        then one_or_more r PEND_UGRP_JOB_LIMIT PEND_UGRP_PJOB_LIMIT else jReason1 in
      group_slots r gs (jReason1, Z.min num numUserGroup)
  end.

(** The account of the user in the queue: [jReason] and [minSlots]. *)
Definition queue_account (r : request) (qp : qData) (uname : cstr) (jReason minSlots : Z) : Z * Z :=
  if negb ((jReason =? 0) && (q_uJobLimit qp <? INFINIT_INT)) then (jReason, minSlots)
  else
    match getUAcct (q_uAcct qp) uname with
    | None => (jReason, minSlots)
    | Some a =>
        if OUT_SCHED_RS (ua_reason a) then (ua_reason a, minSlots)
        else
          let num := if q_uJobLimit qp =? INFINIT_INT then INFINIT_INT else q_uJobLimit qp - ua_slots a in
          (if num <? numProcessors r then one_or_more r PEND_QUE_USR_JLIMIT PEND_QUE_USR_PJLIMIT else jReason,
           Z.min minSlots num)
    end.

(** The number of slots and [newReason], which stays when it is 0. [NON_PRMPT_Q] is true,
    so that the function returns where this definition ends. *)
Definition cntUQSlots (r : request) (qp : qData) (slotHoldTime : Z) (uname : cstr) (up : uData) (ugps : list uData)
    : Z * Z :=
  let numQueue := slots_left (q_maxJobs qp) (q_cnt qp) in
  let jReason :=
    if (q_maxJobs qp <? maxNumProcessors r) || (numQueue <=? 0)
       || ((slotHoldTime <=? 0) && (numQueue <? numProcessors r))
    then one_or_more r PEND_QUE_JOB_LIMIT PEND_QUE_PJOB_LIMIT else 0 in
  let numUser := slots_left (u_maxJobs up) (u_cnt up) in
  let jReason :=
    if (jReason =? 0) && (numUser <? numProcessors r)
    then one_or_more r PEND_USER_JOB_LIMIT PEND_USER_PJOB_LIMIT else jReason in
  let minSlots := Z.min numQueue numUser in
  let '(jReason1, numUserGroup) := group_slots r ugps (0, INFINIT_INT) in
  let minSlots := Z.min minSlots numUserGroup in
  let jReason := if negb (jReason1 =? 0) && (jReason =? 0) then jReason1 else jReason in
  let '(jReason, minSlots) := queue_account r qp uname jReason minSlots in
  if jReason =? 0 then (minSlots, 0) else (0, jReason).

(** ** Limits on a host *)

Section Hosts.
(** The local [numAvailSUSP] of [ckPerHULimits] before it is assigned: it is only
    assigned when no limit needs it. *)
Context (uninit : Z).

(** The slots that a limit leaves, given the slots of running and reserved jobs and
    of suspended ones. *)
Definition limit_slots (limit active suspended availSUSP : Z) : Z :=
  Z.max 0 (Z.min (Z.max 0 (limit - (active + suspended)) + availSUSP) (limit - active)).

Definition user_limit (hp : hData) (a : option userAcct) : Z :=
  match a with
  | Some a => limit_slots (h_uJobLimit hp) (ua_numRUN a + ua_numRESERVE a) (ua_numSSUSP a + ua_numUSUSP a) uninit
  | None => limit_slots (h_uJobLimit hp) 0 0 uninit
  end.

Definition proc_limit (hp : hData) (pJobLimit : float32) (a : option hostAcct) (availSUSP : Z) : Z :=
  let limit := sf_ceil (SFmul 24 128 pJobLimit (float_of_int (h_numCPUs hp))) in
  match a with
  | Some a => limit_slots limit (ha_numRUN a + ha_numRESERVE a) (ha_numSSUSP a + ha_numUSUSP a) availSUSP
  | None => limit_slots limit 0 0 availSUSP
  end.

(** The loop over the groups: the slots, or the reason when there are none. *)
Fixpoint group_limits (hn : cstr) (hp : hData) (gs : list uData) (numSlots : Z) : Z + Z :=
  match gs with
  | [] => inl numSlots
  | ugp :: gs =>
      if SFleb INFINIT_FLOAT (u_pJobLimit ugp) then group_limits hn hp gs numSlots
      else
        let n := proc_limit hp (u_pJobLimit ugp) (getHAcct (u_hAcct ugp) hn) 0 in
        if n <=? 0 then inr PEND_UGRP_PROC_JLIMIT else group_limits hn hp gs (Z.min numSlots n)
  end.

(** [*numAvailSlots] is always the result. *)
Definition ckPerHULimits (hn : cstr) (hp : hData) (uname : cstr) (up : uData) (ugps : list uData) : Z + Z :=
  let limited := negb (h_uJobLimit hp =? INFINIT_INT) in
  let numSlots := if limited then user_limit hp (getUAcct (h_uAcct hp) uname) else INFINIT_INT in
  if limited && (numSlots <=? 0) then inr PEND_HOST_USR_JLIMIT
  else
    let plimited := negb (SFleb INFINIT_FLOAT (u_pJobLimit up)) in
    let numSlots1 :=
      if plimited then proc_limit hp (u_pJobLimit up) (getHAcct (u_hAcct up) hn) uninit else INFINIT_INT in
    if plimited && (numSlots1 <=? 0) then inr PEND_USER_PROC_JLIMIT
    else group_limits hn hp ugps (Z.min numSlots numSlots1).

(** The slots, or the reason. [numNeeded] is 1 and the limits per user are looked at.
    Both callers put [newReason] back when there are slots. *)
Definition getHostJobSlots1 (qp : qData) (hn : cstr) (hp : hData) (uname : cstr) (up : uData) (ugps : list uData)
    : Z + Z :=
  let numSlots :=
    if h_maxJobs hp =? INFINIT_INT then INFINIT_INT
    else
      Z.max 0
        match getHAcct (q_hAcct qp) hn with
        | Some _ =>
            Z.max 0 (Z.min (h_maxJobs hp - numRUN (h_cnt hp) - numRESERVE (h_cnt hp))
                       (numAvailSUSP + Z.max 0 (h_maxJobs hp - numJobs (h_cnt hp))))
        | None => h_maxJobs hp - numJobs (h_cnt hp)
        end in
  if negb (h_maxJobs hp =? INFINIT_INT) && (numSlots <? 1) then inr PEND_HOST_JOB_LIMIT
  else match ckPerHULimits hn hp uname up ugps with
       | inl n => inl (Z.min numSlots n)
       | inr r => inr r
       end.

(** [getHostJobSlots] between its two blocks for backfill; [*numAvailSlots] is the
    result. With the reason 0 [newReason] stays. *)
Definition getHostJobSlots (qp : qData) (hn : cstr) (hp : hData) (uname : cstr) (up : uData) (ugps : list uData)
    : Z + Z :=
  let hAcct := getHAcct (q_hAcct qp) hn in
  let numSlots := pJobLimitOk hp hAcct (q_pJobLimit qp) in
  if numSlots <? 1 then inr PEND_QUE_PROC_JLIMIT
  else
    let numSlots1 := hJobLimitOk hAcct (q_hJobLimit qp) in
    if numSlots1 <? 1 then inr PEND_QUE_HOST_JLIMIT
    else match getHostJobSlots1 qp hn hp uname up ugps with
         | inl n => if n =? 0 then inr 0 else inl (Z.min (Z.min numSlots numSlots1) n)
         | inr r => inr r
         end.
End Hosts.

(** ** What the limits mean *)

(** A limit that is not infinite leaves room for [n] slots more. *)
Definition fits_limit (limit taken n : Z) : Prop := limit <> INFINIT_INT -> taken + n <= limit.

Record job_limits (qp : qData) (uname : cstr) (up : uData) (ugps : list uData) (n : Z) : Prop := {
  jl_queue : fits_limit (q_maxJobs qp) (used (q_cnt qp)) n;
  jl_user : fits_limit (u_maxJobs up) (used (u_cnt up)) n;
  jl_groups : Forall (fun g => fits_limit (u_maxJobs g) (used (u_cnt g)) n) ugps;
  jl_queue_user a : q_uJobLimit qp < INFINIT_INT -> q_uAcct qp !! uname = Some a ->
    ua_slots a + n <= q_uJobLimit qp }.

(** Limits per processor: on a host with [cpus] processors. *)
Definition per_proc (pJobLimit : float32) (cpus : Z) : Z := sf_ceil (SFmul 24 128 pJobLimit (float_of_int cpus)).
Definition proc_limited (pJobLimit : float32) : Prop := SFleb INFINIT_FLOAT pJobLimit = false.

(** The slots that an account holds; the suspended ones count when [strict]. *)
Definition ha_taken (strict : bool) (a : option hostAcct) : Z :=
  match a with
  | Some a => ha_numRUN a + ha_numRESERVE a + (if strict then ha_numSSUSP a + ha_numUSUSP a else 0)
  | None => 0
  end.
Definition ua_taken (strict : bool) (a : option userAcct) : Z :=
  match a with
  | Some a => ua_numRUN a + ua_numRESERVE a + (if strict then ua_numSSUSP a + ua_numUSUSP a else 0)
  | None => 0
  end.

Record host_limits (strict : bool) (qp : qData) (hn : cstr) (hp : hData) (uname : cstr) (up : uData) (ugps : list uData)
    (n : Z) : Prop := {
  hl_queue_proc : proc_limited (q_pJobLimit qp) ->
    ha_taken true (q_hAcct qp !! hn) + n <= per_proc (q_pJobLimit qp) (if h_numCPUs hp =? 0 then 1 else h_numCPUs hp);
  hl_queue_host : fits_limit (q_hJobLimit qp) (ha_taken true (q_hAcct qp !! hn)) n;
  hl_host : fits_limit (h_maxJobs hp) (numJobs (h_cnt hp)) n;
  hl_host_user : fits_limit (h_uJobLimit hp) (ua_taken strict (h_uAcct hp !! uname)) n;
  hl_user_proc : proc_limited (u_pJobLimit up) ->
    ha_taken strict (u_hAcct up !! hn) + n <= per_proc (u_pJobLimit up) (h_numCPUs hp);
  hl_group_proc : Forall (fun g => proc_limited (u_pJobLimit g) ->
    ha_taken true (u_hAcct g !! hn) + n <= per_proc (u_pJobLimit g) (h_numCPUs hp)) ugps }.

Lemma slots_left_fit limit c n k : n <= slots_left limit c -> k <= n -> fits_limit limit (used c) k.
Proof. unfold slots_left, fits_limit. intros Hn Hk Hf. rewrite (proj2 (Z.eqb_neq _ _)) in Hn by done. lia. Qed.

Lemma group_slots_spec r gs j n : let '(j', n') := group_slots r gs (j, n) in
  n' <= n /\ Forall (fun g => n' <= slots_left (u_maxJobs g) (u_cnt g)) gs /\
  (j' = 0 -> j = 0 /\ Forall (fun g => numProcessors r <= slots_left (u_maxJobs g) (u_cnt g)) gs /\
             (numProcessors r <= n -> numProcessors r <= n')).
Proof.
  revert j n. induction gs as [|g gs IH]; intros j n; cbn [group_slots].
  - split_and!; [lia|constructor|]. intros ->. split_and!; [done|constructor|done].
  - set (num := slots_left _ _). set (j1 := if (_ : bool) then _ else _).
    specialize (IH j1 (Z.min num n)). destruct (group_slots r gs (j1, Z.min num n)) as [j' n'].
    destruct IH as (H1 & H2 & H3). split_and!; [lia|constructor; [fold num; lia|done]|].
    intros Hj. destruct (H3 Hj) as (Hj1 & Hg & Hn). unfold j1 in Hj1.
    destruct (Z.eqb_spec j 0) as [->|Hne]; cbn [andb] in Hj1; [|done].
    destruct (Z.ltb_spec num (numProcessors r)).
    { unfold one_or_more in Hj1. by destruct (maxNumProcessors r =? 1). }
    split_and!; [done|constructor; done|lia].
Qed.

Lemma queue_account_spec r qp uname j n : let '(j', n') := queue_account r qp uname j n in
  j' = 0 -> j = 0 /\ n' <= n /\ (numProcessors r <= n -> numProcessors r <= n') /\ (1 <= numProcessors r -> 1 <= n -> 1 <= n') /\
  forall a, q_uJobLimit qp < INFINIT_INT -> q_uAcct qp !! uname = Some a -> ua_slots a + n' <= q_uJobLimit qp.
Proof.
  unfold queue_account, getUAcct. destruct (Z.eqb_spec j 0) as [->|Hj]; cbn [andb negb]; [|done].
  destruct (Z.ltb_spec (q_uJobLimit qp) INFINIT_INT); cbn [negb]; [|intros _; split_and!; (done || lia)].
  destruct (q_uAcct qp !! uname) as [a|] eqn:Ha; [|intros _; by split_and!].
  destruct (OUT_SCHED_RS (ua_reason a)) eqn:Ho; [intros E; by rewrite E in Ho|].
  rewrite (proj2 (Z.eqb_neq _ _)) by lia. destruct (Z.ltb_spec (q_uJobLimit qp - ua_slots a) (numProcessors r)).
  { unfold one_or_more. by destruct (maxNumProcessors r =? 1). }
  intros _. split_and!; [done|lia|lia|lia|]. intros a' _ [= <-]. lia.
Qed.

(** With slots for the job there is no reason, and any number of slots up to that many
    stays below the limits; unless the queue reserves slots there are enough for the job. *)
Lemma cntUQSlots_limits r qp hold uname up ugps n : 1 <= numProcessors r <= INFINIT_INT ->
  cntUQSlots r qp hold uname up ugps = (n, 0) ->
  (forall k, k <= n -> job_limits qp uname up ugps k) /\ 1 <= n /\ (hold <= 0 -> numProcessors r <= n).
Proof.
  intros Hr. unfold cntUQSlots. set (nq := slots_left (q_maxJobs qp) (q_cnt qp)). set (nu := slots_left (u_maxJobs up) (u_cnt up)).
  pose proof (group_slots_spec r ugps 0 INFINIT_INT) as Hg.
  destruct (group_slots r ugps (0, INFINIT_INT)) as [j1 ng]. destruct Hg as (Hg1 & Hg2 & Hg3).
  set (bq := _ || _ || _). set (jq := if bq then _ else 0). set (ju := if (_ : bool) then _ else jq).
  set (jg := if (_ : bool) then j1 else ju).
  pose proof (queue_account_spec r qp uname jg (Z.min (Z.min nq nu) ng)) as Ha.
  destruct (queue_account r qp uname jg _) as [j' n']. destruct (Z.eqb_spec j' 0) as [->|]; [|by intros [= _ ?]].
  intros [= <-]. destruct (Ha eq_refl) as (Hjg & Hn & Hn1 & Hn2 & Hacct).
  assert (ju = 0 /\ j1 = 0) as [Hju ->].
  { unfold jg in Hjg. destruct (Z.eqb_spec j1 0) as [->|]; cbn [negb andb] in Hjg; [done|].
    destruct (Z.eqb_spec ju 0); [congruence|done]. }
  assert (jq = 0 /\ numProcessors r <= nu) as [Hjq Hnu].
  { unfold ju, one_or_more in Hju. destruct (Z.eqb_spec jq 0) as [Hq|]; cbn [andb] in Hju; [|done].
    destruct (Z.ltb_spec nu (numProcessors r)); [by destruct (maxNumProcessors r =? 1)|done]. }
  assert (bq = false) as Hb by (unfold jq, one_or_more in Hjq; destruct bq; [by destruct (maxNumProcessors r =? 1)|done]).
  unfold bq in Hb. apply orb_false_iff in Hb as [Hb Hh]. apply orb_false_iff in Hb as [_ Hq]. apply Z.leb_gt in Hq.
  destruct (Hg3 eq_refl) as (_ & Hg4 & Hg5). specialize (Hg5 (proj2 Hr)).
  split_and!; [|apply Hn2; lia|].
  - intros k Hk. split.
    + apply (slots_left_fit _ _ n'); [fold nq; lia|done].
    + apply (slots_left_fit _ _ n'); [fold nu; lia|done].
    + eapply Forall_impl; [exact Hg2|]. intros g Hgg. apply (slots_left_fit _ _ n'); [cbv beta in Hgg; lia|done].
    + intros a Hl Hacc. specialize (Hacct a Hl Hacc). lia.
  - intros Hd. apply Hn1. rewrite (proj2 (Z.leb_le _ _) Hd) in Hh. cbn [andb] in Hh. apply Z.ltb_ge in Hh. lia.
Qed.

(** ** Limits on a host *)

Lemma limit_slots_max limit act susp avail n k : n = limit_slots limit act susp avail -> 1 <= n -> k <= n ->
  act + k <= limit /\ (avail <= 0 -> act + susp + k <= limit).
Proof. unfold limit_slots. lia. Qed.

Section Host.
Context (uninit : Z).

Lemma user_limit_max hp a k : 1 <= user_limit uninit hp a -> k <= user_limit uninit hp a ->
  ua_taken (uninit <=? 0) a + k <= h_uJobLimit hp.
Proof.
  unfold user_limit, ua_taken. intros H1 H2. destruct a as [a|];
    destruct (limit_slots_max _ _ _ _ _ k eq_refl H1 H2) as [Ha Hb]; destruct (Z.leb_spec uninit 0); lia.
Qed.

Lemma proc_limit_max hp p a avail k : 1 <= proc_limit hp p a avail -> k <= proc_limit hp p a avail ->
  ha_taken (avail <=? 0) a + k <= per_proc p (h_numCPUs hp).
Proof.
  unfold proc_limit, ha_taken, per_proc. intros H1 H2. destruct a as [a|];
    destruct (limit_slots_max _ _ _ _ _ k eq_refl H1 H2) as [Ha Hb]; destruct (Z.leb_spec avail 0); lia.
Qed.

Lemma group_limits_max hn hp gs n m : 1 <= n -> group_limits hn hp gs n = inl m -> 1 <= m <= n /\ forall k, k <= m ->
  Forall (fun g => proc_limited (u_pJobLimit g) ->
    ha_taken true (u_hAcct g !! hn) + k <= per_proc (u_pJobLimit g) (h_numCPUs hp)) gs.
Proof.
  revert n. induction gs as [|g gs IH]; intros n Hn; cbn [group_limits]; [intros [= <-]; split; [lia|by constructor]|].
  unfold proc_limited, getHAcct. destruct (SFleb INFINIT_FLOAT (u_pJobLimit g)) eqn:Ep.
  - intros H. destruct (IH _ Hn H) as [? Hf]. split; [lia|]. intros k Hk. constructor; [cbv beta; congruence|by apply Hf].
  - destruct (Z.leb_spec (proc_limit hp (u_pJobLimit g) (u_hAcct g !! hn) 0) 0); [done|]. intros Hm.
    assert (1 <= Z.min n (proc_limit hp (u_pJobLimit g) (u_hAcct g !! hn) 0)) as Hn' by lia.
    destruct (IH _ Hn' Hm) as [? Hf]. split; [lia|]. intros k Hk.
    constructor; [|by apply Hf]. intros _. apply (proc_limit_max hp _ _ 0); lia.
Qed.

Lemma ckPerHULimits_max hn hp uname up ugps m : ckPerHULimits uninit hn hp uname up ugps = inl m ->
  1 <= m /\ forall k, k <= m ->
    fits_limit (h_uJobLimit hp) (ua_taken (uninit <=? 0) (h_uAcct hp !! uname)) k /\
    (proc_limited (u_pJobLimit up) ->
       ha_taken (uninit <=? 0) (u_hAcct up !! hn) + k <= per_proc (u_pJobLimit up) (h_numCPUs hp)) /\
    Forall (fun g => proc_limited (u_pJobLimit g) ->
      ha_taken true (u_hAcct g !! hn) + k <= per_proc (u_pJobLimit g) (h_numCPUs hp)) ugps.
Proof.
  unfold ckPerHULimits, getUAcct, getHAcct. set (n1 := if negb (h_uJobLimit hp =? INFINIT_INT) then _ else _).
  destruct (negb (h_uJobLimit hp =? INFINIT_INT) && (n1 <=? 0)) eqn:E1; [done|].
  set (n2 := if negb (SFleb INFINIT_FLOAT (u_pJobLimit up)) then _ else _).
  destruct (negb (SFleb INFINIT_FLOAT (u_pJobLimit up)) && (n2 <=? 0)) eqn:E2; [done|].
  assert (1 <= n1) as H1.
  { unfold n1 in *. destruct (Z.eqb_spec (h_uJobLimit hp) INFINIT_INT); cbn [negb andb] in E1 |- *; [by unfold INFINIT_INT|].
    apply Z.leb_gt in E1. lia. }
  assert (1 <= n2) as H2.
  { unfold n2 in *. destruct (SFleb INFINIT_FLOAT (u_pJobLimit up)); cbn [negb andb] in E2 |- *; [by unfold INFINIT_INT|].
    apply Z.leb_gt in E2. lia. }
  intros Hm. destruct (group_limits_max _ _ _ _ _ (Z.min_glb _ _ _ H1 H2) Hm) as [Hmn Hg]. split; [lia|]. intros k Hk.
  split_and!; [| |by apply Hg].
  - intros Hne. unfold n1 in *. rewrite (proj2 (Z.eqb_neq _ _) Hne) in *. cbn [negb] in *. apply user_limit_max; lia.
  - unfold proc_limited. intros Hp. unfold n2 in *. rewrite Hp in *. cbn [negb] in *. apply proc_limit_max; lia.
Qed.

Lemma pJobLimitOk_max hp a p k : 1 <= pJobLimitOk hp a p -> k <= pJobLimitOk hp a p -> proc_limited p ->
  ha_taken true a + k <= per_proc p (if h_numCPUs hp =? 0 then 1 else h_numCPUs hp).
Proof.
  unfold pJobLimitOk, proc_limited, per_proc, ha_taken, acct_slots. intros H1 H2 Hp. rewrite Hp in *.
  destruct (SFleb p _); [lia|]. destruct a as [a|]; match type of H1 with context [?x <=? 0] => destruct (Z.leb_spec x 0) end; lia.
Qed.

Lemma hJobLimitOk_max a limit k : 1 <= hJobLimitOk a limit -> k <= hJobLimitOk a limit ->
  fits_limit limit (ha_taken true a) k.
Proof.
  unfold hJobLimitOk, fits_limit, ha_taken, acct_slots. intros H1 H2 Hp. rewrite (proj2 (Z.eqb_neq _ _) Hp) in *.
  destruct (limit <=? 0); [lia|]. destruct a as [a|]; match type of H1 with context [?x <=? 0] => destruct (Z.leb_spec x 0) end; lia.
Qed.

(** A host has at least one slot for the job, or none; and any number of slots up to that
    many stays below all limits on the host. *)
Lemma getHostJobSlots_max qp hn hp uname up ugps n : getHostJobSlots uninit qp hn hp uname up ugps = inl n ->
  1 <= n /\ forall k, k <= n -> host_limits (uninit <=? 0) qp hn hp uname up ugps k.
Proof.
  unfold getHostJobSlots, getHostJobSlots1, getHAcct.
  destruct (Z.ltb_spec (pJobLimitOk hp (q_hAcct qp !! hn) (q_pJobLimit qp)) 1); [done|].
  destruct (Z.ltb_spec (hJobLimitOk (q_hAcct qp !! hn) (q_hJobLimit qp)) 1); [done|].
  set (n1 := if h_maxJobs hp =? INFINIT_INT then _ else _).
  destruct (negb (h_maxJobs hp =? INFINIT_INT) && (n1 <? 1)) eqn:E1; [done|].
  destruct (ckPerHULimits uninit hn hp uname up ugps) as [n2|] eqn:E2; [|done].
  destruct (ckPerHULimits_max _ _ _ _ _ _ E2) as [H2 Hck].
  destruct (Z.eqb_spec (Z.min n1 n2) 0); [done|]. intros [= <-].
  assert (1 <= n1 /\ fits_limit (h_maxJobs hp) (numJobs (h_cnt hp)) n1) as [H1 Hm].
  { unfold fits_limit, n1 in *. destruct (Z.eqb_spec (h_maxJobs hp) INFINIT_INT) as [|Hne]; cbn [negb andb] in E1;
      [by unfold INFINIT_INT|]. apply Z.ltb_ge in E1. split; [done|]. intros _. revert E1.
    unfold numAvailSUSP. destruct (q_hAcct qp !! hn); lia. }
  split; [lia|]. intros k Hk. destruct (Hck k ltac:(lia)) as (Hu & Hp & Hg). split; try done.
  - apply pJobLimitOk_max; lia.
  - apply hJobLimitOk_max; lia.
  - intros Hne. specialize (Hm Hne). lia.
Qed.
End Host.
