(* ===== verification/Dispatch.v ===== *)
(** * The slots and hosts that a job gets (mbd.policy.c)

    The candidate hosts of a job come with the number of slots that it may have on
    each. [getNumSlots] caps them by the slots of queue and user, [getNumProcs]
    distributes the slots that the job gets, [allocHosts] lists one host per slot, and
    [dispatchAJob] tries to start the job until a host accepts it. Slots can be borrowed
    from jobs that hold a reservation (backfill).

    The talk with the sbatchd of a host is a parameter, and so is what other parts of
    the scheduler decide: whether all hosts together could ever run the job, and
    whether the time of the session is over. *)

From Stdlib Require Import SpecFloat.
From S2P Require Import Prelude JobStatus Accounting SlotLimits.

(** ** Data *)

Definition PEND_JOB_NO_FILE : Z := 7.
Definition PEND_JOB_DELAY_SCHED : Z := 13.
Definition PEND_JOB_SPREAD_TASK : Z := 312.
Definition PEND_QUE_SPREAD_TASK : Z := 313.
Definition PEND_HOST_LESS_SLOTS : Z := 1303.
Definition JOB_STAGE_DISP : Z := 0x0004.
Definition JOB_STAGE_DONE : Z := 0x0008.
Definition FIRST_HOST_PRIORITY : Z := INFINIT_INT.

(** A job that reserves slots, the host by its place in the list of candidates, and the
    slots to borrow from it. *)
Record backfillee := Backfillee { backfilleePtr : Z; indexInCandHostList : nat; backfillSlots : Z }.

(** [hData] is a null pointer in an entry of [execCandPtr] that is not used. *)
Record candHost := CandHost {
  hData : option cstr; c_numSlots : Z; c_numAvailSlots : Z;
  numNonBackfillSlots : Z; numAvailNonBackfillSlots : Z; backfilleeList : option (list backfillee) }.

Record backfillCand := BackfillCand {
  b_numSlots : Z; b_numAvailSlots : Z; b_index : nat; b_list : option (list backfillee) }.

(** The span section of a resource requirement. *)
Record resVal := ResVal { maxNumHosts : Z; pTile : Z }.

Inductive dispatchAJobReturnCode := DISP_OK | DISP_FAIL | DISP_RESERVE | DISP_NO_JOB | DISP_TIME_OUT.

(** The fields of a job that dispatching it changes; [execCandPtr] has
    [numExecCandPtr] entries, and [hPtr] has one for each slot. *)
Record djob := DJob {
  candPtr : list candHost; numSlots : Z; numAvailSlots : Z;
  execCandPtr : list candHost; numEligProc : Z; numAvailEligProc : Z;
  hPtr : list (option cstr); reasonTb : list Z; newReason : Z; processed : Z; reserved : bool }.

Definition set_cands (cs : list candHost) (j : djob) : djob :=
  DJob cs (numSlots j) (numAvailSlots j) (execCandPtr j) (numEligProc j) (numAvailEligProc j) (hPtr j)
    (reasonTb j) (newReason j) (processed j) (reserved j).
Definition set_slots (n a : Z) (j : djob) : djob :=
  DJob (candPtr j) n a (execCandPtr j) (numEligProc j) (numAvailEligProc j) (hPtr j)
    (reasonTb j) (newReason j) (processed j) (reserved j).
Definition set_exec (es : list candHost) (n a : Z) (j : djob) : djob :=
  DJob (candPtr j) (numSlots j) (numAvailSlots j) es n a (hPtr j) (reasonTb j) (newReason j) (processed j) (reserved j).
Definition set_hPtr (h : list (option cstr)) (j : djob) : djob :=
  DJob (candPtr j) (numSlots j) (numAvailSlots j) (execCandPtr j) (numEligProc j) (numAvailEligProc j) h
    (reasonTb j) (newReason j) (processed j) (reserved j).
Definition set_reasonTb (t : list Z) (j : djob) : djob :=
  DJob (candPtr j) (numSlots j) (numAvailSlots j) (execCandPtr j) (numEligProc j) (numAvailEligProc j) (hPtr j)
    t (newReason j) (processed j) (reserved j).
Definition set_newReason (v : Z) (j : djob) : djob :=
  DJob (candPtr j) (numSlots j) (numAvailSlots j) (execCandPtr j) (numEligProc j) (numAvailEligProc j) (hPtr j)
    (reasonTb j) v (processed j) (reserved j).
Definition stage (bits : Z) (j : djob) : djob :=
  DJob (candPtr j) (numSlots j) (numAvailSlots j) (execCandPtr j) (numEligProc j) (numAvailEligProc j) (hPtr j)
    (reasonTb j) (newReason j) (Z.lor (processed j) bits) (reserved j).
Definition set_reserved (b : bool) (j : djob) : djob :=
  DJob (candPtr j) (numSlots j) (numAvailSlots j) (execCandPtr j) (numEligProc j) (numAvailEligProc j) (hPtr j)
    (reasonTb j) (newReason j) (processed j) b.

Definition c_set_slots (n a : Z) (c : candHost) : candHost :=
  CandHost (hData c) n a (numNonBackfillSlots c) (numAvailNonBackfillSlots c) (backfilleeList c).
Definition c_set_list (l : option (list backfillee)) (c : candHost) : candHost :=
  CandHost (hData c) (c_numSlots c) (c_numAvailSlots c) (numNonBackfillSlots c) (numAvailNonBackfillSlots c) l.
Definition unused : candHost := CandHost None 0 0 0 0 None.

Definition zsum {A} (f : A -> Z) (l : list A) : Z := foldr (fun x a => f x + a) 0 l.

(** ** Reasons and positions *)

Definition GET_HIGH (word : Z) : Z := Z.land (Z.shiftr word 16) 0xffff.
Definition PUT_HIGH (word s : Z) : Z := int32 (Z.lor (Z.shiftl s 16) (Z.land word 0xffff)).

Fixpoint addReason_tb (tb : list Z) (hostId aReason : Z) : list Z :=
  match tb with
  | [] => [PUT_HIGH aReason hostId]
  | r :: tb => if GET_HIGH r =? hostId then PUT_HIGH aReason hostId :: tb else r :: addReason_tb tb hostId aReason
  end.

Definition addReason (j : djob) (hostId aReason : Z) : djob := set_reasonTb (addReason_tb (reasonTb j) hostId aReason) j.

(** [l[j] = l[i]] *)
Definition copy_entry {A} (i j : nat) (l : list A) : list A :=
  match l !! i with Some x => <[j := x]> l | None => l end.

Definition moveHostPos {A} (candH : list A) (source target : nat) : list A :=
  if (source =? target)%nat then candH
  else match candH !! source with
       | None => candH
       | Some saveH =>
           let l := if (target <? source)%nat
                    then foldl (fun l i => copy_entry i (S i) l) candH (rev (seq target (source - target)))
                    else foldl (fun l i => copy_entry i (pred i) l) candH (seq (S source) (target - source)) in
           <[target := saveH]> l
       end.

Definition exchangeHostPos {A} (candH : list A) (pos1 pos2 : nat) : list A :=
  match candH !! pos1, candH !! pos2 with
  | Some a, Some b => <[pos2 := a]> (<[pos1 := b]> candH)
  | _, _ => candH
  end.

Fixpoint removeCandHostFromCandPtr {A} (l : list A) (i : nat) : list A :=
  match l, i with
  | [], _ => []
  | _ :: l, O => l
  | x :: l, S i => x :: removeCandHostFromCandPtr l i
  end.

(** ** What the job asks for *)

Definition unspread (v : option resVal) : bool := match v with Some v => pTile v =? INFINIT_INT | None => true end.
Definition one_host (v : option resVal) : bool := match v with Some v => maxNumHosts v =? 1 | None => false end.

Definition allInOne (job queue : option resVal) : bool := one_host job || (unspread job && one_host queue).

(** The hosts that the job asks for, and those of its queue, with their priorities. *)
Definition needHandleFirstHost (hostId : cstr -> Z) (asked qasked : list (cstr * Z)) : Z :=
  match asked with
  | (h, p) :: _ => if p =? FIRST_HOST_PRIORITY then hostId h else 0
  | [] =>
      match qasked with
      | (h, p) :: _ => if p =? FIRST_HOST_PRIORITY then hostId h else 0
      | [] => 0
      end
  end.

(** The place of the first candidate with this number. *)
Fixpoint find_host (hostId : cstr -> Z) (cs : list candHost) (firstHostId : Z) : option nat :=
  match cs with
  | [] => None
  | c :: cs =>
      if match hData c with Some h => hostId h =? firstHostId | None => false end then Some O
      else S <$> find_host hostId cs firstHostId
  end.

(** The candidates, and 0 or the number of a first host that is not one of them. *)
Definition handleFirstHost (hostId : cstr -> Z) (firstHostId : Z) (cs : list candHost) : list candHost * Z :=
  if firstHostId =? 0 then (cs, 0)
  else match find_host hostId cs firstHostId with
       | Some i => (moveHostPos cs i 0, 0)
       | None => (cs, firstHostId)
       end.

(** With [span[ptile=n]] only as many hosts stay as the job needs with [n] slots each:
    hosts with that many slots first, and one for the rest. [pack] is LSB_PTILE_PACK. *)
Definition full_hosts (tile : Z) (cs : list candHost) : list candHost * nat :=
  foldl (fun '(l, n) i =>
           match l !! i with
           | Some c => if tile <=? c_numSlots c then (exchangeHostPos l i n, S n) else (l, n)
           | None => (l, n)
           end) (cs, O) (seq 0 (length cs)).

Fixpoint pack_rest (tile rest : Z) (cs : list candHost) (target : nat) (ks : list nat) : list candHost :=
  match ks with
  | [] => cs
  | i :: ks =>
      match cs !! i with
      | Some c =>
          if (c_numSlots c <? tile) && (rest <=? c_numSlots c) then exchangeHostPos cs i target
          else pack_rest tile rest cs target ks
      | None => cs
      end
  end.

Definition reshapeCandHost (hostId : cstr -> Z) (firstHostId : Z) (r : request) (job queue : option resVal) (pack : bool)
    (cs : list candHost) : list candHost :=
  let tile :=
    match job with
    | Some v => if pTile v =? INFINIT_INT
                then if maxNumHosts v =? 1 then None
                     else match queue with Some v => if pTile v =? INFINIT_INT then None else Some (pTile v) | None => None end
                else Some (pTile v)
    | None => match queue with Some v => if pTile v =? INFINIT_INT then None else Some (pTile v) | None => None end
    end in
  match tile with
  | None => cs
  | Some tile =>
      let rest := Z.rem (numProcessors r) tile in
      let numRequestHosts := Z.to_nat (Z.quot (numProcessors r) tile + (if rest =? 0 then 0 else 1)) in
      let '(cs, numCandHosts) := full_hosts tile cs in
      let cs :=
        if pack && negb (rest =? 0) && (numRequestHosts - 1 <=? numCandHosts)%nat
        then pack_rest tile rest cs (numRequestHosts - 1) (seq numCandHosts (length cs - numCandHosts)) else cs in
      let cs := (handleFirstHost hostId firstHostId cs).1 in
      take numRequestHosts cs
  end.

Section Dispatch.
(** The job: its slots, where they must be, the host that comes first, the times of its
    queue. [predictedStartTime] and [hPtr] of other jobs are given. *)
Context (r : request) (jobRes queueRes : option resVal) (firstHostId : Z).
Context (hosts : cstr -> Accounting.hData) (cpuFactor : cstr -> float32).
Context (predictedStartTime : Z -> Z) (now runLimit : Z).
Context (canBackfill hasPreference : bool).

Definition host_field {A} (d : A) (f : cstr -> A) (c : candHost) : A :=
  match hData c with Some h => f h | None => d end.
Definition hostId_of (c : candHost) : Z := host_field 0 (fun h => h_hostId (hosts h)) c.

(** ** The slots of the candidates *)

(** The body of the loop of [getNumSlots] on the job and the two sums. *)
Definition num_slots_body (st : djob * Z * Z) (i : nat) : djob * Z * Z :=
  let '(j, nSlots, nAvail) := st in
  match candPtr j !! i with
  | None => st
  | Some c =>
      let n := Z.min (c_numSlots c) (numSlots j) in
      let a := Z.min (Z.min (c_numAvailSlots c) n) (numAvailSlots j) in
      let c := c_set_slots n a c in
      let j := set_cands (<[i := c]> (candPtr j)) j in
      let j := if a <? numProcessors r then addReason j (hostId_of c) PEND_HOST_LESS_SLOTS else j in
      if allInOne jobRes queueRes && (firstHostId =? 0) then
        if nSlots =? 0 then
          if 0 <? n then (set_cands (moveHostPos (candPtr j) i 0) j, n, a) else (j, nSlots, nAvail)
        else if (nSlots <? numProcessors r) && (numProcessors r <=? n)
        then (set_cands (moveHostPos (candPtr j) i 0) j, n, a)
        else (j, nSlots, nAvail)
      else (j, nSlots + n, nAvail + a)
  end.

Definition getNumSlots (j : djob) : djob :=
  let '(j, nSlots, nAvail) := foldl num_slots_body (j, 0, 0) (seq 0 (length (candPtr j))) in
  set_slots (Z.min (numSlots j) nSlots) (Z.min (numAvailSlots j) nAvail) j.

(** ** Borrowed slots *)

Definition sf_trunc (x : float32) : Z :=
  match x with
  | S754_finite s m e => (if s then Z.opp else id) (if 0 <=? e then Z.pos m * 2 ^ e else Z.pos m / 2 ^ (- e))
  | _ => 0
  end.

(** [now + RUN_LIMIT_OF_JOB(jp)/cpuFactor], in the arithmetic of floats, as an int. *)
Definition finish_time (c : candHost) : Z :=
  int32 (sf_trunc (SFadd 24 128 (float_of_int now)
    (SFdiv 24 128 (float_of_int runLimit) (host_field (S754_zero false) cpuFactor c)))).

Definition spare_time (cs : list candHost) (b : backfillee) : Z :=
  match cs !! indexInCandHostList b with
  | Some c => int32 (predictedStartTime (backfilleePtr b) - finish_time c)
  | None => 0
  end.

Fixpoint insertIntoSortedBackfilleeList (cs : list candHost) (l : list backfillee) (item : backfillee) : list backfillee :=
  match l with
  | [] => [item]
  | entry :: l' =>
      if spare_time cs item <? spare_time cs entry then item :: l
      else entry :: insertIntoSortedBackfilleeList cs l' item
  end.

(** Copies of the entries of all candidates, each with the place of its candidate. *)
Definition place_entry (i : nat) (b : backfillee) : backfillee := Backfillee (backfilleePtr b) i (backfillSlots b).

Definition sortBackfillee (cs : list candHost) : list backfillee :=
  foldl (insertIntoSortedBackfilleeList cs) []
    (mjoin (imap (fun i c => place_entry i <$> default [] (backfilleeList c)) cs)).

Definition jobHasBackfillee (cs : list candHost) : bool :=
  existsb (fun c => match backfilleeList c with Some _ => true | None => false end) cs.

Definition totalBackfillSlots (l : option (list backfillee)) : Z := zsum backfillSlots (default [] l).

Definition candHostInBackfillCandList (bcs : list backfillCand) (candHostIndex : nat) : bool :=
  existsb (fun b => (b_index b =? candHostIndex)%nat) bcs.

(** ** The slots that the job gets

    The loops of [getNumProcs] stop when the job has enough: [some] is the condition with
    [numAvailEligProc], [more] the one with [numEligProc]. *)
Definition some (j : djob) (avail : Z) : bool := (avail <? numAvailSlots j) && (avail <? maxNumProcessors r).
Definition more (j : djob) (elig : Z) : bool := (elig <? numSlots j) && (elig <? numProcessors r).

(** *** With borrowed slots *)

(** The first entry for the candidate, if any. *)
Fixpoint find_cand (bcs : list backfillCand) (i : nat) : option nat :=
  match bcs with
  | [] => None
  | b :: bcs => if (b_index b =? i)%nat then Some O else S <$> find_cand bcs i
  end.

Definition borrow (j : djob) (b : backfillee) (bcs : list backfillCand) (avail : Z) : list backfillCand * Z :=
  let maxSlots := match candPtr j !! indexInCandHostList b with Some c => c_numAvailSlots c | None => 0 end in
  let slotsToUse := Z.min maxSlots (Z.min (backfillSlots b) (maxNumProcessors r - avail)) in
  let entry n := if n =? 0 then [] else [Backfillee (backfilleePtr b) (indexInCandHostList b) n] in
  match find_cand bcs (indexInCandHostList b) with
  | None =>
      (bcs ++ [BackfillCand slotsToUse slotsToUse (indexInCandHostList b) (Some (entry slotsToUse))], avail + slotsToUse)
  | Some i =>
      match bcs !! i with
      | Some c =>
          let slotsToUse := Z.min slotsToUse (maxSlots - b_numAvailSlots c) in
          let n := b_numAvailSlots c + slotsToUse in
          (<[i := BackfillCand n n (b_index c) (Some (default [] (b_list c) ++ entry slotsToUse))]> bcs, avail + slotsToUse)
      | None => (bcs, avail)
      end
  end.

Fixpoint borrow_loop (j : djob) (bs : list backfillee) (bcs : list backfillCand) (avail : Z) : list backfillCand * Z :=
  match bs with
  | [] => (bcs, avail)
  | b :: bs =>
      if some j avail then let '(bcs, avail) := borrow j b bcs avail in borrow_loop j bs bcs avail
      else (bcs, avail)
  end.

(** More slots on the hosts of [bcs], and after that on the other candidates. *)
Fixpoint grow_avail (j : djob) (bcs : list backfillCand) (avail : Z) : list backfillCand * Z :=
  match bcs with
  | [] => ([], avail)
  | c :: bcs' =>
      if some j avail then
        let free := match candPtr j !! b_index c with Some h => c_numAvailSlots h | None => 0 end in
        let n := Z.min (free - b_numAvailSlots c) (maxNumProcessors r - avail) in
        let c := if n =? 0 then c
                 else BackfillCand (b_numAvailSlots c + n) (b_numAvailSlots c + n) (b_index c) (b_list c) in
        let '(bcs', avail) := grow_avail j bcs' (if n =? 0 then avail else avail + n) in (c :: bcs', avail)
      else (bcs, avail)
  end.

Fixpoint other_avail (j : djob) (cs : list candHost) (i : nat) (bcs : list backfillCand) (avail : Z)
    : list backfillCand * Z :=
  match cs with
  | [] => (bcs, avail)
  | c :: cs =>
      if some j avail then
        if candHostInBackfillCandList bcs i || (c_numAvailSlots c =? 0) then other_avail j cs (S i) bcs avail
        else
          let n := Z.min (c_numAvailSlots c) (maxNumProcessors r - avail) in
          other_avail j cs (S i) (bcs ++ [BackfillCand n n i None]) (avail + n)
      else (bcs, avail)
  end.

(** Slots that are not free at present. *)
Fixpoint grow_slots (j : djob) (bcs : list backfillCand) (elig : Z) : list backfillCand * Z :=
  match bcs with
  | [] => ([], elig)
  | c :: bcs' =>
      if more j elig then
        let own := match candPtr j !! b_index c with Some h => c_numSlots h | None => 0 end in
        let n := Z.min (own - b_numSlots c) (maxNumProcessors r - elig) in
        let c := if n =? 0 then c else BackfillCand (b_numSlots c + n) (b_numAvailSlots c) (b_index c) (b_list c) in
        let '(bcs', elig) := grow_slots j bcs' (if n =? 0 then elig else elig + n) in (c :: bcs', elig)
      else (bcs, elig)
  end.

Fixpoint other_slots (j : djob) (cs : list candHost) (i : nat) (bcs : list backfillCand) (elig : Z)
    : list backfillCand * Z :=
  match cs with
  | [] => (bcs, elig)
  | c :: cs =>
      if more j elig then
        if candHostInBackfillCandList bcs i || (c_numSlots c =? 0) then other_slots j cs (S i) bcs elig
        else
          let n := Z.min (c_numSlots c) (maxNumProcessors r - elig) in
          other_slots j cs (S i) (bcs ++ [BackfillCand n (Z.min (c_numAvailSlots c) n) i None]) (elig + n)
      else (bcs, elig)
  end.

(** [execCandPtr], [numEligProc] and [numAvailEligProc]. *)
Definition backfill_procs (j : djob) : list candHost * Z * Z :=
  let '(bcs, avail) := borrow_loop j (sortBackfillee (candPtr j)) [] 0 in
  let '(bcs, avail) := grow_avail j bcs avail in
  let '(bcs, avail) := other_avail j (candPtr j) 0 bcs avail in
  let '(bcs, elig) :=
    if avail <? numProcessors r then
      let '(bcs, elig) := grow_slots j bcs avail in other_slots j (candPtr j) 0 bcs elig
    else (bcs, avail) in
  ((fun b => CandHost (candPtr j !! b_index b ≫= hData) (b_numSlots b) (b_numAvailSlots b) 0 0 (b_list b)) <$> bcs,
   elig, avail).

(** *** Without *)

Fixpoint take_avail (j : djob) (cs : list candHost) (avail : Z) : list candHost * Z :=
  match cs with
  | [] => ([], avail)
  | c :: cs =>
      if some j avail then
        let n := Z.min (Z.min (c_numAvailSlots c) (maxNumProcessors r - avail)) (numAvailSlots j - avail) in
        let '(es, avail) := take_avail j cs (avail + n) in
        (CandHost (hData c) n n 0 0 None :: es, avail)
      else ([], avail)
  end.

(** All slots of the host are running or reserved. *)
Definition all_reserved (c : candHost) : bool :=
  host_field false (fun h => h_maxJobs (hosts h) <=? numRESERVE (h_cnt (hosts h))) c.

Fixpoint take_more (j : djob) (cs es : list candHost) (elig : Z) : list candHost * Z :=
  match cs, es with
  | c :: cs, e :: es' =>
      if more j elig then
        let n := if all_reserved c then 0
                 else Z.min (c_numSlots c - c_numAvailSlots e) (numProcessors r - elig) in
        let '(es', elig) := take_more j cs es' (elig + n) in
        (c_set_slots (c_numSlots e + n) (c_numAvailSlots e) e :: es', elig)
      else (es, elig)
  | _, _ => (es, elig)
  end.

Fixpoint take_rest (j : djob) (cs : list candHost) (elig : Z) : list candHost * Z :=
  match cs with
  | [] => ([], elig)
  | c :: cs =>
      if more j elig then
        if all_reserved c then let '(es, elig) := take_rest j cs elig in (unused :: es, elig)
        else
          let n := Z.min (c_numSlots c) (numProcessors r - elig) in
          let '(es, elig) := take_rest j cs (elig + n) in
          (CandHost (hData c) n (Z.min (c_numAvailSlots c) n) 0 0 None :: es, elig)
      else ([], elig)
  end.

Definition plain_procs (j : djob) : list candHost * Z * Z :=
  let '(es, avail) := take_avail j (candPtr j) 0 in
  if avail <? numProcessors r then
    let '(es, elig) := take_more j (candPtr j) es avail in
    let '(fs, elig) := take_rest j (drop (length es) (candPtr j)) elig in
    (es ++ fs, elig, avail)
  else (es, avail, avail).

(** *** Borrowing on the hosts that the job got *)

Fixpoint lend (left nSlots : Z) (i : nat) (bs : list backfillee) : list backfillee :=
  match bs with
  | [] => []
  | b :: bs =>
      let n := Z.min (left - nSlots) (backfillSlots b) in
      Backfillee (backfilleePtr b) i n :: (if nSlots + n =? left then [] else lend left (nSlots + n) i bs)
  end.

Definition getBackfillSlotsOnExecCandHost (cs es : list candHost) : list candHost :=
  imap (fun i e =>
    match cs !! i ≫= backfilleeList with
    | None => e
    | Some bs =>
        match lend (c_numAvailSlots e) 0 i bs with
        | [] => e
        | l => c_set_list (Some (default [] (backfilleeList e) ++ l)) e
        end
    end) es.

(** The entries [execCandPtr[i]] and the sums of the slots taken off. *)
Definition remove_borrowed (c : candHost) (st : candHost * Z * Z) (b : backfillee) : candHost * Z * Z :=
  let '(e, totalSlots, totalAvailSlots) := st in
  let unusedSlots := numNonBackfillSlots c - (c_numSlots e - backfillSlots b) in
  let unusedAvail := numAvailNonBackfillSlots c - (c_numAvailSlots e - backfillSlots b) in
  let n := Z.max 0 (backfillSlots b - unusedSlots) in
  let a := Z.max 0 (backfillSlots b - unusedAvail) in
  (c_set_slots (c_numSlots e - n) (c_numAvailSlots e - a) e, totalSlots + n, totalAvailSlots + a).

(** [None]: the host of an entry is not among the candidates. *)
Fixpoint removeBackfillSlotsFromBackfiller (cs es : list candHost) : option (list candHost * Z * Z) :=
  match es with
  | [] => Some ([], 0, 0)
  | e :: es =>
      '(e, n, a) ← match backfilleeList e with
                   | None => Some (e, 0, 0)
                   | Some bs =>
                       c ← head (filter (fun c => hData c = hData e) cs);
                       Some (foldl (remove_borrowed c) (e, 0, 0) bs)
                   end;
      '(es, n', a') ← removeBackfillSlotsFromBackfiller cs es;
      Some (e :: es, n + n', a + a')
  end.

(** The jobs that lend slots, each with the hosts and the slots: [backfilleeToFreeList]. *)
Fixpoint add_lender (l : list (Z * list (option cstr * Z))) (p : Z) (x : option cstr * Z) : list (Z * list (option cstr * Z)) :=
  match l with
  | [] => [(p, [x])]
  | (q, xs) :: l => if q =? p then (q, xs ++ [x]) :: l else (q, xs) :: add_lender l p x
  end.

Definition lenders (cs es : list candHost) : list (Z * list (option cstr * Z)) :=
  foldl (fun l b => add_lender l (backfilleePtr b) (cs !! indexInCandHostList b ≫= hData, backfillSlots b)) []
    (mjoin ((fun e => default [] (backfilleeList e)) <$> es)).

Fixpoint removeNOccuranceOfHost (hs : list (option cstr)) (host : option cstr) (num : nat) : list (option cstr) :=
  match hs with
  | [] => []
  | h :: hs' => if bool_decide (h = host) then drop num hs else h :: removeNOccuranceOfHost hs' host num
  end.

(** The hosts that a lender keeps reserved. *)
Definition hosts_kept (hs : list (option cstr)) (xs : list (option cstr * Z)) : list (option cstr) :=
  foldl (fun hs '(h, n) => take (length hs - Z.to_nat n) (removeNOccuranceOfHost hs h (Z.to_nat n))) hs xs.

(** What the jobs that lent slots have to give back is the second component. *)
Definition doBackfill (j : djob) : option (djob * list (Z * list (option cstr * Z))) :=
  if numProcessors r <=? numEligProc j then Some (j, lenders (candPtr j) (execCandPtr j))
  else
    '(es, n, a) ← removeBackfillSlotsFromBackfiller (candPtr j) (execCandPtr j);
    Some (set_exec es (numEligProc j - n) (numAvailEligProc j - a) j, []).

Definition getNumProcs (j : djob) : option (djob * list (Z * list (option cstr * Z))) :=
  let has := jobHasBackfillee (candPtr j) in
  if canBackfill && negb hasPreference && has && negb (allInOne jobRes queueRes) then
    let '(es, elig, avail) := backfill_procs j in doBackfill (set_exec es elig avail j)
  else
    let '(es, elig, avail) := plain_procs j in
    let j := set_exec es elig avail j in
    if canBackfill && has
    then doBackfill (set_exec (getBackfillSlotsOnExecCandHost (candPtr j) es) elig avail j) else Some (j, []).

(** ** Dispatch *)

(** [None]: more hosts than [hPtr] has room for. The function fails without slots. *)
Definition allocHosts (j : djob) : option (option djob) :=
  if numEligProc j <=? 0 then Some None
  else
    let hs := mjoin ((fun e => replicate (Z.to_nat (c_numSlots e)) (hData e)) <$> execCandPtr j) in
    if numEligProc j <? Z.of_nat (length hs) then None else Some (Some (set_hPtr hs j)).

Definition deallocHosts (j : djob) : djob := set_hPtr [] j.

(** The talk with sbatchd, given the job: whether it is started, and the reason if not.
    Whether the hosts of the cluster are enough; whether the session has lasted too long. *)
Context (dispatch_it : djob -> bool * Z) (enoughMaxUsableSlots : bool) (stay_too_long : nat -> bool).
Context (schedDelay now_disp submitTime slotHoldTime minProcLimit : Z).

Definition dispatchToCandHost (j : djob) : option (djob * dispatchAJobReturnCode) :=
  a ← allocHosts j;
  match a with
  | None => Some (j, DISP_NO_JOB)
  | Some j =>
      if Z.of_nat (length (hPtr j)) <? numProcessors r then Some (deallocHosts j, DISP_NO_JOB)
      else
        let '(started, reason) := dispatch_it (set_newReason 0 j) in
        let j := set_newReason reason j in
        if started then Some (j, DISP_OK)
        else
          let j := deallocHosts j in
          Some (if has reason PEND_JOB_NO_FILE then j
                else set_cands (removeCandHostFromCandPtr (candPtr j) 0) j, DISP_FAIL)
  end.

(** Slots are missing: they can be reserved when the queue does that. *)
Definition reserve_slots (j : djob) : option (djob * dispatchAJobReturnCode) :=
  let j := match jobRes with
           | Some v => if negb (pTile v =? INFINIT_INT) then addReason j 0 PEND_JOB_SPREAD_TASK
                       else if negb (maxNumHosts v =? 1) && negb (unspread queueRes)
                            then addReason j 0 PEND_QUE_SPREAD_TASK else j
           | None => if negb (unspread queueRes) then addReason j 0 PEND_QUE_SPREAD_TASK else j
           end in
  let j := if reserved j then set_hPtr [] (set_reserved false j) else j in
  a ← (if (0 <? slotHoldTime) && enoughMaxUsableSlots then allocHosts j else Some None);
  Some match a with
       | Some j => (stage JOB_STAGE_DONE (set_reserved true j), DISP_RESERVE)
       | None => (stage JOB_STAGE_DONE j, DISP_NO_JOB)
       end.

(** The loop of [dispatchAJob], and what the jobs that lent slots have to give back in
    each round. *)
Fixpoint dispatch_loop (fuel : nat) (dontTryNextCandHost : bool) (j : djob)
    : option (djob * dispatchAJobReturnCode * list (list (Z * list (option cstr * Z)))) :=
  match fuel with
  | O => None
  | S fuel =>
      '(j, frees) ← getNumProcs j;
      if numAvailEligProc j <? Z.max (numProcessors r) minProcLimit then
        if slotHoldTime <=? 0 then Some (stage JOB_STAGE_DONE j, DISP_NO_JOB, [frees])
        else '(j, ret) ← reserve_slots j; Some (j, ret, [frees])
      else
        let j := if reserved j then set_hPtr [] (set_reserved false j) else j in
        '(j, ret) ← dispatchToCandHost j;
        match ret with
        | DISP_FAIL =>
            if dontTryNextCandHost then Some (j, DISP_FAIL, [frees])
            else if (length (candPtr j) =? 0)%nat || has (newReason j) PEND_JOB_NO_FILE
            then Some (stage JOB_STAGE_DONE j, DISP_FAIL, [frees])
            else if stay_too_long fuel then Some (j, DISP_TIME_OUT, [frees])
            else '(j, ret, fs) ← dispatch_loop fuel dontTryNextCandHost j; Some (j, ret, frees :: fs)
        | DISP_OK => Some (stage JOB_STAGE_DISP (stage JOB_STAGE_DONE j), ret, [frees])
        | _ => Some (stage JOB_STAGE_DONE j, ret, [frees])
        end
  end.

Definition dispatchAJob (fuel : nat) (dontTryNextCandHost : bool) (j : djob)
    : option (djob * dispatchAJobReturnCode * list (list (Z * list (option cstr * Z)))) :=
  if now_disp - submitTime <? (if schedDelay =? INFINIT_INT then 2 else schedDelay)
  then Some (stage JOB_STAGE_DONE (set_newReason PEND_JOB_DELAY_SCHED j), DISP_NO_JOB, [])
  else dispatch_loop fuel dontTryNextCandHost (getNumSlots j).
End Dispatch.
