(* ===== verification/DispatchSpec.v ===== *)
(** * The slots and hosts that a job gets: theorems

    [getNumSlots] only reorders the candidates and lowers their slots; the slots that
    [getNumProcs] takes from a host are at most those of its candidate, and their sum is
    [numEligProc]; so that the hosts of a job that is started stay within the slots of
    each host, of the job, and within all limits from which these were computed. *)

From S2P Require Import Prelude JobStatus Accounting SlotLimits Dispatch.

(** ** Sums and positions *)

Lemma zsum_app {A} (f : A -> Z) l1 l2 : zsum f (l1 ++ l2) = zsum f l1 + zsum f l2.
Proof. induction l1 as [|x l IH]; [done|]. cbn [app zsum foldr]. fold (zsum f (l ++ l2)). rewrite IH. unfold zsum. simpl. lia. Qed.

Lemma zsum_nonneg {A} (f : A -> Z) l : Forall (fun x => 0 <= f x) l -> 0 <= zsum f l.
Proof. induction 1; simpl; lia. Qed.

Lemma zsum_perm {A} (f : A -> Z) l1 l2 : l1 ≡ₚ l2 -> zsum f l1 = zsum f l2.
Proof. induction 1; simpl; lia. Qed.

Lemma shift_right {A} (a : list A) x b :
  foldl (fun l i => copy_entry i (S i) l) (a ++ x :: b) (rev (seq 0 (length a))) =
    match a with [] => x :: b | h :: _ => h :: a ++ b end.
Proof.
  revert x b. induction a as [|y a IH] using rev_ind; intros x b; [done|].
  rewrite length_app, Nat.add_1_r, seq_S, rev_app_distr. cbn [rev app foldl plus].
  assert (copy_entry (length a) (S (length a)) ((a ++ [y]) ++ x :: b) = a ++ y :: y :: b) as ->.
  { unfold copy_entry. rewrite <- (assoc app). cbn [app]. rewrite list_lookup_middle by done.
    rewrite <- (assoc app), insert_app_r_alt by lia. by replace (S (length a) - length a)%nat with 1%nat by lia. }
  rewrite IH. destruct a as [|h a]; [done|]. cbn [app]. by rewrite <- (assoc app).
Qed.

Lemma moveHostPos_front {A} (a : list A) x b : moveHostPos (a ++ x :: b) (length a) 0 = x :: a ++ b.
Proof.
  unfold moveHostPos. destruct a as [|h a]; [done|]. cbn [length Nat.eqb].
  rewrite (list_lookup_middle (h :: a) b x (S (length a)) eq_refl). cbn [Nat.ltb Nat.leb].
  change (S (length a) - 0)%nat with (length (h :: a)). by rewrite (shift_right (h :: a) x b).
Qed.

Section Dispatch.
Context (r : request) (jobRes queueRes : option resVal) (firstHostId : Z).
Context (hosts : cstr -> Accounting.hData) (cpuFactor : cstr -> float32).
Context (predictedStartTime : Z -> Z) (now runLimit : Z).
Context (canBackfill hasPreference : bool).
Hypothesis Hreq : 1 <= numProcessors r <= maxNumProcessors r.

(** ** The slots of the candidates *)

Definition cand_ok (c : candHost) : Prop := 0 <= c_numSlots c /\ 0 <= c_numAvailSlots c.
Definition capped (j : djob) (c : candHost) : candHost :=
  let n := Z.min (c_numSlots c) (numSlots j) in
  c_set_slots n (Z.min (Z.min (c_numAvailSlots c) n) (numAvailSlots j)) c.

(** What [getNumSlots] has done with the first [i] candidates. *)
Record slots_upto (j0 : djob) (i : nat) (st : djob * Z * Z) : Prop := {
  su_cands : exists done, candPtr st.1.1 = done ++ drop i (candPtr j0) /\ length done = i /\
    done ≡ₚ capped j0 <$> take i (candPtr j0);
  su_slots : numSlots st.1.1 = numSlots j0 /\ numAvailSlots st.1.1 = numAvailSlots j0;
  su_res : reserved st.1.1 = reserved j0;
  su_sums : 0 <= st.2 <= st.1.2 }.

Lemma num_slots_step j0 i st : 0 <= numSlots j0 -> 0 <= numAvailSlots j0 -> Forall cand_ok (candPtr j0) ->
  (i < length (candPtr j0))%nat -> slots_upto j0 i st ->
  slots_upto j0 (S i) (num_slots_body r jobRes queueRes firstHostId hosts st i).
Proof.
  intros Hn0 Ha0 Hok Hi [(done & Hc & Hl & Hp) [Hn Ha] Hr Hs]. destruct st as [[j nS] nA]. cbn [fst snd] in *.
  destruct (lookup_lt_is_Some_2 _ _ Hi) as [c Hlc].
  pose proof (drop_S _ _ _ Hlc) as Hd. rewrite Hd in Hc.
  assert (candPtr j !! i = Some c) as Hjc by (rewrite Hc; by apply list_lookup_middle).
  unfold num_slots_body. rewrite Hjc, Hn, Ha. fold (capped j0 c). cbv zeta.
  assert (cand_ok c) as [Hc1 Hc2] by (rewrite Forall_forall in Hok; apply Hok; by eapply list_elem_of_lookup_2).
  set (n := Z.min (c_numSlots c) (numSlots j0)). set (a := Z.min (Z.min (c_numAvailSlots c) n) (numAvailSlots j0)).
  change (c_set_slots n a c) with (capped j0 c).
  assert (<[i:=capped j0 c]> (candPtr j) = done ++ capped j0 c :: drop (S i) (candPtr j0)) as Hins.
  { rewrite Hc, <- Hl. rewrite insert_app_r_alt by lia. by rewrite Nat.sub_diag. }
  rewrite Hins. set (j1 := set_cands _ j).
  set (j2 := if a <? numProcessors r then _ else j1).
  assert (candPtr j2 = done ++ capped j0 c :: drop (S i) (candPtr j0) /\ numSlots j2 = numSlots j0 /\
          numAvailSlots j2 = numAvailSlots j0 /\ reserved j2 = reserved j0) as (Hj2 & Hs2 & Ha2 & Hr2)
    by (unfold j2; by destruct (a <? numProcessors r)).
  assert (take (S i) (candPtr j0) = take i (candPtr j0) ++ [c]) as Ht by by apply take_S_r.
  assert (forall st', candPtr st'.1.1 = candPtr j2 \/ candPtr st'.1.1 = moveHostPos (candPtr j2) i 0 ->
    numSlots st'.1.1 = numSlots j0 -> numAvailSlots st'.1.1 = numAvailSlots j0 -> reserved st'.1.1 = reserved j0 ->
    0 <= st'.2 <= st'.1.2 -> slots_upto j0 (S i) st') as Hend.
  { intros st' Hst Hs' Ha' Hr' Hsum. split; [|done|done|done]. rewrite Ht, fmap_app.
    destruct Hst as [->| ->]; rewrite Hj2.
    - exists (done ++ [capped j0 c]). split_and!; [by rewrite <- (assoc app)|rewrite length_app; simpl; lia|].
      by rewrite Hp.
    - pose proof (moveHostPos_front done (capped j0 c) (drop (S i) (candPtr j0))) as Hmove. rewrite Hl in Hmove.
      rewrite Hmove. exists (capped j0 c :: done).
      split_and!; [done|simpl; lia|]. rewrite Hp. cbn [fmap list_fmap]. apply Permutation_cons_append. }
  assert (0 <= a <= n) as Han by lia.
  destruct (allInOne jobRes queueRes && (firstHostId =? 0)); [|apply Hend; try done; [by left|cbn [fst snd]; lia]].
  destruct (nS =? 0).
  - destruct (0 <? n); apply Hend; try done; first [by left|by right].
  - destruct ((nS <? numProcessors r) && (numProcessors r <=? n)); apply Hend; try done; first [by left|by right].
Qed.

Lemma getNumSlots_spec j : 0 <= numSlots j -> 0 <= numAvailSlots j -> Forall cand_ok (candPtr j) ->
  let j' := getNumSlots r jobRes queueRes firstHostId hosts j in
  candPtr j' ≡ₚ capped j <$> candPtr j /\ 0 <= numSlots j' <= numSlots j /\ 0 <= numAvailSlots j' <= numAvailSlots j /\
  reserved j' = reserved j.
Proof.
  intros Hn Ha Hok. unfold getNumSlots.
  assert (forall k, (k <= length (candPtr j))%nat ->
    slots_upto j k (foldl (num_slots_body r jobRes queueRes firstHostId hosts) (j, 0, 0) (seq 0 k))) as H.
  { induction k as [|k IH]; intros Hk.
    - split; cbn [seq foldl fst snd]; [by exists []|done|done|lia].
    - rewrite seq_S, foldl_app. apply num_slots_step; try done. apply IH. lia. }
  specialize (H _ (le_n _)). destruct (foldl _ _ _) as [[j' nS] nA].
  destruct H as [(done & Hc & Hl & Hp) [Hs Hs'] Hr Hsum]. cbn [fst snd] in *. rewrite firstn_all in Hp.
  cbn zeta. split_and!; cbn [candPtr numSlots numAvailSlots reserved set_slots]; [|lia|lia|lia|lia|done].
  rewrite Hc, Hp, (drop_ge (candPtr j) (length (candPtr j)) (le_n _)). by rewrite app_nil_r.
Qed.

(** ** The slots that the job gets *)

Abbreviation some := (some r).
Abbreviation more := (more r).

(** An entry of [execCandPtr] for the candidate [c]: the slots are those of [c] at most. *)
Record takes (c e : candHost) : Prop := {
  tk_slots : 0 <= c_numSlots e <= c_numSlots c;
  tk_host : hData e = hData c \/ (c_numSlots e = 0 /\ backfilleeList e = None /\ all_reserved hosts c = true) }.

Definition free_ok (c : candHost) : Prop := 0 <= c_numAvailSlots c <= c_numSlots c.

Lemma some_iff j a : some j a = true <-> a < numAvailSlots j /\ a < maxNumProcessors r.
Proof. unfold Dispatch.some. rewrite andb_true_iff, !Z.ltb_lt. done. Qed.

Lemma more_iff j e : more j e = true <-> e < numSlots j /\ e < numProcessors r.
Proof. unfold Dispatch.more. rewrite andb_true_iff, !Z.ltb_lt. done. Qed.

(** The first loop takes free slots until the job has enough. *)
Lemma take_avail_spec j cs avail : Forall free_ok cs -> avail <= Z.max 0 (numAvailSlots j) -> avail <= maxNumProcessors r ->
  let '(es, a) := take_avail r j cs avail in
  Forall2 (fun c e => takes c e /\ c_numAvailSlots e = c_numSlots e /\ hData e = hData c) (take (length es) cs) es /\
  (length es <= length cs)%nat /\ a = avail + zsum c_numSlots es /\ avail <= a /\
  a <= Z.max 0 (numAvailSlots j) /\ a <= maxNumProcessors r.
Proof.
  intros Hok. revert avail. induction Hok as [|c cs Hc _ IH]; intros avail Ha Hm; cbn [take_avail].
  { cbn [length take zsum foldr]. split_and!; [by constructor|lia..]. }
  destruct (some j avail) eqn:E; [|cbn [length take zsum foldr]; split_and!; [by constructor|lia..]].
  apply some_iff in E. destruct Hc as [Hc1 Hc2].
  set (n := Z.min (Z.min (c_numAvailSlots c) (maxNumProcessors r - avail)) (numAvailSlots j - avail)).
  specialize (IH (avail + n) ltac:(lia) ltac:(lia)). destruct (take_avail r j cs (avail + n)) as [es a].
  destruct IH as (Hf & Hl & Hs & H1 & H2 & H3). cbn [length take]. split_and!; try lia.
  - constructor; [|done]. cbn. split_and!; [split; cbn; [lia|by left]|done|done].
  - cbn [zsum foldr c_numSlots]. fold (zsum c_numSlots es). lia.
Qed.

(** The second loop adds slots that are not free on the same hosts. *)
Lemma take_more_spec j cs es elig : Forall free_ok cs ->
  Forall2 (fun c e => takes c e /\ c_numAvailSlots e = c_numSlots e /\ hData e = hData c) (take (length es) cs) es ->
  elig <= maxNumProcessors r ->
  let '(es', e') := take_more r hosts j cs es elig in
  length es' = length es /\ Forall2 takes (take (length es) cs) es' /\
  e' - zsum c_numSlots es' = elig - zsum c_numSlots es /\ elig <= e' <= maxNumProcessors r.
Proof.
  intros Hok. revert es elig. induction Hok as [|c cs Hc _ IH]; intros es elig Hf He.
  { cbn [take_more]. split_and!; [done| |done|done|done]. eapply Forall2_impl; [exact Hf|]. by intros ? ? [? _]. }
  destruct es as [|e es]; cbn [take_more].
  { split_and!; [done|constructor|done|done|done]. }
  cbn [length take] in Hf. apply Forall2_cons in Hf as [(Ht & Hav & Hh) Hf].
  destruct (more j elig) eqn:Em.
  2: { split_and!; [done| |done|done|done]. cbn [length take]. constructor; [done|].
       eapply Forall2_impl; [exact Hf|]. by intros ? ? [? _]. }
  apply more_iff in Em. destruct Ht as [Ht1 Ht2].
  set (n := if all_reserved hosts c then 0 else Z.min (c_numSlots c - c_numAvailSlots e) (numProcessors r - elig)).
  assert (0 <= n <= c_numSlots c - c_numSlots e /\ elig + n <= maxNumProcessors r) as [Hn Hle]
    by (unfold n; destruct (all_reserved hosts c); lia).
  specialize (IH es (elig + n) Hf Hle). destruct (take_more r hosts j cs es (elig + n)) as [es' e'].
  destruct IH as (Hl & Hf' & Hs & H1 & H2). cbn [length take]. split_and!; try lia.
  - constructor; [|done]. split; cbn; [lia|by left].
  - cbn [zsum foldr c_numSlots c_set_slots]. fold (zsum c_numSlots es). fold (zsum c_numSlots es'). lia.
Qed.

(** The third loop goes on with the other hosts. *)
Lemma take_rest_spec j cs elig : Forall free_ok cs -> elig <= maxNumProcessors r ->
  let '(es, e') := take_rest r hosts j cs elig in
  (length es <= length cs)%nat /\ Forall2 takes (take (length es) cs) es /\
  e' = elig + zsum c_numSlots es /\ elig <= e' <= maxNumProcessors r.
Proof.
  intros Hok. revert elig. induction Hok as [|c cs Hc _ IH]; intros elig He; cbn [take_rest].
  { cbn [length take zsum foldr]. split_and!; [lia|constructor|lia..]. }
  destruct (more j elig) eqn:E; [|cbn [length take zsum foldr]; split_and!; [lia|constructor|lia..]].
  apply more_iff in E. destruct Hc as [Hc1 Hc2]. destruct (all_reserved hosts c) eqn:Er.
  - specialize (IH elig He). destruct (take_rest r hosts j cs elig) as [es e']. destruct IH as (Hl & Hf & Hs & H1).
    cbn [length take]. split_and!; try lia; [|cbn [zsum foldr]; fold (zsum c_numSlots es); cbn; lia].
    constructor; [split; cbn; [lia|by right]|done].
  - set (n := Z.min (c_numSlots c) (numProcessors r - elig)).
    specialize (IH (elig + n) ltac:(lia)). destruct (take_rest r hosts j cs (elig + n)) as [es e'].
    destruct IH as (Hl & Hf & Hs & H1). cbn [length take].
    split_and!; try lia; [|cbn [zsum foldr]; fold (zsum c_numSlots es); cbn [c_numSlots]; lia].
    constructor; [split; cbn; [lia|by left]|done].
Qed.

(** The result of [getNumProcs] for the candidates [cs]: [ps] says for each entry which
    candidate it is for, and no candidate has two. *)
Record procs_ok (j : djob) (es : list candHost) (elig avail : Z) : Prop := {
  po_places : exists ps, NoDup ps /\
    Forall2 (fun i e => exists c, candPtr j !! i = Some c /\ takes c e) ps es;
  po_sum : elig = zsum c_numSlots es;
  po_max : avail <= elig <= maxNumProcessors r }.

Lemma takes_places (cs es : list candHost) : (length es <= length cs)%nat -> Forall2 takes (take (length es) cs) es ->
  exists ps, NoDup ps /\ Forall2 (fun i e => exists c, cs !! i = Some c /\ takes c e) ps es.
Proof.
  intros Hl Hf. exists (seq 0 (length es)). split; [apply NoDup_seq|].
  apply Forall2_same_length_lookup_2; [by rewrite length_seq|]. intros k i e Hk He.
  apply lookup_seq in Hk as [-> Hk]. destruct (Forall2_lookup_r _ _ _ _ _ Hf He) as (c & Hc & Ht).
  exists c. split; [|done]. apply lookup_take_Some in Hc. tauto.
Qed.

Lemma plain_procs_ok j : Forall free_ok (candPtr j) -> 0 <= numAvailSlots j ->
  let '(es, elig, avail) := plain_procs r hosts j in
  (length es <= length (candPtr j))%nat /\ Forall2 takes (take (length es) (candPtr j)) es /\
  elig = zsum c_numSlots es /\ avail <= elig <= maxNumProcessors r /\
  avail <= numAvailSlots j /\ (numProcessors r <= avail -> elig = avail).
Proof.
  intros Hok Ha. unfold plain_procs.
  pose proof (take_avail_spec j (candPtr j) 0 Hok ltac:(lia) ltac:(lia)) as H1.
  destruct (take_avail r j (candPtr j) 0) as [es avail]. destruct H1 as (Hf & Hl & Hs & H1 & H2 & H3).
  destruct (Z.ltb_spec avail (numProcessors r)).
  - pose proof (take_more_spec j (candPtr j) es avail Hok Hf H3) as H4.
    destruct (take_more r hosts j (candPtr j) es avail) as [es1 e1]. destruct H4 as (Hl1 & Hf1 & Hs1 & H4).
    pose proof (take_rest_spec j (drop (length es1) (candPtr j)) e1 (Forall_drop _ _ _ Hok) ltac:(lia)) as H5.
    destruct (take_rest r hosts j (drop (length es1) (candPtr j)) e1) as [fs e2].
    destruct H5 as (Hl2 & Hf2 & Hs2 & H5). rewrite length_drop in Hl2.
    split_and!; [rewrite length_app; lia| |rewrite zsum_app; lia|lia..].
    rewrite length_app, <- take_take_drop. apply Forall2_app; [by rewrite Hl1|done].
  - split_and!; [done| |lia..]. eapply Forall2_impl; [exact Hf|]. by intros ? ? [? _].
Qed.

(** ** Borrowed slots *)

(** Every entry of [backfillCandPtr] is for another candidate and within its slots. *)
Record bcand_ok (j : djob) (b : backfillCand) : Prop := {
  bo_cand : exists c, candPtr j !! b_index b = Some c /\ 0 <= b_numSlots b <= c_numSlots c /\
    0 <= b_numAvailSlots b <= c_numAvailSlots c;
  bo_avail : b_numAvailSlots b <= b_numSlots b }.

Record bcands_ok (j : djob) (bcs : list backfillCand) (elig : Z) : Prop := {
  bs_ok : Forall (bcand_ok j) bcs;
  bs_once : NoDup (b_index <$> bcs);
  bs_sum : elig = zsum b_numSlots bcs;
  bs_max : elig <= maxNumProcessors r }.

(** As long as all slots are free ones. *)
Definition all_free (bcs : list backfillCand) : Prop := Forall (fun b => b_numSlots b = b_numAvailSlots b) bcs.

Lemma find_cand_spec bcs i : match find_cand bcs i with
  | Some k => exists b, bcs !! k = Some b /\ b_index b = i
  | None => i ∉ b_index <$> bcs
  end.
Proof.
  induction bcs as [|b bcs IH]; cbn [find_cand]; [apply not_elem_of_nil|].
  destruct (Nat.eqb_spec (b_index b) i) as [<-|Hne]; [by exists b|].
  destruct (find_cand bcs i) as [k|]; cbn [fmap option_fmap option_map]; [exact IH|].
  rewrite fmap_cons, not_elem_of_cons. done.
Qed.

Lemma in_cands_spec bcs i : candHostInBackfillCandList bcs i = false -> i ∉ b_index <$> bcs.
Proof.
  unfold candHostInBackfillCandList. induction bcs as [|b bcs IH]; cbn [existsb]; [intros _; apply not_elem_of_nil|].
  intros [H1 H2]%orb_false_iff. apply Nat.eqb_neq in H1. rewrite fmap_cons, not_elem_of_cons. auto.
Qed.

(** A new entry behind the others, and one that grows. *)
Lemma bcands_snoc j bcs elig b : bcands_ok j bcs elig -> bcand_ok j b -> b_index b ∉ b_index <$> bcs ->
  elig + b_numSlots b <= maxNumProcessors r -> bcands_ok j (bcs ++ [b]) (elig + b_numSlots b).
Proof.
  intros [H1 H2 H3 H4] Hb Hi Hm. split; [by apply Forall_app_2; [|constructor]| |rewrite zsum_app; cbn; lia|done].
  rewrite fmap_app. apply NoDup_app. split_and!; [done| |apply NoDup_singleton].
  intros x Hx Hy. apply list_elem_of_singleton in Hy as ->. done.
Qed.

Lemma zsum_insert {A} (f : A -> Z) l i x y : l !! i = Some x -> zsum f (<[i := y]> l) = zsum f l - f x + f y.
Proof.
  revert i. induction l as [|a l IH]; intros i; [done|]. destruct i as [|i]; simpl.
  - intros [= ->]. lia.
  - intros H. rewrite (IH _ H). lia.
Qed.

Lemma bcands_insert j bcs elig i b b' : bcands_ok j bcs elig -> bcs !! i = Some b -> bcand_ok j b' ->
  b_index b' = b_index b -> elig + (b_numSlots b' - b_numSlots b) <= maxNumProcessors r ->
  bcands_ok j (<[i := b']> bcs) (elig + (b_numSlots b' - b_numSlots b)).
Proof.
  intros [H1 H2 H3 H4] Hi Hb Hx Hm. split; [by apply Forall_insert| | |done].
  - rewrite list_fmap_insert, Hx. rewrite list_insert_id; [done|]. by rewrite list_lookup_fmap, Hi.
  - rewrite (zsum_insert _ _ _ _ _ Hi). lia.
Qed.

Lemma borrow_spec j b bcs avail : Forall free_ok (candPtr j) -> 0 <= backfillSlots b ->
  (indexInCandHostList b < length (candPtr j))%nat -> avail < maxNumProcessors r ->
  bcands_ok j bcs avail -> all_free bcs ->
  let '(bcs', a) := borrow r j b bcs avail in bcands_ok j bcs' a /\ all_free bcs' /\ avail <= a.
Proof.
  intros Hok Hb Hi Hm Hbs Hfr. unfold borrow. destruct (lookup_lt_is_Some_2 _ _ Hi) as [c Hc]. rewrite Hc.
  assert (free_ok c) as [Hc1 Hc2] by (rewrite Forall_forall in Hok; apply Hok; by eapply list_elem_of_lookup_2).
  set (n := Z.min (c_numAvailSlots c) (Z.min (backfillSlots b) (maxNumProcessors r - avail))).
  pose proof (find_cand_spec bcs (indexInCandHostList b)) as Hf. destruct (find_cand bcs _) as [k|].
  - destruct Hf as (x & Hx & Hxi). rewrite Hx.
    destruct (Forall_lookup_1 _ _ _ _ (bs_ok _ _ _ Hbs) Hx) as [(c' & Hc' & Hs & Ha) _].
    rewrite Hxi, Hc in Hc'. injection Hc' as <-. pose proof (Forall_lookup_1 _ _ _ _ Hfr Hx) as Hxf. cbv beta in Hxf.
    set (n' := Z.min n (c_numAvailSlots c - b_numAvailSlots x)).
    set (b' := BackfillCand _ _ _ _).
    assert (0 <= n' <= maxNumProcessors r - avail) by lia.
    replace (avail + n') with (avail + (b_numSlots b' - b_numSlots x)) by (unfold b'; cbn; lia).
    split_and!; [| |unfold b'; cbn; lia].
    + apply bcands_insert; try done; [|unfold b'; cbn; lia]. split; unfold b'; cbn; [|lia].
      exists c. rewrite Hxi. split_and!; (done || lia).
    + apply Forall_insert; [done|]. done.
  - set (b' := BackfillCand _ _ _ _). replace (avail + n) with (avail + b_numSlots b') by done.
    split_and!; [|by apply Forall_app_2; [|constructor]|unfold b'; cbn; lia].
    apply bcands_snoc; try done; [|unfold b'; cbn; lia]. split; unfold b'; cbn; [|lia].
    exists c. split_and!; (done || lia).
Qed.

(** The entries of the sorted list are those of the candidates. *)
Definition lender_ok (j : djob) (b : backfillee) : Prop :=
  0 <= backfillSlots b /\ (indexInCandHostList b < length (candPtr j))%nat.

Lemma insert_sorted_perm cs l b :
  insertIntoSortedBackfilleeList cpuFactor predictedStartTime now runLimit cs l b ≡ₚ b :: l.
Proof.
  induction l as [|e l IH]; cbn [insertIntoSortedBackfilleeList]; [done|]. case_if; [done|].
  rewrite IH. apply Permutation_swap.
Qed.

Lemma sorted_ok j : Forall (fun c => Forall (fun b => 0 <= backfillSlots b) (default [] (backfilleeList c))) (candPtr j) ->
  Forall (lender_ok j) (sortBackfillee cpuFactor predictedStartTime now runLimit (candPtr j)).
Proof.
  intros Hb. unfold sortBackfillee.
  assert (forall l acc, Forall (lender_ok j) l -> Forall (lender_ok j) acc ->
    Forall (lender_ok j) (foldl (insertIntoSortedBackfilleeList cpuFactor predictedStartTime now runLimit (candPtr j)) acc l))
    as Hfold.
  { induction l as [|b l IH]; intros acc Hl Ha; [done|]. apply Forall_cons in Hl as [Hb1 Hl]. cbn [foldl].
    apply IH; [done|]. rewrite insert_sorted_perm. by constructor. }
  apply Hfold; [|constructor]. apply Forall_forall. intros b (l & Hbl & Hl)%list_elem_of_join.
  apply elem_of_lookup_imap in Hl as (i & c & -> & Hc). apply list_elem_of_fmap in Hbl as (b0 & -> & Hb0).
  split; cbn [place_entry backfillSlots indexInCandHostList]; [|by eapply lookup_lt_Some].
  pose proof (Forall_lookup_1 _ _ _ _ Hb Hc) as H. cbv beta in H. rewrite Forall_forall in H. by apply H.
Qed.

Lemma borrow_loop_spec j bs bcs avail : Forall free_ok (candPtr j) -> Forall (lender_ok j) bs ->
  bcands_ok j bcs avail -> all_free bcs ->
  let '(bcs', a) := borrow_loop r j bs bcs avail in bcands_ok j bcs' a /\ all_free bcs' /\ avail <= a.
Proof.
  intros Hok Hl. revert bcs avail. induction Hl as [|b bs [Hb1 Hb2] _ IH]; intros bcs avail Hbs Hfr; cbn [borrow_loop].
  { split_and!; [done|done|lia]. }
  destruct (some j avail) eqn:E; [|split_and!; [done|done|lia]]. apply some_iff in E.
  pose proof (borrow_spec j b bcs avail Hok Hb1 Hb2 (proj2 E) Hbs Hfr) as H.
  destruct (borrow r j b bcs avail) as [bcs1 a1]. destruct H as (H1 & H2 & H3).
  specialize (IH bcs1 a1 H1 H2). destruct (borrow_loop r j bs bcs1 a1) as [bcs2 a2]. destruct IH as (? & ? & ?).
  split_and!; [done|done|lia].
Qed.

Lemma grow_avail_spec j bcs avail : Forall free_ok (candPtr j) -> Forall (bcand_ok j) bcs -> all_free bcs ->
  avail <= maxNumProcessors r ->
  let '(bcs', a) := grow_avail r j bcs avail in
  Forall (bcand_ok j) bcs' /\ all_free bcs' /\ b_index <$> bcs' = b_index <$> bcs /\
  a - zsum b_numSlots bcs' = avail - zsum b_numSlots bcs /\ avail <= a <= maxNumProcessors r.
Proof.
  intros Hok. revert avail. induction bcs as [|b bcs IH]; intros avail Hbs Hfr Ha; cbn [grow_avail].
  { split_and!; (done || lia). }
  destruct (some j avail) eqn:E; [|split_and!; (done || lia)]. apply some_iff in E.
  apply Forall_cons in Hbs as [Hb Hbs]. apply Forall_cons in Hfr as [Hf Hfr].
  destruct Hb as [(c & Hc & Hs & Hav) Hle]. rewrite Hc.
  set (n := Z.min (c_numAvailSlots c - b_numAvailSlots b) (maxNumProcessors r - avail)).
  assert (free_ok c) as [Hc1 Hc2] by (rewrite Forall_forall in Hok; apply Hok; by eapply list_elem_of_lookup_2).
  set (b' := if n =? 0 then b else _). set (a' := if n =? 0 then avail else _).
  assert (a' = avail + n /\ b_numSlots b' = b_numSlots b + n /\ b_index b' = b_index b /\ b_numSlots b' = b_numAvailSlots b')
    as (Ea & Es & Ei & Ef) by (unfold a', b'; destruct (Z.eqb_spec n 0); cbn; lia).
  specialize (IH a' Hbs Hfr ltac:(lia)). destruct (grow_avail r j bcs a') as [bcs2 a2].
  destruct IH as (H1 & H2 & H3 & H4 & H5). split_and!; [|by constructor| | |lia|lia].
  - constructor; [|done]. split; [|lia]. exists c. rewrite Ei. split_and!; (done || lia).
  - cbn [fmap list_fmap]. rewrite Ei. by f_equal.
  - cbn [zsum foldr]. fold (zsum b_numSlots bcs2). fold (zsum b_numSlots bcs). lia.
Qed.

Lemma grow_slots_spec j bcs elig : Forall free_ok (candPtr j) -> Forall (bcand_ok j) bcs -> elig <= maxNumProcessors r ->
  let '(bcs', e) := grow_slots r j bcs elig in
  Forall (bcand_ok j) bcs' /\ b_index <$> bcs' = b_index <$> bcs /\
  e - zsum b_numSlots bcs' = elig - zsum b_numSlots bcs /\ elig <= e <= maxNumProcessors r.
Proof.
  intros Hok. revert elig. induction bcs as [|b bcs IH]; intros elig Hbs Ha; cbn [grow_slots].
  { split_and!; (done || lia). }
  destruct (more j elig) eqn:E; [|split_and!; (done || lia)]. apply more_iff in E.
  apply Forall_cons in Hbs as [Hb Hbs]. destruct Hb as [(c & Hc & Hs & Hav) Hle]. rewrite Hc.
  set (n := Z.min (c_numSlots c - b_numSlots b) (maxNumProcessors r - elig)).
  set (b' := if n =? 0 then b else _). set (a' := if n =? 0 then elig else _).
  assert (a' = elig + n /\ b_numSlots b' = b_numSlots b + n /\ b_index b' = b_index b /\ b_numAvailSlots b' = b_numAvailSlots b)
    as (Ea & Es & Ei & Ef) by (unfold a', b'; destruct (Z.eqb_spec n 0); cbn; lia).
  specialize (IH a' Hbs ltac:(lia)). destruct (grow_slots r j bcs a') as [bcs2 a2].
  destruct IH as (H1 & H2 & H3 & H4). split_and!; [| | |lia|lia].
  - constructor; [|done]. split; [|lia]. exists c. rewrite Ei. split_and!; (done || lia).
  - cbn [fmap list_fmap]. rewrite Ei. by f_equal.
  - cbn [zsum foldr]. fold (zsum b_numSlots bcs2). fold (zsum b_numSlots bcs). lia.
Qed.

(** The other candidates, from the [i]th on. *)
Lemma other_avail_spec j cs i bcs avail : Forall free_ok (candPtr j) -> cs = drop i (candPtr j) ->
  bcands_ok j bcs avail -> all_free bcs ->
  let '(bcs', a) := other_avail r j cs i bcs avail in bcands_ok j bcs' a /\ all_free bcs' /\ avail <= a.
Proof.
  intros Hok. revert i bcs avail. induction cs as [|c cs IH]; intros i bcs avail Hcs Hbs Hfr; cbn [other_avail].
  { split_and!; [done|done|lia]. }
  destruct (some j avail) eqn:E; [|split_and!; [done|done|lia]]. apply some_iff in E.
  assert (candPtr j !! i = Some c) as Hc by (rewrite <- (Nat.add_0_r i), <- lookup_drop, <- Hcs; done).
  assert (cs = drop (S i) (candPtr j)) as Hcs' by (rewrite (drop_S _ _ _ Hc) in Hcs; by injection Hcs).
  destruct (candHostInBackfillCandList bcs i) eqn:Ei; [by apply IH|]. cbn [orb].
  destruct (Z.eqb_spec (c_numAvailSlots c) 0) as [|Hz]; [by apply IH|].
  assert (free_ok c) as [Hc1 Hc2] by (rewrite Forall_forall in Hok; apply Hok; by eapply list_elem_of_lookup_2).
  set (n := Z.min (c_numAvailSlots c) (maxNumProcessors r - avail)).
  set (b := BackfillCand n n i None). change (avail + n) with (avail + b_numSlots b).
  specialize (IH (S i) (bcs ++ [b]) (avail + b_numSlots b) Hcs').
  destruct (other_avail r j cs (S i) (bcs ++ [b]) (avail + b_numSlots b)) as [bcs2 a2].
  destruct IH as (H1 & H2 & H3); [| |split_and!; [done|done|unfold b in H3; cbn in H3; lia]].
  - apply bcands_snoc; try done; [|by apply in_cands_spec|unfold b; cbn; lia].
    split; unfold b; cbn; [|lia]. exists c. split_and!; (done || lia).
  - by apply Forall_app_2; [|constructor].
Qed.

Lemma other_slots_spec j cs i bcs elig : Forall free_ok (candPtr j) -> cs = drop i (candPtr j) ->
  bcands_ok j bcs elig ->
  let '(bcs', e) := other_slots r j cs i bcs elig in bcands_ok j bcs' e /\ elig <= e.
Proof.
  intros Hok. revert i bcs elig. induction cs as [|c cs IH]; intros i bcs elig Hcs Hbs; cbn [other_slots].
  { split_and!; [done|lia]. }
  destruct (more j elig) eqn:E; [|split_and!; [done|lia]]. apply more_iff in E.
  assert (candPtr j !! i = Some c) as Hc by (rewrite <- (Nat.add_0_r i), <- lookup_drop, <- Hcs; done).
  assert (cs = drop (S i) (candPtr j)) as Hcs' by (rewrite (drop_S _ _ _ Hc) in Hcs; by injection Hcs).
  destruct (candHostInBackfillCandList bcs i) eqn:Ei; [by apply IH|]. cbn [orb].
  destruct (Z.eqb_spec (c_numSlots c) 0) as [|Hz]; [by apply IH|].
  assert (free_ok c) as [Hc1 Hc2] by (rewrite Forall_forall in Hok; apply Hok; by eapply list_elem_of_lookup_2).
  set (n := Z.min (c_numSlots c) (maxNumProcessors r - elig)).
  set (b := BackfillCand n (Z.min (c_numAvailSlots c) n) i None). change (elig + n) with (elig + b_numSlots b).
  specialize (IH (S i) (bcs ++ [b]) (elig + b_numSlots b) Hcs').
  destruct (other_slots r j cs (S i) (bcs ++ [b]) (elig + b_numSlots b)) as [bcs2 a2].
  destruct IH as (H1 & H3); [|split_and!; [done|unfold b in H3; cbn in H3; lia]].
  apply bcands_snoc; try done; [|by apply in_cands_spec|unfold b; cbn; lia].
  split; unfold b; cbn; [|lia]. exists c. split_and!; (done || lia).
Qed.

Lemma bcands_procs j bcs elig avail : bcands_ok j bcs elig -> avail <= elig ->
  procs_ok j ((fun b => CandHost (candPtr j !! b_index b ≫= hData) (b_numSlots b) (b_numAvailSlots b) 0 0 (b_list b)) <$> bcs)
    elig avail.
Proof.
  intros [H1 H2 H3 H4] Ha. split; [| |lia].
  - exists (b_index <$> bcs). split; [done|]. apply Forall2_fmap_2, Forall_Forall2_diag.
    eapply Forall_impl; [exact H1|]. intros b [(c & Hc & Hs & _) _]. exists c. rewrite Hc. split; [done|].
    split; cbn; [done|by left].
  - rewrite H3. clear. induction bcs as [|b bcs IH]; [done|]. cbn [fmap list_fmap zsum foldr c_numSlots].
    fold (zsum b_numSlots bcs). rewrite IH. done.
Qed.

Lemma backfill_procs_ok j : Forall free_ok (candPtr j) ->
  Forall (fun c => Forall (fun b => 0 <= backfillSlots b) (default [] (backfilleeList c))) (candPtr j) ->
  let '(es, elig, avail) := backfill_procs r cpuFactor predictedStartTime now runLimit j in
  procs_ok j es elig avail /\ (numProcessors r <= avail -> elig = avail).
Proof.
  intros Hok Hb. unfold backfill_procs.
  assert (bcands_ok j [] 0) as H0 by (split; [constructor|constructor|done|lia]).
  pose proof (borrow_loop_spec j _ [] 0 Hok (sorted_ok j Hb) H0 ltac:(constructor)) as H1.
  destruct (borrow_loop r j _ [] 0) as [b1 a1]. destruct H1 as ([B1 B2 B3 B4] & Hf & Ha1).
  pose proof (grow_avail_spec j b1 a1 Hok B1 Hf B4) as H2. destruct (grow_avail r j b1 a1) as [b2 a2].
  destruct H2 as (C1 & Hf2 & C2 & C3 & C4).
  assert (bcands_ok j b2 a2) as H2 by (split; [done|by rewrite C2|lia|lia]).
  pose proof (other_avail_spec j (candPtr j) 0 b2 a2 Hok eq_refl H2 Hf2) as H3.
  destruct (other_avail r j (candPtr j) 0 b2 a2) as [b3 a3]. destruct H3 as (H3 & _ & Ha3).
  destruct (Z.ltb_spec a3 (numProcessors r)) as [Hlt|Hge].
  - destruct H3 as [D1 D2 D3 D4]. pose proof (grow_slots_spec j b3 a3 Hok D1 D4) as H4.
    destruct (grow_slots r j b3 a3) as [b4 e4]. destruct H4 as (E1 & E2 & E3 & E4).
    assert (bcands_ok j b4 e4) as H4 by (split; [done|by rewrite E2|lia|lia]).
    pose proof (other_slots_spec j (candPtr j) 0 b4 e4 Hok eq_refl H4) as H5.
    destruct (other_slots r j (candPtr j) 0 b4 e4) as [b5 e5]. destruct H5 as (H5 & He5).
    split; [apply bcands_procs; [done|lia]|lia].
  - split; [apply bcands_procs; [done|lia]|done].
Qed.

(** ** The result of [getNumProcs] *)

(** The candidates as the job has them when slots are distributed. Slots of lenders are
    only counted on hosts that are not reserved as a whole. *)
Record cands_ready (cs : list candHost) : Prop := {
  cr_free : Forall free_ok cs;
  cr_host : Forall (fun c => is_Some (hData c)) cs;
  cr_lenders : Forall (fun c => Forall (fun b => 0 <= backfillSlots b) (default [] (backfilleeList c))) cs;
  cr_own : canBackfill = true -> Forall (fun c => 0 <= numNonBackfillSlots c /\ 0 <= numAvailNonBackfillSlots c) cs;
  cr_reserved : canBackfill = true -> Forall (fun c => backfilleeList c = None \/ all_reserved hosts c = false) cs }.

Lemma remove_borrowed_spec c e0 bs e n a : 0 <= numNonBackfillSlots c -> 0 <= c_numSlots e -> 0 <= n -> 0 <= a ->
  let '(e', n', a') := foldl (remove_borrowed c) (e, n, a) bs in
  0 <= c_numSlots e' <= c_numSlots e /\ c_numSlots e' + n' = c_numSlots e + n /\ n <= n' /\ a <= a' /\
  hData e' = hData e /\ backfilleeList e' = backfilleeList e /\ (e0 = e -> hData e' = hData e0).
Proof.
  intros Hc. revert e n a. induction bs as [|b bs IH]; intros e n a He Hn Ha; cbn [foldl].
  { split_and!; (done || lia || congruence). }
  unfold remove_borrowed at 2.
  set (k := Z.max 0 (backfillSlots b - (numNonBackfillSlots c - (c_numSlots e - backfillSlots b)))).
  set (k' := Z.max 0 (backfillSlots b - (numAvailNonBackfillSlots c - (c_numAvailSlots e - backfillSlots b)))).
  set (e1 := c_set_slots _ _ e). specialize (IH e1 (n + k) (a + k')).
  assert (c_numSlots e1 = c_numSlots e - k) as E1 by done.
  destruct (foldl (remove_borrowed c) (e1, n + k, a + k') bs) as [[e' n'] a'].
  destruct IH as (H1 & H2 & H3 & H4 & H5 & H6 & _); [lia..|]. split_and!; try (done || lia). by intros ->.
Qed.

(** Entries that lose the slots that were borrowed for them. *)
Lemma remove_spec cs es : Forall (fun c => 0 <= numNonBackfillSlots c) cs ->
  Forall (fun e => 0 <= c_numSlots e /\ (backfilleeList e = None \/ exists c, c ∈ cs /\ hData c = hData e)) es ->
  exists es' n a, removeBackfillSlotsFromBackfiller cs es = Some (es', n, a) /\
    Forall2 (fun e e' => 0 <= c_numSlots e' <= c_numSlots e /\ hData e' = hData e /\ backfilleeList e' = backfilleeList e) es es' /\
    zsum c_numSlots es' = zsum c_numSlots es - n /\ 0 <= n /\ 0 <= a.
Proof.
  intros Hc He. induction He as [|e es [He Hl] _ IH]; cbn [removeBackfillSlotsFromBackfiller].
  { eexists _, _, _. split_and!; [done|constructor|done|done|done]. }
  destruct IH as (es' & n & a & IHe & Hf & Hs & Hn & Ha).
  assert (exists e' n' a', match backfilleeList e with
            | None => Some (e, 0, 0)
            | Some bs => c ← head (filter (fun c => hData c = hData e) cs); Some (foldl (remove_borrowed c) (e, 0, 0) bs)
            end = Some (e', n', a') /\ 0 <= c_numSlots e' <= c_numSlots e /\ c_numSlots e' + n' = c_numSlots e /\
            0 <= n' /\ 0 <= a' /\ hData e' = hData e /\ backfilleeList e' = backfilleeList e)
    as (e' & n' & a' & -> & H1 & H2 & H3 & H4 & H5 & H6).
  { destruct (backfilleeList e) as [bs|] eqn:Eb; [|eexists _, _, _; split_and!; (done || lia)].
    destruct Hl as [|(c & Hin & Hh)]; [done|].
    destruct (head (filter (fun c => hData c = hData e) cs)) as [c'|] eqn:Eh.
    2: { apply head_None in Eh. assert (c ∈ filter (fun c => hData c = hData e) cs) as Hx by by apply list_elem_of_filter.
         rewrite Eh in Hx. by apply not_elem_of_nil in Hx. }
    assert (c' ∈ cs) as Hc'.
    { apply head_Some_elem_of in Eh. by apply list_elem_of_filter in Eh as [_ ?]. }
    rewrite Forall_forall in Hc. pose proof (remove_borrowed_spec c' e bs e 0 0 (Hc _ Hc') He ltac:(lia) ltac:(lia)) as H.
    cbn [mbind option_bind]. destruct (foldl (remove_borrowed c') (e, 0, 0) bs) as [[e' n'] a'].
    destruct H as (? & ? & ? & ? & ? & ? & _). exists e', n', a'. rewrite <- Eb. split_and!; (done || lia). }
  cbn [mbind option_bind]. rewrite IHe. cbn [mbind option_bind].
  eexists _, _, _. split_and!; [done|by constructor| |lia|lia].
  cbn [zsum foldr]. fold (zsum c_numSlots es). fold (zsum c_numSlots es'). lia.
Qed.

Lemma zsum_lookup {A} (f : A -> Z) (l : list A) :
  zsum (fun i => match l !! i with Some x => f x | None => 0 end) (seq 0 (length l)) = zsum f l.
Proof.
  induction l as [|x l IH] using rev_ind; [done|].
  rewrite length_app, Nat.add_1_r, seq_S, !zsum_app. cbn [zsum foldr plus].
  rewrite list_lookup_middle by done. f_equal. rewrite <- IH. clear IH.
  assert (Forall (fun i => (i < length l)%nat) (seq 0 (length l))) as H by (apply Forall_forall; intros i Hi%elem_of_seq; lia).
  induction H as [|i is' Hi _ IH]; [done|]. cbn [zsum foldr]. rewrite lookup_app_l by done. unfold zsum in IH. by rewrite IH.
Qed.

(** Entries for different candidates take together at most what the candidates have. *)
Lemma places_sum {A} (F : A -> Z) (g : candHost -> Z) (cs : list A) ps es : NoDup ps -> Forall (fun c => 0 <= F c) cs ->
  Forall2 (fun i e => exists c, cs !! i = Some c /\ g e <= F c) ps es -> zsum g es <= zsum F cs.
Proof.
  intros Hnd HF Hf. rewrite <- (zsum_lookup F cs). set (f := fun i => match cs !! i with Some x => F x | None => 0 end).
  assert (zsum g es <= zsum f ps) as H1.
  { clear Hnd. induction Hf as [|i e ps es (c & Hc & Hle) _ IH]; [done|]. cbn [zsum foldr].
    fold (zsum g es). fold (zsum f ps). unfold f at 1. rewrite Hc. lia. }
  assert (ps ⊆+ seq 0 (length cs)) as [k Hk]%submseteq_Permutation.
  { apply NoDup_submseteq; [done|]. intros i Hi. destruct (list_elem_of_lookup_1 _ _ Hi) as [n Hn].
    destruct (Forall2_lookup_l _ _ _ _ _ Hf Hn) as (e & _ & c & Hc & _). apply elem_of_seq. apply lookup_lt_Some in Hc. lia. }
  rewrite (zsum_perm _ _ _ Hk), zsum_app. assert (0 <= zsum f k); [|lia]. apply zsum_nonneg, Forall_forall.
  intros i Hi. unfold f. destruct (cs !! i) as [c|] eqn:Hc; [|done]. by apply (Forall_lookup_1 _ _ _ _ HF Hc).
Qed.

(** An entry for a candidate, after slots were given back. *)
Definition entry_of (c e : candHost) : Prop :=
  0 <= c_numSlots e <= c_numSlots c /\ (hData e = hData c \/ c_numSlots e = 0).

Definition placed (cs es : list candHost) : Prop :=
  exists ps, NoDup ps /\ Forall2 (fun i e => exists c, cs !! i = Some c /\ entry_of c e) ps es.

Lemma placed_less cs es es' : placed cs es ->
  Forall2 (fun e e' => 0 <= c_numSlots e' <= c_numSlots e /\ hData e' = hData e /\ backfilleeList e' = backfilleeList e) es es' ->
  placed cs es'.
Proof.
  intros (ps & Hnd & Hf) Hless. exists ps. split; [done|]. revert ps Hnd Hf.
  induction Hless as [|e e' es es' (H1 & H2 & _) _ IH]; intros ps Hnd Hf; [by inversion Hf|].
  apply Forall2_cons_inv_r in Hf as (i & ps' & (c & Hc & He1 & He2) & Hf & ->).
  apply NoDup_cons in Hnd as [_ Hnd]. constructor; [|by apply IH]. exists c. split; [done|]. split; [lia|].
  destruct He2 as [He2|He2]; [left; congruence|right; lia].
Qed.

Record procs_result (j j' : djob) : Prop := {
  pr_cands : candPtr j' = candPtr j;
  pr_avail : numAvailSlots j' = numAvailSlots j;
  pr_reserved : reserved j' = reserved j;
  pr_placed : placed (candPtr j) (execCandPtr j');
  pr_sum : numEligProc j' = zsum c_numSlots (execCandPtr j');
  pr_max : numEligProc j' <= maxNumProcessors r;
  pr_enough : numProcessors r <= numAvailEligProc j' -> numAvailEligProc j' <= numEligProc j';
  pr_plain : canBackfill && jobHasBackfillee (candPtr j) = false -> numProcessors r <= numAvailEligProc j' ->
    numEligProc j' <= numAvailSlots j }.

Lemma doBackfill_spec j es elig avail : canBackfill = true -> cands_ready (candPtr j) -> placed (candPtr j) es ->
  Forall (fun e => backfilleeList e = None \/ exists c, c ∈ candPtr j /\ hData c = hData e) es ->
  elig = zsum c_numSlots es -> avail <= elig <= maxNumProcessors r -> jobHasBackfillee (candPtr j) = true ->
  exists j' frees, doBackfill r (set_exec es elig avail j) = Some (j', frees) /\ procs_result j j'.
Proof.
  intros Hcb Hrd Hp Hl Hs Hm Hhas. unfold doBackfill. cbn [numEligProc set_exec].
  destruct (Z.leb_spec (numProcessors r) elig).
  - eexists _, _. split; [done|]. split; cbn [set_exec candPtr numAvailSlots reserved execCandPtr numEligProc numAvailEligProc];
      try done; try lia. by rewrite Hcb, Hhas.
  - cbn [candPtr execCandPtr set_exec numAvailEligProc].
    destruct (remove_spec (candPtr j) es) as (es' & n & a & Hr & Hf & Hsum & Hn & Ha).
    { eapply Forall_impl; [exact (cr_own _ Hrd Hcb)|]. by intros c [? _]. }
    { destruct Hp as (ps & _ & Hf). clear Hs. induction Hf as [|i e ps es (c & _ & He & _) _ IH]; [constructor|].
      apply Forall_cons in Hl as [He' Hl]. constructor; [|by apply IH]. split; [lia|done]. }
    rewrite Hr. cbn [mbind option_bind]. eexists _, _. split; [done|].
    split; cbn [set_exec candPtr numAvailSlots reserved execCandPtr numEligProc numAvailEligProc]; try done; try lia.
    by apply (placed_less _ es).
Qed.

Lemma lent_entries cs es : Forall (fun c => backfilleeList c = None \/ all_reserved hosts c = false) cs ->
  (length es <= length cs)%nat -> Forall2 takes (take (length es) cs) es ->
  let es' := getBackfillSlotsOnExecCandHost cs es in
  placed cs es' /\ zsum c_numSlots es' = zsum c_numSlots es /\
  Forall (fun e => backfilleeList e = None \/ exists c, c ∈ cs /\ hData c = hData e) es'.
Proof.
  intros Hr Hl Hf. unfold getBackfillSlotsOnExecCandHost. set (F := fun (i : nat) (e : candHost) => match _ with None => e | Some _ => _ end).
  assert (forall i e, c_numSlots (F i e) = c_numSlots e /\ hData (F i e) = hData e /\
    (backfilleeList (F i e) = backfilleeList e \/ exists c, cs !! i = Some c /\ backfilleeList c <> None)) as HF.
  { intros i e. unfold F. destruct (cs !! i) as [c|] eqn:Hc; cbn [mbind option_bind]; [|by split_and!; try left].
    destruct (backfilleeList c) as [bs|] eqn:Hb; [|by split_and!; try left].
    destruct (lend _ _ _ _); [by split_and!; try left|]. split_and!; [done|done|]. right. exists c. by rewrite Hb. }
  assert (forall i e, es !! i = Some e -> exists c, cs !! i = Some c /\ takes c e) as Hat.
  { intros i e He. destruct (Forall2_lookup_r _ _ _ _ _ Hf He) as (c & Hc & Ht). exists c.
    apply lookup_take_Some in Hc as [Hc _]. done. }
  split_and!.
  - exists (seq 0 (length es)). split; [apply NoDup_seq|].
    apply Forall2_same_length_lookup_2; [by rewrite length_imap, length_seq|]. intros k i e Hk He.
    apply lookup_seq in Hk as [-> Hk]. rewrite list_lookup_imap_Some in He. destruct He as (e0 & He & ->).
    destruct (Hat _ _ He) as (c & Hc & [H1 H2]). exists c. split; [done|]. destruct (HF k e0) as (E1 & E2 & _).
    split; [by rewrite E1|]. rewrite E1, E2. destruct H2 as [?|(? & _)]; [by left|by right].
  - assert (forall i e, c_numSlots (F i e) = c_numSlots e) as HF1 by (intros i e; apply HF).
    clear Hat Hf Hl HF. clearbody F. revert F HF1. induction es as [|e es IH]; intros F HF; [done|].
    cbn [imap zsum foldr]. fold (zsum c_numSlots es). rewrite HF. f_equal. apply (IH (fun i => F (S i))). intros i x. apply HF.
  - apply Forall_forall. intros e He. apply elem_of_lookup_imap in He as (i & e0 & -> & He).
    destruct (Hat _ _ He) as (c & Hc & [H1 H2]). destruct (HF i e0) as (E1 & E2 & E3). rewrite E2.
    destruct H2 as [H2|(_ & Hnl & Hres)].
    + right. exists c. split; [by eapply list_elem_of_lookup_2|done].
    + destruct E3 as [->|(c' & Hc' & Hb)]; [by left|]. assert (c' = c) as -> by congruence.
      rewrite Forall_forall in Hr. destruct (Hr c) as [?|?]; [by eapply list_elem_of_lookup_2|done|congruence].
Qed.

Abbreviation job_procs := (getNumProcs r jobRes queueRes hosts cpuFactor predictedStartTime now runLimit canBackfill hasPreference).

Lemma takes_entry c e : takes c e -> entry_of c e.
Proof. intros [H1 [H2|(H2 & _)]]; split; auto. Qed.

Lemma getNumProcs_spec j : cands_ready (candPtr j) -> 0 <= numAvailSlots j ->
  exists j' frees, job_procs j = Some (j', frees) /\ procs_result j j'.
Proof.
  intros Hrd Ha. unfold Dispatch.getNumProcs. set (has := jobHasBackfillee (candPtr j)).
  destruct (canBackfill && negb hasPreference && has && negb (allInOne jobRes queueRes)) eqn:Eb.
  - apply andb_true_iff in Eb as [Eb _]. apply andb_true_iff in Eb as [Eb Eh]. apply andb_true_iff in Eb as [Eb _].
    pose proof (backfill_procs_ok j (cr_free _ Hrd) (cr_lenders _ Hrd)) as H.
    destruct (backfill_procs _ _ _ _ _ j) as [[es elig] avail]. destruct H as [[(ps & Hnd & Hf) Hs Hm] _].
    assert (Forall (fun e => exists c, c ∈ candPtr j /\ (hData c = hData e \/ backfilleeList e = None)) es) as Hl.
    { clear -Hf. induction Hf as [|i e ps es (c & Hc & [_ Ht]) _ IH]; constructor; [|done]. exists c.
      split; [by eapply list_elem_of_lookup_2|]. destruct Ht as [?|(_ & ? & _)]; [by left|by right]. }
    apply doBackfill_spec; try done.
    + exists ps. split; [done|]. eapply Forall2_impl; [exact Hf|]. intros i e (c & Hc & Ht). exists c. split; [done|].
      by apply takes_entry.
    + eapply Forall_impl; [exact Hl|]. intros e (c & Hc & [He|He]); [right; by exists c|by left].
  - pose proof (plain_procs_ok j (cr_free _ Hrd) Ha) as H.
    destruct (plain_procs r hosts j) as [[es elig] avail]. destruct H as (Hl & Hf & Hs & Hm & Hav & Hen).
    destruct (canBackfill && has) eqn:Ec.
    + apply andb_true_iff in Ec as [Ecb Eh].
      destruct (lent_entries (candPtr j) es (cr_reserved _ Hrd Ecb) Hl Hf) as (Hp & Hsum & Hnone).
      match goal with |- context [doBackfill r (set_exec ?x elig avail _)] =>
        change (set_exec x elig avail (set_exec es elig avail j)) with (set_exec x elig avail j) end.
      apply doBackfill_spec; try done. rewrite Hs. by symmetry.
    + eexists _, _. split; [done|]. split; cbn [set_exec candPtr numAvailSlots reserved execCandPtr numEligProc numAvailEligProc];
        try done; try lia.
      apply takes_places in Hf as (ps & Hnd & Hf); [|done]. exists ps. split; [done|].
      eapply Forall2_impl; [exact Hf|]. intros i e (c & Hc & Ht). exists c. split; [done|]. by apply takes_entry.
Qed.

(** ** The hosts of the job *)

Definition slots_of (h : cstr) (hs : list (option cstr)) : Z := Z.of_nat (length (filter (fun x => x = Some h) hs)).
Definition slots_on (h : cstr) (cs : list candHost) : Z :=
  zsum (fun c => if decide (hData c = Some h) then c_numSlots c else 0) cs.

Lemma slots_of_app h a b : slots_of h (a ++ b) = slots_of h a + slots_of h b.
Proof. unfold slots_of. rewrite filter_app, length_app. lia. Qed.

Lemma slots_of_replicate h x n : slots_of h (replicate n x) = if decide (x = Some h) then Z.of_nat n else 0.
Proof.
  unfold slots_of. induction n as [|n IH]; [by case_decide|]. cbn [replicate]. rewrite filter_cons.
  repeat case_decide; cbn [length]; try done; lia.
Qed.

Definition host_list (es : list candHost) : list (option cstr) :=
  mjoin ((fun e => replicate (Z.to_nat (c_numSlots e)) (hData e)) <$> es).

#[local] Arguments host_list : simpl never.

Lemma host_list_length es : Forall (fun e => 0 <= c_numSlots e) es ->
  Z.of_nat (length (host_list es)) = zsum c_numSlots es.
Proof.
  induction 1 as [|e es He _ IH]; [done|].
  change (host_list (e :: es)) with (replicate (Z.to_nat (c_numSlots e)) (hData e) ++ host_list es).
  change (zsum c_numSlots (e :: es)) with (c_numSlots e + zsum c_numSlots es).
  rewrite length_app, length_replicate. lia.
Qed.

Lemma host_list_slots h es : Forall (fun e => 0 <= c_numSlots e) es ->
  slots_of h (host_list es) = zsum (fun e => if decide (hData e = Some h) then c_numSlots e else 0) es.
Proof.
  induction 1 as [|e es He _ IH]; [done|].
  change (host_list (e :: es)) with (replicate (Z.to_nat (c_numSlots e)) (hData e) ++ host_list es).
  rewrite slots_of_app, slots_of_replicate, IH. unfold zsum. cbn [foldr]. case_decide; lia.
Qed.

(** What it means that the job got the hosts [hs] out of the candidates [cs]. *)
Record got_hosts (cs : list candHost) (hs : list (option cstr)) : Prop := {
  gh_slots : forall h, slots_of h hs <= slots_on h cs;
  gh_hosts : Forall (fun x => is_Some x) hs;
  gh_max : Z.of_nat (length hs) <= maxNumProcessors r }.

Lemma placed_nonneg cs es : placed cs es -> Forall (fun e => 0 <= c_numSlots e) es.
Proof. intros (ps & _ & Hf). induction Hf as [|i e ps es (c & _ & He & _) _ IH]; constructor; [lia|done]. Qed.

Lemma allocHosts_spec j j1 : cands_ready (candPtr j) -> procs_result j j1 ->
  match allocHosts j1 with
  | None => False
  | Some None => numEligProc j1 <= 0
  | Some (Some j2) => j2 = set_hPtr (host_list (execCandPtr j1)) j1 /\ got_hosts (candPtr j) (hPtr j2) /\
      Z.of_nat (length (hPtr j2)) = numEligProc j1 /\ 0 < numEligProc j1
  end.
Proof.
  intros Hrd Hp. unfold allocHosts. destruct (Z.leb_spec (numEligProc j1) 0); [done|].
  fold (host_list (execCandPtr j1)). pose proof (placed_nonneg _ _ (pr_placed _ _ Hp)) as Hnn.
  pose proof (host_list_length _ Hnn) as Hlen. rewrite <- (pr_sum _ _ Hp) in Hlen.
  rewrite (proj2 (Z.ltb_ge _ _)) by lia. split_and!; [done| |done|done].
  destruct (pr_placed _ _ Hp) as (ps & Hnd & Hf). split; cbn [hPtr set_hPtr].
  - intros h. rewrite (host_list_slots h _ Hnn). unfold slots_on.
    apply (places_sum _ _ _ ps); [done| |].
    + eapply Forall_impl; [exact (cr_free _ Hrd)|]. intros c [? ?]. case_decide; lia.
    + eapply Forall2_impl; [exact Hf|]. intros i e (c & Hc & He1 & He2). exists c. split; [done|].
      destruct He2 as [He2|He2]; [rewrite He2; case_decide; lia|rewrite He2; repeat case_decide; lia].
  - unfold host_list. apply Forall_forall. intros x (l & Hx & Hl)%list_elem_of_join.
    apply list_elem_of_fmap in Hl as (e & -> & He). apply elem_of_replicate in Hx as [-> Hne].
    destruct (list_elem_of_lookup_1 _ _ He) as [i Hi]. destruct (Forall2_lookup_r _ _ _ _ _ Hf Hi) as (p & _ & c & Hc & He1 & He2).
    destruct He2 as [->|H0]; [|rewrite H0 in Hne; done].
    by apply (Forall_lookup_1 _ _ _ _ (cr_host _ Hrd) Hc).
  - pose proof (pr_max _ _ Hp). lia.
Qed.

(** ** Dispatch *)

Context (dispatch_it : djob -> bool * Z) (enoughMaxUsableSlots : bool) (stay_too_long : nat -> bool).
Context (schedDelay now_disp submitTime slotHoldTime minProcLimit : Z).

Abbreviation job_rounds := (dispatch_loop r jobRes queueRes hosts cpuFactor predictedStartTime now runLimit
  canBackfill hasPreference dispatch_it enoughMaxUsableSlots stay_too_long slotHoldTime minProcLimit).
Abbreviation job_dispatch := (dispatchAJob r jobRes queueRes firstHostId hosts cpuFactor predictedStartTime now runLimit
  canBackfill hasPreference dispatch_it enoughMaxUsableSlots stay_too_long schedDelay now_disp submitTime slotHoldTime minProcLimit).

(** What the answers of [dispatchAJob] mean for a job with the candidates [cs] and [n] slots. *)
Definition outcome (cs : list candHost) (n : Z) (j' : djob) (ret : dispatchAJobReturnCode) : Prop :=
  match ret with
  | DISP_OK =>
      got_hosts cs (hPtr j') /\ Z.max (numProcessors r) minProcLimit <= Z.of_nat (length (hPtr j')) /\
      (canBackfill && jobHasBackfillee cs = false -> Z.of_nat (length (hPtr j')) <= n)
  | DISP_RESERVE => got_hosts cs (hPtr j') /\ hPtr j' <> [] /\ reserved j' = true
  | DISP_FAIL | DISP_TIME_OUT => hPtr j' = []
  | DISP_NO_JOB => True
  end.

Lemma cands_ready_tail c cs : cands_ready (c :: cs) -> cands_ready cs.
Proof.
  intros [H1 H2 H3 H4 H5]. split; try by eapply Forall_inv_tail.
  - intros Hc. by eapply Forall_inv_tail, H4.
  - intros Hc. by eapply Forall_inv_tail, H5.
Qed.

Lemma outcome_tail c cs n j' ret : cands_ready (c :: cs) -> outcome cs n j' ret -> outcome (c :: cs) n j' ret.
Proof.
  intros Hrd. assert (forall hs, got_hosts cs hs -> got_hosts (c :: cs) hs) as Hg.
  { intros hs [H1 H2 H3]. split; [|done|done]. intros h. specialize (H1 h). unfold slots_on in *. cbn [zsum foldr].
    fold (zsum (fun c => if decide (hData c = Some h) then c_numSlots c else 0) cs).
    pose proof (Forall_inv (cr_free _ Hrd)) as [? ?]. case_decide; lia. }
  destruct ret; cbn [outcome]; try done.
  - intros (H1 & H2 & H3). split_and!; [by apply Hg|done|]. intros Hb. apply H3. revert Hb. cbn [jobHasBackfillee existsb].
    fold (jobHasBackfillee cs). destruct canBackfill; [|done]. cbn [andb]. by intros [_ ?]%orb_false_iff.
  - intros (H1 & H2 & H3). split_and!; [by apply Hg|done|done].
Qed.

Lemma reserve_spec j j1 : cands_ready (candPtr j) -> procs_result j j1 ->
  exists j2 ret, reserve_slots jobRes queueRes enoughMaxUsableSlots slotHoldTime j1 = Some (j2, ret) /\
    outcome (candPtr j) (numAvailSlots j) j2 ret.
Proof.
  intros Hrd Hp. unfold reserve_slots.
  set (j1' := match jobRes with Some _ => _ | None => _ end). set (j1'' := if reserved j1' then _ else j1').
  assert (procs_result j (set_reserved (reserved j1) (set_hPtr (hPtr j1) j1''))) as Hp'.
  { assert (forall a b, procs_result j (set_reserved (reserved j1) (set_hPtr (hPtr j1) (addReason j1 a b)))) as Hadd
      by (intros a b; destruct Hp; by split).
    assert (procs_result j (set_reserved (reserved j1) (set_hPtr (hPtr j1) j1'))) as Hp1.
    { unfold j1'. destruct jobRes as [v|]; [destruct (negb (pTile v =? INFINIT_INT)); [apply Hadd|];
        destruct (_ && _)|destruct (negb _)]; try apply Hadd; destruct Hp; by split. }
    unfold j1''. destruct (reserved j1'); [|done]. destruct Hp1. by split. }
  assert (allocHosts (set_reserved (reserved j1) (set_hPtr (hPtr j1) j1'')) = None -> allocHosts j1'' = None) as HN.
  { unfold allocHosts. cbn. by repeat case_if. }
  pose proof (allocHosts_spec j _ Hrd Hp') as Hal.
  destruct ((0 <? slotHoldTime) && enoughMaxUsableSlots); [|by eexists _, _].
  assert (allocHosts j1'' = match allocHosts (set_reserved (reserved j1) (set_hPtr (hPtr j1) j1'')) with
    | None => None | Some None => Some None
    | Some (Some _) => Some (Some (set_hPtr (host_list (execCandPtr j1'')) j1'')) end) as ->.
  { unfold allocHosts. cbn. by repeat case_if. }
  destruct (allocHosts (set_reserved _ _)) as [[j2|]|]; [|by eexists _, _|done].
  destruct Hal as (-> & Hg & Hlen & Hpos). cbn [mbind option_bind]. eexists _, _. split; [done|]. cbn in Hg, Hlen |- *.
  split_and!; [done| |done]. intros E. rewrite E in Hlen. cbn in Hlen, Hpos. lia.
Qed.

Lemma dispatch_loop_spec fuel dont j : cands_ready (candPtr j) -> 0 <= numAvailSlots j ->
  (length (candPtr j) < fuel)%nat ->
  exists j' ret fs, job_rounds fuel dont j = Some (j', ret, fs) /\ outcome (candPtr j) (numAvailSlots j) j' ret.
Proof.
  revert j. induction fuel as [|fuel IH]; intros j Hrd Ha Hf; [lia|]. cbn [Dispatch.dispatch_loop].
  destruct (getNumProcs_spec j Hrd Ha) as (j1 & frees & Hg & Hp). rewrite Hg. cbn [mbind option_bind].
  destruct (Z.ltb_spec (numAvailEligProc j1) (Z.max (numProcessors r) minProcLimit)) as [Hlt|Hge].
  { destruct (slotHoldTime <=? 0); [by eexists _, _, _|].
    destruct (reserve_spec j j1 Hrd Hp) as (j2 & ret & Hr & Ho). rewrite Hr. by eexists _, _, _. }
  set (j1' := if reserved j1 then _ else j1).
  assert (procs_result j (set_reserved (reserved j) j1')) as Hp1.
  { unfold j1'. destruct Hp. destruct (reserved j1); by split. }
  assert (numEligProc j1' = numEligProc j1 /\ execCandPtr j1' = execCandPtr j1 /\ candPtr j1' = candPtr j1 /\
          numAvailSlots j1' = numAvailSlots j1 /\ numAvailEligProc j1' = numAvailEligProc j1)
    as (E1 & E2 & E3 & E4 & E5) by (unfold j1'; by destruct (reserved j1)).
  clearbody j1'. unfold dispatchToCandHost. pose proof (allocHosts_spec j _ Hrd Hp1) as Hal.
  assert (allocHosts j1' = match allocHosts (set_reserved (reserved j) j1') with
    | None => None | Some None => Some None
    | Some (Some _) => Some (Some (set_hPtr (host_list (execCandPtr j1')) j1')) end) as ->.
  { unfold allocHosts. cbn. by repeat case_if. }
  pose proof (pr_enough _ _ Hp ltac:(lia)) as Hen.
  destruct (allocHosts (set_reserved _ _)) as [[j2|]|]; [|cbn in Hal; lia|done].
  destruct Hal as (-> & Hgot & Hlen & Hpos). cbn [mbind option_bind]. cbn in Hgot, Hlen.
  cbn [hPtr set_hPtr]. rewrite (proj2 (Z.ltb_ge _ _)) by lia.
  destruct (dispatch_it _) as [ok reason]. destruct ok.
  { eexists _, _, _. split; [done|]. cbn. split_and!; [done|lia|]. intros Hb. rewrite Hlen, E1.
    apply (pr_plain _ _ Hp); [done|lia]. }
  set (j3 := if has reason PEND_JOB_NO_FILE then _ else _).
  assert (hPtr j3 = [] /\ newReason j3 = reason /\ numAvailSlots j3 = numAvailSlots j) as (F1 & F2 & F3).
  { unfold j3. destruct (has reason PEND_JOB_NO_FILE); cbn; rewrite E4; by rewrite (pr_avail _ _ Hp). }
  assert (has reason PEND_JOB_NO_FILE = false -> candPtr j3 = removeCandHostFromCandPtr (candPtr j) 0) as Hc3.
  { intros Es. unfold j3. rewrite Es. cbn. by rewrite E3, (pr_cands _ _ Hp). }
  clearbody j3. cbn [mbind option_bind]. destruct dont; [by eexists _, _, _|].
  destruct ((length (candPtr j3) =? 0)%nat || has (newReason j3) PEND_JOB_NO_FILE) eqn:Es; [by eexists _, _, _|].
  destruct (stay_too_long fuel); [by eexists _, _, _|].
  apply orb_false_iff in Es as [_ Es]. rewrite F2 in Es. specialize (Hc3 Es).
  destruct (candPtr j) as [|c cs] eqn:Ecs.
  { exfalso. destruct (pr_placed _ _ Hp) as (ps & _ & Hpl). rewrite Ecs in Hpl. pose proof (pr_sum _ _ Hp) as Hs.
    destruct Hpl as [|? ? ? ? (? & ? & _) _]; [|done]. cbn in Hs. lia. }
  cbn [removeCandHostFromCandPtr] in Hc3.
  destruct (IH j3) as (j4 & ret & fs & Hl & Ho).
  { rewrite Hc3. by eapply cands_ready_tail. }
  { lia. }
  { rewrite Hc3. simpl in Hf. lia. }
  rewrite Hl. cbn [mbind option_bind]. eexists _, _, _. split; [done|]. rewrite Hc3, F3 in Ho. by apply outcome_tail.
Qed.

(** [getNumSlots] keeps the candidates fit for this, with no more slots than they had. *)
Lemma getNumSlots_ready j : 0 <= numSlots j -> 0 <= numAvailSlots j -> cands_ready (candPtr j) ->
  let j' := getNumSlots r jobRes queueRes firstHostId hosts j in
  cands_ready (candPtr j') /\ (forall h, slots_on h (candPtr j') <= slots_on h (candPtr j)) /\
  jobHasBackfillee (candPtr j') = jobHasBackfillee (candPtr j) /\ 0 <= numAvailSlots j' <= numAvailSlots j.
Proof.
  intros Hn Ha [H1 H2 H3 H4 H5].
  assert (Forall cand_ok (candPtr j)) as Hok by (eapply Forall_impl; [exact H1|]; unfold free_ok, cand_ok; lia).
  destruct (getNumSlots_spec j Hn Ha Hok) as (Hp & _ & Hav & _). cbn zeta. split_and!; [|intros h| |lia|lia].
  - split; try intros Hc; rewrite Hp; apply Forall_fmap.
    + eapply Forall_impl; [exact H1|]. unfold free_ok, capped. cbn. lia.
    + exact H2.
    + exact H3.
    + exact (H4 Hc).
    + exact (H5 Hc).
  - unfold slots_on. rewrite (zsum_perm _ _ _ Hp). clear -H1. induction H1 as [|c cs Hc _ IH]; [done|].
    cbn [fmap list_fmap zsum foldr capped c_set_slots hData c_numSlots] in *. unfold zsum in IH. case_decide; lia.
  - unfold jobHasBackfillee. apply eq_true_iff_eq. rewrite !existsb_exists. setoid_rewrite <- list_elem_of_In.
    setoid_rewrite Hp. split.
    + intros (c & (c0 & -> & Hc)%list_elem_of_fmap & Hb). by exists c0.
    + intros (c & Hc & Hb). exists (capped j c). split; [|done]. apply list_elem_of_fmap. by exists c.
Qed.

Lemma outcome_more cs cs' n n' j' ret : (forall h, slots_on h cs' <= slots_on h cs) ->
  jobHasBackfillee cs' = jobHasBackfillee cs -> n' <= n -> outcome cs' n' j' ret -> outcome cs n j' ret.
Proof.
  intros Hs Hb Hn. assert (forall hs, got_hosts cs' hs -> got_hosts cs hs) as Hg.
  { intros hs [G1 G2 G3]. split; [|done|done]. intros h. specialize (G1 h). specialize (Hs h). lia. }
  destruct ret; cbn [outcome]; try done; rewrite ?Hb; intros (O1 & O2 & O3); apply Hg in O1; [|by split_and!].
  split_and!; [done..|]. intros Hc. specialize (O3 Hc). lia.
Qed.

Lemma dispatchAJob_outcome fuel dont j : 0 <= numSlots j -> 0 <= numAvailSlots j -> cands_ready (candPtr j) ->
  (length (candPtr j) < fuel)%nat ->
  exists j' ret fs, job_dispatch fuel dont j = Some (j', ret, fs) /\ outcome (candPtr j) (numAvailSlots j) j' ret.
Proof.
  intros Hn Ha Hrd Hf. unfold Dispatch.dispatchAJob. destruct (_ <? _); [by eexists _, _, _|].
  destruct (getNumSlots_ready j Hn Ha Hrd) as (Hrd' & Hs & Hb & Hav).
  assert (length (candPtr (getNumSlots r jobRes queueRes firstHostId hosts j)) = length (candPtr j)) as Hl.
  { destruct (getNumSlots_spec j Hn Ha) as (Hp & _).
    - eapply Forall_impl; [exact (cr_free _ Hrd)|]; unfold free_ok, cand_ok; lia.
    - by rewrite Hp, length_fmap. }
  destruct (dispatch_loop_spec fuel dont _ Hrd' (proj1 Hav) ltac:(lia)) as (j' & ret & fs & Hd & Ho).
  exists j', ret, fs. split; [done|]. by eapply outcome_more; [..|exact Ho]; [..|lia].
Qed.

(** ** The limits *)

Lemma slots_on_none h cs : Some h ∉ hData <$> cs -> slots_on h cs = 0.
Proof.
  unfold slots_on. induction cs as [|c cs IH]; [done|]. cbn [fmap list_fmap]. rewrite not_elem_of_cons. intros [Hn Hc].
  cbn [zsum foldr]. rewrite (decide_False _ _ (not_eq_sym Hn)). unfold zsum in IH. rewrite IH by done. done.
Qed.

(** With one candidate for a host its slots are those of the candidate. *)
Lemma slots_on_one h c cs : NoDup (hData <$> cs) -> c ∈ cs -> hData c = Some h -> slots_on h cs = c_numSlots c.
Proof.
  intros Hnd Hc Hh. induction cs as [|c' cs IH]; [by apply not_elem_of_nil in Hc|].
  cbn [fmap list_fmap] in Hnd. apply NoDup_cons in Hnd as [Hn Hnd]. unfold slots_on in *. cbn [zsum foldr].
  fold (zsum (fun c => if decide (hData c = Some h) then c_numSlots c else 0) cs). apply elem_of_cons in Hc as [->|Hc].
  - rewrite Hh, decide_True by done. fold (slots_on h cs). rewrite (slots_on_none h cs) by (by rewrite <- Hh). lia.
  - rewrite decide_False by (intros E; apply Hn; rewrite E, <- Hh; by apply list_elem_of_fmap_2). by rewrite IH.
Qed.

(** A candidate as the scheduler makes it: its slots are those that the limits on its host leave. *)
Definition limited_cand (uninit : Z) (qp : qData) (uname : cstr) (up : uData) (ugps : list uData) (c : candHost) : Prop :=
  free_ok c /\ backfilleeList c = None /\
  exists h m, hData c = Some h /\ getHostJobSlots uninit qp h (hosts h) uname up ugps = inl m /\ c_numSlots c <= m.

Lemma limited_ready uninit qp uname up ugps cs : canBackfill = false ->
  Forall (limited_cand uninit qp uname up ugps) cs -> cands_ready cs.
Proof.
  intros Hb Hc. split; try (by rewrite Hb); (eapply Forall_impl; [exact Hc|]); intros c (Hf & Hl & h & m & Hh & _).
  - done.
  - by rewrite Hh.
  - rewrite Hl. constructor.
Qed.

(** C6: a job of a queue that does not borrow slots, whose candidates are different
    hosts with no more slots than [getHostJobSlots] computed and which has no more slots than
    [cntUQSlots] computed, is dealt with in finitely many rounds; when it is dispatched it
    has at least the slots that it needs and at most those that it asks for, its queue, its user and
    the user's groups stay within their limits, and so does every host of the job with the
    limits of host, queue and users on it; when no host accepts it, it has none. *)
Theorem dispatch_within_limits (uninit : Z) (qp : qData) (uname : cstr) (up : uData) (ugps : list uData)
    (fuel : nat) (dont : bool) (j : djob) (n : Z)
    (Hno : canBackfill = false) (Hint : numProcessors r <= INFINIT_INT)
    (Hq : cntUQSlots r qp slotHoldTime uname up ugps = (n, 0)) (Hn : 0 <= numSlots j) (Ha : 0 <= numAvailSlots j <= n)
    (Hnd : NoDup (hData <$> candPtr j)) (Hc : Forall (limited_cand uninit qp uname up ugps) (candPtr j))
    (Hf : (length (candPtr j) < fuel)%nat) :
  exists j' ret fs, job_dispatch fuel dont j = Some (j', ret, fs) /\
    (ret = DISP_OK ->
      Z.max (numProcessors r) minProcLimit <= Z.of_nat (length (hPtr j')) <= maxNumProcessors r /\
      job_limits qp uname up ugps (Z.of_nat (length (hPtr j'))) /\
      forall x, x ∈ hPtr j' -> exists h, x = Some h /\
        host_limits (uninit <=? 0) qp h (hosts h) uname up ugps (slots_of h (hPtr j'))) /\
    (ret = DISP_FAIL \/ ret = DISP_TIME_OUT -> hPtr j' = []).
Proof.
  destruct (cntUQSlots_limits _ _ _ _ _ _ _ (conj (proj1 Hreq) Hint) Hq) as [Hlim _].
  destruct (dispatchAJob_outcome fuel dont j Hn (proj1 Ha) (limited_ready _ _ _ _ _ _ Hno Hc) Hf) as (j' & ret & fs & Hd & Ho).
  exists j', ret, fs. split; [done|]. split; [intros ->|intros [-> | ->]; exact Ho].
  destruct Ho as ([G1 G2 G3] & Hmin & Hmax). rewrite Hno in Hmax. specialize (Hmax eq_refl).
  split; [lia|]. split; [apply Hlim; lia|]. intros x Hx. destruct (proj1 (Forall_forall _ _) G2 x Hx) as [h ->]. exists h.
  split; [done|]. specialize (G1 h). destruct (decide (Some h ∈ hData <$> candPtr j)) as [Hin|Hout].
  - apply list_elem_of_fmap in Hin as (c & Hh & Hcin).
    destruct (proj1 (Forall_forall _ _) Hc c Hcin) as (_ & _ & h' & m & Hh' & Hm & Hcm).
    rewrite Hh' in Hh. injection Hh as <-. destruct (getHostJobSlots_max _ _ _ _ _ _ _ _ Hm) as [_ Hk]. apply Hk.
    rewrite (slots_on_one h c _ Hnd Hcin Hh') in G1. lia.
  - exfalso. rewrite (slots_on_none h _ Hout) in G1. unfold slots_of in G1.
    assert (Some h ∈ filter (fun x => x = Some h) (hPtr j')) as He by by apply list_elem_of_filter.
    destruct (filter _ _); [by apply not_elem_of_nil in He|]. cbn [length] in G1. lia.
Qed.
End Dispatch.

(** ** Concrete runs *)

Definition d_hostA : cstr := ["a"; "1"]%char.
Definition d_hostB : cstr := ["b"; "1"]%char.
Definition d_user : cstr := ["u"]%char.
Definition d_cnt (n p u : Z) : counts := Counts n p u 0 0 0.
Definition d_host (id taken : Z) : Accounting.hData :=
  Accounting.HData (d_cnt taken 0 taken) id 0 0 4 4 INFINIT_INT ∅.
Definition d_hosts (h : cstr) : Accounting.hData := if decide (h = d_hostA) then d_host 1 2 else d_host 2 1.
Definition d_queue : qData := QData (d_cnt 5 1 4) 8 INFINIT_INT INFINIT_FLOAT INFINIT_INT 0 ∅ ∅ ∅ 0.
Definition d_uData : uData := UData (d_cnt 3 1 2) 4 INFINIT_FLOAT 0 ∅ [] [] 0 ∅.
Definition d_cand (h : cstr) (n : Z) : candHost := CandHost (Some h) n n n n None.
Definition d_job (cs : list candHost) (n : Z) : djob := DJob cs n n [] 0 0 [] [] 0 0 false.

(** The sbatchd of the first host refuses. *)
Definition d_talk (j : djob) : bool * Z := if decide (head (hPtr j) = Some (Some d_hostA)) then (false, 0) else (true, 0).

Definition d_dispatch (r : request) (backfill : bool) (j : djob) :
    option (djob * dispatchAJobReturnCode * list (list (Z * list (option cstr * Z)))) :=
  dispatchAJob r None None 0 d_hosts (fun _ => float_of_int 1) (fun _ => 1000) 100 60 backfill false
    d_talk true (fun _ => false) 2 100 50 0 0 10 false j.

(** Two slots are left to the user; hostA refuses and the job runs on two slots of hostB. *)
Lemma dispatch_within_limits_witness :
  exists j' ret fs, d_dispatch (Request 1 3) false (d_job [d_cand d_hostA 2; d_cand d_hostB 3] 2) = Some (j', ret, fs) /\
    ret = DISP_OK /\ hPtr j' = [Some d_hostB; Some d_hostB] /\ job_limits d_queue d_user d_uData [] 2.
Proof.
  destruct (dispatch_within_limits (Request 1 3) None None 0 d_hosts (fun _ => float_of_int 1) (fun _ => 1000) 100 60
              false false ltac:(cbn; lia) d_talk true (fun _ => false) 2 100 50 0 0 0 d_queue d_user d_uData [] 10 false
              (d_job [d_cand d_hostA 2; d_cand d_hostB 3] 2) 2) as (j' & ret & fs & Hd & Hok & _).
  - reflexivity.
  - vm_compute. discriminate.
  - vm_compute. reflexivity.
  - cbn. lia.
  - cbn. lia.
  - by apply (bool_decide_unpack _).
  - repeat constructor; cbn; try lia; [exists d_hostA, 2|exists d_hostB, 3]; (split_and!; [done|by vm_compute|done]).
  - cbn. lia.
  - assert (d_dispatch (Request 1 3) false (d_job [d_cand d_hostA 2; d_cand d_hostB 3] 2) = Some (j', ret, fs)) as Hd' by exact Hd.
    exists j', ret, fs. split; [exact Hd|].
    match type of Hd' with ?a = _ => let v := eval vm_compute in a in assert (a = v) as E by (vm_compute; reflexivity) end.
    rewrite E in Hd'. injection Hd' as <- <- <-. destruct (Hok eq_refl) as (_ & Hl & _). split_and!; [done|done|exact Hl].
Defined.

(** With borrowed slots the sum over the hosts is not compared with what is left to the
    job: it gets four slots, and its user had three. *)
Definition d_lent (h : cstr) (n : Z) (l : Z) : candHost :=
  CandHost (Some h) n n n n (if l =? 0 then None else Some [Backfillee 77 0 l]).

Example backfill_over_limit :
  option_map (fun x => (x.1.2, hPtr x.1.1))
    (d_dispatch (Request 1 4) true (d_job [d_lent d_hostB 1 1; d_lent d_hostA 3 0] 3)) =
  Some (DISP_OK, [Some d_hostB; Some d_hostA; Some d_hostA; Some d_hostA]).
Proof. vm_compute. reflexivity. Qed.

(** A candidate whose limits leave less than the lenders on it have reserved has a negative
    number of slots of its own. [removeBackfillSlotsFromBackfiller] then takes off more
    than the host gave, and the hosts no longer fit into the array made for them. *)
Example negative_slots_overflow :
  allocHosts (DJob [] 0 0 [] 0 0 [] [] 0 0 false) = Some None /\
  dispatchAJob (Request 8 8) None None 0 d_hosts (fun _ => float_of_int 1) (fun _ => 1000) 100 60 true false
    d_talk true (fun _ => false) 2 100 50 30 0 10 false
    (d_job [CandHost (Some d_hostB) 1 1 (-3) (-3) (Some [Backfillee 77 0 1]); d_lent d_hostA 5 0] 8) = None.
Proof. vm_compute. done. Qed.

(** [PEND_JOB_NO_FILE] is a number and not a bit: a reason with one of its bits ends the
    dispatch although other hosts are left, here [PEND_JOB_DELAY_SCHED]. *)
Example no_file_bits :
  option_map (fun x => x.1.2)
    (dispatchAJob (Request 1 1) None None 0 d_hosts (fun _ => float_of_int 1) (fun _ => 1000) 100 60 false false
       (fun _ => (false, PEND_JOB_DELAY_SCHED)) true (fun _ => false) 2 100 50 0 0 10 false
       (d_job [d_cand d_hostA 1; d_cand d_hostB 1] 1)) = Some DISP_FAIL /\
  has PEND_JOB_DELAY_SCHED PEND_JOB_NO_FILE = true.
Proof. vm_compute. done. Qed.
