(* ===== verification/BitSet.v ===== *)
(** * Bit sets (bitset.c)

    [LS_BITSET_T] is a set of small numbers: a mask of 32-bit words that grows on
    demand, and a count of the elements. An object is a pointer ([Z], [NULL] is 0) whose
    index the user of the set computes with [getIndexByObject], or, without this function,
    a pointer to an int. [rep] relates a set to the numbers in it; every operation refines
    one on finite sets.

    [None] is an access outside of the mask. The pointers to sets are not null; the
    functions that test this do nothing else in that case. *)

From S2P Require Import Prelude.

Abbreviation ptr := Z.
Definition NULL : ptr := 0.

Definition WORDLENGTH : Z := 32.
Definition SET_DEFAULT_SIZE : Z := WORDLENGTH.
Definition SET_WORD_DEFAULT_EXTENT : Z := 2.
Definition SET_BIT_ON : Z := 1.

Definition LS_SET_UNION : Z := 0.
Definition LS_SET_INTERSECT : Z := 1.
Definition LS_SET_DIFFERENCE : Z := 2.
Definition LS_SET_ASSIGN : Z := 5.

Inductive lsBitSetErrno :=
  LS_BITSET_ERR_BADARG | LS_BITSET_ERR_SETEMPTY | LS_BITSET_ERR_FUNC | LS_BITSET_ERR_ISALREDY | LS_BITSET_ERR_EINVAL.

Record LS_BITSET_T := BitSet {
  bitmask : list Z; setSize : Z; setWidth : Z; setNumElements : Z; allowObservers : bool }.

Definition set_mask (m : list Z) (s : LS_BITSET_T) : LS_BITSET_T :=
  BitSet m (setSize s) (setWidth s) (setNumElements s) (allowObservers s).
Definition set_count (n : Z) (s : LS_BITSET_T) : LS_BITSET_T :=
  BitSet (bitmask s) (setSize s) (setWidth s) n (allowObservers s).

(** ** Creation *)

Definition setCreate (size : Z) : LS_BITSET_T :=
  let sz := if 0 <? size then size else SET_DEFAULT_SIZE in
  let width := uint32 ((sz + WORDLENGTH - 1) / WORDLENGTH) in
  BitSet (replicate (Z.to_nat width) 0) (uint32 (width * WORDLENGTH)) width 0 false.

Definition setAllowObservers (s : LS_BITSET_T) : LS_BITSET_T :=
  BitSet (bitmask s) (setSize s) (setWidth s) (setNumElements s) true.

(** The new mask is copied onto itself. *)
Definition setDup (s : LS_BITSET_T) : LS_BITSET_T := set_mask (replicate (Z.to_nat (setWidth s)) 0) s.

Definition setClear (s : LS_BITSET_T) : LS_BITSET_T := set_count 0 (set_mask (replicate (Z.to_nat (setWidth s)) 0) s).

(** ** Bits: an int is converted to [size_t] before the division *)

Definition SET_GET_WORD (position : Z) : Z := int32 (uint64 position / WORDLENGTH).
Definition SET_GET_BIT_IN_WORD (position : Z) : Z := uint64 position mod WORDLENGTH.

Definition rd_word (s : LS_BITSET_T) (word : Z) : option Z :=
  if word <? 0 then None else bitmask s !! Z.to_nat word.

Definition wr_word (s : LS_BITSET_T) (word v : Z) : LS_BITSET_T := set_mask (<[Z.to_nat word := v]> (bitmask s)) s.

Definition bit_mask (position : Z) : Z := uint32 (Z.shiftl SET_BIT_ON (SET_GET_BIT_IN_WORD position)).

Definition setTestValue (s : LS_BITSET_T) (value : Z) : option bool :=
  w ← rd_word s (SET_GET_WORD value); Some (has w (bit_mask value)).

Definition setEnlarge (s : LS_BITSET_T) (newSize : Z) : LS_BITSET_T :=
  let width := uint32 (setWidth s + (uint32 newSize + SET_WORD_DEFAULT_EXTENT)) in
  BitSet (take (Z.to_nat width) (bitmask s) ++ replicate (Z.to_nat width - Z.to_nat (setWidth s)) 0)
    (uint32 (width * WORDLENGTH)) width (setNumElements s) (allowObservers s).

(** ** Members *)

Section Objects.
Context (getIndexByObject : option (ptr -> Z)) (getObjectByIndex : option (Z -> ptr)) (int_at : ptr -> Z).

(** The index, or the failure of the function. *)
Definition object_index (obj : ptr) : option Z :=
  match getIndexByObject with
  | None => Some (int_at obj)
  | Some f => if f obj <? 0 then None else Some (f obj)
  end.

(** The result: TRUE, FALSE, or -1, which is not FALSE. *)
Definition setIsMember (s : LS_BITSET_T) (obj : ptr) : option Z :=
  if setNumElements s =? 0 then Some 0
  else
    match object_index obj with
    | None => Some (-1)
    | Some x => if setSize s <=? uint32 x then Some 0 else b ← setTestValue s x; Some (Z.b2z b)
    end.

(** An error leaves the set alone; observers are told by [add_notify]. *)
Definition setAddElement (s : LS_BITSET_T) (obj : ptr) : option (lsBitSetErrno + LS_BITSET_T) :=
  match object_index obj with
  | None => Some (inl LS_BITSET_ERR_FUNC)
  | Some x =>
      already ← (if setSize s <=? uint32 x then Some false else setTestValue s x);
      if (already : bool) then Some (inl LS_BITSET_ERR_ISALREDY)
      else
        let s := if setSize s <=? uint32 x then setEnlarge s x else s in
        w ← rd_word s (SET_GET_WORD x);
        let s := wr_word s (SET_GET_WORD x) (Z.lor w (bit_mask x)) in
        Some (inr (set_count (uint32 (setNumElements s + 1)) s))
  end.

(** The index is not tested after the call of [getIndexByObject]; neither is membership. *)
Definition setRemoveElement (s : LS_BITSET_T) (obj : ptr) : option (lsBitSetErrno + LS_BITSET_T) :=
  if setNumElements s =? 0 then Some (inl LS_BITSET_ERR_SETEMPTY)
  else
    let x := match getIndexByObject with None => int_at obj | Some f => f obj end in
    if setSize s <=? uint32 x then Some (inr s)
    else
      w ← rd_word s (SET_GET_WORD x);
      let s := wr_word s (SET_GET_WORD x) (Z.land w (uint32 (Z.lnot (bit_mask x)))) in
      Some (inr (set_count (uint32 (setNumElements s - 1)) s)).

(** *** Iterators: the number of the next bit *)

(** The loop of [setIteratorGetNextElement]. When the function fails the iterator stays. *)
Fixpoint next_bit (fuel : nat) (s : LS_BITSET_T) (setCurrentBit : Z) : option (ptr * Z) :=
  match fuel with
  | O => Some (NULL, setCurrentBit)
  | S fuel =>
      b ← setTestValue s setCurrentBit;
      if (b : bool) then
        match getObjectByIndex with
        | None => Some (setCurrentBit, setCurrentBit + 1)
        | Some f => if f setCurrentBit =? NULL then Some (NULL, setCurrentBit) else Some (f setCurrentBit, setCurrentBit + 1)
        end
      else next_bit fuel s (setCurrentBit + 1)
  end.

Definition setIteratorGetNextElement (s : LS_BITSET_T) (setCurrentBit : Z) : option (ptr * Z) :=
  if setNumElements s =? 0 then Some (NULL, setCurrentBit)
  else next_bit (Z.to_nat (setSize s - setCurrentBit)) s setCurrentBit.

Definition setIteratorIsEndOfSet (s : LS_BITSET_T) (setCurrentBit : Z) : bool := setSize s <=? setCurrentBit.

(** The objects that the loop [for (o = Begin; o != NULL; o = Next)] goes through. *)
Fixpoint set_objects (fuel : nat) (s : LS_BITSET_T) (setCurrentBit : Z) : option (list ptr) :=
  match fuel with
  | O => None
  | S fuel =>
      '(o, setCurrentBit) ← setIteratorGetNextElement s setCurrentBit;
      if o =? NULL then Some [] else os ← set_objects fuel s setCurrentBit; Some (o :: os)
  end.

Definition each_object (s : LS_BITSET_T) : option (list ptr) := set_objects (S (Z.to_nat (setSize s))) s 0.

(** [setCat] also stops when the last bit of the mask has been read. [str] is the string
    that [catFunc] makes of an object. *)
Fixpoint cat_loop (fuel : nat) (str : ptr -> option cstr) (bufferSize : Z) (s : LS_BITSET_T)
    (o : ptr) (setCurrentBit : Z) (buffer : cstr) : option cstr :=
  match fuel with
  | O => None
  | S fuel =>
      if (o =? NULL) || setIteratorIsEndOfSet s setCurrentBit then Some buffer
      else
        match str o with
        | Some t =>
            if uint64 (bufferSize - 1) <? Z.of_nat (length buffer + length t) then Some buffer
            else
              '(o, setCurrentBit) ← setIteratorGetNextElement s setCurrentBit;
              cat_loop fuel str bufferSize s o setCurrentBit (buffer ++ t)
        | None =>
            '(o, setCurrentBit) ← setIteratorGetNextElement s setCurrentBit;
            cat_loop fuel str bufferSize s o setCurrentBit buffer
        end
  end.

Definition setCat (s : LS_BITSET_T) (str : ptr -> option cstr) (bufferSize : Z) : option cstr :=
  '(o, cur) ← setIteratorGetNextElement s 0; cat_loop (S (Z.to_nat (setSize s))) str bufferSize s o cur [].
End Objects.

(** ** The number of elements *)

(** The table [nbits]. *)
Definition nbits : list Z :=
  [0;1;1;2;1;2;2;3;1;2;2;3;2;3;3;4; 1;2;2;3;2;3;3;4;2;3;3;4;3;4;4;5; 1;2;2;3;2;3;3;4;2;3;3;4;3;4;4;5;
   2;3;3;4;3;4;4;5;3;4;4;5;4;5;5;6; 1;2;2;3;2;3;3;4;2;3;3;4;3;4;4;5; 2;3;3;4;3;4;4;5;3;4;4;5;4;5;5;6;
   2;3;3;4;3;4;4;5;3;4;4;5;4;5;5;6; 3;4;4;5;4;5;5;6;4;5;5;6;5;6;6;7; 1;2;2;3;2;3;3;4;2;3;3;4;3;4;4;5;
   2;3;3;4;3;4;4;5;3;4;4;5;4;5;5;6; 2;3;3;4;3;4;4;5;3;4;4;5;4;5;5;6; 3;4;4;5;4;5;5;6;4;5;5;6;5;6;6;7;
   2;3;3;4;3;4;4;5;3;4;4;5;4;5;5;6; 3;4;4;5;4;5;5;6;4;5;5;6;5;6;6;7; 3;4;4;5;4;5;5;6;4;5;5;6;5;6;6;7;
   4;5;5;6;5;6;6;7;5;6;6;7;6;7;7;8].

(** The bytes of a word, the lowest one first. *)
Definition bytes_of (w : Z) : list Z := [w mod 256; w / 256 mod 256; w / 65536 mod 256; w / 16777216 mod 256].

Definition count_bytes (bs : list Z) : Z := foldr (fun b n => default 0 (nbits !! Z.to_nat b) + n) 0 bs.

Definition getNum1BitsInWord (w : Z) : Z := count_bytes (bytes_of w).

Definition setGetNumElements (s : LS_BITSET_T) : Z := count_bytes (take (Z.to_nat (setWidth s)) (bitmask s) ≫= bytes_of).

(** ** Operations on two sets *)

(** The first loop of each case, over the words of the source. *)
Definition combine (f : Z -> Z -> Z) (d s : list Z) : list Z := zip_with f d s.

Definition setOperate (dest src : LS_BITSET_T) (op : Z) : LS_BITSET_T :=
  if negb (op =? LS_SET_UNION) && negb (op =? LS_SET_INTERSECT) && negb (op =? LS_SET_DIFFERENCE) && negb (op =? LS_SET_ASSIGN)
  then dest
  else
    let dest := if setWidth dest <? setWidth src then setEnlarge dest (setWidth src) else dest in
    let nwords := Z.to_nat (setWidth src) in
    let d := bitmask dest in
    let s := bitmask src in
    let rest := drop nwords d in
    let zeroed := replicate (length rest) 0 in
    set_mask
      (if op =? LS_SET_UNION then combine Z.lor d s ++ rest
       else if op =? LS_SET_INTERSECT then combine Z.land d s ++ zeroed
       else if op =? LS_SET_DIFFERENCE then combine Z.lxor d s ++ rest
       else combine (fun _ y => y) d s ++ zeroed) dest.

(** ** Observers *)

Inductive LS_BITSET_EVENT_TYPE_T := LS_BITSET_EVENT_ENTER | LS_BITSET_EVENT_LEAVE | LS_BITSET_EVENT_NULL.

Record LS_BITSET_EVENT_T := Event { type : LS_BITSET_EVENT_TYPE_T; entry : ptr }.

Section Observers.
(** [St] is the memory that the callbacks change. *)
Context {St : Type}.

(** The argument [extra] of the functions is applied already. *)
Record LS_BITSET_OBSERVER_T := Observer {
  select : option (LS_BITSET_EVENT_T -> bool);
  enter : option (LS_BITSET_EVENT_T -> St -> option St);
  leave_ : option (LS_BITSET_EVENT_T -> St -> option St) }.

(** The events and callbacks that [setObserverCreate] is called with, up to [LS_BITSET_EVENT_NULL]. *)
Definition setObserverCreate (sel : option (LS_BITSET_EVENT_T -> bool))
    (callbacks : list (LS_BITSET_EVENT_TYPE_T * (LS_BITSET_EVENT_T -> St -> option St))) : LS_BITSET_OBSERVER_T :=
  foldl (fun o '(e, f) => match e with
                          | LS_BITSET_EVENT_ENTER => Observer (select o) (Some f) (leave_ o)
                          | LS_BITSET_EVENT_LEAVE => Observer (select o) (enter o) (Some f)
                          | LS_BITSET_EVENT_NULL => o
                          end) (Observer sel None None) callbacks.

Definition run_callback (f : option (LS_BITSET_EVENT_T -> St -> option St)) (event : LS_BITSET_EVENT_T) (st : St) : option St :=
  match f with Some f => f event st | None => Some st end.

(** The result is 0 or -1. *)
Fixpoint setNotifyObservers (observers : list LS_BITSET_OBSERVER_T) (event : LS_BITSET_EVENT_T) (st : St) : option (Z * St) :=
  match observers with
  | [] => Some (0, st)
  | o :: observers =>
      if match select o with Some f => negb (f event) | None => false end then setNotifyObservers observers event st
      else
        match type event with
        | LS_BITSET_EVENT_ENTER => st ← run_callback (enter o) event st; setNotifyObservers observers event st
        | LS_BITSET_EVENT_LEAVE => st ← run_callback (leave_ o) event st; setNotifyObservers observers event st
        | LS_BITSET_EVENT_NULL => Some (-1, st)
        end
  end.

(** [setAddElement] with the last part: the set is a part of the memory. *)
Definition add_notify (index : option (ptr -> Z)) (int_at : ptr -> Z) (get : St -> option LS_BITSET_T)
    (put : LS_BITSET_T -> St -> St) (observers : list LS_BITSET_OBSERVER_T) (obj : ptr) (st : St) : option (Z * St) :=
  s ← get st;
  r ← setAddElement index int_at s obj;
  match r with
  | inl _ => Some (-1, st)
  | inr s' =>
      let st := put s' st in
      if allowObservers s' then
        '(_, st) ← setNotifyObservers observers (Event LS_BITSET_EVENT_ENTER obj) st; Some (0, st)
      else Some (0, st)
  end.
End Observers.
Arguments LS_BITSET_OBSERVER_T St : clear implicits.

(** ** Sets of numbers *)

Definition bit (s : LS_BITSET_T) (x : Z) : bool := Z.testbit (default 0 (bitmask s !! Z.to_nat (x / 32))) (x mod 32).

Record mask_ok (s : LS_BITSET_T) : Prop := {
  mask_length : length (bitmask s) = Z.to_nat (setWidth s);
  mask_width : 0 < setWidth s < 2 ^ 27;
  mask_size : setSize s = 32 * setWidth s;
  mask_words : Forall (in_uint 32) (bitmask s) }.

Definition elements_are (s : LS_BITSET_T) (X : gset Z) : Prop := forall x, x ∈ X <-> 0 <= x < setSize s /\ bit s x = true.

(** The mask holds [X]; the count is zero only when [X] is empty, and at most the number of
    elements. [counted] sets have an exact count. *)
Definition rep (s : LS_BITSET_T) (X : gset Z) : Prop :=
  mask_ok s /\ elements_are s X /\ 0 <= setNumElements s <= Z.of_nat (size X) /\ (setNumElements s = 0 -> X = ∅).
Definition counted (s : LS_BITSET_T) (X : gset Z) : Prop := rep s X /\ setNumElements s = Z.of_nat (size X).

Definition valid_index (x : Z) : Prop := 0 <= x < 2 ^ 25.

(** *** Words and bits *)

Lemma word_of_index x : 0 <= x < 2 ^ 31 -> SET_GET_WORD x = x / 32 /\ SET_GET_BIT_IN_WORD x = x mod 32.
Proof.
  intros Hx. unfold SET_GET_WORD, SET_GET_BIT_IN_WORD, WORDLENGTH. rewrite (uint_of_id 64) by (unfold in_uint; lia).
  split; [|done]. apply sint_of_id; [lia|]. unfold in_sint. Z.to_euclidean_division_equations. lia.
Qed.

Lemma bit_mask_pow x : 0 <= x < 2 ^ 31 -> bit_mask x = 2 ^ (x mod 32).
Proof.
  intros Hx. unfold bit_mask, SET_BIT_ON. rewrite (proj2 (word_of_index x Hx)), Z.shiftl_1_l.
  apply uint_of_id. unfold in_uint. pose proof (Z.mod_pos_bound x 32 ltac:(lia)).
  split; [apply Z.pow_nonneg; lia|]. apply Z.pow_lt_mono_r; lia.
Qed.

Lemma uint32_index x : 0 <= x < 2 ^ 32 -> uint32 x = x.
Proof. intros Hx. by apply uint_of_id. Qed.

Lemma index_in_mask s x : mask_ok s -> 0 <= x < setSize s -> 0 <= x < 2 ^ 32 /\ (Z.to_nat (x / 32) < length (bitmask s))%nat.
Proof. intros [Hl Hw Hs _] Hx. rewrite Hl. split; [lia|]. Z.to_euclidean_division_equations. lia. Qed.

Lemma rd_word_index s x : mask_ok s -> 0 <= x < setSize s -> x < 2 ^ 31 ->
  rd_word s (SET_GET_WORD x) = Some (default 0 (bitmask s !! Z.to_nat (x / 32))).
Proof.
  intros Hs Hx Hx'. rewrite (proj1 (word_of_index x ltac:(lia))). unfold rd_word.
  rewrite (proj2 (Z.ltb_ge _ _)) by (apply Z.div_pos; lia).
  destruct (index_in_mask s x Hs Hx) as [_ Hl]. apply lookup_lt_is_Some in Hl as [w ->]. done.
Qed.

Lemma setTestValue_bit s x : mask_ok s -> 0 <= x < setSize s -> x < 2 ^ 31 -> setTestValue s x = Some (bit s x).
Proof.
  intros Hs Hx Hx'. unfold setTestValue. rewrite rd_word_index by done. cbn.
  rewrite bit_mask_pow by lia. rewrite has_bit by (apply Z.mod_pos_bound; lia). done.
Qed.

(** Two numbers are in the same word with the same offset only when they are equal. *)
Lemma same_bit x y : 0 <= x -> 0 <= y -> Z.to_nat (y / 32) = Z.to_nat (x / 32) -> y mod 32 = x mod 32 -> y = x.
Proof. intros. Z.to_euclidean_division_equations. lia. Qed.

Lemma bit_write s x y v : mask_ok s -> 0 <= x < setSize s ->
  bit (wr_word s (x / 32) v) y = if decide (Z.to_nat (y / 32) = Z.to_nat (x / 32)) then Z.testbit v (y mod 32) else bit s y.
Proof.
  intros Hs Hx. destruct (index_in_mask s x Hs Hx) as [_ Hl]. unfold bit, wr_word. cbn [bitmask set_mask].
  destruct (decide _) as [->|Hne]; [by rewrite list_lookup_insert_eq|by rewrite list_lookup_insert_ne by done].
Qed.

Lemma mask_ok_write s x v : mask_ok s -> in_uint 32 v -> mask_ok (wr_word s x v).
Proof.
  intros [Hl Hw Hs Hf] Hv. split; cbn; [by rewrite length_insert|done..|]. by apply Forall_insert.
Qed.

Lemma mask_ok_count s n : mask_ok s -> mask_ok (set_count n s).
Proof. intros []. by split. Qed.

Lemma mask_word s x : mask_ok s -> in_uint 32 (default 0 (bitmask s !! x)).
Proof.
  intros [_ _ _ Hf]. destruct (bitmask s !! x) eqn:E; [by eapply Forall_lookup in Hf|]. unfold in_uint. cbn. lia.
Qed.

(** Words below [2^32] are closed under the operations on bits. *)
Lemma word_bits w : in_uint 32 w <-> 0 <= w /\ forall k, 32 <= k -> Z.testbit w k = false.
Proof.
  unfold in_uint. split.
  - intros Hw. split; [lia|]. intros k Hk. destruct (decide (w = 0)) as [->|]; [apply Z.bits_0|].
    apply Z.bits_above_log2; [lia|]. assert (Z.log2 w < 32); [|lia]. apply Z.log2_lt_pow2; lia.
  - intros [H0 Hk]. split; [done|]. destruct (decide (w = 0)) as [->|]; [lia|].
    apply Z.log2_lt_pow2; [lia|]. destruct (Z.lt_ge_cases (Z.log2 w) 32) as [|Hge]; [done|].
    specialize (Hk _ Hge). rewrite Z.bit_log2 in Hk by lia. done.
Qed.

Lemma lor_word a b : in_uint 32 a -> in_uint 32 b -> in_uint 32 (Z.lor a b).
Proof.
  rewrite !word_bits. intros [Ha Ha'] [Hb Hb']. split; [by apply Z.lor_nonneg|].
  intros k Hk. by rewrite Z.lor_spec, Ha', Hb'.
Qed.
Lemma land_word a b : in_uint 32 a -> in_uint 32 b -> in_uint 32 (Z.land a b).
Proof.
  rewrite !word_bits. intros [Ha Ha'] [Hb Hb']. split; [apply Z.land_nonneg; by left|].
  intros k Hk. by rewrite Z.land_spec, Ha'.
Qed.
Lemma lxor_word a b : in_uint 32 a -> in_uint 32 b -> in_uint 32 (Z.lxor a b).
Proof.
  rewrite !word_bits. intros [Ha Ha'] [Hb Hb']. split; [by apply Z.lxor_nonneg|].
  intros k Hk. by rewrite Z.lxor_spec, Ha', Hb'.
Qed.
Lemma pow_word k : 0 <= k < 32 -> in_uint 32 (2 ^ k).
Proof. intros Hk. split; [apply Z.pow_nonneg; lia|]. apply Z.pow_lt_mono_r; lia. Qed.

(** *** Creation and growth *)

Lemma bit_zeros n b x : bit (BitSet (replicate n 0) (setSize b) (setWidth b) (setNumElements b) (allowObservers b)) x = false.
Proof.
  unfold bit. cbn. destruct (replicate n 0 !! Z.to_nat (x / 32)) as [w|] eqn:E; [|apply Z.bits_0].
  apply lookup_replicate in E as [-> _]. apply Z.bits_0.
Qed.

Lemma zero_words n : Forall (in_uint 32) (replicate n 0).
Proof. apply Forall_replicate. unfold in_uint. lia. Qed.

Lemma rep_empty s : mask_ok s -> setNumElements s = 0 -> (forall x, bit s x = false) -> counted s ∅.
Proof.
  intros Hm Hn Hb. split; [split_and!|]; [done| |rewrite Hn; set_solver by lia|rewrite Hn; done|done|by rewrite Hn].
  intros x. rewrite Hb. set_solver.
Qed.

Lemma setCreate_spec n : n < 2 ^ 31 -> counted (setCreate n) ∅ /\
  setWidth (setCreate n) = ((if (0 <? n)%Z then n else 32) + 31) / 32 /\ allowObservers (setCreate n) = false.
Proof.
  intros Hn. unfold setCreate, SET_DEFAULT_SIZE, WORDLENGTH. set (k := if 0 <? n then n else 32).
  assert (0 < k < 2 ^ 31) as Hk by (unfold k; destruct (Z.ltb_spec 0 n); lia).
  assert (uint32 ((k + 32 - 1) / 32) = (k + 31) / 32) as ->.
  { replace (k + 32 - 1) with (k + 31) by lia. apply uint_of_id. unfold in_uint. Z.to_euclidean_division_equations. lia. }
  assert (0 < (k + 31) / 32 < 2 ^ 27) by (Z.to_euclidean_division_equations; lia).
  rewrite (uint_of_id 32 (_ * 32)) by (unfold in_uint; lia). split; [|done]. apply rep_empty; [|done|].
  - split; cbn; [by rewrite length_replicate|done|lia|apply zero_words].
  - intros x. exact (bit_zeros _ (BitSet [] _ _ _ _) x).
Qed.

Lemma setClear_spec s : mask_ok s -> counted (setClear s) ∅.
Proof.
  intros [Hl Hw Hs Hf]. apply rep_empty; [|done|].
  - split; cbn; [by rewrite length_replicate|done..|apply zero_words].
  - intros x. exact (bit_zeros _ (BitSet [] _ _ _ _) x).
Qed.

Lemma setEnlarge_spec s n : mask_ok s -> 0 <= n -> setWidth s + n + 2 < 2 ^ 27 ->
  mask_ok (setEnlarge s n) /\ setWidth (setEnlarge s n) = setWidth s + n + 2 /\
  (forall x, 0 <= x -> bit (setEnlarge s n) x = bit s x) /\ (forall x, setSize s <= x -> bit s x = false).
Proof.
  intros [Hl Hw Hs Hf] Hn Hb. unfold setEnlarge, SET_WORD_DEFAULT_EXTENT, WORDLENGTH.
  rewrite (uint_of_id 32 n), (uint_of_id 32 (setWidth s + (n + 2))) by (unfold in_uint; lia).
  rewrite (uint_of_id 32 (_ * 32)) by (unfold in_uint; lia).
  rewrite (take_ge (bitmask s)) by lia. split_and!; [split; cbn| | |]; cbn; try lia.
  - rewrite length_app, length_replicate. lia.
  - apply Forall_app. split; [done|]. apply zero_words.
  - intros x Hx. unfold bit. cbn. destruct (decide (Z.to_nat (x / 32) < length (bitmask s))%nat) as [Hlt|Hge].
    + by rewrite lookup_app_l.
    + rewrite lookup_app_r, (lookup_ge_None_2 (bitmask s)) by lia. cbn [default].
      destruct (_ !! _) eqn:E; [|done]. by apply lookup_replicate in E as [-> _].
  - intros x Hx. unfold bit. rewrite lookup_ge_None_2; [apply Z.bits_0|].
    rewrite Hl. Z.to_euclidean_division_equations. lia.
Qed.

(** *** Members *)

Lemma rep_index s X x : rep s X -> x ∈ X -> 0 <= x < setSize s.
Proof. intros (_ & He & _) Hx. by apply He in Hx as [? _]. Qed.

Lemma size_in_mask s X : rep s X -> Z.of_nat (size X) <= setSize s.
Proof.
  intros Hr. pose proof Hr as ([_ Hw Hs _] & _). assert (X ⊆ list_to_set (seqZ 0 (setSize s))) as Hsub.
  { intros x Hx. apply elem_of_list_to_set, elem_of_seqZ. pose proof (rep_index s X x Hr Hx). lia. }
  apply subseteq_size in Hsub. rewrite size_list_to_set in Hsub by apply NoDup_seqZ.
  rewrite length_seqZ in Hsub. lia.
Qed.

Section Members.
Context (index : option (ptr -> Z)) (int_at : ptr -> Z).

Lemma setIsMember_spec s X obj x : rep s X -> object_index index int_at obj = Some x -> valid_index x ->
  setIsMember index int_at s obj = Some (Z.b2z (bool_decide (x ∈ X))).
Proof.
  intros (Hm & He & Hn & Hz) Hx Hv. unfold valid_index in Hv. unfold setIsMember. rewrite Hx.
  destruct (Z.eqb_spec (setNumElements s) 0) as [E|E].
  - rewrite (Hz E), bool_decide_eq_false_2; [done|]. set_solver.
  - rewrite uint32_index by lia. destruct (Z.leb_spec (setSize s) x).
    + rewrite bool_decide_eq_false_2; [done|]. intros [? _]%He. lia.
    + rewrite setTestValue_bit by (done || lia). cbn. do 3 f_equal. specialize (He x).
      destruct (bit s x); symmetry; [apply bool_decide_eq_true_2, He; split; [lia|done]|apply bool_decide_eq_false_2].
      intros [_ ?]%He. done.
Qed.

(** What remains of a word when a bit is set. *)
Lemma add_bit s x y : mask_ok s -> 0 <= x < setSize s -> 0 <= y ->
  bit (wr_word s (x / 32) (Z.lor (default 0 (bitmask s !! Z.to_nat (x / 32))) (2 ^ (x mod 32)))) y = bit s y || (x =? y).
Proof.
  intros Hm Hx Hy. rewrite bit_write by done. pose proof (Z.mod_pos_bound x 32 ltac:(lia)).
  pose proof (Z.mod_pos_bound y 32 ltac:(lia)). destruct (decide _) as [E|E].
  - rewrite Z.lor_spec, Z.pow2_bits_eqb by lia. unfold bit. rewrite E. f_equal.
    destruct (Z.eqb_spec (x mod 32) (y mod 32)) as [Em|Em], (Z.eqb_spec x y) as [->|Ne]; try done.
    destruct Ne. symmetry. apply same_bit; (done || lia).
  - destruct (Z.eqb_spec x y) as [->|]; [done|by rewrite orb_false_r].
Qed.

Lemma remove_bit s x y : mask_ok s -> 0 <= x < setSize s -> 0 <= y ->
  bit (wr_word s (x / 32) (Z.land (default 0 (bitmask s !! Z.to_nat (x / 32))) (uint32 (Z.lnot (2 ^ (x mod 32)))))) y =
  bit s y && negb (x =? y).
Proof.
  intros Hm Hx Hy. rewrite bit_write by done. pose proof (Z.mod_pos_bound x 32 ltac:(lia)).
  pose proof (Z.mod_pos_bound y 32 ltac:(lia)). destruct (decide _) as [E|E].
  - unfold uint_of. rewrite Z.land_spec, Z.mod_pow2_bits_low, Z.lnot_spec, Z.pow2_bits_eqb by lia. unfold bit. rewrite E.
    f_equal. f_equal. destruct (Z.eqb_spec (x mod 32) (y mod 32)) as [Em|Em], (Z.eqb_spec x y) as [->|Ne]; try done.
    destruct Ne. symmetry. apply same_bit; (done || lia).
  - destruct (Z.eqb_spec x y) as [->|]; [done|by rewrite andb_true_r].
Qed.

Lemma setAddElement_spec s X obj x : rep s X -> object_index index int_at obj = Some x -> valid_index x ->
  (setSize s <= x -> setWidth s + x + 2 < 2 ^ 27) ->
  if decide (x ∈ X) then setAddElement index int_at s obj = Some (inl LS_BITSET_ERR_ISALREDY)
  else exists s', setAddElement index int_at s obj = Some (inr s') /\ rep s' ({[x]} ∪ X) /\
    setNumElements s' = setNumElements s + 1 /\ allowObservers s' = allowObservers s /\
    setWidth s' = (if (setSize s <=? x)%Z then setWidth s + x + 2 else setWidth s).
Proof.
  intros Hr Hx Hv Hg. pose proof (size_in_mask s X Hr) as Hsz. pose proof Hr as (Hm & He & Hn & Hz). pose proof Hm as [_ Hw Hs _].
  unfold valid_index in Hv. unfold setAddElement. rewrite Hx, uint32_index by lia.
  assert ((if setSize s <=? x then Some false else setTestValue s x) = Some (bool_decide (x ∈ X))) as ->.
  { destruct (Z.leb_spec (setSize s) x).
    - f_equal. symmetry. apply bool_decide_eq_false_2. intros [? _]%He. lia.
    - rewrite setTestValue_bit by (done || lia). f_equal. specialize (He x). destruct (bit s x); symmetry.
      + apply bool_decide_eq_true_2, He. split; [lia|done].
      + apply bool_decide_eq_false_2. intros [_ ?]%He. done. }
  cbn. destruct (decide (x ∈ X)) as [Hin|Hin]; [by rewrite bool_decide_eq_true_2|]. rewrite bool_decide_eq_false_2 by done.
  set (s1 := if setSize s <=? x then setEnlarge s x else s).
  assert (mask_ok s1 /\ setWidth s1 = (if setSize s <=? x then setWidth s + x + 2 else setWidth s) /\
    (forall y, 0 <= y -> bit s1 y = bit s y) /\ 0 <= x < setSize s1 /\ setNumElements s1 = setNumElements s /\
    allowObservers s1 = allowObservers s /\ setSize s <= setSize s1 /\ (setSize s < setSize s1 -> forall y, setSize s <= y -> bit s y = false))
    as (Hm1 & Hw1 & Hb1 & Hx1 & Hn1 & Ho1 & Hs1 & Hout).
  { unfold s1. destruct (Z.leb_spec (setSize s) x); [|split_and!; (done || lia)].
    destruct (setEnlarge_spec s x Hm ltac:(lia) (Hg ltac:(lia))) as (A & B & C & D). pose proof A as [_ Hwe Hse _].
    split_and!; try (done || lia). }
  rewrite rd_word_index, (proj1 (word_of_index x ltac:(lia))), bit_mask_pow by (done || lia). cbn [mbind option_bind].
  eexists. split; [done|]. rewrite Hn1, (uint_of_id 32) by (unfold in_uint; lia). split_and!; try done. split_and!.
  - apply mask_ok_count, mask_ok_write; [done|]. apply lor_word; [by apply mask_word|apply pow_word, Z.mod_pos_bound; lia].
  - intros y. cbn [setSize set_count wr_word set_mask]. change (bit (set_count ?n ?a) y) with (bit a y).
    specialize (He y). rewrite elem_of_union, elem_of_singleton, He. split.
    + intros [->|[Hy1 Hy2]].
      * split; [lia|]. by rewrite add_bit, Z.eqb_refl, orb_true_r by (done || lia).
      * split; [lia|]. by rewrite add_bit, Hb1, Hy2 by (done || lia).
    + intros [Hy1 Hy2]. rewrite add_bit, Hb1 in Hy2 by (done || lia). apply orb_true_iff in Hy2 as [Hy2|Hy2%Z.eqb_eq]; [|by left].
      right. split; [|done]. destruct (Z.lt_ge_cases y (setSize s)); [lia|]. rewrite Hout in Hy2 by lia. done.
  - cbn [setNumElements set_count]. lia.
  - cbn [setNumElements set_count]. rewrite size_union, size_singleton by set_solver. lia.
  - cbn [setNumElements set_count]. lia.
Qed.

Lemma setRemoveElement_spec s X obj x : counted s X -> object_index index int_at obj = Some x -> valid_index x -> x ∈ X ->
  exists s', setRemoveElement index int_at s obj = Some (inr s') /\ counted s' (X ∖ {[x]}) /\
    setWidth s' = setWidth s /\ allowObservers s' = allowObservers s.
Proof.
  intros [Hr Hc] Hx Hv Hin. pose proof (size_in_mask s X Hr) as Hsz. pose proof (rep_index s X x Hr Hin) as Hix.
  pose proof Hr as (Hm & He & Hn & Hz). pose proof Hm as [_ Hw Hs _]. unfold valid_index in Hv. unfold setRemoveElement.
  assert (size X <> 0%nat) as Hne by (apply size_non_empty_iff; set_solver).
  rewrite (proj2 (Z.eqb_neq _ _)) by lia.
  assert (match index with Some f => f obj | None => int_at obj end = x) as ->.
  { unfold object_index in Hx. destruct index; [by destruct (_ <? 0); simplify_eq|by simplify_eq]. }
  rewrite uint32_index, (proj2 (Z.leb_gt _ _)) by lia. rewrite rd_word_index, (proj1 (word_of_index x ltac:(lia))), bit_mask_pow by (done || lia).
  cbn [mbind option_bind]. eexists. split; [done|]. cbn [setNumElements set_count wr_word set_mask].
  rewrite (uint_of_id 32 (setNumElements s - 1)) by (unfold in_uint; lia).
  assert (size (X ∖ {[x]}) = (size X - 1)%nat) as Hsize by (rewrite size_difference, size_singleton by set_solver; done).
  split; [split; [split_and!|]|done]; cbn [setNumElements set_count]; try lia.
  - apply mask_ok_count. apply (mask_ok_write s (x / 32)); [done|]. apply land_word; [by apply mask_word|by apply uint_of_range].
  - intros y. cbn [setSize set_count wr_word set_mask]. change (bit (set_count ?n ?a) y) with (bit a y).
    rewrite elem_of_difference, elem_of_singleton, (He y). split.
    + intros [[Hy1 Hy2] Hne']. split; [lia|]. etrans; [exact (remove_bit s x y Hm Hix ltac:(lia))|].
      rewrite Hy2. apply negb_true_iff, Z.eqb_neq. congruence.
    + intros [Hy1 Hy2]. pose proof (eq_trans (eq_sym (remove_bit s x y Hm Hix ltac:(lia))) Hy2) as Hb.
      apply andb_true_iff in Hb as [Hb Hy3%negb_true_iff%Z.eqb_neq]. split; [done|congruence].
  - intros E. apply leibniz_equiv, size_empty_inv. lia.
Qed.
End Members.

(** *** Operations on two sets *)

(** The bit that an operation makes of the bits of both sets. *)
Definition op_bit (op : Z) (a b : bool) : bool :=
  if op =? LS_SET_UNION then a || b else if op =? LS_SET_INTERSECT then a && b
  else if op =? LS_SET_DIFFERENCE then xorb a b else b.

Definition set_op (op : Z) : Prop := op = LS_SET_UNION \/ op = LS_SET_INTERSECT \/ op = LS_SET_DIFFERENCE \/ op = LS_SET_ASSIGN.

Lemma lookup_combine_drop (f : Z -> Z -> Z) (d s : list Z) i : (length s <= length d)%nat ->
  (zip_with f d s ++ drop (length s) d) !! i =
  if decide (i < length s)%nat then a ← d !! i; b ← s !! i; Some (f a b) else d !! i.
Proof.
  intros Hl. assert (length (zip_with f d s) = length s) as Hz by (rewrite length_zip_with; lia).
  destruct (decide _); [rewrite lookup_app_l by lia; by rewrite lookup_zip_with|].
  rewrite lookup_app_r, Hz, lookup_drop by lia. f_equal. lia.
Qed.

Lemma lookup_combine_zero (f : Z -> Z -> Z) (d s : list Z) i : (length s <= length d)%nat ->
  default 0 ((zip_with f d s ++ replicate (length (drop (length s) d)) 0) !! i) =
  if decide (i < length s)%nat then default 0 (a ← d !! i; b ← s !! i; Some (f a b)) else 0.
Proof.
  intros Hl. assert (length (zip_with f d s) = length s) as Hz by (rewrite length_zip_with; lia).
  destruct (decide _); [rewrite lookup_app_l by lia; by rewrite lookup_zip_with|].
  rewrite lookup_app_r by lia. destruct (replicate _ _ !! _) eqn:E; [|done]. by apply lookup_replicate in E as [-> _].
Qed.

Lemma Forall_combine (f : Z -> Z -> Z) (d s : list Z) : Forall (in_uint 32) d -> Forall (in_uint 32) s ->
  (forall a b, in_uint 32 a -> in_uint 32 b -> in_uint 32 (f a b)) -> Forall (in_uint 32) (zip_with f d s).
Proof.
  intros Hd Hs Hf. apply Forall_lookup. intros i x Hx. rewrite lookup_zip_with in Hx.
  destruct (d !! i) eqn:E1; [|done]. destruct (s !! i) eqn:E2; [|done]. cbn in Hx. simplify_eq.
  apply Hf; [exact (Forall_lookup_1 _ _ _ _ Hd E1)|exact (Forall_lookup_1 _ _ _ _ Hs E2)].
Qed.

Lemma setOperate_bits dest src op : set_op op -> mask_ok dest -> mask_ok src ->
  (setWidth dest < setWidth src -> setWidth dest + setWidth src + 2 < 2 ^ 27) ->
  let r := setOperate dest src op in
  mask_ok r /\ setWidth r = (if setWidth dest <? setWidth src then setWidth dest + setWidth src + 2 else setWidth dest) /\
  setNumElements r = setNumElements dest /\ allowObservers r = allowObservers dest /\
  forall x, 0 <= x -> bit r x = op_bit op (bit dest x) (bit src x).
Proof.
  intros Hop Hd Hs Hg. unfold setOperate. rewrite (proj2 (andb_false_iff _ _)); swap 1 2.
  { destruct Hop as [-> | [-> | [-> | ->]]]; cbn; auto. }
  set (d1 := if setWidth dest <? setWidth src then setEnlarge dest (setWidth src) else dest).
  pose proof Hs as [Hls Hws Hss Hfs]. pose proof Hd as [_ Hwd _ _].
  assert (mask_ok d1 /\ setWidth d1 = (if setWidth dest <? setWidth src then setWidth dest + setWidth src + 2 else setWidth dest) /\
    setWidth src <= setWidth d1 /\ setNumElements d1 = setNumElements dest /\ allowObservers d1 = allowObservers dest /\
    forall x, 0 <= x -> bit d1 x = bit dest x) as (Hd1 & Hw1 & Hle & Hn1 & Ho1 & Hb1).
  { unfold d1. destruct (Z.ltb_spec (setWidth dest) (setWidth src)); [|by split_and!; auto].
    destruct (setEnlarge_spec dest (setWidth src) Hd ltac:(lia) (Hg ltac:(lia))) as (A & B & C & _). split_and!; (done || lia). }
  clearbody d1. pose proof Hd1 as [Hl1 Hww1 Hs1 Hf1]. rewrite <- Hls.
  assert (length (bitmask src) <= length (bitmask d1))%nat as Hlen by lia. cbn zeta.
  assert (Forall (in_uint 32) (drop (length (bitmask src)) (bitmask d1))) as Hfd by by apply Forall_drop.
  assert (forall f l, length l = length (drop (length (bitmask src)) (bitmask d1)) -> Forall (in_uint 32) l ->
    (forall a b, in_uint 32 a -> in_uint 32 b -> in_uint 32 (f a b)) ->
    mask_ok (set_mask (zip_with f (bitmask d1) (bitmask src) ++ l) d1)) as Hok.
  { intros f l Hl Hfl Hf. split; cbn; [|done..|].
    - rewrite length_app, Hl, length_zip_with, length_drop. lia.
    - apply Forall_app. split; [by apply Forall_combine|done]. }
  assert (forall x, 0 <= x -> (Z.to_nat (x / 32) < length (bitmask src))%nat \/ bit src x = false) as Hsrc.
  { intros x Hx. destruct (decide (Z.to_nat (x / 32) < length (bitmask src))%nat); [by left|right].
    unfold bit. rewrite lookup_ge_None_2 by lia. apply Z.bits_0. }
  unfold op_bit, combine. destruct Hop as [-> | [-> | [-> | ->]]]; cbn [Z.eqb LS_SET_UNION LS_SET_INTERSECT LS_SET_DIFFERENCE LS_SET_ASSIGN Pos.eqb];
    (split_and!; [apply Hok; rewrite ?length_replicate; try done; try apply zero_words; auto using lor_word, land_word, lxor_word|done..|]);
    intros x Hx; try rewrite <- Hb1 by done; specialize (Hsrc x Hx); unfold bit in *; cbn [bitmask set_mask];
    rewrite ?lookup_combine_drop, ?lookup_combine_zero by done; destruct (decide _) as [Hi|Hi];
    try (destruct Hsrc as [?|Hsrc]; [done|]);
    try (destruct (lookup_lt_is_Some_2 (bitmask src) _ Hi) as [b Eb]; destruct (lookup_lt_is_Some_2 (bitmask d1) (Z.to_nat (x / 32)) ltac:(lia)) as [a Ea];
         rewrite Ea, Eb; cbn [mbind option_bind from_option id]; rewrite ?Z.lor_spec, ?Z.land_spec, ?Z.lxor_spec by done; done).
  - by rewrite Hsrc, orb_false_r.
  - rewrite Hsrc, andb_false_r. apply Z.bits_0.
  - by rewrite Hsrc, xorb_false_r.
  - rewrite Hsrc. apply Z.bits_0.
Qed.

Lemma bit_in_mask s x : mask_ok s -> bit s x = true -> 0 <= x -> x < setSize s.
Proof.
  intros [Hl ? ? _] Hx H0. unfold bit in Hx. destruct (bitmask s !! _) eqn:E; [|by rewrite Z.bits_0 in Hx].
  apply lookup_lt_Some in E. Z.to_euclidean_division_equations. lia.
Qed.

Lemma elements_bits s X : mask_ok s -> elements_are s X -> forall x, x ∈ X <-> 0 <= x /\ bit s x = true.
Proof.
  intros Hm HX x. rewrite (HX x). split; [intros [? ?]; split; [lia|done]|intros [? Hb]].
  split; [split; [done|by apply bit_in_mask]|done].
Qed.

(** What the operations are on sets. *)
Definition set_result (op : Z) (X Y : gset Z) : gset Z :=
  if op =? LS_SET_UNION then X ∪ Y else if op =? LS_SET_INTERSECT then X ∩ Y
  else if op =? LS_SET_DIFFERENCE then (X ∖ Y) ∪ (Y ∖ X) else Y.

Lemma setOperate_elements dest src op X Y : set_op op -> mask_ok dest -> mask_ok src -> elements_are dest X -> elements_are src Y ->
  (setWidth dest < setWidth src -> setWidth dest + setWidth src + 2 < 2 ^ 27) ->
  mask_ok (setOperate dest src op) /\ elements_are (setOperate dest src op) (set_result op X Y).
Proof.
  intros Hop Hd Hs HX HY Hg. destruct (setOperate_bits dest src op Hop Hd Hs Hg) as (Hm & Hw & _ & _ & Hb). split; [done|].
  pose proof Hm as [_ _ Hsz _]. pose proof Hd as [_ _ Hszd _]. pose proof Hs as [_ _ Hszs _].
  assert (setSize dest <= setSize (setOperate dest src op) /\ setSize src <= setSize (setOperate dest src op)) as [Hle1 Hle2].
  { pose proof Hs as [_ ? _ _]. pose proof Hd as [_ ? _ _]. destruct (Z.ltb_spec (setWidth dest) (setWidth src)); lia. }
  pose proof (elements_bits dest X Hd HX) as HX'. pose proof (elements_bits src Y Hs HY) as HY'.
  assert (forall x, 0 <= x < setSize (setOperate dest src op) /\ bit (setOperate dest src op) x = true <->
    0 <= x /\ op_bit op (bit dest x) (bit src x) = true) as Hr.
  { intros x. split; [intros [? H]; split; [lia|by rewrite Hb in H by lia]|]. intros [H0 H]. rewrite Hb by done. split; [|done].
    split; [done|]. unfold op_bit in H. pose proof (bit_in_mask dest x Hd) as Hind. pose proof (bit_in_mask src x Hs) as Hins.
    destruct (bit dest x), (bit src x); try (specialize (Hind eq_refl H0); lia); try (specialize (Hins eq_refl H0); lia).
    destruct Hop as [-> | [-> | [-> | ->]]]; done. }
  intros x. rewrite Hr. unfold set_result, op_bit. destruct Hop as [-> | [-> | [-> | ->]]];
    cbn [Z.eqb LS_SET_UNION LS_SET_INTERSECT LS_SET_DIFFERENCE LS_SET_ASSIGN Pos.eqb];
    rewrite ?elem_of_union, ?elem_of_intersection, ?elem_of_difference, ?HX', ?HY'; destruct (bit dest x), (bit src x); cbn; naive_solver.
Qed.

(** A union with a set that is not empty must not go to an empty one. *)
Lemma union_rep dest src X Y : rep dest X -> rep src Y -> (X = ∅ -> Y = ∅) ->
  (setWidth dest < setWidth src -> setWidth dest + setWidth src + 2 < 2 ^ 27) ->
  rep (setOperate dest src LS_SET_UNION) (X ∪ Y).
Proof.
  intros (Hd & HX & HnX & HzX) (Hs & HY & HnY & _) Hne Hg.
  destruct (setOperate_elements dest src LS_SET_UNION X Y ltac:(by left) Hd Hs HX HY Hg) as [Hm He].
  destruct (setOperate_bits dest src LS_SET_UNION ltac:(by left) Hd Hs Hg) as (_ & _ & Hn & _).
  split_and!; [done|exact He|rewrite Hn; lia| |].
  - rewrite Hn. assert (size X <= size (X ∪ Y))%nat by (apply subseteq_size; set_solver). lia.
  - rewrite Hn. intros E. specialize (HzX E). rewrite (Hne HzX), HzX. set_solver.
Qed.

(** *** Iteration *)

Section Iteration.
Context (inverse : option (Z -> ptr)) (s : LS_BITSET_T) (Hm : mask_ok s) (Hsmall : setSize s <= 2 ^ 31).

(** The object that the iterator makes of a number. *)
Definition object_at (x : Z) : ptr := match inverse with None => x | Some f => f x end.

Lemma next_bit_spec fuel cur : 0 <= cur -> Z.of_nat fuel = setSize s - cur ->
  (forall x, bit s x = true -> cur <= x -> object_at x <> NULL) ->
  (next_bit inverse fuel s cur = Some (NULL, setSize s) /\ forall y, cur <= y < setSize s -> bit s y = false) \/
  exists x, next_bit inverse fuel s cur = Some (object_at x, x + 1) /\ cur <= x < setSize s /\ bit s x = true /\
    forall y, cur <= y < x -> bit s y = false.
Proof.
  revert cur. induction fuel as [|fuel IH]; intros cur H0 Hf Ho.
  { left. cbn. split; [do 2 f_equal; lia|]. intros. lia. }
  cbn [next_bit]. rewrite setTestValue_bit by (done || lia). cbn [mbind option_bind].
  destruct (bit s cur) eqn:Eb.
  - right. exists cur. specialize (Ho cur Eb ltac:(lia)). unfold object_at in *. split_and!; try (done || lia).
    destruct inverse; [|done]. by rewrite (proj2 (Z.eqb_neq _ _)).
  - destruct (IH (cur + 1) ltac:(lia) ltac:(lia)) as [[E Hn]|(x & E & Hx & Hb & Hn)].
    + intros x Hx Hc. apply Ho; [done|lia].
    + left. split; [done|]. intros y Hy. destruct (decide (y = cur)) as [->|]; [done|]. apply Hn. lia.
    + right. exists x. split_and!; try (done || lia). intros y Hy. destruct (decide (y = cur)) as [->|]; [done|]. apply Hn. lia.
Qed.

Lemma set_objects_spec fuel cur : setNumElements s <> 0 -> 0 <= cur <= setSize s -> (Z.to_nat (setSize s - cur) < fuel)%nat ->
  (forall x, bit s x = true -> cur <= x -> object_at x <> NULL) ->
  exists l, set_objects inverse fuel s cur = Some (object_at <$> l) /\ StronglySorted Z.lt l /\
    forall x, x ∈ l <-> cur <= x < setSize s /\ bit s x = true.
Proof.
  intros Hn. revert cur. induction fuel as [|fuel IH]; intros cur H0 Hf Ho; [lia|]. cbn [set_objects].
  unfold setIteratorGetNextElement. rewrite (proj2 (Z.eqb_neq _ _)) by done.
  destruct (next_bit_spec (Z.to_nat (setSize s - cur)) cur ltac:(lia) ltac:(lia) Ho) as [[-> Hno]|(x & -> & Hx & Hb & Hno)];
    cbn [mbind option_bind].
  - exists []. split_and!; [done|constructor|]. intros x. split; [by intros ?%elem_of_nil|]. intros [Hx Hb]. by rewrite Hno in Hb.
  - rewrite (proj2 (Z.eqb_neq _ _)) by (apply Ho; [done|lia]).
    destruct (IH (x + 1)) as (l & -> & Hs & Hl); [lia|lia|intros y Hy Hc; apply Ho; [done|lia]|].
    cbn [mbind option_bind]. exists (x :: l). split_and!; [done| |].
    + constructor; [done|]. apply Forall_forall. intros y [? _]%Hl. lia.
    + intros y. rewrite elem_of_cons, Hl. split.
      * intros [->|[? ?]]; (split; [lia|done]).
      * intros [Hy Hby]. destruct (Z.lt_trichotomy y x) as [Hlt|[Heq|Hgt]]; [|by left|right; split; [lia|done]].
        rewrite Hno in Hby by lia. done.
Qed.
End Iteration.

(** The loop goes once through all elements, in increasing order. *)
Lemma each_object_spec inverse s X : rep s X -> setSize s <= 2 ^ 31 -> (forall x, x ∈ X -> object_at inverse x <> NULL) ->
  exists l, each_object inverse s = Some (object_at inverse <$> l) /\ StronglySorted Z.lt l /\ forall x, x ∈ l <-> x ∈ X.
Proof.
  intros (Hm & He & Hn & Hz) Hs Ho. pose proof Hm as [_ Hw Hsz _]. unfold each_object.
  destruct (decide (setNumElements s = 0)) as [E|E].
  - exists []. cbn [set_objects]. unfold setIteratorGetNextElement. rewrite E. cbn. split_and!; [done|constructor|].
    intros x. rewrite (Hz E). set_solver.
  - destruct (set_objects_spec inverse s Hm Hs (S (Z.to_nat (setSize s))) 0 E ltac:(lia) ltac:(lia)) as (l & H1 & H2 & H3).
    + intros x Hb H0. apply Ho, He. split; [split; [done|by apply bit_in_mask]|done].
    + exists l. split_and!; [done..|]. intros x. rewrite H3. symmetry. apply He.
Qed.

(** *** The number of elements *)

Fixpoint bitsum (f : Z -> bool) (a : Z) (n : nat) : Z :=
  match n with O => 0 | S n => Z.b2z (f a) + bitsum f (a + 1) n end.

Lemma bitsum_ext f g a b n : (forall k, 0 <= k < Z.of_nat n -> f (a + k) = g (b + k)) -> bitsum f a n = bitsum g b n.
Proof.
  revert a b. induction n as [|n IH]; intros a b H; [done|]. cbn. f_equal.
  - specialize (H 0 ltac:(lia)). by rewrite !Z.add_0_r in H; rewrite H.
  - apply IH. intros k Hk. specialize (H (1 + k) ltac:(lia)). by rewrite !Z.add_assoc in H.
Qed.

Lemma bitsum_app f a n m : bitsum f a (n + m) = bitsum f a n + bitsum f (a + Z.of_nat n) m.
Proof.
  revert a. induction n as [|n IH]; intros a; [by rewrite Z.add_0_r|]. cbn [Nat.add bitsum]. rewrite IH, Z.add_assoc.
  do 2 f_equal. lia.
Qed.

Lemma nbits_spec b : 0 <= b < 256 -> default 0 (nbits !! Z.to_nat b) = bitsum (Z.testbit b) 0 8.
Proof.
  intros Hb. assert (forallb (fun b => default 0 (nbits !! b) =? bitsum (Z.testbit (Z.of_nat b)) 0 8) (seq 0 256) = true) as H
    by (vm_compute; reflexivity).
  rewrite forallb_forall in H. specialize (H (Z.to_nat b)). rewrite in_seq, Z2Nat.id, Z.eqb_eq in H by lia. apply H. lia.
Qed.

Lemma byte_of_word w k : 0 <= k -> forall i, 0 <= i < 8 -> Z.testbit (w / 2 ^ k mod 256) i = Z.testbit w (k + i).
Proof.
  intros Hk i Hi. change 256 with (2 ^ 8). rewrite Z.mod_pow2_bits_low, Z.div_pow2_bits by lia. f_equal. lia.
Qed.

Lemma getNum1BitsInWord_spec w : getNum1BitsInWord w = bitsum (Z.testbit w) 0 32.
Proof.
  unfold getNum1BitsInWord, bytes_of, count_bytes. cbn [foldr]. rewrite !nbits_spec by (apply Z.mod_pos_bound; lia).
  change 32%nat with (8 + (8 + (8 + (8 + 0))))%nat. rewrite !bitsum_app. f_equal; [|f_equal; [|f_equal]].
  - apply bitsum_ext. intros k Hk. pose proof (byte_of_word w 0 ltac:(lia) k ltac:(lia)) as H. by rewrite Z.div_1_r in H.
  - apply bitsum_ext. intros k Hk. apply (byte_of_word w 8); lia.
  - apply bitsum_ext. intros k Hk. apply (byte_of_word w 16); lia.
  - f_equal. apply bitsum_ext. intros k Hk. apply (byte_of_word w 24); lia.
Qed.

Lemma count_bytes_app l k : count_bytes (l ++ k) = count_bytes l + count_bytes k.
Proof. unfold count_bytes. induction l as [|b l IH]; [done|]. cbn [foldr app]. rewrite IH. lia. Qed.

Lemma count_words ws : count_bytes (ws ≫= bytes_of) =
  bitsum (fun x => Z.testbit (default 0 (ws !! Z.to_nat (x / 32))) (x mod 32)) 0 (32 * length ws).
Proof.
  induction ws as [|w ws IH]; [done|]. rewrite bind_cons, count_bytes_app, IH. fold (getNum1BitsInWord w). rewrite getNum1BitsInWord_spec.
  replace (32 * length (w :: ws))%nat with (32 + 32 * length ws)%nat by (cbn; lia). rewrite bitsum_app. f_equal.
  apply bitsum_ext. intros k Hk. rewrite !Z.add_0_l.
  replace (Z.of_nat 32 + k) with (k + 1 * 32) by lia. rewrite Z.div_add, Z.mod_add by lia.
  replace (Z.to_nat (k / 32 + 1)) with (S (Z.to_nat (k / 32))); [done|].
  rewrite Z2Nat.inj_add by (try apply Z.div_pos; lia). lia.
Qed.

Lemma bitsum_size f (X : gset Z) a n : (forall x, x ∈ X <-> a <= x < a + Z.of_nat n /\ f x = true) -> bitsum f a n = Z.of_nat (size X).
Proof.
  revert a X. induction n as [|n IH]; intros a X HX.
  - assert (X = ∅) as ->; [|done]. apply leibniz_equiv. intros x. rewrite HX. set_solver by lia.
  - cbn [bitsum]. rewrite (IH (a + 1) (X ∖ {[a]})).
    2: { intros x. rewrite elem_of_difference, elem_of_singleton, HX. split; [intros [[? ?] ?]; split; [lia|done]|].
         intros [? ?]. split; [split; [lia|done]|lia]. }
    destruct (f a) eqn:E; cbn [Z.b2z].
    + assert (a ∈ X) as Ha by (apply HX; split; [lia|done]).
      rewrite size_difference, size_singleton by set_solver.
      assert (size X <> 0%nat) by (apply size_non_empty_iff; set_solver). lia.
    + assert (a ∉ X) as Ha by (intros [_ ?]%HX; congruence).
      rewrite difference_disjoint_L by set_solver. lia.
Qed.

Lemma setGetNumElements_spec s X : mask_ok s -> elements_are s X -> setGetNumElements s = Z.of_nat (size X).
Proof.
  intros [Hl Hw Hs _] He. unfold setGetNumElements. rewrite take_ge, count_words by lia.
  apply bitsum_size. intros x. rewrite (He x). unfold bit. rewrite Hl, Hs. split; intros [? ?]; (split; [lia|done]).
Qed.

(** ** Sequences of calls on one set *)

Section Calls.
Context (index : option (ptr -> Z)) (inverse : option (Z -> ptr)) (int_at : ptr -> Z).

Inductive set_call := Add (obj : ptr) | Remove (obj : ptr) | IsMember (obj : ptr) | Clear | NumElements | EachObject.
Inductive set_answer := Answer (z : Z) | Objects (os : list ptr).

(** What a call answers and leaves behind. *)
Definition set_step (c : set_call) (s : LS_BITSET_T) : option (set_answer * LS_BITSET_T) :=
  let after r := match r with inl _ => (Answer (-1), s) | inr s => (Answer 0, s) end : set_answer * LS_BITSET_T in
  match c with
  | Add obj => r ← setAddElement index int_at s obj; Some (after r)
  | Remove obj => r ← setRemoveElement index int_at s obj; Some (after r)
  | IsMember obj => b ← setIsMember index int_at s obj; Some (Answer b, s)
  | Clear => Some (Answer 0, setClear s)
  | NumElements => Some (Answer (setGetNumElements s), s)
  | EachObject => os ← each_object inverse s; Some (Objects os, s)
  end.

(** The same on sets of numbers. A set forbids the removal of what is not in it,
    unless it is empty. *)
Definition spec_step (c : set_call) (X : gset Z) : option (set_answer * gset Z) :=
  match c with
  | Add obj => x ← object_index index int_at obj; Some (if decide (x ∈ X) then (Answer (-1), X) else (Answer 0, {[x]} ∪ X))
  | Remove obj =>
      x ← object_index index int_at obj;
      if decide (X = ∅) then Some (Answer (-1), X) else if decide (x ∈ X) then Some (Answer 0, X ∖ {[x]}) else None
  | IsMember obj => x ← object_index index int_at obj; Some (Answer (Z.b2z (bool_decide (x ∈ X))), X)
  | Clear => Some (Answer 0, ∅)
  | NumElements => Some (Answer (Z.of_nat (size X)), X)
  | EachObject => Some (Objects (object_at inverse <$> merge_sort Z.le (elements X)), X)
  end.

Fixpoint run_calls {S} (step : set_call -> S -> option (set_answer * S)) (cs : list set_call) (s : S) : option (list set_answer * S) :=
  match cs with
  | [] => Some ([], s)
  | c :: cs => '(a, s) ← step c s; '(os, s) ← run_calls step cs s; Some (a :: os, s)
  end.

Definition call_object (c : set_call) : option ptr :=
  match c with Add obj | Remove obj | IsMember obj => Some obj | _ => None end.

(** The objects have valid indices, from which the user of the set can find an object. *)
Definition call_ok (c : set_call) : Prop :=
  forall obj x, call_object c = Some obj -> object_index index int_at obj = Some x -> valid_index x /\ object_at inverse x <> NULL.

Lemma strictly_sorted l : StronglySorted Z.lt l -> StronglySorted Z.le l /\ NoDup l.
Proof.
  induction 1 as [|x l Hs [IH1 IH2] Hf]; [by split; constructor|]. rewrite Forall_forall in Hf. split.
  - constructor; [done|]. apply Forall_forall. intros y Hy. specialize (Hf y Hy). lia.
  - constructor; [|done]. intros Hx. specialize (Hf x Hx). lia.
Qed.

Lemma sorted_elements (X : gset Z) l : StronglySorted Z.lt l -> (forall x, x ∈ l <-> x ∈ X) -> l = merge_sort Z.le (elements X).
Proof.
  intros [Hs Hn]%strictly_sorted Hl. apply (StronglySorted_unique Z.le); [done| |].
  - apply Sorted_StronglySorted; [apply _|]. apply Sorted_merge_sort, _.
  - rewrite merge_sort_Permutation. apply NoDup_Permutation; [done|apply NoDup_elements|].
    intros x. by rewrite Hl, elem_of_elements.
Qed.

(** The words of the mask can be numbered by ints. *)
Definition small (s : LS_BITSET_T) : Prop := setWidth s <= 2 ^ 26.

Lemma set_step_spec c s X a Y : call_ok c -> counted s X -> small s -> (forall x, x ∈ X -> object_at inverse x <> NULL) ->
  spec_step c X = Some (a, Y) ->
  exists s', set_step c s = Some (a, s') /\ counted s' Y /\ small s' /\ forall x, x ∈ Y -> object_at inverse x <> NULL.
Proof.
  intros Hc [Hr Hn] Hsm Ho Hspec. pose proof Hr as (Hm & He & _ & Hz). pose proof Hm as [_ Hw Hs _]. unfold small in *.
  destruct c as [obj|obj|obj| | |]; cbn [spec_step set_step] in *.
  - destruct (object_index index int_at obj) as [x|] eqn:Ei; [|done]. cbn in Hspec. destruct (Hc obj x eq_refl Ei) as [Hv Hx].
    assert (setSize s <= x -> setWidth s + x + 2 < 2 ^ 26) as Hg by (unfold valid_index in Hv; lia).
    pose proof (setAddElement_spec index int_at s X obj x Hr Ei Hv ltac:(lia)) as Ha. destruct (decide (x ∈ X)) as [Hin|Hin].
    + rewrite Ha. injection Hspec as <- <-. by exists s.
    + destruct Ha as (s' & -> & Hr' & Hn' & _ & Hw'). injection Hspec as <- <-. exists s'. cbn. split_and!; [done|split; [done|]| |].
      * rewrite Hn', Hn, size_union, size_singleton by set_solver. lia.
      * rewrite Hw'. destruct (Z.leb_spec (setSize s) x); lia.
      * intros y [->%elem_of_singleton|?]%elem_of_union; auto.
  - destruct (object_index index int_at obj) as [x|] eqn:Ei; [|done]. cbn in Hspec. destruct (Hc obj x eq_refl Ei) as [Hv Hx].
    destruct (decide (X = ∅)) as [->|Hne].
    + injection Hspec as <- <-. exists s. unfold setRemoveElement. rewrite Hn. cbn. by split_and!.
    + destruct (decide (x ∈ X)) as [Hin|]; [|done]. injection Hspec as <- <-.
      destruct (setRemoveElement_spec index int_at s X obj x (conj Hr Hn) Ei Hv Hin) as (s' & -> & Hc' & Hw' & _).
      exists s'. cbn. split_and!; [done..|lia|]. intros y [? _]%elem_of_difference. auto.
  - destruct (object_index index int_at obj) as [x|] eqn:Ei; [|done]. cbn in Hspec. destruct (Hc obj x eq_refl Ei) as [Hv Hx].
    rewrite (setIsMember_spec index int_at s X obj x Hr Ei Hv). injection Hspec as <- <-. by exists s.
  - injection Hspec as <- <-. exists (setClear s). split_and!; [done|by apply setClear_spec|done|set_solver].
  - injection Hspec as <- <-. exists s. by rewrite (setGetNumElements_spec s X Hm He).
  - injection Hspec as <- <-. destruct (each_object_spec inverse s X Hr ltac:(lia) Ho) as (l & -> & Hl1 & Hl2).
    rewrite (sorted_elements X l Hl1 Hl2). by exists s.
Qed.

Lemma set_calls_spec cs s X os Y : Forall call_ok cs -> counted s X -> small s -> (forall x, x ∈ X -> object_at inverse x <> NULL) ->
  run_calls spec_step cs X = Some (os, Y) ->
  exists s', run_calls set_step cs s = Some (os, s') /\ counted s' Y.
Proof.
  intros Hcs. revert s X os Y. induction Hcs as [|c cs Hc Hcs IH]; intros s X os Y Hr Hsm Ho Hspec; cbn in *.
  - simplify_eq. by exists s.
  - destruct (spec_step c X) as [[a X']|] eqn:E1; [|done]. cbn in Hspec.
    destruct (run_calls spec_step cs X') as [[os' Y']|] eqn:E2; [|done]. cbn in Hspec. simplify_eq.
    destruct (set_step_spec c s X a X' Hc Hr Hsm Ho E1) as (s' & -> & Hr' & Hsm' & Ho'). cbn.
    destruct (IH s' X' os' Y Hr' Hsm' Ho' E2) as (s'' & -> & ?). by exists s''.
Qed.
End Calls.

(** C25: any sequence of calls on a new bit set (additions, removals of members,
    tests, clearing, counting, iteration) answers what the same calls answer on a finite set of
    numbers, growing the mask as it is needed, and leaves the mask and the count that stand for
    the final set. *)
Theorem set_refines_gset (index : option (ptr -> Z)) (inverse : option (Z -> ptr)) (int_at : ptr -> Z)
    (n : Z) (cs : list set_call) (os : list set_answer) (Y : gset Z) :
  n < 2 ^ 31 -> Forall (call_ok index inverse int_at) cs ->
  run_calls (spec_step index inverse int_at) cs ∅ = Some (os, Y) ->
  exists s, run_calls (set_step index inverse int_at) cs (setCreate n) = Some (os, s) /\ counted s Y.
Proof.
  intros Hn Hcs Hspec. destruct (setCreate_spec n Hn) as (Hc & Hw & _).
  apply (set_calls_spec index inverse int_at cs (setCreate n) ∅ os Y Hcs Hc); [|set_solver|exact Hspec].
  unfold small. rewrite Hw. destruct (Z.ltb_spec 0 n); Z.to_euclidean_division_equations; lia.
Qed.

(** Objects at the addresses 1000, 1001, ... *)
Definition demo_index : option (ptr -> Z) := Some (fun obj => obj - 1000).
Definition demo_object : option (Z -> ptr) := Some (fun x => x + 1000).

Lemma set_refines_gset_witness :
  exists s, run_calls (set_step demo_index demo_object id)
      [Add 1003; Add 1200; Add 1003; IsMember 1200; Remove 1003; NumElements; EachObject] (setCreate 150) =
    Some ([Answer 0; Answer 0; Answer (-1); Answer 1; Answer 0; Answer 1; Objects [1200]], s) /\ counted s {[200]}.
Proof.
  apply (set_refines_gset demo_index demo_object id).
  - lia.
  - assert (forall c, match call_object c with Some o => 1000 <= o < 2000 | None => True end -> call_ok demo_index demo_object id c) as H.
    { intros c Hc obj x Ho Hx. rewrite Ho in Hc. unfold object_index, demo_index in Hx.
      destruct (Z.ltb_spec (obj - 1000) 0); [discriminate|]. injection Hx as <-. unfold valid_index, object_at, NULL, demo_object. lia. }
    repeat (apply Forall_cons_2; [apply H; cbn; (lia || exact I)|]). constructor.
  - vm_compute. reflexivity.
Defined.

(** ** Surprises *)

Definition of_numbers (xs : list Z) : LS_BITSET_T :=
  foldl (fun s x => match setAddElement demo_index id s (x + 1000) with Some (inr s) => s | _ => s end) (setCreate 64) xs.
Definition numbers (s : LS_BITSET_T) : option (list Z) := list_fmap _ _ (fun o => o - 1000) <$> each_object demo_object s.

(** [LS_SET_DIFFERENCE] is the symmetric difference. *)
Example difference_adds : numbers (setOperate (of_numbers [1; 2]) (of_numbers [2; 3]) LS_SET_DIFFERENCE) = Some [1; 3].
Proof. vm_compute. reflexivity. Qed.

(** The operations do not count: a union that goes to an empty set is taken for empty. *)
Example union_into_empty :
  let s := setOperate (setCreate 64) (of_numbers [7]) LS_SET_UNION in
  setIsMember demo_index id s 1007 = Some 0 /\ numbers s = Some [] /\ setGetNumElements s = 1.
Proof. vm_compute. done. Qed.

(** A copy has no elements, and the count of the original. *)
Example copy_is_empty : let s := setDup (of_numbers [3; 4]) in numbers s = Some [] /\ setNumElements s = 2.
Proof. vm_compute. done. Qed.

(** The removal of what is not in a set is counted. *)
Example remove_other :
  match setRemoveElement demo_index id (of_numbers [5]) 1006 with
  | Some (inr s) => setIsMember demo_index id s 1005 = Some 0 /\ setGetNumElements s = 1
  | _ => False
  end.
Proof. vm_compute. done. Qed.

(** Without a function for objects the number 0 ends an iteration. *)
Example zero_ends : each_object None (of_numbers [0; 1]) = Some [].
Proof. vm_compute. reflexivity. Qed.

(** [setCat] drops an element that is the last bit of the mask. *)
Example last_bit_dropped :
  setCat demo_object (of_numbers [1; 63]) (fun o => Some (lit (if o =? 1001 then "a" else "b"))) 10 = Some (lit "a").
Proof. vm_compute. reflexivity. Qed.

(** A negative number without a function for indices is written before the mask. *)
Example negative_index : setAddElement None id (setCreate 64) (-1) = None.
Proof. vm_compute. reflexivity. Qed.
