(* ===== verification/Groups.v ===== *)
(** * Groups of users and hosts (mbd.grp.c, mbd.serv.c)

    A group has members and subgroups; one without both stands for everybody. The
    configuration allows no cycles, so that a group is a tree [gData]; the table of
    members is the list of its names in the order of the hash table. This file has the
    queries: who is in a group, the texts and arrays made of its members, and the answer to
    a client that asks for groups ([do_groupInfoReq]). The sets of ancestors and descendants
    are in [UserSets].

    [None] is an access outside of a buffer or through a null pointer. *)

From Stdlib Require Import Btauto.
From S2P Require Import Prelude CLib Accounting Xdr LsbXdr.

Definition MAX_GROUPS : Z := 150.

Definition members (gp : gData) : list cstr := let '(GData _ ms _) := gp in ms.
Definition subgroups (gp : gData) : list gData := let '(GData _ _ gs) := gp in gs.

Fixpoint starts_with (sub s : cstr) : bool :=
  match sub, s with
  | [], _ => true
  | a :: sub, b :: s => ch_eqb a b && starts_with sub s
  | _ :: _, [] => false
  end.

(** [strstr(s, sub) != NULL] *)
Fixpoint strstr (s sub : cstr) : bool :=
  starts_with sub s || match s with [] => false | _ :: s => strstr s sub end.

(** ** Members *)

(** The result, and the static variable [num], which only the outermost call resets. *)
Fixpoint sumMembers (gp : gData) (r : bool) (num : Z) : Z * Z :=
  let '(GData _ ms gs) := gp in
  if (length gs =? 0)%nat && (length ms =? 0)%nat && r then (0, num)
  else
    let num := num + Z.of_nat (length ms) in
    if negb r then let num := num + Z.of_nat (length gs) in (num, num)
    else
      (fix subs (gs : list gData) (num : Z) : Z * Z :=
         match gs with
         | [] => (num, num)
         | g :: gs => let '(n, num) := sumMembers g r num in if n =? 0 then (0, num) else subs gs num
         end) gs num.

Definition BLANK : ascii := " ".
Definition SLASH : ascii := "/".

Definition cat_names (cbuf : cstr) (names : list cstr) : cstr := foldl (fun b n => b ++ n ++ [BLANK]) cbuf names.

(** The name of a subgroup, with a slash at its end. *)
Definition cat_group (cbuf : cstr) (g : gData) : option cstr :=
  lastChar ← last (group g);
  Some (cbuf ++ group g ++ (if ch_eqb lastChar SLASH then [BLANK] else [SLASH; BLANK])).

Fixpoint catMembers (gp : gData) (cbuf : cstr) (r : bool) : option cstr :=
  let '(GData _ ms gs) := gp in
  (fix subs (gs : list gData) (cbuf : cstr) : option cstr :=
     match gs with
     | [] => Some cbuf
     | g :: gs => cbuf ← (if r then catMembers g cbuf r else cat_group cbuf g); subs gs cbuf
     end) gs (cat_names cbuf ms).

(** The text and its NUL must fit into the buffer. *)
Definition in_buffer (size : Z) (text : cstr) : option cstr :=
  if size <? strlen text + 1 then None else Some text.

Definition getGroupMembers (gp : gData) (r : bool) : option cstr :=
  let numMembers := (sumMembers gp r 0).1 in
  if numMembers =? 0 then Some (lit "all")
  else text ← catMembers gp [] r; in_buffer (numMembers * MAX_LSB_NAME_LEN) text.

Definition catGnames (gp : gData) : option cstr :=
  match subgroups gp with
  | [] => Some [BLANK]
  | gs => in_buffer (Z.of_nat (length gs) * MAX_LSB_NAME_LEN) (foldl (fun b g => b ++ group g ++ [SLASH; BLANK]) [] gs)
  end.

Fixpoint countEntries (gp : gData) (num : Z) : Z :=
  let '(GData _ ms gs) := gp in
  (fix subs (gs : list gData) (num : Z) : Z :=
     match gs with [] => num | g :: gs => subs gs (countEntries g num) end) gs (num + Z.of_nat (length ms)).

(** [memberTab] has room for [size] names, of which the first ones are filled. *)
Definition fill_names (size : Z) (tab : list cstr) (names : list cstr) : option (list cstr) :=
  foldl (fun t n => t ← t; if size <=? Z.of_nat (length t) then None else Some (t ++ [n])) (Some tab) names.

Fixpoint fillMembers (size : Z) (gp : gData) (tab : list cstr) : option (list cstr) :=
  let '(GData _ ms gs) := gp in
  tab ← fill_names size tab ms;
  (fix subs (gs : list gData) (tab : list cstr) : option (list cstr) :=
     match gs with [] => Some tab | g :: gs => tab ← fillMembers size g tab; subs gs tab end) gs tab.

Definition expandGrp (gp : gData) (gName : cstr) : option (list cstr) :=
  let num := countEntries gp 0 in
  if num =? 0 then Some [gName] else fillMembers num gp [].

(** ** The tables of groups *)

Definition getGrpData (groups : list gData) (name : option cstr) : option gData :=
  name ← name; find (fun g => bool_decide (name = group g)) groups.

Section Tables.
Context (usergroups hostgroups : list gData).

Definition getUGrpData : option cstr -> option gData := getGrpData usergroups.
Definition getHGrpData : option cstr -> option gData := getGrpData hostgroups.

Definition USER_GRP : Z := 0x1.
Definition HOST_GRP : Z := 0x2.
Definition GRP_RECURSIVE : Z := 0x8.
Definition GRP_ALL : Z := 0x10.

(** The first group of the table that a user or host is in. *)
Definition getGroup (groupType : Z) (member : cstr) : option gData :=
  if groupType =? HOST_GRP then find (gMember member) hostgroups
  else if groupType =? USER_GRP then find (gMember member) usergroups
  else None.

(** ** The answer to a query *)

(** [gdata_of] is what [u->gData] is for the user record with the name of a group. *)
Context (gdata_of : cstr -> option gData).

Definition getGroupInfoEntFromUdata (name : cstr) (recursive : bool) : option groupInfoEnt :=
  g ← gdata_of name; text ← getGroupMembers g recursive; Some (GroupInfoEnt name text).

(** [None] for the names: all groups. The entries up to the first name that is no group. *)
Fixpoint named_groups (names : list cstr) (recursive : bool) : option (list groupInfoEnt) :=
  match names with
  | [] => Some []
  | name :: names =>
      if existsb (fun g => bool_decide (group g = name)) usergroups then
        e ← getGroupInfoEntFromUdata name recursive; es ← named_groups names recursive; Some (e :: es)
      else Some []
  end.

Definition getGroupInfoEnt (names : option (list cstr)) (recursive : bool) : option (list groupInfoEnt) :=
  match names with
  | None => mapM (fun g => getGroupInfoEntFromUdata (group g) recursive) usergroups
  | Some names => named_groups names recursive
  end.

Definition SKIP_HOST_GROUP (name : cstr) : bool := strstr name (lit "others").

Definition copyHostGroup (grp : gData) (recursive : bool) : option groupInfoEnt :=
  text ← getGroupMembers grp recursive; Some (GroupInfoEnt (group grp) text).

Definition getAllHostGroup (gplist : list gData) (recursive : bool) : option (list groupInfoEnt) :=
  mapM (fun g => copyHostGroup g recursive) (List.filter (fun g => negb (SKIP_HOST_GROUP (group g))) gplist).

(** [room] entries are left in the array. *)
Fixpoint getSpecifiedHostGroup (room : nat) (grpName : list cstr) (gplist : list gData) (recursive : bool) {struct grpName} : option (list groupInfoEnt) :=
  match grpName with
  | [] => Some []
  | name :: grpName =>
      match find (fun g => negb (SKIP_HOST_GROUP (group g)) && bool_decide (group g = name)) gplist with
      | None => Some []
      | Some g =>
          match room with
          | O => None
          | S room =>
              e ← copyHostGroup g recursive; es ← getSpecifiedHostGroup room grpName gplist recursive; Some (e :: es)
          end
      end
  end.

Definition LSBE_NO_ERROR : Z := 0.
Definition LSBE_BAD_GROUP : Z := 28.
Definition LSBE_LSBLIB : Z := 49.
Definition LSBE_NO_HOST_GROUP : Z := 106.
Definition LSBE_NO_USER_GROUP : Z := 107.

Definition bad_group (es : list groupInfoEnt) (names : list cstr) : bool :=
  (length es =? 0)%nat || negb (length es =? length names)%nat.

(** The code and the groups of the reply. The array for host groups has been made by the
    caller and has as many entries as there are groups; that for user groups replaces it. *)
Definition checkGroups (req : infoReq) : option (Z * list groupInfoEnt) :=
  let o := in_options req in
  let recursive := has o GRP_RECURSIVE in
  if negb (has o HOST_GRP) && negb (has o USER_GRP) then Some (LSBE_LSBLIB, [])
  else
    host ← (if has o HOST_GRP then
              if has o GRP_ALL then es ← getAllHostGroup hostgroups recursive; Some (LSBE_NO_ERROR, es)
              else
                es ← getSpecifiedHostGroup (length hostgroups) (in_names req) hostgroups recursive;
                Some (if bad_group es (in_names req) then LSBE_BAD_GROUP else LSBE_NO_ERROR, es)
            else Some (LSBE_NO_ERROR, []));
    if negb (host.1 =? LSBE_NO_ERROR) then Some host
    else if has o USER_GRP then
      if has o GRP_ALL then es ← getGroupInfoEnt None recursive; Some (LSBE_NO_ERROR, es)
      else
        es ← getGroupInfoEnt (Some (in_names req)) recursive;
        Some (if bad_group es (in_names req) then LSBE_BAD_GROUP else LSBE_NO_ERROR, es)
    else Some host.

(** The sizes of [struct groupInfoReply], [struct groupInfoEnt] and of the header. *)
Definition sizeofGroupInfoReply (groups : list groupInfoEnt) : Z :=
  let n := Z.of_nat (length groups) in
  foldl (fun l e => l + ALIGNWORD_ (strlen (gi_group e) + 1) + ALIGNWORD_ (strlen (gi_memberList e) + 1))
    (ALIGNWORD_ (16 + n * 16 + n * 4)) groups.

(** What is written to the client. The request has been decoded. *)
Definition do_groupInfoReq `{XdrPrims} (req : infoReq) : option (Z * option (list Z)) :=
  '(reply, groups) ←
    (if has (in_options req) HOST_GRP then
       if (length hostgroups =? 0)%nat then Some (LSBE_NO_HOST_GROUP, []) else checkGroups req
     else if (length usergroups =? 0)%nat then Some (LSBE_NO_USER_GROUP, []) else checkGroups req);
  let len := sizeofGroupInfoReply groups + ALIGNWORD_ LSF_HEADER_LEN in
  let replyStruct :=
    if (reply =? LSBE_NO_ERROR) || (reply =? LSBE_BAD_GROUP)
    then Some (GroupInfoReply (Z.of_nat (length groups)) groups) else None in
  Some (reply, fst <$> xdr_encodeMsg len replyStruct (Header 0 reply 0 OPENLAVA_VERSION 0 0) xdr_groupInfoReply None).
End Tables.

(** ** What a group is *)

Lemma gData_nested_ind (P : gData -> Prop) :
  (forall name ms gs, Forall P gs -> P (GData name ms gs)) -> forall g, P g.
Proof.
  intros H. fix IH 1. intros [name ms gs]. apply H. induction gs; constructor; [apply IH|assumption].
Qed.

(** Everybody in the group or a subgroup of it, and whether one of these stands for all. *)
Fixpoint all_members (g : gData) : list cstr := let '(GData _ ms gs) := g in ms ++ (gs ≫= all_members).

Fixpoint everybody (g : gData) : bool :=
  let '(GData _ ms gs) := g in ((length gs =? 0)%nat && (length ms =? 0)%nat) || existsb everybody gs.

Lemma gMember_spec word g : gMember word g = everybody g || bool_decide (word ∈ all_members g).
Proof.
  induction g as [name ms gs IH] using gData_nested_ind. cbn [gMember gDirectMember everybody all_members].
  set (any := fix any (gs : list gData) : bool := match gs with [] => false | g :: gs => gMember word g || any gs end).
  assert (any gs = existsb everybody gs || bool_decide (word ∈ gs ≫= all_members)) as ->.
  { induction IH as [|g gs Hg Hgs IHgs]; [done|]. cbn. fold any. rewrite Hg, IHgs.
    rewrite (bool_decide_ext (word ∈ all_members g ++ _) _ (elem_of_app _ _ _)), bool_decide_or. btauto. }
  rewrite (bool_decide_ext (word ∈ ms ++ _) _ (elem_of_app _ _ _)), bool_decide_or.
  destruct ((length gs =? 0)%nat && (length ms =? 0)%nat); cbn; [done|]. btauto.
Qed.

Lemma has_members g : everybody g = false -> all_members g <> [].
Proof.
  induction g as [name ms gs IH] using gData_nested_ind. cbn [everybody all_members].
  intros [He Hs]%orb_false_iff. destruct ms as [|m ms]; [|done]. destruct gs as [|g gs]; [done|].
  apply Forall_cons in IH as [IHg _]. cbn in Hs |- *. apply orb_false_iff in Hs as [Hg _].
  intros [E _]%app_eq_nil. by apply IHg.
Qed.

(** *** Arrays *)

Lemma countEntries_spec g n : countEntries g n = n + Z.of_nat (length (all_members g)).
Proof.
  revert n. induction g as [name ms gs IH] using gData_nested_ind. intros n. cbn [countEntries all_members].
  rewrite length_app, Nat2Z.inj_add, Z.add_assoc. set (k := n + _). clearbody k. revert k.
  induction IH as [|g gs Hg Hgs IHgs]; intros k; [cbn; lia|]. rewrite bind_cons, length_app, IHgs, Hg. lia.
Qed.

Lemma fill_names_spec size tab names : Z.of_nat (length tab + length names) <= size ->
  fill_names size tab names = Some (tab ++ names).
Proof.
  revert tab. induction names as [|n names IH]; intros tab Hl; [by rewrite app_nil_r|]. unfold fill_names. cbn [foldl mbind option_bind].
  cbn in Hl. rewrite (proj2 (Z.leb_gt _ _)) by lia. fold (fill_names size (tab ++ [n]) names).
  rewrite IH by (rewrite length_app; cbn; lia). by rewrite <- app_assoc.
Qed.

Lemma fillMembers_spec size g tab : Z.of_nat (length tab + length (all_members g)) <= size ->
  fillMembers size g tab = Some (tab ++ all_members g).
Proof.
  revert tab. induction g as [name ms gs IH] using gData_nested_ind. intros tab. cbn [fillMembers all_members].
  rewrite length_app. intros Hl. rewrite fill_names_spec by lia. cbn [mbind option_bind]. rewrite app_assoc.
  assert (Z.of_nat (length (tab ++ ms) + length (gs ≫= all_members)) <= size) as Hl' by (rewrite length_app; lia).
  revert Hl'. generalize (tab ++ ms) as t. clear Hl. induction IH as [|g gs Hg Hgs IHgs]; intros t Hl; [by rewrite app_nil_r|].
  rewrite bind_cons, length_app in Hl. rewrite Hg by lia. cbn [mbind option_bind]. rewrite IHgs by (rewrite length_app; lia).
  by rewrite bind_cons, app_assoc.
Qed.

Lemma expandGrp_spec g gName :
  expandGrp g gName = Some (if (length (all_members g) =? 0)%nat then [gName] else all_members g).
Proof.
  unfold expandGrp. rewrite countEntries_spec, Z.add_0_l. destruct (all_members g) eqn:E; [done|].
  rewrite (proj2 (Z.eqb_neq _ _)) by (cbn; lia). rewrite fillMembers_spec by (rewrite E; cbn; lia). by rewrite E.
Qed.

(** *** Texts *)

Lemma sumMembers_all g n : 0 <= n ->
  if everybody g then (sumMembers g true n).1 = 0 /\ 0 <= (sumMembers g true n).2
  else sumMembers g true n = (n + Z.of_nat (length (all_members g)), n + Z.of_nat (length (all_members g))).
Proof.
  revert n. induction g as [name ms gs IH] using gData_nested_ind. intros n Hn. cbn [sumMembers everybody all_members].
  destruct ((length gs =? 0)%nat && (length ms =? 0)%nat); cbn [orb andb negb]; [done|].
  rewrite length_app, Nat2Z.inj_add, Z.add_assoc. set (k := n + _). assert (0 <= k) as Hk by lia. clearbody k. clear Hn. revert k Hk.
  induction IH as [|g gs Hg Hgs IHgs]; intros k Hk; [cbn; by rewrite Z.add_0_r|]. specialize (Hg k Hk). cbn [existsb].
  rewrite bind_cons, length_app. pose proof (has_members g) as Hm. destruct (everybody g) eqn:Eg; cbn [orb].
  - destruct (sumMembers g true k) as [a b]. cbn in Hg. destruct Hg as [-> Hb]. cbn. done.
  - specialize (Hm eq_refl). rewrite Hg. rewrite (proj2 (Z.eqb_neq _ _)) by (destruct (all_members g); cbn; [done|lia]).
    specialize (IHgs (k + Z.of_nat (length (all_members g))) ltac:(lia)). rewrite Nat2Z.inj_add, Z.add_assoc. exact IHgs.
Qed.

Definition names_text (names : list cstr) : cstr := names ≫= (fun n => n ++ [BLANK]).

Lemma cat_names_spec buf names : cat_names buf names = buf ++ names_text names.
Proof.
  revert buf. induction names as [|n names IH]; intros buf; [by rewrite app_nil_r|]. unfold cat_names. cbn [foldl].
  fold (cat_names (buf ++ n ++ [BLANK]) names). rewrite IH. unfold names_text. by rewrite bind_cons, <- !app_assoc.
Qed.

Lemma names_text_app l k : names_text (l ++ k) = names_text l ++ names_text k.
Proof. apply bind_app. Qed.

Lemma catMembers_all g buf : catMembers g buf true = Some (buf ++ names_text (all_members g)).
Proof.
  revert buf. induction g as [name ms gs IH] using gData_nested_ind. intros buf. cbn [catMembers all_members].
  rewrite cat_names_spec, names_text_app, app_assoc. generalize (buf ++ names_text ms) as b.
  induction IH as [|g gs Hg Hgs IHgs]; intros b; [by rewrite app_nil_r|]. rewrite Hg. cbn [mbind option_bind].
  by rewrite IHgs, bind_cons, names_text_app, app_assoc.
Qed.

(** The name of a subgroup as it is printed. *)
Definition group_text (g : gData) : cstr :=
  group g ++ (if bool_decide (last (group g) = Some SLASH) then [BLANK] else [SLASH; BLANK]).

Lemma cat_group_spec buf g : group g <> [] -> cat_group buf g = Some (buf ++ group_text g).
Proof.
  intros Hg. unfold cat_group, group_text. destruct (last (group g)) as [c|] eqn:E; [|by apply last_None in E].
  cbn [mbind option_bind]. do 3 f_equal. unfold ch_eqb. apply eq_sym.
  destruct (decide (c = SLASH)) as [->|]; [by rewrite !bool_decide_eq_true_2|by rewrite !bool_decide_eq_false_2 by congruence].
Qed.

Lemma catMembers_direct g buf : Forall (fun g => group g <> []) (subgroups g) ->
  catMembers g buf false = Some (buf ++ names_text (members g) ++ (subgroups g ≫= group_text)).
Proof.
  destruct g as [name ms gs]. cbn [members subgroups catMembers]. intros Hgs. rewrite cat_names_spec, app_assoc.
  generalize (buf ++ names_text ms) as b. induction Hgs as [|g gs Hg Hgs IH]; intros b; [by rewrite app_nil_r|].
  rewrite cat_group_spec by done. cbn [mbind option_bind]. by rewrite IH, bind_cons, app_assoc.
Qed.

(** Names that leave room for what is put behind them. *)
Definition short_name (k : Z) (n : cstr) : Prop := strlen n <= k.

Lemma text_length {A} (f : A -> cstr) (l : list A) k : Forall (fun x => strlen (f x) <= k) l -> strlen (l ≫= f) <= k * Z.of_nat (length l).
Proof.
  unfold strlen. induction 1 as [|x l Hx Hl IH]; [cbn; lia|]. rewrite bind_cons, length_app. cbn [length]. lia.
Qed.

Lemma in_buffer_spec size text : strlen text < size -> in_buffer size text = Some text.
Proof. intros H. unfold in_buffer. by rewrite (proj2 (Z.ltb_ge _ _)) by lia. Qed.

(** The members of a group as they are printed. *)
Definition members_text (g : gData) (r : bool) : cstr :=
  if r then if everybody g then lit "all" else names_text (all_members g)
  else if (length (subgroups g) =? 0)%nat && (length (members g) =? 0)%nat then lit "all"
  else names_text (members g) ++ (subgroups g ≫= group_text).

(** No name has more than 58 characters, that of a subgroup no more than 57. *)
Definition names_fit (g : gData) (r : bool) : Prop :=
  if r then Forall (short_name 58) (all_members g)
  else Forall (short_name 58) (members g) /\ Forall (fun g => group g <> [] /\ short_name 57 (group g)) (subgroups g).

Lemma getGroupMembers_spec g r : names_fit g r -> getGroupMembers g r = Some (members_text g r).
Proof.
  unfold getGroupMembers, members_text, names_fit, MAX_LSB_NAME_LEN, short_name. destruct r.
  - intros Hs. pose proof (sumMembers_all g 0 ltac:(lia)) as Hsum. pose proof (has_members g) as Hm. destruct (everybody g).
    + by rewrite (proj1 Hsum).
    + rewrite Hsum. cbn [fst]. specialize (Hm eq_refl). assert (0 < Z.of_nat (length (all_members g))) by (destruct (all_members g); cbn; [done|lia]).
      rewrite (proj2 (Z.eqb_neq _ _)) by lia. rewrite catMembers_all. cbn [mbind option_bind app]. apply in_buffer_spec.
      pose proof (text_length (fun n => n ++ [BLANK]) (all_members g) 59) as Hl. unfold names_text, strlen in *.
      assert (Forall (fun x => Z.of_nat (length (x ++ [BLANK])) <= 59) (all_members g)) as Hf.
      { eapply Forall_impl; [exact Hs|]. intros x Hx. rewrite length_app. cbn. cbn in Hx. lia. }
      specialize (Hl Hf). lia.
  - intros [Hs Hg]. assert ((sumMembers g false 0).1 = Z.of_nat (length (members g)) + Z.of_nat (length (subgroups g))) as ->.
    { destruct g as [name ms gs]. cbn. rewrite andb_false_r. cbn. lia. }
    destruct (length (subgroups g) =? 0)%nat eqn:E1, (length (members g) =? 0)%nat eqn:E2; cbn [andb];
      rewrite ?Nat.eqb_eq, ?Nat.eqb_neq in *; [by rewrite E1, E2| | |];
      (rewrite (proj2 (Z.eqb_neq _ _)) by lia;
       rewrite catMembers_direct by (eapply Forall_impl; [exact Hg|]; by intros x [? ?]); cbn [mbind option_bind app]; apply in_buffer_spec;
       pose proof (text_length (fun n => n ++ [BLANK]) (members g) 59) as Hl1; pose proof (text_length group_text (subgroups g) 59) as Hl2;
       unfold names_text, strlen in *; rewrite length_app;
       assert (Forall (fun x => Z.of_nat (length (x ++ [BLANK])) <= 59) (members g)) as Hf1
         by (eapply Forall_impl; [exact Hs|]; intros x Hx; rewrite length_app; cbn; cbn in Hx; lia);
       assert (Forall (fun x => Z.of_nat (length (group_text x)) <= 59) (subgroups g)) as Hf2
         by (eapply Forall_impl; [exact Hg|]; intros x [_ Hx]; unfold group_text; rewrite length_app; case_bool_decide; cbn; cbn in Hx; lia);
       specialize (Hl1 Hf1); specialize (Hl2 Hf2); lia).
Qed.

(** ** The reply on the wire *)

Section Reply.
Context `{XdrPrims}.

Definition ent_size (e : groupInfoEnt) : Z := 4 + ((4 + rndup (strlen (gi_group e))) + (4 + rndup (strlen (gi_memberList e)))).

Lemma ent_carries e : ok_groupInfoEnt e -> carries (ent_size e) (xdr_arrayElement xdr_groupInfoEnt) e e.
Proof.
  intros [Hg Hm]. apply arrayElement_carries.
  - unfold xdr_groupInfoEnt. apply carries_bind with (gi_group e); [by apply carries_via, var_string_size|].
    rewrite <- (Z.add_0_r (4 + rndup (strlen (gi_memberList e)))). apply carries_bind with (gi_memberList e); [by apply carries_via, var_string_size|].
    destruct e. apply carries_ret.
  - destruct Hg as [_ Hg], Hm as [_ Hm]. apply rndup_le in Hg, Hm. change (rndup VAR_MAX) with VAR_MAX in *. unfold VAR_MAX in *. lia.
Qed.

Lemma reply_carries es : len es <= 1000 -> Forall ok_groupInfoEnt es ->
  carries (4 + foldr (fun e s => ent_size e + s) 0 es) xdr_groupInfoReply (GroupInfoReply (len es) es) (GroupInfoReply (len es) es).
Proof.
  intros Hl Hes. unfold xdr_groupInfoReply. apply carries_bind with (len es).
  - apply carries_via, int_carries. pose proof (len_nonneg es). unfold int_ok, in_sint. cbn. lia.
  - rewrite <- (Z.add_0_r (foldr _ _ _)). apply carries_bind with es; [|apply carries_ret]. unfold xdr_elems.
    apply carries_sizes; [done|unfold len; lia|]. eapply Forall_impl; [exact Hes|]. intros e He. by apply ent_carries.
Qed.

(** What [sizeofGroupInfoReply] adds for the texts of the groups. *)
Definition text_size (e : groupInfoEnt) : Z := ALIGNWORD_ (strlen (gi_group e) + 1) + ALIGNWORD_ (strlen (gi_memberList e) + 1).

Lemma sizeof_sum es b :
  foldl (fun l e => l + ALIGNWORD_ (strlen (gi_group e) + 1) + ALIGNWORD_ (strlen (gi_memberList e) + 1)) b es =
  b + foldr (fun e s => text_size e + s) 0 es.
Proof. revert b. induction es as [|e es IH]; intros b; cbn [foldl foldr]; [lia|]. rewrite IH. unfold text_size. lia. Qed.

Lemma text_size_bounds e : ok_groupInfoEnt e -> ent_size e <= 12 + text_size e /\ 0 <= text_size e <= 2 ^ 19 + 100.
Proof.
  intros [[_ Hg] [_ Hm]]. unfold ent_size, text_size, VAR_MAX in *.
  assert (0 <= strlen (gi_group e) /\ 0 <= strlen (gi_memberList e)) as [? ?] by (unfold strlen; lia).
  pose proof (rndup_align (strlen (gi_group e) + 1) ltac:(lia)). pose proof (rndup_align (strlen (gi_memberList e) + 1) ltac:(lia)).
  pose proof (rndup_le (strlen (gi_group e)) (strlen (gi_group e) + 1) ltac:(lia)).
  pose proof (rndup_le (strlen (gi_memberList e)) (strlen (gi_memberList e) + 1) ltac:(lia)).
  rewrite !alignword_spec in * by lia. split; [lia|]. Z.to_euclidean_division_equations. lia.
Qed.

(** The estimate for the buffer is large enough. *)
Lemma sizeof_enough es : len es <= 1000 -> Forall ok_groupInfoEnt es ->
  4 + foldr (fun e s => ent_size e + s) 0 es <= sizeofGroupInfoReply es < 2 ^ 30.
Proof.
  intros Hl Hes. unfold sizeofGroupInfoReply. rewrite sizeof_sum.
  assert (0 <= len es) as H0 by apply len_nonneg.
  rewrite alignword_spec by (unfold len in *; lia).
  assert (foldr (fun e s => ent_size e + s) 0 es <= 12 * len es + foldr (fun e s => text_size e + s) 0 es /\
          0 <= foldr (fun e s => text_size e + s) 0 es <= (2 ^ 19 + 100) * len es) as [H1 H2].
  { clear Hl H0. unfold len. induction Hes as [|e es He Hes IH]; [cbn; lia|]. pose proof (text_size_bounds e He). cbn [foldr length]. lia. }
  unfold len in *. pose proof (Z.mod_pos_bound (16 + Z.of_nat (length es) * 16 + Z.of_nat (length es) * 4) 4 ltac:(lia)). lia.
Qed.

Lemma reply_written es reply more : len es <= 1000 -> Forall ok_groupInfoEnt es -> 0 <= reply < 2 ^ 16 ->
  exists bytes hdr rest,
    xdr_encodeMsg (sizeofGroupInfoReply es + ALIGNWORD_ LSF_HEADER_LEN) (Some (GroupInfoReply (len es) es))
      (Header 0 reply 0 OPENLAVA_VERSION 0 0) xdr_groupInfoReply None = Some (bytes, hdr) /\
    opCode hdr = reply /\ readDecodeHdr_ (bytes ++ more) = (0, Some hdr, rest) /\
    readDecodeMsg_ rest hdr xdr_groupInfoReply false = (0, Some (None, GroupInfoReply (len es) es), more).
Proof.
  intros Hl Hes Hr. destruct (reply_carries es Hl Hes) as (n & bs & Hn & Hc). destruct (sizeof_enough es Hl Hes) as [Hs1 Hs2].
  assert (ALIGNWORD_ LSF_HEADER_LEN = 20) as -> by reflexivity.
  destruct (message_round_trip xdr_groupInfoReply (GroupInfoReply (len es) es) n bs (Header 0 reply 0 OPENLAVA_VERSION 0 0) None
              (sizeofGroupInfoReply es + 20) more Hc) as (bytes & hdr & rest & H1 & -> & H3 & H4); [|done|lia|lia|].
  - unfold ok_header, u_int_ok, in_uint, OPENLAVA_VERSION. cbn. lia.
  - exists bytes, (set_header (len bytes - LSF_HEADER_LEN) OPENLAVA_VERSION (Header 0 reply 0 OPENLAVA_VERSION 0 0)), rest. by split_and!.
Qed.

(** A reply without a structure is a header only. *)
Lemma header_written room reply more : LSF_HEADER_LEN <= room -> 0 <= reply < 2 ^ 16 ->
  exists bytes hdr,
    xdr_encodeMsg room (None : option groupInfoReply) (Header 0 reply 0 OPENLAVA_VERSION 0 0) xdr_groupInfoReply None = Some (bytes, hdr) /\
    opCode hdr = reply /\ length_ hdr = 0 /\ readDecodeHdr_ (bytes ++ more) = (0, Some hdr, more).
Proof.
  intros Hroom Hr. set (hdr := Header 0 reply 0 OPENLAVA_VERSION 0 0).
  destruct (header_carries hdr) as [b [L E D]].
  { unfold hdr, ok_header, u_int_ok, in_uint, OPENLAVA_VERSION. cbn. lia. }
  exists b, hdr. split_and!; [|done..|].
  - unfold xdr_encodeMsg. rewrite (proj2 (Z.ltb_ge _ _)) by lia. cbn [mbind option_bind].
    change (set_header (len [] + len []) OPENLAVA_VERSION _) with hdr. rewrite E by (unfold LSF_HEADER_LEN; lia).
    cbn [mbind option_bind]. by rewrite !app_nil_r.
  - unfold readDecodeHdr_, LSF_HEADER_LEN. rewrite (proj2 (Z.ltb_ge _ _)) by (rewrite len_app; pose proof (len_nonneg more); lia).
    destruct (len_take_drop b more 16 L) as [-> ->]. pose proof (D [] []) as Hd. rewrite app_nil_l, app_nil_r in Hd.
    change (len (@nil Z)) with 0 in Hd. by rewrite Hd.
Qed.
End Reply.

(** ** Queries *)

(** All names that a reply about the group can show. *)
Definition group_names (g : gData) : list cstr := group g :: all_members g ++ (group <$> subgroups g).

Definition group_ok (g : gData) : Prop :=
  Forall (fun n => n <> [] /\ no_nul n /\ short_name 57 n) (group_names g) /\ Z.of_nat (length (group_names g)) <= 4000.

Definition group_answer (r : bool) (g : gData) : groupInfoEnt := GroupInfoEnt (group g) (members_text g r).

Lemma direct_members g : members g ⊆ all_members g.
Proof. destruct g as [name ms gs]. cbn. intros x Hx. apply elem_of_app. by left. Qed.

Lemma group_ok_fits g r : group_ok g -> names_fit g r.
Proof.
  intros [Hn _]. rewrite Forall_forall in Hn. unfold names_fit, short_name, group_names in *.
  assert (forall n, n ∈ all_members g -> strlen n <= 58) as Ha.
  { intros n Hin. destruct (Hn n) as (_ & _ & Hs); [|unfold short_name in Hs; lia]. apply elem_of_cons. right. apply elem_of_app. by left. }
  destruct r; [by apply Forall_forall|]. split; [apply Forall_forall; intros n Hin; by apply Ha, direct_members|].
  apply Forall_forall. intros s Hs. destruct (Hn (group s)) as (H1 & _ & H3); [|done].
  apply elem_of_cons. right. apply elem_of_app. right. by apply list_elem_of_fmap_2.
Qed.

Lemma no_nul_bind {A} (f : A -> cstr) (l : list A) : Forall (fun x => no_nul (f x)) l -> no_nul (l ≫= f).
Proof.
  unfold no_nul. intros Hl [x [Hx Hin]]%list_elem_of_bind. rewrite Forall_forall in Hl. by apply (Hl x).
Qed.

Lemma answer_ok g r : group_ok g -> ok_groupInfoEnt (group_answer r g).
Proof.
  intros [Hn Hc]. unfold ok_groupInfoEnt, var_ok, str_ok, group_answer, VAR_MAX. cbn [gi_group gi_memberList].
  unfold group_names in *. apply Forall_cons in Hn as [(Hg1 & Hg2 & Hg3) Hn]. apply Forall_app in Hn as [Ha Hs].
  rewrite Forall_fmap in Hs. cbn [length] in Hc. rewrite length_app, length_fmap in Hc. unfold short_name in *.
  split; [split; [done|lia]|].
  assert (forall ns, Forall (fun n => n <> [] /\ no_nul n /\ strlen n <= 57) ns -> no_nul (names_text ns) /\ strlen (names_text ns) <= 59 * Z.of_nat (length ns)) as Ht.
  { intros ns Hns. split.
    - apply no_nul_bind. eapply Forall_impl; [exact Hns|]. intros n (_ & Hn & _). unfold no_nul in *. rewrite elem_of_app. intros [?|Hb%list_elem_of_singleton]; [done|discriminate].
    - apply text_length. eapply Forall_impl; [exact Hns|]. intros n (_ & _ & Hl). unfold strlen in *. rewrite length_app. cbn. lia. }
  assert (no_nul (lit "all") /\ strlen (lit "all") <= 2 ^ 18) as Hall by (split; [apply (bool_decide_unpack _); by vm_compute|by vm_compute]).
  unfold members_text. destruct r.
  - destruct (everybody g); [exact Hall|]. destruct (Ht _ Ha) as [H1 H2]. split; [done|lia].
  - destruct (_ && _); [exact Hall|].
    assert (Forall (fun n => n <> [] /\ no_nul n /\ strlen n <= 57) (members g)) as Hm.
    { apply Forall_forall. intros n Hin. rewrite Forall_forall in Ha. by apply Ha, direct_members. }
    assert (length (members g) <= length (all_members g))%nat as Hlen by (destruct g; cbn; rewrite length_app; lia).
    destruct (Ht _ Hm) as [H1 H2]. split.
    + unfold no_nul in *. rewrite elem_of_app. intros [?|Hb]; [done|]. revert Hb. apply no_nul_bind.
      eapply Forall_impl; [exact Hs|]. intros s (_ & Hs1 & _). unfold no_nul, group_text in *. rewrite elem_of_app. intros [?|Hb]; [done|].
      case_bool_decide; repeat (apply elem_of_cons in Hb as [?|Hb]; [discriminate|]); by apply elem_of_nil in Hb.
    + pose proof (text_length group_text (subgroups g) 59) as Hl. unfold strlen in *. rewrite length_app.
      assert (Z.of_nat (length (subgroups g ≫= group_text)) <= 59 * Z.of_nat (length (subgroups g))); [|lia]. apply Hl.
      eapply Forall_impl; [exact Hs|]. intros s (_ & _ & Hs1). unfold group_text. rewrite length_app. case_bool_decide; cbn; cbn in Hs1; lia.
Qed.

(** *** What a request is to be answered *)

Definition is_named (name : cstr) (g : gData) : bool := bool_decide (group g = name).

(** The groups of a table that are named, up to the first name that is no group. *)
Fixpoint asked_groups (table : list gData) (names : list cstr) : list gData :=
  match names with
  | [] => []
  | name :: names =>
      match find (is_named name) table with Some g => g :: asked_groups table names | None => [] end
  end.

Definition all_known (table : list gData) (names : list cstr) : bool :=
  forallb (fun name => bool_decide (name ∈ group <$> table)) names.

Definition look_up (table : list gData) (req : infoReq) : Z * list gData :=
  if has (in_options req) GRP_ALL then (LSBE_NO_ERROR, table)
  else (if bool_decide (in_names req <> []) && all_known table (in_names req) then LSBE_NO_ERROR else LSBE_BAD_GROUP,
        asked_groups table (in_names req)).

Definition shown (table : list gData) : list gData := List.filter (fun g => negb (SKIP_HOST_GROUP (group g))) table.

(** The code and the groups for a request. *)
Definition group_reply (usergroups hostgroups : list gData) (req : infoReq) : Z * list gData :=
  let users := look_up usergroups req in
  let hosts := look_up (shown hostgroups) req in
  match has (in_options req) HOST_GRP, has (in_options req) USER_GRP with
  | true, both =>
      if bool_decide (hostgroups = []) then (LSBE_NO_HOST_GROUP, [])
      else if both && (hosts.1 =? LSBE_NO_ERROR) then users else hosts
  | false, true => if bool_decide (usergroups = []) then (LSBE_NO_USER_GROUP, []) else users
  | false, false => (if bool_decide (usergroups = []) then LSBE_NO_USER_GROUP else LSBE_LSBLIB, [])
  end.

Lemma is_named_spec name g : is_named name g = true <-> group g = name.
Proof. unfold is_named. by rewrite bool_decide_eq_true. Qed.

Lemma find_is_named name table :
  match find (is_named name) table with
  | Some g => g ∈ table /\ group g = name /\ name ∈ group <$> table
  | None => name ∉ group <$> table
  end.
Proof.
  destruct (find (is_named name) table) as [g|] eqn:E.
  - apply find_some in E as [Hin%list_elem_of_In Hn%is_named_spec]. split_and!; [done..|]. subst. by apply list_elem_of_fmap_2.
  - intros (g & -> & Hin)%list_elem_of_fmap. apply list_elem_of_In in Hin.
    pose proof (find_none _ _ E g Hin) as H. unfold is_named in H. by rewrite bool_decide_eq_true_2 in H.
Qed.

Lemma asked_groups_in table names : Forall (fun g => g ∈ table) (asked_groups table names).
Proof.
  induction names as [|name names IH]; [constructor|]. cbn. pose proof (find_is_named name table) as H.
  destruct (find _ _); [|constructor]. constructor; [apply H|done].
Qed.

Lemma asked_groups_length table names :
  (length (asked_groups table names) <= length names)%nat /\
  (length (asked_groups table names) =? length names)%nat = all_known table names.
Proof.
  induction names as [|name names [IH1 IH2]]; [done|]. cbn. pose proof (find_is_named name table) as H. destruct (find _ _).
  - destruct H as (_ & _ & H). rewrite bool_decide_eq_true_2 by done. cbn. rewrite IH2. split; [lia|done].
  - rewrite bool_decide_eq_false_2 by done. cbn. split; [lia|done].
Qed.

(** The code that the lengths give. *)
Lemma bad_group_spec table (f : gData -> groupInfoEnt) names :
  (if bad_group (f <$> asked_groups table names) names then LSBE_BAD_GROUP else LSBE_NO_ERROR) =
  (if bool_decide (names <> []) && all_known table names then LSBE_NO_ERROR else LSBE_BAD_GROUP).
Proof.
  unfold bad_group. rewrite length_fmap. destruct (asked_groups_length table names) as [_ E]. rewrite E.
  destruct (all_known table names) eqn:K; cbn [negb].
  - rewrite orb_false_r, andb_true_r. apply Nat.eqb_eq in E. rewrite E. by destruct names.
  - by rewrite orb_true_r, andb_false_r.
Qed.

(** The configuration: the names and the numbers of members have bounds, and each user group is
    the one that the user record with its name has. *)
Record groups_config (usergroups hostgroups : list gData) (gdata_of : cstr -> option gData) : Prop := {
  gc_ok : Forall group_ok (usergroups ++ hostgroups);
  gc_users : Forall (fun g => gdata_of (group g) = Some g) usergroups;
  gc_few : len usergroups <= MAX_GROUPS /\ len hostgroups <= MAX_GROUPS
}.

Section Queries.
Context (usergroups hostgroups : list gData) (gdata_of : cstr -> option gData) (Hconf : groups_config usergroups hostgroups gdata_of).

Lemma user_group g : g ∈ usergroups -> gdata_of (group g) = Some g /\ group_ok g.
Proof.
  intros Hin. destruct Hconf as [[Hok _]%Forall_app Hu _]. rewrite Forall_forall in Hok, Hu. split; [by apply Hu|by apply Hok].
Qed.

Lemma host_group g : g ∈ hostgroups -> group_ok g.
Proof. intros Hin. destruct Hconf as [[_ Hok]%Forall_app _ _]. rewrite Forall_forall in Hok. by apply Hok. Qed.

Lemma shown_spec g : g ∈ shown hostgroups -> g ∈ hostgroups.
Proof. unfold shown. rewrite list_elem_of_In, filter_In. intros [Hin _]. by apply list_elem_of_In. Qed.

Lemma user_entry g r : g ∈ usergroups -> getGroupInfoEntFromUdata gdata_of (group g) r = Some (group_answer r g).
Proof.
  intros [Hg Hok]%user_group. unfold getGroupInfoEntFromUdata. rewrite Hg. cbn [mbind option_bind].
  by rewrite getGroupMembers_spec by by apply group_ok_fits.
Qed.

Lemma host_entry g r : g ∈ hostgroups -> copyHostGroup g r = Some (group_answer r g).
Proof. intros Hok%host_group. unfold copyHostGroup. by rewrite getGroupMembers_spec by by apply group_ok_fits. Qed.

Lemma existsb_named name : existsb (fun g => bool_decide (group g = name)) usergroups = bool_decide (is_Some (find (is_named name) usergroups)).
Proof.
  pose proof (find_is_named name usergroups) as H. destruct (find _ _) as [g|].
  - rewrite bool_decide_eq_true_2 by done. apply existsb_exists. exists g. destruct H as (Hin & Hn & _).
    split; [by apply list_elem_of_In|by apply bool_decide_eq_true_2].
  - rewrite bool_decide_eq_false_2 by (by intros [? ?]). apply not_true_iff_false. intros (g & Hin%list_elem_of_In & Hn)%existsb_exists.
    apply bool_decide_eq_true in Hn. subst. apply H. by apply list_elem_of_fmap_2.
Qed.

Lemma named_groups_spec names r : named_groups usergroups gdata_of names r = Some (group_answer r <$> asked_groups usergroups names).
Proof.
  induction names as [|name names IH]; [done|]. cbn [named_groups asked_groups]. rewrite existsb_named.
  pose proof (find_is_named name usergroups) as H. destruct (find _ _) as [g|]; [|done]. destruct H as (Hin & <- & _).
  rewrite bool_decide_eq_true_2, user_entry, IH by done. done.
Qed.

Lemma find_shown name : find (fun g => negb (SKIP_HOST_GROUP (group g)) && bool_decide (group g = name)) hostgroups =
  find (is_named name) (shown hostgroups).
Proof.
  clear Hconf. unfold shown. induction hostgroups as [|g gs IH]; [done|]. cbn [find List.filter].
  destruct (SKIP_HOST_GROUP (group g)); cbn [negb andb find]; [done|]. fold (is_named name g). by destruct (is_named name g).
Qed.

Lemma getSpecifiedHostGroup_spec room names r : (length (asked_groups (shown hostgroups) names) <= room)%nat ->
  getSpecifiedHostGroup room names hostgroups r = Some (group_answer r <$> asked_groups (shown hostgroups) names).
Proof.
  revert room. induction names as [|name names IH]; intros room Hroom; [done|]. cbn [getSpecifiedHostGroup asked_groups] in *.
  rewrite find_shown. pose proof (find_is_named name (shown hostgroups)) as H. destruct (find _ _) as [g|]; [|done].
  destruct H as (Hin & _ & _). destruct room as [|room]; cbn in Hroom; [lia|].
  rewrite host_entry, IH by (lia || by apply shown_spec). done.
Qed.

Lemma getGroupInfoEnt_spec req r :
  (if has (in_options req) GRP_ALL then es ← getGroupInfoEnt usergroups gdata_of None r; Some (LSBE_NO_ERROR, es)
   else es ← getGroupInfoEnt usergroups gdata_of (Some (in_names req)) r;
        Some (if bad_group es (in_names req) then LSBE_BAD_GROUP else LSBE_NO_ERROR, es)) =
  Some (prod_map id (fmap (group_answer r)) (look_up usergroups req)).
Proof.
  unfold look_up. destruct (has _ GRP_ALL); unfold getGroupInfoEnt.
  - rewrite (proj2 (mapM_Some (fun g => getGroupInfoEntFromUdata gdata_of (group g) r) usergroups (group_answer r <$> usergroups))); [done|].
    apply Forall2_fmap_r, Forall_Forall2_diag, Forall_forall. intros g Hin. by apply user_entry.
  - rewrite named_groups_spec. cbn [mbind option_bind]. by rewrite bad_group_spec.
Qed.

Lemma host_answer req r :
  (has (in_options req) GRP_ALL = false -> (length (asked_groups (shown hostgroups) (in_names req)) <= length hostgroups)%nat) ->
  (if has (in_options req) GRP_ALL then es ← getAllHostGroup hostgroups r; Some (LSBE_NO_ERROR, es)
   else es ← getSpecifiedHostGroup (length hostgroups) (in_names req) hostgroups r;
        Some (if bad_group es (in_names req) then LSBE_BAD_GROUP else LSBE_NO_ERROR, es)) =
  Some (prod_map id (fmap (group_answer r)) (look_up (shown hostgroups) req)).
Proof.
  intros Hroom. unfold look_up. destruct (has _ GRP_ALL).
  - unfold getAllHostGroup. fold (shown hostgroups).
    rewrite (proj2 (mapM_Some (fun g => copyHostGroup g r) (shown hostgroups) (group_answer r <$> shown hostgroups))); [done|].
    apply Forall2_fmap_r, Forall_Forall2_diag, Forall_forall. intros g Hin. by apply host_entry, shown_spec.
  - rewrite getSpecifiedHostGroup_spec by by apply Hroom. cbn [mbind option_bind]. by rewrite bad_group_spec.
Qed.

Lemma look_up_code table req : (look_up table req).1 = LSBE_NO_ERROR \/ (look_up table req).1 = LSBE_BAD_GROUP.
Proof. unfold look_up. destruct (has _ GRP_ALL); [by left|]. destruct (_ && _); [by left|by right]. Qed.

(** The code and the groups that are put into the reply. *)
Lemma reply_groups req : let o := in_options req in
  (has o HOST_GRP = true -> has o GRP_ALL = false -> (length (asked_groups (shown hostgroups) (in_names req)) <= length hostgroups)%nat) ->
  (if has o HOST_GRP then
     if (length hostgroups =? 0)%nat then Some (LSBE_NO_HOST_GROUP, []) else checkGroups usergroups hostgroups gdata_of req
   else if (length usergroups =? 0)%nat then Some (LSBE_NO_USER_GROUP, []) else checkGroups usergroups hostgroups gdata_of req) =
  Some (prod_map id (fmap (group_answer (has o GRP_RECURSIVE))) (group_reply usergroups hostgroups req)).
Proof.
  intros o Hroom. unfold group_reply, checkGroups. fold o. set (r := has o GRP_RECURSIVE).
  destruct (has o HOST_GRP); cbn [negb andb].
  - specialize (Hroom eq_refl). unfold o. rewrite host_answer by done. cbn [mbind option_bind]. fold o.
    rewrite (bool_decide_ext (hostgroups = []) (length hostgroups = 0)%nat) by (by rewrite length_zero_iff_nil).
    destruct (Nat.eqb_spec (length hostgroups) 0) as [E|E]; [by rewrite bool_decide_eq_true_2|rewrite bool_decide_eq_false_2 by done].
    cbn [prod_map fst]. change (id ?x) with x. destruct (_ =? LSBE_NO_ERROR); cbn [negb]; [rewrite andb_true_r|by rewrite andb_false_r].
    destruct (has o USER_GRP); [|done]. unfold o. apply getGroupInfoEnt_spec.
  - rewrite (bool_decide_ext (usergroups = []) (length usergroups = 0)%nat) by (by rewrite length_zero_iff_nil).
    destruct (Nat.eqb_spec (length usergroups) 0) as [E|E]; [rewrite bool_decide_eq_true_2 by done|rewrite bool_decide_eq_false_2 by done];
      destruct (has o USER_GRP); cbn [mbind option_bind negb]; try done. cbn [fst]. rewrite Z.eqb_refl. cbn [negb]. unfold o. apply getGroupInfoEnt_spec.
Qed.

Lemma look_up_ok table req : Forall group_ok table -> Forall group_ok (look_up table req).2.
Proof.
  intros Hok. unfold look_up. destruct (has _ GRP_ALL); [done|]. cbn. eapply Forall_impl; [apply asked_groups_in|].
  rewrite Forall_forall in Hok. exact Hok.
Qed.

Lemma group_reply_ok req : Forall group_ok (group_reply usergroups hostgroups req).2.
Proof.
  destruct Hconf as [[Hu Hh]%Forall_app _ _].
  assert (Forall group_ok (shown hostgroups)) as Hs.
  { rewrite Forall_forall in *. intros g Hg. by apply Hh, shown_spec. }
  unfold group_reply. destruct (has _ HOST_GRP), (has _ USER_GRP); repeat case_match; try constructor; by apply look_up_ok.
Qed.

Definition has_groups (code : Z) : bool := (code =? LSBE_NO_ERROR) || (code =? LSBE_BAD_GROUP).

Lemma group_reply_code req : 0 <= (group_reply usergroups hostgroups req).1 < 2 ^ 16.
Proof.
  pose proof (look_up_code usergroups req) as H1. pose proof (look_up_code (shown hostgroups) req) as H2.
  unfold group_reply, LSBE_NO_ERROR, LSBE_BAD_GROUP in *.
  destruct (has _ HOST_GRP), (has _ USER_GRP); repeat case_match; cbn; unfold LSBE_NO_HOST_GROUP, LSBE_NO_USER_GROUP, LSBE_LSBLIB; lia.
Qed.

Lemma no_groups req : has_groups (group_reply usergroups hostgroups req).1 = false -> (group_reply usergroups hostgroups req).2 = [].
Proof.
  pose proof (look_up_code usergroups req) as H1. pose proof (look_up_code (shown hostgroups) req) as H2.
  unfold group_reply, has_groups, LSBE_NO_ERROR, LSBE_BAD_GROUP in *.
  destruct (has _ HOST_GRP), (has _ USER_GRP); repeat case_match; cbn; intros Hf; try done; exfalso; apply orb_false_iff in Hf; lia.
Qed.
End Queries.


(** *** A small configuration *)

Definition demo_dev : gData := GData (lit "dev") [lit "ann"; lit "bob"] [].
Definition demo_all : gData := GData (lit "staff") [lit "carl"] [demo_dev].
Definition demo_groups : list gData := [demo_dev; demo_all].
Definition demo_gdata (name : cstr) : option gData := getUGrpData demo_groups (Some name).

Lemma demo_config : groups_config demo_groups [] demo_gdata.
Proof.
  split; [|repeat constructor|by vm_compute].
  repeat (apply Forall_cons_2; [split; [|by vm_compute];
    repeat (apply Forall_cons_2; [split_and!; [discriminate|apply (bool_decide_unpack _); vm_compute; exact I|by vm_compute]|]); constructor|]).
  constructor.
Qed.


(** Names of 59 characters, which fit into [MAX_LSB_NAME_LEN] with their NUL, leave no room
    for the NUL of the text. *)
Example full_names : getGroupMembers (GData (lit "g") [replicate 59 "a"%char] []) true = None.
Proof. vm_compute. reflexivity. Qed.

(** The array for the reply has an entry for each group, but a client can name a group twice. *)
Example named_twice :
  do_groupInfoReq (H := rfc4506) [] [demo_dev] demo_gdata (InfoReq HOST_GRP 2 [lit "dev"; lit "dev"] []) = None.
Proof. vm_compute. reflexivity. Qed.

(** Everybody is a member of a group with an empty subgroup, but the array of its members does not
    say so. *)
Example empty_subgroup :
  let g := GData (lit "g") [lit "ann"] [GData (lit "any") [] []] in
  gMember (lit "zoe") g = true /\ expandGrp g (lit "g") = Some [lit "ann"] /\ getGroupMembers g true = Some (lit "all").
Proof. vm_compute. done. Qed.

(** The text and the array of a group hold the same names, which are those that are found in
    it. *)
Lemma members_agree g gName word : names_fit g true -> everybody g = false ->
  getGroupMembers g true = Some (names_text (all_members g)) /\ expandGrp g gName = Some (all_members g) /\
  gMember word g = bool_decide (word ∈ all_members g).
Proof.
  intros Hf He. rewrite getGroupMembers_spec, expandGrp_spec, gMember_spec, He by done. unfold members_text. rewrite He.
  pose proof (has_members g He) as Hm. destruct (all_members g); [done|]. by split_and!.
Qed.
