(* ===== verification/UserSets.v ===== *)
(** * Ancestors and descendants of users and groups (mbd.grp.c, mbd.misc.c)

    For every user and every group of users mbatchd keeps the sets of its parents,
    ancestors, children and descendants, which decide to whose slots a job counts.
    [addUserData] makes the record of a user, [uDataGroupCreate] marks the groups, and
    [setuDataCreate] fills the sets on a walk through each group ([traverseGroupTree]). Sets
    are shared: a group that stands for all users has [allUsersSet] itself as its
    children, and observers of this set tell the groups above of new users. Therefore the
    sets are in a store, and a record has references into it.

    [None] is an access outside of an array or a set, or through a null pointer. Memory is not freed. *)

From S2P Require Import Prelude CLib Accounting Xdr LsbXdr BitSet Groups.

Inductive field := Children | Descendants | Parents | Ancestors.

(** The global sets, and those that belong to a record. *)
Inductive setref := AllUsers | AllGroups | AllAncestors | Field (u : ptr) (f : field).

#[export] Instance field_eq_dec : EqDecision field. Proof. solve_decision. Defined.
#[export] Instance setref_eq_dec : EqDecision setref. Proof. solve_decision. Defined.

Definition field_code (f : field) : Z := match f with Children => 0 | Descendants => 1 | Parents => 2 | Ancestors => 3 end.
Definition setref_code (r : setref) : Z + Z * Z :=
  match r with AllUsers => inl 0 | AllGroups => inl 1 | AllAncestors => inl 2 | Field u f => inr (u, field_code f) end.
Definition code_field (z : Z) : field := if z =? 0 then Children else if z =? 1 then Descendants else if z =? 2 then Parents else Ancestors.
Definition code_setref (c : Z + Z * Z) : setref :=
  match c with inl 0 => AllUsers | inl 1 => AllGroups | inl _ => AllAncestors | inr (u, f) => Field u (code_field f) end.

#[export] Instance setref_countable : Countable setref.
Proof. apply (inj_countable' setref_code code_setref). by intros [| | |u []]. Defined.

(** [struct uData]: the fields for groups. *)
Record uData := UData {
  user : cstr; uDataIndex : Z; flags : Z; gdata : option gData;
  children : option setref; descendants : option setref; parents : option setref; ancestors : option setref }.

(** The hash table of users, their records, the table [uDataPtrTb] up to [_cur_], the sets,
    and the sets that the observers of [allUsersSet] have in [extra]. *)
Record ustate := UState {
  uDataList : gmap cstr ptr; records : gmap ptr uData; base : list ptr; tab_size : Z;
  sets : gmap setref LS_BITSET_T; all_observers : list (option setref) }.

Definition set_records (f : gmap ptr uData -> gmap ptr uData) (st : ustate) : ustate :=
  UState (uDataList st) (f (records st)) (base st) (tab_size st) (sets st) (all_observers st).
Definition set_sets (f : gmap setref LS_BITSET_T -> gmap setref LS_BITSET_T) (st : ustate) : ustate :=
  UState (uDataList st) (records st) (base st) (tab_size st) (f (sets st)) (all_observers st).
Definition upd_record (u : ptr) (f : uData -> uData) : ustate -> ustate := set_records (alter f u).

Definition field_of (f : field) (d : uData) : option setref :=
  match f with Children => children d | Descendants => descendants d | Parents => parents d | Ancestors => ancestors d end.
Definition set_field (f : field) (r : option setref) (d : uData) : uData :=
  let '(UData n i fl g c de p a) := d in
  match f with
  | Children => UData n i fl g r de p a | Descendants => UData n i fl g c r p a
  | Parents => UData n i fl g c de r a | Ancestors => UData n i fl g c de p r
  end.
Definition set_flags (h : Z -> Z) (d : uData) : uData :=
  let '(UData n i fl g c de p a) := d in UData n i (h fl) g c de p a.
Definition set_gdata (g : gData) (d : uData) : uData :=
  let '(UData n i fl _ c de p a) := d in UData n i fl (Some g) c de p a.

(** The set that a field points to. *)
Definition ref_of (st : ustate) (u : ptr) (f : field) : option setref := records st !! u ≫= field_of f.

Definition USER_UPDATE : Z := 0x002.
Definition USER_ALL : Z := 0x020.

(** mbd.init.c: the table and the sets at the start. *)
Definition ustart : ustate :=
  UState ∅ ∅ [] MAX_GROUPS
    (<[AllUsers := setAllowObservers (setCreate MAX_GROUPS)]> (<[AllGroups := setCreate MAX_GROUPS]> {[AllAncestors := setCreate MAX_GROUPS]})) [].

(** ** Sets of records *)

Definition getIndexByuData (st : ustate) (u : ptr) : Z := from_option uDataIndex (-1) (records st !! u).

(** An index equal to the size passes the test; what lies behind the table is taken to be null. *)
Definition getuDataByIndex (st : ustate) (index : Z) : ptr :=
  if tab_size st <? index then NULL else default NULL (base st !! Z.to_nat index).

Definition add_plain (r : setref) (u : ptr) (st : ustate) : option (Z * ustate) :=
  add_notify (Some (getIndexByuData st)) id (fun st => sets st !! r) (fun s => set_sets <[r := s]>) [] u st.

(** The callback of the observers. The sets that they fill have no observers. *)
Definition userSetOnNewUser (extra : option setref) (event : LS_BITSET_EVENT_T) (st : ustate) : option ustate :=
  match extra with
  | Some r => '(_, st) ← add_plain r (entry event) st; Some st
  | None => Some st
  end.

Definition observers_of (r : setref) (st : ustate) : list (LS_BITSET_OBSERVER_T ustate) :=
  if bool_decide (r = AllUsers)
  then (fun extra => setObserverCreate None [(LS_BITSET_EVENT_ENTER, userSetOnNewUser extra)]) <$> all_observers st else [].

(** [setAddElement(set, u)]; the result is -1 when the pointer to the set is null. *)
Definition add_to (r : option setref) (u : ptr) (st : ustate) : option ustate :=
  match r with
  | None => Some st
  | Some r =>
      '(_, st) ← add_notify (Some (getIndexByuData st)) id (fun st => sets st !! r) (fun s => set_sets <[r := s]>) (observers_of r st) u st;
      Some st
  end.

Definition remove_from (r : setref) (u : ptr) (st : ustate) : option ustate :=
  s ← sets st !! r;
  x ← setRemoveElement (Some (getIndexByuData st)) id s u;
  Some match x with inl _ => st | inr s => set_sets <[r := s]> st end.

(** [setIsMember(set, u)] *)
Definition in_set (st : ustate) (r : option setref) (u : ptr) : option Z :=
  match r with
  | None => Some 0
  | Some r => s ← sets st !! r; setIsMember (Some (getIndexByuData st)) id s u
  end.

(** [setOperate(dest, src, LS_SET_UNION)] looks into both sets. *)
Definition union_into (dest src : option setref) (st : ustate) : option ustate :=
  d ← dest; s ← src; ds ← sets st !! d; ss ← sets st !! s;
  Some (set_sets <[d := setOperate ds ss LS_SET_UNION]> st).

(** The records in a set, in the order of an iteration. *)
Definition records_in (st : ustate) (r : option setref) : option (list ptr) :=
  r ← r; s ← sets st !! r; each_object (Some (getuDataByIndex st)) s.

Definition foldM {A S} (f : A -> S -> option S) (l : list A) (s : S) : option S :=
  foldl (fun s a => s ← s; f a s) (Some s) l.

(** Makes the set of a field when it has none. *)
Definition check_field (u : ptr) (f : field) (st : ustate) : option ustate :=
  d ← records st !! u;
  Some match field_of f d with
       | Some _ => st
       | None => upd_record u (set_field f (Some (Field u f))) (set_sets <[Field u f := setCreate MAX_GROUPS]> st)
       end.

Definition checkuDataSet (u : ptr) (st : ustate) : option ustate :=
  st ← check_field u Children st; st ← check_field u Descendants st; st ← check_field u Parents st; check_field u Ancestors st.

(** ** Records of users *)

Definition uDataTableAddEntry (u : ptr) (st : ustate) : ustate :=
  let size := if tab_size st <=? Z.of_nat (length (base st)) then 2 * tab_size st else tab_size st in
  UState (uDataList st) (records st) (base st ++ [u]) size (sets st) (all_observers st).

Definition others : cstr := lit "others".

(** A new user becomes a member of all groups that stand for everybody. *)
Definition join_group (u g : ptr) (st : ustate) : option ustate :=
  st ← check_field u Parents st;
  st ← check_field u Ancestors st;
  st ← add_to (ref_of st u Parents) g st;
  st ← add_to (ref_of st u Ancestors) g st;
  match ref_of st g Ancestors with
  | Some r => union_into (ref_of st u Ancestors) (Some r) st
  | None => Some st
  end.

(** The end of [addUserData]; the limits of the user are not part of this state. *)
Definition enter_user (u : ptr) (username : cstr) (config : bool) (st : ustate) : option ustate :=
  let st := upd_record u (fun d => UData username (Z.of_nat (length (base st))) (if config then Z.lor (flags d) USER_UPDATE else flags d)
                                     (gdata d) (children d) (descendants d) (parents d) (ancestors d)) st in
  let st := uDataTableAddEntry u st in
  let st := UState (<[username := u]> (uDataList st)) (records st) (base st) (tab_size st) (sets st) (all_observers st) in
  d ← records st !! u;
  if negb (has (flags d) USER_GROUP) && negb (strstr username others) then
    st ← add_to (Some AllUsers) u st;
    gs ← records_in st (Some AllGroups);
    foldM (join_group u) gs st
  else Some st.

Definition addUserData (username : cstr) (override config : bool) (st : ustate) : option (ptr * ustate) :=
  match uDataList st !! username with
  | Some u => if override then st ← enter_user u username config st; Some (u, st) else Some (u, st)
  | None =>
      let u := Z.of_nat (size (records st)) + 1 in
      let st := set_records <[u := UData [] (-1) 0 None None None None None]> st in
      st ← enter_user u username config st; Some (u, st)
  end.

Definition getUserData (name : cstr) (st : ustate) : option (ptr * ustate) :=
  match uDataList st !! name with
  | Some u => Some (u, st)
  | None => addUserData name false false st
  end.

(** ** Groups *)

Definition USER_GROUP_IS_ALL_USERS (g : gData) : bool := (length (subgroups g) =? 0)%nat && (length (members g) =? 0)%nat.

Definition delete_set (r : option setref) (st : ustate) : ustate :=
  match r with Some r => set_sets (delete r) st | None => st end.

Definition group_create (g : gData) (st : ustate) : option ustate :=
  '(u, st) ← getUserData (group g) st;
  let st := upd_record u (set_flags (fun f => Z.lor f USER_GROUP)) st in
  st ← remove_from AllUsers u st;
  st ← (if USER_GROUP_IS_ALL_USERS g then
          let st := upd_record u (set_flags (fun f => Z.lor f USER_ALL)) st in
          let st := delete_set (ref_of st u Children) st in
          let st := delete_set (ref_of st u Descendants) st in
          let st := upd_record u (fun d => set_field Descendants (Some AllUsers) (set_field Children (Some AllUsers) d)) st in
          add_to (Some AllGroups) u st
        else Some st);
  Some (upd_record u (set_gdata g) st).

Definition uDataGroupCreate (usergroups : list gData) : ustate -> option ustate := foldM group_create usergroups.

Record uStackEntry := Entry { myGData : gData; myUData : ptr; parentUData : ptr }.

(** A member of the group whose record is [cur]. *)
Definition add_member (cur : ptr) (name : cstr) (st : ustate) : option ustate :=
  '(u, st) ← getUserData name st;
  st ← checkuDataSet u st;
  st ← add_to (ref_of st u Parents) cur st;
  st ← add_to (ref_of st u Ancestors) cur st;
  st ← union_into (ref_of st u Ancestors) (ref_of st cur Ancestors) st;
  st ← add_to (ref_of st cur Children) u st;
  add_to (ref_of st cur Descendants) u st.

(** A subgroup: as a member, and it is put on the stack. *)
Definition add_subgroup (cur : ptr) (g : gData) (x : list uStackEntry * ustate) : option (list uStackEntry * ustate) :=
  let '(uStack, st) := x in
  '(sub, st) ← getUserData (group g) st;
  if MAX_GROUPS <=? Z.of_nat (length uStack) then None
  else
    st ← add_member cur (group g) st;
    Some (uStack ++ [Entry g sub cur], st).

(** The first loop, which goes through the stack from its bottom while it grows. *)
Fixpoint walk_down (fuel : nat) (uStack : list uStackEntry) (cur : nat) (st : ustate) : option (list uStackEntry * ustate) :=
  match fuel with
  | O => None
  | S fuel =>
      match uStack !! cur with
      | None => Some (uStack, st)
      | Some e =>
          st ← checkuDataSet (myUData e) st;
          st ← foldM (add_member (myUData e)) (members (myGData e)) st;
          '(uStack, st) ← foldM (add_subgroup (myUData e)) (subgroups (myGData e)) (uStack, st);
          walk_down fuel uStack (S cur) st
      end
  end.

(** The second loop, from the top down to the entry above the bottom. *)
Definition pass_up (e : uStackEntry) (st : ustate) : option ustate :=
  st ← checkuDataSet (parentUData e) st;
  union_into (ref_of st (parentUData e) Descendants) (ref_of st (myUData e) Descendants) st.

Definition traverseGroupTree (grp : gData) (st : ustate) : option ustate :=
  '(u, st) ← getUserData (group grp) st;
  '(uStack, st) ← walk_down (S (Z.to_nat MAX_GROUPS)) [Entry grp u NULL] 0 st;
  foldM pass_up (rev (tail uStack)) st.

(** The body of the first loop of [setuDataCreate]. *)
Definition walk_record (u : ptr) (st : ustate) : option ustate :=
  d ← records st !! u;
  if has (flags d) USER_GROUP && negb (starts_with others (user d)) then g ← gdata d; traverseGroupTree g st else Some st.

(** The table can grow during the loop. *)
Fixpoint each_record (fuel : nat) (i : nat) (f : ptr -> ustate -> option ustate) (st : ustate) : option ustate :=
  match base st !! i with
  | None => Some st
  | Some u => match fuel with O => None | S fuel => st ← f u st; each_record fuel (S i) f st end
  end.

(** [! u->flags & USER_GROUP] is [(! u->flags) & USER_GROUP]: the user has no flag at all. *)
Definition join_all (u : ptr) (st : ustate) : option ustate :=
  d ← records st !! u;
  st ← (if flags d =? 0 then
          gs ← records_in st (Some AllGroups);
          foldM (fun g st => st ← add_to (ref_of st u Parents) g st; add_to (ref_of st u Ancestors) g st) gs st
        else Some st);
  if has (flags d) USER_ALL then
    match ref_of st u Ancestors with
    | None => Some st
    | Some r =>
        gs ← records_in st (Some r);
        foldM (fun a st =>
                 b ← in_set st (Some AllAncestors) a;
                 if b =? 0 then
                   add_to (Some AllAncestors) a
                     (UState (uDataList st) (records st) (base st) (tab_size st) (sets st) (all_observers st ++ [ref_of st a Descendants]))
                 else Some st) gs st
    end
  else Some st.

Definition setuDataCreate (fuel : nat) (st : ustate) : option ustate :=
  st ← each_record fuel 0 walk_record st; each_record fuel 0 join_all st.
