(* ===== verification/UserSetsSpec.v ===== *)
(** * Ancestors and descendants: theorems

    A set of a record is read as a set of names ([holds]). [store_ok] is the invariant of
    the state, in which [M] gives the numbers in each set; [sound] says that a set holds
    only names that belong there. The walk through a group keeps both and makes the sets complete
    for the group at its root, so that after all groups have been walked through the
    sets are the transitive closure of membership. *)

From S2P Require Import Prelude CLib Accounting Xdr LsbXdr BitSet Groups UserSets.

(** ** Names below a group *)

Fixpoint names_below (g : gData) : list cstr := let '(GData _ ms gs) := g in ms ++ (gs ≫= fun s => group s :: names_below s).

Definition direct_names (g : gData) : list cstr := members g ++ (group <$> subgroups g).

Fixpoint height (g : gData) : nat := let '(GData _ _ gs) := g in S (max_list (height <$> gs)).

(** The entries on the stack of a walk. *)
Fixpoint tree_size (g : gData) : nat := let '(GData _ _ gs) := g in S (sum_list (tree_size <$> gs)).

(** The groups that the configuration lets through: different names, subgroups are groups,
    members are not; and here: no group stands for everybody, no name has [others] in it. *)
Record config_ok (gs : list gData) : Prop := {
  distinct_groups : NoDup (group <$> gs);
  known_subgroups g s : g ∈ gs -> s ∈ subgroups g -> s ∈ gs;
  members_no_groups g n : g ∈ gs -> n ∈ members g -> n ∉ group <$> gs;
  not_all g : g ∈ gs -> USER_GROUP_IS_ALL_USERS g = false;
  no_others g n : g ∈ gs -> n = group g \/ n ∈ direct_names g -> strstr n others = false;
  stack_fits g : g ∈ gs -> (tree_size g <= Z.to_nat MAX_GROUPS)%nat }.

Lemma max_list_elem (l : list nat) x : x ∈ l -> (x <= max_list l)%nat.
Proof. induction 1; cbn; lia. Qed.

Lemma names_below_unfold g n :
  n ∈ names_below g <-> n ∈ members g \/ exists s, s ∈ subgroups g /\ (n = group s \/ n ∈ names_below s).
Proof.
  destruct g as [name ms gs]. cbn [names_below members subgroups]. rewrite elem_of_app, list_elem_of_bind. split.
  - intros [?|(s & Hn & Hs)]; [by left|right; exists s; split; [done|]]. by apply elem_of_cons in Hn.
  - intros [?|(s & Hs & Hn)]; [by left|right; exists s; split; [|done]]. by apply elem_of_cons.
Qed.

Lemma direct_below g n : n ∈ direct_names g -> n ∈ names_below g.
Proof.
  unfold direct_names. rewrite elem_of_app, names_below_unfold. intros [?|(s & -> & ?)%list_elem_of_fmap]; [by left|right].
  exists s. split; [done|by left].
Qed.

Lemma sub_below g s n : s ∈ subgroups g -> n ∈ names_below s -> n ∈ names_below g.
Proof. intros Hs Hn. apply names_below_unfold. right. exists s. split; [done|by right]. Qed.

Lemma height_sub g s : s ∈ subgroups g -> (height s < height g)%nat.
Proof.
  destruct g as [name ms gs]. cbn. intros Hs. assert (height s ∈ height <$> gs) as H by by apply list_elem_of_fmap_2.
  apply max_list_elem in H. lia.
Qed.

Lemma subgroup_ind (P : gData -> Prop) : (forall g, (forall s, s ∈ subgroups g -> P s) -> P g) -> forall g, P g.
Proof.
  intros H g. induction g as [name ms gs IH] using gData_nested_ind. apply H. cbn. by apply Forall_forall.
Qed.

Section Config.
Context (gs : list gData) (Hgs : config_ok gs).

Lemma same_group g h : g ∈ gs -> h ∈ gs -> group g = group h -> g = h.
Proof.
  intros Hg Hh E. pose proof (distinct_groups gs Hgs) as Hnd. clear Hgs. induction gs as [|x xs IH]; [by apply elem_of_nil in Hg|].
  cbn [fmap list_fmap] in Hnd. apply NoDup_cons in Hnd as [Hne Hnd].
  apply elem_of_cons in Hg as [->|Hg], Hh as [->|Hh]; [done| | |by apply IH].
  - destruct Hne. rewrite E. by apply list_elem_of_fmap_2.
  - destruct Hne. rewrite <- E. by apply list_elem_of_fmap_2.
Qed.

(** What is below a group below [g] is below [g]. *)
Lemma below_trans g h n : g ∈ gs -> h ∈ gs -> group h ∈ names_below g -> n ∈ names_below h -> n ∈ names_below g.
Proof.
  revert h n. induction g as [g IH] using subgroup_ind. intros h n Hg Hh Hb Hn. apply names_below_unfold in Hb as [Hm|(s & Hs & Hb)].
  - destruct (members_no_groups gs Hgs g (group h) Hg Hm). by apply list_elem_of_fmap_2.
  - apply (sub_below g s n Hs). pose proof (known_subgroups gs Hgs g s Hg Hs) as Hsg. destruct Hb as [E|Hb].
    + by rewrite <- (same_group h s Hh Hsg E).
    + by apply (IH s Hs h).
Qed.

Lemma below_known g n : g ∈ gs -> n ∈ names_below g -> strstr n others = false.
Proof.
  revert n. induction g as [g IH] using subgroup_ind. intros n Hg Hn. apply names_below_unfold in Hn as [Hm|(s & Hs & Hn)].
  - apply (no_others gs Hgs g n Hg). right. unfold direct_names. apply elem_of_app. by left.
  - pose proof (known_subgroups gs Hgs g s Hg Hs) as Hsg. destruct Hn as [->|Hn]; [|by apply (IH s Hs)].
    apply (no_others gs Hgs s _ Hsg). by left.
Qed.

(** The height of the group with a name; 0 for a user. *)
Definition name_height (n : cstr) : nat := match find (fun g => bool_decide (group g = n)) gs with Some g => height g | None => O end.

Lemma group_height g : g ∈ gs -> name_height (group g) = height g.
Proof.
  intros Hg. unfold name_height. destruct (find _ gs) as [h|] eqn:E.
  - apply find_some in E as [Hh E]. apply bool_decide_eq_true in E. f_equal. apply same_group; [by apply list_elem_of_In|done|done].
  - apply (find_none _ _ E) in Hg || (apply list_elem_of_In in Hg; apply (find_none _ _ E) in Hg). by rewrite bool_decide_eq_true_2 in Hg.
Qed.

Lemma member_height g n : g ∈ gs -> n ∈ members g -> name_height n = O.
Proof.
  intros Hg Hn. unfold name_height. destruct (find _ gs) as [h|] eqn:E; [|done]. apply find_some in E as [Hh E].
  apply bool_decide_eq_true in E. destruct (members_no_groups gs Hgs g n Hg Hn). rewrite <- E. apply list_elem_of_fmap_2. by apply list_elem_of_In.
Qed.

Lemma direct_height g n : g ∈ gs -> n ∈ direct_names g -> (name_height n < name_height (group g))%nat.
Proof.
  intros Hg Hn. rewrite group_height by done. unfold direct_names in Hn. apply elem_of_app in Hn as [Hn|Hn].
  - rewrite (member_height g n) by done. destruct g. cbn. lia.
  - apply list_elem_of_fmap in Hn as (s & -> & Hs). rewrite group_height by by eapply known_subgroups. by apply height_sub.
Qed.

Definition top_height : nat := max_list (height <$> gs).

Lemma height_top n : (name_height n <= top_height)%nat.
Proof.
  unfold name_height. destruct (find _ gs) as [h|] eqn:E; [|lia]. apply find_some in E as [Hh _]. apply max_list_elem.
  apply list_elem_of_fmap_2. by apply list_elem_of_In.
Qed.
End Config.

(** ** The invariant of the state *)

Abbreviation set_contents := (setref -> gset Z).

Definition mset (r : setref) (X : gset Z) (M : set_contents) : set_contents := fun r' => if decide (r' = r) then X else M r'.

Definition grows (M M' : set_contents) : Prop := forall u f, M (Field u f) ⊆ M' (Field u f).

(** Records stay, sets stay, and records and sets can be added. *)
Record extends (st st' : ustate) : Prop := {
  ext_names : uDataList st ⊆ uDataList st';
  ext_records u d : records st !! u = Some d ->
    exists d', records st' !! u = Some d' /\ user d' = user d /\ uDataIndex d' = uDataIndex d /\ flags d' = flags d /\ gdata d' = gdata d;
  ext_sets r : is_Some (sets st !! r) -> is_Some (sets st' !! r);
  ext_new u d : records st' !! u = Some d -> records st !! u = None -> has (flags d) USER_GROUP = false /\ has (flags d) USER_ALL = false }.

#[export] Instance extends_preorder : PreOrder extends.
Proof.
  split.
  - intros st. split; [done| |done|congruence]. intros u d Hd. by exists d.
  - intros st1 st2 st3 [A1 A2 A3 A4] [B1 B2 B3 B4]. split; [by etrans| |auto|].
    2: { intros u d Hd Hn. destruct (records st2 !! u) as [d2|] eqn:E; [|by apply (B4 u)].
         destruct (B2 u d2 E) as (d3 & Hd3 & _ & _ & Hf & _). rewrite Hd in Hd3. injection Hd3 as <-. rewrite Hf. by apply (A4 u). }
    intros u d Hd. destruct (A2 u d Hd) as (d' & Hd' & ? & ? & ? & ?). destruct (B2 u d' Hd') as (d'' & ? & ? & ? & ? & ?).
    exists d''. split_and!; congruence.
Qed.

#[export] Instance grows_preorder : PreOrder grows.
Proof. split; [by intros M u f|]. intros M1 M2 M3 H1 H2 u f. by etrans; [apply H1|apply H2]. Qed.

Section Store.
(** [NU] bounds the names that can occur, which are in [U]; [hgt] bounds how far up and down a
    name reaches, up to [H]: a union can double the size of a mask. *)
Context (U : gset cstr) (NU : Z) (hgt : cstr -> nat) (H : nat).
Context (HU : Z.of_nat (size U) <= NU) (HH : forall n, (hgt n <= H)%nat) (Hbound : 2 ^ Z.of_nat H * (NU + NU / 32 + 8) <= 2 ^ 25).

Definition width_at (k : nat) : Z := 2 ^ Z.of_nat k * (NU + NU / 32 + 8) - 2.

Definition width_limit (f : field) (n : cstr) : Z :=
  match f with Children | Parents => width_at 0 | Descendants => width_at (hgt n) | Ancestors => width_at (H - hgt n) end.

Record store_ok (M : set_contents) (st : ustate) : Prop := {
  so_named n u : uDataList st !! n = Some u -> exists d, records st !! u = Some d /\ user d = n;
  so_listed u d : records st !! u = Some d -> uDataList st !! user d = Some u;
  so_index u d : records st !! u = Some d -> 0 <= uDataIndex d /\ base st !! Z.to_nat (uDataIndex d) = Some u;
  so_base i u : base st !! i = Some u -> exists d, records st !! u = Some d /\ uDataIndex d = Z.of_nat i;
  so_addr u : is_Some (records st !! u) <-> 1 <= u <= Z.of_nat (size (records st));
  so_count : length (base st) = size (records st) /\ length (base st) = size (uDataList st);
  so_names : dom (uDataList st) ⊆ U;
  so_fields u d f : records st !! u = Some d ->
    field_of f d = if bool_decide (is_Some (sets st !! Field u f)) then Some (Field u f) else None;
  so_free u f : records st !! u = None -> sets st !! Field u f = None;
  so_sets r s : sets st !! r = Some s -> rep s (M r) /\ setWidth s <= 2 ^ 26;
  so_width u d f s : records st !! u = Some d -> sets st !! Field u f = Some s -> setWidth s <= width_limit f (user d);
  so_empty r : sets st !! r = None -> M r = ∅;
  so_elems r x : x ∈ M r -> 0 <= x < Z.of_nat (length (base st));
  so_groups : is_Some (sets st !! AllGroups) /\ M AllGroups = ∅;
  so_all : exists s, sets st !! AllUsers = Some s /\ counted s (M AllUsers) /\ setWidth s <= width_at 0;
  so_members u d : records st !! u = Some d -> (uDataIndex d ∈ M AllUsers <-> has (flags d) USER_GROUP = false);
  so_observers : all_observers st = [] }.

Lemma NU_nonneg : 0 <= NU.
Proof. lia. Qed.

Lemma width_at_le k l : (k <= l)%nat -> width_at k <= width_at l.
Proof.
  intros Hkl. unfold width_at. pose proof NU_nonneg. pose proof (Z.div_pos NU 32 ltac:(lia) ltac:(lia)).
  assert (2 ^ Z.of_nat k <= 2 ^ Z.of_nat l) by (apply Z.pow_le_mono_r; lia). nia.
Qed.

Lemma width_at_S k : 2 * width_at k + 2 <= width_at (S k).
Proof. unfold width_at. rewrite Nat2Z.inj_succ, Z.pow_succ_r by lia. lia. Qed.

Lemma width_at_small k : (k <= H)%nat -> NU + NU / 32 + 6 <= width_at k <= 2 ^ 25 - 2.
Proof.
  intros Hk. split; [|pose proof (width_at_le k H Hk); unfold width_at in *; lia].
  pose proof (width_at_le 0 k ltac:(lia)) as Hw. unfold width_at in Hw at 1. lia.
Qed.

Lemma width_limit_small f n : NU + NU / 32 + 6 <= width_limit f n <= 2 ^ 25 - 2.
Proof. destruct f; apply width_at_small; (lia || pose proof (HH n); lia). Qed.

Lemma NU_small : NU + NU / 32 + 8 <= 2 ^ 25.
Proof.
  assert (1 <= 2 ^ Z.of_nat H) by (apply (Z.pow_le_mono_r 2 0); lia). pose proof NU_nonneg.
  pose proof (Z.div_pos NU 32 ltac:(lia) ltac:(lia)). nia.
Qed.

Section Facts.
Context (M : set_contents) (st : ustate) (Hok : store_ok M st).

Lemma base_bound : Z.of_nat (length (base st)) <= NU.
Proof.
  pose proof (so_count M st Hok) as [_ Hc]. pose proof (so_names M st Hok) as Hn. apply subseteq_size in Hn. rewrite size_dom in Hn. lia.
Qed.

Lemma index_bound u d : records st !! u = Some d -> 0 <= uDataIndex d < Z.of_nat (length (base st)) /\ valid_index (uDataIndex d).
Proof.
  intros Hd. destruct (so_index M st Hok u d Hd) as [H0 Hb]. apply lookup_lt_Some in Hb. pose proof base_bound. pose proof NU_small.
  pose proof (Z.div_pos NU 32 NU_nonneg ltac:(lia)). unfold valid_index. lia.
Qed.

Lemma same_index u v d e : records st !! u = Some d -> records st !! v = Some e -> uDataIndex d = uDataIndex e -> u = v.
Proof.
  intros Hd He E. destruct (so_index M st Hok u d Hd) as [_ H1]. destruct (so_index M st Hok v e He) as [_ H2]. rewrite E in H1. congruence.
Qed.

Lemma store_ok_ext M' : (forall r, M r = M' r) -> store_ok M' st.
Proof.
  intros E. destruct Hok. split; try done.
  - intros r s Hs. rewrite <- E. auto.
  - intros r Hr. rewrite <- E. auto.
  - intros r x. rewrite <- E. apply so_elems0.
  - by rewrite <- E.
  - by rewrite <- E.
  - intros u d Hd. rewrite <- E. exact (so_members0 u d Hd).
Qed.

(** A set of a record gets other contents. *)
Lemma store_ok_set u f d s X : records st !! u = Some d -> is_Some (sets st !! Field u f) ->
  rep s X -> setWidth s <= width_limit f (user d) -> (forall x, x ∈ X -> 0 <= x < Z.of_nat (length (base st))) ->
  store_ok (mset (Field u f) X M) (set_sets <[Field u f := s]> st) /\ extends st (set_sets <[Field u f := s]> st).
Proof.
  intros Hd Hs Hr Hw Hx. pose proof (width_limit_small f (user d)) as Hlim. destruct Hok. split; [split; cbn|split; cbn]; try done.
  - intros v e f' He. rewrite (so_fields0 v e f' He). destruct (decide (Field v f' = Field u f)) as [E|E].
    + rewrite E, lookup_insert_eq, !bool_decide_eq_true_2; eauto.
    + by rewrite lookup_insert_ne by done.
  - intros v f' Hv. destruct (decide (Field v f' = Field u f)) as [[= -> ->]|E]; [congruence|]. rewrite lookup_insert_ne by done. auto.
  - intros r s' Hs'. unfold mset. destruct (decide (r = Field u f)) as [->|E].
    + rewrite lookup_insert_eq in Hs'. simplify_eq. split; [done|]. lia.
    + rewrite lookup_insert_ne in Hs' by done. auto.
  - intros v e f' s' He Hs'. destruct (decide (Field v f' = Field u f)) as [E|E].
    + injection E as -> ->. rewrite lookup_insert_eq in Hs'. simplify_eq. done.
    + rewrite lookup_insert_ne in Hs' by done. eauto.
  - intros r Hr'. unfold mset. destruct (decide (r = Field u f)) as [->|E]; [by rewrite lookup_insert_eq in Hr'|].
    rewrite lookup_insert_ne in Hr' by done. auto.
  - intros r x. unfold mset. destruct (decide (r = Field u f)); [apply Hx|apply so_elems0].
  - by rewrite lookup_insert_ne.
  - destruct so_all0 as (s' & ? & ?). exists s'. by rewrite lookup_insert_ne.
  - intros v e He. exists e. by split_and!.
  - intros r Hr'. destruct (decide (r = Field u f)) as [->|E]; [rewrite lookup_insert_eq; eauto|by rewrite lookup_insert_ne].
  - congruence.
Qed.
End Facts.

(** ** The operations on sets *)

Definition has_sets (st : ustate) (u : ptr) : Prop := forall f, is_Some (sets st !! Field u f).

Lemma ref_of_set M st u d f : store_ok M st -> records st !! u = Some d -> is_Some (sets st !! Field u f) -> ref_of st u f = Some (Field u f).
Proof.
  intros Hok Hd Hs. unfold ref_of. rewrite Hd. cbn. rewrite (so_fields M st Hok u d f Hd). by rewrite bool_decide_eq_true_2.
Qed.

Lemma object_index_of st v e : records st !! v = Some e -> 0 <= uDataIndex e -> object_index (Some (getIndexByuData st)) id v = Some (uDataIndex e).
Proof.
  intros He H0. unfold object_index, getIndexByuData. rewrite He. cbn. by rewrite (proj2 (Z.ltb_ge _ _)).
Qed.

Definition madd (r : setref) (x : Z) (M : set_contents) : set_contents := mset r ({[x]} ∪ M r) M.

Lemma add_to_spec M st u d f v e : store_ok M st -> records st !! u = Some d -> records st !! v = Some e -> is_Some (sets st !! Field u f) ->
  exists st', add_to (Some (Field u f)) v st = Some st' /\ store_ok (madd (Field u f) (uDataIndex e) M) st' /\ extends st st' /\
    records st' = records st /\ uDataList st' = uDataList st.
Proof.
  intros Hok Hd He [s Hs]. destruct (index_bound M st Hok v e He) as [Hx Hv]. destruct (so_sets M st Hok _ s Hs) as [Hr _].
  pose proof (so_width M st Hok u d f s Hd Hs) as Hw. pose proof (width_limit_small f (user d)) as Hlim.
  pose proof (base_bound M st Hok) as Hb. pose proof (proj1 Hr) as [_ Hw0 Hsz _]. pose proof NU_nonneg.
  assert (setSize s <= uDataIndex e -> setWidth s + uDataIndex e + 2 <= NU + NU / 32 + 6) as Hg.
  { intros Hle. pose proof (Z.div_le_mono (uDataIndex e) NU 32 ltac:(lia) ltac:(lia)).
    assert (setWidth s <= uDataIndex e / 32) by (apply Z.div_le_lower_bound; lia). lia. }
  unfold add_to, add_notify. rewrite Hs. cbn [mbind option_bind].
  pose proof (setAddElement_spec _ id s _ v _ Hr (object_index_of st v e He ltac:(lia)) Hv ltac:(lia)) as Ha.
  destruct (decide (uDataIndex e ∈ M (Field u f))) as [Hin|Hin].
  - rewrite Ha. cbn [mbind option_bind]. exists st. split_and!; [done| |done..].
    apply (store_ok_ext M st Hok). intros r. unfold madd, mset. destruct (decide _) as [->|]; [set_solver|done].
  - destruct Ha as (s' & -> & Hr' & _ & _ & Hw'). cbn [mbind option_bind].
    destruct (store_ok_set M st Hok u f d s' ({[uDataIndex e]} ∪ M (Field u f)) Hd ltac:(eauto) Hr') as [H1 H2].
    + rewrite Hw'. destruct (Z.leb_spec (setSize s) (uDataIndex e)); lia.
    + intros x [->%elem_of_singleton|Hx']%elem_of_union; [done|]. by apply (so_elems M st Hok) in Hx'.
    + exists (set_sets <[Field u f:=s']> st). by destruct (allowObservers s').
Qed.

Lemma union_into_spec M st u d f v e g : store_ok M st -> records st !! u = Some d -> records st !! v = Some e ->
  is_Some (sets st !! Field u f) -> is_Some (sets st !! Field v g) -> (M (Field u f) = ∅ -> M (Field v g) = ∅) ->
  2 * width_limit g (user e) + 2 <= width_limit f (user d) ->
  exists st', union_into (Some (Field u f)) (Some (Field v g)) st = Some st' /\
    store_ok (mset (Field u f) (M (Field u f) ∪ M (Field v g)) M) st' /\ extends st st' /\
    records st' = records st /\ uDataList st' = uDataList st.
Proof.
  intros Hok Hd He [s Hs] [t Ht] Hne Hlim. destruct (so_sets M st Hok _ s Hs) as [Hr _]. destruct (so_sets M st Hok _ t Ht) as [Hrt _].
  pose proof (so_width M st Hok u d f s Hd Hs) as Hw. pose proof (so_width M st Hok v e g t He Ht) as Hwt.
  pose proof (width_limit_small f (user d)) as Hl1. pose proof (width_limit_small g (user e)) as Hl2.
  unfold union_into. cbn [mbind option_bind]. rewrite Hs, Ht. cbn [mbind option_bind].
  pose proof (union_rep s t _ _ Hr Hrt Hne ltac:(lia)) as Hu.
  destruct (setOperate_bits s t LS_SET_UNION ltac:(by left) (proj1 Hr) (proj1 Hrt) ltac:(lia)) as (_ & Hwu & _).
  destruct (store_ok_set M st Hok u f d _ _ Hd ltac:(eauto) Hu) as [H1 H2].
  - rewrite Hwu. destruct (Z.ltb_spec (setWidth s) (setWidth t)); lia.
  - intros x [Hx|Hx]%elem_of_union; by apply (so_elems M st Hok) in Hx.
  - by exists (set_sets <[Field u f:=setOperate s t LS_SET_UNION]> st).
Qed.

Lemma set_field_same f r d : user (set_field f r d) = user d /\ uDataIndex (set_field f r d) = uDataIndex d /\
  flags (set_field f r d) = flags d /\ gdata (set_field f r d) = gdata d /\
  forall f', field_of f' (set_field f r d) = if decide (f' = f) then r else field_of f' d.
Proof. destruct d, f; split_and!; try done; by intros []. Qed.

Lemma size_alter {K A} `{Countable K} (f : A -> A) i (m : gmap K A) : size (alter f i m) = size m.
Proof. by rewrite <- !(size_dom (D := gset K)), dom_alter_L. Qed.

Lemma check_field_spec M st u d f : store_ok M st -> records st !! u = Some d ->
  exists st', check_field u f st = Some st' /\ store_ok M st' /\ extends st st' /\ is_Some (sets st' !! Field u f) /\
    uDataList st' = uDataList st.
Proof.
  intros Hok Hd. unfold check_field. rewrite Hd. cbn [mbind option_bind]. pose proof (so_fields M st Hok u d f Hd) as Hf.
  case_bool_decide as Hs; rewrite Hf; [by exists st|]. eexists. split; [done|].
  destruct (set_field_same f (Some (Field u f)) d) as (E1 & E2 & E3 & E4 & E5).
  assert (sets st !! Field u f = None) as Hnone by (destruct (sets st !! Field u f); [destruct Hs; eauto|done]).
  assert (forall v e, alter (set_field f (Some (Field u f))) u (records st) !! v = Some e ->
    exists e0, records st !! v = Some e0 /\ user e = user e0 /\ uDataIndex e = uDataIndex e0 /\ flags e = flags e0 /\
      forall f', field_of f' e = if decide (Field v f' = Field u f) then Some (Field u f) else field_of f' e0) as Hrec.
  { intros v e He. destruct (decide (v = u)) as [->|Hne].
    - rewrite lookup_alter_eq, Hd in He. injection He as <-. exists d. split_and!; try done. intros f'. rewrite E5.
      destruct (decide (f' = f)) as [->|], (decide (Field u _ = Field u f)); try done; congruence.
    - rewrite lookup_alter_ne in He by done. exists e. split_and!; try done. intros f'. by destruct (decide (Field v f' = Field u f)) as [[= -> ->]|]. }
  destruct (setCreate_spec MAX_GROUPS ltac:(by vm_compute)) as (Hc & Hw & _). pose proof (width_limit_small f (user d)) as Hlim.
  pose proof NU_nonneg. pose proof (Z.div_pos NU 32 ltac:(lia) ltac:(lia)). change (setWidth (setCreate MAX_GROUPS) = 5) in Hw.
  destruct Hok. split_and!; [split; cbn|split; cbn| |]; try done.
  - intros n v Hv. destruct (so_named0 n v Hv) as (e & He & <-). destruct (decide (v = u)) as [->|Hne].
    + rewrite lookup_alter_eq, He. cbn. exists (set_field f (Some (Field u f)) e). split; [done|]. rewrite Hd in He. by simplify_eq.
    + exists e. by rewrite lookup_alter_ne.
  - intros v e He. destruct (Hrec v e He) as (e0 & He0 & -> & _). auto.
  - intros v e He. destruct (Hrec v e He) as (e0 & He0 & _ & -> & _). auto.
  - intros i v Hv. destruct (so_base0 i v Hv) as (e & He & <-). destruct (decide (v = u)) as [->|Hne].
    + rewrite lookup_alter_eq, He. cbn. exists (set_field f (Some (Field u f)) e). split; [done|]. rewrite Hd in He. by simplify_eq.
    + exists e. by rewrite lookup_alter_ne.
  - intros v. by rewrite lookup_alter_is_Some, size_alter.
  - by rewrite size_alter.
  - intros v e f' He. destruct (Hrec v e He) as (e0 & He0 & _ & _ & _ & ->). destruct (decide (Field v f' = Field u f)) as [E|E].
    + rewrite E, lookup_insert_eq, bool_decide_eq_true_2; eauto.
    + rewrite lookup_insert_ne by done. by apply so_fields0.
  - intros v f' Hv. apply lookup_alter_None in Hv. rewrite lookup_insert_ne by congruence. auto.
  - intros r s Hs'. destruct (decide (r = Field u f)) as [->|E].
    + rewrite lookup_insert_eq in Hs'. injection Hs' as <-. rewrite (so_empty0 _ Hnone). split; [apply Hc|]. lia.
    + rewrite lookup_insert_ne in Hs' by done. auto.
  - intros v e f' s He Hs'. destruct (Hrec v e He) as (e0 & He0 & -> & _). destruct (decide (Field v f' = Field u f)) as [E|E].
    + injection E as -> ->. rewrite lookup_insert_eq in Hs'. injection Hs' as <-. rewrite Hd in He0. injection He0 as <-. lia.
    + rewrite lookup_insert_ne in Hs' by done. eauto.
  - intros r Hr. destruct (decide (r = Field u f)) as [->|E]; [by rewrite lookup_insert_eq in Hr|].
    rewrite lookup_insert_ne in Hr by done. auto.
  - by rewrite lookup_insert_ne.
  - destruct so_all0 as (s & ? & ?). exists s. by rewrite lookup_insert_ne.
  - intros v e He. destruct (Hrec v e He) as (e0 & He0 & _ & -> & -> & _). by apply (so_members0 v).
  - intros v e He. destruct (decide (v = u)) as [->|Hne].
    + rewrite lookup_alter_eq, He. cbn. eexists. split; [done|]. rewrite Hd in He. by simplify_eq.
    + exists e. by rewrite lookup_alter_ne.
  - intros r Hr. destruct (decide (r = Field u f)) as [->|E]; [rewrite lookup_insert_eq; eauto|by rewrite lookup_insert_ne].
  - intros v e He Hn. destruct (Hrec v e He) as (e0 & He0 & _). congruence.
  - cbn. rewrite lookup_insert_eq. eauto.
Qed.

Lemma extends_record st st' u d : extends st st' -> records st !! u = Some d ->
  exists d', records st' !! u = Some d' /\ user d' = user d /\ uDataIndex d' = uDataIndex d /\ flags d' = flags d /\ gdata d' = gdata d.
Proof. intros []. auto. Qed.

Lemma checkuDataSet_spec M st u d : store_ok M st -> records st !! u = Some d ->
  exists st', checkuDataSet u st = Some st' /\ store_ok M st' /\ extends st st' /\ has_sets st' u /\ uDataList st' = uDataList st.
Proof.
  intros Hok Hd. unfold checkuDataSet.
  destruct (check_field_spec M st u d Children Hok Hd) as (s1 & -> & Hok1 & He1 & Hs1 & Hl1). cbn [mbind option_bind].
  destruct (extends_record _ _ _ _ He1 Hd) as (d1 & Hd1 & _).
  destruct (check_field_spec M s1 u d1 Descendants Hok1 Hd1) as (s2 & -> & Hok2 & He2 & Hs2 & Hl2). cbn [mbind option_bind].
  destruct (extends_record _ _ _ _ He2 Hd1) as (d2 & Hd2 & _).
  destruct (check_field_spec M s2 u d2 Parents Hok2 Hd2) as (s3 & -> & Hok3 & He3 & Hs3 & Hl3). cbn [mbind option_bind].
  destruct (extends_record _ _ _ _ He3 Hd2) as (d3 & Hd3 & _).
  destruct (check_field_spec M s3 u d3 Ancestors Hok3 Hd3) as (s4 & -> & Hok4 & He4 & Hs4 & Hl4).
  exists s4. split_and!; [done|done|by etrans; [|etrans; [|etrans]]| |congruence].
  destruct He2 as [_ _ E2 _], He3 as [_ _ E3 _], He4 as [_ _ E4 _]. intros []; auto.
Qed.

(** ** New users *)

Lemma no_groups_listed M st : store_ok M st -> records_in st (Some AllGroups) = Some [].
Proof.
  intros Hok. destruct (so_groups M st Hok) as [[s Hs] HM]. destruct (so_sets M st Hok _ s Hs) as [Hr Hw]. rewrite HM in Hr.
  unfold records_in. cbn [mbind option_bind]. rewrite Hs. cbn [mbind option_bind]. pose proof (proj1 Hr) as [_ _ Hsz _].
  destruct (each_object_spec (Some (getuDataByIndex st)) s ∅ Hr ltac:(lia) ltac:(set_solver)) as (l & -> & _ & Hl).
  destruct l as [|x l]; [done|]. assert (x ∈ (∅ : gset Z)) as []%elem_of_empty. apply Hl. by left.
Qed.

Definition new_record (st : ustate) (name : cstr) (config : bool) : uData :=
  UData name (Z.of_nat (length (base st))) (if config then USER_UPDATE else 0) None None None None None.

Lemma fresh_record M st : store_ok M st -> records st !! (Z.of_nat (size (records st)) + 1) = None.
Proof. intros Hok. apply eq_None_not_Some. intros Hs. apply (so_addr M st Hok) in Hs. lia. Qed.

Lemma new_user_state M st name u d X s' size' : store_ok M st -> uDataList st !! name = None -> name ∈ U ->
  u = Z.of_nat (size (records st)) + 1 -> user d = name -> uDataIndex d = Z.of_nat (length (base st)) ->
  has (flags d) USER_GROUP = false -> has (flags d) USER_ALL = false -> (forall f, field_of f d = None) ->
  X = {[uDataIndex d]} ∪ M AllUsers -> counted s' X -> setWidth s' <= width_at 0 ->
  let st' := UState (<[name := u]> (uDataList st)) (<[u := d]> (records st)) (base st ++ [u]) size' (<[AllUsers := s']> (sets st)) [] in
  store_ok (mset AllUsers X M) st' /\ extends st st'.
Proof.
  intros Hok Hnew HnU -> Hname Hidx Hfl Hfa Hfields HX Hc Hw. pose proof (fresh_record M st Hok) as Hfree. pose proof (width_at_small 0 ltac:(lia)) as Hws.
  set (u := Z.of_nat (size (records st)) + 1) in *. cbn zeta.
  assert (forall v e, <[u:=d]> (records st) !! v = Some e -> (v = u /\ e = d) \/ (v <> u /\ records st !! v = Some e)) as Hrec.
  { intros v e He. apply lookup_insert_Some in He as [[-> ->]|[Hne He]]; [by left|right; by split]. }
  pose proof (base_bound M st Hok) as Hbase. destruct Hok. split; [split; cbn|split; cbn]; try done.
  - intros n v Hv. apply lookup_insert_Some in Hv as [[<- <-]|[Hne Hv]]; [exists d; by rewrite lookup_insert_eq|].
    destruct (so_named0 n v Hv) as (e & He & <-). exists e. rewrite lookup_insert_ne by congruence. by split.
  - intros v e He. destruct (Hrec v e He) as [[-> ->]|[Hne He']]; [by rewrite Hname, lookup_insert_eq|].
    rewrite lookup_insert_ne; [by apply so_listed0|]. intros E. apply so_listed0 in He'. congruence.
  - intros v e He. destruct (Hrec v e He) as [[-> ->]|[Hne He']].
    + rewrite Hidx. split; [lia|]. by rewrite Nat2Z.id, lookup_app_r, Nat.sub_diag by lia.
    + destruct (so_index0 v e He') as [H0 Hb]. split; [done|]. by apply lookup_app_l_Some.
  - intros i v Hv. apply lookup_app_Some in Hv as [Hv|[Hi Hv]].
    + destruct (so_base0 i v Hv) as (e & He & <-). exists e. rewrite lookup_insert_ne by congruence. by split.
    + apply list_lookup_singleton_Some in Hv as [Hi' <-]. exists d. rewrite lookup_insert_eq. split; [done|]. rewrite Hidx. lia.
  - intros v. rewrite map_size_insert_None by done. destruct (decide (v = u)) as [->|Hne].
    + rewrite lookup_insert_eq. unfold u. split; [lia|eauto].
    + rewrite lookup_insert_ne, so_addr0 by done. unfold u in *. lia.
  - rewrite !map_size_insert_None, length_app by done. cbn. lia.
  - rewrite dom_insert_L. set_solver.
  - intros v e f He. destruct (Hrec v e He) as [[-> ->]|[Hne He']]; rewrite lookup_insert_ne by done.
    + by rewrite Hfields, so_free0, bool_decide_eq_false_2 by (done || by intros [? ?]).
    + by apply so_fields0.
  - intros v f Hv. apply lookup_insert_None in Hv as [Hv _]. rewrite lookup_insert_ne by done. by apply so_free0.
  - intros r s Hs. unfold mset. destruct (decide (r = AllUsers)) as [->|Hne].
    + rewrite lookup_insert_eq in Hs. injection Hs as <-. split; [apply Hc|lia].
    + rewrite lookup_insert_ne in Hs by done. auto.
  - intros v e f s He Hs. rewrite lookup_insert_ne in Hs by done. destruct (Hrec v e He) as [[-> ->]|[Hne He']]; [|eauto].
    by rewrite so_free0 in Hs.
  - intros r Hr. unfold mset. destruct (decide (r = AllUsers)) as [->|Hne]; [by rewrite lookup_insert_eq in Hr|].
    rewrite lookup_insert_ne in Hr by done. auto.
  - intros r x. rewrite length_app. cbn. unfold mset. destruct (decide (r = AllUsers)) as [->|Hne].
    + rewrite HX. intros [->%elem_of_singleton|Hx%so_elems0]%elem_of_union; lia.
    + intros Hx%so_elems0. lia.
  - by rewrite lookup_insert_ne.
  - exists s'. by rewrite lookup_insert_eq.
  - intros v e He. unfold mset. rewrite decide_True by done. rewrite HX, elem_of_union, elem_of_singleton. destruct (Hrec v e He) as [[-> ->]|[Hne He']].
    + split; [done|by left].
    + rewrite <- (so_members0 v e He'). split; [intros [E|?]; [|done]|by right]. destruct (so_index0 v e He') as [H0 Hb].
      apply lookup_lt_Some in Hb. rewrite Hidx in E. lia.
  - by apply insert_subseteq.
  - intros v e He. exists e. rewrite lookup_insert_ne; [by split_and!|]. intros <-. congruence.
  - intros r Hr. destruct (decide (r = AllUsers)) as [->|Hne]; [rewrite lookup_insert_eq; eauto|by rewrite lookup_insert_ne].
  - intros v e He Hn. destruct (Hrec v e He) as [[-> ->]|[_ He']]; [done|congruence].
Qed.

Lemma addUserData_new M st name override config : store_ok M st -> uDataList st !! name = None -> name ∈ U -> strstr name others = false ->
  let u := Z.of_nat (size (records st)) + 1 in
  exists st', addUserData name override config st = Some (u, st') /\
    store_ok (mset AllUsers ({[Z.of_nat (length (base st))]} ∪ M AllUsers) M) st' /\ extends st st' /\
    uDataList st' = <[name := u]> (uDataList st) /\ records st' = <[u := new_record st name config]> (records st).
Proof.
  intros Hok Hnew HnU Hoth u. pose proof (fresh_record M st Hok) as Hfree. fold u in Hfree. unfold addUserData. rewrite Hnew. fold u.
  unfold enter_user. cbn [upd_record set_records uDataTableAddEntry uDataList records base tab_size sets all_observers].
  set (d := new_record st name config).
  assert (alter (fun d0 => UData name (Z.of_nat (length (base st))) (if config then Z.lor (flags d0) USER_UPDATE else flags d0)
             (gdata d0) (children d0) (descendants d0) (parents d0) (ancestors d0)) u
           (<[u:=UData [] (-1) 0 None None None None None]> (records st)) = <[u:=d]> (records st)) as ->.
  { apply map_eq. intros v. destruct (decide (v = u)) as [->|Hne].
    - rewrite lookup_alter_eq, !lookup_insert_eq. cbn. by destruct config.
    - by rewrite lookup_alter_ne, !lookup_insert_ne by done. }
  rewrite lookup_insert_eq. cbn [mbind option_bind]. rewrite Hoth.
  assert (has (flags d) USER_GROUP = false) as Hfl by by destruct config. rewrite Hfl. cbn [negb andb].
  destruct (so_all M st Hok) as (s & Hs & Hc & Hw). pose proof (base_bound M st Hok) as Hb. pose proof NU_nonneg. pose proof NU_small.
  pose proof (Z.div_pos NU 32 ltac:(lia) ltac:(lia)). pose proof (width_at_small 0 ltac:(lia)) as Hw0.
  assert (uDataIndex d = Z.of_nat (length (base st))) as Hidx by done.
  assert (Z.of_nat (length (base st)) < NU) as Hlt.
  { pose proof (so_count M st Hok) as [_ Hcount]. pose proof (so_names M st Hok) as Hn. assert (({[name]} ∪ dom (uDataList st)) ⊆ U) as Hsub by set_solver.
    apply subseteq_size in Hsub. rewrite size_union, size_singleton, size_dom in Hsub by (apply not_elem_of_dom in Hnew; set_solver). lia. }
  set (st1 := UState _ _ _ _ _ _). unfold add_to, add_notify. change (sets st1) with (sets st). rewrite Hs. cbn [mbind option_bind].
  assert (object_index (Some (getIndexByuData st1)) id u = Some (uDataIndex d)) as Hoi.
  { apply object_index_of; [by cbn; rewrite lookup_insert_eq|lia]. }
  pose proof (proj1 (proj1 Hc)) as [_ Hws Hsz _].
  assert (setSize s <= uDataIndex d -> setWidth s + uDataIndex d + 2 <= NU + NU / 32 + 6) as Hg.
  { intros Hle. pose proof (Z.div_le_mono (uDataIndex d) NU 32 ltac:(lia) ltac:(lia)).
    assert (setWidth s <= uDataIndex d / 32) by (apply Z.div_le_lower_bound; lia). lia. }
  pose proof (setAddElement_spec _ id s _ u _ (proj1 Hc) Hoi ltac:(unfold valid_index; lia) ltac:(lia)) as Ha.
  assert (uDataIndex d ∉ M AllUsers) as Hnin by (intros Hx%(so_elems M st Hok); lia).
  destruct (decide _) as [|_]; [done|]. destruct Ha as (s' & -> & Hr' & Hn' & Ho' & Hw'). cbn [mbind option_bind].
  assert (counted s' ({[uDataIndex d]} ∪ M AllUsers)) as Hc'.
  { split; [done|]. rewrite Hn', (proj2 Hc), size_union, size_singleton by set_solver. lia. }
  assert (setWidth s' <= width_at 0) as Hwidth by (rewrite Hw'; destruct (Z.leb_spec (setSize s) (uDataIndex d)); lia).
  destruct (new_user_state M st name u d _ s' (tab_size st1) Hok Hnew HnU eq_refl eq_refl eq_refl Hfl ltac:(by destruct config) ltac:(by intros []) eq_refl Hc' Hwidth) as [Hok' Hext].
  set (st2 := UState _ _ _ _ _ _) in Hok', Hext.
  assert (set_sets <[AllUsers:=s']> st1 = st2) as ->.
  { unfold st2, st1, set_sets. cbn. by rewrite (so_observers M st Hok). }
  assert ((if allowObservers s' then '(_, st) ← setNotifyObservers (observers_of AllUsers st1) (Event LS_BITSET_EVENT_ENTER u) st2; Some (0, st) else Some (0, st2)) = Some (0, st2)) as ->.
  { unfold observers_of, st1. cbn [all_observers]. rewrite (so_observers M st Hok). cbn. by destruct (allowObservers s'). }
  cbn [mbind option_bind]. rewrite (no_groups_listed _ _ Hok'). cbn [mbind option_bind foldM foldl]. exists st2. by split_and!.
Qed.

(** ** The sets as sets of names *)

Section Names.
Context (gs : list gData) (Hgs : config_ok gs).
Context (Hdirect : forall g n, g ∈ gs -> n ∈ direct_names g -> (hgt n < hgt (group g))%nat).
Context (HnamesU : forall g n, g ∈ gs -> n = group g \/ n ∈ names_below g -> n ∈ U).

(** [m] belongs into the set [f] of [n]. *)
Definition related (f : field) (n m : cstr) : Prop :=
  match f with
  | Parents => exists g, g ∈ gs /\ group g = m /\ n ∈ direct_names g
  | Ancestors => exists g, g ∈ gs /\ group g = m /\ n ∈ names_below g
  | Children => exists g, g ∈ gs /\ group g = n /\ m ∈ direct_names g
  | Descendants => exists g, g ∈ gs /\ group g = n /\ m ∈ names_below g
  end.

(** [m] is in the set [f] of [n]. *)
Definition holds (M : set_contents) (st : ustate) (n : cstr) (f : field) (m : cstr) : Prop :=
  exists u v e, uDataList st !! n = Some u /\ uDataList st !! m = Some v /\ records st !! v = Some e /\ uDataIndex e ∈ M (Field u f).

Definition sound (M : set_contents) (st : ustate) : Prop :=
  forall u f x d, records st !! u = Some d -> x ∈ M (Field u f) ->
    exists v e, records st !! v = Some e /\ uDataIndex e = x /\ related f (user d) (user e).

Lemma holds_mono M st M' st' n f m : extends st st' -> grows M M' -> holds M st n f m -> holds M' st' n f m.
Proof.
  intros [E1 E2 _ _] Hg (u & v & e & Hu & Hv & He & Hx). destruct (E2 v e He) as (e' & He' & _ & Hi & _).
  exists u, v, e'. rewrite Hi. split_and!; [by eapply lookup_weaken|by eapply lookup_weaken|done|]. by apply Hg.
Qed.

Lemma sound_related M st n f m : store_ok M st -> sound M st -> holds M st n f m -> related f n m.
Proof.
  intros Hok Hs (u & v & e & Hu & Hv & He & Hx). destruct (so_named M st Hok n u Hu) as (d & Hd & <-).
  destruct (so_named M st Hok m v Hv) as (e' & He' & <-). destruct (Hs u f _ d Hd Hx) as (w & e2 & Hw & Hi & Hr).
  rewrite He in He'. injection He' as <-. rewrite (same_index M st Hok w v e2 e Hw He Hi) in Hw. rewrite He in Hw. by injection Hw as <-.
Qed.

Lemma sound_ext M st M' st' : store_ok M st -> extends st st' -> (forall u f, M' (Field u f) = M (Field u f)) -> sound M st -> sound M' st'.
Proof.
  intros Hok [E1 E2 _ _] HM Hs u f x d' Hd' Hx. rewrite HM in Hx. destruct (records st !! u) as [d|] eqn:Hd.
  - destruct (Hs u f x d Hd Hx) as (v & e & He & Hi & Hr). destruct (E2 v e He) as (e' & He' & Hu & Hi' & _).
    exists v, e'. destruct (E2 u d Hd) as (d2 & Hd2 & Hud & _). split_and!; [done|congruence|]. rewrite Hd' in Hd2. injection Hd2 as <-. by rewrite Hud, Hu.
  - apply (so_free M st Hok u f) in Hd. rewrite (so_empty M st Hok _ Hd) in Hx. by apply elem_of_empty in Hx.
Qed.

Lemma sound_set M st u d f X : store_ok M st -> sound M st -> records st !! u = Some d ->
  (forall x, x ∈ X -> x ∈ M (Field u f) \/ exists v e, records st !! v = Some e /\ uDataIndex e = x /\ related f (user d) (user e)) ->
  sound (mset (Field u f) X M) st.
Proof.
  intros Hok Hs Hd HX v f' x d' Hd' Hx. unfold mset in Hx. destruct (decide (Field v f' = Field u f)) as [[= -> ->]|]; [|by apply (Hs v f' x d')].
  rewrite Hd in Hd'. injection Hd' as <-. destruct (HX x Hx) as [Hx'|?]; [|done]. by apply (Hs u f x d).
Qed.

Lemma grows_mset M r X : M r ⊆ X -> grows M (mset r X M).
Proof. intros Hsub u f. unfold mset. destruct (decide _) as [->|]; [done|done]. Qed.

Lemma sound_records M st st' : records st' = records st -> sound M st -> sound M st'.
Proof. intros E Hs u f x d. rewrite E. apply Hs. Qed.

(** A step that keeps the state in order. *)
Definition steps (M : set_contents) (st : ustate) (M' : set_contents) (st' : ustate) : Prop :=
  store_ok M' st' /\ sound M' st' /\ extends st st' /\ grows M M'.

Lemma steps_trans M1 s1 M2 s2 M3 s3 : steps M1 s1 M2 s2 -> steps M2 s2 M3 s3 -> steps M1 s1 M3 s3.
Proof. intros (A1 & A2 & A3 & A4) (B1 & B2 & B3 & B4). split_and!; [done|done|by etrans|by etrans]. Qed.

Lemma steps_holds M st M' st' n f m : steps M st M' st' -> holds M st n f m -> holds M' st' n f m.
Proof. intros (_ & _ & He & Hg). by apply holds_mono. Qed.

Lemma steps_refl M st : store_ok M st -> sound M st -> steps M st M st.
Proof. intros Hok Hs. by split_and!. Qed.

Lemma add_name M st n u f m v : store_ok M st -> sound M st -> uDataList st !! n = Some u -> uDataList st !! m = Some v ->
  has_sets st u -> related f n m ->
  exists st' M', add_to (ref_of st u f) v st = Some st' /\ steps M st M' st' /\ holds M' st' n f m /\ uDataList st' = uDataList st.
Proof.
  intros Hok Hs Hu Hv Hsets Hrel. destruct (so_named M st Hok n u Hu) as (d & Hd & <-). destruct (so_named M st Hok m v Hv) as (e & He & <-).
  rewrite (ref_of_set M st u d f Hok Hd (Hsets f)).
  destruct (add_to_spec M st u d f v e Hok Hd He (Hsets f)) as (st' & Ha & Hok' & Hext & Hrec & Hl).
  exists st', (madd (Field u f) (uDataIndex e) M). split_and!; [done| | |done].
  - split_and!; [done| |done|apply grows_mset; set_solver]. apply (sound_records _ st); [done|].
    apply (sound_set M st u d f _ Hok Hs Hd). intros x [->%elem_of_singleton|Hx]%elem_of_union; [right; by exists v, e|by left].
  - exists u, v, e. rewrite Hl, Hrec. split_and!; [done..|]. unfold madd, mset. rewrite decide_True by done. set_solver.
Qed.

Lemma union_names M st n u f m v g k0 : store_ok M st -> sound M st -> uDataList st !! n = Some u -> uDataList st !! m = Some v ->
  has_sets st u -> has_sets st v -> holds M st n f k0 ->
  (forall k, related g m k -> related f n k) -> 2 * width_limit g m + 2 <= width_limit f n ->
  exists st' M', union_into (ref_of st u f) (ref_of st v g) st = Some st' /\ steps M st M' st' /\
    (forall k, holds M st m g k -> holds M' st' n f k) /\ uDataList st' = uDataList st.
Proof.
  intros Hok Hs Hu Hv Hsu Hsv Hk0 Hrel Hlim. destruct (so_named M st Hok n u Hu) as (d & Hd & <-). destruct (so_named M st Hok m v Hv) as (e & He & <-).
  rewrite (ref_of_set M st u d f Hok Hd (Hsu f)), (ref_of_set M st v e g Hok He (Hsv g)).
  destruct (union_into_spec M st u d f v e g Hok Hd He (Hsu f) (Hsv g)) as (st' & Ha & Hok' & Hext & Hrec & Hl); [|done|].
  { intros Hempty. destruct Hk0 as (u' & _ & e0 & Hu' & _ & _ & Hx). rewrite Hu in Hu'. injection Hu' as <-. set_solver. }
  exists st', (mset (Field u f) (M (Field u f) ∪ M (Field v g)) M). split_and!; [done| | |done].
  - split_and!; [done| |done|apply grows_mset; set_solver]. apply (sound_records _ st); [done|].
    apply (sound_set M st u d f _ Hok Hs Hd). intros x [Hx|Hx]%elem_of_union; [by left|right].
    destruct (Hs v g x e He Hx) as (w & e2 & Hw & Hi & Hr). exists w, e2. split_and!; [done..|]. by apply Hrel.
  - intros k (v' & w & e2 & Hv' & Hw & He2 & Hx). rewrite Hv in Hv'. injection Hv' as <-. exists u, w, e2. rewrite Hl, Hrec.
    split_and!; [done..|]. unfold mset. rewrite decide_True by done. set_solver.
Qed.

Lemma steps_check M st n u : store_ok M st -> sound M st -> uDataList st !! n = Some u ->
  exists st', checkuDataSet u st = Some st' /\ steps M st M st' /\ has_sets st' u /\ uDataList st' = uDataList st.
Proof.
  intros Hok Hs Hu. destruct (so_named M st Hok n u Hu) as (d & Hd & _).
  destruct (checkuDataSet_spec M st u d Hok Hd) as (st' & Hc & Hok' & Hext & Hsets & Hl). exists st'. split_and!; try done.
  split_and!; [done| |done|done]. by apply (sound_ext M st).
Qed.

Lemma get_name M st n : store_ok M st -> sound M st -> n ∈ U -> strstr n others = false ->
  exists u st' M', getUserData n st = Some (u, st') /\ steps M st M' st' /\ uDataList st' !! n = Some u.
Proof.
  intros Hok Hs HnU Hoth. unfold getUserData. destruct (uDataList st !! n) as [u|] eqn:E.
  - exists u, st, M. split_and!; [done|by apply steps_refl|done].
  - destruct (addUserData_new M st n false false Hok E HnU Hoth) as (st' & Ha & Hok' & Hext & Hl & _).
    eexists _, st', _. split_and!; [exact Ha| |by rewrite Hl, lookup_insert_eq].
    split_and!; [exact Hok'| |done|by intros u f]. by apply (sound_ext M st).
Qed.

Lemma get_known M st n u : store_ok M st -> uDataList st !! n = Some u -> getUserData n st = Some (u, st).
Proof. intros _ E. unfold getUserData. by rewrite E. Qed.

Lemma steps_name M st M' st' n u : steps M st M' st' -> uDataList st !! n = Some u -> uDataList st' !! n = Some u.
Proof. intros (_ & _ & [E _ _ _] & _) Hu. by eapply lookup_weaken. Qed.
Lemma steps_sets M st M' st' u : steps M st M' st' -> has_sets st u -> has_sets st' u.
Proof. intros (_ & _ & [_ _ E _] & _) Hs f. by apply E. Qed.

(** What [add_member] establishes for the name [n] in the group [g]. *)
Definition entered (M : set_contents) (st : ustate) (g n : cstr) : Prop :=
  holds M st n Parents g /\ holds M st n Ancestors g /\ holds M st g Children n /\ holds M st g Descendants n.

Lemma add_member_spec M st g cur n : store_ok M st -> sound M st -> g ∈ gs -> uDataList st !! group g = Some cur -> has_sets st cur ->
  n ∈ direct_names g ->
  exists st' M', add_member cur n st = Some st' /\ steps M st M' st' /\ entered M' st' (group g) n /\
    (forall k, holds M st (group g) Ancestors k -> holds M' st' n Ancestors k).
Proof.
  intros Hok Hs Hg Hcur Hsets Hn. unfold add_member. pose proof (direct_below g n Hn) as Hbelow.
  destruct (get_name M st n Hok Hs) as (u & s1 & M1 & -> & St1 & Hu1); [by apply (HnamesU g); auto|by apply (below_known gs Hgs g)|].
  cbn [mbind option_bind]. pose proof St1 as (Hok1 & Hs1 & _ & _).
  destruct (steps_check M1 s1 n u Hok1 Hs1 Hu1) as (s2 & -> & St2 & Hsu & Hl2). cbn [mbind option_bind].
  pose proof (steps_trans _ _ _ _ _ _ St1 St2) as St02. pose proof St2 as (Hok2 & Hs2 & _ & _).
  assert (uDataList s2 !! n = Some u) as Hu2 by by rewrite Hl2.
  pose proof (steps_name _ _ _ _ _ _ St02 Hcur) as Hc2. pose proof (steps_sets _ _ _ _ _ St02 Hsets) as Hsc2.
  destruct (add_name M1 s2 n u Parents (group g) cur Hok2 Hs2 Hu2 Hc2 Hsu) as (s3 & M3 & -> & St3 & H3 & Hl3); [by exists g|]. cbn [mbind option_bind].
  pose proof St3 as (Hok3 & Hs3 & _ & _). pose proof (steps_sets _ _ _ _ _ St3 Hsu) as Hsu3. pose proof (steps_sets _ _ _ _ _ St3 Hsc2) as Hsc3.
  assert (uDataList s3 !! n = Some u /\ uDataList s3 !! group g = Some cur) as [Hu3 Hc3] by by rewrite Hl3.
  destruct (add_name M3 s3 n u Ancestors (group g) cur Hok3 Hs3 Hu3 Hc3 Hsu3) as (s4 & M4 & -> & St4 & H4 & Hl4); [by exists g|]. cbn [mbind option_bind].
  pose proof St4 as (Hok4 & Hs4 & _ & _). pose proof (steps_sets _ _ _ _ _ St4 Hsu3) as Hsu4. pose proof (steps_sets _ _ _ _ _ St4 Hsc3) as Hsc4.
  assert (uDataList s4 !! n = Some u /\ uDataList s4 !! group g = Some cur) as [Hu4 Hc4] by by rewrite Hl4.
  destruct (union_names M4 s4 n u Ancestors (group g) cur Ancestors (group g) Hok4 Hs4 Hu4 Hc4 Hsu4 Hsc4 H4) as (s5 & M5 & -> & St5 & H5 & Hl5).
  { intros k (h & Hh & <- & Hk). exists h. split_and!; [done..|]. by apply (below_trans gs Hgs h g). }
  { unfold width_limit. pose proof (Hdirect g n Hg Hn). pose proof (HH (group g)). pose proof (HH n).
    pose proof (width_at_S (H - hgt (group g))). pose proof (width_at_le (S (H - hgt (group g))) (H - hgt n) ltac:(lia)). lia. }
  cbn [mbind option_bind]. pose proof St5 as (Hok5 & Hs5 & _ & _). pose proof (steps_sets _ _ _ _ _ St5 Hsc4) as Hsc5.
  assert (uDataList s5 !! n = Some u /\ uDataList s5 !! group g = Some cur) as [Hu5 Hc5] by by rewrite Hl5.
  destruct (add_name M5 s5 (group g) cur Children n u Hok5 Hs5 Hc5 Hu5 Hsc5) as (s6 & M6 & -> & St6 & H6 & Hl6); [by exists g|]. cbn [mbind option_bind].
  pose proof St6 as (Hok6 & Hs6 & _ & _). pose proof (steps_sets _ _ _ _ _ St6 Hsc5) as Hsc6.
  assert (uDataList s6 !! n = Some u /\ uDataList s6 !! group g = Some cur) as [Hu6 Hc6] by by rewrite Hl6.
  destruct (add_name M6 s6 (group g) cur Descendants n u Hok6 Hs6 Hc6 Hu6 Hsc6) as (s7 & M7 & -> & St7 & H7 & Hl7); [by exists g|].
  pose proof (steps_trans _ _ _ _ _ _ St6 St7) as St57. pose proof (steps_trans _ _ _ _ _ _ St5 St57) as St47.
  pose proof (steps_trans _ _ _ _ _ _ St4 St47) as St37. pose proof (steps_trans _ _ _ _ _ _ St3 St37) as St27.
  exists s7, M7. split_and!; [done|by apply (steps_trans _ _ _ _ _ _ St02)| |].
  - split_and!; [exact (steps_holds _ _ _ _ _ _ _ St37 H3)|exact (steps_holds _ _ _ _ _ _ _ St47 H4)|exact (steps_holds _ _ _ _ _ _ _ St7 H6)|exact H7].
  - intros k Hk. apply (steps_holds _ _ _ _ _ _ _ St57), H5. apply (steps_holds _ _ _ _ _ _ _ (steps_trans _ _ _ _ _ _ St02 (steps_trans _ _ _ _ _ _ St3 St4)) Hk).
Qed.

(** ** The walk through a group *)

Lemma foldM_None {A S} (f : A -> S -> option S) l : foldl (fun s a => s ← s; f a s) None l = None.
Proof. by induction l. Qed.

Lemma foldM_cons {A S} (f : A -> S -> option S) a l s : foldM f (a :: l) s = s ← f a s; foldM f l s.
Proof. unfold foldM. cbn. destruct (f a s); [done|apply foldM_None]. Qed.

(** What holds for the names [ns] of [g] after they have been added. *)
Definition added (M : set_contents) (st : ustate) (M' : set_contents) (st' : ustate) (g : gData) (ns : list cstr) : Prop :=
  forall n, n ∈ ns -> entered M' st' (group g) n /\ forall k, holds M st (group g) Ancestors k -> holds M' st' n Ancestors k.

Lemma entered_steps M st M' st' g n : steps M st M' st' -> entered M st g n -> entered M' st' g n.
Proof. intros Hst (H1 & H2 & H3 & H4). split_and!; by eapply steps_holds. Qed.

Lemma added_cons M s0 M1 s1 M2 s2 g n ns : steps M s0 M1 s1 -> steps M1 s1 M2 s2 -> entered M1 s1 (group g) n ->
  (forall k, holds M s0 (group g) Ancestors k -> holds M1 s1 n Ancestors k) -> added M1 s1 M2 s2 g ns -> added M s0 M2 s2 g (n :: ns).
Proof.
  intros St1 St2 He Hk Ha m [->|Hm]%elem_of_cons.
  - split; [by eapply entered_steps|]. intros k Hkk. eapply steps_holds; [done|]. by apply Hk.
  - destruct (Ha m Hm) as [H1 H2]. split; [done|]. intros k Hkk. apply H2. by eapply steps_holds.
Qed.

Lemma add_members_spec g cur ns M st : store_ok M st -> sound M st -> g ∈ gs -> uDataList st !! group g = Some cur -> has_sets st cur ->
  ns ⊆ direct_names g ->
  exists st' M', foldM (add_member cur) ns st = Some st' /\ steps M st M' st' /\ added M st M' st' g ns.
Proof.
  intros Hok Hs Hg. revert M st Hok Hs. induction ns as [|n ns IH]; intros M st Hok Hs Hcur Hsets Hns.
  - exists st, M. split_and!; [done|by apply steps_refl|]. intros n Hn. by apply elem_of_nil in Hn.
  - rewrite foldM_cons. destruct (add_member_spec M st g cur n Hok Hs Hg Hcur Hsets) as (s1 & M1 & -> & St1 & He & Hk); [apply Hns; by left|].
    cbn [mbind option_bind]. pose proof St1 as (Hok1 & Hs1 & _ & _).
    destruct (IH M1 s1 Hok1 Hs1) as (s2 & M2 & E & St2 & Ha);
      [by eapply steps_name|by eapply steps_sets|intros m Hm; apply Hns; by right|].
    exists s2, M2. split_and!; [done|by eapply steps_trans|by eapply added_cons].
Qed.

Definition entry_ok (st : ustate) (e : uStackEntry) : Prop := myGData e ∈ gs /\ uDataList st !! group (myGData e) = Some (myUData e).

Lemma entry_ok_steps M st M' st' e : steps M st M' st' -> entry_ok st e -> entry_ok st' e.
Proof. intros Hst [? ?]. split; [done|]. by eapply steps_name. Qed.

Lemma add_subgroups_spec g cur subs uStack M st : store_ok M st -> sound M st -> g ∈ gs -> uDataList st !! group g = Some cur ->
  has_sets st cur -> subs ⊆ subgroups g -> Z.of_nat (length uStack + length subs) <= MAX_GROUPS ->
  exists st' M' es, foldM (add_subgroup cur) subs (uStack, st) = Some (uStack ++ es, st') /\ steps M st M' st' /\
    added M st M' st' g (group <$> subs) /\ myGData <$> es = subs /\ Forall (fun e => entry_ok st' e /\ parentUData e = cur) es.
Proof.
  intros Hok Hs Hg. revert uStack M st Hok Hs. induction subs as [|s subs IH]; intros uStack M st Hok Hs Hcur Hsets Hsub Hlen.
  - exists st, M, []. rewrite app_nil_r. split_and!; [done|by apply steps_refl| |done|constructor]. intros n Hn. by apply elem_of_nil in Hn.
  - rewrite foldM_cons. assert (s ∈ subgroups g) as Hin by (apply Hsub; by left). pose proof (known_subgroups gs Hgs g s Hg Hin) as Hsg.
    assert (group s ∈ direct_names g) as Hd by (apply elem_of_app; right; by apply list_elem_of_fmap_2).
    unfold add_subgroup at 2.
    destruct (get_name M st (group s) Hok Hs) as (u & s0 & M0 & -> & St0 & Hu); [by apply (HnamesU s); auto|by apply (no_others gs Hgs s); auto|].
    cbn [mbind option_bind]. cbn [length] in Hlen. rewrite (proj2 (Z.leb_gt _ _)) by lia. pose proof St0 as (Hok0 & Hs0 & _ & _).
    destruct (add_member_spec M0 s0 g cur (group s) Hok0 Hs0 Hg) as (s1 & M1 & -> & St1 & He & Hk);
      [by eapply steps_name|by eapply steps_sets|done|].
    cbn [mbind option_bind]. pose proof (steps_trans _ _ _ _ _ _ St0 St1) as St01. pose proof St1 as (Hok1 & Hs1 & _ & _).
    destruct (IH (uStack ++ [Entry s u cur]) M1 s1 Hok1 Hs1) as (s2 & M2 & es & E & St2 & Ha & Hes & Hf);
      [by eapply steps_name|by eapply steps_sets|intros m Hm; apply Hsub; by right|rewrite length_app; cbn; lia|].
    exists s2, M2, (Entry s u cur :: es). rewrite E, <- app_assoc. split_and!; [done|by eapply steps_trans| |by cbn; rewrite Hes|].
    + cbn [fmap list_fmap]. eapply added_cons; [exact St01|done|done| |done]. intros k Hkk. apply Hk. by eapply steps_holds.
    + constructor; [|done]. split; [|done]. split; [done|]. cbn. eapply steps_name; [exact St2|]. exact (steps_name _ _ _ _ _ _ St1 Hu).
Qed.

(** The entries before [cur] have been looked at. *)
Record walk_inv (root : gData) (M : set_contents) (st : ustate) (uStack : list uStackEntry) (cur : nat) : Prop := {
  wi_entries : Forall (entry_ok st) uStack;
  wi_root : exists e, uStack !! 0%nat = Some e /\ myGData e = root;
  wi_down j p s : (j < cur)%nat -> uStack !! j = Some p -> s ∈ subgroups (myGData p) ->
    exists k e, (j < k)%nat /\ uStack !! k = Some e /\ myGData e = s /\ parentUData e = myUData p;
  wi_up k e : uStack !! S k = Some e ->
    exists j p, (j <= k)%nat /\ (j < cur)%nat /\ uStack !! j = Some p /\ parentUData e = myUData p /\ myGData e ∈ subgroups (myGData p);
  wi_sets j e : (j < cur)%nat -> uStack !! j = Some e -> has_sets st (myUData e);
  wi_done j p n : (j < cur)%nat -> uStack !! j = Some p -> n ∈ direct_names (myGData p) ->
    entered M st (group (myGData p)) n /\ holds M st n Ancestors (group root);
  wi_anc k e : uStack !! S k = Some e -> holds M st (group (myGData e)) Ancestors (group root);
  wi_size : (length uStack + sum_list ((fun e => tree_size (myGData e) - 1) <$> drop cur uStack) = tree_size root)%nat;
  wi_cur : (cur <= length uStack)%nat }.

Lemma tree_size_pos g : (1 <= tree_size g)%nat.
Proof. destruct g. cbn. lia. Qed.

Lemma tree_size_subs g : (tree_size g - 1 = length (subgroups g) + sum_list ((fun s => tree_size s - 1) <$> subgroups g))%nat.
Proof.
  destruct g as [name ms xs]. cbn. rewrite Nat.sub_0_r. induction xs as [|x xs IH]; [done|]. cbn. rewrite IH. pose proof (tree_size_pos x). lia.
Qed.

Lemma walk_step root M st uStack cur e : walk_inv root M st uStack cur -> store_ok M st -> sound M st -> root ∈ gs -> uStack !! cur = Some e ->
  exists s1 s2 s3 uStack' M',
    checkuDataSet (myUData e) st = Some s1 /\ foldM (add_member (myUData e)) (members (myGData e)) s1 = Some s2 /\
    foldM (add_subgroup (myUData e)) (subgroups (myGData e)) (uStack, s2) = Some (uStack', s3) /\
    steps M st M' s3 /\ walk_inv root M' s3 uStack' (S cur).
Proof.
  intros W Hok Hs Hroot He. pose proof (wi_entries _ _ _ _ _ W) as Hent. rewrite Forall_lookup in Hent. destruct (Hent _ _ He) as [Hg Hu].
  set (g := myGData e) in *.
  destruct (steps_check M st (group g) (myUData e) Hok Hs Hu) as (s1 & E1 & St1 & Hsets & _). pose proof St1 as (Hok1 & Hs1 & _ & _).
  destruct (add_members_spec g (myUData e) (members g) M s1 Hok1 Hs1 Hg) as (s2 & M2 & E2 & St2 & Ha2);
    [by eapply steps_name|done|by apply list_subseteq_app_l|]. pose proof St2 as (Hok2 & Hs2 & _ & _).
  pose proof (wi_size _ _ _ _ _ W) as Hsize. rewrite (drop_S _ _ _ He) in Hsize. cbn in Hsize. fold g in Hsize. rewrite tree_size_subs in Hsize.
  pose proof (stack_fits gs Hgs root Hroot) as Hfit.
  destruct (add_subgroups_spec g (myUData e) (subgroups g) uStack M2 s2 Hok2 Hs2 Hg) as (s3 & M3 & es & E3 & St3 & Ha3 & Hes & Hf);
    [eapply steps_name; [exact St2|]; by eapply steps_name|by eapply steps_sets|done|unfold MAX_GROUPS in *; lia|].
  pose proof (steps_trans _ _ _ _ _ _ St1 St2) as St02. pose proof (steps_trans _ _ _ _ _ _ St02 St3) as St03.
  exists s1, s2, s3, (uStack ++ es), M3. split_and!; [done..|].
  assert (length es = length (subgroups g)) as Hlen by by rewrite <- Hes, length_fmap.
  assert (cur < length uStack)%nat as Hcur by by eapply lookup_lt_Some.
  assert (forall k, holds M st (group g) Ancestors k -> forall n, n ∈ direct_names g -> holds M3 s3 n Ancestors k) as Hanc.
  { intros k Hk n [Hn|Hn]%elem_of_app.
    - apply (steps_holds _ _ _ _ _ _ _ St3). apply (Ha2 n Hn). by apply (steps_holds _ _ _ _ _ _ _ St1).
    - apply (Ha3 n Hn). by apply (steps_holds _ _ _ _ _ _ _ St02). }
  assert (forall n, n ∈ direct_names g -> entered M3 s3 (group g) n) as Hentered.
  { intros n [Hn|Hn]%elem_of_app; [|by apply Ha3]. eapply entered_steps; [exact St3|]. by apply Ha2. }
  assert (forall n, n ∈ direct_names g -> holds M3 s3 n Ancestors (group root)) as Hup.
  { intros n Hn. destruct cur as [|k].
    - destruct (wi_root _ _ _ _ _ W) as (e0 & He0 & Hr). rewrite He in He0. injection He0 as <-. fold g in Hr. subst root.
      by destruct (Hentered n Hn) as (_ & ? & _).
    - apply (Hanc (group root)); [|done]. by apply (wi_anc _ _ _ _ _ W k e). }
  assert (forall k x, (uStack ++ es) !! k = Some x -> uStack !! k = Some x \/
            (length uStack <= k)%nat /\ x ∈ es) as Hlook.
  { intros k x [?|[? Hx]]%lookup_app_Some; [by left|right]. split; [done|]. by eapply list_elem_of_lookup_2. }
  assert (forall x, x ∈ es -> myGData x ∈ subgroups g /\ entry_ok s3 x /\ parentUData x = myUData e) as Hnew.
  { intros x Hx. rewrite Forall_forall in Hf. destruct (Hf x Hx). split_and!; [|done..]. rewrite <- Hes. by apply list_elem_of_fmap_2. }
  split.
  - apply Forall_app. split; [|eapply Forall_impl; [exact Hf|]; by intros x [? _]].
    apply Forall_lookup. intros j p Hp. eapply entry_ok_steps; [exact St03|]. by eapply Hent.
  - destruct (wi_root _ _ _ _ _ W) as (e0 & He0 & Hr). exists e0. split; [|done]. by apply lookup_app_l_Some.
  - intros j p s Hj Hp Hsub. destruct (Hlook j p Hp) as [Hp'|[? _]]; [|lia]. destruct (decide (j = cur)) as [->|Hne].
    + rewrite He in Hp'. injection Hp' as <-. fold g in Hsub. rewrite <- Hes in Hsub. apply list_elem_of_fmap in Hsub as (x & -> & Hx).
      destruct (list_elem_of_lookup_1 _ _ Hx) as [i Hi]. exists (length uStack + i)%nat, x. split_and!; [lia| |done|by apply Hnew].
      by rewrite lookup_app_r, Nat.add_sub_swap, Nat.sub_diag by lia.
    + destruct (wi_down _ _ _ _ _ W j p s ltac:(lia) Hp' Hsub) as (k & x & Hk & Hx & Hd & Hpar). exists k, x. split_and!; try done. by apply lookup_app_l_Some.
  - intros k x Hx. destruct (Hlook _ _ Hx) as [Hx'|[Hk Hin]].
    + destruct (wi_up _ _ _ _ _ W k x Hx') as (j & p & H1 & H2 & H3 & H4 & H5). exists j, p. split_and!; try done; [lia|by apply lookup_app_l_Some].
    + destruct (Hnew x Hin) as (H1 & _ & H2). exists cur, e. split_and!; try done; [lia|lia|by apply lookup_app_l_Some].
  - intros j x Hj Hx. destruct (Hlook j x Hx) as [Hx'|[? _]]; [|lia]. destruct (decide (j = cur)) as [->|Hne].
    + rewrite He in Hx'. injection Hx' as <-. eapply steps_sets; [exact St3|]. exact (steps_sets _ _ _ _ _ St2 Hsets).
    + eapply steps_sets; [exact St03|]. apply (wi_sets _ _ _ _ _ W j x); [lia|done].
  - intros j p n Hj Hp Hn. destruct (Hlook j p Hp) as [Hp'|[? _]]; [|lia]. destruct (decide (j = cur)) as [->|Hne].
    + rewrite He in Hp'. injection Hp' as <-. split; [by apply Hentered|by apply Hup].
    + destruct (wi_done _ _ _ _ _ W j p n ltac:(lia) Hp' Hn) as [H1 H2]. split; [by eapply entered_steps|by eapply steps_holds].
  - intros k x Hx. destruct (Hlook _ _ Hx) as [Hx'|[Hk Hin]].
    + eapply steps_holds; [exact St03|]. by apply (wi_anc _ _ _ _ _ W k x).
    + apply Hup. apply elem_of_app. right. apply list_elem_of_fmap_2. by apply Hnew.
  - rewrite length_app, drop_app_le, fmap_app, sum_list_with_app by lia.
    assert ((fun e => tree_size (myGData e) - 1)%nat <$> es = (fun s => tree_size s - 1)%nat <$> subgroups g) as ->
      by (rewrite <- Hes, <- list_fmap_compose; done). lia.
  - rewrite length_app. lia.
Qed.

Lemma walk_down_spec root fuel M st uStack cur : walk_inv root M st uStack cur -> store_ok M st -> sound M st -> root ∈ gs ->
  (Z.to_nat MAX_GROUPS < cur + fuel)%nat ->
  exists uStack' st' M', walk_down fuel uStack cur st = Some (uStack', st') /\ steps M st M' st' /\
    walk_inv root M' st' uStack' (length uStack').
Proof.
  intros W Hok Hs Hroot. revert M st uStack cur W Hok Hs. induction fuel as [|fuel IH]; intros M st uStack cur W Hok Hs Hf.
  - pose proof (wi_size _ _ _ _ _ W). pose proof (wi_cur _ _ _ _ _ W). pose proof (stack_fits gs Hgs root Hroot). lia.
  - cbn [walk_down]. destruct (uStack !! cur) as [e|] eqn:He.
    + destruct (walk_step root M st uStack cur e W Hok Hs Hroot He) as (s1 & s2 & s3 & uStack' & M' & -> & E2 & E3 & St & W').
      cbn [mbind option_bind]. rewrite E2. cbn [mbind option_bind]. rewrite E3. cbn [mbind option_bind].
      pose proof St as (Hok' & Hs' & _ & _). destruct (IH M' s3 uStack' (S cur) W' Hok' Hs' ltac:(lia)) as (S2 & s4 & M4 & E & St2 & W2).
      exists S2, s4, M4. split_and!; [done|by eapply steps_trans|done].
    + exists uStack, st, M. split_and!; [done|by apply steps_refl|]. apply lookup_ge_None in He. pose proof (wi_cur _ _ _ _ _ W).
      by replace (length uStack) with cur by lia.
Qed.

(** [m] is in the set [f] of the record [u]. *)
Definition holds_at (M : set_contents) (st : ustate) (u : ptr) (f : field) (m : cstr) : Prop :=
  exists v e, uDataList st !! m = Some v /\ records st !! v = Some e /\ uDataIndex e ∈ M (Field u f).

Lemma holds_at_name M st n u f m : uDataList st !! n = Some u -> holds_at M st u f m <-> holds M st n f m.
Proof.
  intros Hu. split; [intros (v & e & ? & ? & ?); by exists u, v, e|].
  intros (u' & v & e & Hu' & ? & ? & ?). rewrite Hu in Hu'. injection Hu' as <-. by exists v, e.
Qed.

Lemma holds_at_steps M st M' st' u f m : steps M st M' st' -> holds_at M st u f m -> holds_at M' st' u f m.
Proof.
  intros (_ & _ & [E1 E2 _ _] & Hg) (v & e & Hv & He & Hx). destruct (E2 v e He) as (e' & He' & _ & Hi & _).
  exists v, e'. rewrite Hi. split_and!; [by eapply lookup_weaken|done|]. by apply Hg.
Qed.

(** The entries from [i] on have been passed up to their parents. *)
Definition passed (M : set_contents) (st : ustate) (uStack : list uStackEntry) (i : nat) : Prop :=
  forall k e n, (i <= k)%nat -> (1 <= k)%nat -> uStack !! k = Some e -> n ∈ names_below (myGData e) -> holds_at M st (parentUData e) Descendants n.

Lemma complete_entry root M0 s0 M st uStack i e : walk_inv root M0 s0 uStack (length uStack) -> steps M0 s0 M st ->
  passed M st uStack (S i) -> uStack !! i = Some e -> forall n, n ∈ names_below (myGData e) -> holds_at M st (myUData e) Descendants n.
Proof.
  intros W St Hp He n Hn. assert (i < length uStack)%nat as Hi by by eapply lookup_lt_Some.
  pose proof (wi_entries _ _ _ _ _ W) as Hent. rewrite Forall_lookup in Hent. destruct (Hent _ _ He) as [Hg Hu].
  assert (forall m, m ∈ direct_names (myGData e) -> holds_at M st (myUData e) Descendants m) as Hd.
  { intros m Hm. destruct (wi_done _ _ _ _ _ W i e m Hi He Hm) as [(_ & _ & _ & Hh) _]. eapply holds_at_steps; [exact St|].
    by apply (holds_at_name _ _ (group (myGData e))). }
  apply names_below_unfold in Hn as [Hn|(s & Hs & [->|Hn])].
  - apply Hd, elem_of_app. by left.
  - apply Hd, elem_of_app. right. by apply list_elem_of_fmap_2.
  - destruct (wi_down _ _ _ _ _ W i e s Hi He Hs) as (k & x & Hk & Hx & <- & <-). by apply (Hp k x n); [lia|lia| |].
Qed.

Lemma pass_up_spec root M0 s0 M st uStack i e : walk_inv root M0 s0 uStack (length uStack) -> steps M0 s0 M st -> store_ok M st -> sound M st ->
  passed M st uStack (S i) -> (1 <= i)%nat -> uStack !! i = Some e ->
  exists st' M', pass_up e st = Some st' /\ steps M st M' st' /\ passed M' st' uStack i.
Proof.
  intros W St Hok Hs Hp Hi He. destruct i as [|i]; [lia|].
  destruct (wi_up _ _ _ _ _ W i e He) as (j & p & Hj & Hjl & Hpj & Hpar & Hsub).
  pose proof (wi_entries _ _ _ _ _ W) as Hent. rewrite Forall_lookup in Hent.
  destruct (Hent _ _ He) as [Hg Hu]. destruct (Hent _ _ Hpj) as [Hgp Hup].
  apply (steps_name _ _ _ _ _ _ St) in Hu, Hup. unfold pass_up. rewrite Hpar.
  destruct (steps_check M st _ _ Hok Hs Hup) as (s1 & -> & St1 & Hsets & Hl). cbn [mbind option_bind]. pose proof St1 as (Hok1 & Hs1 & _ & _).
  assert (group (myGData e) ∈ direct_names (myGData p)) as Hdir by (apply elem_of_app; right; by apply list_elem_of_fmap_2).
  assert (has_sets s1 (myUData e)) as Hse.
  { eapply steps_sets; [exact St1|]. eapply steps_sets; [exact St|]. apply (wi_sets _ _ _ _ _ W (S i) e); [by eapply lookup_lt_Some|done]. }
  destruct (wi_done _ _ _ _ _ W j p _ Hjl Hpj Hdir) as [(_ & _ & _ & Hh) _]. apply (steps_holds _ _ _ _ _ _ _ St) in Hh. apply (steps_holds _ _ _ _ _ _ _ St1) in Hh.
  destruct (union_names M s1 (group (myGData p)) (myUData p) Descendants (group (myGData e)) (myUData e) Descendants (group (myGData e)) Hok1 Hs1)
    as (s2 & M2 & -> & St2 & Hk & _); [by rewrite Hl|by rewrite Hl|done|done|done| | |].
  { intros k (h & Hh1 & E & Hk). exists (myGData p). split_and!; [done..|]. rewrite (same_group gs Hgs h (myGData e) Hh1 Hg E) in Hk.
    by apply (sub_below _ (myGData e)). }
  { unfold width_limit. pose proof (Hdirect (myGData p) _ Hgp Hdir) as Hlt. pose proof (width_at_S (hgt (group (myGData e)))).
    pose proof (width_at_le (S (hgt (group (myGData e)))) (hgt (group (myGData p))) ltac:(lia)). lia. }
  exists s2, M2. pose proof (steps_trans _ _ _ _ _ _ St1 St2) as St12. split_and!; [done|done|].
  intros k x n Hk1 Hk2 Hx Hn. destruct (decide (k = S i)) as [->|Hne].
  - rewrite He in Hx. injection Hx as <-. rewrite Hpar.
    assert (uDataList s2 !! group (myGData p) = Some (myUData p)) as Hup2 by (eapply steps_name; [exact St12|done]).
    apply (holds_at_name _ _ (group (myGData p)) _ _ _ Hup2). apply Hk.
    apply (holds_at_name _ _ (group (myGData e)) (myUData e)); [by rewrite Hl|]. eapply holds_at_steps; [exact St1|].
    by apply (complete_entry root M0 s0 M st uStack (S i)).
  - eapply holds_at_steps; [exact St12|]. apply (Hp k x n); (done || lia).
Qed.

Lemma pass_all root M0 s0 pre e0 post M st : walk_inv root M0 s0 (e0 :: pre ++ post) (length (e0 :: pre ++ post)) -> steps M0 s0 M st -> store_ok M st -> sound M st ->
  passed M st (e0 :: pre ++ post) (S (length pre)) ->
  exists st' M', foldM pass_up (rev pre) st = Some st' /\ steps M st M' st' /\ passed M' st' (e0 :: pre ++ post) 1.
Proof.
  revert post M st. induction pre as [|e pre IH] using rev_ind; intros post M st W St Hok Hs Hp.
  - exists st, M. split_and!; [done|by apply steps_refl|done].
  - rewrite rev_app_distr. cbn [rev app]. rewrite foldM_cons. rewrite <- app_assoc in *. cbn [app] in *.
    assert ((e0 :: pre ++ e :: post) !! S (length pre) = Some e) as He
      by (change ((pre ++ e :: post) !! length pre = Some e); by rewrite lookup_app_r, Nat.sub_diag by lia).
    rewrite length_app in Hp. cbn in Hp.
    destruct (pass_up_spec root M0 s0 M st _ (S (length pre)) e W St Hok Hs) as (s1 & M1 & -> & St1 & Hp1);
      [by replace (S (S (length pre))) with (S (length pre + 1)) by lia|lia|done|].
    cbn [mbind option_bind]. pose proof St1 as (Hok1 & Hs1 & _ & _).
    destruct (IH (e :: post) M1 s1 W (steps_trans _ _ _ _ _ _ St St1) Hok1 Hs1 Hp1) as (s2 & M2 & E & St2 & Hp2).
    exists s2, M2. split_and!; [done|by eapply steps_trans|done].
Qed.

(** The sets are complete for the group [g]. *)
Definition complete (M : set_contents) (st : ustate) (g : gData) : Prop :=
  (forall n, n ∈ names_below g -> holds M st n Ancestors (group g) /\ holds M st (group g) Descendants n) /\
  (forall n, n ∈ direct_names g -> holds M st n Parents (group g) /\ holds M st (group g) Children n).

Lemma complete_steps M st M' st' g : steps M st M' st' -> complete M st g -> complete M' st' g.
Proof. intros Hst [H1 H2]. split; intros n Hn; [destruct (H1 n Hn)|destruct (H2 n Hn)]; split; by eapply steps_holds. Qed.

Lemma traverse_spec M st g u : store_ok M st -> sound M st -> g ∈ gs -> uDataList st !! group g = Some u ->
  exists st' M', traverseGroupTree g st = Some st' /\ steps M st M' st' /\ complete M' st' g.
Proof.
  intros Hok Hs Hg Hu. unfold traverseGroupTree. rewrite (get_known M st (group g) u Hok Hu). cbn [mbind option_bind].
  assert (walk_inv g M st [Entry g u NULL] 0) as W.
  { split; try (by intros; lia).
    - constructor; [done|constructor].
    - by exists (Entry g u NULL).
    - by intros k e He.
    - by intros k e He.
    - cbn. pose proof (tree_size_pos g). lia. }
  destruct (walk_down_spec g (S (Z.to_nat MAX_GROUPS)) M st _ 0 W Hok Hs Hg ltac:(lia)) as (uStack & s1 & M1 & -> & St1 & W1).
  cbn [mbind option_bind]. pose proof St1 as (Hok1 & Hs1 & _ & _).
  destruct (wi_root _ _ _ _ _ W1) as (e0 & He0 & Hr). destruct uStack as [|e pre]; [done|]. cbn in He0. injection He0 as ->. cbn [tail].
  rewrite <- (app_nil_r pre) in W1. destruct (pass_all g M1 s1 pre e0 [] M1 s1 W1 (steps_refl _ _ Hok1 Hs1) Hok1 Hs1) as (s2 & M2 & -> & St2 & Hp).
  { intros k x n Hk _ Hx. rewrite app_nil_r in Hx. apply lookup_lt_Some in Hx. cbn in Hx. lia. }
  exists s2, M2. split_and!; [done|by eapply steps_trans|].
  pose proof (wi_entries _ _ _ _ _ W1) as Hent. apply Forall_cons in Hent as [[_ Hu0] _]. rewrite Hr in Hu0.
  assert (forall n, n ∈ direct_names g -> entered M2 s2 (group g) n) as Hd.
  { intros n Hn. eapply entered_steps; [exact St2|]. rewrite <- Hr. apply (wi_done _ _ _ _ _ W1 0 e0); [cbn; lia|done|by rewrite Hr]. }
  split; [|intros n Hn; by destruct (Hd n Hn) as (? & _ & ? & _)]. intros n Hn. split.
  - assert (forall h k p, (k < length (e0 :: pre ++ []))%nat -> (e0 :: pre ++ []) !! k = Some p -> myGData p = h -> n ∈ names_below h ->
              holds M1 s1 n Ancestors (group g)) as Hall.
    { intros h. induction h as [h IH] using subgroup_ind. intros k p Hk Hp' Hph Hb. apply names_below_unfold in Hb as [Hm|(s & Hsub & [->|Hb])].
      - apply (wi_done _ _ _ _ _ W1 k p n Hk Hp'). rewrite Hph. apply elem_of_app. by left.
      - apply (wi_done _ _ _ _ _ W1 k p _ Hk Hp'). rewrite Hph. apply elem_of_app. right. by apply list_elem_of_fmap_2.
      - rewrite <- Hph in Hsub. destruct (wi_down _ _ _ _ _ W1 k p s Hk Hp' Hsub) as (k' & x & _ & Hx & Hxs & _). rewrite Hph in Hsub.
        apply (IH s Hsub k' x); [by eapply lookup_lt_Some|done..]. }
    eapply steps_holds; [exact St2|]. apply (Hall g 0%nat e0); [cbn; lia|done..].
  - apply (holds_at_name _ _ _ (myUData e0)); [eapply steps_name; [exact St2|done]|].
    apply (complete_entry g M1 s1 M2 s2 (e0 :: pre ++ []) 0 e0 W1 St2 Hp eq_refl). by rewrite Hr.
Qed.

(** ** All groups *)

(** A flagged record has its group, and no group stands for everybody. *)
Definition flags_ok (G : list gData) (st : ustate) : Prop :=
  forall u d, records st !! u = Some d ->
    has (flags d) USER_ALL = false /\ (has (flags d) USER_GROUP = true -> exists g, g ∈ G /\ group g = user d /\ gdata d = Some g).

Definition all_marked (G : list gData) (st : ustate) : Prop :=
  forall g, g ∈ G -> exists u d, uDataList st !! group g = Some u /\ records st !! u = Some d /\ has (flags d) USER_GROUP = true.

Lemma flags_ok_ext G st st' : extends st st' -> flags_ok G st -> flags_ok G st'.
Proof.
  intros [_ E _ En] Hf u d Hd. destruct (records st !! u) as [d0|] eqn:Hd0.
  - destruct (E u d0 Hd0) as (d' & Hd' & Hu & _ & Hfl & Hg). rewrite Hd in Hd'. injection Hd' as <-. rewrite Hfl, Hu, Hg. by apply (Hf u).
  - destruct (En u d Hd Hd0) as [H1 H2]. rewrite H1, H2. done.
Qed.

Lemma all_marked_ext G st st' : extends st st' -> all_marked G st -> all_marked G st'.
Proof.
  intros [E1 E2 _ _] Hm g Hg. destruct (Hm g Hg) as (u & d & Hu & Hd & Hf). destruct (E2 u d Hd) as (d' & Hd' & _ & _ & Hfl & _).
  exists u, d'. rewrite Hfl. split_and!; [by eapply lookup_weaken|done..].
Qed.

Lemma not_others g : g ∈ gs -> starts_with others (group g) = false.
Proof.
  intros Hg. pose proof (no_others gs Hgs g (group g) Hg (or_introl eq_refl)) as Ho. destruct (group g); cbn [strstr] in Ho; by apply orb_false_iff in Ho as [? _].
Qed.

Lemma walk_record_spec M st u d : store_ok M st -> sound M st -> flags_ok gs st -> records st !! u = Some d ->
  exists st' M', walk_record u st = Some st' /\ steps M st M' st' /\
    (has (flags d) USER_GROUP = true -> forall g, g ∈ gs -> group g = user d -> complete M' st' g).
Proof.
  intros Hok Hs Hf Hd. unfold walk_record. rewrite Hd. cbn [mbind option_bind]. destruct (Hf u d Hd) as [_ Hg].
  destruct (has (flags d) USER_GROUP) eqn:E; [|exists st, M; split_and!; [done|by apply steps_refl|done]].
  destruct (Hg eq_refl) as (g & Hg1 & Hg2 & ->). rewrite <- Hg2, (not_others g Hg1). cbn [andb negb mbind option_bind].
  pose proof (so_listed M st Hok u d Hd) as Hl. rewrite <- Hg2 in Hl.
  destruct (traverse_spec M st g u Hok Hs Hg1 Hl) as (st' & M' & Et & Hst & Hc). exists st', M'. split_and!; [done..|].
  intros _ h Hh Eh. by rewrite (same_group gs Hgs h g Hh Hg1 Eh).
Qed.

(** The groups with an index below [i] are complete. *)
Definition walked (M : set_contents) (st : ustate) (i : nat) : Prop :=
  forall g u d, g ∈ gs -> uDataList st !! group g = Some u -> records st !! u = Some d -> uDataIndex d < Z.of_nat i -> complete M st g.

Lemma each_walk fuel i M st : store_ok M st -> sound M st -> flags_ok gs st -> all_marked gs st -> walked M st i -> NU <= Z.of_nat (i + fuel) ->
  exists st' M', each_record fuel i walk_record st = Some st' /\ steps M st M' st' /\ forall g, g ∈ gs -> complete M' st' g.
Proof.
  revert i M st. induction fuel as [|fuel IH]; intros i M st Hok Hs Hf Hm Hw Hfuel; cbn [each_record].
  all: destruct (base st !! i) as [u|] eqn:Hb.
  2, 4: exists st, M; split_and!; [done|by apply steps_refl|]; intros g Hg; destruct (Hm g Hg) as (u & d & Hu & Hd & _);
    apply (Hw g u d Hg Hu Hd); destruct (index_bound M st Hok u d Hd) as [? _]; apply lookup_ge_None in Hb; lia.
  - apply lookup_lt_Some in Hb. pose proof (base_bound M st Hok). lia.
  - destruct (so_base M st Hok i u Hb) as (d & Hd & Hi). destruct (walk_record_spec M st u d Hok Hs Hf Hd) as (s1 & M1 & -> & St1 & Hc).
    cbn [mbind option_bind]. pose proof St1 as (Hok1 & Hs1 & Hext & _).
    destruct (IH (S i) M1 s1 Hok1 Hs1 (flags_ok_ext _ _ _ Hext Hf) (all_marked_ext _ _ _ Hext Hm)) as (s2 & M2 & E & St2 & Hall); [|lia|].
    2: { exists s2, M2. split_and!; [done|by eapply steps_trans|done]. }
    intros g u' d' Hg Hu' Hd' Hidx. destruct (Hm g Hg) as (v & e & Hv & He & Hfl). pose proof Hext as [E1 E2 _ _].
    pose proof (lookup_weaken _ _ _ _ Hv E1) as Hv'. rewrite Hu' in Hv'. injection Hv' as <-.
    destruct (E2 u' e He) as (e' & He' & _ & Hie & _). rewrite Hd' in He'. injection He' as <-. rewrite Hie in Hidx.
    destruct (decide (uDataIndex e < Z.of_nat i)) as [Hlt|Hge]; [by eapply complete_steps, (Hw g u' e)|].
    assert (u' = u) as -> by (apply (same_index M st Hok u' u e d He Hd); lia). rewrite Hd in He. injection He as <-.
    apply (Hc Hfl g Hg). destruct (so_named M st Hok _ u Hv) as (d2 & Hd2 & <-). rewrite Hd in Hd2. by injection Hd2 as <-.
Qed.

(** No group stands for everybody, and the second loop changes nothing. *)
Lemma each_join fuel i M st : store_ok M st -> flags_ok gs st -> NU <= Z.of_nat (i + fuel) -> each_record fuel i join_all st = Some st.
Proof.
  intros Hok Hf. revert i. induction fuel as [|fuel IH]; intros i Hfuel; cbn [each_record]; destruct (base st !! i) as [u|] eqn:Hb; try done.
  - apply lookup_lt_Some in Hb. pose proof (base_bound M st Hok). lia.
  - destruct (so_base M st Hok i u Hb) as (d & Hd & _). destruct (Hf u d Hd) as [Hall _].
    assert (join_all u st = Some st) as ->; [|by apply IH; lia]. unfold join_all. rewrite Hd. cbn [mbind option_bind].
    rewrite (no_groups_listed M st Hok), Hall. by destruct (flags d =? 0).
Qed.

Lemma setuDataCreate_spec fuel M st : store_ok M st -> sound M st -> flags_ok gs st -> all_marked gs st -> NU <= Z.of_nat fuel ->
  exists st' M', setuDataCreate fuel st = Some st' /\ steps M st M' st' /\ forall g, g ∈ gs -> complete M' st' g.
Proof.
  intros Hok Hs Hf Hm Hfuel.
  destruct (each_walk fuel 0 M st Hok Hs Hf Hm ltac:(intros g u d _ _ Hd Hi; destruct (index_bound M st Hok u d Hd); lia) Hfuel) as (s1 & M1 & E & St1 & Hc).
  exists s1, M1. unfold setuDataCreate. rewrite E. cbn [mbind option_bind]. pose proof St1 as (Hok1 & _ & Hext & _). split_and!; [|done..].
  by apply (each_join fuel 0 M1); [|eapply flags_ok_ext|].
Qed.

(** ** The start *)

Definition marked_as (g : gData) (d : uData) : uData := set_gdata g (set_flags (fun f => Z.lor f USER_GROUP) d).

Lemma mark_same g d : user (marked_as g d) = user d /\ uDataIndex (marked_as g d) = uDataIndex d /\ gdata (marked_as g d) = Some g /\
  has (flags (marked_as g d)) USER_GROUP = true /\ has (flags (marked_as g d)) USER_ALL = has (flags d) USER_ALL /\ forall f, field_of f (marked_as g d) = field_of f d.
Proof. destruct d. cbn. rewrite !has_lor. split_and!; try done; [by rewrite orb_true_r|by rewrite orb_false_r]. Qed.

Lemma mark_group M st u d s' g : store_ok M st -> records st !! u = Some d -> counted s' (M AllUsers ∖ {[uDataIndex d]}) -> setWidth s' <= width_at 0 ->
  store_ok (mset AllUsers (M AllUsers ∖ {[uDataIndex d]}) M)
    (UState (uDataList st) (alter (marked_as g) u (records st)) (base st) (tab_size st) (<[AllUsers := s']> (sets st)) (all_observers st)).
Proof.
  intros Hok Hd Hc Hw. pose proof (width_at_small 0 ltac:(lia)) as Hws. pose proof (same_index M st Hok) as Hsame.
  destruct (mark_same g d) as (E1 & E2 & E3 & E4 & E5 & E6).
  assert (forall v e, alter (marked_as g) u (records st) !! v = Some e -> (v = u /\ e = marked_as g d) \/ (v <> u /\ records st !! v = Some e)) as Hrec.
  { intros v e He. destruct (decide (v = u)) as [->|Hne]; [left|right; by rewrite lookup_alter_ne in He].
    rewrite lookup_alter_eq, Hd in He. by injection He as <-. }
  assert (forall v e, records st !! v = Some e -> exists e', alter (marked_as g) u (records st) !! v = Some e' /\ user e' = user e /\ uDataIndex e' = uDataIndex e) as Hrec2.
  { intros v e He. destruct (decide (v = u)) as [->|Hne]; [|exists e; by rewrite lookup_alter_ne].
    rewrite Hd in He. injection He as <-. exists (marked_as g d). by rewrite lookup_alter_eq, Hd. }
  destruct Hok. split; cbn; try done.
  - intros n v Hv. destruct (so_named0 n v Hv) as (e & He & <-). destruct (Hrec2 v e He) as (e' & ? & ? & _). by exists e'.
  - intros v e He. destruct (Hrec v e He) as [[-> ->]|[_ He']]; [rewrite E1|]; by apply so_listed0.
  - intros v e He. destruct (Hrec v e He) as [[-> ->]|[_ He']]; [rewrite E2|]; by apply so_index0.
  - intros i v Hv. destruct (so_base0 i v Hv) as (e & He & <-). destruct (Hrec2 v e He) as (e' & ? & _ & ?). by exists e'.
  - intros v. by rewrite lookup_alter_is_Some, size_alter.
  - by rewrite size_alter.
  - intros v e f He. rewrite lookup_insert_ne by done. destruct (Hrec v e He) as [[-> ->]|[_ He']]; [rewrite E6|]; by apply so_fields0.
  - intros v f Hv. apply lookup_alter_None in Hv. rewrite lookup_insert_ne by done. auto.
  - intros r s Hs. unfold mset. destruct (decide (r = AllUsers)) as [->|Hne].
    + rewrite lookup_insert_eq in Hs. injection Hs as <-. split; [apply Hc|lia].
    + rewrite lookup_insert_ne in Hs by done. auto.
  - intros v e f s He Hs. rewrite lookup_insert_ne in Hs by done. destruct (Hrec v e He) as [[-> ->]|[_ He']]; [rewrite E1|]; by eapply so_width0.
  - intros r Hr. unfold mset. destruct (decide (r = AllUsers)) as [->|Hne]; [by rewrite lookup_insert_eq in Hr|].
    rewrite lookup_insert_ne in Hr by done. auto.
  - intros r x. unfold mset. destruct (decide (r = AllUsers)) as [->|Hne]; [|apply so_elems0].
    intros [Hx _]%elem_of_difference. by apply so_elems0 in Hx.
  - by rewrite lookup_insert_ne.
  - exists s'. by rewrite lookup_insert_eq.
  - intros v e He. unfold mset. rewrite decide_True, elem_of_difference, elem_of_singleton by done. destruct (Hrec v e He) as [[-> ->]|[Hne He']].
    + rewrite E2, E4. split; [tauto|done].
    + rewrite <- (so_members0 v e He'). split; [tauto|]. intros Hx. split; [done|]. intros E. by apply Hne, (Hsame v u e d).
Qed.

(** The state after the users have been read and the groups in [G] have been made. *)
Record made (G : list gData) (M : set_contents) (st : ustate) : Prop := {
  mk_ok : store_ok M st;
  mk_empty u f : M (Field u f) = ∅;
  mk_flags : flags_ok G st;
  mk_marked : all_marked G st }.

Lemma made_sound G M st : made G M st -> sound M st.
Proof. intros [_ He _ _] u f x d _ Hx. rewrite He in Hx. by apply elem_of_empty in Hx. Qed.

Lemma flags_ok_mono G G' st : G ⊆ G' -> flags_ok G st -> flags_ok G' st.
Proof. intros Hsub Hf u d Hd. destruct (Hf u d Hd) as [H1 H2]. split; [done|]. intros E. destruct (H2 E) as (g & ? & ?). exists g. split; auto. Qed.

Lemma made_new G M st name override config : made G M st -> uDataList st !! name = None -> name ∈ U -> strstr name others = false ->
  exists u st' M', addUserData name override config st = Some (u, st') /\ made G M' st' /\ uDataList st' = <[name := u]> (uDataList st).
Proof.
  intros [Hok He Hf Hm] E HU' Hoth.
  destruct (addUserData_new M st name override config Hok E HU' Hoth) as (st' & Ha & Hok' & Hext & Hl & _).
  eexists _, st', _. split_and!; [exact Ha| |exact Hl].
  split; [done| |by eapply flags_ok_ext|by eapply all_marked_ext]. intros u f. unfold mset. by rewrite decide_False.
Qed.

Lemma made_get G M st name : made G M st -> name ∈ U -> strstr name others = false ->
  exists u st' M', getUserData name st = Some (u, st') /\ made G M' st' /\ uDataList st' !! name = Some u /\ uDataList st ⊆ uDataList st'.
Proof.
  intros Hm HU' Hoth. unfold getUserData. destruct (uDataList st !! name) as [u|] eqn:E; [by exists u, st, M|].
  destruct (made_new G M st name false false Hm E HU' Hoth) as (u & st' & M' & Ha & Hm' & Hl). exists u, st', M'.
  rewrite Hl, lookup_insert_eq. split_and!; [done..|by apply insert_subseteq].
Qed.

Lemma group_create_spec G M st g : made G M st -> g ∈ gs -> group g ∉ group <$> G ->
  exists st' M', group_create g st = Some st' /\ made (g :: G) M' st' /\ uDataList st ⊆ uDataList st'.
Proof.
  intros Hmade Hg Hfresh. unfold group_create.
  destruct (made_get G M st (group g) Hmade) as (u & s1 & M1 & -> & [Hok He Hf Hm] & Hu & Hsub);
    [apply (HnamesU g); auto|by apply (no_others gs Hgs g); auto|].
  cbn [mbind option_bind]. destruct (so_named M1 s1 Hok _ u Hu) as (d & Hd & Hname).
  assert (has (flags d) USER_GROUP = false) as Hflag.
  { apply not_true_is_false. intros E. destruct (proj2 (Hf u d Hd) E) as (h & Hh & Eh & _). apply Hfresh. rewrite <- Hname, <- Eh. by apply list_elem_of_fmap_2. }
  destruct (so_all M1 s1 Hok) as (s & Hs & Hc & Hw). pose proof (proj2 (so_members M1 s1 Hok u d Hd) Hflag) as Hin.
  destruct (index_bound M1 s1 Hok u d Hd) as [Hi0 Hiv]. unfold remove_from.
  set (s2 := upd_record u _ s1). change (sets s2) with (sets s1). rewrite Hs. cbn [mbind option_bind].
  assert (object_index (Some (getIndexByuData s2)) id u = Some (uDataIndex d)) as Hoi.
  { rewrite (object_index_of s2 u (set_flags (fun f => Z.lor f USER_GROUP) d)); [by destruct d|by cbn; rewrite lookup_alter_eq, Hd|by destruct d; cbn in *; lia]. }
  destruct (setRemoveElement_spec _ id s _ u _ Hc Hoi Hiv Hin) as (s' & -> & Hc' & Hw' & _). cbn [mbind option_bind].
  rewrite (not_all gs Hgs g Hg). cbn [mbind option_bind].
  eexists _, (mset AllUsers (M1 AllUsers ∖ {[uDataIndex d]}) M1). split; [done|].
  assert (upd_record u (set_gdata g) (set_sets <[AllUsers:=s']> s2) =
    UState (uDataList s1) (alter (marked_as g) u (records s1)) (base s1) (tab_size s1) (<[AllUsers := s']> (sets s1)) (all_observers s1)) as ->.
  { unfold upd_record, set_records, set_sets, s2, marked_as. cbn. by rewrite alter_alter_eq. }
  split; [|done]. destruct (mark_same g d) as (E1 & E2 & E3 & E4 & E5 & E6). split.
  - apply mark_group; (done || by rewrite Hw').
  - intros v f. unfold mset. rewrite decide_False by done. apply He.
  - intros v e Hv. cbn in Hv. destruct (decide (v = u)) as [->|Hne].
    + rewrite lookup_alter_eq, Hd in Hv. injection Hv as <-. rewrite E5. split; [apply (Hf u d Hd)|]. intros _. exists g. rewrite E1, Hname. by split; [left|].
    + rewrite lookup_alter_ne in Hv by done. eapply flags_ok_mono; [|exact Hf|exact Hv]. set_solver.
  - intros h Hh. cbn. apply elem_of_cons in Hh as [->|Hh]; [exists u, (marked_as g d); by rewrite lookup_alter_eq, Hd|]. destruct (Hm h Hh) as (v & e & Hv & Hev & Hfl). exists v, e. rewrite lookup_alter_ne; [done|].
    intros <-. apply Hfresh. rewrite Hd in Hev. injection Hev as <-. congruence.
Qed.

Lemma uDataGroupCreate_spec G M st : made G M st -> forall xs, xs ⊆ gs -> NoDup (group <$> xs) -> (forall g, g ∈ xs -> group g ∉ group <$> G) ->
  exists st' M', uDataGroupCreate xs st = Some st' /\ made (rev xs ++ G) M' st' /\ uDataList st ⊆ uDataList st'.
Proof.
  intros Hmade xs. revert G M st Hmade. unfold uDataGroupCreate. induction xs as [|g xs IH]; intros G M st Hmade Hsub Hnd Hfresh.
  - by exists st, M.
  - rewrite foldM_cons. cbn [fmap list_fmap] in Hnd. apply NoDup_cons in Hnd as [Hne Hnd].
    destruct (group_create_spec G M st g Hmade) as (s1 & M1 & -> & Hm1 & Hs1); [apply Hsub; by left|apply Hfresh; by left|].
    cbn [mbind option_bind]. destruct (IH (g :: G) M1 s1 Hm1) as (s2 & M2 & E & Hm2 & Hs2); [set_solver|done| |].
    + intros h Hh. cbn [fmap list_fmap]. rewrite elem_of_cons. intros [Eh|Hh']; [|apply (Hfresh h); [by right|done]].
      apply Hne. rewrite <- Eh. by apply list_elem_of_fmap_2.
    + exists s2, M2. cbn [rev]. rewrite <- app_assoc. split_and!; [done..|by etrans].
Qed.

(** [addUData] *)
Definition add_users (users : list cstr) : ustate -> option ustate :=
  foldM (fun n st => '(_, st) ← addUserData n true true st; Some st) users.

Lemma add_users_spec G M st users : made G M st -> NoDup users ->
  (forall n, n ∈ users -> n ∈ U /\ strstr n others = false /\ uDataList st !! n = None) ->
  exists st' M', add_users users st = Some st' /\ made G M' st' /\ forall n, n ∈ users \/ is_Some (uDataList st !! n) -> is_Some (uDataList st' !! n).
Proof.
  unfold add_users. intros Hmade Hnd. revert M st Hmade. induction Hnd as [|n users Hnew Hnd IH]; intros M st Hmade Hn.
  - exists st, M. split_and!; [done..|]. by intros n [Hin%elem_of_nil|?].
  - rewrite foldM_cons. destruct (Hn n ltac:(by left)) as (HnU & Ho & E).
    destruct (made_new G M st n true true Hmade E HnU Ho) as (u & s1 & M1 & -> & Hm1 & Hl). cbn [mbind option_bind].
    destruct (IH M1 s1 Hm1) as (s2 & M2 & E2 & Hm2 & Hall).
    { intros m Hm. rewrite Hl, lookup_insert_ne by (intros ->; done). apply Hn. by right. }
    exists s2, M2. split_and!; [done..|]. intros m Hm. apply Hall. rewrite Hl. destruct (decide (m = n)) as [->|Hne]; [right; by rewrite lookup_insert_eq|].
    rewrite lookup_insert_ne by done. destruct Hm as [[?|?]%elem_of_cons|?]; [done|by left|by right].
Qed.

Lemma observed_counted s X : counted s X -> counted (setAllowObservers s) X.
Proof. intros [([H1 H2 H3 H4] & He & Hn & Hz) Hc]. split; [|done]. by split; [|split]. Qed.

Lemma start_made : made [] (fun _ => ∅) ustart.
Proof.
  destruct (setCreate_spec MAX_GROUPS ltac:(by vm_compute)) as (Hc & Hw & _). change (setWidth (setCreate MAX_GROUPS) = 5) in Hw.
  pose proof (width_at_small 0 ltac:(lia)). pose proof NU_nonneg. pose proof (Z.div_pos NU 32 ltac:(lia) ltac:(lia)).
  assert (forall r s, sets ustart !! r = Some s -> counted s ∅ /\ setWidth s = 5) as Hsets.
  { intros r s Hs. unfold ustart in Hs. cbn [sets] in Hs. apply lookup_insert_Some in Hs as [[_ <-]|[_ Hs]]; [split; [by apply observed_counted|done]|].
    apply lookup_insert_Some in Hs as [[_ <-]|[_ Hs]]; [done|]. by apply lookup_singleton_Some in Hs as [_ <-]. }
  split; [split| | |]; try done.
  - intros u. change (is_Some (None : option uData) <-> 1 <= u <= 0). split; [by intros [? ?]|lia].
  - intros r s Hs. destruct (Hsets r s Hs) as [[Hr _] Hws]. split; [done|lia].
  - eexists. split; [done|]. split; [by apply (Hsets AllUsers)|]. change (5 <= width_at 0). lia.
  - intros g Hg. by apply elem_of_nil in Hg.
Qed.

(** ** What the sets say *)

Lemma in_field M st u d f v e : store_ok M st -> records st !! u = Some d -> records st !! v = Some e ->
  in_set st (ref_of st u f) v = Some (Z.b2z (bool_decide (uDataIndex e ∈ M (Field u f)))).
Proof.
  intros Hok Hd He. destruct (index_bound M st Hok v e He) as [Hi Hv]. unfold ref_of. rewrite Hd. cbn [mbind option_bind].
  rewrite (so_fields M st Hok u d f Hd). case_bool_decide as Hs.
  - destruct Hs as [s Hs]. unfold in_set. rewrite Hs. cbn [mbind option_bind]. destruct (so_sets M st Hok _ s Hs) as [Hr _].
    apply (setIsMember_spec _ id s _ v _ Hr); [by apply object_index_of; [|lia]|done].
  - rewrite (so_empty M st Hok (Field u f)); [by rewrite bool_decide_eq_false_2 by set_solver|]. by apply eq_None_not_Some.
Qed.

Lemma in_all_users M st v e : store_ok M st -> records st !! v = Some e ->
  in_set st (Some AllUsers) v = Some (Z.b2z (negb (has (flags e) USER_GROUP))).
Proof.
  intros Hok He. destruct (index_bound M st Hok v e He) as [Hi Hv]. destruct (so_all M st Hok) as (s & Hs & [Hr _] & _).
  unfold in_set. rewrite Hs. cbn [mbind option_bind].
  rewrite (setIsMember_spec _ id s _ v _ Hr (object_index_of st v e He ltac:(lia)) Hv), (bool_decide_ext _ _ (so_members M st Hok v e He)).
  do 2 f_equal. by destruct (has (flags e) USER_GROUP).
Qed.

Lemma complete_holds M st f n m : (forall g, g ∈ gs -> complete M st g) -> related f n m -> holds M st n f m.
Proof. intros Hc. destruct f; intros (g & Hg & <- & Hn); destruct (Hc g Hg) as [H1 H2]; (apply H1 in Hn || apply H2 in Hn); tauto. Qed.

(** The whole start: all names are known, the sets are the relations, and [allUsersSet] has those that are no groups. *)
Lemma start_spec users fuel : NoDup users -> (forall n, n ∈ users -> n ∈ U /\ strstr n others = false) -> NU <= Z.of_nat fuel ->
  exists st, (st ← add_users users ustart; st ← uDataGroupCreate gs st; setuDataCreate fuel st) = Some st /\
    dom (uDataList st) ⊆ U /\
    (forall n, n ∈ users \/ (exists g, g ∈ gs /\ (n = group g \/ n ∈ names_below g)) -> n ∈ dom (uDataList st)) /\
    (forall n m u v f, uDataList st !! n = Some u -> uDataList st !! m = Some v ->
       exists b : bool, in_set st (ref_of st u f) v = Some (Z.b2z b) /\ (b = true <-> related f n m)) /\
    (forall n u, uDataList st !! n = Some u -> in_set st (Some AllUsers) u = Some (Z.b2z (bool_decide (n ∉ group <$> gs)))).
Proof.
  intros Hnd Husers Hfuel. destruct (add_users_spec [] _ ustart users start_made Hnd) as (s1 & M1 & -> & Hm1 & Hk1);
    [intros n Hn; by destruct (Husers n Hn)|]. cbn [mbind option_bind].
  destruct (uDataGroupCreate_spec [] M1 s1 Hm1 gs) as (s2 & M2 & -> & [Hok2 He2 Hf2 Hmk2] & Hs2);
    [done|apply Hgs|by intros g _ Hin%elem_of_nil|]. cbn [mbind option_bind]. rewrite app_nil_r in Hf2, Hmk2.
  assert (made gs M2 s2) as Hm2.
  { split; [done|done| |].
    - eapply flags_ok_mono; [|exact Hf2]. intros g. by rewrite !list_elem_of_In, <- in_rev.
    - intros g Hg. apply Hmk2. by rewrite list_elem_of_In, <- in_rev, <- list_elem_of_In. }
  pose proof (made_sound _ _ _ Hm2) as Hsound2. destruct Hm2 as [_ _ Hf Hmk].
  destruct (setuDataCreate_spec fuel M2 s2 Hok2 Hsound2 Hf Hmk Hfuel) as (s3 & M3 & -> & (Hok & Hsound & Hext & _) & Hc).
  apply (flags_ok_ext _ _ _ Hext) in Hf. apply (all_marked_ext _ _ _ Hext) in Hmk. pose proof Hext as [Hsub3 _ _ _].
  exists s3. split_and!; [done|apply (so_names M3 s3 Hok)| | |].
  - intros n Hn. apply elem_of_dom. destruct Hn as [Hn|(g & Hg & [->|Hn])].
    + destruct (Hk1 n (or_introl Hn)) as [u Hu]. exists u. by eapply lookup_weaken, Hsub3; eapply lookup_weaken, Hs2.
    + destruct (Hmk g Hg) as (u & _ & Hu & _). by exists u.
    + destruct (Hc g Hg) as [Hb _]. destruct (Hb n Hn) as [(u & _ & _ & Hu & _) _]. by exists u.
  - intros n m u v f Hu Hv. destruct (so_named M3 s3 Hok n u Hu) as (d & Hd & _). destruct (so_named M3 s3 Hok m v Hv) as (e & He & _).
    eexists. split; [by apply (in_field M3 s3 u d f v e)|]. rewrite bool_decide_eq_true. split.
    + intros Hx. apply (sound_related M3 s3); [done..|]. by exists u, v, e.
    + intros Hrel. destruct (complete_holds M3 s3 f n m Hc Hrel) as (u' & v' & e' & Hu' & Hv' & He' & Hx). congruence.
  - intros n u Hu. destruct (so_named M3 s3 Hok n u Hu) as (d & Hd & Hn). rewrite (in_all_users M3 s3 u d Hok Hd). do 2 f_equal.
    destruct (has (flags d) USER_GROUP) eqn:E.
    + rewrite bool_decide_eq_false_2; [done|]. intros Hx. apply Hx. destruct (proj2 (Hf u d Hd) E) as (g & Hg & Eg & _). rewrite <- Hn, <- Eg. by apply list_elem_of_fmap_2.
    + rewrite bool_decide_eq_true_2; [done|]. intros (g & -> & Hg)%list_elem_of_fmap. destruct (Hmk g Hg) as (u' & d' & Hu' & Hd' & E'). congruence.
Qed.
End Names.
End Store.

(** ** The closure of membership *)

Lemma all_members_unfold g n : n ∈ all_members g <-> n ∈ members g \/ exists s, s ∈ subgroups g /\ n ∈ all_members s.
Proof. destruct g as [name ms gs]. cbn [all_members members subgroups]. rewrite elem_of_app, list_elem_of_bind. naive_solver. Qed.

Lemma below_members gs g n : config_ok gs -> g ∈ gs -> n ∉ group <$> gs -> n ∈ names_below g <-> n ∈ all_members g.
Proof.
  intros Hgs Hg Hn. revert Hg. induction g as [g IH] using subgroup_ind. intros Hg. rewrite names_below_unfold, all_members_unfold.
  split; (intros [?|(s & Hs & Hb)]; [by left|]); pose proof (known_subgroups gs Hgs g s Hg Hs) as Hsg.
  - destruct Hb as [->|Hb]; [by destruct Hn; apply list_elem_of_fmap_2|]. right. exists s. split; [done|]. by apply (IH s Hs Hsg).
  - right. exists s. split; [done|right]. by apply (IH s Hs Hsg).
Qed.

Lemma not_everybody gs g : config_ok gs -> g ∈ gs -> everybody g = false.
Proof.
  intros Hgs. induction g as [g IH] using subgroup_ind. intros Hg. pose proof (not_all gs Hgs g Hg) as Hall. pose proof (known_subgroups gs Hgs g) as Hsub.
  destruct g as [name ms xs]. cbn [everybody]. unfold USER_GROUP_IS_ALL_USERS in Hall. cbn in Hall, IH, Hsub. rewrite Hall. cbn [orb].
  apply not_true_is_false. intros (s & Hs%list_elem_of_In & E)%existsb_exists. rewrite IH in E; [done|done|by apply Hsub].
Qed.

(** The names of the users, of the groups, and those in the groups. *)
Definition all_names (users : list cstr) (gs : list gData) : gset cstr :=
  list_to_set (users ++ (gs ≫= fun g => group g :: names_below g)).

Lemma elem_of_all_names users gs n : n ∈ all_names users gs <-> n ∈ users \/ exists g, g ∈ gs /\ (n = group g \/ n ∈ names_below g).
Proof.
  unfold all_names. rewrite elem_of_list_to_set, elem_of_app, list_elem_of_bind. f_equiv. f_equiv. intros g. rewrite elem_of_cons. tauto.
Qed.

(** C24: when different users and then the groups of a configuration have been entered (no group
    stands for everybody), [setuDataCreate] ends, and then for any two known names the sets of the first say
    exactly how the second is related to it: the parents and children are direct membership, the ancestors
    and descendants the transitive closure of it; the ancestors of a user are the groups for which [gMember], the
    recursive search of the groups, answers yes; [allUsersSet] has those that are no groups. The masks never
    outgrow their width, the stack of the walk does not overflow, and no index is out of range. *)
Theorem groups_closed (users : list cstr) (gs : list gData) (fuel : nat) :
  config_ok gs -> NoDup users -> (forall n, n ∈ users -> strstr n others = false) ->
  let NU := Z.of_nat (size (all_names users gs)) in
  2 ^ Z.of_nat (top_height gs) * (NU + NU / 32 + 8) <= 2 ^ 25 -> NU <= Z.of_nat fuel ->
  exists st, (st ← add_users users ustart; st ← uDataGroupCreate gs st; setuDataCreate fuel st) = Some st /\
    dom (uDataList st) = all_names users gs /\
    (forall n m u v, uDataList st !! n = Some u -> uDataList st !! m = Some v ->
       (forall f, exists b : bool, in_set st (ref_of st u f) v = Some (Z.b2z b) /\ (b = true <-> related gs f n m)) /\
       (forall g, g ∈ gs -> group g = m -> n ∉ group <$> gs -> in_set st (ref_of st u Ancestors) v = Some (Z.b2z (gMember n g))) /\
       in_set st (Some AllUsers) u = Some (Z.b2z (bool_decide (n ∉ group <$> gs)))).
Proof.
  intros Hgs Hnd Hoth NU Hbound Hfuel.
  destruct (start_spec (all_names users gs) NU (name_height gs) (top_height gs) ltac:(done) (height_top gs) Hbound gs Hgs (direct_height gs Hgs)
    ltac:(intros g n Hg Hn; apply elem_of_all_names; right; by exists g) users fuel Hnd
    ltac:(intros n Hn; split; [apply elem_of_all_names; by left|by apply Hoth]) Hfuel) as (st & E & Hdom & Hknown & Hsets & Hall).
  exists st. split_and!; [done| |].
  - apply set_eq. intros n. split; [apply Hdom|]. intros Hn%elem_of_all_names. by apply Hknown.
  - intros n m u v Hu Hv. split_and!; [intros f; by apply Hsets| |by apply Hall].
    intros g Hg <- Hn. destruct (Hsets n (group g) u v Ancestors Hu Hv) as (b & -> & Hb). do 2 f_equal. apply eq_true_iff_eq.
    rewrite Hb, gMember_spec, (not_everybody gs g Hgs Hg). cbn [orb]. rewrite bool_decide_eq_true, <- (below_members gs g n Hgs Hg Hn). split.
    + intros (h & Hh & Eh & Hx). by rewrite <- (same_group gs Hgs h g Hh Hg Eh).
    + intros Hx. by exists g.
Qed.

(** ** Examples *)

Definition programmers : gData := GData (lit "programmers") [lit "ann"; lit "bob"] [].
Definition staff : gData := GData (lit "staff") [lit "eve"] [programmers].
Definition start (users : list cstr) (gs : list gData) : option ustate :=
  st ← add_users users ustart; st ← uDataGroupCreate gs st; setuDataCreate 100 st.

Lemma staff_ok : config_ok [staff; programmers].
Proof.
  assert (forall g, g ∈ [staff; programmers] -> g = staff \/ g = programmers) as Hg by (intros g; rewrite !elem_of_cons, elem_of_nil; naive_solver).
  split; try (intros g Hin; destruct (Hg g Hin) as [-> | ->]).
  - apply (bool_decide_unpack _). by vm_compute.
  - intros g s Hin Hs. destruct (Hg g Hin) as [-> | ->]; cbn in Hs; set_solver.
  - intros g n Hin Hn. apply (bool_decide_unpack _). destruct (Hg g Hin) as [-> | ->]; cbn in Hn; rewrite ?elem_of_cons, elem_of_nil in Hn;
      destruct_or?; subst; by vm_compute.
  - done.
  - done.
  - intros g n Hin Hn. destruct (Hg g Hin) as [-> | ->]; unfold direct_names in Hn; cbn in Hn; rewrite ?elem_of_cons, ?elem_of_nil in Hn;
      destruct_or?; subst; by vm_compute.
  - apply Nat.leb_le. by vm_compute.
  - apply Nat.leb_le. by vm_compute.
Qed.

Lemma groups_closed_witness :
  exists st, start [lit "ann"; lit "joe"] [staff; programmers] = Some st /\
    in_set st (ref_of st 1 Ancestors) 3 = Some 1 /\ in_set st (ref_of st 2 Ancestors) 3 = Some 0 /\
    dom (uDataList st) = all_names [lit "ann"; lit "joe"] [staff; programmers].
Proof.
  destruct (groups_closed [lit "ann"; lit "joe"] [staff; programmers] 100 staff_ok) as (st & E & Hdom & _).
  - apply (bool_decide_unpack _). by vm_compute.
  - intros n Hn. rewrite !elem_of_cons, elem_of_nil in Hn. destruct_or?; subst; by vm_compute.
  - by vm_compute.
  - by vm_compute.
  - exists st. split; [exact E|]. vm_compute in E. injection E as <-. split_and!; [by vm_compute|by vm_compute|exact Hdom].
Defined.

(** A group that stands for everybody is an ancestor of the users who come after it, and not of those who were read before. *)
Definition everyone : gData := GData (lit "everyone") [] [].
Definition later_user : option (option Z * option Z * bool) :=
  st ← start [lit "ann"] [everyone];
  '(u, st) ← addUserData (lit "zoe") false false st;
  Some (in_set st (ref_of st 1 Ancestors) 2, in_set st (ref_of st u Ancestors) 2, gMember (lit "ann") everyone).

Example everyone_not_before : later_user = Some (Some 0, Some 1, true).
Proof. vm_compute. reflexivity. Qed.

(** A user who is read again gets a second index and a second entry of the table, and is twice in [allUsersSet]. *)
Example user_read_twice :
  (st ← add_users [lit "ann"; lit "ann"] ustart; us ← records_in st (Some AllUsers); Some (us, base st)) = Some ([1; 1], [1; 1]).
Proof. vm_compute. reflexivity. Qed.
